(* ===== verification/_CoqProject ===== *)
-Q . S2P
Prelude.v
Common.v
Replacer.v
Posix.v
Disk.v
Buffer.v
RmDefs.v
Log.v
Transaction.v
Record.v
SmMeta.v
IxDefs.v
IxNode.v
IxShape.v
IxHandle.v
IxManager.v
IxTree.v
IxInsert.v
SmManager.v
TransactionManager.v
Recovery.v
Values.v
Filter.v
Executor.v
Join.v
Aggregate.v
Scan.v
IndexScan.v
Modify.v
Printer.v
Ast.v
Analyze.v
Planner.v
Portal.v
Meaning.v
Server.v
