(* ===== verification/Prelude.v ===== *)
(** * OshinoDB: a verification development

    OshinoDB is a relational database server in C++ ([src/src]).  This library models the
    server from the calls of the operating system up to the statements of a client, all but the generated parser
    and the threads, and proves what the parts promise each other.

    ** The program

    A statement is parsed, analysed, planned and executed; the executors work on tables
    and indexes through the managers of storage.  From the bottom:
    - the disk manager ([storage/disk_manager]) does page, file and log I/O over POSIX calls;
    - the buffer pool ([storage/buffer_pool_manager]) keeps pages in frames, with pins and
      an LRU replacer ([replacer/lru_replacer]) that picks the frames to reuse;
    - the record manager ([record]) keeps tables as files of pages of records of one size,
      each page with a bitmap and the pages with free slots in a chain;
    - the index ([index]) is a B+ tree whose nodes are pages;
    - the log manager ([recovery/log_manager]) numbers log records and buffers them;
    - the lock manager ([transaction/concurrency]) locks tables, transactions
      ([transaction]) have a write set for their rollback and a lock set;
    - the system manager ([system]) keeps the metadata of the database, opens the files of
      tables and indexes, runs the statements that define them and takes changes back;
    - the transaction manager begins, commits and aborts; the recovery manager
      ([recovery/log_recovery]) analyses the log after a crash, repeats and undoes;
    - the executors ([execution]) scan tables and indexes and join, sort, aggregate and project rows, each
      pulling from the ones below it, or change tables; the filter ([execution/filter.h]) decides conditions;
    - the analysis ([analyze]) finds the tables of columns and converts values, the planner ([optimizer]) places the conditions
      and orders the joins, the portal ([portal.h]) makes executors of a plan and runs them;
    - the record printer ([record_printer.h]) writes rows into the reply, the server ([rmdb.cpp]) reads requests,
      runs each in a transaction and answers.

    ** The model

    A part is a Module with its state as a Record and a definition for each operation,
    in the state and exception monad [M] of this file: [M S A] takes a state to a state
    and a result, which is a value or an exception.  An exception keeps the state reached so far, as
    a C++ exception does.  The exceptions of [errors.h] are constructors of [exn], with
    [AssertFailure] for a failed assertion, [OutOfRange] and [InvalidArgument] for the exceptions of the standard
    library, which no handler of the server catches, and
    [Stuck] where the program has undefined behaviour (a null pointer, memory outside an
    array, a value that was not initialised); [OutOfFuel] is none of the program's and means that the fuel of a
    loop is used up.  Integers are [Z]
    with the wrap-around of their type written out ([i32], [mod 2^32], ...), memory is a list of
    bytes, a [Page *] is the index of its frame, and a write through it changes the frame even
    when the page was unpinned.  Containers are [gmap]s and [gset]s; where the code
    iterates over a hash container, whose order it does not fix, the model takes that of [map_to_list]
    or [elements].  Each call of a manager runs under its latch and is atomic here; the
    interleaving of calls is modelled for the lock manager, whose locks are about that.
    Where a part uses another through few operations, these are a class with its
    laws, the client's theorems are about the class, and the part has an instance.

    ** The files

    - [Prelude]: bytes, memory, machine integers, the monad.  [Common]: [common/config.h], [defs.h],
      [errors.h], page identifiers.
    - [Replacer]: class [Replacer] and its laws, Module [LRUReplacer].
    - [Posix]: the calls of the operating system as a class, their documented behaviour as laws,
      and an in-memory file system [MemFs] that has them, on which all witnesses run.
    - [Disk]: Module [DiskManager]; classes [Disk] and [DiskLaws] for the buffer pool.
    - [Buffer]: Module [BufferPool], on any [Disk] and [Replacer].
    - [RmDefs]: [record/rm_defs.h] and [bitmap.h].  [Record]: Modules [RmPage], [RmFileHandle],
      [RmManager], [RmScan]; class [Files] is what it uses of the disk manager.  Module [RmTable] has the theorems.
    - [Log]: the records of [recovery/log_manager.h] with [serialize] and [deserialize], Module [LogManager].
    - [Transaction]: [transaction/txn_defs.h], [transaction.h] (Module [Txn]), [LockManager],
      [Context]; classes [TxnContext], [HasTxn] with its laws [TxnLens], [StmtContext] are what other parts use of a context.
    - [SmMeta]: [system/sm_meta.h].  [IxDefs], [IxNode], [IxHandle], [IxManager]: [index].  [IxShape]: the
      shape of a B+ tree; [IxTree]: search in a tree of pages; [IxInsert]: insertion.
    - [SmManager]: [system/sm_manager]; class [Shell] is what it uses of the operating system.
    - [TransactionManager]: [transaction/transaction_manager].
    - [Recovery]: [recovery/log_recovery].
    - [Values]: [common/common.h], values with their conversion to bytes, dates.  [Filter]: [execution/filter.h], Module [Filter].
    - [Executor]: class [AbstractExecutor] with the laws [Enumerates], that an executor gives a
      list of rows; Modules [Projection] and [Sort].  [Join]: Module [NestedLoopJoin].  [Aggregate].  [Scan]: Module [SeqScan].
      [IndexScan].  [Modify]: the executors that insert, delete and update.
    - [Printer]: Module [Printer] is [record_printer.h], Module [Text] the text of a value, Module [Select] is
      [select_from] and the statements that show the metadata.
    - [Ast]: [parser/ast.h].  [Analyze]: [analyze].  [Planner]: [optimizer].
    - [Portal]: [portal.h] and the other operations of [execution/execution_manager.cpp].
    - [Meaning]: what the syntax tree of a selection from one table asks for, stated without the analysis, the planner and
      the filter, and that these agree with it.  [Server]: [rmdb.cpp].

    ** What is proved

    The whole.  A selection from a table without indexes that returns has written to output.txt the rows
    that its syntax tree asks for, by the meaning [Meaning] gives to its columns, conditions, order and limit, of the records of the
    file, and has changed no table ([select_one_table]: it is put
    together from the lemmas of the analysis, planner, portal, executors, record manager and buffer pool).
    A request is answered with its rows or the text of its error, and outside an explicit transaction it is
    committed and its locks released, even when it failed ([statement_ends]).

    Storage.  The disk manager is an array of pages ([DiskManager.pages_as_array]), its log a
    sequence of bytes ([log_append_read]) and its tables of open files stay consistent
    ([open_files_consistent], when no two of the names opened are names of one file and none is that of a device),
    over any operating system with the laws.  The replacer refines the
    policy it is named after ([lru_refines_policy]).  The buffer pool is transparent: a legal
    history of its operations reads what an array of pages would hold ([pool_transparent]); pinned pages stay
    ([pinned_page_stays]), a fetch fails only when all frames are pinned
    ([fetch_null_iff]), a flush persists ([flush_all_persists]); a failed read loses a page ([failed_fetch_loses_page]).
    [PageId_lt_both_ways] is about the order of page identifiers.

    Tables.  A table file is a map from record identifiers to records
    ([RmTable.table_is_map]); a scan visits each record once ([scan_visits_all]) and ends,
    with its records or with the exception of a page that could not be fetched, before its fuel does
    ([scan_terminates]); the layout fits the page ([new_file_hdr_ok]); the
    header reads back ([file_hdr_roundtrip]); the insertion a rollback could use miscounts ([rollback_miscounts]).

    Log.  Records read back ([record_roundtrip]), but for those of index pages ([index_pages_header_lost]) and the
    lengths some of them state ([stated_lengths]); the log is the stream of the records added,
    of those that cover the length they state ([log_stream]).

    Locks.  In every reachable state of interleaved transactions the locks are safe
    ([lock_safety]), granted exactly when they should be ([lock_granted_iff]) and kept ([locks_kept]); the phase of
    the transaction is not checked ([shrinking_not_refused]).

    Indexes.  A node is a map ([node_is_map]) whose binary searches are sequential ones
    ([binary_search_ok]); a new index has a sound header ([new_index_ok]), which reads back ([ix_hdr_roundtrip]).  On a
    well-formed tree of any height a search finds what the tree maps the key to
    ([get_value_lookup]) in at most as many steps as the tree is high ([find_leaf_terminates]); an insertion that
    returns adds the key to that map, through all splits up to a new root, and leaves the tree well formed, its
    leaves linked and no pin behind that the transaction does not count ([insert_entry_adds]).  Two theorems are
    about executions that go wrong ([range_positions_wrong], [emptied_index_unusable]).

    Metadata and statements.  The metadata file reads back ([db_meta_roundtrip]); creating and
    dropping an index restores the metadata ([create_drop_index]); keys are made in bounds
    ([index_key_ok]); a rolled back update may leave an index behind
    ([rollback_update_skips]).

    Statements.  The analysis accepts exactly the conditions that make sense, and the filter then always answers
    ([accepted_conditions]; not so for [foreign_column], [incompatible_columns]); the planner puts each condition where both its columns
    are at hand, with its sides exchanged only together with the order its operator asks for ([conditions_placed], for conditions
    between two columns of one table only when it is the first; but [condition_misplaced], [condition_forgotten], [join_without_plan]).

    Executors.  A sequential scan gives the records that satisfy the conditions ([seq_scan_selects]), the block nested loop join the
    relational join of its children ([joins_every_pair], [join_of_scans]), each column read at its place, when the right child can be
    run again, which a join cannot
    ([join_right_of_join]), a sort the rows in the order of the columns asked for, cut at the limit ([sorted_rows]; but
    [same_name_keys]), the aggregate the values of
    its functions ([aggregate_of_ints]).  Numbers are compared exactly ([numeric_condition_exact]), conditions that fit the
    columns never fail ([well_typed_returns]), dates are those of the calendar ([datetime_checked]).  An insertion puts
    one record of the values into the table, or throws before it has changed anything when one does not fit
    ([insert_record_of_values]).  What is shown is what the plan gives ([select_writes_rows]), cut
    at the first piece that does not fit the reply ([table_is_cut]).

    Transactions and recovery.  A commit logs, flushes and releases as it should
    ([commit_ok], in terms of the log manager's histories and of the steps of the lock model); an abort after
    the creation of an index never ends ([abort_index_never_ends]).  The analysis of a
    log computes its tables and ends ([analyze_tables]); undo does not end after a commit
    without an end record ([undo_committed_hangs]).

    ** Fuel and bounds

    Recursion that is not structural takes fuel, and running out of it is [OutOfFuel].  Scans take the pages or slots that are
    left, which [scan_terminates] proves enough; walks on a tree take one more than the pages of
    the file, enough on a well-formed tree by [find_leaf_terminates] and, for the way up of an insertion,
    [insert_parent_fuel] (more than the levels that are left), and on another tree a longer walk would be in a cycle.  The
    loops of [abort], [analyze], [redo] and [undo] need not end, and their fuel is a parameter:
    [analyze_tables] proves the number of records enough, and the theorems about the two loops that hang hold
    for every fuel.  The loops that pull rows out of executors have a fuel that is a parameter, too: [joins_every_pair] and
    [seq_scan_selects] say how much suffices for a join and for a scan, and [select_one_table] is about the
    runs that return, with any.  Sizes ([LOG_BUFFER_SIZE], the number of frames) are parameters, so that
    witnesses run on small ones.

    ** Not modelled

    - Deletion from a whole B+ tree is modelled, and its effect on a node is proved, but not
      that it keeps the tree well formed.
    - What an index scan gives: its executor is modelled, and not yet what its rows are.
    - Threads, latches and the thread identifier of a transaction.
    - The scanner and the parser, which are generated by flex and bison: [yyparse] is a parameter of the server, a
      function from the text of a request to a tree; [ast_printer.h], which prints trees.
    - Sockets, signals and the accept loop of [rmdb.cpp], the client; the tests and the vendored googletest. *)

From stdpp Require Export base tactics list gmap strings pretty.
From Stdlib Require Export ZArith Lia.

#[global] Set Default Goal Selector "!".

Declare Scope oshino_scope.
Delimit Scope oshino_scope with oshino.
Open Scope Z_scope.

(** ** Bytes and buffers

    A [char] buffer is the list of its bytes, each byte a [Z]. *)
Abbreviation bytes := (list Z).

(** Reading and overwriting a range of a buffer ([memcpy] out of and into it).
    An overwrite never changes the length of the buffer. *)
Definition mem_read (m : bytes) (off n : nat) : bytes := take n (drop off m).
Definition mem_write (m : bytes) (off : nat) (bs : bytes) : bytes :=
  take off m ++ take (length m - off) bs ++ drop (off + length bs) m.

(** ** Machine integers *)

(** Two's complement value of the low [w] bits of [z]. *)
Definition wrap_s (w : Z) (z : Z) : Z :=
  (z + 2 ^ (w - 1)) mod 2 ^ w - 2 ^ (w - 1).
Abbreviation i32 := (wrap_s 32).
Abbreviation i64 := (wrap_s 64).
Definition in_i32 (z : Z) : Prop := - 2 ^ 31 <= z < 2 ^ 31.
Definition in_u32 (z : Z) : Prop := 0 <= z < 2 ^ 32.
Definition in_u64 (z : Z) : Prop := 0 <= z < 2 ^ 64.
Definition in_i64 (z : Z) : Prop := - 2 ^ 63 <= z < 2 ^ 63.
Definition in_byte (z : Z) : Prop := 0 <= z < 256.

(** Little-endian encoding, as the memory of an x86-64 machine holds it. *)
Fixpoint le_encode (n : nat) (z : Z) : bytes :=
  match n with
  | O => []
  | S n' => z mod 256 :: le_encode n' (z / 256)
  end.
Fixpoint le_decode (bs : bytes) : Z :=
  match bs with
  | [] => 0
  | b :: bs' => b + 256 * le_decode bs'
  end.

(** The typed loads the code does through casts of a [char *]. *)
Definition load_u32 (m : bytes) (off : nat) : Z := le_decode (mem_read m off 4).
Definition load_i32 (m : bytes) (off : nat) : Z := i32 (le_decode (mem_read m off 4)).
Definition load_u64 (m : bytes) (off : nat) : Z := le_decode (mem_read m off 8).
Definition load_i64 (m : bytes) (off : nat) : Z := i64 (le_decode (mem_read m off 8)).
(** The typed stores. *)
Definition store_32 (m : bytes) (off : nat) (z : Z) : bytes := mem_write m off (le_encode 4 z).
Definition store_64 (m : bytes) (off : nat) (z : Z) : bytes := mem_write m off (le_encode 8 z).

(** ** Lengths *)
Create Rewrite HintDb len.

Lemma length_mem_write m off bs : length (mem_write m off bs) = length m.
Proof.
  unfold mem_write. rewrite !length_app, length_drop, !length_take. lia.
Qed.

Lemma length_mem_read m off n :
  length (mem_read m off n) = Nat.min n (length m - off).
Proof. unfold mem_read. rewrite length_take, length_drop. lia. Qed.

Lemma length_le_encode n z : length (le_encode n z) = n.
Proof. revert z. induction n; intros; simpl; auto. Qed.

#[export] Hint Rewrite length_mem_write length_mem_read length_le_encode
  @length_app @length_take @length_drop @length_replicate @length_insert
  @length_fmap @length_cons @length_nil @length_reverse : len.

(** [len] solves goals about the lengths of buffers. *)
Ltac len := autorewrite with len in *; simpl in *; try lia.

(** ** Reading back what was written *)

Lemma mem_read_write_same m off bs n :
  n = length bs -> (off + n <= length m)%nat ->
  mem_read (mem_write m off bs) off n = bs.
Proof.
  intros -> H. unfold mem_read, mem_write.
  rewrite drop_app_length' by (rewrite length_take; lia).
  rewrite (take_ge bs) by lia. apply take_app_length.
Qed.

Lemma lookup_mem_write_ne m off bs i :
  (i < off \/ off + length bs <= i)%nat -> mem_write m off bs !! i = m !! i.
Proof.
  intros H. destruct (decide (i < length m)%nat) as [Hi|Hi].
  2: { rewrite !lookup_ge_None_2; [done|lia|rewrite length_mem_write; lia]. }
  unfold mem_write. destruct (decide (i < off)%nat) as [Ho|Ho].
  - rewrite lookup_app_l by (rewrite length_take; lia).
    apply lookup_take_lt. lia.
  - rewrite lookup_app_r by (rewrite length_take; lia).
    rewrite lookup_app_r by (rewrite !length_take; lia).
    rewrite lookup_drop, !length_take. f_equal. lia.
Qed.

Lemma lookup_mem_write m off bs i :
  (off <= i < off + length bs)%nat -> (i < length m)%nat ->
  mem_write m off bs !! i = bs !! (i - off)%nat.
Proof.
  intros H Hi. unfold mem_write.
  rewrite lookup_app_r by (rewrite length_take; lia).
  rewrite lookup_app_l by (rewrite !length_take; lia).
  rewrite lookup_take_lt by (rewrite length_take; lia).
  f_equal. rewrite length_take. lia.
Qed.

Lemma lookup_mem_read m off n i :
  (i < n)%nat -> mem_read m off n !! i = m !! (off + i)%nat.
Proof. intros H. unfold mem_read. by rewrite lookup_take_lt, lookup_drop by lia. Qed.

Lemma mem_read_ext m m' off n :
  (forall i, (off <= i < off + n)%nat -> m !! i = m' !! i) ->
  mem_read m off n = mem_read m' off n.
Proof.
  intros H. apply list_eq. intros i. destruct (decide (i < n)%nat).
  - rewrite !lookup_mem_read by lia. apply H. lia.
  - unfold mem_read. rewrite !lookup_take_ge by lia. done.
Qed.

Lemma mem_read_write_disjoint m off bs off' n :
  (off' + n <= off \/ off + length bs <= off')%nat ->
  mem_read (mem_write m off bs) off' n = mem_read m off' n.
Proof. intros H. apply mem_read_ext. intros i Hi. apply lookup_mem_write_ne. lia. Qed.

Lemma mem_read_read m off n off' n' :
  (off' + n' <= n)%nat ->
  mem_read (mem_read m off n) off' n' = mem_read m (off + off') n'.
Proof.
  intros H. unfold mem_read. rewrite skipn_firstn_comm, drop_drop, take_take.
  f_equal. lia.
Qed.

Lemma mem_write_nil m off : mem_write m off [] = m.
Proof. unfold mem_write. rewrite take_nil. simpl. rewrite Nat.add_0_r. apply take_drop. Qed.

Lemma mem_read_full m : mem_read m 0 (length m) = m.
Proof. unfold mem_read. rewrite drop_0. by apply take_ge. Qed.

(** A write inside the window that a read looks at. *)
Lemma mem_read_write_inside m off bs o n :
  (o <= off)%nat -> (off + length bs <= o + n)%nat ->
  mem_read (mem_write m off bs) o n = mem_write (mem_read m o n) (off - o) bs.
Proof.
  intros H1 H2. apply list_eq. intros i.
  destruct (decide (i < n)%nat) as [Hi|Hi].
  2: { rewrite !lookup_ge_None_2; [done| |]; len. }
  rewrite lookup_mem_read by done.
  destruct (decide (o + i < length m)%nat) as [Hm|Hm].
  2: { rewrite !lookup_ge_None_2; [done| |]; len. }
  destruct (decide (off <= o + i < off + length bs)%nat).
  - rewrite !lookup_mem_write by len. f_equal. lia.
  - rewrite !lookup_mem_write_ne by lia. by rewrite lookup_mem_read by done.
Qed.

(** ** Round trips of the encodings *)

Lemma le_decode_encode n z : le_decode (le_encode n z) = z mod 256 ^ Z.of_nat n.
Proof.
  revert z. induction n as [|n IH]; intros z; [by rewrite Z.mod_1_r|].
  cbn [le_encode le_decode]. rewrite IH, Nat2Z.inj_succ, Z.pow_succ_r by lia.
  rewrite Z.rem_mul_r by lia. done.
Qed.

Lemma le_decode_bound bs : Forall in_byte bs -> 0 <= le_decode bs < 256 ^ Z.of_nat (length bs).
Proof.
  induction 1 as [|b bs Hb _ IH]; simpl; [lia|].
  replace (Z.of_nat (S (length bs))) with (Z.succ (Z.of_nat (length bs))) by lia.
  rewrite Z.pow_succ_r by lia. unfold in_byte in Hb. lia.
Qed.

Lemma le_encode_byte n z : Forall in_byte (le_encode n z).
Proof.
  revert z. induction n; intros z; simpl; constructor; auto.
  unfold in_byte. apply Z.mod_pos_bound. lia.
Qed.

Lemma le_encode_decode bs : Forall in_byte bs -> le_encode (length bs) (le_decode bs) = bs.
Proof.
  induction 1 as [|b bs Hb _ IH]; simpl; [done|]. unfold in_byte in Hb.
  rewrite (Z.mul_comm 256), Z_mod_plus_full, Z.div_add, Z.mod_small, Z.div_small by lia.
  by rewrite Z.add_0_l, IH.
Qed.

Lemma wrap_s_small w z : 0 < w -> - 2 ^ (w - 1) <= z < 2 ^ (w - 1) -> wrap_s w z = z.
Proof.
  intros Hw H. unfold wrap_s.
  replace (2 ^ w) with (2 * 2 ^ (w - 1)).
  - rewrite Z.mod_small; lia.
  - rewrite <- Z.pow_succ_r by lia. f_equal. lia.
Qed.

Lemma wrap_s_mod w z : 0 < w -> wrap_s w (z mod 2 ^ w) = wrap_s w z.
Proof. intros Hw. unfold wrap_s. by rewrite Zplus_mod_idemp_l. Qed.

Lemma i32_small z : in_i32 z -> i32 z = z.
Proof. intros H. by apply wrap_s_small. Qed.

Lemma i64_small z : in_i64 z -> i64 z = z.
Proof. intros H. by apply wrap_s_small. Qed.

Lemma i32_range z : in_i32 (i32 z).
Proof.
  unfold in_i32, wrap_s. change (32 - 1) with 31.
  change (2 ^ 31) with 2147483648. change (2 ^ 32) with 4294967296.
  pose proof (Z.mod_pos_bound (z + 2147483648) 4294967296). lia.
Qed.

Lemma i32_decode_encode z : in_i32 z -> i32 (le_decode (le_encode 4 z)) = z.
Proof.
  intros H. rewrite le_decode_encode. change (256 ^ Z.of_nat 4) with (2 ^ 32).
  rewrite wrap_s_mod by lia. by apply i32_small.
Qed.

Lemma u64_decode_encode z : in_u64 z -> le_decode (le_encode 8 z) = z.
Proof. intros H. rewrite le_decode_encode. by apply Z.mod_small. Qed.

Lemma u32_decode_encode z : in_u32 z -> le_decode (le_encode 4 z) = z.
Proof. intros H. rewrite le_decode_encode. by apply Z.mod_small. Qed.

Lemma load_store_i32 m off z :
  (off + 4 <= length m)%nat -> in_i32 z -> load_i32 (store_32 m off z) off = z.
Proof.
  intros Hl Hz. unfold load_i32, store_32.
  rewrite mem_read_write_same by (rewrite ?length_le_encode; lia).
  by apply i32_decode_encode.
Qed.

Lemma load_store_i32_ne m off off' z :
  (off' + 4 <= off \/ off + 4 <= off')%nat ->
  load_i32 (store_32 m off z) off' = load_i32 m off'.
Proof.
  intros H. unfold load_i32, store_32. f_equal. f_equal.
  apply mem_read_write_disjoint. rewrite length_le_encode. lia.
Qed.

Lemma length_store_32 m off z : length (store_32 m off z) = length m.
Proof. apply length_mem_write. Qed.
#[export] Hint Rewrite length_store_32 : len.

(** ** Writing a sequence of chunks

    Serializers fill a buffer with [memcpy]s at growing offsets: a list of chunks,
    each an offset and its bytes. *)
Definition apply_writes (m : bytes) (base : nat) (ws : list (nat * bytes)) : bytes :=
  fold_left (fun m w => mem_write m (base + w.1) w.2) ws m.

(** Each chunk starts where the one before it ends. *)
Fixpoint tiles (o : nat) (ws : list (nat * bytes)) : Prop :=
  match ws with
  | [] => True
  | w :: ws' => w.1 = o /\ tiles (o + length w.2) ws'
  end.

Lemma mem_write_app m o b1 b2 :
  (o + length b1 + length b2 <= length m)%nat ->
  mem_write (mem_write m o b1) (o + length b1) b2 = mem_write m o (b1 ++ b2).
Proof.
  intros H. apply list_eq. intros i.
  destruct (decide (i < length m)%nat) as [Hi|Hi].
  2: { rewrite !lookup_ge_None_2; [done| |]; len. }
  destruct (decide (o <= i < o + length b1)%nat) as [H1|H1].
  { rewrite lookup_mem_write_ne by lia.
    rewrite !lookup_mem_write by (rewrite ?length_app; lia). by rewrite lookup_app_l by lia. }
  destruct (decide (o + length b1 <= i < o + length b1 + length b2)%nat) as [H2|H2].
  { rewrite !lookup_mem_write by (rewrite ?length_mem_write, ?length_app; lia).
    rewrite lookup_app_r by lia. f_equal. lia. }
  rewrite !lookup_mem_write_ne by (rewrite ?length_app; lia). done.
Qed.

Lemma apply_writes_tiles ws : forall m base o,
  tiles o ws -> (base + o + length (concat ws.*2) <= length m)%nat ->
  apply_writes m base ws = mem_write m (base + o) (concat ws.*2).
Proof.
  induction ws as [|[o' bs] ws IH]; intros m base o Ht Hl.
  - simpl. by rewrite mem_write_nil.
  - rewrite fmap_cons in *. cbn [tiles concat fst snd] in *. destruct Ht as [-> Ht].
    rewrite length_app in Hl. unfold apply_writes in *. cbn [fold_left fst snd].
    rewrite (IH _ _ (o + length bs)%nat Ht) by (rewrite length_mem_write; lia).
    rewrite Nat.add_assoc. apply mem_write_app. lia.
Qed.

Lemma length_apply_writes m base ws : length (apply_writes m base ws) = length m.
Proof.
  revert m. induction ws as [|w ws IH]; intros m; simpl; [done|]. unfold apply_writes in *.
  simpl. by rewrite IH, length_mem_write.
Qed.
#[export] Hint Rewrite length_apply_writes : len.

(** Reading the pieces of a concatenation. *)
Lemma mem_read_app_r m1 m2 off n :
  mem_read (m1 ++ m2) (length m1 + off) n = mem_read m2 off n.
Proof. unfold mem_read. by rewrite <- drop_drop, drop_app_length. Qed.

Lemma mem_read_app_l m1 m2 n : n = length m1 -> mem_read (m1 ++ m2) 0 n = m1.
Proof. intros ->. unfold mem_read. rewrite drop_0. apply take_app_length. Qed.

(** One piece of a buffer made of consecutive pieces. *)
Lemma mem_read_concat (l1 l2 : list bytes) b o :
  o = length (concat l1) -> mem_read (concat (l1 ++ b :: l2)) o (length b) = b.
Proof.
  intros ->. rewrite concat_app. simpl. rewrite <- (Nat.add_0_r (length _)), mem_read_app_r.
  by apply mem_read_app_l.
Qed.

(** Reading where a block of bytes was written. *)
Lemma mem_read_block m base bs o n :
  (o + n <= length bs)%nat -> (base + length bs <= length m)%nat ->
  mem_read (drop base (mem_write m base bs)) o n = mem_read bs o n.
Proof.
  intros H1 H2. apply list_eq. intros i. destruct (decide (i < n)%nat).
  - rewrite !lookup_mem_read by lia. rewrite lookup_drop, lookup_mem_write by lia. f_equal. lia.
  - unfold mem_read. rewrite !lookup_take_ge by lia. done.
Qed.

(** ** Lists *)

Lemma filter_all {A} (P : A -> Prop) `{!forall x, Decision (P x)} (l : list A) :
  Forall P l -> filter P l = l.
Proof. induction 1; [done|]. rewrite filter_cons_True by done. by f_equal. Qed.

Lemma removelast_snoc {A} (l : list A) x : removelast (l ++ [x]) = l.
Proof. apply removelast_last. Qed.

Lemma filter_fst_ne_fresh {A B} `{!EqDecision A} (l : list (A * B)) a :
  a ∉ l.*1 -> filter (fun p => p.1 <> a) l = l.
Proof.
  intros H. apply filter_all, Forall_forall. intros [x y] Hin. simpl. intros ->.
  apply H, list_elem_of_fmap. by exists (a, y).
Qed.

(** ** Exceptions and state

    The code signals failure by throwing, and what it changed before the throw
    stays changed.  A stateful operation is a function of the state that returns
    the new state together with a result or an exception. *)

(** Why a transaction is aborted ([txn_defs.h]). *)
Inductive AbortReason := LOCK_ON_SHIRINKING | UPGRADE_CONFLICT | DEADLOCK_PREVENTION.

(** The C++ exceptions of [errors.h] and [txn_defs.h], with what they carry, and
    the ways a run can stop without one: a failed [assert], [std::out_of_range],
    [std::invalid_argument], [Stuck], the model's mark for undefined behaviour, and
    [OutOfFuel], its mark for a loop that was given too few turns. *)
Inductive exn :=
  | InternalError (msg : string)
  | UnixError
  | FileNotOpenError (fd : Z)
  | FileNotClosedError (filename : string)
  | FileExistsError (filename : string)
  | FileNotFoundError (filename : string)
  | RecordNotFoundError (page_no slot_no : Z)
  | InvalidRecordSizeError (record_size : Z)
  | InvalidColLengthError (col_len : Z)
  | IndexEntryNotFoundError
  | DatabaseNotFoundError (db_name : string)
  | DatabaseExistsError (db_name : string)
  | TableNotFoundError (tab_name : string)
  | TableExistsError (tab_name : string)
  | ColumnNotFoundError (col_name : string)
  | IndexNotFoundError (tab_name : string) (col_names : list string)
  | IndexExistsError (tab_name : string) (col_names : list string)
  | InvalidValueCountError
  | StringOverflowError
  | IncompatibleTypeError (lhs rhs : string)
  | AmbiguousColumnError (col_name : string)
  | PageNotExistError (table_name : string) (page_no : Z)
  | TransactionAbortException (txn_id : Z) (reason : AbortReason)
  | AssertFailure
  | OutOfRange
  | InvalidArgument
  | Stuck
  | OutOfFuel.

Inductive res (A : Type) :=
  | Ok (a : A)
  | Throw (e : exn).
Arguments Ok {A} a.
Arguments Throw {A} e.

(** Results without a state. *)
#[global] Instance res_ret : MRet res := fun A a => Ok a.
#[global] Instance res_bind : MBind res := fun A B k m =>
  match m with Ok a => k a | Throw e => Throw e end.

(** State and exceptions: a throw keeps the state reached so far. *)
Definition M (S A : Type) : Type := S -> S * res A.
#[global] Instance M_ret S : MRet (M S) := fun A a s => (s, Ok a).
#[global] Instance M_bind S : MBind (M S) := fun A B k m s =>
  match m s with
  | (s', Ok a) => k a s'
  | (s', Throw e) => (s', Throw e)
  end.

Definition throw {S A} (e : exn) : M S A := fun s => (s, Throw e).
Definition get {S} : M S S := fun s => (s, Ok s).
Definition gets {S A} (f : S -> A) : M S A := fun s => (s, Ok (f s)).
Definition put {S} (s' : S) : M S unit := fun _ => (s', Ok tt).
Definition modify {S} (f : S -> S) : M S unit := fun s => (f s, Ok tt).
Definition assertM {S} (b : bool) : M S unit := if b then mret tt else throw AssertFailure.
Definition whenM {S} (b : bool) (m : M S unit) : M S unit := if b then m else mret tt.

(** Running an operation of a part of the state. *)
Definition zoom {S T A} (prj : S -> T) (upd : T -> S -> S) (m : M T A) : M S A :=
  fun s => let '(t, r) := m (prj s) in (upd t s, r).

(** The [for] loop over the elements of a container. *)
Fixpoint forM {S A} (l : list A) (f : A -> M S unit) : M S unit :=
  match l with
  | [] => mret tt
  | x :: l' => f x;; forM l' f
  end.

(** ** Equations of the monad *)
Section monad.
Context {S A B : Type}.
Implicit Types (m : M S A) (k : A -> M S B).

Lemma bind_ok m k s s' a : m s = (s', Ok a) -> (m ≫= k) s = k a s'.
Proof. unfold mbind, M_bind. by intros ->. Qed.

Lemma bind_throw m k s s' e : m s = (s', Throw e) -> (m ≫= k) s = (s', Throw e).
Proof. unfold mbind, M_bind. by intros ->. Qed.

Lemma bind_same m k k' s :
  (forall s' a, m s = (s', Ok a) -> k a s' = k' a s') -> (m ≫= k) s = (m ≫= k') s.
Proof. intros Hk. unfold mbind, M_bind. destruct (m s) as [s' [a|e]]; [by apply Hk|done]. Qed.

Lemma bind_inv m k s s' b :
  (m ≫= k) s = (s', Ok b) -> exists s1 a, m s = (s1, Ok a) /\ k a s1 = (s', Ok b).
Proof.
  unfold mbind, M_bind. destruct (m s) as [s1 [a|e]]; [eauto|discriminate].
Qed.

Lemma bind_inv_any m k s s' r :
  (m ≫= k) s = (s', r) ->
  (exists s1 a, m s = (s1, Ok a) /\ k a s1 = (s', r)) \/
  (exists e, m s = (s', Throw e) /\ r = Throw e).
Proof.
  unfold mbind, M_bind. destruct (m s) as [s1 [a|e]]; [by eauto|].
  intros [= <- <-]. by eauto.
Qed.
End monad.

(** Unfold the primitive operations of the monad and compute. *)
Ltac msimpl :=
  unfold mbind, M_bind, mret, M_ret, get, gets, put, modify, throw, assertM, whenM, zoom in *;
  simpl in *.

(** Break a run that returned normally into the runs of its steps. *)
Ltac minv :=
  repeat match goal with
  | H : (_ ≫= _) _ = (_, Ok _) |- _ =>
      let s := fresh "s" in let a := fresh "a" in let H1 := fresh "Hm" in
      apply bind_inv in H as (s & a & H1 & H)
  end.
