(* ===== verification/Common.v ===== *)
(** * Common definitions

    The constants of [common/config.h], the identifiers and enumerations of
    [defs.h] and [storage/page.h], and the messages of the exceptions of
    [errors.h] and [transaction/txn_defs.h]. *)

From S2P Require Import Prelude.

(** ** [common/config.h] *)
Definition INVALID_FRAME_ID : Z := -1.
Definition INVALID_PAGE_ID : Z := -1.
Definition INVALID_TXN_ID : Z := -1.
Definition INVALID_LSN : Z := -1.
Definition HEADER_PAGE_ID : Z := 0.
Definition PAGE_SIZE : Z := 4096.
Definition BUFFER_POOL_SIZE : Z := 65536.
Definition LOG_BUFFER_SIZE : Z := 1024 * PAGE_SIZE.
Definition BUFFER_LENGTH : Z := 8192.
Definition LOG_FILE_NAME : string := "db.log".
Definition DB_META_NAME : string := "db.meta".

(** [PAGE_SIZE] as a list length. *)
Definition page_size : nat := Z.to_nat PAGE_SIZE.
Lemma page_size_Z : Z.of_nat page_size = PAGE_SIZE.
Proof. done. Qed.
#[global] Opaque page_size.
#[export] Hint Rewrite page_size_Z : len.

(** ** [defs.h] *)
Record Rid := mkRid { rid_page_no : Z; rid_slot_no : Z }.
#[global] Instance Rid_eq_dec : EqDecision Rid.
Proof. solve_decision. Defined.

Inductive ColType :=
  | TYPE_INT | TYPE_FLOAT | TYPE_STRING | TYPE_BIGINT | TYPE_DATETIME | TYPE_DOUBLE.
#[global] Instance ColType_eq_dec : EqDecision ColType.
Proof. solve_decision. Defined.

Inductive Func := FUNC_NULL | FUNC_COUNT | FUNC_MAX | FUNC_MIN | FUNC_SUM.
#[global] Instance Func_eq_dec : EqDecision Func.
Proof. solve_decision. Defined.

(** The enumerators' values, which is what the code stores on disk. *)
Definition ColType_val (t : ColType) : Z :=
  match t with
  | TYPE_INT => 0 | TYPE_FLOAT => 1 | TYPE_STRING => 2
  | TYPE_BIGINT => 3 | TYPE_DATETIME => 4 | TYPE_DOUBLE => 5
  end.

(** The enumerator with a given value. *)
Definition ColType_of (z : Z) : option ColType :=
  match z with
  | 0 => Some TYPE_INT | 1 => Some TYPE_FLOAT | 2 => Some TYPE_STRING
  | 3 => Some TYPE_BIGINT | 4 => Some TYPE_DATETIME | 5 => Some TYPE_DOUBLE
  | _ => None
  end.

Lemma ColType_of_val l : mapM ColType_of (ColType_val <$> l) = Some l.
Proof. apply mapM_Some. apply Forall2_fmap_l, Forall_Forall2_diag, Forall_true. by intros []. Qed.

(** [m.at(type)]: the map has no entry for [TYPE_DOUBLE]. *)
Definition coltype2str (type : ColType) : res string :=
  match type with
  | TYPE_INT => Ok "INT"
  | TYPE_FLOAT => Ok "FLOAT"
  | TYPE_STRING => Ok "STRING"
  | TYPE_BIGINT => Ok "BIGINT"
  | TYPE_DATETIME => Ok "DATETIME"
  | TYPE_DOUBLE => Throw OutOfRange
  end.

(** ** [storage/page.h]: page identifiers *)
Record PageId := mkPageId { fd : Z; page_no : Z }.
#[global] Instance PageId_eq_dec : EqDecision PageId.
Proof. solve_decision. Defined.
#[global] Instance PageId_countable : Countable PageId.
Proof.
  apply (inj_countable' (fun p => (fd p, page_no p)) (fun '(f, p) => mkPageId f p)).
  by intros [].
Defined.

(** [PageId::operator<]. *)
Definition PageId_lt (a b : PageId) : bool :=
  if fd a <? fd b then true else page_no a <? page_no b.

(** [PageId::Get]: the shift is done on [int], then widened. *)
Definition PageId_Get (p : PageId) : Z :=
  Z.lor (i32 (Z.shiftl (fd p) 16)) (page_no p).

(** [PageIdHash::operator()]: an [int] converted to [size_t]. *)
Definition PageIdHash (p : PageId) : Z :=
  Z.lor (i32 (Z.shiftl (fd p) 16)) (page_no p) mod 2 ^ 64.

(** ** [errors.h]: the text of an exception *)

(** The comma-separated column list of the two index exceptions. *)
Fixpoint join_cols (first : bool) (col_names : list string) : string :=
  match col_names with
  | [] => ""
  | c :: cs => (if first then "" else ", ") +:+ c +:+ join_cols false cs
  end.

Definition RMDB_msg (msg : string) : string := "Error: " +:+ msg.

(** [what()]; [None] where the exception is not an [RMDBError] (or its text is
    that of [strerror(errno)]). *)
Definition what (e : exn) : option string :=
  match e with
  | InternalError msg => Some (RMDB_msg msg)
  | UnixError => None
  | FileNotOpenError fd => Some (RMDB_msg ("Invalid file descriptor: " +:+ pretty fd))
  | FileNotClosedError f => Some (RMDB_msg ("File is opened: " +:+ f))
  | FileExistsError f => Some (RMDB_msg ("File already exists: " +:+ f))
  | FileNotFoundError f => Some (RMDB_msg ("File not found: " +:+ f))
  | RecordNotFoundError p s =>
      Some (RMDB_msg ("Record not found: (" +:+ pretty p +:+ "," +:+ pretty s +:+ ")"))
  | InvalidRecordSizeError n => Some (RMDB_msg ("Invalid record size: " +:+ pretty n))
  | InvalidColLengthError n => Some (RMDB_msg ("Invalid column length: " +:+ pretty n))
  | IndexEntryNotFoundError => Some (RMDB_msg "Index entry not found")
  | DatabaseNotFoundError d => Some (RMDB_msg ("Database not found: " +:+ d))
  | DatabaseExistsError d => Some (RMDB_msg ("Database already exists: " +:+ d))
  | TableNotFoundError t => Some (RMDB_msg ("Table not found: " +:+ t))
  | TableExistsError t => Some (RMDB_msg ("Table already exists: " +:+ t))
  | ColumnNotFoundError c => Some (RMDB_msg ("Column not found: " +:+ c))
  | IndexNotFoundError t cs =>
      Some ("Error: Index not found: " +:+ t +:+ ".(" +:+ join_cols true cs +:+ ")")
  | IndexExistsError t cs =>
      Some ("Error: Index already exists: " +:+ t +:+ ".(" +:+ join_cols true cs +:+ ")")
  | InvalidValueCountError => Some (RMDB_msg "Invalid value count")
  | StringOverflowError => Some (RMDB_msg "String is too long")
  | IncompatibleTypeError l r =>
      Some (RMDB_msg ("Incompatible type error: lhs " +:+ l +:+ ", rhs " +:+ r))
  | AmbiguousColumnError c => Some (RMDB_msg ("Ambiguous column: " +:+ c))
  | PageNotExistError t p =>
      Some (RMDB_msg ("Page " +:+ pretty p +:+ " in table " +:+ t +:+ "not exits"))
  | TransactionAbortException _ _ | AssertFailure | OutOfRange | InvalidArgument | Stuck | OutOfFuel => None
  end.

(** The newline character. *)
Definition endl : string := String (Ascii.ascii_of_nat 10) "".

(** [TransactionAbortException::GetInfo]. *)
Definition GetInfo (txn_id : Z) (reason : AbortReason) : string :=
  match reason with
  | LOCK_ON_SHIRINKING =>
      "Transaction " +:+ pretty txn_id +:+
      " aborted because it cannot request locks on SHRINKING phase" +:+ endl
  | UPGRADE_CONFLICT =>
      "Transaction " +:+ pretty txn_id +:+
      " aborted because another transaction is waiting for upgrading" +:+ endl
  | DEADLOCK_PREVENTION =>
      "Transaction " +:+ pretty txn_id +:+ " aborted for deadlock prevention" +:+ endl
  end.

(** ** C strings

    The characters of a [std::string] as bytes, and the string a NUL-terminated
    array holds. *)
Definition str_bytes (s : string) : bytes :=
  (fun a => Z.of_N (Ascii.N_of_ascii a)) <$> String.list_ascii_of_string s.
Definition bytes_str (bs : bytes) : string :=
  String.string_of_list_ascii ((fun z => Ascii.ascii_of_N (Z.to_N z)) <$> bs).
Fixpoint c_str (bs : bytes) : bytes :=
  match bs with
  | [] => []
  | b :: bs' => if b =? 0 then [] else b :: c_str bs'
  end.

Lemma length_str_bytes s : length (str_bytes s) = String.length s.
Proof. unfold str_bytes. rewrite length_fmap. induction s; simpl; auto. Qed.

Lemma bytes_str_bytes s : bytes_str (str_bytes s) = s.
Proof.
  unfold bytes_str, str_bytes. rewrite <- list_fmap_compose.
  rewrite <- (String.string_of_list_ascii_of_string s) at 2. f_equal.
  induction (String.list_ascii_of_string s) as [|a l IH]; [done|].
  rewrite fmap_cons, IH. unfold compose. by rewrite N2Z.id, Ascii.ascii_N_embedding.
Qed.

(** Names without a NUL character. *)
Definition nul_free (s : string) : Prop := Forall (fun b => b <> 0) (str_bytes s).

Lemma c_str_nul_free bs rest : Forall (fun b => b <> 0) bs -> c_str (bs ++ 0 :: rest) = bs.
Proof.
  induction 1 as [|b bs Hb _ IH]; simpl; [done|].
  rewrite (proj2 (Z.eqb_neq b 0) Hb). by f_equal.
Qed.

Lemma c_str_id bs : Forall (fun b => b <> 0) bs -> c_str bs = bs.
Proof.
  induction 1 as [|b bs Hb _ IH]; simpl; [done|].
  rewrite (proj2 (Z.eqb_neq b 0) Hb). by f_equal.
Qed.

(** ** Properties *)

(** [PageId::operator<] orders both ways exactly the pairs whose file
    descriptors and page numbers are ordered oppositely; on pages of one file it is
    the order of the page numbers.  As two pages of different files can each be
    less than the other, it is not the strict weak order [std::map] asks for. *)
Theorem PageId_lt_both_ways a b :
  (PageId_lt a b = true /\ PageId_lt b a = true <->
     (fd a < fd b /\ page_no b < page_no a) \/ (fd b < fd a /\ page_no a < page_no b)) /\
  (fd a = fd b -> PageId_lt a b = (page_no a <? page_no b)).
Proof.
  unfold PageId_lt. split.
  - destruct (Z.ltb_spec (fd a) (fd b)), (Z.ltb_spec (fd b) (fd a));
      rewrite ?Z.ltb_lt; intuition lia.
  - intros ->. by rewrite Z.ltb_irrefl.
Qed.
