(* ===== verification/Replacer.v ===== *)
(** * The page replacer

    [Replacer] is the abstract class of [replacer/replacer.h] and the contract the
    buffer pool relies on; Module [LRUReplacer] is [replacer/lru_replacer.cpp], with
    its list, its hash of iterators into that list, and the proof that it implements
    the contract and the least-recently-unpinned policy. *)

From S2P Require Import Prelude Common.

(** ** The interface *)

(** [replacer.h]: the virtual methods; [victim] returns the frame it chose, or
    [None] where the code returns [false]. *)
Class Replacer (R : Type) := {
  r_victim : R -> R * option Z;
  r_pin : Z -> R -> R;
  r_unpin : Z -> R -> R;
  r_Size : R -> Z;
}.

(** What a replacer promises, in terms of the set of frames it may evict. *)
Class ReplacerLaws (R : Type) `{Replacer R} := {
  r_ok : R -> Prop;
  r_evictable : R -> gset Z;
  r_victim_none r : r_ok r -> r_evictable r = ∅ -> r_victim r = (r, None);
  r_victim_some r : r_ok r -> r_evictable r <> ∅ ->
    exists r' f, r_victim r = (r', Some f) /\ r_ok r' /\
      f ∈ r_evictable r /\ r_evictable r' = r_evictable r ∖ {[f]};
  r_pin_ok r f : r_ok r -> r_ok (r_pin f r);
  r_pin_set r f : r_ok r -> r_evictable (r_pin f r) = r_evictable r ∖ {[f]};
  r_unpin_ok r f : r_ok r -> r_ok (r_unpin f r);
  r_unpin_set r f : r_ok r -> r_evictable (r_unpin f r) = r_evictable r ∪ {[f]};
  r_Size_set r : r_ok r -> r_Size r = Z.of_nat (size (r_evictable r));
}.

Module LRUReplacer.

(** ** State

    A [std::list] is the sequence of its nodes; an iterator is the identity of a
    node, so that [erase(it)] removes that node whatever its position.  [fresh] is
    the identity the next node gets. *)
Record t := mk {
  LRUlist_ : list (nat * Z);
  LRUhash_ : gmap Z nat;
  fresh : nat;
  max_size_ : Z;
}.

Definition make (num_pages : Z) : t := mk [] ∅ 0 num_pages.

(** [std::list::erase]. *)
Definition erase_node (it : nat) (l : list (nat * Z)) : list (nat * Z) :=
  filter (fun nd => nd.1 <> it) l.

Definition victim (s : t) : t * option Z :=
  match last (LRUlist_ s) with
  | None => (s, None)
  | Some nd =>
      (mk (removelast (LRUlist_ s)) (delete nd.2 (LRUhash_ s)) (fresh s) (max_size_ s),
       Some nd.2)
  end.

Definition pin (frame_id : Z) (s : t) : t :=
  match LRUhash_ s !! frame_id with
  | None => s
  | Some it =>
      mk (erase_node it (LRUlist_ s)) (delete frame_id (LRUhash_ s)) (fresh s) (max_size_ s)
  end.

Definition unpin (frame_id : Z) (s : t) : t :=
  match LRUhash_ s !! frame_id with
  | Some _ => s
  | None =>
      mk ((fresh s, frame_id) :: LRUlist_ s) (<[frame_id := fresh s]> (LRUhash_ s))
         (S (fresh s)) (max_size_ s)
  end.

Definition Size (s : t) : Z := Z.of_nat (length (LRUlist_ s)).

#[global] Instance LRU_Replacer : Replacer t := {
  r_victim := victim;
  r_pin := pin;
  r_unpin := unpin;
  r_Size := Size;
}.

(** ** Representation invariant

    The hash holds exactly the nodes of the list, each under its frame. *)
Record wf (s : t) : Prop := {
  wf_nodes : NoDup (LRUlist_ s).*1;
  wf_fresh : Forall (fun nd => nd.1 < fresh s)%nat (LRUlist_ s);
  wf_hash f n : LRUhash_ s !! f = Some n <-> (n, f) ∈ LRUlist_ s;
}.

(** The abstraction: the evictable frames, most recently unpinned first. *)
Definition frames (s : t) : list Z := (LRUlist_ s).*2.

(** ** The policy, on the abstract list *)
Module spec.
Definition victim (l : list Z) : list Z * option Z :=
  match last l with
  | None => (l, None)
  | Some f => (removelast l, Some f)
  end.
Definition pin (f : Z) (l : list Z) : list Z := filter (fun g => g <> f) l.
Definition unpin (f : Z) (l : list Z) : list Z := if decide (f ∈ l) then l else f :: l.
End spec.

(** ** Lemmas *)

Lemma lru_wf_make n : wf (make n).
Proof.
  split; simpl; [constructor|constructor|].
  intros f k. rewrite lookup_empty. set_solver.
Qed.

Lemma wf_frame_unique s n1 n2 f :
  wf s -> (n1, f) ∈ LRUlist_ s -> (n2, f) ∈ LRUlist_ s -> n1 = n2.
Proof. intros Hw H1%Hw H2%Hw. congruence. Qed.

Lemma wf_node_unique s n f1 f2 :
  wf s -> (n, f1) ∈ LRUlist_ s -> (n, f2) ∈ LRUlist_ s -> f1 = f2.
Proof.
  intros Hw. pose proof (wf_nodes s Hw) as Hnd. revert Hnd.
  generalize (LRUlist_ s). induction l as [|[m g] l IH]; [set_solver|].
  rewrite fmap_cons, NoDup_cons, !elem_of_cons. simpl.
  intros [Hm Hnd] [?|H1] [?|H2]; simplify_eq; [done| | |auto].
  - destruct Hm. apply list_elem_of_fmap. by exists (m, f2).
  - destruct Hm. apply list_elem_of_fmap. by exists (m, f1).
Qed.

Lemma wf_frames_NoDup s : wf s -> NoDup (frames s).
Proof.
  intros Hw. unfold frames. apply NoDup_fmap_2_strong.
  - intros [n1 f1] [n2 f2] H1 H2 ?; simplify_eq/=. f_equal. by eapply wf_frame_unique.
  - eapply NoDup_fmap_1, wf_nodes, Hw.
Qed.

Lemma elem_of_frames s f : f ∈ frames s <-> exists n, (n, f) ∈ LRUlist_ s.
Proof.
  unfold frames. rewrite list_elem_of_fmap. split.
  - intros ([n g] & -> & H). by exists n.
  - intros [n H]. by exists (n, f).
Qed.

Lemma elem_of_frames_hash s f : wf s -> f ∈ frames s <-> is_Some (LRUhash_ s !! f).
Proof. intros Hw. rewrite elem_of_frames. unfold is_Some. by setoid_rewrite (wf_hash s Hw). Qed.

(** Removing one node removes one frame. *)
Lemma erase_node_frames s n f :
  wf s -> (n, f) ∈ LRUlist_ s ->
  (erase_node n (LRUlist_ s)).*2 = filter (fun g => g <> f) (LRUlist_ s).*2.
Proof.
  intros Hw Hin. unfold erase_node.
  assert (Hiff : Forall (fun nd => nd.1 <> n <-> nd.2 <> f) (LRUlist_ s)).
  { apply Forall_forall. intros [m g] Hm. simpl. split; intros Hne ->; apply Hne.
    - by eapply wf_frame_unique.
    - by eapply wf_node_unique. }
  revert Hiff. generalize (LRUlist_ s).
  induction l as [|[m g] l IH]; [done|]. rewrite Forall_cons. simpl. intros [Hmg Hl].
  rewrite !filter_cons. simpl.
  destruct (decide (m <> n)), (decide (g <> f)); simpl;
    [f_equal; by apply IH|tauto|tauto|by apply IH].
Qed.

Lemma wf_removed s n f l' :
  wf s -> (n, f) ∈ LRUlist_ s -> l' = erase_node n (LRUlist_ s) ->
  wf (mk l' (delete f (LRUhash_ s)) (fresh s) (max_size_ s)).
Proof.
  intros Hw Hin ->. split; simpl.
  - eapply sublist_NoDup; [apply (wf_nodes s Hw)|].
    apply fmap_sublist, sublist_filter.
  - apply Forall_forall. intros nd [_ Hnd]%list_elem_of_filter.
    revert nd Hnd. apply Forall_forall, (wf_fresh s Hw).
  - intros g m. unfold erase_node. rewrite list_elem_of_filter, <- (wf_hash s Hw). simpl.
    destruct (decide (f = g)) as [<-|Hne].
    + rewrite lookup_delete_eq. split; [done|]. intros [Hm Hh].
      apply (wf_hash s Hw) in Hin. congruence.
    + rewrite lookup_delete_ne by done. split; [|by intros []].
      intros Hm. split; [|done]. intros ->.
      apply (wf_hash s Hw) in Hm. by eapply Hne, wf_node_unique.
Qed.

Lemma erase_last s n f l :
  wf s -> LRUlist_ s = l ++ [(n, f)] -> erase_node n (LRUlist_ s) = l.
Proof.
  intros Hw E. pose proof (wf_nodes s Hw) as Hnd. rewrite E in *.
  unfold erase_node. rewrite filter_app, filter_singleton_False, app_nil_r
    by (simpl; tauto).
  rewrite fmap_app, NoDup_app in Hnd. destruct Hnd as (_ & Hd & _).
  apply filter_fst_ne_fresh. intros Hn. apply (Hd _ Hn). simpl. set_solver.
Qed.

(** ** Each operation keeps the invariant and commutes with the abstraction *)

Lemma victim_refines s :
  wf s -> wf (victim s).1 /\
  (frames (victim s).1, (victim s).2) = spec.victim (frames s).
Proof.
  intros Hw. unfold victim, spec.victim, frames. rewrite fmap_last.
  destruct (last (LRUlist_ s)) as [[n f]|] eqn:E; [|done]. simpl.
  apply last_Some in E as [l E].
  assert (Hin : (n, f) ∈ LRUlist_ s) by (rewrite E; set_solver).
  split.
  - eapply wf_removed; [done|done|].
    rewrite (erase_last s n f l) by done. by rewrite E, removelast_snoc.
  - rewrite E, fmap_app. simpl. by rewrite !removelast_snoc.
Qed.

Lemma pin_refines s f :
  wf s -> wf (pin f s) /\ frames (pin f s) = spec.pin f (frames s).
Proof.
  intros Hw. unfold pin, spec.pin, frames.
  destruct (LRUhash_ s !! f) as [n|] eqn:E.
  - pose proof (proj1 (wf_hash s Hw _ _) E) as Hin. split.
    + by eapply wf_removed.
    + simpl. by eapply erase_node_frames.
  - split; [done|]. symmetry. apply filter_all, Forall_forall. intros g Hg ->.
    apply (elem_of_frames_hash s f Hw) in Hg. rewrite E in Hg. by inversion Hg.
Qed.

Lemma unpin_refines s f :
  wf s -> wf (unpin f s) /\ frames (unpin f s) = spec.unpin f (frames s).
Proof.
  intros Hw. unfold unpin, spec.unpin.
  pose proof (elem_of_frames_hash s f Hw) as Hel. unfold frames in *.
  destruct (LRUhash_ s !! f) as [n|] eqn:E; case_decide as Hd.
  - done.
  - destruct Hd. by apply Hel.
  - apply Hel in Hd. by inversion Hd.
  - split; [|done]. split; simpl.
    + apply NoDup_cons. split; [|apply (wf_nodes s Hw)].
      intros (nd & Heq & Hnd)%list_elem_of_fmap.
      pose proof (wf_fresh s Hw) as Hf. rewrite Forall_forall in Hf.
      specialize (Hf _ Hnd). lia.
    + constructor; [simpl; lia|].
      eapply Forall_impl; [apply (wf_fresh s Hw)|]. simpl. lia.
    + intros g m. rewrite elem_of_cons. destruct (decide (f = g)) as [<-|Hne].
      * rewrite lookup_insert_eq, <- (wf_hash s Hw), E. naive_solver.
      * rewrite lookup_insert_ne by done. rewrite (wf_hash s Hw). naive_solver.
Qed.

(** ** Histories of operations *)
Inductive op := Victim | Pin (frame_id : Z) | Unpin (frame_id : Z).

Definition step (o : op) (s : t) : t * option Z :=
  match o with
  | Victim => victim s
  | Pin f => (pin f s, None)
  | Unpin f => (unpin f s, None)
  end.

Definition spec_step (o : op) (l : list Z) : list Z * option Z :=
  match o with
  | Victim => spec.victim l
  | Pin f => (spec.pin f l, None)
  | Unpin f => (spec.unpin f l, None)
  end.

(** The outputs of a history, and the state it ends in. *)
Fixpoint run {S} (stp : op -> S -> S * option Z) (ops : list op) (s : S) : S * list (option Z) :=
  match ops with
  | [] => (s, [])
  | o :: ops' =>
      let '(s', out) := stp o s in
      let '(s'', outs) := run stp ops' s' in (s'', out :: outs)
  end.

Lemma step_refines o s :
  wf s -> wf (step o s).1 /\
  (frames (step o s).1, (step o s).2) = spec_step o (frames s).
Proof.
  intros Hw. destruct o as [|f|f]; simpl.
  - by apply victim_refines.
  - destruct (pin_refines s f Hw) as [? ->]. done.
  - destruct (unpin_refines s f Hw) as [? ->]. done.
Qed.

Lemma run_refines ops s :
  wf s -> wf (run step ops s).1 /\
  (frames (run step ops s).1, (run step ops s).2) = run spec_step ops (frames s).
Proof.
  revert s. induction ops as [|o ops IH]; intros s Hw; simpl; [done|].
  destruct (step_refines o s Hw) as [Hw' Heq].
  destruct (step o s) as [s' out]. simpl in *. rewrite <- Heq.
  destruct (IH s' Hw') as [Hw'' Heq']. destruct (run step ops s') as [s'' outs]. simpl in *.
  by rewrite <- Heq'.
Qed.

(** C10: whatever sequence of [victim], [pin] and [unpin] calls is made on a new
    [LRUReplacer], it answers exactly as the queue of evictable frames ordered by the
    time they became evictable, which evicts the one that has been evictable longest. *)
Theorem lru_refines_policy num_pages ops :
  (run step ops (make num_pages)).2 = (run spec_step ops []).2 /\
  wf (run step ops (make num_pages)).1.
Proof.
  destruct (run_refines ops (make num_pages) (lru_wf_make _)) as [Hw Heq].
  split; [|done]. change [] with (frames (make num_pages)). by rewrite <- Heq.
Qed.

(** ** The implementation meets the interface *)
Lemma spec_victim_snoc l f : spec.victim (l ++ [f]) = (l, Some f).
Proof. unfold spec.victim. by rewrite last_snoc, removelast_snoc. Qed.

#[global] Program Instance LRU_laws : ReplacerLaws t := {
  r_ok := wf;
  r_evictable s := list_to_set (frames s);
}.
Next Obligation.
  intros s Hw He. simpl in *.
  unfold victim. assert (frames s = []) as Hf.
  { destruct (frames s); [done|]. exfalso. set_solver. }
  unfold frames in Hf. apply fmap_nil_inv in Hf. by rewrite Hf.
Qed.
Next Obligation.
  intros s Hw Hne. simpl in *. destruct (victim_refines s Hw) as [Hw' Heq].
  destruct (victim s) as [s' o]. simpl in *.
  destruct (frames s) as [|f0 l0 _] eqn:E using rev_ind; [set_solver|].
  rewrite spec_victim_snoc in Heq. simplify_eq. exists s', f0. split_and!; [done|done|set_solver|].
  pose proof (wf_frames_NoDup s Hw) as Hnd. rewrite E, NoDup_app in Hnd. set_solver.
Qed.
Next Obligation. intros s f Hw. apply pin_refines, Hw. Qed.
Next Obligation.
  intros s f Hw. simpl. destruct (pin_refines s f Hw) as [_ ->].
  apply set_eq. intros g. unfold spec.pin.
  rewrite elem_of_difference, !elem_of_list_to_set, list_elem_of_filter. set_solver.
Qed.
Next Obligation. intros s f Hw. apply unpin_refines, Hw. Qed.
Next Obligation.
  intros s f Hw. simpl. destruct (unpin_refines s f Hw) as [_ ->].
  unfold spec.unpin. case_decide; set_solver.
Qed.
Next Obligation.
  intros s Hw. simpl. unfold Size. rewrite size_list_to_set by by apply wf_frames_NoDup.
  unfold frames. by rewrite length_fmap.
Qed.

End LRUReplacer.
