(* ===== verification/Posix.v ===== *)
(** * The operating system interface

    The calls of [<fcntl.h>], [<unistd.h>], [<sys/stat.h>] and [system] that
    [storage/disk_manager.cpp] makes.  They are code outside the repository: the
    class [Posix] names them, the class [PosixLaws] states what POSIX documents
    about them, and [MemFs] is a small in-memory file system that satisfies the
    laws, so that the theorems that assume them can be run on concrete inputs. *)

From S2P Require Import Prelude.

Inductive whence := SEEK_SET | SEEK_END.
Inductive oflag := O_RDWR | O_CREAT.
Inductive file_kind := S_IFREG | S_IFDIR.

(** The calls.  [os_read] also returns the bytes it stored in the buffer; the
    results of [read] and [write] are their return values; [os_stat] is [None]
    when [stat] fails. *)
Class Posix (O : Type) := {
  os_lseek : Z -> Z -> whence -> O -> O;
  os_read : Z -> nat -> O -> O * bytes * Z;
  os_write : Z -> bytes -> O -> O * Z;
  os_open : string -> oflag -> O -> O * Z;
  os_close : Z -> O -> O;
  os_unlink : string -> O -> O * Z;
  os_stat : string -> O -> option (file_kind * Z);
  os_system : string -> O -> O * Z;
}.

(** What a [write] of [bs] at offset [pos] makes of a file's contents: a gap past
    the old end reads as zeros. *)
Definition file_splice (d : bytes) (pos : nat) (bs : bytes) : bytes :=
  take pos d ++ replicate (pos - length d) 0 ++ bs ++ drop (pos + length bs) d.

(** The documented behaviour.  A file is an inode; [os_ino] is the file an open
    descriptor refers to, [os_pos] its offset, [os_path] the regular file a path
    names, and [os_data] the contents of a file.  Several paths may name one file.
    [os_special] are the paths that may name a device, a pipe or a socket: opening
    any other path, a directory or nothing for instance, fails if it does not name a
    regular file. *)
Class PosixLaws (O : Type) `{Posix O} := {
  os_ino : O -> Z -> option nat;
  os_pos : O -> Z -> nat;
  os_path : O -> string -> option nat;
  os_data : O -> nat -> bytes;
  os_special : string -> Prop;

  lseek_ino f off w o f' : os_ino (os_lseek f off w o) f' = os_ino o f';
  lseek_path f off w o p : os_path (os_lseek f off w o) p = os_path o p;
  lseek_data f off w o i : os_data (os_lseek f off w o) i = os_data o i;
  lseek_set_pos f off o i :
    os_ino o f = Some i -> 0 <= off ->
    os_pos (os_lseek f off SEEK_SET o) f = Z.to_nat off;
  lseek_end_pos f o i :
    os_ino o f = Some i ->
    os_pos (os_lseek f 0 SEEK_END o) f = length (os_data o i);

  write_ino f bs o o' n f' : os_write f bs o = (o', n) -> os_ino o' f' = os_ino o f';
  write_path f bs o o' n p : os_write f bs o = (o', n) -> os_path o' p = os_path o p;
  write_count f bs o o' n : os_write f bs o = (o', n) -> n <= Z.of_nat (length bs);
  write_closed f bs o o' n i :
    os_write f bs o = (o', n) -> os_ino o f = None -> n < 0 /\ os_data o' i = os_data o i;
  write_other f bs o o' n i :
    os_write f bs o = (o', n) -> os_ino o f <> Some i -> os_data o' i = os_data o i;
  write_data f bs o o' n i :
    os_write f bs o = (o', n) -> os_ino o f = Some i ->
    os_data o' i =
      if n <=? 0 then os_data o i
      else file_splice (os_data o i) (os_pos o f) (take (Z.to_nat n) bs);

  read_ino f k o o' bs n f' : os_read f k o = (o', bs, n) -> os_ino o' f' = os_ino o f';
  read_path f k o o' bs n p : os_read f k o = (o', bs, n) -> os_path o' p = os_path o p;
  read_keeps f k o o' bs n i : os_read f k o = (o', bs, n) -> os_data o' i = os_data o i;
  read_count f k o o' bs n :
    os_read f k o = (o', bs, n) ->
    (length bs <= k)%nat /\ (n = Z.of_nat (length bs) \/ n < 0 /\ bs = []);
  read_data f k o o' bs n i :
    os_read f k o = (o', bs, n) -> os_ino o f = Some i ->
    bs = mem_read (os_data o i) (os_pos o f) (length bs);
  read_closed f k o o' bs n : os_read f k o = (o', bs, n) -> os_ino o f = None -> n < 0;

  open_fail p fl o o' f :
    os_open p fl o = (o', f) -> f < 0 ->
    (forall f', os_ino o' f' = os_ino o f') /\ (forall q, os_path o' q = os_path o q) /\
    (forall i, os_data o' i = os_data o i);
  open_rdwr p o o' f :
    os_open p O_RDWR o = (o', f) -> 0 <= f -> ~ os_special p ->
    os_ino o f = None /\
    (exists i, os_path o p = Some i /\ os_ino o' f = Some i) /\
    (forall f', f' <> f -> os_ino o' f' = os_ino o f') /\
    (forall q, os_path o' q = os_path o q) /\
    (forall i, os_data o' i = os_data o i);
  open_creat p o o' f :
    os_open p O_CREAT o = (o', f) -> 0 <= f -> ~ os_special p -> os_path o p = None ->
    os_ino o f = None /\
    (exists i, os_path o' p = Some i /\ os_ino o' f = Some i /\ os_data o' i = [] /\
       (forall f', os_ino o f' <> Some i) /\ (forall q, os_path o q <> Some i) /\
       (forall j, j <> i -> os_data o' j = os_data o j) /\
       (forall q, os_path o' q = os_path o q \/ os_path o q = None /\ os_path o' q = Some i)) /\
    (forall f', f' <> f -> os_ino o' f' = os_ino o f');

  close_ino f o f' :
    os_ino (os_close f o) f' = if decide (f' = f) then None else os_ino o f';
  close_path f o p : os_path (os_close f o) p = os_path o p;
  close_data f o i : os_data (os_close f o) i = os_data o i;

  stat_reg p o n :
    os_stat p o = Some (S_IFREG, n) <->
    exists i, os_path o p = Some i /\ n = Z.of_nat (length (os_data o i));
}.

(** ** Contents after a write *)

Lemma length_file_splice d pos bs :
  length (file_splice d pos bs) = Nat.max (length d) (pos + length bs).
Proof. unfold file_splice. autorewrite with len. lia. Qed.

Lemma read_splice_same d pos bs : mem_read (file_splice d pos bs) pos (length bs) = bs.
Proof.
  unfold mem_read, file_splice. rewrite app_assoc.
  rewrite drop_app_length' by (autorewrite with len; lia). apply take_app_length.
Qed.

Lemma lookup_file_splice_ne d pos bs i :
  (i < length d)%nat -> (i < pos \/ pos + length bs <= i)%nat ->
  file_splice d pos bs !! i = d !! i.
Proof.
  intros Hi H. unfold file_splice. destruct (decide (i < pos)%nat).
  - rewrite lookup_app_l by (len). by apply lookup_take_lt.
  - rewrite lookup_app_r by len. rewrite lookup_app_r by len.
    rewrite lookup_app_r by len. rewrite lookup_drop. f_equal. len.
Qed.

Lemma read_splice_disjoint d pos bs off n :
  (off + n <= length d)%nat -> (off + n <= pos \/ pos + length bs <= off)%nat ->
  mem_read (file_splice d pos bs) off n = mem_read d off n.
Proof. intros Hl H. apply mem_read_ext. intros i Hi. apply lookup_file_splice_ne; lia. Qed.

#[export] Hint Rewrite length_file_splice : len.

(** ** An in-memory file system *)
Module MemFs.

(** [fds] maps a descriptor to its inode and offset. *)
Record t := mk {
  inodes : gmap nat bytes;
  names : gmap string nat;
  dirs : gset string;
  fds : gmap Z (nat * nat);
}.

Definition empty : t := mk ∅ ∅ ∅ ∅.

Definition ino (o : t) (f : Z) : option nat := fst <$> fds o !! f.
Definition pos (o : t) (f : Z) : nat := from_option snd 0%nat (fds o !! f).
Definition path (o : t) (p : string) : option nat := names o !! p.
Definition data (o : t) (i : nat) : bytes := default [] (inodes o !! i).

Definition set_fds (m : gmap Z (nat * nat)) (o : t) : t :=
  mk (inodes o) (names o) (dirs o) m.

Definition lseek (f off : Z) (w : whence) (o : t) : t :=
  match fds o !! f with
  | None => o
  | Some (i, _) =>
      let base := match w with SEEK_SET => 0 | SEEK_END => Z.of_nat (length (data o i)) end in
      set_fds (<[f := (i, Z.to_nat (base + off))]> (fds o)) o
  end.

Definition read (f : Z) (k : nat) (o : t) : t * bytes * Z :=
  match fds o !! f with
  | None => (o, [], -1)
  | Some (i, ps) =>
      let bs := mem_read (data o i) ps k in
      (set_fds (<[f := (i, ps + length bs)%nat]> (fds o)) o, bs, Z.of_nat (length bs))
  end.

Definition write (f : Z) (bs : bytes) (o : t) : t * Z :=
  match fds o !! f with
  | None => (o, -1)
  | Some (i, ps) =>
      if (length bs =? 0)%nat then (o, 0) else
      (mk (<[i := file_splice (data o i) ps bs]> (inodes o)) (names o) (dirs o)
          (<[f := (i, ps + length bs)%nat]> (fds o)),
       Z.of_nat (length bs))
  end.

(** A descriptor and an inode that nothing refers to. *)
Definition new_fd (o : t) : nat := infinite_fresh (Z.to_nat <$> (map_to_list (fds o)).*1).
Definition new_ino (o : t) : nat :=
  infinite_fresh ((map_to_list (fds o)).*2.*1 ++ (map_to_list (names o)).*2).

Definition open (p : string) (fl : oflag) (o : t) : t * Z :=
  let f := Z.of_nat (new_fd o) in
  match names o !! p, fl with
  | Some i, _ => (set_fds (<[f := (i, 0%nat)]> (fds o)) o, f)
  | None, O_RDWR => (o, -1)
  | None, O_CREAT =>
      let i := new_ino o in
      (mk (<[i := []]> (inodes o)) (<[p := i]> (names o)) (dirs o)
          (<[f := (i, 0%nat)]> (fds o)), f)
  end.

Definition close (f : Z) (o : t) : t := set_fds (delete f (fds o)) o.

Definition unlink (p : string) (o : t) : t * Z :=
  match names o !! p with
  | None => (o, -1)
  | Some _ => (mk (inodes o) (delete p (names o)) (dirs o) (fds o), 0)
  end.

Definition stat (p : string) (o : t) : option (file_kind * Z) :=
  match names o !! p with
  | Some i => Some (S_IFREG, Z.of_nat (length (data o i)))
  | None => if decide (p ∈ dirs o) then Some (S_IFDIR, 4096) else None
  end.

#[global] Instance posix : Posix t := {
  os_lseek := lseek; os_read := read; os_write := write; os_open := open;
  os_close := close; os_unlink := unlink; os_stat := stat;
  os_system _ o := (o, 0);
}.

(** *** It satisfies the laws *)

Lemma new_fd_free o : fds o !! Z.of_nat (new_fd o) = None.
Proof.
  assert (new_fd o ∉ Z.to_nat <$> (map_to_list (fds o)).*1) as Hf
    by apply infinite_is_fresh.
  destruct (fds o !! Z.of_nat (new_fd o)) as [x|] eqn:E; [|done]. destruct Hf.
  apply list_elem_of_fmap. exists (Z.of_nat (new_fd o)). split; [by rewrite Nat2Z.id|].
  apply list_elem_of_fmap. exists (Z.of_nat (new_fd o), x).
  split; [done|]. by apply elem_of_map_to_list.
Qed.

Lemma new_ino_unused o :
  new_ino o ∉ (map_to_list (fds o)).*2.*1 ++ (map_to_list (names o)).*2.
Proof. apply infinite_is_fresh. Qed.

Lemma new_ino_fds o f : ino o f <> Some (new_ino o).
Proof.
  unfold ino. destruct (fds o !! f) as [[i ps]|] eqn:E; simpl; [|done]. intros [= Hi].
  apply (new_ino_unused o), elem_of_app. left. rewrite <- Hi.
  apply list_elem_of_fmap. exists (i, ps). split; [done|].
  apply list_elem_of_fmap. exists (f, (i, ps)). split; [done|].
  by apply elem_of_map_to_list.
Qed.

Lemma new_ino_names o p : path o p <> Some (new_ino o).
Proof.
  unfold path. intros E. apply (new_ino_unused o), elem_of_app. right.
  apply list_elem_of_fmap. exists (p, new_ino o).
  split; [done|]. by apply elem_of_map_to_list.
Qed.

(** Case analysis on the descriptors and names an operation looks up. *)
Ltac mem_cases :=
  unfold ino, pos, path, data, lseek, read, write, open, close, unlink, stat, set_fds in *;
  repeat (case_match; simplify_eq/=);
  rewrite ?lookup_insert, ?lookup_delete in *; repeat (case_decide; simplify_eq/=);
  simplify_option_eq; try done; try lia.

(** Reading what is there again at the length that was read. *)
Lemma mem_read_length m off k : mem_read m off (length (mem_read m off k)) = mem_read m off k.
Proof.
  unfold mem_read. rewrite length_take, length_drop, <- take_take, (take_ge (drop off m)).
  - done.
  - len.
Qed.

Lemma open_rdwr_ok p o o' f :
  open p O_RDWR o = (o', f) -> 0 <= f -> ~ False ->
  ino o f = None /\
  (exists i, path o p = Some i /\ ino o' f = Some i) /\
  (forall f', f' <> f -> ino o' f' = ino o f') /\
  (forall q, path o' q = path o q) /\
  (forall i, data o' i = data o i).
Proof.
  intros H Hf _. unfold open in H. destruct (names o !! p) as [i|] eqn:E; [|simplify_eq; lia].
  simplify_eq. unfold ino, path, data. simpl. rewrite new_fd_free, lookup_insert_eq.
  split_and!; [done|by exists i| |done|done].
  intros f' Hne. by rewrite lookup_insert_ne by done.
Qed.

Lemma open_creat_ok p o o' f :
  open p O_CREAT o = (o', f) -> 0 <= f -> ~ False -> path o p = None ->
  ino o f = None /\
  (exists i, path o' p = Some i /\ ino o' f = Some i /\ data o' i = [] /\
     (forall f', ino o f' <> Some i) /\ (forall q, path o q <> Some i) /\
     (forall j, j <> i -> data o' j = data o j) /\
     (forall q, path o' q = path o q \/ path o q = None /\ path o' q = Some i)) /\
  (forall f', f' <> f -> ino o' f' = ino o f').
Proof.
  intros H Hf _ Hp. unfold open in H. unfold path in Hp. rewrite Hp in H. simplify_eq.
  split_and!; [unfold ino; by rewrite new_fd_free| |].
  - exists (new_ino o). split_and!; [unfold path; simpl; by rewrite lookup_insert_eq|unfold ino; simpl; by rewrite lookup_insert_eq|
      unfold data; simpl; by rewrite lookup_insert_eq|apply new_ino_fds|apply new_ino_names| |].
    + intros j Hj. unfold data. simpl. by rewrite lookup_insert_ne by done.
    + intros q. unfold path. simpl. destruct (decide (p = q)) as [<-|Hne]; [right|left; by rewrite lookup_insert_ne].
      by rewrite lookup_insert_eq.
  - intros f' Hne. unfold ino. simpl. by rewrite lookup_insert_ne by done.
Qed.

#[local] Obligation Tactic := intros; simpl in *; try solve [mem_cases].
#[global] Program Instance laws : PosixLaws t := {
  os_ino := ino; os_pos := pos; os_path := path; os_data := data; os_special _ := False;
  open_rdwr := open_rdwr_ok; open_creat := open_creat_ok;
}.
Next Obligation. mem_cases. by rewrite Z.add_0_r, Nat2Z.id. Qed.
Next Obligation.
  mem_cases.
  - exfalso. rewrite Nat.eqb_neq in *. rewrite Z.leb_le in *. lia.
  - by rewrite Nat2Z.id, take_ge.
Qed.
Next Obligation.
  mem_cases; (split; [len|auto with lia]).
Qed.
Next Obligation. mem_cases. by rewrite mem_read_length. Qed.
Next Obligation. mem_cases; split; intros ?; destruct_and?; naive_solver. Qed.

End MemFs.
