(* ===== verification/Disk.v ===== *)
(** * The disk manager

    Module [DiskManager] is [storage/disk_manager.cpp] and [disk_manager.h], over
    the operating system of [Posix].  [Disk] and [DiskLaws] are what the buffer
    pool relies on: pages that read back as they were last written, and page
    numbers handed out in sequence. *)

From S2P Require Import Prelude Common Posix.

(** ** The interface the buffer pool uses *)

(** [dk_read_page] gets the buffer it fills and returns its contents afterwards,
    also when it throws. *)
Class Disk (D : Type) := {
  dk_write_page : PageId -> bytes -> M D unit;
  dk_read_page : PageId -> bytes -> D -> D * (bytes * res unit);
  dk_allocate_page : Z -> M D Z;
}.

(** [dk_valid d p]: the file of [p] is open, [p] names a page of it;
    [dk_page d p]: its contents on disk, if the file is long enough;
    [dk_next d f]: the next page number of file [f]. *)
Class DiskLaws (D : Type) `{Disk D} := {
  dk_ok : D -> Prop;
  dk_valid : D -> PageId -> Prop;
  dk_page : D -> PageId -> option bytes;
  dk_next : D -> Z -> Z;

  dk_valid_page d p : dk_valid d p -> 0 <= page_no p;
  dk_write_frame d p bs d' r :
    dk_ok d -> dk_valid d p -> length bs = page_size ->
    dk_write_page p bs d = (d', r) ->
    dk_ok d' /\ (forall q, dk_valid d' q <-> dk_valid d q) /\ (forall f, dk_next d' f = dk_next d f) /\
    (forall q x, dk_valid d q -> q <> p -> dk_page d q = Some x -> dk_page d' q = Some x) /\
    (r = Ok tt -> dk_page d' p = Some bs);
  dk_read_frame d p buf d' buf' r :
    dk_ok d -> dk_valid d p -> length buf = page_size ->
    dk_read_page p buf d = (d', (buf', r)) ->
    dk_ok d' /\ (forall q, dk_valid d' q <-> dk_valid d q) /\ (forall f, dk_next d' f = dk_next d f) /\
    (forall q, dk_page d' q = dk_page d q) /\
    length buf' = page_size /\
    (r = Ok tt -> dk_page d p = Some buf');
  dk_alloc_frame d f d' r :
    dk_ok d -> dk_allocate_page f d = (d', r) ->
    dk_ok d' /\ (forall q, dk_valid d' q <-> dk_valid d q) /\
    (forall q, dk_page d' q = dk_page d q) /\
    match r with
    | Ok n => n = dk_next d f /\ dk_next d' f = i32 (n + 1) /\
              (forall g, g <> f -> dk_next d' g = dk_next d g)
    | Throw _ => forall g, dk_next d' g = dk_next d g
    end;
}.

Module DiskManager.

Definition MAX_FD : Z := 8192.

Section ops.
Context {O : Type} `{Posix O}.

(** ** State *)
Record t := mk {
  path2fd_ : gmap string Z;
  fd2path_ : gmap Z string;
  log_fd_ : Z;
  fd2pageno_ : list Z;
  os : O;
}.

Definition make (o : O) : t := mk ∅ ∅ (-1) (replicate (Z.to_nat MAX_FD) 0) o.

Definition set_os (o : O) (s : t) : t :=
  mk (path2fd_ s) (fd2path_ s) (log_fd_ s) (fd2pageno_ s) o.
Definition set_fds (p2f : gmap string Z) (f2p : gmap Z string) (s : t) : t :=
  mk p2f f2p (log_fd_ s) (fd2pageno_ s) (os s).
Definition set_log_fd (f : Z) (s : t) : t :=
  mk (path2fd_ s) (fd2path_ s) f (fd2pageno_ s) (os s).
Definition set_pagenos (l : list Z) (s : t) : t :=
  mk (path2fd_ s) (fd2path_ s) (log_fd_ s) l (os s).

(** A system call. *)
Definition sys {A} (f : O -> O * A) : M t A :=
  fun s => let '(o, a) := f (os s) in (set_os o s, Ok a).

(** ** Pages *)

Definition write_page (f pno : Z) (offset : bytes) (num_bytes : nat) : M t unit :=
  let off := pno * Z.of_nat num_bytes in
  modify (fun s => set_os (os_lseek f off SEEK_SET (os s)) s);;
  num_writen_bytes ← sys (os_write f (take num_bytes offset));
  if decide (num_writen_bytes = Z.of_nat num_bytes) then mret tt
  else throw (InternalError "DiskManager::write_page Error").

(** The buffer [offset] as [read] leaves it: the bytes read replace its head. *)
Definition read_page (f pno : Z) (offset : bytes) (num_bytes : nat) (s : t) :
    t * (bytes * res unit) :=
  let off := pno * Z.of_nat num_bytes in
  let '(o, bs, num_read_bytes) := os_read f num_bytes (os_lseek f off SEEK_SET (os s)) in
  (set_os o s,
   (mem_write offset 0 bs,
    if decide (num_read_bytes = Z.of_nat num_bytes) then Ok tt
    else Throw (InternalError "DiskManager::read_page Error"))).

Definition allocate_page (f : Z) : M t Z :=
  assertM ((0 <=? f) && (f <? MAX_FD));;
  pagenos ← gets fd2pageno_;
  match pagenos !! Z.to_nat f with
  | None => throw Stuck
  | Some n => modify (set_pagenos (<[Z.to_nat f := i32 (n + 1)]> pagenos));; mret n
  end.

Definition deallocate_page (pid : Z) : M t unit := mret tt.

(** [fd2pageno_[fd] = start_page_no]: no bounds check. *)
Definition set_fd2pageno (f start_page_no : Z) : M t unit :=
  pagenos ← gets fd2pageno_;
  if decide (0 <= f < MAX_FD)
  then modify (set_pagenos (<[Z.to_nat f := start_page_no]> pagenos))
  else throw Stuck.

Definition get_fd2pageno (f : Z) : M t Z :=
  pagenos ← gets fd2pageno_;
  if decide (0 <= f < MAX_FD)
  then mret (default 0 (pagenos !! Z.to_nat f)) else throw Stuck.

(** ** Directories *)

Definition is_dir (path : string) : M t bool :=
  gets (fun s => match os_stat path (os s) with
                 | Some (S_IFDIR, _) => true
                 | _ => false
                 end).

Definition create_dir (path : string) : M t unit :=
  rc ← sys (os_system ("mkdir " +:+ path));
  if rc <? 0 then throw UnixError else mret tt.

Definition destroy_dir (path : string) : M t unit :=
  rc ← sys (os_system ("rm -r " +:+ path));
  if rc <? 0 then throw UnixError else mret tt.

(** ** Files *)

Definition is_file (path : string) : M t bool :=
  gets (fun s => match os_stat path (os s) with
                 | Some (S_IFREG, _) => true
                 | _ => false
                 end).

(** The descriptor [open] returns is not kept and not closed. *)
Definition create_file (path : string) : M t unit :=
  b ← is_file path;
  if b : bool then throw (FileExistsError path) else
  f ← sys (os_open path O_CREAT);
  if f <? 0 then throw (InternalError "disk_manager::create_file error") else mret tt.

(** A failed [unlink] is only printed. *)
Definition destroy_file (path : string) : M t unit :=
  p2f ← gets path2fd_;
  if decide (is_Some (p2f !! path)) then throw (FileNotClosedError path) else
  b ← is_file path;
  if b : bool then _ ← sys (os_unlink path); mret tt
  else throw (FileNotFoundError path).

Definition open_file (path : string) : M t Z :=
  s ← get;
  match path2fd_ s !! path with
  | Some f => mret f
  | None =>
      f ← sys (os_open path O_RDWR);
      if f <? 0 then throw (FileNotFoundError path) else
      modify (set_fds (<[path := f]> (path2fd_ s)) (<[f := path]> (fd2path_ s)));;
      mret f
  end.

Definition close_file (f : Z) : M t unit :=
  s ← get;
  match fd2path_ s !! f with
  | None => throw (FileNotOpenError f)
  | Some path =>
      modify (fun s => set_os (os_close f (os s)) s);;
      modify (set_fds (delete path (path2fd_ s)) (delete f (fd2path_ s)))
  end.

(** [st_size] is converted to [int]. *)
Definition get_file_size (file_name : string) : M t Z :=
  gets (fun s => match os_stat file_name (os s) with
                 | Some (_, n) => i32 n
                 | None => -1
                 end).

Definition get_file_name (f : Z) : M t string :=
  s ← get;
  match fd2path_ s !! f with
  | None => throw (FileNotOpenError f)
  | Some path => mret path
  end.

Definition get_file_fd (file_name : string) : M t Z :=
  s ← get;
  match path2fd_ s !! file_name with
  | None => open_file file_name
  | Some f => mret f
  end.

(** ** The log file *)

(** The returned count and the bytes stored in [log_data]. *)
Definition read_log (sz offset : Z) : M t (Z * bytes) :=
  let k : M t (Z * bytes) :=
    file_size ← get_file_size LOG_FILE_NAME;
    if file_size <? offset then mret (-1, []) else
    let sz := Z.min sz (file_size - offset) in
    if decide (sz = 0) then mret (0, []) else
    s ← get;
    modify (fun s => set_os (os_lseek (log_fd_ s) offset SEEK_SET (os s)) s);;
    r ← sys (fun o => let '(o', bs, n) := os_read (log_fd_ s) (Z.to_nat sz) o in (o', (n, bs)));
    assertM (bool_decide (r.1 = sz));;
    mret r in
  s ← get;
  if decide (log_fd_ s = -1) then
    b ← is_file LOG_FILE_NAME;
    if b : bool then
      f ← open_file LOG_FILE_NAME;
      modify (set_log_fd f);; k
    else mret (0, [])
  else k.

Definition write_log (log_data : bytes) : M t unit :=
  let k : M t unit :=
    s ← get;
    modify (fun s => set_os (os_lseek (log_fd_ s) 0 SEEK_END (os s)) s);;
    bytes_write ← sys (os_write (log_fd_ s) log_data);
    if decide (bytes_write = Z.of_nat (length log_data)) then mret tt else throw UnixError in
  s ← get;
  if decide (log_fd_ s = -1) then
    b ← is_file LOG_FILE_NAME;
    (if b : bool then mret tt else create_file LOG_FILE_NAME);;
    f ← open_file LOG_FILE_NAME;
    modify (set_log_fd f);; k
  else k.

#[global] Instance disk : Disk t := {
  dk_write_page p bs := write_page (fd p) (page_no p) bs page_size;
  dk_read_page p buf := read_page (fd p) (page_no p) buf page_size;
  dk_allocate_page := allocate_page;
}.
End ops.
Arguments t O : clear implicits.

(** ** Invariant and the view of the disk *)
Section laws.
Context {O : Type} `{PosixLaws O}.
Implicit Types (s : t O).

(** The two tables of open files are inverse to each other, every descriptor in
    them is open, and no two of them are of the same file. *)
Record wf (s : t O) : Prop := {
  wf_inverse p f : path2fd_ s !! p = Some f <-> fd2path_ s !! f = Some p;
  wf_open f : is_Some (fd2path_ s !! f) -> 0 <= f /\ is_Some (os_ino (os s) f);
  wf_sep f g : is_Some (fd2path_ s !! f) -> is_Some (fd2path_ s !! g) ->
    os_ino (os s) f = os_ino (os s) g -> f = g;
  wf_pagenos : length (fd2pageno_ s) = Z.to_nat MAX_FD;
}.

Definition valid (s : t O) (p : PageId) : Prop :=
  is_Some (fd2path_ s !! fd p) /\ 0 <= page_no p.

(** Where a page starts in its file. *)
Definition page_off (p : PageId) : nat := Z.to_nat (page_no p * Z.of_nat page_size).

Definition page (s : t O) (p : PageId) : option bytes :=
  i ← os_ino (os s) (fd p);
  let d := os_data (os s) i in
  if decide (page_off p + page_size <= length d)%nat
  then Some (mem_read d (page_off p) page_size) else None.

Definition next (s : t O) (f : Z) : Z :=
  if decide (0 <= f) then fd2pageno_ s !!! Z.to_nat f else 0.

(** What the file system did between two states that share their tables. *)
Definition same_tables s s' : Prop :=
  path2fd_ s' = path2fd_ s /\ fd2path_ s' = fd2path_ s /\ fd2pageno_ s' = fd2pageno_ s.

Lemma wf_same_tables s s' :
  wf s -> same_tables s s' -> (forall f, os_ino (os s') f = os_ino (os s) f) ->
  wf s' /\ (forall q, valid s' q <-> valid s q) /\ (forall f, next s' f = next s f).
Proof.
  intros Hw (Hp & Hf & Hn) Hi. split_and!.
  - split; rewrite ?Hp, ?Hf, ?Hn.
    + apply (wf_inverse s Hw).
    + intros f. rewrite Hi. apply (wf_open s Hw).
    + intros f g. rewrite !Hi. apply (wf_sep s Hw).
    + apply (wf_pagenos s Hw).
  - intros q. unfold valid. by rewrite Hf.
  - intros f. unfold next. by rewrite Hn.
Qed.

Lemma page_off_disjoint p q :
  0 <= page_no p -> 0 <= page_no q -> page_no p <> page_no q ->
  (page_off q + page_size <= page_off p \/ page_off p + page_size <= page_off q)%nat.
Proof.
  intros Hp Hq Hne. unfold page_off. rewrite page_size_Z.
  pose proof page_size_Z as E. unfold PAGE_SIZE in *. lia.
Qed.

Lemma sys_lseek_ino f off w s g : os_ino (os (set_os (os_lseek f off w (os s)) s)) g = os_ino (os s) g.
Proof. apply lseek_ino. Qed.

(** A page of one file is untouched by a write that starts at another page and
    stops before its end. *)
Lemma page_write_other s o' n p q bs x :
  wf s -> valid s p -> valid s q -> q <> p -> (length bs <= page_size)%nat ->
  os_write (fd p) bs (os_lseek (fd p) (page_no p * Z.of_nat page_size) SEEK_SET (os s)) = (o', n) ->
  page s q = Some x -> page (set_os o' s) q = Some x.
Proof.
  intros Hw [Hp Hp0] [Hq Hq0] Hne Hl Hwr Hx. unfold page in *. simpl.
  rewrite (write_ino _ _ _ _ _ _ Hwr), lseek_ino.
  destruct (os_ino (os s) (fd q)) as [i|] eqn:Ei; simpl in *; [|done].
  destruct (decide (os_ino (os s) (fd p) = Some i)) as [Hi|Hi].
  2: { rewrite (write_other _ _ _ _ _ i Hwr) by (by rewrite lseek_ino). by rewrite lseek_data. }
  assert (fd p = fd q) as Hfd by (apply (wf_sep s Hw); congruence).
  assert (page_no p <> page_no q) as Hpn by (destruct p, q; simpl in *; congruence).
  rewrite (write_data _ _ _ _ _ i Hwr) by (by rewrite lseek_ino).
  rewrite lseek_data, (lseek_set_pos _ _ _ i) by (done || lia).
  destruct (n <=? 0); [done|].
  destruct (page_off_disjoint p q Hp0 Hq0 Hpn) as [Hd|Hd];
    case_decide as H1; simplify_eq; (rewrite decide_True; [|len]);
    f_equal; apply read_splice_disjoint; unfold page_off in *; len.
Qed.

Lemma write_page_run p bs s :
  exists o' n,
    os_write (fd p) (take page_size bs)
      (os_lseek (fd p) (page_no p * Z.of_nat page_size) SEEK_SET (os s)) = (o', n) /\
    write_page (fd p) (page_no p) bs page_size s =
      (set_os o' s, if decide (n = Z.of_nat page_size) then Ok tt
                    else Throw (InternalError "DiskManager::write_page Error")).
Proof.
  unfold write_page, sys. msimpl.
  destruct (os_write _ _ _) as [o' n]. exists o', n. split; [done|].
  by case_decide.
Qed.

Lemma write_page_ok p bs s s' r :
  wf s -> valid s p -> length bs = page_size ->
  write_page (fd p) (page_no p) bs page_size s = (s', r) ->
  wf s' /\ (forall q, valid s' q <-> valid s q) /\ (forall f, next s' f = next s f) /\
  (forall q x, valid s q -> q <> p -> page s q = Some x -> page s' q = Some x) /\
  (r = Ok tt -> page s' p = Some bs).
Proof.
  intros Hw Hp Hl Hr. destruct (write_page_run p bs s) as (o' & n & Hwr & E).
  rewrite E in Hr. simplify_eq. rewrite take_ge in Hwr by lia.
  destruct (wf_same_tables s (set_os o' s) Hw) as (H1 & H2 & H3).
  { done. }
  { intros f. simpl. by rewrite (write_ino _ _ _ _ _ _ Hwr), lseek_ino. }
  split_and!; [done|done|done| |].
  - intros q x Hq Hne Hx. apply (page_write_other s o' n p q bs x); auto with lia.
  - case_decide as Hn; [|done]. intros _. destruct Hp as [Hp Hp0].
    destruct (wf_open s Hw _ Hp) as [_ [i Hi]]. unfold page. simpl.
    rewrite (write_ino _ _ _ _ _ _ Hwr), lseek_ino, Hi. simpl.
    rewrite (write_data _ _ _ _ _ i Hwr) by (by rewrite lseek_ino).
    rewrite lseek_data, (lseek_set_pos _ _ _ i) by (done || lia).
    pose proof page_size_Z as Ez. unfold PAGE_SIZE in Ez.
    destruct (Z.leb_spec n 0) as [Hn0|Hn0]; [lia|].
    assert (take (Z.to_nat n) bs = bs) as Ht by (apply take_ge; lia).
    rewrite Ht, decide_True by (unfold page_off; len).
    f_equal. rewrite <- Hl at 2. apply read_splice_same.
Qed.

Lemma read_page_run p buf s :
  exists o' bs n,
    os_read (fd p) page_size
      (os_lseek (fd p) (page_no p * Z.of_nat page_size) SEEK_SET (os s)) = (o', bs, n) /\
    read_page (fd p) (page_no p) buf page_size s =
      (set_os o' s, (mem_write buf 0 bs,
         if decide (n = Z.of_nat page_size) then Ok tt
         else Throw (InternalError "DiskManager::read_page Error"))).
Proof.
  unfold read_page. destruct (os_read _ _ _) as [[o' bs] n]. by exists o', bs, n.
Qed.

Lemma read_page_ok p buf s s' buf' r :
  wf s -> valid s p -> length buf = page_size ->
  read_page (fd p) (page_no p) buf page_size s = (s', (buf', r)) ->
  wf s' /\ (forall q, valid s' q <-> valid s q) /\ (forall f, next s' f = next s f) /\
  (forall q, page s' q = page s q) /\
  length buf' = page_size /\
  (r = Ok tt -> page s p = Some buf').
Proof.
  intros Hw Hp Hl Hr. destruct (read_page_run p buf s) as (o' & bs & n & Hrd & E).
  rewrite E in Hr. simplify_eq.
  destruct (wf_same_tables s (set_os o' s) Hw) as (H1 & H2 & H3).
  { done. }
  { intros f. simpl. by rewrite (read_ino _ _ _ _ _ _ _ Hrd), lseek_ino. }
  split_and!; [done|done|done| |by len|].
  - intros q. unfold page. simpl. rewrite (read_ino _ _ _ _ _ _ _ Hrd), lseek_ino.
    destruct (os_ino (os s) (fd q)); simpl; [|done].
    by rewrite !(read_keeps _ _ _ _ _ _ _ Hrd), !lseek_data.
  - case_decide as Hn; [|done]. intros _. destruct Hp as [Hp Hp0].
    destruct (wf_open s Hw _ Hp) as [_ [i Hi]]. unfold page. rewrite Hi. simpl.
    destruct (read_count _ _ _ _ _ _ Hrd) as [Hc1 Hc2].
    assert (length bs = page_size) as Hb by lia.
    pose proof (read_data _ _ _ _ _ _ i Hrd) as Hd.
    rewrite lseek_ino, lseek_data, (lseek_set_pos _ _ _ i) in Hd by (done || lia).
    specialize (Hd Hi). rewrite Hb in Hd. fold (page_off p) in Hd.
    assert (mem_write buf 0 bs = bs) as ->.
    { unfold mem_write. rewrite take_0, (take_ge bs), drop_ge by len. apply app_nil_r. }
    rewrite <- Hd, decide_True; [done|].
    apply (f_equal length) in Hd. pose proof page_size_Z as Ez. unfold PAGE_SIZE in Ez. len.
Qed.

Lemma allocate_page_ok f s s' r :
  wf s -> allocate_page f s = (s', r) ->
  wf s' /\ (forall q, valid s' q <-> valid s q) /\
  (forall q, page s' q = page s q) /\
  match r with
  | Ok n => n = next s f /\ next s' f = i32 (n + 1) /\
            (forall g, g <> f -> next s' g = next s g)
  | Throw _ => forall g, next s' g = next s g
  end.
Proof.
  intros Hw. unfold allocate_page. msimpl.
  destruct (Z.leb_spec 0 f); simpl; [|by intros; simplify_eq].
  destruct (Z.ltb_spec f MAX_FD); simpl; [|by intros; simplify_eq].
  destruct (fd2pageno_ s !! Z.to_nat f) as [n|] eqn:E; intros ?; simplify_eq; [|done].
  pose proof (lookup_lt_Some _ _ _ E) as Hlt.
  split_and!; [|done|done|..]; unfold next; rewrite ?decide_True by done; simpl.
  - destruct Hw. split; simpl; try done. by rewrite length_insert.
  - symmetry. by apply list_lookup_total_correct.
  - by apply list_lookup_total_insert_eq.
  - intros g Hne. case_decide; [|done]. apply list_lookup_total_insert_ne. lia.
Qed.

Lemma wf_set_pagenos s l :
  wf s -> length l = Z.to_nat MAX_FD -> wf (set_pagenos l s).
Proof. intros [] Hl. by split. Qed.

#[global] Program Instance disk_laws : DiskLaws (t O) := {
  dk_ok := wf; dk_valid := valid; dk_page := page; dk_next := next;
  dk_valid_page s p Hv := proj2 Hv;
  dk_write_frame s p bs s' r := write_page_ok p bs s s' r;
  dk_read_frame s p buf s' buf' r := read_page_ok p buf s s' buf' r;
  dk_alloc_frame s f s' r := allocate_page_ok f s s' r;
}.

(** ** Opening and closing files *)

Lemma open_file_ok path s s' r :
  wf s -> ~ os_special (O := O) path ->
  (forall f i, path2fd_ s !! path = None -> is_Some (fd2path_ s !! f) ->
     os_path (os s) path = Some i -> os_ino (os s) f <> Some i) ->
  open_file path s = (s', r) ->
  wf s' /\
  match r with
  | Ok f => path2fd_ s' = <[path := f]> (path2fd_ s) /\ fd2path_ s' = <[f := path]> (fd2path_ s)
  | Throw e => e = FileNotFoundError path /\ path2fd_ s' = path2fd_ s /\ fd2path_ s' = fd2path_ s
  end.
Proof.
  intros Hw Hsp Hal. unfold open_file, sys. msimpl.
  destruct (path2fd_ s !! path) as [f|] eqn:Ep.
  { intros ?; simplify_eq. split; [done|]. pose proof (proj1 (wf_inverse s' Hw _ _) Ep).
    by rewrite !insert_id. }
  destruct (os_open path O_RDWR (os s)) as [o' f] eqn:Eo.
  destruct (Z.ltb_spec f 0) as [Hf|Hf]; intros ?; simplify_eq; simpl.
  { destruct (open_fail _ _ _ _ _ Eo Hf) as (Hi & _). split; [|done].
    by apply (wf_same_tables s). }
  destruct (open_rdwr _ _ _ _ Eo Hf Hsp) as (Hi & [i [Hpi Hfi]] & Hne & Hpath & _).
  split; [|done].
  assert (Hfr : fd2path_ s !! f = None).
  { apply eq_None_not_Some. intros Hs. destruct (wf_open s Hw _ Hs) as [_ Hs'].
    rewrite Hi in Hs'. by inversion Hs'. }
  split; simpl; [| | |apply (wf_pagenos s Hw)].
  - intros p g. rewrite !lookup_insert_Some. rewrite (wf_inverse s Hw).
    split; intros [[-> ->]|[Hn Hg]]; auto.
    + right. split; [|done]. congruence.
    + right. split; [|done]. intros ->. apply (wf_inverse s Hw) in Hg. congruence.
  - intros g [p [[<- _]|[Hn Hg]]%lookup_insert_Some]; [by rewrite Hfi|].
    rewrite Hne by done. by apply (wf_open s Hw).
  - intros g1 g2. rewrite !lookup_insert_is_Some.
    intros [->|[Hn1 H1]] [->|[Hn2 H2]]; rewrite ?Hfi, ?Hne by done; [done|..].
    + intros E. by destruct (Hal _ _ eq_refl H2 Hpi).
    + intros E. by destruct (Hal _ _ eq_refl H1 Hpi).
    + by apply (wf_sep s Hw).
Qed.

Lemma close_file_ok f s s' r :
  wf s -> close_file f s = (s', r) ->
  wf s' /\
  match r with
  | Ok _ => exists path, fd2path_ s !! f = Some path /\
      path2fd_ s' = delete path (path2fd_ s) /\ fd2path_ s' = delete f (fd2path_ s)
  | Throw e => e = FileNotOpenError f /\ fd2path_ s !! f = None /\ s' = s
  end.
Proof.
  intros Hw. unfold close_file. msimpl.
  destruct (fd2path_ s !! f) as [path|] eqn:E; intros ?; simplify_eq; [|done].
  split; [|by exists path].
  pose proof (proj2 (wf_inverse s Hw _ _) E) as Ep.
  split; simpl; [| | |apply (wf_pagenos s Hw)].
  - intros p g. rewrite !lookup_delete_Some, (wf_inverse s Hw).
    split; intros [Hn Hg]; (split; [|done]); intros ->.
    + congruence.
    + apply (wf_inverse s Hw) in Hg. congruence.
  - intros g [p [Hn Hg]%lookup_delete_Some]. rewrite close_ino, decide_False by done.
    by apply (wf_open s Hw).
  - intros g1 g2 [p1 [Hn1 H1]%lookup_delete_Some] [p2 [Hn2 H2]%lookup_delete_Some].
    rewrite !close_ino, !decide_False by done. by apply (wf_sep s Hw).
Qed.

(** ** Histories of page operations *)
Inductive page_op := PWrite (p : PageId) (bs : bytes) | PRead (p : PageId) | PAlloc (f : Z).

Definition page_step (o : page_op) : M (t O) (option bytes) :=
  match o with
  | PWrite p bs => write_page (fd p) (page_no p) bs page_size;; mret None
  | PRead p => fun s =>
      let '(s', (buf, r)) := read_page (fd p) (page_no p) (replicate page_size 0) page_size s in
      (s', match r with Ok _ => Ok (Some buf) | Throw e => Throw e end)
  | PAlloc f => _ ← allocate_page f; mret None
  end.

Fixpoint page_run (l : list page_op) : M (t O) (list (option bytes)) :=
  match l with
  | [] => mret []
  | o :: l' => b ← page_step o; bs ← page_run l'; mret (b :: bs)
  end.

(** What the same history reads from an array of pages. *)
Fixpoint page_spec (l : list page_op) (m : PageId -> option bytes) : list (option bytes) :=
  match l with
  | [] => []
  | PWrite p bs :: l' => None :: page_spec l' (fun q => if decide (q = p) then Some bs else m q)
  | PRead p :: l' => m p :: page_spec l' m
  | PAlloc _ :: l' => None :: page_spec l' m
  end.

Definition page_op_valid (s : t O) (o : page_op) : Prop :=
  match o with
  | PWrite p bs => valid s p /\ length bs = page_size
  | PRead p => valid s p
  | PAlloc _ => True
  end.

Lemma page_step_ok o s s' b :
  wf s -> page_op_valid s o -> page_step o s = (s', Ok b) ->
  wf s' /\ (forall q, valid s' q <-> valid s q) /\
  match o with
  | PWrite p bs => b = None /\ page s' p = Some bs /\
      forall q x, valid s q -> q <> p -> page s q = Some x -> page s' q = Some x
  | PRead p => b = page s p /\ is_Some b /\ forall q, page s' q = page s q
  | PAlloc _ => b = None /\ forall q, page s' q = page s q
  end.
Proof.
  intros Hw Hv Hr. destruct o as [p bs|p|f]; simpl in *.
  - minv. destruct Hv as [Hv Hl]. unfold mret, M_ret in Hr. simplify_eq. destruct a.
    destruct (write_page_ok _ _ _ _ _ Hw Hv Hl Hm) as (? & ? & _ & ? & Hb).
    split_and!; auto.
  - destruct (read_page _ _ _ _ _) as [s1 [buf [[]|e]]] eqn:E; simplify_eq.
    apply read_page_ok in E as (? & ? & _ & ? & _ & Hb); [|done|done|len].
    rewrite Hb by done. split_and!; auto.
  - minv. unfold mret, M_ret in Hr. simplify_eq.
    destruct (allocate_page_ok _ _ _ _ Hw Hm) as (? & ? & ? & _). split_and!; auto.
Qed.

Lemma page_run_ok l : forall s s' out m,
  wf s -> Forall (page_op_valid s) l -> page_run l s = (s', Ok out) ->
  (forall q x, valid s q -> m q = Some x -> page s q = Some x) ->
  forall i p x, l !! i = Some (PRead p) -> page_spec l m !! i = Some (Some x) ->
  out !! i = Some (Some x).
Proof.
  induction l as [|o l IH]; intros s s' out m Hw Hv Hr Hm i p x Hi Hx; [done|].
  simpl in Hr. minv. unfold mret, M_ret in Hr. simplify_eq. apply Forall_cons in Hv as [Hv Hvs].
  rename Hm0 into Hs. destruct (page_step_ok _ _ _ _ Hw Hv Hs) as (Hw' & Hv' & Ho).
  assert (Hvs' : Forall (page_op_valid s0) l).
  { eapply Forall_impl; [done|]. intros [] ?; simpl in *; rewrite ?Hv'; auto. }
  destruct i as [|i]; simpl in *.
  - simplify_eq. simpl in Hx. simplify_eq. destruct Ho as (-> & _). by rewrite (Hm p x).
  - destruct o as [p' bs|p'|f]; simpl in Hx.
    + eapply IH; [done|done|done| |done|done]. intros q y Hq. simpl. destruct Ho as (_ & Hw1 & Hw2).
      case_decide as Hd; [intros; simplify_eq; done|]. intros Hy.
      apply Hv' in Hq. apply Hw2; auto.
    + eapply IH; [done|done|done| |done|done]. intros q y Hq%Hv' Hy.
      destruct Ho as (_ & _ & ->). auto.
    + eapply IH; [done|done|done| |done|done]. intros q y Hq%Hv' Hy.
      destruct Ho as (_ & ->). auto.
Qed.

(** ** The log file *)

(** The contents of [db.log] in the working directory. *)
Definition log_file (s : t O) : option bytes := os_data (os s) <$> os_path (os s) LOG_FILE_NAME.

(** The log descriptor is not open yet, or it is of that file; so is the one in
    the table of open files; and the log is not a device. *)
Record log_ok (s : t O) : Prop := {
  log_ok_special : ~ os_special (O := O) LOG_FILE_NAME;
  log_ok_fd : log_fd_ s <> -1 ->
    is_Some (os_path (os s) LOG_FILE_NAME) /\
    os_ino (os s) (log_fd_ s) = os_path (os s) LOG_FILE_NAME;
  log_ok_tab f : path2fd_ s !! LOG_FILE_NAME = Some f ->
    f <> -1 /\ is_Some (os_path (os s) LOG_FILE_NAME) /\
    os_ino (os s) f = os_path (os s) LOG_FILE_NAME;
}.

Lemma is_file_run path s :
  is_file path s = (s, Ok (bool_decide (is_Some (os_path (os s) path)))).
Proof.
  unfold is_file. msimpl. f_equal. f_equal.
  destruct (os_stat path (os s)) as [[[] n]|] eqn:E; case_bool_decide as Hp; try done.
  - apply stat_reg in E as (i & Hi & _). rewrite Hi in Hp. by destruct Hp.
  - destruct Hp as [i Hi].
    assert (os_stat path (os s) = Some (S_IFREG, Z.of_nat (length (os_data (os s) i))))
      by (apply stat_reg; eauto). congruence.
  - destruct Hp as [i Hi].
    assert (os_stat path (os s) = Some (S_IFREG, Z.of_nat (length (os_data (os s) i))))
      by (apply stat_reg; eauto). congruence.
Qed.

(** Opening the log file when it exists. *)
Lemma open_log_ok s s' f :
  log_ok s -> is_Some (os_path (os s) LOG_FILE_NAME) ->
  open_file LOG_FILE_NAME s = (s', Ok f) ->
  log_ok (set_log_fd f s') /\ log_file s' = log_file s /\
  f <> -1 /\ os_ino (os s') f = os_path (os s') LOG_FILE_NAME /\
  is_Some (os_path (os s') LOG_FILE_NAME).
Proof.
  intros Hl Hs. unfold open_file, sys. msimpl.
  destruct (path2fd_ s !! LOG_FILE_NAME) as [g|] eqn:Ep.
  { intros ?; simplify_eq. destruct (log_ok_tab s' Hl _ Ep) as (? & ? & ?).
    split_and!; try done. split; [by apply log_ok_special in Hl|done|]. by apply (log_ok_tab s' Hl). }
  destruct (os_open LOG_FILE_NAME O_RDWR (os s)) as [o' g] eqn:Eo.
  destruct (Z.ltb_spec g 0) as [Hf|Hf]; [done|]. intros [= <- <-]. simpl.
  destruct (open_rdwr _ _ _ _ Eo Hf (log_ok_special _ Hl)) as (_ & [i [Hpi Hfi]] & _ & Hpath & Hd).
  unfold log_file. simpl. rewrite Hpath, Hpi, Hfi. simpl. rewrite Hd.
  split_and!; [|done|lia|done|done].
  split; simpl; [by apply log_ok_special in Hl| |]; rewrite Hpath, Hpi; [done|].
  intros f'. rewrite lookup_insert_eq. intros [= <-]. split_and!; [lia|done|done].
Qed.

(** Creating it when it does not. *)
Lemma create_log_ok s s' :
  log_ok s -> os_path (os s) LOG_FILE_NAME = None ->
  create_file LOG_FILE_NAME s = (s', Ok tt) ->
  log_ok s' /\ log_file s' = Some [] /\ log_fd_ s' = log_fd_ s.
Proof.
  intros Hl Hn. unfold create_file. intros Hr. minv. rewrite is_file_run in Hm. simplify_eq.
  rewrite Hn in Hr. simpl in Hr. minv. unfold sys in Hm.
  destruct (os_open LOG_FILE_NAME O_CREAT (os s0)) as [o' f] eqn:Eo. simplify_eq.

  all: destruct (Z.ltb_spec a 0) as [Hf|Hf]; msimpl; simplify_eq.
  all: destruct (open_creat _ _ _ _ Eo Hf (log_ok_special _ Hl) Hn) as (_ & (i & Hpi & _ & Hd & _) & _).
  all: unfold log_file; simpl; rewrite Hpi; simpl; rewrite Hd; split_and!; try done.
  all: split; simpl; [by apply log_ok_special in Hl|by intros [[? ?] _]%(log_ok_fd s0 Hl); rewrite Hn in *|].
  all: intros g (_ & [? ?] & _)%(log_ok_tab s0 Hl); rewrite Hn in *; done.
Qed.

(** Appending once the log descriptor is open. *)
Definition log_append (log_data : bytes) : M (t O) unit :=
  s ← get;
  modify (fun s => set_os (os_lseek (log_fd_ s) 0 SEEK_END (os s)) s);;
  bytes_write ← sys (os_write (log_fd_ s) log_data);
  if decide (bytes_write = Z.of_nat (length log_data)) then mret tt else throw UnixError.

Lemma log_append_ok data s s' :
  log_ok s -> log_fd_ s <> -1 -> log_append data s = (s', Ok tt) ->
  log_ok s' /\ log_fd_ s' = log_fd_ s /\ log_file s' = (fun l => l ++ data) <$> log_file s.
Proof.
  intros Hl Hf. unfold log_append, sys. msimpl.
  destruct (os_write _ _ _) as [o' n] eqn:Ew.
  case_decide as Hn; intros ?; simplify_eq. simpl.
  destruct (log_ok_fd s Hl Hf) as [[i Hi] Hfi]. rewrite Hi in Hfi.
  assert (Hp : forall p, os_path o' p = os_path (os s) p).
  { intros p. by rewrite (write_path _ _ _ _ _ _ Ew), lseek_path. }
  assert (Hio : forall g, os_ino o' g = os_ino (os s) g).
  { intros g. by rewrite (write_ino _ _ _ _ _ _ Ew), lseek_ino. }
  split_and!; [|done|].
  - split; simpl; [by apply log_ok_special in Hl| |]; rewrite Hp.
    + rewrite Hio. intros _. rewrite Hi. done.
    + intros g Hg. rewrite Hio. by apply (log_ok_tab s Hl).
  - unfold log_file. simpl. rewrite Hp, Hi. simpl. f_equal.
    rewrite (write_data _ _ _ _ _ i Ew) by (by rewrite lseek_ino).
    rewrite lseek_data, (lseek_end_pos _ _ i) by done.
    destruct (Z.leb_spec (Z.of_nat (length data)) 0) as [Hz|Hz].
    + destruct data; [by rewrite app_nil_r|simpl in Hz; lia].
    + rewrite Nat2Z.id, (take_ge data) by lia. unfold file_splice.
      rewrite take_ge, Nat.sub_diag, drop_ge by lia. simpl. by rewrite app_nil_r.
Qed.

Lemma write_log_ok data s s' :
  log_ok s -> write_log data s = (s', Ok tt) ->
  log_ok s' /\ log_fd_ s' <> -1 /\ log_file s' = Some (default [] (log_file s) ++ data).
Proof.
  intros Hl Hr. unfold write_log in Hr. fold (log_append data) in Hr. minv.
  unfold get in Hm. simplify_eq.
  destruct (decide (log_fd_ a = -1)) as [Hf|Hf].
  - minv. rewrite is_file_run in Hm. simplify_eq. rename Hm0 into Hc, Hm1 into Ho, Hm2 into Hs.
    unfold modify in Hs. simplify_eq.
    match type of Hc with _ ?s0 = (?s1, _) =>
      assert (exists l, log_ok s1 /\ log_file s1 = Some l /\ l = default [] (log_file s0))
        as (l & Hl2 & Hlf & ->) end.
    { unfold log_file at 2. case_bool_decide as Hp.
      - unfold mret, M_ret in Hc. simplify_eq. destruct Hp as [i Hp].
        unfold log_file. rewrite Hp. eexists. by split_and!.
      - apply eq_None_not_Some in Hp. rewrite Hp. destruct a1.
        destruct (create_log_ok _ _ Hl Hp Hc) as (? & ? & _). by eexists. }
    match type of Ho with _ ?s1 = _ =>
      assert (is_Some (os_path (os s1) LOG_FILE_NAME)) as Hp
        by (eapply fmap_is_Some, mk_is_Some, Hlf) end.
    destruct (open_log_ok _ _ _ Hl2 Hp Ho) as (Hl3 & Hlf3 & Hne & _).
    destruct (log_append_ok _ _ _ Hl3 Hne Hr) as (? & E & E'). simpl in E.
    split_and!; [done|by rewrite E|]. rewrite E'. unfold log_file at 1. simpl.
    unfold log_file at 1 in Hlf3. by rewrite Hlf3, Hlf.
  - destruct (log_append_ok _ _ _ Hl Hf Hr) as (? & E & ->). split_and!; [done|by rewrite E|].
    unfold log_file. destruct (log_ok_fd a Hl Hf) as [[i ->] _]. done.
Qed.

(** What [read_log] returns of a log with contents [l]. *)
Definition log_slice (l : bytes) (sz offset : Z) : Z * bytes :=
  let len := Z.of_nat (length l) in
  if len <? offset then (-1, []) else
  let n := Z.min sz (len - offset) in
  (n, mem_read l (Z.to_nat offset) (Z.to_nat n)).

Lemma log_size s l :
  log_file s = Some l -> Z.of_nat (length l) < 2 ^ 31 ->
  get_file_size LOG_FILE_NAME s = (s, Ok (Z.of_nat (length l))).
Proof.
  unfold log_file, get_file_size. intros H1 Hl. apply fmap_Some in H1 as (i & Hi & ->).
  msimpl. rewrite (proj2 (stat_reg LOG_FILE_NAME (os s) (Z.of_nat (length (os_data (os s) i)))))
    by eauto.
  rewrite i32_small; [done|]. unfold in_i32. lia.
Qed.

Lemma read_log_ok s s' l sz offset r :
  log_ok s -> log_fd_ s <> -1 -> log_file s = Some l -> Z.of_nat (length l) < 2 ^ 31 ->
  0 <= sz -> 0 <= offset ->
  read_log sz offset s = (s', Ok r) -> r = log_slice l sz offset.
Proof.
  intros Hl Hf Hlf Hlen Hsz Hoff Hr. unfold read_log in Hr. minv.
  unfold get in Hm. simplify_eq. rewrite decide_False in Hr by done. minv.
  rewrite (log_size _ _ Hlf Hlen) in Hm. simplify_eq. unfold log_slice.
  destruct (Z.ltb_spec (Z.of_nat (length l)) offset) as [Hlo|Hlo].
  { unfold mret, M_ret in Hr. by simplify_eq. }
  set (n := Z.min sz (Z.of_nat (length l) - offset)) in *.
  case_decide as Hn.
  { unfold mret, M_ret in Hr. simplify_eq. by rewrite Hn. }
  unfold sys in Hr. msimpl. destruct (os_read _ _ _) as [[o' bs] k] eqn:Er. simpl in Hr.
  case_bool_decide as Hk; simpl in Hr; simplify_eq. f_equal.
  destruct (log_ok_fd _ Hl Hf) as [[i Hi] Hfi]. rewrite Hi in Hfi.
  pose proof (read_data _ _ _ _ _ _ i Er) as Hd.
  rewrite lseek_ino, lseek_data, (lseek_set_pos _ _ _ i) in Hd by done.
  destruct (read_count _ _ _ _ _ _ Er) as [_ [Hb|Hb]]; [|lia].
  unfold log_file in Hlf. rewrite Hi in Hlf. simpl in Hlf. simplify_eq.
  rewrite Hd by done. f_equal. lia.
Qed.

Lemma log_chunks_ok chunks : forall s s',
  log_ok s -> forM chunks write_log s = (s', Ok tt) ->
  log_ok s' /\ (chunks <> [] ->
    log_fd_ s' <> -1 /\ log_file s' = Some (default [] (log_file s) ++ concat chunks)).
Proof.
  induction chunks as [|c chunks IH]; intros s s' Hl Hr; simpl in *.
  { unfold mret, M_ret in Hr. by simplify_eq. }
  minv. destruct a. destruct (write_log_ok _ _ _ Hl Hm) as (Hl' & Hf & Hlf).
  destruct (IH _ _ Hl' Hr) as (Hl'' & HIH). split; [done|]. intros _.
  destruct chunks as [|c' chunks].
  - unfold forM, mret, M_ret in Hr. simplify_eq. simpl. by rewrite app_nil_r.
  - destruct HIH as [? ->]; [done|]. split; [done|]. rewrite Hlf. simpl. by rewrite <- !app_assoc.
Qed.

(** ** Histories of opens and closes *)
Inductive file_op := FOpen (path : string) | FClose (f : Z).

(** A failed call changes nothing in the tables and the history goes on. *)
Definition file_step (o : file_op) (s : t O) : t O :=
  match o with
  | FOpen path => (open_file path s).1
  | FClose f => (close_file f s).1
  end.

(** Every open file is the one its name refers to. *)
Definition named (o : O) (s : t O) : Prop :=
  wf s /\ (forall p, os_path (os s) p = os_path o p) /\
  forall f p, fd2path_ s !! f = Some p -> os_ino (os s) f = os_path o p.

(** The names a history opens: none of them is a device, and no two of them are names of one
    file. *)
Definition opened (ops : list file_op) : list string :=
  omap (fun op => match op with FOpen path => Some path | FClose _ => None end) ops.
Record distinct_files (o : O) (l : list string) : Prop := {
  df_regular p : p ∈ l -> ~ os_special (O := O) p;
  df_inj p q i : p ∈ l -> q ∈ l -> os_path o p = Some i -> os_path o q = Some i -> p = q;
}.

Lemma open_file_os path s : ~ os_special (O := O) path ->
  (forall p, os_path (os (open_file path s).1) p = os_path (os s) p) /\
  forall f, is_Some (os_ino (os s) f) -> os_ino (os (open_file path s).1) f = os_ino (os s) f.
Proof.
  intros Hsp. unfold open_file, sys. msimpl. destruct (path2fd_ s !! path); [done|].
  destruct (os_open path O_RDWR (os s)) as [o' f] eqn:Eo.
  destruct (Z.ltb_spec f 0) as [Hf|Hf]; simpl.
  - destruct (open_fail _ _ _ _ _ Eo Hf) as (? & ? & _). done.
  - destruct (open_rdwr _ _ _ _ Eo Hf Hsp) as (Hi & _ & Hne & Hp & _). split; [done|].
    intros g Hg. apply Hne. intros ->. rewrite Hi in Hg. by inversion Hg.
Qed.

Definition named_in (o : O) (l : list string) (s : t O) : Prop :=
  named o s /\ forall f p, fd2path_ s !! f = Some p -> p ∈ l.

Lemma open_step_named o l path s : distinct_files o l -> path ∈ l -> named_in o l s ->
  named_in o l (open_file path s).1.
Proof.
  intros [Hspec Hinj] Hpl ((Hw & Hp & Hn) & Hin). destruct (open_file_os path s (Hspec _ Hpl)) as [Hp' Hi'].
  destruct (open_file path s) as [s' r] eqn:E. simpl in *.
  pose proof E as E'. apply open_file_ok in E' as [Hw' Htab]; [|done|by apply Hspec|].
  2: { intros f i Hno [q Hq] Hpi. rewrite (Hn _ _ Hq). rewrite Hp in Hpi. intros Hqi.
       rewrite (Hinj _ _ _ Hpl (Hin _ _ Hq) Hpi Hqi) in Hno. apply (wf_inverse s Hw) in Hq. congruence. }
  assert (Hcase : forall g q, fd2path_ s' !! g = Some q ->
    fd2path_ s !! g = Some q \/ (path2fd_ s !! path = None /\ q = path /\ r = Ok g)).
  { intros g q Hg. destruct r as [f|e]; destruct Htab as [H1 H2]; [|left; by destruct H2 as [_ <-]].
    rewrite H2 in Hg. apply lookup_insert_Some in Hg as [[-> ->]|[_ Hg]]; [|by left].
    destruct (path2fd_ s !! q) as [f|] eqn:Ef; [left|by right].
    unfold open_file in E. msimpl. rewrite Ef in E. simplify_eq. by apply (wf_inverse s' Hw). }
  split; [|intros g q Hg; destruct (Hcase g q Hg) as [Hg'|(_ & -> & _)]; [by apply (Hin g)|done]].
  split_and!; [done|intros p; by rewrite Hp'|]. intros g q Hg. destruct (Hcase g q Hg) as [Hg'|(Hnone & -> & ->)].
  - rewrite Hi' by (apply (wf_open s Hw); eauto). by apply Hn.
  - unfold open_file, sys in E. msimpl. rewrite Hnone in E.
    destruct (os_open path O_RDWR (os s)) as [o' f] eqn:Eo.
    destruct (Z.ltb_spec f 0) as [Hf|Hf]; simplify_eq.
    destruct (open_rdwr _ _ _ _ Eo Hf (Hspec _ Hpl)) as (_ & [i [Hpi Hfi]] & _). simpl.
    by rewrite Hfi, <- Hp, Hpi.
Qed.

Lemma close_step_named o l f s : named_in o l s -> named_in o l (close_file f s).1.
Proof.
  intros ((Hw & Hp & Hn) & Hin). destruct (close_file f s) as [s' r] eqn:E. simpl.
  pose proof E as E'. apply close_file_ok in E' as [Hw' Htab]; [|done].
  unfold close_file in E. msimpl. destruct (fd2path_ s !! f) eqn:Ef; simplify_eq; [|done]. split.
  - split_and!; [done|intros p; by rewrite <- Hp; apply close_path|].
    simpl. intros g q [Hne Hg]%lookup_delete_Some. rewrite close_ino, decide_False by done. by apply Hn.
  - simpl. intros g q [Hne Hg]%lookup_delete_Some. by apply (Hin g).
Qed.

Lemma make_named (o : O) : named o (make o).
Proof.
  split_and!; [|done|by intros; simplify_map_eq].
  split; [by intros; cbn [path2fd_ fd2path_ make]; rewrite !lookup_empty| | |apply length_replicate].
  - intros f [? [=]].
  - intros f g [? [=]].
Qed.

Lemma file_run_named o l ops s : distinct_files o l -> (forall p, p ∈ opened ops -> p ∈ l) ->
  named_in o l s -> named_in o l (fold_left (fun s op => file_step op s) ops s).
Proof.
  intros Hd. revert s. induction ops as [|[path|f] ops IH]; intros s Hop Hs; simpl; [done| |].
  - apply IH; [intros p Hp; apply Hop; cbn; by apply list_elem_of_further|].
    apply open_step_named; [done|apply Hop; cbn; by apply list_elem_of_here|done].
  - apply IH; [done|]. by apply close_step_named.
Qed.

Lemma make_named_in o l : named_in o l (make o).
Proof. split; [apply make_named|]. by intros; simplify_map_eq. Qed.

(** ** Properties *)

(** C6: the disk is an array of pages.  In any history of page writes, page reads
    and page allocations on open files that returns normally, a read gets what the
    array holds at that place, the last page written there or else the page the
    file had before, wherever the other writes of the history went. *)
Theorem pages_as_array s s' l out :
  wf s -> Forall (page_op_valid s) l -> page_run l s = (s', Ok out) ->
  forall i p x, l !! i = Some (PRead p) -> page_spec l (page s) !! i = Some (Some x) ->
  out !! i = Some (Some x).
Proof. intros Hw Hv Hr. eapply page_run_ok; eauto. Qed.

(** C9: after any history of [open_file] and [close_file] calls on a new disk manager, in
    which no two of the opened names are names of one file and none is the name of a device,
    the tables [path2fd_] and [fd2path_] are inverse to each other, every descriptor in them
    is open, refers to the file of its name, and no two of them to one file. *)
Theorem open_files_consistent (o : O) ops :
  distinct_files o (opened ops) ->
  named o (fold_left (fun s op => file_step op s) ops (make o)).
Proof. intros Hd. apply (file_run_named o (opened ops)); [done|done|apply make_named_in]. Qed.

(** The log is append only and reads back.  Chunks written by successive
    [write_log] calls, the first of which may open or create the file, follow what
    the log held, and a later [read_log] returns the bytes at its offset, cut at the
    end of the log. *)
Theorem log_append_read s s1 s2 chunks sz offset r :
  log_ok s -> chunks <> [] -> forM chunks write_log s = (s1, Ok tt) ->
  let l := default [] (log_file s) ++ concat chunks in
  Z.of_nat (length l) < 2 ^ 31 -> 0 <= sz -> 0 <= offset ->
  read_log sz offset s1 = (s2, Ok r) ->
  r = log_slice l sz offset.
Proof.
  intros Hl Hne Hr l Hlen Hsz Hoff Hrd.
  destruct (log_chunks_ok _ _ _ Hl Hr) as (Hl1 & H1). destruct (H1 Hne) as (Hf & Hlf).
  by eapply read_log_ok.
Qed.

End laws.

(** ** Witnesses, on the in-memory file system *)

(** A file of three pages and an empty one, opened (and one closed and opened
    again): descriptors 2 and 1. *)
Definition demo_fs : MemFs.t :=
  MemFs.mk {[ 1%nat := replicate (3 * page_size) 7; 2%nat := [] ]}
           {[ "a" := 1%nat; "./a" := 1%nat; "b" := 2%nat ]} ∅ ∅.
Definition demo_opens : list file_op := [FOpen "a"; FOpen "b"; FClose 0; FOpen "c"; FOpen "a"].
Definition demo : t MemFs.t := fold_left (fun s op => file_step op s) demo_opens (make demo_fs).

Definition demo_ops : list page_op :=
  [ PWrite (mkPageId 2 1) (replicate page_size 1);
    PWrite (mkPageId 1 0) (replicate page_size 2);
    PRead (mkPageId 2 1); PRead (mkPageId 2 2) ].

(** "c" names no file, and "./a" the same file as "a". *)
Lemma demo_distinct : distinct_files demo_fs (opened demo_opens).
Proof.
  split; [by intros p _ []|]. intros p q i Hp Hq. unfold os_path. simpl. unfold MemFs.path. simpl.
  unfold opened, demo_opens in Hp, Hq. cbn in Hp, Hq. set_unfold in Hp. set_unfold in Hq.
  destruct_or?; subst; try done; vm_compute; congruence.
Qed.

Lemma disk_demo_wf : wf demo.
Proof.
  destruct (file_run_named demo_fs (opened demo_opens) demo_opens (make demo_fs)) as [[Hw _] _];
    [apply demo_distinct|done|apply make_named_in|exact Hw].
Qed.

Lemma demo_valid : Forall (page_op_valid demo) demo_ops.
Proof.
  assert (is_Some (fd2path_ demo !! 2) /\ is_Some (fd2path_ demo !! 1)) as [H0 H1]
    by (split; eexists; vm_compute; reflexivity).
  unfold demo_ops. rewrite !Forall_cons. unfold page_op_valid, valid. rewrite !length_replicate.
  cbn [fd page_no]. split_and!; first [exact H0|exact H1|exact eq_refl|exact I|lia|constructor].
Qed.

Lemma pages_as_array_witness :
  match page_run demo_ops demo with
  | (_, Ok out) => out !! 2%nat = Some (Some (replicate page_size 1)) /\
                   out !! 3%nat = Some (Some (replicate page_size 7))
  | _ => False
  end.
Proof.
  destruct (page_run demo_ops demo) as [s' [out|e]] eqn:E.
  - split.
    + apply (pages_as_array demo s' demo_ops out disk_demo_wf demo_valid E 2 (mkPageId 2 1));
        [done|vm_compute; reflexivity].
    + apply (pages_as_array demo s' demo_ops out disk_demo_wf demo_valid E 3 (mkPageId 2 2));
        [done|vm_compute; reflexivity].
  - assert (match (page_run demo_ops demo).2 with Ok _ => true | Throw _ => false end = true)
      as E' by (vm_compute; reflexivity).
    rewrite E in E'. discriminate.
Defined.

Lemma open_files_consistent_witness :
  named demo_fs demo /\ fd2path_ demo !! 1 = Some "b" /\ fd2path_ demo !! 2 = Some "a" /\
  path2fd_ demo !! "c" = None.
Proof.
  split; [exact (open_files_consistent demo_fs demo_opens demo_distinct)|].
  vm_compute. done.
Defined.

Lemma demo_log_ok : log_ok (make demo_fs).
Proof. split; simpl; [by intros []|done|]. intros f. by rewrite lookup_empty. Qed.

Lemma log_append_read_witness :
  match forM [[1; 2; 3]; []; [4; 5]] write_log (make demo_fs) with
  | (s1, Ok tt) => (read_log 10 1 s1).2 = Ok (4, [2; 3; 4; 5]) /\
                   log_slice [1; 2; 3; 4; 5] 10 1 = (4, [2; 3; 4; 5])
  | _ => False
  end.
Proof.
  destruct (forM [[1; 2; 3]; []; [4; 5]] write_log (make demo_fs)) as [s1 [[]|e]] eqn:E.
  - destruct (read_log 10 1 s1) as [s2 [r|e]] eqn:Er.
    + split; [|reflexivity]. simpl. f_equal.
      rewrite (log_append_read (make demo_fs) s1 s2 [[1; 2; 3]; []; [4; 5]] 10 1 r
                 demo_log_ok ltac:(discriminate) E eq_refl ltac:(lia) ltac:(lia) Er).
      vm_compute. reflexivity.
    + exfalso. assert ((read_log 10 1 s1).2 = Ok (4, [2; 3; 4; 5])) as E'.
      { replace s1 with (forM [[1; 2; 3]; []; [4; 5]] write_log (make demo_fs)).1
          by by rewrite E. vm_compute. reflexivity. }
      rewrite Er in E'. discriminate.
  - exfalso. apply (f_equal snd) in E. vm_compute in E. discriminate.
Defined.
End DiskManager.
