(* ===== verification/Buffer.v ===== *)
(** * The buffer pool

    [storage/buffer_pool_manager.h], [buffer_pool_manager.cpp] and the class [Page]
    of [storage/page.h], over the interfaces [Disk] and [Replacer].  A [Page *] that
    the pool hands out is the index of its frame. *)

From S2P Require Import Prelude Common Replacer Posix Disk.

Module BufferPool.

(** ** [page.h]

    The pins are an [int] of the code, which 2^31 fetches of one page would have to fill. *)
Record Page := mkPage {
  id_ : PageId;
  data_ : bytes;
  is_dirty_ : bool;
  pin_count_ : Z;
}.

Definition OFFSET_PAGE_START : Z := 0.
Definition OFFSET_LSN : nat := 0.
Definition OFFSET_PAGE_HDR : nat := 4.

(** [memset(data_, OFFSET_PAGE_START, PAGE_SIZE)]. *)
Definition zero_page : bytes := replicate page_size OFFSET_PAGE_START.

Definition set_id (i : PageId) (p : Page) : Page := mkPage i (data_ p) (is_dirty_ p) (pin_count_ p).
Definition set_data (d : bytes) (p : Page) : Page := mkPage (id_ p) d (is_dirty_ p) (pin_count_ p).
Definition set_dirty (b : bool) (p : Page) : Page := mkPage (id_ p) (data_ p) b (pin_count_ p).
Definition set_pin (n : Z) (p : Page) : Page := mkPage (id_ p) (data_ p) (is_dirty_ p) n.
Definition reset_memory (p : Page) : Page := set_data zero_page p.
Definition get_page_lsn (p : Page) : Z := load_i32 (data_ p) OFFSET_LSN.
Definition set_page_lsn (page_lsn : Z) (p : Page) : Page :=
  set_data (store_32 (data_ p) OFFSET_LSN page_lsn) p.

(** The identifier of a frame that holds no page. *)
Definition no_page : PageId := mkPageId (-1) INVALID_PAGE_ID.

Section ops.
Context {D R : Type} `{Disk D} `{Replacer R}.

(** ** State *)
Record t := mk {
  pages_ : list Page;
  page_table_ : gmap PageId Z;
  free_list_ : list Z;
  disk_manager_ : D;
  replacer_ : R;
}.

Definition pool_size_ (s : t) : nat := length (pages_ s).

(** The constructor.  [id_.fd] of a new [Page] is not initialised: [junk]. *)
Definition make (pool_size : nat) (junk : nat -> Z) (d : D) (r : R) : t :=
  mk ((fun i => mkPage (mkPageId (junk i) INVALID_PAGE_ID) zero_page false 0) <$> seq 0 pool_size)
     ∅ (Z.of_nat <$> seq 0 pool_size) d r.

Definition set_pages (l : list Page) (s : t) : t :=
  mk l (page_table_ s) (free_list_ s) (disk_manager_ s) (replacer_ s).
Definition set_table (m : gmap PageId Z) (s : t) : t :=
  mk (pages_ s) m (free_list_ s) (disk_manager_ s) (replacer_ s).
Definition set_free (l : list Z) (s : t) : t :=
  mk (pages_ s) (page_table_ s) l (disk_manager_ s) (replacer_ s).
Definition set_disk (d : D) (s : t) : t :=
  mk (pages_ s) (page_table_ s) (free_list_ s) d (replacer_ s).
Definition set_replacer (r : R) (s : t) : t :=
  mk (pages_ s) (page_table_ s) (free_list_ s) (disk_manager_ s) r.

(** Access through [Page *page = pages_ + frame_id]. *)
Definition frame (s : t) (f : Z) : option Page :=
  if decide (0 <= f) then pages_ s !! Z.to_nat f else None.
Definition page_at (f : Z) : M t Page := fun s =>
  match frame s f with Some p => (s, Ok p) | None => (s, Throw Stuck) end.
Definition upd_frame (f : Z) (g : Page -> Page) (l : list Page) : list Page :=
  if decide (0 <= f) then alter g (Z.to_nat f) l else l.
Definition upd_page (f : Z) (g : Page -> Page) : M t unit :=
  modify (fun s => set_pages (upd_frame f g (pages_ s)) s).

Definition disk_op {A} (m : M D A) : M t A := zoom disk_manager_ set_disk m.
Definition rep_pin (f : Z) : M t unit := modify (fun s => set_replacer (r_pin f (replacer_ s)) s).
Definition rep_unpin (f : Z) : M t unit := modify (fun s => set_replacer (r_unpin f (replacer_ s)) s).
Definition table_erase (p : PageId) : M t unit :=
  modify (fun s => set_table (delete p (page_table_ s)) s).
Definition table_set (p : PageId) (f : Z) : M t unit :=
  modify (fun s => set_table (<[p := f]> (page_table_ s)) s).

(** [disk_manager_->read_page] into the data of a frame. *)
Definition read_into (p : PageId) (f : Z) : M t unit := fun s =>
  match frame s f with
  | None => (s, Throw Stuck)
  | Some pg =>
      let '(d, (buf, r)) := dk_read_page p (data_ pg) (disk_manager_ s) in
      (set_pages (upd_frame f (set_data buf) (pages_ s)) (set_disk d s), r)
  end.

(** ** Operations *)

Definition find_victim_page : M t (option Z) := fun s =>
  match free_list_ s with
  | [] => let '(r, o) := r_victim (replacer_ s) in (set_replacer r s, Ok o)
  | f :: l => (set_free l s, Ok (Some f))
  end.

Definition update_page (page : Z) (new_page_id : PageId) (new_frame_id : Z) : M t unit :=
  pg ← page_at page;
  whenM (is_dirty_ pg)
    (disk_op (dk_write_page (id_ pg) (data_ pg));; upd_page page (set_dirty false));;
  table_erase (id_ pg);;
  upd_page page reset_memory;;
  read_into new_page_id page;;
  whenM (bool_decide (new_frame_id <> INVALID_FRAME_ID)) (table_set new_page_id new_frame_id);;
  upd_page page (set_id new_page_id).

(** [None] is the null pointer. *)
Definition fetch_page (page_id : PageId) : M t (option Z) :=
  tab ← gets page_table_;
  match tab !! page_id with
  | Some frame_id =>
      rep_pin frame_id;;
      pg ← page_at frame_id;
      upd_page frame_id (set_pin (pin_count_ pg + 1));;
      mret (Some frame_id)
  | None =>
      v ← find_victim_page;
      match v with
      | None => mret None
      | Some frame_id =>
          update_page frame_id page_id frame_id;;
          rep_pin frame_id;;
          pg ← page_at frame_id;
          upd_page frame_id (set_pin (pin_count_ pg + 1));;
          mret (Some frame_id)
      end
  end.

Definition unpin_page (page_id : PageId) (is_dirty : bool) : M t bool :=
  tab ← gets page_table_;
  match tab !! page_id with
  | None => mret false
  | Some frame_id =>
      pg ← page_at frame_id;
      if decide (pin_count_ pg = 0) then mret false else
      upd_page frame_id (set_pin (pin_count_ pg - 1));;
      whenM (pin_count_ pg - 1 =? 0) (rep_unpin frame_id);;
      upd_page frame_id (set_dirty (is_dirty_ pg || is_dirty));;
      mret true
  end.

Definition flush_page (page_id : PageId) : M t bool :=
  tab ← gets page_table_;
  match tab !! page_id with
  | None => mret false
  | Some frame_id =>
      pg ← page_at frame_id;
      disk_op (dk_write_page page_id (data_ pg));;
      upd_page frame_id (set_dirty false);;
      mret true
  end.

(** The frame and the page number written to [*page_id]. *)
Definition new_page (file : Z) : M t (option (Z * PageId)) :=
  v ← find_victim_page;
  match v with
  | None => mret None
  | Some frame_id =>
      pg ← page_at frame_id;
      whenM (is_dirty_ pg) (disk_op (dk_write_page (id_ pg) (data_ pg)));;
      table_erase (id_ pg);;
      n ← disk_op (dk_allocate_page file);
      rep_pin frame_id;;
      upd_page frame_id (fun p =>
        set_page_lsn INVALID_LSN
          (reset_memory (set_dirty false (set_pin (pin_count_ p + 1) (set_id (mkPageId file n) p)))));;
      pg' ← page_at frame_id;
      disk_op (dk_write_page (id_ pg') (data_ pg'));;
      table_set (mkPageId file n) frame_id;;
      mret (Some (frame_id, mkPageId file n))
  end.

Definition delete_page (page_id : PageId) : M t bool :=
  tab ← gets page_table_;
  match tab !! page_id with
  | None => mret true
  | Some frame_id =>
      pg ← page_at frame_id;
      if 0 <? pin_count_ pg then mret false else
      disk_op (dk_write_page page_id (data_ pg));;
      upd_page frame_id (set_dirty false);;
      table_erase page_id;;
      upd_page frame_id (fun p => set_id no_page (set_pin 0 (reset_memory p)));;
      modify (fun s => set_free (free_list_ s ++ [frame_id]) s);;
      mret true
  end.

(** The body of the loop of [flush_all_pages]. *)
Definition flush_frame (file : Z) (frame_id : Z) : M t unit :=
  pg ← page_at frame_id;
  if decide (fd (id_ pg) <> file \/ page_no (id_ pg) = INVALID_PAGE_ID) then mret tt else
  disk_op (dk_write_page (id_ pg) (data_ pg));;
  upd_page frame_id (set_dirty false);;
  if decide (pin_count_ pg <> 0) then mret tt else
  table_erase (id_ pg);;
  upd_page frame_id (fun p => reset_memory (set_id no_page p));;
  rep_unpin frame_id.

Definition flush_all_pages (file : Z) : M t unit :=
  s ← get;
  forM (Z.of_nat <$> seq 0 (pool_size_ s)) (flush_frame file).

(** ** What the users of a page do through its pointer *)

Definition mark_dirty (page : Z) : M t unit := upd_page page (set_dirty true).

(** Reading and overwriting bytes of [page->get_data()]. *)
Definition get_data (page : Z) : M t bytes := pg ← page_at page; mret (data_ pg).
Definition put_data (page : Z) (d : bytes) : M t unit :=
  _ ← page_at page; upd_page page (set_data d).

End ops.
Arguments t D R : clear implicits.

(** ** Invariant *)
Section laws.
Context {D R : Type} `{DiskLaws D} `{ReplacerLaws R}.
Implicit Types (s : t D R).

(** A frame holds a page of its table entry, on disk if it is unpinned and clean,
    or nothing; it can be evicted only when it is not pinned, and is then free or
    known to the replacer. *)
Record frame_ok s (f : Z) (pg : Page) : Prop := {
  fo_length : length (data_ pg) = page_size;
  fo_pin : 0 <= pin_count_ pg;
  fo_page :
    (page_table_ s !! id_ pg = Some f /\ dk_valid (disk_manager_ s) (id_ pg) /\
     page_no (id_ pg) < dk_next (disk_manager_ s) (fd (id_ pg)) /\ f ∉ free_list_ s /\
     (pin_count_ pg = 0 -> is_dirty_ pg = false ->
      dk_page (disk_manager_ s) (id_ pg) = Some (data_ pg))) \/
    (page_no (id_ pg) = INVALID_PAGE_ID /\ pin_count_ pg = 0 /\ is_dirty_ pg = false);
  fo_evict : f ∈ r_evictable (replacer_ s) -> pin_count_ pg = 0;
  fo_avail : pin_count_ pg = 0 -> f ∈ free_list_ s \/ f ∈ r_evictable (replacer_ s);
}.

(** [h] is the frame an operation has taken for itself: no table entry leads to
    it and it is not free. *)
Record inv (h : option Z) s : Prop := {
  inv_frame f pg : frame s f = Some pg -> Some f <> h -> frame_ok s f pg;
  inv_table p f : page_table_ s !! p = Some f ->
    page_no p <> INVALID_PAGE_ID /\ Some f <> h /\ exists pg, frame s f = Some pg /\ id_ pg = p;
  inv_free_nodup : NoDup (free_list_ s);
  inv_free f : f ∈ free_list_ s -> Some f <> h /\ is_Some (frame s f);
  inv_evict f : f ∈ r_evictable (replacer_ s) -> is_Some (frame s f);
  inv_replacer : r_ok (replacer_ s);
  inv_disk : dk_ok (disk_manager_ s);
  inv_held f : h = Some f -> exists pg, frame s f = Some pg /\
    length (data_ pg) = page_size /\ pin_count_ pg = 0;
}.
Definition wf s : Prop := inv None s.

(** The contents of a page as the users of the pool see them. *)
Definition view s (p : PageId) : option bytes :=
  match page_table_ s !! p with
  | Some f => data_ <$> frame s f
  | None => dk_page (disk_manager_ s) p
  end.

(** The number of users that hold a page. *)
Definition pins s (p : PageId) : Z :=
  match page_table_ s !! p with
  | Some f => from_option pin_count_ 0 (frame s f)
  | None => 0
  end.

(** ** Frames *)

Lemma frame_upd_eq s f g pg :
  frame s f = Some pg -> frame (set_pages (upd_frame f g (pages_ s)) s) f = Some (g pg).
Proof.
  unfold frame, upd_frame. case_decide; [|done]. intros E. simpl.
  by rewrite list_lookup_alter_eq, E.
Qed.

Lemma frame_upd_ne s f f' g :
  f <> f' -> frame (set_pages (upd_frame f g (pages_ s)) s) f' = frame s f'.
Proof.
  intros Hne. unfold frame, upd_frame. repeat case_decide; try done. simpl.
  apply list_lookup_alter_ne. lia.
Qed.

(** The same, for a state whose frames were changed at [f]. *)
Lemma frame_changed s s' f g pg :
  pages_ s' = upd_frame f g (pages_ s) -> frame s f = Some pg ->
  frame s' f = Some (g pg) /\ forall f', f' <> f -> frame s' f' = frame s f'.
Proof.
  intros Hpg Hf. split.
  - pose proof (frame_upd_eq s f g pg Hf) as E. unfold frame in *. simpl in E. by rewrite Hpg.
  - intros f' Hne. pose proof (frame_upd_ne s f f' g (not_eq_sym Hne)) as E.
    unfold frame in *. simpl in E. by rewrite Hpg, E.
Qed.

Lemma frame_upd_is_Some s f f' g :
  is_Some (frame (set_pages (upd_frame f g (pages_ s)) s) f') <-> is_Some (frame s f').
Proof.
  destruct (decide (f = f')) as [<-|Hne]; [|by rewrite frame_upd_ne].
  unfold frame, upd_frame. case_decide; [|done]. simpl.
  by rewrite list_lookup_alter_eq, fmap_is_Some.
Qed.

Lemma upd_frame_compose f g h l : upd_frame f g (upd_frame f h l) = upd_frame f (fun q => g (h q)) l.
Proof.
  unfold upd_frame. case_decide; [|done]. apply list_eq. intros i.
  destruct (decide (Z.to_nat f = i)) as [<-|Hne].
  - rewrite !list_lookup_alter_eq. by destruct (l !! _).
  - by rewrite !list_lookup_alter_ne.
Qed.

(** What a disk operation leaves alone: the pages outside [P]. *)
Record disk_step (P : PageId -> Prop) (d d' : D) : Prop := {
  ds_ok : dk_ok d';
  ds_valid q : dk_valid d' q <-> dk_valid d q;
  ds_next f : dk_next d f <= dk_next d' f;
  ds_page q x : dk_valid d q -> ~ P q -> dk_page d q = Some x -> dk_page d' q = Some x;
}.

Lemma disk_step_refl P d : dk_ok d -> disk_step P d d.
Proof. by split. Qed.

Lemma disk_step_write s p bs d r :
  dk_ok (disk_manager_ s) -> dk_valid (disk_manager_ s) p -> length bs = page_size ->
  dk_write_page p bs (disk_manager_ s) = (d, r) ->
  disk_step (fun q => q = p) (disk_manager_ s) d /\ (r = Ok tt -> dk_page d p = Some bs) /\
  forall f, dk_next d f = dk_next (disk_manager_ s) f.
Proof.
  intros Hd Hv Hl Hw. destruct (dk_write_frame _ _ _ _ _ Hd Hv Hl Hw) as (?&?&Hn&?&?).
  split; [|done]. split; try done. intros f. rewrite Hn. lia.
Qed.

Lemma wf_resident s h p f :
  inv h s -> page_table_ s !! p = Some f ->
  exists pg, frame s f = Some pg /\ id_ pg = p /\ frame_ok s f pg /\
    dk_valid (disk_manager_ s) p /\ page_no p < dk_next (disk_manager_ s) (fd p) /\
    f ∉ free_list_ s /\
    (pin_count_ pg = 0 -> is_dirty_ pg = false -> dk_page (disk_manager_ s) p = Some (data_ pg)).
Proof.
  intros Hi Ht. destruct (inv_table _ _ Hi _ _ Ht) as (Hno & Hne & pg & Hf & <-).
  pose proof (inv_frame _ _ Hi _ _ Hf Hne) as Hok. exists pg.
  destruct (fo_page _ _ _ Hok) as [(_ & ? & ? & ? & ?)|[? _]]; [|done].
  split_and!; done.
Qed.

(** A frame that keeps its page is unaffected by changes elsewhere. *)
Lemma frame_ok_step s s' f pg P :
  frame_ok s f pg ->
  (page_table_ s !! id_ pg = Some f -> page_table_ s' !! id_ pg = Some f) ->
  disk_step P (disk_manager_ s) (disk_manager_ s') ->
  (page_table_ s !! id_ pg = Some f -> dk_valid (disk_manager_ s) (id_ pg) -> ~ P (id_ pg)) ->
  (f ∈ free_list_ s' <-> f ∈ free_list_ s) ->
  (f ∈ r_evictable (replacer_ s') <-> f ∈ r_evictable (replacer_ s)) ->
  frame_ok s' f pg.
Proof.
  intros [Hl Hp Hpg He Ha] Ht Hd HP Hf Hr. split; rewrite ?Hf, ?Hr; try done.
  destruct Hpg as [(?&?&?&?&?)|?]; [left|by right].
  pose proof (ds_next _ _ _ Hd (fd (id_ pg))).
  split_and!; [auto|by apply (ds_valid _ _ _ Hd)|lia|done|].
  intros. apply (ds_page _ _ _ Hd); auto.
Qed.

(** What an operation leaves alone outside the pages [P] it is about: the contents
    and the pins of the pages, the frames of the pinned ones, and which pages
    there are. *)
Record keeps (P : PageId -> Prop) s s' : Prop := {
  k_pins q : ~ P q -> pins s' q = pins s q;
  k_view q x : ~ P q -> dk_valid (disk_manager_ s) q -> view s q = Some x -> view s' q = Some x;
  k_frame q : ~ P q -> 0 < pins s q -> page_table_ s' !! q = page_table_ s !! q;
  k_valid q : dk_valid (disk_manager_ s') q <-> dk_valid (disk_manager_ s) q;
}.

Lemma keeps_trans P s1 s2 s3 : keeps P s1 s2 -> keeps P s2 s3 -> keeps P s1 s3.
Proof.
  intros [K1 K2 K3 K4] [G1 G2 G3 G4]. split.
  - intros q Hq. by rewrite G1, K1.
  - intros q x Hq Hv Hx. apply G2; [done|by apply K4|auto].
  - intros q Hq Hp. rewrite G3, K3; [done..|]. by rewrite K1.
  - intros q. by rewrite G4.
Qed.

Lemma keeps_mono (P Q : PageId -> Prop) s s' : (forall q, P q -> Q q) -> keeps P s s' -> keeps Q s s'.
Proof. intros HPQ []. split; auto. Qed.

(** ** A change of one resident frame *)
Lemma inv_change s s' f pg pg' g :
  wf s -> frame s f = Some pg -> page_table_ s !! id_ pg = Some f ->
  pages_ s' = upd_frame f g (pages_ s) -> g pg = pg' -> id_ pg' = id_ pg ->
  page_table_ s' = page_table_ s -> free_list_ s' = free_list_ s ->
  r_ok (replacer_ s') ->
  (forall f', f' <> f -> f' ∈ r_evictable (replacer_ s') <-> f' ∈ r_evictable (replacer_ s)) ->
  disk_step (fun q => q = id_ pg) (disk_manager_ s) (disk_manager_ s') ->
  length (data_ pg') = page_size -> 0 <= pin_count_ pg' ->
  (f ∈ r_evictable (replacer_ s') <-> pin_count_ pg' = 0) ->
  (pin_count_ pg' = 0 -> is_dirty_ pg' = false ->
     dk_page (disk_manager_ s') (id_ pg) = Some (data_ pg')) ->
  wf s' /\
  view s' (id_ pg) = Some (data_ pg') /\ pins s' (id_ pg) = pin_count_ pg' /\
  keeps (fun q => q = id_ pg) s s'.
Proof.
  intros Hw Hf Ht Hpg Hg Hid Htab Hfree Hrok Hev Hd Hl Hpin Hev' Hcl.
  destruct (frame_changed _ _ _ _ _ Hpg Hf) as [Hfr Hfn]. rewrite Hg in Hfr.
  destruct (wf_resident _ _ _ _ Hw Ht) as (pg0 & Hf0 & _ & Hok & Hv & Hn & Hnf & _).
  simplify_eq. split; [split|].
  - intros f' pg' Hf' _. destruct (decide (f' = f)) as [->|Hne].
    + rewrite Hfr in Hf'. simplify_eq. split; rewrite ?Hfree; try done.
      * left. rewrite Htab, Hid. pose proof (ds_next _ _ _ Hd (fd (id_ pg))).
        split_and!; try done; [by apply (ds_valid _ _ _ Hd)|lia].
      * apply Hev'.
      * intros. right. by apply Hev'.
    + rewrite Hfn in Hf' by done. pose proof (inv_frame _ _ Hw _ _ Hf' ltac:(done)) as Hok'.
      eapply frame_ok_step; [done|by rewrite Htab|done| |by rewrite Hfree|by apply Hev].
      simpl. intros Ht' _ E. rewrite E in Ht'. congruence.
  - intros p f'. rewrite Htab. intros Htp.
    destruct (inv_table _ _ Hw _ _ Htp) as (Hno & _ & pg1 & Hf1 & <-). split_and!; try done.
    destruct (decide (f' = f)) as [->|Hne].
    + simplify_eq. eauto.
    + rewrite Hfn by done. eauto.
  - rewrite Hfree. apply (inv_free_nodup _ _ Hw).
  - intros f'. rewrite Hfree. intros [_ Hs]%(inv_free _ _ Hw). split; [done|].
    destruct (decide (f' = f)) as [->|Hne]; [by rewrite Hfr|by rewrite Hfn].
  - intros f' Hf'. destruct (decide (f' = f)) as [->|Hne]; [by rewrite Hfr|].
    rewrite Hfn by done. apply (inv_evict _ _ Hw). by apply Hev.
  - done.
  - apply (ds_ok _ _ _ Hd).
  - done.
  - unfold view, pins at 1. rewrite Htab, Ht, Hfr. split_and!; [done|done|].
    assert (Hk : forall q f', page_table_ s !! q = Some f' -> q <> id_ pg -> frame s' f' = frame s f').
    { intros q f' E Hq. apply Hfn. intros ->.
      destruct (inv_table _ _ Hw _ _ E) as (_ & _ & ? & ? & ?). congruence. }
    split.
    + intros q Hq. unfold pins. rewrite Htab. destruct (page_table_ s !! q) eqn:E; [|done].
      by erewrite Hk.
    + intros q x Hq Hvq. unfold view. rewrite Htab. destruct (page_table_ s !! q) eqn:E.
      * by erewrite Hk.
      * by apply (ds_page _ _ _ Hd).
    + intros q Hq _. by rewrite Htab.
    + apply (ds_valid _ _ _ Hd).
Qed.

(** ** Operations on a resident page *)

(** Take a monadic run apart and compute the primitive steps. *)
Lemma page_at_run s f pg : frame s f = Some pg -> page_at f s = (s, Ok pg).
Proof. unfold page_at. by intros ->. Qed.

Lemma evict_pin s f pg : wf s -> frame s f = Some pg -> f ∉ free_list_ s ->
  f ∈ r_evictable (replacer_ s) <-> pin_count_ pg = 0.
Proof.
  intros Hw Hf Hnf. pose proof (inv_frame _ _ Hw _ _ Hf ltac:(done)) as Hok. split.
  - apply (fo_evict _ _ _ Hok).
  - intros Hp. by destruct (fo_avail _ _ _ Hok Hp).
Qed.

(** The page may be unpinned without being marked: if it is not, and this was the
    last pin, then it is on disk. *)
Definition unpin_clean s (p : PageId) (f : Z) : Prop := forall pg, frame s f = Some pg ->
  pin_count_ pg = 1 -> is_dirty_ pg = false -> dk_page (disk_manager_ s) p = Some (data_ pg).

Lemma fetch_hit s p f pg :
  wf s -> page_table_ s !! p = Some f -> frame s f = Some pg ->
  exists s', fetch_page p s = (s', Ok (Some f)) /\ wf s' /\
    view s' p = Some (data_ pg) /\ pins s' p = pin_count_ pg + 1 /\ keeps (fun q => q = p) s s' /\
    page_table_ s' = page_table_ s /\ disk_manager_ s' = disk_manager_ s /\ unpin_clean s' p f.
Proof.
  intros Hw Ht Hf.
  destruct (wf_resident _ _ _ _ Hw Ht) as (pg0 & Hf0 & <- & Hok & Hv & Hn & Hnf & Hcl).
  rewrite Hf in Hf0. injection Hf0 as <-.
  set (g := set_pin (pin_count_ pg + 1)).
  set (s' := set_pages (upd_frame f g (pages_ s)) (set_replacer (r_pin f (replacer_ s)) s)).
  exists s'. split.
  { unfold fetch_page. msimpl. rewrite Ht. unfold rep_pin, modify. simpl.
    rewrite (page_at_run _ _ pg) by done. done. }
  pose proof (fo_pin _ _ _ Hok) as Hp0.
  destruct (inv_change s s' f pg (g pg) g) as (Hw' & Hvw & Hpn & Hk); simpl; try done.
  - by apply r_pin_ok, (inv_replacer _ _ Hw).
  - intros f' Hne. rewrite r_pin_set by apply (inv_replacer _ _ Hw). set_solver.
  - apply disk_step_refl, (inv_disk _ _ Hw).
  - apply (fo_length _ _ _ Hok).
  - lia.
  - rewrite r_pin_set by apply (inv_replacer _ _ Hw). split; [set_solver|lia].
  - lia.
  - split_and!; try done. intros pg' Hf' Hp' Hd'. unfold s' in Hf'.
    rewrite (frame_upd_eq (set_replacer _ s) f g pg Hf) in Hf'. injection Hf' as <-.
    simpl in *. apply Hcl; [lia|done].
Qed.

Lemma unpin_ok s p b f pg :
  wf s -> page_table_ s !! p = Some f -> frame s f = Some pg -> 0 < pin_count_ pg ->
  (pin_count_ pg = 1 -> is_dirty_ pg = false -> b = false ->
   dk_page (disk_manager_ s) p = Some (data_ pg)) ->
  exists s', unpin_page p b s = (s', Ok true) /\ wf s' /\
    view s' p = Some (data_ pg) /\ pins s' p = pin_count_ pg - 1 /\ keeps (fun q => q = p) s s' /\
    page_table_ s' = page_table_ s /\ disk_manager_ s' = disk_manager_ s.
Proof.
  intros Hw Ht Hf Hpos Hdirty.
  destruct (wf_resident _ _ _ _ Hw Ht) as (pg0 & Hf0 & <- & Hok & Hv & Hn & Hnf & Hcl).
  rewrite Hf in Hf0. injection Hf0 as <-.
  set (g := fun q => set_dirty (is_dirty_ pg || b) (set_pin (pin_count_ pg - 1) q)).
  set (r' := if pin_count_ pg - 1 =? 0 then r_unpin f (replacer_ s) else replacer_ s).
  set (s' := set_pages (upd_frame f g (pages_ s)) (set_replacer r' s)).
  exists s'. split.
  { unfold unpin_page. msimpl. rewrite Ht, (page_at_run _ _ pg) by done.
    rewrite decide_False by lia. unfold upd_page, modify, rep_unpin, s', r'. simpl.
    destruct (pin_count_ pg - 1 =? 0); simpl; rewrite upd_frame_compose; by destruct s. }
  pose proof (inv_replacer _ _ Hw) as Hr.
  destruct (inv_change s s' f pg (g pg) g) as (Hw' & Hvw & Hpn & Hk); simpl; try done.
  - unfold r'. case_match; [by apply r_unpin_ok|done].
  - intros f' Hne. unfold r'. case_match; [|done]. rewrite r_unpin_set by done. set_solver.
  - apply disk_step_refl, (inv_disk _ _ Hw).
  - apply (fo_length _ _ _ Hok).
  - lia.
  - unfold r'. destruct (Z.eqb_spec (pin_count_ pg - 1) 0) as [E|E].
    + rewrite r_unpin_set by done. split; [done|set_solver].
    + rewrite (evict_pin _ _ _ Hw Hf Hnf). lia.
  - intros Hz Hd. apply orb_false_iff in Hd as [Hd ->]. apply Hdirty; [lia|done|done].
Qed.

(** A write of the frame's page to disk that returns normally. *)
Lemma flush_hit s p f pg d :
  wf s -> page_table_ s !! p = Some f -> frame s f = Some pg ->
  dk_write_page p (data_ pg) (disk_manager_ s) = (d, Ok tt) ->
  let s' := set_pages (upd_frame f (set_dirty false) (pages_ s)) (set_disk d s) in
  wf s' /\ view s' p = Some (data_ pg) /\ dk_page (disk_manager_ s') p = Some (data_ pg) /\
    pins s' p = pin_count_ pg /\ keeps (fun q => q = p) s s'.
Proof.
  intros Hw Ht Hf Hwr s'.
  destruct (wf_resident _ _ _ _ Hw Ht) as (pg0 & Hf0 & <- & Hok & Hv & Hn & Hnf & Hcl).
  rewrite Hf in Hf0. injection Hf0 as <-.
  destruct (disk_step_write s _ _ _ _ (inv_disk _ _ Hw) Hv (fo_length _ _ _ Hok) Hwr) as (Hd & Hpg & _).
  specialize (Hpg eq_refl). pose proof (inv_replacer _ _ Hw) as Hr.
  destruct (inv_change s s' f pg (set_dirty false pg) (set_dirty false)) as (Hw' & Hvw & Hpn & Hk);
    simpl; try done.
  - apply (fo_length _ _ _ Hok).
  - apply (fo_pin _ _ _ Hok).
  - apply (evict_pin _ _ _ Hw Hf Hnf).
Qed.

(** The holder of a pinned page changes its data or marks it through its pointer. *)
Lemma put_ok s p f pg g :
  wf s -> page_table_ s !! p = Some f -> frame s f = Some pg -> 0 < pin_count_ pg ->
  id_ (g pg) = id_ pg -> pin_count_ (g pg) = pin_count_ pg -> length (data_ (g pg)) = page_size ->
  let s' := set_pages (upd_frame f g (pages_ s)) s in
  wf s' /\ view s' p = Some (data_ (g pg)) /\ pins s' p = pin_count_ pg /\
  keeps (fun q => q = p) s s'.
Proof.
  intros Hw Ht Hf Hpos Hid Hpin Hl s'.
  destruct (wf_resident _ _ _ _ Hw Ht) as (pg0 & Hf0 & <- & Hok & Hv & Hn & Hnf & Hcl).
  rewrite Hf in Hf0. injection Hf0 as <-. rewrite <- Hpin in *.
  destruct (inv_change s s' f pg (g pg) g) as (Hw' & Hvw & Hpn & Hk); simpl; try done.
  - apply (inv_replacer _ _ Hw).
  - apply disk_step_refl, (inv_disk _ _ Hw).
  - lia.
  - rewrite Hpin. apply (evict_pin _ _ _ Hw Hf Hnf).
  - lia.
Qed.

(** ** Taking a frame *)

Record took (f : Z) s s' : Prop := {
  tk_pages : pages_ s' = pages_ s;
  tk_table : page_table_ s' = page_table_ s;
  tk_disk : disk_manager_ s' = disk_manager_ s;
  tk_free_nodup : NoDup (free_list_ s');
  tk_free g : g ∈ free_list_ s' <-> g ∈ free_list_ s /\ g <> f;
  tk_replacer : r_ok (replacer_ s');
  tk_evict g : g <> f -> g ∈ r_evictable (replacer_ s') <-> g ∈ r_evictable (replacer_ s);
}.

Lemma frame_pages s s' f : pages_ s' = pages_ s -> frame s' f = frame s f.
Proof. unfold frame. by intros ->. Qed.

Lemma find_victim_ok s s' r :
  wf s -> find_victim_page s = (s', r) ->
  match r with
  | Ok None => s' = s /\ forall f pg, frame s f = Some pg -> 0 < pin_count_ pg
  | Ok (Some f) => took f s s' /\ exists pg, frame s f = Some pg /\ pin_count_ pg = 0
  | Throw _ => False
  end.
Proof.
  intros Hw. unfold find_victim_page. pose proof (inv_replacer _ _ Hw) as Hr.
  destruct (free_list_ s) as [|f l] eqn:El.
  - destruct (decide (r_evictable (replacer_ s) = ∅)) as [He|He].
    + rewrite (r_victim_none _ Hr He). intros [= <- <-]. split; [by destruct s|].
      intros f pg Hf. pose proof (inv_frame _ _ Hw _ _ Hf ltac:(done)) as Hok.
      pose proof (fo_pin _ _ _ Hok). destruct (decide (pin_count_ pg = 0)) as [Hz|]; [|lia].
      destruct (fo_avail _ _ _ Hok Hz) as [Hin|Hin]; [rewrite El in Hin|rewrite He in Hin]; set_solver.
    + destruct (r_victim_some _ Hr He) as (r' & f & -> & Hr' & Hin & Hset). intros [= <- <-].
      destruct (inv_evict _ _ Hw _ Hin) as [pg Hf].
      pose proof (inv_frame _ _ Hw _ _ Hf ltac:(done)) as Hok. split.
      * split; simpl; try done; rewrite ?El; [constructor|set_solver|].
        intros g Hg. rewrite Hset. set_solver.
      * exists pg. split; [done|]. by apply (fo_evict _ _ _ Hok).
  - intros [= <- <-]. pose proof (inv_free_nodup _ _ Hw) as Hnd. rewrite El in Hnd.
    apply NoDup_cons in Hnd as [Hni Hnd]. split.
    + split; simpl; try done. intros g. rewrite El. set_solver.
    + destruct (inv_free _ _ Hw f) as [_ [pg Hf]]; [rewrite El; set_solver|].
      exists pg. split; [done|].
      destruct (fo_page _ _ _ (inv_frame _ _ Hw _ _ Hf ltac:(done))) as [(_&_&_&Hnf&_)|(_&?&_)];
        [|done]. destruct Hnf. rewrite El. set_solver.
Qed.

(** Emptying it: its page is on disk, written back if it was dirty, and leaves
    the table. *)
Lemma table_holder s f pg q f' :
  wf s -> frame s f = Some pg -> page_table_ s !! q = Some f' ->
  (q = id_ pg /\ f' = f) \/ (q <> id_ pg /\ f' <> f).
Proof.
  intros Hw Hf Hq. destruct (inv_table _ _ Hw _ _ Hq) as (Hno & _ & pg' & Hf' & Hid).
  destruct (decide (f' = f)) as [->|Hne]; [left; simplify_eq; done|right].
  split; [|done]. intros ->.
  destruct (fo_page _ _ _ (inv_frame _ _ Hw _ _ Hf ltac:(done))) as [(Hq'&_)|(Hq'&_)]; [|done].
  congruence.
Qed.

Section evict.
Context s s1 s2 f pg (g : Page -> Page) (Hw : wf s) (Htk : took f s s1) (Hf : frame s f = Some pg).
Context (Hpin : pin_count_ pg = 0) (Hpg : pages_ s2 = upd_frame f g (pages_ s1)).
Context (Hgp : pin_count_ (g pg) = 0) (Hgl : length (data_ (g pg)) = page_size).
Context (Htab : page_table_ s2 = delete (id_ pg) (page_table_ s1)).
Context (Hfree : free_list_ s2 = free_list_ s1) (Hrep : replacer_ s2 = replacer_ s1).
Context (Hd : disk_step (fun q => q = id_ pg) (disk_manager_ s1) (disk_manager_ s2)).
Context (Hsaved : dk_valid (disk_manager_ s) (id_ pg) -> page_table_ s !! id_ pg = Some f ->
  dk_page (disk_manager_ s2) (id_ pg) = Some (data_ pg)).

Lemma evict_frames :
  frame s2 f = Some (g pg) /\ forall f', f' <> f -> frame s2 f' = frame s f'.
Proof. apply frame_changed; [by rewrite Hpg, (tk_pages _ _ _ Htk)|done]. Qed.

Lemma evict_inv : inv (Some f) s2.
Proof.
  destruct evict_frames as [Hfr Hfn]. destruct Htk as [_ Ht1 Hd1 Hn1 Hf1 Hr1 He1]. rewrite Hd1 in Hd. rewrite Ht1 in Htab.
  split.
  - intros f' pg' Hf' Hne. assert (f' <> f) as Hne' by congruence.
    rewrite Hfn in Hf' by done. pose proof (inv_frame _ _ Hw _ _ Hf' ltac:(done)) as Hok'.
    eapply frame_ok_step; [exact Hok'| |exact Hd| | |].
    + intros Hq. rewrite Htab, lookup_delete_ne; [done|].
      intros E. by destruct (table_holder _ _ _ _ _ Hw Hf Hq) as [[]|[]].
    + simpl. intros Hq _ E. by destruct (table_holder _ _ _ _ _ Hw Hf Hq) as [[]|[]].
    + rewrite Hfree, Hf1. naive_solver.
    + rewrite Hrep. by apply He1.
  - intros q f'. rewrite Htab. intros [Hne Hq]%lookup_delete_Some.
    destruct (table_holder _ _ _ _ _ Hw Hf Hq) as [[? _]|[_ Hne']]; [congruence|].
    destruct (inv_table _ _ Hw _ _ Hq) as (Hno & _ & pg' & Hf' & Hid).
    rewrite Hfn by done. split_and!; [done|congruence|eauto].
  - by rewrite Hfree.
  - intros f'. rewrite Hfree, Hf1. intros [Hin Hne]. rewrite Hfn by done.
    split; [congruence|]. apply (inv_free _ _ Hw _ Hin).
  - intros f'. rewrite Hrep. intros Hin. destruct (decide (f' = f)) as [->|Hne]; [by rewrite Hfr|].
    rewrite Hfn by done. apply (inv_evict _ _ Hw). by apply He1.
  - by rewrite Hrep.
  - apply (ds_ok _ _ _ Hd).
  - intros f' [= <-]. eauto.
Qed.

Lemma evict_view q x :
  dk_valid (disk_manager_ s) q -> view s q = Some x -> view s2 q = Some x.
Proof.
  destruct evict_frames as [Hfr Hfn]. destruct Htk as [_ Ht1 Hd1 _ _ _ _]. rewrite Hd1 in Hd. rewrite Ht1 in Htab.
  intros Hv. unfold view. rewrite Htab. destruct (decide (q = id_ pg)) as [->|Hne].
  - rewrite lookup_delete_eq. destruct (page_table_ s !! id_ pg) as [f'|] eqn:E.
    + destruct (table_holder _ _ _ _ _ Hw Hf E) as [[_ ->]|[]]; [|done].
      rewrite Hf. intros [= <-]. auto.
    + pose proof (dk_valid_page _ _ Hv).
      destruct (fo_page _ _ _ (inv_frame _ _ Hw _ _ Hf ltac:(done))) as [(Hq&_)|(Hq&_)];
        [congruence|unfold INVALID_PAGE_ID in Hq; lia].
  - rewrite lookup_delete_ne by done. destruct (page_table_ s !! q) as [f'|] eqn:E.
    + destruct (table_holder _ _ _ _ _ Hw Hf E) as [[]|[]]; [done|]. by rewrite Hfn.
    + intros Hx. by apply (ds_page _ _ _ Hd).
Qed.

Lemma evict_ok : inv (Some f) s2 /\ keeps (fun _ => False) s s2 /\ frame s2 f = Some (g pg).
Proof.
  split; [apply evict_inv|]. split; [|apply evict_frames].
  destruct evict_frames as [Hfr Hfn]. assert (Htab' : page_table_ s2 = delete (id_ pg) (page_table_ s))
    by (by rewrite Htab, (tk_table _ _ _ Htk)).
  split.
  - intros q _. unfold pins. rewrite Htab'. destruct (decide (q = id_ pg)) as [->|Hne].
    + rewrite lookup_delete_eq. destruct (page_table_ s !! id_ pg) as [f'|] eqn:E; [|done].
      destruct (table_holder _ _ _ _ _ Hw Hf E) as [[_ ->]|[]]; [|done]. by rewrite Hf.
    + rewrite lookup_delete_ne by done. destruct (page_table_ s !! q) as [f'|] eqn:E; [|done].
      destruct (table_holder _ _ _ _ _ Hw Hf E) as [[]|[]]; [done|]. by rewrite Hfn.
  - intros q x _. apply evict_view.
  - intros q _ Hq. rewrite Htab'. apply lookup_delete_ne. intros <-. revert Hq. unfold pins.
    destruct (page_table_ s !! id_ pg) as [f'|] eqn:E; [|lia].
    destruct (table_holder _ _ _ _ _ Hw Hf E) as [[_ ->]|[]]; [|done]. rewrite Hf. simpl. lia.
  - intros q. rewrite (ds_valid _ _ _ Hd). by rewrite (tk_disk _ _ _ Htk).
Qed.
End evict.

(** ** Putting a page into the frame that was taken *)
Lemma install_ok s s' f p g pg :
  inv (Some f) s -> frame s f = Some pg -> page_table_ s !! p = None ->
  pages_ s' = upd_frame f g (pages_ s) -> id_ (g pg) = p -> pin_count_ (g pg) = 1 ->
  length (data_ (g pg)) = page_size ->
  page_table_ s' = <[p := f]> (page_table_ s) -> free_list_ s' = free_list_ s ->
  replacer_ s' = r_pin f (replacer_ s) ->
  disk_step (fun q => q = p) (disk_manager_ s) (disk_manager_ s') ->
  dk_valid (disk_manager_ s) p -> page_no p < dk_next (disk_manager_ s') (fd p) ->
  wf s' /\ view s' p = Some (data_ (g pg)) /\ pins s' p = 1 /\ keeps (fun q => q = p) s s'.
Proof.
  intros Hw Hf Hnone Hpg Hid Hpin Hl Htab Hfree Hrep Hd Hv Hn.
  destruct (frame_changed _ _ _ _ _ Hpg Hf) as [Hfr Hfn].
  pose proof (inv_replacer _ _ Hw) as Hr. pose proof (r_pin_set (replacer_ s) f Hr) as Hset.
  rewrite <- Hrep in Hset.
  assert (Hno : page_no p <> INVALID_PAGE_ID).
  { pose proof (dk_valid_page _ _ Hv). unfold INVALID_PAGE_ID. lia. }
  assert (Hnf : f ∉ free_list_ s) by (intros [? _]%(inv_free _ _ Hw); done).
  split; [split|].
  - intros f' pg' Hf' _. destruct (decide (f' = f)) as [->|Hne].
    + rewrite Hfr in Hf'. simplify_eq. split; rewrite ?Hset, ?Hpin; try done.
      2: { intros [_ Hne]%elem_of_difference. by destruct Hne; apply elem_of_singleton. }
      left. rewrite Htab, lookup_insert_eq, Hfree. split_and!; try done.
      by apply (ds_valid _ _ _ Hd).
    + rewrite Hfn in Hf' by done.
      pose proof (inv_frame _ _ Hw _ _ Hf' ltac:(congruence)) as Hok'.
      eapply frame_ok_step; [exact Hok'| |exact Hd| |by rewrite Hfree|].
      * intros Hq. rewrite Htab, lookup_insert_ne; congruence.
      * simpl. intros Hq _ E. congruence.
      * rewrite Hset, elem_of_difference, elem_of_singleton. tauto.
  - intros q f'. rewrite Htab. intros [[<- <-]|[Hne Hq]]%lookup_insert_Some; [by eauto|].
    destruct (inv_table _ _ Hw _ _ Hq) as (? & Hne' & pg' & Hf' & ?).
    rewrite Hfn by congruence. eauto.
  - rewrite Hfree. apply (inv_free_nodup _ _ Hw).
  - intros f'. rewrite Hfree. intros [Hne Hs]%(inv_free _ _ Hw). rewrite Hfn by congruence. done.
  - intros f'. rewrite Hset. intros [Hin Hne]%elem_of_difference.
    rewrite Hfn by (intros ->; by destruct Hne; apply elem_of_singleton). by apply (inv_evict _ _ Hw).
  - rewrite Hrep. by apply r_pin_ok.
  - apply (ds_ok _ _ _ Hd).
  - done.
  - unfold view at 1, pins at 1. rewrite Htab, lookup_insert_eq, Hfr. split_and!; [done|done|].
    split.
    + intros q Hq. unfold pins. rewrite Htab, lookup_insert_ne by done.
      destruct (page_table_ s !! q) eqn:E; [|done].
      rewrite Hfn; [done|]. intros ->. by destruct (inv_table _ _ Hw _ _ E) as (_ & ? & _).
    + intros q x Hq Hvq. unfold view. rewrite Htab, lookup_insert_ne by done.
      destruct (page_table_ s !! q) eqn:E; [|by apply (ds_page _ _ _ Hd)].
      rewrite Hfn; [done|]. intros ->. by destruct (inv_table _ _ Hw _ _ E) as (_ & ? & _).
    + intros q Hq _. by rewrite Htab, lookup_insert_ne.
    + apply (ds_valid _ _ _ Hd).
Qed.

(** ** [fetch_page] *)

(** The write-back of a dirty frame. *)
Lemma write_back_ok s s1 s2 f pg :
  wf s -> took f s s1 -> frame s f = Some pg -> pin_count_ pg = 0 ->
  whenM (is_dirty_ pg) (disk_op (dk_write_page (id_ pg) (data_ pg))) s1 = (s2, Ok tt) ->
  s2 = set_disk (disk_manager_ s2) s1 /\
  disk_step (fun q => q = id_ pg) (disk_manager_ s1) (disk_manager_ s2) /\
  (dk_valid (disk_manager_ s) (id_ pg) -> page_table_ s !! id_ pg = Some f ->
   dk_page (disk_manager_ s2) (id_ pg) = Some (data_ pg)) /\
  (forall g, dk_next (disk_manager_ s2) g = dk_next (disk_manager_ s) g).
Proof.
  intros Hw Htk Hf Hp. pose proof (inv_frame _ _ Hw _ _ Hf ltac:(done)) as Hok.
  pose proof (fo_page _ _ _ Hok) as Hpage. pose proof (tk_disk _ _ _ Htk) as Hds.
  destruct (is_dirty_ pg) eqn:Ed; simpl.
  - destruct Hpage as [(Ht & Hv & _)|(_ & _ & ?)]; [|done].
    unfold disk_op, zoom. destruct (dk_write_page _ _ _) as [d r] eqn:Ew. intros [= <- ->]. simpl.
    destruct (disk_step_write s1 _ _ _ _ ltac:(rewrite Hds; apply (inv_disk _ _ Hw))
      ltac:(by rewrite Hds) (fo_length _ _ _ Hok) Ew) as (Hd & Hpg & Hn).
    split_and!; auto. intros g. by rewrite Hn, Hds.
  - unfold mret, M_ret. intros [= <-]. split; [by destruct s1|].
    split; [apply disk_step_refl; rewrite Hds; apply (inv_disk _ _ Hw)|].
    split; [|intros; by rewrite Hds]. intros Hv Ht. destruct Hpage as [(_&_&_&_&Hcl)|(Hno&_)]; [rewrite Hds; auto|].
    pose proof (dk_valid_page _ _ Hv). unfold INVALID_PAGE_ID in Hno. lia.
Qed.

Lemma upd_frame_id f l : upd_frame f (fun q => q) l = l.
Proof.
  unfold upd_frame. case_decide; [|done]. apply list_eq. intros i.
  destruct (decide (Z.to_nat f = i)) as [<-|Hne].
  - rewrite list_lookup_alter_eq. by destruct (l !! _).
  - by rewrite list_lookup_alter_ne.
Qed.

Lemma upd_frame_ext f g h pg s :
  frame s f = Some pg -> g pg = h pg -> upd_frame f g (pages_ s) = upd_frame f h (pages_ s).
Proof.
  unfold frame, upd_frame. case_decide; [|done]. intros Hf E. apply list_eq. intros i.
  destruct (decide (Z.to_nat f = i)) as [<-|Hne].
  - rewrite !list_lookup_alter_eq, Hf. simpl. by rewrite E.
  - by rewrite !list_lookup_alter_ne.
Qed.

(** The first half of [update_page] empties the frame. *)
Lemma update_page_evict s s1 s2 f pg :
  wf s -> took f s s1 -> frame s f = Some pg -> pin_count_ pg = 0 ->
  (whenM (is_dirty_ pg)
     (disk_op (dk_write_page (id_ pg) (data_ pg));; upd_page f (set_dirty false));;
   table_erase (id_ pg);; upd_page f reset_memory) s1 = (s2, Ok tt) ->
  inv (Some f) s2 /\ keeps (fun _ => False) s s2 /\
  (exists pg2, frame s2 f = Some pg2 /\ pin_count_ pg2 = 0 /\ is_dirty_ pg2 = false) /\
  page_table_ s2 = delete (id_ pg) (page_table_ s) /\
  (forall g, dk_next (disk_manager_ s2) g = dk_next (disk_manager_ s) g).
Proof.
  intros Hw Htk Hf Hp Hr. minv. rename Hm into Hwb, Hm0 into Her.
  assert (exists d b g,
    whenM (is_dirty_ pg) (disk_op (dk_write_page (id_ pg) (data_ pg))) s1 = (set_disk d s1, Ok tt) /\
    s0 = set_pages (upd_frame f g (pages_ s1)) (set_disk d s1) /\
    g pg = set_dirty b pg /\ b = false) as (d & b & g & Hwr & -> & Hg & ->).
  { destruct (is_dirty_ pg) eqn:Ed; simpl in *.
    - minv. destruct a1. unfold upd_page, modify in Hwb. simplify_eq.
      unfold disk_op, zoom in *. destruct (dk_write_page _ _ _) as [d r]. simplify_eq.
      by exists d, false, (set_dirty false).
    - unfold mret, M_ret in Hwb. simplify_eq.
      exists (disk_manager_ s0), false, (fun q => q). rewrite upd_frame_id.
      split_and!; [by destruct s0|by destruct s0| |done]. destruct pg. simpl in *. by subst. }
  destruct (write_back_ok _ _ _ _ _ Hw Htk Hf Hp Hwr) as (_ & Hd & Hsaved & Hnx).
  unfold table_erase, upd_page, modify in *. simplify_eq. simpl in *.
  pose proof (fo_length _ _ _ (inv_frame _ _ Hw _ _ Hf ltac:(done))) as Hl.
  match goal with |- inv _ ?s2 /\ _ =>
    destruct (evict_ok s s1 s2 f pg (fun q => reset_memory (g q)) Hw Htk Hf)
      as (Hi & Hk & Hfr); simpl; try done end.
  - by rewrite upd_frame_compose.
  - by rewrite Hg.
  - split_and!; try done.
    + eexists. split; [exact Hfr|]. by rewrite Hg.
    + by rewrite (tk_table _ _ _ Htk).
Qed.

(** The second half reads the new page into it; then it is pinned. *)
Lemma update_page_install s s' f p pg :
  inv (Some f) s -> frame s f = Some pg -> pin_count_ pg = 0 ->
  page_table_ s !! p = None -> dk_valid (disk_manager_ s) p ->
  page_no p < dk_next (disk_manager_ s) (fd p) ->
  (read_into p f;;
   whenM (bool_decide (f <> INVALID_FRAME_ID)) (table_set p f);;
   upd_page f (set_id p);; rep_pin f;;
   pg ← page_at f; upd_page f (set_pin (pin_count_ pg + 1))) s = (s', Ok tt) ->
  wf s' /\ page_table_ s' !! p = Some f /\ pins s' p = 1 /\
  (exists x, view s' p = Some x /\ view s p = Some x) /\ keeps (fun q => q = p) s s' /\
  (forall g, dk_next (disk_manager_ s') g = dk_next (disk_manager_ s) g) /\ view s' p = dk_page (disk_manager_ s') p.
Proof.
  intros Hw Hf Hp Hnone Hv Hn Hr. unfold read_into in Hr. rewrite bool_decide_true in Hr.
  2: { unfold frame in Hf. case_decide; [|done]. unfold INVALID_FRAME_ID. lia. }
  destruct (inv_held _ _ Hw f eq_refl) as (pg0 & Hf0 & Hl & _). rewrite Hf in Hf0. injection Hf0 as <-.
  unfold mbind at 1, M_bind at 1 in Hr. rewrite Hf in Hr.
  destruct (dk_read_page p (data_ pg) (disk_manager_ s)) as [d [buf [[]|e]]] eqn:Er; [|done].
  destruct (dk_read_frame _ _ _ _ _ _ (inv_disk _ _ Hw) Hv Hl Er) as (Hdok & Hdv & Hdn & Hdp & Hbl & Hx).
  specialize (Hx eq_refl). minv. rename Hm into H1', Hm0 into H2', Hm1 into H3', Hm2 into H4'.
  unfold table_set, upd_page, rep_pin, modify in *. simpl in *. simplify_eq. simpl in *.
  unfold page_at in H4'. destruct (frame _ f) as [pg1|] eqn:Ef in H4'; [|done]. simplify_eq. simpl in *.
  set (g := fun q => set_pin (pin_count_ a2 + 1) (set_id p (set_data buf q))).
  assert (a2 = set_id p (set_data buf pg)) as Ha.
  { pose proof (frame_upd_eq s f (fun q => set_id p (set_data buf q)) pg Hf) as E.
    unfold frame in Ef, E. simpl in *. rewrite upd_frame_compose, E in Ef. by simplify_eq. }
  match goal with |- wf ?s' /\ _ =>
    destruct (install_ok s s' f p g pg) as (Hw' & Hvw & Hpn & Hk); try done end; simpl.
  - by rewrite !upd_frame_compose.
  - rewrite Ha. simpl. lia.
  - split; try done; [intros h; by rewrite Hdn|]. intros q x _ _. by rewrite Hdp.
  - by rewrite Hdn.
  - split_and!; try done; [apply lookup_insert_eq| |].
    + exists buf. split; [exact Hvw|]. unfold view. by rewrite Hnone.
    + rewrite Hvw. simpl. by rewrite Hdp, Hx.
Qed.

(** What [fetch_page] promises. *)
Definition fetched s s' p (r : option Z) : Prop :=
  match r with
  | None => s' = s /\ page_table_ s !! p = None /\
            forall f pg, frame s f = Some pg -> 0 < pin_count_ pg
  | Some f => wf s' /\ page_table_ s' !! p = Some f /\ pins s' p = pins s p + 1 /\
      (0 < pins s p -> page_table_ s !! p = Some f) /\ is_Some (view s' p) /\ (forall x, view s p = Some x -> view s' p = Some x) /\
      keeps (fun q => q = p) s s' /\ unpin_clean s' p f /\
      (forall g, dk_next (disk_manager_ s') g = dk_next (disk_manager_ s) g)
  end.

Lemma fetch_page_ok s s' p r :
  wf s -> dk_valid (disk_manager_ s) p -> page_no p < dk_next (disk_manager_ s) (fd p) ->
  fetch_page p s = (s', Ok r) -> fetched s s' p r.
Proof.
  intros Hw Hv Hn Hr. destruct (page_table_ s !! p) as [f|] eqn:Ht.
  - destruct (wf_resident _ _ _ _ Hw Ht) as (pg & Hf & _).
    destruct (fetch_hit _ _ _ _ Hw Ht Hf) as (s1 & Hr' & ? & Hvw & Hp & ? & Ht' & Hd' & Hu).
    rewrite Hr in Hr'. simplify_eq. simpl. split_and!; try done; [by rewrite Ht'| | |by rewrite Hd'].
    + rewrite Hp. unfold pins. by rewrite Ht, Hf.
    + rewrite Hvw. unfold view in *. rewrite Ht, Hf in *. done.
  - unfold fetch_page in Hr. minv. unfold gets in Hm. simplify_eq. rewrite Ht in Hr. minv.
    pose proof (find_victim_ok _ _ _ Hw Hm) as Hvic. destruct a as [f|]; simpl in Hr.
    2: { unfold mret, M_ret in Hr. simplify_eq. simpl. by destruct Hvic as [-> ?]. }
    destruct Hvic as (Htk & pg & Hf & Hp). unfold update_page in Hr. minv.
    match goal with H : page_at f _ = (_, Ok ?a), H' : whenM (is_dirty_ ?a) _ _ = _ |- _ =>
      rewrite (page_at_run _ _ pg) in H
        by (by rewrite (frame_pages _ _ _ (tk_pages _ _ _ Htk))); injection H as <- <- end.
    repeat match goal with u : unit |- _ => destruct u end.
    unfold mret, M_ret in Hr. simplify_eq.
    edestruct update_page_evict as (Hi & Hk & (pg2 & Hf2 & Hp2 & _) & Ht2 & Hn2);
      [exact Hw|exact Htk|exact Hf|exact Hp|
       repeat (erewrite bind_ok by eassumption); eassumption|].
    edestruct (update_page_install _ s' f p pg2 Hi Hf2 Hp2) as (Hw' & Ht' & Hp' & (x & Hx' & Hx) & Hk' & Hn' & Hvd).
    { rewrite Ht2. apply lookup_delete_None. by right. }
    { by apply (k_valid _ _ _ Hk). }
    { by rewrite Hn2. }
    { repeat (erewrite bind_ok by eassumption); eassumption. }
    simpl. split_and!; try done.
    + rewrite Hp'. unfold pins. by rewrite Ht.
    + unfold pins. rewrite Ht. lia.
    + intros y Hy. apply (k_view _ _ _ Hk) in Hy; [|tauto|done]. congruence.
    + eapply keeps_trans; [|exact Hk']. by eapply keeps_mono; [|exact Hk].
    + intros pg' Hf' _ _. rewrite <- Hvd. unfold view. by rewrite Ht', Hf'.
    + intros g. by rewrite Hn', Hn2.
Qed.

(** ** [new_page] *)

(** The contents of a new page. *)
Definition fresh_page : bytes := store_32 zero_page OFFSET_LSN INVALID_LSN.

Definition created s s' file (r : option (Z * PageId)) : Prop :=
  match r with
  | None => s' = s /\ forall f pg, frame s f = Some pg -> 0 < pin_count_ pg
  | Some (f, p) => p = mkPageId file (dk_next (disk_manager_ s) file) /\
      wf s' /\ page_table_ s' !! p = Some f /\ pins s p = 0 /\ pins s' p = 1 /\
      view s' p = Some fresh_page /\ keeps (fun q => q = p) s s' /\
      dk_next (disk_manager_ s') file = dk_next (disk_manager_ s) file + 1
  end.

(** The first half of [new_page] empties the frame. *)
Lemma new_page_evict s s1 s2 f pg :
  wf s -> took f s s1 -> frame s f = Some pg -> pin_count_ pg = 0 ->
  (whenM (is_dirty_ pg) (disk_op (dk_write_page (id_ pg) (data_ pg)));; table_erase (id_ pg)) s1
    = (s2, Ok tt) ->
  inv (Some f) s2 /\ keeps (fun _ => False) s s2 /\ frame s2 f = Some pg /\
  page_table_ s2 = delete (id_ pg) (page_table_ s) /\
  (forall g, dk_next (disk_manager_ s2) g = dk_next (disk_manager_ s) g).
Proof.
  intros Hw Htk Hf Hp Hr. minv. destruct a.
  destruct (write_back_ok _ _ _ _ _ Hw Htk Hf Hp Hm) as (E & Hd & Hsaved & Hn).
  unfold table_erase, modify in Hr. injection Hr as <-.
  pose proof (fo_length _ _ _ (inv_frame _ _ Hw _ _ Hf ltac:(done))) as Hl.
  destruct (evict_ok s s1 (set_table (delete (id_ pg) (page_table_ s0)) s0) f pg (fun q => q) Hw Htk Hf)
    as (Hi & Hk & Hfr); simpl; try done.
  - rewrite upd_frame_id, E. done.
  - by rewrite E.
  - by rewrite E.
  - by rewrite E.
  - split_and!; try done. rewrite E. simpl. by rewrite (tk_table _ _ _ Htk).
Qed.

(** The second half numbers the page, writes it to disk and pins it. *)
Lemma new_page_install s s' f pg file n r :
  inv (Some f) s -> frame s f = Some pg -> pin_count_ pg = 0 ->
  n = dk_next (disk_manager_ s) file -> n < 2 ^ 31 - 1 ->
  dk_valid (disk_manager_ s) (mkPageId file n) -> page_table_ s !! mkPageId file n = None ->
  (n ← disk_op (dk_allocate_page file);
   rep_pin f;;
   upd_page f (fun p =>
     set_page_lsn INVALID_LSN
       (reset_memory (set_dirty false (set_pin (pin_count_ p + 1) (set_id (mkPageId file n) p)))));;
   pg' ← page_at f;
   disk_op (dk_write_page (id_ pg') (data_ pg'));;
   table_set (mkPageId file n) f;;
   mret (Some (f, mkPageId file n))) s = (s', Ok r) ->
  r = Some (f, mkPageId file n) /\
  wf s' /\ page_table_ s' !! mkPageId file n = Some f /\ pins s' (mkPageId file n) = 1 /\
  view s' (mkPageId file n) = Some fresh_page /\ keeps (fun q => q = mkPageId file n) s s' /\
  dk_next (disk_manager_ s') file = n + 1.
Proof.
  intros Hw Hf Hp Hn Hmax Hv Hnone Hr. pose proof (dk_valid_page _ _ Hv) as Hn0. simpl in Hn0.
  unfold disk_op, zoom in Hr. unfold mbind at 1, M_bind at 1 in Hr.
  destruct (dk_allocate_page file (disk_manager_ s)) as [d [m|e]] eqn:Ea; [|done].
  destruct (dk_alloc_frame _ _ _ _ (inv_disk _ _ Hw) Ea) as (Hdok & Hdv & Hdp & Hm & Hnx & Hno).
  rewrite <- Hn in Hm. subst m.
  assert (i32 (n + 1) = n + 1) as Hi by (apply i32_small; unfold in_i32; lia). rewrite Hi in Hnx.
  set (g := fun p => set_page_lsn INVALID_LSN
       (reset_memory (set_dirty false (set_pin (pin_count_ p + 1) (set_id (mkPageId file n) p))))) in *.
  unfold rep_pin, upd_page, modify, table_set in Hr. msimpl.
  pose proof (frame_upd_eq s f g pg Hf) as E. unfold page_at, frame in Hr, E. simpl in Hr, E.
  rewrite E in Hr. clear E.
  simpl in Hr. destruct (dk_write_page (mkPageId file n) fresh_page d) as [d' [[]|e]] eqn:Ew;
    unfold fresh_page in Ew; rewrite Ew in Hr;
    simpl in Hr; [|discriminate].
  injection Hr as <- <-.
  assert (length (data_ (g pg)) = page_size) as Hl.
  { unfold g. simpl. unfold zero_page. by rewrite length_store_32, length_replicate. }
  destruct (dk_write_frame _ _ _ _ _ Hdok ltac:(by apply Hdv) Hl Ew) as (Hdok' & Hdv' & Hnx' & Hdp' & _).
  split; [done|]. match goal with |- wf ?s' /\ _ =>
    destruct (install_ok s s' f (mkPageId file n) g pg)
      as (Hw' & Hvw & Hpn & Hk); try assumption; try reflexivity end; simpl.
  - rewrite Hp. done.
  - split; simpl; [done|intros q; by rewrite Hdv'|..].
    + intros h. rewrite Hnx'. destruct (decide (h = file)) as [->|Hne]; [lia|].
      by rewrite Hno.
    + intros q x Hq Hne Hx. apply Hdp'; [by apply Hdv|done|by rewrite Hdp].
  - rewrite Hnx', Hnx. lia.
  - split_and!; try done; [apply lookup_insert_eq|by rewrite Hnx', Hnx].
Qed.

Lemma new_page_ok s s' file r :
  wf s -> dk_next (disk_manager_ s) file < 2 ^ 31 - 1 ->
  dk_valid (disk_manager_ s) (mkPageId file (dk_next (disk_manager_ s) file)) ->
  new_page file s = (s', Ok r) -> created s s' file r.
Proof.
  intros Hw Hmax Hv Hr. set (p := mkPageId file (dk_next (disk_manager_ s) file)) in *.
  assert (Hnone : page_table_ s !! p = None).
  { apply eq_None_not_Some. intros [f Ht].
    destruct (wf_resident _ _ _ _ Hw Ht) as (_ & _ & _ & _ & _ & Hlt & _). simpl in Hlt. lia. }
  unfold new_page in Hr. apply bind_inv in Hr as (s1 & v & Hm & Hr).
  pose proof (find_victim_ok _ _ _ Hw Hm) as Hvic. destruct v as [f|]; simpl in Hr.
  2: { unfold mret, M_ret in Hr. simplify_eq. done. }
  destruct Hvic as (Htk & pg & Hf & Hp).
  apply bind_inv in Hr as (s1' & pg' & Hat & Hr).
  rewrite (page_at_run _ _ pg) in Hat by (by rewrite (frame_pages _ _ _ (tk_pages _ _ _ Htk))).
  injection Hat as <- <-.
  apply bind_inv in Hr as (s2 & [] & Hwb & Hr). apply bind_inv in Hr as (s3 & [] & Her & Hr).
  destruct (new_page_evict s s1 s3 f pg Hw Htk Hf Hp) as (Hi & Hk & Hf3 & Ht3 & Hn3).
  { by rewrite (bind_ok _ _ _ _ _ Hwb). }
  edestruct (new_page_install s3 s' f pg file _ r Hi Hf3 Hp eq_refl) as
    (-> & Hw' & Ht' & Hp' & Hvw & Hk' & Hnx); rewrite ?Hn3; try done.
  { by apply (k_valid _ _ _ Hk). }
  { rewrite Ht3. apply lookup_delete_None. by right. }
  simpl. rewrite Hn3 in *. split_and!; try done.
  - unfold pins. subst p. by rewrite Hnone.
  - eapply keeps_trans; [|exact Hk']. by eapply keeps_mono; [|exact Hk].
Qed.

(** ** Giving a frame back *)

Lemma took_self s p f : wf s -> page_table_ s !! p = Some f -> took f s s.
Proof.
  intros Hw Ht. destruct (wf_resident _ _ _ _ Hw Ht) as (_ & _ & _ & _ & _ & _ & Hnf & _).
  split; try done; [apply (inv_free_nodup _ _ Hw)| |apply (inv_replacer _ _ Hw)].
  intros g. split; [|tauto]. intros Hg. split; [done|]. by intros ->.
Qed.

Lemma release_ok s s' f pg :
  inv (Some f) s -> frame s f = Some pg ->
  page_no (id_ pg) = INVALID_PAGE_ID -> is_dirty_ pg = false ->
  pages_ s' = pages_ s -> page_table_ s' = page_table_ s -> disk_manager_ s' = disk_manager_ s ->
  NoDup (free_list_ s') -> (forall g, g <> f -> g ∈ free_list_ s' <-> g ∈ free_list_ s) ->
  r_ok (replacer_ s') ->
  (forall g, g <> f -> g ∈ r_evictable (replacer_ s') <-> g ∈ r_evictable (replacer_ s)) ->
  f ∈ free_list_ s' \/ f ∈ r_evictable (replacer_ s') ->
  wf s' /\ keeps (fun _ => False) s s'.
Proof.
  intros Hi Hf Hno Hdirty Hp Ht Hd Hnd Hfree Hr Hev Hav.
  destruct (inv_held _ _ Hi f eq_refl) as (pg0 & Hf0 & Hl & Hpin). rewrite Hf in Hf0. injection Hf0 as <-.
  assert (Hfr : forall g, frame s' g = frame s g) by (intros; by apply frame_pages).
  split; [split|].
  - intros g pg' Hg _. rewrite Hfr in Hg. destruct (decide (g = f)) as [->|Hne].
    + rewrite Hf in Hg. injection Hg as <-. split; try done; [lia|by right].
    + eapply frame_ok_step; [apply (inv_frame _ _ Hi _ _ Hg); congruence|by rewrite Ht| | |auto|auto].
      * rewrite Hd. apply (disk_step_refl (fun _ => False)), (inv_disk _ _ Hi).
      * simpl. tauto.
  - intros p g. rewrite Ht. intros Hpg. destruct (inv_table _ _ Hi _ _ Hpg) as (? & _ & ?).
    by rewrite Hfr.
  - done.
  - intros g Hg. split; [done|]. rewrite Hfr. destruct (decide (g = f)) as [->|Hne]; [by rewrite Hf|].
    apply (inv_free _ _ Hi). by apply Hfree.
  - intros g Hg. rewrite Hfr. destruct (decide (g = f)) as [->|Hne]; [by rewrite Hf|].
    apply (inv_evict _ _ Hi). by apply Hev.
  - done.
  - rewrite Hd. apply (inv_disk _ _ Hi).
  - done.
  - split; unfold pins, view; rewrite ?Ht, ?Hd; try done.
    + intros q _. by destruct (page_table_ s !! q); rewrite ?Hfr.
    + intros q x _ _. by destruct (page_table_ s !! q); rewrite ?Hfr.
Qed.

(** Dropping a resident, unpinned page once it is on disk. *)
Lemma drop_ok s s' f p pg d :
  wf s -> page_table_ s !! p = Some f -> frame s f = Some pg -> pin_count_ pg = 0 ->
  dk_write_page p (data_ pg) (disk_manager_ s) = (d, Ok tt) ->
  pages_ s' = upd_frame f (fun _ => mkPage no_page zero_page false 0) (pages_ s) ->
  page_table_ s' = delete p (page_table_ s) -> disk_manager_ s' = d ->
  NoDup (free_list_ s') -> (forall g, g <> f -> g ∈ free_list_ s' <-> g ∈ free_list_ s) ->
  r_ok (replacer_ s') ->
  (forall g, g <> f -> g ∈ r_evictable (replacer_ s') <-> g ∈ r_evictable (replacer_ s)) ->
  f ∈ free_list_ s' \/ f ∈ r_evictable (replacer_ s') ->
  wf s' /\ keeps (fun _ => False) s s' /\ frame s' f = Some (mkPage no_page zero_page false 0).
Proof.
  intros Hw Ht Hf Hpin Hwr Hp Htab Hd Hnd Hfree Hr Hev Hav.
  destruct (wf_resident _ _ _ _ Hw Ht) as (pg0 & Hf0 & Hid & Hok & Hv & _).
  rewrite Hf in Hf0. injection Hf0 as <-.
  destruct (disk_step_write s _ _ _ _ (inv_disk _ _ Hw) Hv (fo_length _ _ _ Hok) Hwr)
    as (Hd' & Hpg & _).
  set (s2 := mk (pages_ s') (page_table_ s') (free_list_ s) d (replacer_ s)).
  destruct (evict_ok s s s2 f pg (fun _ => mkPage no_page zero_page false 0) Hw
    (took_self _ _ _ Hw Ht) Hf) as (Hi & Hk & Hf2); try done.
  - by rewrite Hid.
  - by rewrite Hid.
  - rewrite Hid. simpl. auto.
  - destruct (release_ok s2 s' f _ Hi Hf2) as [Hw' Hk']; try done.
    split_and!; [done|by eapply keeps_trans|by rewrite <- Hf2; apply frame_pages].
Qed.

(** ** [delete_page] *)
Lemma delete_page_ok s s' p b :
  wf s -> delete_page p s = (s', Ok b) ->
  wf s' /\ keeps (fun _ => False) s s' /\
  (b = true <-> pins s p = 0) /\ (b = true -> page_table_ s' !! p = None).
Proof.
  intros Hw Hr. unfold delete_page in Hr. apply bind_inv in Hr as (s1 & tab & Hg & Hr).
  unfold gets in Hg. injection Hg as <- <-. unfold pins.
  destruct (page_table_ s !! p) as [f|] eqn:Ht.
  2: { unfold mret, M_ret in Hr. simplify_eq. split_and!; try done. }
  destruct (wf_resident _ _ _ _ Hw Ht) as (pg & Hf & Hid & Hok & Hv & _ & Hnf & _).
  rewrite Hf. simpl. apply bind_inv in Hr as (s1 & pg' & Hat & Hr).
  rewrite (page_at_run _ _ _ Hf) in Hat. injection Hat as <- <-.
  pose proof (fo_pin _ _ _ Hok) as Hp0.
  destruct (Z.ltb_spec 0 (pin_count_ pg)) as [Hp|Hp].
  { unfold mret, M_ret in Hr. simplify_eq. split_and!; try done. split; [done|lia]. }
  unfold disk_op, zoom in Hr. unfold mbind at 1, M_bind at 1 in Hr.
  destruct (dk_write_page p (data_ pg) (disk_manager_ s)) as [d [[]|e]] eqn:Ew; [|done].
  unfold upd_page, table_erase, modify in Hr. msimpl. injection Hr as <- <-. simpl.
  match goal with |- wf ?s' /\ _ =>
    destruct (drop_ok s s' f p pg d Hw Ht Hf ltac:(lia) Ew) as (Hw' & Hk & _); simpl; try done end.
  - rewrite upd_frame_compose. by apply (upd_frame_ext _ _ _ pg).
  - apply NoDup_app. split_and!; [apply (inv_free_nodup _ _ Hw)| |apply NoDup_singleton].
    intros g Hg Hg'. apply list_elem_of_singleton in Hg'. congruence.
  - intros g Hne. rewrite elem_of_app, list_elem_of_singleton. tauto.
  - apply (inv_replacer _ _ Hw).
  - left. rewrite elem_of_app, list_elem_of_singleton. tauto.
  - split_and!; try done; [split; [lia|done]|]. intros _. apply lookup_delete_eq.
Qed.

(** ** [flush_page] and [flush_all_pages] *)

(** An operation that leaves its own page as it was leaves everything. *)
Lemma keeps_all s s' p :
  keeps (fun q => q = p) s s' -> view s' p = view s p -> pins s' p = pins s p ->
  page_table_ s' !! p = page_table_ s !! p -> keeps (fun _ => False) s s'.
Proof.
  intros [K1 K2 K3 K4] Hv Hp Ht. split; [| | |done].
  - intros q _. destruct (decide (q = p)) as [->|]; auto.
  - intros q x _ ? ?. destruct (decide (q = p)) as [->|]; [congruence|auto].
  - intros q _ ?. destruct (decide (q = p)) as [->|]; auto.
Qed.

Lemma flush_page_ok s s' p b :
  wf s -> flush_page p s = (s', Ok b) ->
  wf s' /\ keeps (fun _ => False) s s' /\ (b = true <-> is_Some (page_table_ s !! p)) /\
  (b = true -> dk_page (disk_manager_ s') p = view s p).
Proof.
  intros Hw Hr. unfold flush_page in Hr. apply bind_inv in Hr as (s1 & tab & Hg & Hr).
  unfold gets in Hg. injection Hg as <- <-.
  destruct (page_table_ s !! p) as [f|] eqn:Ht.
  2: { unfold mret, M_ret in Hr. simplify_eq. split_and!; try done. }
  destruct (wf_resident _ _ _ _ Hw Ht) as (pg & Hf & _).
  apply bind_inv in Hr as (s1 & pg' & Hat & Hr).
  rewrite (page_at_run _ _ _ Hf) in Hat. injection Hat as <- <-.
  unfold disk_op, zoom in Hr. unfold mbind at 1, M_bind at 1 in Hr.
  destruct (dk_write_page p (data_ pg) (disk_manager_ s)) as [d [[]|e]] eqn:Ew; [|done].
  unfold upd_page, modify in Hr. msimpl. injection Hr as <- <-.
  destruct (flush_hit _ _ _ _ _ Hw Ht Hf Ew) as (Hw' & Hvw & Hd & Hp & Hk).
  assert (view s p = Some (data_ pg)) as Hv by (unfold view; by rewrite Ht, Hf).
  split_and!; [exact Hw'| |by split|by rewrite Hv].
  eapply keeps_all; [exact Hk|by rewrite Hvw, Hv| |done].
  rewrite Hp. unfold pins. by rewrite Ht, Hf.
Qed.

(** A frame that [flush_all_pages] has been through. *)
Definition flushed s (file f : Z) : Prop := forall pg,
  frame s f = Some pg -> fd (id_ pg) = file -> page_no (id_ pg) <> INVALID_PAGE_ID ->
  0 < pin_count_ pg /\ dk_page (disk_manager_ s) (id_ pg) = Some (data_ pg).

Lemma flushed_other s file f pg d s2 g :
  wf s -> frame s f = Some pg -> disk_step (fun q => q = id_ pg) (disk_manager_ s) d ->
  frame s2 g = frame s g -> disk_manager_ s2 = d -> g <> f ->
  flushed s file g -> flushed s2 file g.
Proof.
  intros Hw Hf Hd Hfr Hds Hne Hfl pg2 Hf2 Hfd2 Hno2. rewrite Hfr in Hf2.
  destruct (Hfl _ Hf2 Hfd2 Hno2) as [? Hon]. split; [done|]. rewrite Hds.
  destruct (fo_page _ _ _ (inv_frame _ _ Hw _ _ Hf2 ltac:(done))) as [(Ht2 & Hv2 & _)|[]]; [|done].
  apply (ds_page _ _ _ Hd); [done| |done]. intros E.
  by destruct (table_holder _ _ _ _ _ Hw Hf Ht2) as [[]|[]].
Qed.

(** The pinned frame of a page of the file is written and stays. *)
Lemma flush_pinned s f pg d :
  wf s -> frame s f = Some pg -> page_table_ s !! id_ pg = Some f -> pin_count_ pg <> 0 ->
  dk_write_page (id_ pg) (data_ pg) (disk_manager_ s) = (d, Ok tt) ->
  let s' := set_pages (upd_frame f (set_dirty false) (pages_ s)) (set_disk d s) in
  wf s' /\ keeps (fun _ => False) s s' /\ (forall file, flushed s' file f) /\
  forall g, g <> f -> frame s' g = frame s g.
Proof.
  intros Hw Hf Ht Hp Ew s'.
  destruct (flush_hit _ _ _ _ _ Hw Ht Hf Ew) as (Hw' & Hvw & Hd' & Hp' & Hk).
  destruct (frame_changed s s' f (set_dirty false) pg eq_refl Hf) as [Hfr Hfn].
  split_and!; [exact Hw'| | |exact Hfn].
  - eapply keeps_all; [exact Hk|fold s' in Hvw; rewrite Hvw|fold s' in Hp'; rewrite Hp'|done].
    + unfold view. by rewrite Ht, Hf.
    + unfold pins. by rewrite Ht, Hf.
  - intros file pg2 Hf2. rewrite Hfr in Hf2. injection Hf2 as <-. simpl. intros _ _.
    pose proof (fo_pin _ _ _ (inv_frame _ _ Hw _ _ Hf ltac:(done))). split; [lia|done].
Qed.

(** An unpinned one leaves the pool. *)
Lemma flush_unpinned s f pg d :
  wf s -> frame s f = Some pg -> page_table_ s !! id_ pg = Some f -> pin_count_ pg = 0 ->
  dk_write_page (id_ pg) (data_ pg) (disk_manager_ s) = (d, Ok tt) ->
  let s' := mk (upd_frame f (fun q => reset_memory (set_id no_page (set_dirty false q))) (pages_ s))
    (delete (id_ pg) (page_table_ s)) (free_list_ s) d (r_unpin f (replacer_ s)) in
  wf s' /\ keeps (fun _ => False) s s' /\ (forall file, flushed s' file f) /\
  forall g, g <> f -> frame s' g = frame s g.
Proof.
  intros Hw Hf Ht Hp Ew s'. pose proof (inv_replacer _ _ Hw) as Hrok.
  destruct (drop_ok s s' f (id_ pg) pg d Hw Ht Hf Hp Ew) as (Hw' & Hk & Hfr); simpl; try done.
  - apply (upd_frame_ext _ _ _ pg); [done|].
    unfold reset_memory, set_data, set_id, set_dirty. simpl. by rewrite Hp.
  - apply (inv_free_nodup _ _ Hw).
  - by apply r_unpin_ok.
  - intros g Hne. rewrite r_unpin_set by done. set_solver.
  - right. rewrite r_unpin_set by done. set_solver.
  - split_and!; [exact Hw'|exact Hk| |].
    + intros file pg2 Hf2. rewrite Hfr in Hf2. injection Hf2 as <-. done.
    + by apply (frame_changed s s' f (fun q => reset_memory (set_id no_page (set_dirty false q))) pg).
Qed.

Lemma flush_frame_ok s s' file f :
  wf s -> flush_frame file f s = (s', Ok tt) ->
  wf s' /\ keeps (fun _ => False) s s' /\ flushed s' file f /\
  forall g, flushed s file g -> flushed s' file g.
Proof.
  intros Hw Hr. unfold flush_frame in Hr. apply bind_inv in Hr as (s1 & pg & Hat & Hr).
  unfold page_at in Hat. destruct (frame s f) as [pg'|] eqn:Hf; [|done]. injection Hat as <- <-.
  destruct (decide (fd (id_ pg') <> file \/ page_no (id_ pg') = INVALID_PAGE_ID)) as [Hsk|Hsk].
  { unfold mret, M_ret in Hr. injection Hr as <-. split_and!; try done.
    intros pg2 Hf2. rewrite Hf in Hf2. injection Hf2 as <-. tauto. }
  apply Decidable.not_or in Hsk as [Hfd Hno]. apply dec_stable in Hfd.
  pose proof (inv_frame _ _ Hw _ _ Hf ltac:(done)) as Hok.
  destruct (fo_page _ _ _ Hok) as [(Ht & Hv & _)|[]]; [|done].
  unfold disk_op, zoom in Hr. unfold mbind at 1, M_bind at 1 in Hr.
  destruct (dk_write_page (id_ pg') (data_ pg') (disk_manager_ s)) as [d [[]|e]] eqn:Ew; [|done].
  destruct (disk_step_write s _ _ _ _ (inv_disk _ _ Hw) Hv (fo_length _ _ _ Hok) Ew) as (Hd & Hpg & _).
  specialize (Hpg eq_refl).
  pose proof (fun s2 g => flushed_other s file f pg' d s2 g Hw Hf Hd) as Hoth.
  unfold upd_page, modify, mbind at 1, M_bind at 1 in Hr.
  assert (Hdone : forall s2, wf s2 /\ keeps (fun _ => False) s s2 /\ (forall file, flushed s2 file f) /\
    (forall g, g <> f -> frame s2 g = frame s g) -> disk_manager_ s2 = d ->
    wf s2 /\ keeps (fun _ => False) s s2 /\ flushed s2 file f /\
    forall g, flushed s file g -> flushed s2 file g).
  { intros s2 (? & ? & Hfl & Hfn) Hds. split_and!; [done|done|done|].
    intros g Hg. destruct (decide (g = f)) as [->|Hne]; [done|]. by apply Hoth; auto. }
  case_decide as Hp.
  - unfold mret, M_ret in Hr. injection Hr as <-.
    apply Hdone; [|done]. by apply (flush_pinned s f pg' d).
  - unfold table_erase, rep_unpin, modify in Hr. msimpl. injection Hr as <-.
    apply Hdone; [|done]. rewrite upd_frame_compose. by apply (flush_unpinned s f pg' d).
Qed.

Lemma length_upd_frame f g l : length (upd_frame f g l) = length l.
Proof. unfold upd_frame. case_decide; [apply length_alter|done]. Qed.

Lemma flush_frame_size s file f :
  pool_size_ (flush_frame file f s).1 = pool_size_ s.
Proof.
  unfold flush_frame, page_at, disk_op, upd_page, table_erase, rep_unpin, pool_size_. msimpl.
  destruct (frame s f) as [pg|]; [|done]. simpl. case_decide; [done|].
  destruct (dk_write_page _ _ _) as [d [[]|e]]; simpl; [|done].
  case_decide; simpl; by rewrite ?length_upd_frame.
Qed.

Lemma flush_frames_ok l file : forall s s',
  wf s -> forM l (flush_frame file) s = (s', Ok tt) ->
  wf s' /\ keeps (fun _ => False) s s' /\ (forall f, f ∈ l -> flushed s' file f) /\
  (forall g, flushed s file g -> flushed s' file g) /\ pool_size_ s' = pool_size_ s.
Proof.
  induction l as [|f l IH]; intros s s' Hw Hr; simpl in Hr.
  - unfold mret, M_ret in Hr. injection Hr as <-. split_and!; try done. set_solver.
  - minv. destruct a. destruct (flush_frame_ok _ _ _ _ Hw Hm) as (Hw1 & Hk1 & Hf1 & Hg1).
    destruct (IH _ _ Hw1 Hr) as (Hw2 & Hk2 & Hf2 & Hg2 & Hs2).
    split_and!; [done|by eapply keeps_trans| |auto|].
    + intros g [->|Hg]%elem_of_cons; auto.
    + rewrite Hs2. pose proof (flush_frame_size s file f) as E. by rewrite Hm in E.
Qed.

Lemma flush_all_ok s s' file :
  wf s -> flush_all_pages file s = (s', Ok tt) ->
  wf s' /\ keeps (fun _ => False) s s' /\ forall f, flushed s' file f.
Proof.
  intros Hw Hr. unfold flush_all_pages in Hr. minv. unfold get in Hm. injection Hm as <- <-.
  destruct (flush_frames_ok _ _ _ _ Hw Hr) as (Hw' & Hk & Hf & _ & Hs). split_and!; [done|done|].
  intros f pg Hfr. apply (Hf f); [|done]. unfold frame in Hfr. case_decide; [|done].
  apply lookup_lt_Some in Hfr. unfold pool_size_ in Hs. rewrite Hs in Hfr.
  apply list_elem_of_fmap. exists (Z.to_nat f). split; [lia|]. apply elem_of_seq.
  unfold pool_size_. lia.
Qed.

(** ** Histories *)

(** What the users of the pool do: its operations, and writes to a page through
    the pointer a holder of the page has, which is to its frame. *)
Inductive op :=
  | Fetch (p : PageId) | Put (p : PageId) (d : bytes) | MarkDirty (p : PageId)
  | Unpin (p : PageId) (is_dirty : bool) | Flush (p : PageId)
  | New (file : Z) | Delete (p : PageId) | FlushAll (file : Z).

(** What they see. *)
Inductive event :=
  | EFetch (p : PageId) (d : bytes)
  | EPut (p : PageId) (d : bytes)
  | ENew (p : PageId)
  | ENothing.

Definition holding (p : PageId) (k : Z -> M (t D R) unit) : M (t D R) unit :=
  tab ← gets page_table_;
  match tab !! p with Some f => k f | None => throw Stuck end.

Definition step (o : op) : M (t D R) event :=
  match o with
  | Fetch p =>
      r ← fetch_page p;
      match r with
      | Some f => d ← get_data f; mret (EFetch p d)
      | None => mret ENothing
      end
  | Put p d => holding p (fun f => put_data f d);; mret (EPut p d)
  | MarkDirty p => holding p mark_dirty;; mret ENothing
  | Unpin p b => _ ← unpin_page p b; mret ENothing
  | Flush p => _ ← flush_page p; mret ENothing
  | New file =>
      r ← new_page file;
      match r with
      | Some (f, p) => mret (ENew p)
      | None => mret ENothing
      end
  | Delete p => _ ← delete_page p; mret ENothing
  | FlushAll file => flush_all_pages file;; mret ENothing
  end.

Fixpoint run (l : list op) : M (t D R) (list event) :=
  match l with
  | [] => mret []
  | o :: l' => e ← step o; es ← run l'; mret (e :: es)
  end.

(** The use of the pool: pages that exist are fetched, only pinned pages are
    written, and the last holder of a page that was changed and not written back
    says so. *)
Definition legal s (o : op) : Prop :=
  match o with
  | Fetch p => dk_valid (disk_manager_ s) p /\ page_no p < dk_next (disk_manager_ s) (fd p)
  | Put p d => 0 < pins s p /\ length d = page_size
  | MarkDirty p => 0 < pins s p
  | Unpin p b => b = false -> pins s p = 1 -> forall f pg,
      page_table_ s !! p = Some f -> frame s f = Some pg -> is_dirty_ pg = false ->
      dk_page (disk_manager_ s) p = Some (data_ pg)
  | New file => dk_next (disk_manager_ s) file < 2 ^ 31 - 1 /\
      dk_valid (disk_manager_ s) (mkPageId file (dk_next (disk_manager_ s) file))
  | _ => True
  end.

Fixpoint legal_run (l : list op) s : Prop :=
  match l with
  | [] => True
  | o :: l' => legal s o /\
      match step o s with (s', Ok _) => legal_run l' s' | _ => True end
  end.

(** The pages an operation changes, and the events seen on an array of pages. *)
Definition touches (o : op) s (p : PageId) : Prop :=
  match o with
  | Fetch q | Put q _ | MarkDirty q | Unpin q _ => p = q
  | New file => p = mkPageId file (dk_next (disk_manager_ s) file)
  | _ => False
  end.

Definition spec_step (e : event) (m : PageId -> option bytes) : PageId -> option bytes :=
  match e with
  | EPut p d => fun q => if decide (q = p) then Some d else m q
  | ENew p => fun q => if decide (q = p) then Some fresh_page else m q
  | _ => m
  end.

Fixpoint consistent (es : list event) (m : PageId -> option bytes) : Prop :=
  match es with
  | [] => True
  | e :: es' =>
      match e with EFetch p d => forall x, m p = Some x -> d = x | _ => True end /\
      consistent es' (spec_step e m)
  end.

Definition agrees s (m : PageId -> option bytes) : Prop :=
  forall q x, dk_valid (disk_manager_ s) q -> m q = Some x -> view s q = Some x.

(** One step: the invariant, the view, and the pins. *)
Definition stepped s s' (o : op) (e : event) : Prop :=
  wf s' /\ keeps (touches o s) s s' /\
  (forall p, 0 < pins s p -> (forall b, o <> Unpin p b) ->
     page_table_ s' !! p = page_table_ s !! p /\ pins s p <= pins s' p) /\
  (forall m, agrees s m -> agrees s' (spec_step e m) /\
     match e with EFetch p d => forall x, m p = Some x -> d = x | _ => True end).

Lemma stepped_all s s' o :
  wf s' -> keeps (fun _ => False) s s' -> stepped s s' o ENothing.
Proof.
  intros Hw Hk. split_and!; [done|by eapply keeps_mono; [|exact Hk]| |].
  - intros p Hp _. rewrite (k_pins _ _ _ Hk), (k_frame _ _ _ Hk) by tauto. split; [done|lia].
  - intros m Ha. split; [|done]. intros q x Hv Hm. apply (k_valid _ _ _ Hk) in Hv.
    apply (k_view _ _ _ Hk); auto.
Qed.

Lemma stepped_one s s' o p e :
  wf s' -> keeps (fun q => q = p) s s' -> (forall q, q = p -> touches o s q) ->
  (0 < pins s p -> (forall b, o <> Unpin p b) ->
     page_table_ s' !! p = page_table_ s !! p /\ pins s p <= pins s' p) ->
  (forall m, agrees s m -> dk_valid (disk_manager_ s) p ->
     forall x, spec_step e m p = Some x -> view s' p = Some x) ->
  (forall m q, q <> p -> spec_step e m q = m q) ->
  (forall m, agrees s m -> match e with EFetch p d => forall x, m p = Some x -> d = x | _ => True end) ->
  stepped s s' o e.
Proof.
  intros Hw Hk Ht Hp Hv Hne He. split_and!; [done|by eapply keeps_mono; [|exact Hk]| |].
  - intros q Hq Ho. destruct (decide (q = p)) as [->|Hne']; [auto|].
    rewrite (k_pins _ _ _ Hk), (k_frame _ _ _ Hk) by done. split; [done|lia].
  - intros m Ha. split; [|by apply He]. intros q x Hv' Hm. apply (k_valid _ _ _ Hk) in Hv'.
    destruct (decide (q = p)) as [->|Hne']; [by eapply Hv|]. rewrite Hne in Hm by done.
    apply (k_view _ _ _ Hk); auto.
Qed.

(** The holder's access to a pinned page. *)
Lemma holding_ok s s' p k (e e' : event) :
  wf s -> 0 < pins s p -> (holding p k;; mret e) s = (s', Ok e') ->
  e' = e /\ exists f pg, page_table_ s !! p = Some f /\ frame s f = Some pg /\
    0 < pin_count_ pg /\ k f s = (s', Ok tt).
Proof.
  intros Hw Hp Hr. unfold holding in Hr.
  apply bind_inv in Hr as (s1 & [] & Hr & He). unfold mret, M_ret in He. injection He as <- <-.
  apply bind_inv in Hr as (s2 & tab & Hg & Hr). unfold gets in Hg. injection Hg as <- <-.
  unfold pins in Hp. destruct (page_table_ s !! p) as [f|] eqn:Ht; [|lia].
  destruct (wf_resident _ _ _ _ Hw Ht) as (pg & Hf & _). rewrite Hf in Hp. simpl in Hp.
  split; [done|]. by exists f, pg.
Qed.

(** Each operation makes such a step. *)
Lemma step_holding s s' p k g o (e e' : event) :
  wf s -> 0 < pins s p -> (holding p k;; mret e) s = (s', Ok e') ->
  (forall f, is_Some (frame s f) -> k f s = (set_pages (upd_frame f g (pages_ s)) s, Ok tt)) ->
  (forall pg, id_ (g pg) = id_ pg /\ pin_count_ (g pg) = pin_count_ pg /\
    (length (data_ pg) = page_size -> length (data_ (g pg)) = page_size)) ->
  (forall q, q = p -> touches o s q) ->
  (forall m q, q <> p -> spec_step e m q = m q) ->
  (forall m pg x, spec_step e m p = Some x ->
     (forall y, m p = Some y -> data_ pg = y) -> data_ (g pg) = x) ->
  (forall q d, e <> EFetch q d) ->
  stepped s s' o e'.
Proof.
  intros Hw Hp Hr Hk Hg Ht Hne Hsp He.
  destruct (holding_ok _ _ _ _ _ _ Hw Hp Hr) as (-> & f & pg & Htab & Hf & Hpos & Hrun).
  rewrite Hk in Hrun by (by eexists). injection Hrun as <-.
  destruct (Hg pg) as (Hid & Hpin & Hl).
  pose proof (fo_length _ _ _ (inv_frame _ _ Hw _ _ Hf ltac:(done))) as Hl0.
  destruct (put_ok s p f pg g Hw Htab Hf Hpos Hid Hpin (Hl Hl0)) as (Hw' & Hv & Hp' & Hk').
  assert (Hvs : view s p = Some (data_ pg)) by (unfold view; by rewrite Htab, Hf).
  apply (stepped_one _ _ _ p); try done.
  - intros _ _. split; [done|]. rewrite Hp'. unfold pins. rewrite Htab, Hf. simpl. lia.
  - intros m Ha Hvp x Hx. rewrite Hv. f_equal. apply (Hsp m); [done|].
    intros y Hy. pose proof (Ha _ _ Hvp Hy). congruence.
  - intros m Ha. destruct e; try done. by destruct (He p0 d).
Qed.

Lemma step_fetch s s' p e :
  wf s -> legal s (Fetch p) -> step (Fetch p) s = (s', Ok e) -> stepped s s' (Fetch p) e.
Proof.
  intros Hw [Hv Hn] Hr. simpl in Hr. apply bind_inv in Hr as (s1 & r & Hfe & Hr).
  apply fetch_page_ok in Hfe; [|done..]. destruct r as [f|]; simpl in Hfe.
  - destruct Hfe as (Hw' & Ht & Hp & Hsame & Hs & Hx & Hk & _ & _).
    destruct (wf_resident _ _ _ _ Hw' Ht) as (pg & Hf & _).
    unfold get_data in Hr. apply bind_inv in Hr as (s2 & d & Hd & Hr).
    rewrite (bind_ok _ _ _ _ _ (page_at_run _ _ _ Hf)) in Hd.
    unfold mret, M_ret in *. injection Hd as <- <-. injection Hr as <- <-.
    assert (Hvs : view s1 p = Some (data_ pg)) by (unfold view; by rewrite Ht, Hf).
    apply (stepped_one _ _ _ p); try done.
    + intros Hpos _. split; [|lia]. by rewrite Ht, Hsame.
    + intros m Ha _ x Hm. by apply Hx, Ha.
    + intros m Ha x Hm. specialize (Hx _ (Ha _ _ Hv Hm)). congruence.
  - destruct Hfe as (-> & _). unfold mret, M_ret in Hr. injection Hr as <- <-.
    apply stepped_all; [done|]. by split.
Qed.

Lemma step_unpin s s' p b e :
  wf s -> legal s (Unpin p b) -> step (Unpin p b) s = (s', Ok e) -> stepped s s' (Unpin p b) e.
Proof.
  intros Hw Hl Hr. simpl in Hr. apply bind_inv in Hr as (s1 & r & Hu & Hr).
  unfold mret, M_ret in Hr. injection Hr as <- <-.
  destruct (page_table_ s !! p) as [f|] eqn:Ht.
  2: { unfold unpin_page in Hu. msimpl. rewrite Ht in Hu. injection Hu as <- <-.
       apply stepped_all; [done|by split]. }
  destruct (wf_resident _ _ _ _ Hw Ht) as (pg & Hf & _ & Hok & _).
  pose proof (fo_pin _ _ _ Hok) as Hp0.
  assert (Hpin : pins s p = pin_count_ pg) by (unfold pins; by rewrite Ht, Hf).
  assert (Hv : view s p = Some (data_ pg)) by (unfold view; by rewrite Ht, Hf).
  destruct (decide (pin_count_ pg = 0)) as [Hz|Hz].
  { unfold unpin_page in Hu. msimpl. rewrite Ht, (page_at_run _ _ _ Hf), decide_True in Hu by done.
    injection Hu as <- <-. apply stepped_all; [done|by split]. }
  destruct (unpin_ok s p b f pg Hw Ht Hf ltac:(lia)) as (s2 & Hu' & Hw' & Hv' & Hp' & Hk & Ht' & _).
  { intros H1' Hd ->. apply (Hl eq_refl) with f; [lia|done|done|done]. }
  rewrite Hu in Hu'. injection Hu' as <- ->.
  apply (stepped_one _ _ _ p); try done.
  - intros _ Ho. by destruct (Ho b).
  - intros m Ha Hvp x Hm. rewrite Hv', <- Hv. by apply Ha.
Qed.

Lemma step_new s s' file e :
  wf s -> legal s (New file) -> step (New file) s = (s', Ok e) -> stepped s s' (New file) e.
Proof.
  intros Hw [Hn Hv] Hr. simpl in Hr. apply bind_inv in Hr as (s1 & r & Hc & Hr).
  apply new_page_ok in Hc; [|done..].
  destruct r as [[f p]|]; simpl in Hc; unfold mret, M_ret in Hr; injection Hr as <- <-.
  - destruct Hc as (-> & Hw' & Ht & Hp0 & Hp1 & Hv' & Hk & _).
    eapply stepped_one; [done|exact Hk|by intros q ->| | | |done].
    + lia.
    + intros m _ _ x. simpl. rewrite decide_True by done. by intros [= <-].
    + intros m q Hne. simpl. by rewrite decide_False by done.
  - destruct Hc as [-> _]. apply stepped_all; [done|by split].
Qed.

Lemma step_ok s s' o e :
  wf s -> legal s o -> step o s = (s', Ok e) -> stepped s s' o e.
Proof.
  intros Hw Hl Hr. destruct o as [p|p d|p|p b|p|file|p|file].
  - by apply step_fetch.
  - destruct Hl as [Hp Hl]. eapply (step_holding _ _ _ _ (set_data d)); [done|exact Hp|exact Hr|..];
      simpl; try done.
    + intros f [pg Hf]. unfold put_data. by rewrite (bind_ok _ _ _ _ _ (page_at_run _ _ _ Hf)).
    + intros m q Hne. by rewrite decide_False.
    + intros m pg x. rewrite decide_True by done. congruence.
  - eapply (step_holding _ _ _ _ (set_dirty true)); [done|exact Hl|exact Hr|..]; simpl; try done.
    intros m pg x Hx Hm. by apply Hm.
  - by apply step_unpin.
  - simpl in Hr. apply bind_inv in Hr as (s1 & r & Hf & Hr). unfold mret, M_ret in Hr.
    injection Hr as <- <-. destruct (flush_page_ok _ _ _ _ Hw Hf) as (? & ? & _). by apply stepped_all.
  - by apply step_new.
  - simpl in Hr. apply bind_inv in Hr as (s1 & r & Hf & Hr). unfold mret, M_ret in Hr.
    injection Hr as <- <-. destruct (delete_page_ok _ _ _ _ Hw Hf) as (? & ? & _). by apply stepped_all.
  - simpl in Hr. apply bind_inv in Hr as (s1 & [] & Hf & Hr). unfold mret, M_ret in Hr.
    injection Hr as <- <-. destruct (flush_all_ok _ _ _ Hw Hf) as (? & ? & _). by apply stepped_all.
Qed.

Lemma run_ok l : forall s s' es m,
  wf s -> legal_run l s -> run l s = (s', Ok es) -> agrees s m ->
  wf s' /\ consistent es m.
Proof.
  induction l as [|o l IH]; intros s s' es m Hw Hl Hr Ha; simpl in Hr.
  - unfold mret, M_ret in Hr. by injection Hr as <- <-.
  - destruct Hl as [Hl Hls]. apply bind_inv in Hr as (s1 & e & Hs & Hr). rewrite Hs in Hls.
    apply bind_inv in Hr as (s2 & es' & Hr & He). unfold mret, M_ret in He. injection He as <- <-.
    destruct (step_ok _ _ _ _ Hw Hl Hs) as (Hw1 & _ & _ & Hm). destruct (Hm _ Ha) as [Ha1 He].
    destruct (IH _ _ _ _ Hw1 Hls Hr Ha1) as [Hw2 Hc]. by split.
Qed.

(** ** Working on a page

    What a user of the pool relies on: a page that was fetched or created is held at
    its frame, with its contents, until it is unpinned. *)

Record held s (p : PageId) (f : Z) (x : bytes) : Prop := {
  he_wf : wf s;
  he_table : page_table_ s !! p = Some f;
  he_pins : 0 < pins s p;
  he_view : view s p = Some x;
}.

Lemma held_frame s p f x : held s p f x ->
  exists pg, frame s f = Some pg /\ id_ pg = p /\ data_ pg = x /\ 0 < pin_count_ pg /\
    pins s p = pin_count_ pg /\ length x = page_size.
Proof.
  intros [Hw Ht Hp Hv]. destruct (wf_resident _ _ _ _ Hw Ht) as (pg & Hf & Hid & Hok & _).
  exists pg. unfold pins, view in *. rewrite Ht, Hf in *. injection Hv as <-.
  split_and!; try done. apply (fo_length _ _ _ Hok).
Qed.

Lemma fetch_held s s' p f :
  wf s -> dk_valid (disk_manager_ s) p -> page_no p < dk_next (disk_manager_ s) (fd p) ->
  fetch_page p s = (s', Ok (Some f)) ->
  exists x, held s' p f x /\ (forall y, view s p = Some y -> x = y) /\ pins s' p = pins s p + 1 /\
    keeps (fun q => q = p) s s' /\ unpin_clean s' p f /\
    (forall g, dk_next (disk_manager_ s') g = dk_next (disk_manager_ s) g).
Proof.
  intros Hw Hv Hn Hr. destruct (fetch_page_ok _ _ _ _ Hw Hv Hn Hr)
    as (Hw' & Ht & Hp & _ & [x Hx] & Hxy & Hk & Hu & Hnx).
  exists x. split_and!; try done.
  - split; try done. rewrite Hp. unfold pins. destruct (page_table_ s !! p) eqn:E; [|lia].
    destruct (wf_resident _ _ _ _ Hw E) as (pg & Hf & _ & Hok & _). rewrite Hf. simpl.
    pose proof (fo_pin _ _ _ Hok). lia.
  - intros y Hy. apply Hxy in Hy. congruence.
Qed.

Lemma frame_only s s' f g h : pages_ s' = upd_frame f h (pages_ s) -> g <> f -> frame s' g = frame s g.
Proof.
  intros Hp Hne. pose proof (frame_upd_ne s f g h (not_eq_sym Hne)) as E. unfold frame in *. simpl in E. by rewrite Hp, E.
Qed.

(** [fetch_page] changes one frame, and on disk at most the page of an unpinned one. *)
Lemma fetch_others s s' p f :
  wf s -> dk_valid (disk_manager_ s) p -> fetch_page p s = (s', Ok (Some f)) ->
  (forall g, g <> f -> frame s' g = frame s g) /\
  (forall q x, 0 < pins s q -> dk_valid (disk_manager_ s) q ->
    dk_page (disk_manager_ s) q = Some x -> dk_page (disk_manager_ s') q = Some x).
Proof.
  intros Hw Hv Hr. unfold fetch_page in Hr. minv. unfold gets in Hm. simplify_eq.
  destruct (page_table_ s0 !! p) as [f0|] eqn:Ht; minv.
  - unfold rep_pin, upd_page, modify, mret, M_ret in *. simplify_eq. unfold page_at in *.
    case_match; simplify_eq. simpl in *. simplify_eq. split; [|done]. intros g Hg. eapply frame_only; [reflexivity|done].
  - pose proof (find_victim_ok _ _ _ Hw Hm) as Hvic. destruct a as [f'|]; simpl in Hr; [|by unfold mret, M_ret in Hr].
    destruct Hvic as (Htk & pg & Hf & Hp). minv. unfold mret, M_ret in Hr. simplify_eq.
    unfold update_page in Hm0. minv.
    match goal with Q : page_at _ _ = (_, Ok ?a), Q' : whenM (is_dirty_ ?a) _ _ = _ |- _ =>
      rewrite (page_at_run _ _ pg) in Q
        by (by rewrite (frame_pages _ _ _ (tk_pages _ _ _ Htk))); injection Q as <- <- end.
    repeat match goal with u : unit |- _ => destruct u end.
    edestruct (update_page_evict s0) as (Hi & Hk & (pg2 & Hf2 & Hp2 & _) & Ht2 & Hn2);
      [exact Hw|exact Htk|exact Hf|exact Hp|
       repeat (erewrite bind_ok by eassumption); eassumption|].
    assert (Hd7 : (forall g, g <> f -> frame s7 g = frame s0 g) /\
      (forall q x, 0 < pins s0 q -> dk_valid (disk_manager_ s0) q ->
        dk_page (disk_manager_ s0) q = Some x -> dk_page (disk_manager_ s7) q = Some x)).
    { clear Hf2 Hk Hi Ht2 Hn2. unfold table_erase, upd_page, modify in Hm6, Hm7. injection Hm6 as <-. injection Hm7 as <-.
      pose proof (tk_pages _ _ _ Htk) as Hpg. pose proof (tk_disk _ _ _ Htk) as Hdk.
      destruct (is_dirty_ pg) eqn:Ed; simpl in Hm5.
      - pose proof (inv_frame _ _ Hw _ _ Hf ltac:(done)) as Hok.
        destruct (fo_page _ _ _ Hok) as [(Hti & Hvi & _)|(_ & _ & Q)]; [|congruence].
        minv. destruct a. unfold upd_page, modify in Hm5. injection Hm5 as <-. unfold disk_op, zoom in Hm4.
        destruct (dk_write_page _ _ _) as [d r] eqn:Ew. injection Hm4 as <- ->. simpl. split.
        + intros g Hg. eapply frame_only; [|done]. simpl. by rewrite upd_frame_compose, Hpg.
        + intros q x Hq Hvq Hx. rewrite Hdk in Ew.
          destruct (disk_step_write s0 _ _ _ _ (inv_disk _ _ Hw) Hvi (fo_length _ _ _ Hok) Ew) as (Hst & _ & _).
          apply (ds_page _ _ _ Hst); [done| |done]. intros ->. unfold pins in Hq. rewrite Hti, Hf in Hq. simpl in Hq. lia.
      - unfold mret, M_ret in Hm5. injection Hm5 as <-. simpl. split.
        + intros g Hg. eapply frame_only; [|done]. simpl. by rewrite Hpg.
        + intros q x _ _. by rewrite Hdk. }
    destruct Hd7 as [Hfr Hdk].
    unfold read_into in Hm8. rewrite Hf2 in Hm8.
    destruct (dk_read_page p (data_ pg2) (disk_manager_ s7)) as [d [buf r]] eqn:Er. injection Hm8 as <- ->.
    destruct (inv_held _ _ Hi f eq_refl) as (pg0 & Hf0 & Hl & _). rewrite Hf2 in Hf0. injection Hf0 as <-.
    destruct (dk_read_frame _ _ _ _ _ _ (inv_disk _ _ Hi) (proj2 (k_valid _ _ _ Hk p) Hv) Hl Er) as (_ & _ & _ & Hdp & _ & _).
    assert (Hs9 : pages_ s9 = upd_frame f (set_data buf) (pages_ s7) /\ disk_manager_ s9 = d).
    { destruct (bool_decide _); simpl in Hm9; unfold table_set, modify, mret, M_ret in Hm9; by injection Hm9 as <-. }
    destruct Hs9 as [Hp9 Hd9]. unfold upd_page, rep_pin, modify in Hm0, Hm1, Hm3.
    injection Hm0 as <-. injection Hm1 as <-. unfold page_at in Hm2. case_match; [|done]. injection Hm2 as <- ->.
    injection Hm3 as <-. simpl. split.
    + intros g Hg. rewrite <- Hfr by done. eapply frame_only; [|done]. simpl. by rewrite !upd_frame_compose, Hp9, upd_frame_compose.
    + intros q x Hq Hvq Hx. rewrite Hd9, Hdp. by apply Hdk.
Qed.

(** Fetching a page leaves another that is held where it is, with its contents, and as
    clean as it was; a page that is held is fetched into its frame. *)
Lemma fetch_held_other s s' p f q g x :
  wf s -> dk_valid (disk_manager_ s) p -> page_no p < dk_next (disk_manager_ s) (fd p) ->
  dk_valid (disk_manager_ s) q -> fetch_page p s = (s', Ok (Some f)) -> held s q g x -> q <> p ->
  held s' q g x /\ pins s' q = pins s q /\ (unpin_clean s q g -> unpin_clean s' q g).
Proof.
  intros Hw Hv Hn Hvq Hr Hh Hne. destruct (fetch_held _ _ _ _ Hw Hv Hn Hr) as (y & Hy & _ & _ & Hk & _).
  destruct (held_frame _ _ _ _ Hh) as (pg & Hf & Hid & Hd & Hpos & _). destruct Hh as [_ Ht Hp Hvw].
  assert (Hp' : pins s' q = pins s q) by (by apply (k_pins _ _ _ Hk)). split_and!; [|done|].
  - split; [apply (he_wf _ _ _ _ Hy)| |lia|by apply (k_view _ _ _ Hk)]. by rewrite (k_frame _ _ _ Hk) by done.
  - destruct (fetch_others _ _ _ _ Hw Hv Hr) as [Hfr Hdk]. intros Hcl pg' Hf' H1' H2'.
    assert (Hgf : g <> f).
    { intros ->. destruct (held_frame _ _ _ _ Hy) as (pgy & Hfy & Hidy & _).
      assert (page_table_ s' !! q = Some f) as Htq by (by rewrite (k_frame _ _ _ Hk)).
      destruct (wf_resident _ _ _ _ (he_wf _ _ _ _ Hy) Htq) as (pgq & Hfq & Hidq & _). congruence. }
    rewrite Hfr in Hf' by done. by apply Hdk, Hcl.
Qed.

Lemma fetch_held_same s s' p f g x :
  wf s -> dk_valid (disk_manager_ s) p -> page_no p < dk_next (disk_manager_ s) (fd p) ->
  fetch_page p s = (s', Ok (Some f)) -> held s p g x -> f = g.
Proof.
  intros Hw Hv Hn Hr [_ Ht Hp _]. destruct (fetch_page_ok _ _ _ _ Hw Hv Hn Hr) as (_ & Ht' & _ & Hin & _).
  specialize (Hin Hp). congruence.
Qed.
Lemma new_held s s' file f p :
  wf s -> dk_next (disk_manager_ s) file < 2 ^ 31 - 1 ->
  dk_valid (disk_manager_ s) (mkPageId file (dk_next (disk_manager_ s) file)) ->
  new_page file s = (s', Ok (Some (f, p))) ->
  p = mkPageId file (dk_next (disk_manager_ s) file) /\ held s' p f fresh_page /\ pins s' p = 1 /\ pins s p = 0 /\
  keeps (fun q => q = p) s s' /\ dk_next (disk_manager_ s') file = dk_next (disk_manager_ s) file + 1.
Proof.
  intros Hw Hn Hv Hr. destruct (new_page_ok _ _ _ _ Hw Hn Hv Hr) as (-> & Hw' & Ht & Hp0 & Hp1 & Hx & Hk & Hnx).
  split_and!; try done. split; try done. lia.
Qed.

Lemma held_get s p f x : held s p f x -> get_data f s = (s, Ok x).
Proof.
  intros Hh. destruct (held_frame _ _ _ _ Hh) as (pg & Hf & _ & <- & _).
  unfold get_data. by rewrite (bind_ok _ _ _ _ _ (page_at_run _ _ _ Hf)).
Qed.

Lemma held_page_at s p f x : held s p f x -> exists pg, page_at f s = (s, Ok pg) /\ id_ pg = p /\ data_ pg = x.
Proof.
  intros Hh. destruct (held_frame _ _ _ _ Hh) as (pg & Hf & ? & ? & _).
  exists pg. by rewrite (page_at_run _ _ _ Hf).
Qed.

Lemma held_put s p f x y : held s p f x -> length y = page_size ->
  exists s', put_data f y s = (s', Ok tt) /\ held s' p f y /\ pins s' p = pins s p /\
    keeps (fun q => q = p) s s' /\ disk_manager_ s' = disk_manager_ s.
Proof.
  intros Hh Hl. destruct (held_frame _ _ _ _ Hh) as (pg & Hf & Hid & Hx & Hpos & Hpn & _).
  destruct Hh as [Hw Ht Hp Hv].
  destruct (put_ok s p f pg (set_data y) Hw Ht Hf Hpos eq_refl eq_refl Hl) as (Hw' & Hv' & Hp' & Hk).
  eexists. split; [unfold put_data; by rewrite (bind_ok _ _ _ _ _ (page_at_run _ _ _ Hf))|].
  split_and!; [split|lia|exact Hk|done]; [exact Hw'|done|lia|exact Hv'].
Qed.

Lemma held_unpin s p f x b : held s p f x -> (b = false -> unpin_clean s p f) ->
  exists s', unpin_page p b s = (s', Ok true) /\ wf s' /\ view s' p = Some x /\ pins s' p = pins s p - 1 /\
    keeps (fun q => q = p) s s' /\ disk_manager_ s' = disk_manager_ s.
Proof.
  intros Hh Hb. destruct (held_frame _ _ _ _ Hh) as (pg & Hf & Hid & Hx & Hpos & Hpn & _).
  destruct Hh as [Hw Ht Hp Hv].
  destruct (unpin_ok s p b f pg Hw Ht Hf Hpos) as (s' & Hr & Hw' & Hv' & Hp' & Hk & _ & Hd).
  { intros Q1 Q2 Q3. by apply (Hb Q3 _ Hf). }
  exists s'. rewrite Hpn. split_and!; try done. by rewrite Hv', Hx.
Qed.

(** The data is still at the frame right after the page was unpinned. *)
Lemma unpin_get s s' p b f x : unpin_page p b s = (s', Ok true) -> held s p f x -> view s' p = Some x ->
  get_data f s' = (s', Ok x).
Proof.
  intros Hr Hp Hv. pose proof (he_table _ _ _ _ Hp) as Ht.
  assert (Ht' : page_table_ s' !! p = Some f).
  { destruct (held_frame _ _ _ _ Hp) as (pg & Ef & _).
    unfold unpin_page in Hr. minv. unfold gets in Hm. simplify_eq. rewrite Ht in Hr. minv.
    rewrite (page_at_run _ _ _ Ef) in Hm. injection Hm as <- <-. case_decide; [done|]. minv.
    unfold upd_page, whenM, rep_unpin, modify, mret, M_ret in *. simplify_eq. simpl in *.
    match type of Hm0 with (if ?c then _ else _) _ = _ => destruct c end; by simplify_eq. }
  unfold view in Hv. rewrite Ht' in Hv. destruct (frame s' f) as [pg|] eqn:Ef; [|done]. injection Hv as <-.
  unfold get_data. by rewrite (bind_ok _ _ _ _ _ (page_at_run _ _ _ Ef)).
Qed.

(** Unpinning a page leaves another that is held. *)
Lemma unpin_held_other s s' p b f q g x :
  unpin_page p b s = (s', Ok true) -> held s p f x -> wf s' -> keeps (fun r => r = p) s s' ->
  disk_manager_ s' = disk_manager_ s -> dk_valid (disk_manager_ s) q -> q <> p ->
  forall y, held s q g y -> held s' q g y /\ (unpin_clean s q g -> unpin_clean s' q g).
Proof.
  intros Hr Hp Hw' Hk Hd Hvq Hne y Hq. pose proof (he_table _ _ _ _ Hp) as Ht.
  assert (Hgf : g <> f).
  { intros ->. destruct (held_frame _ _ _ _ Hp) as (? & E1 & I1 & _), (held_frame _ _ _ _ Hq) as (? & E2 & I2 & _). congruence. }
  assert (Hfr : frame s' g = frame s g).
  { unfold unpin_page in Hr. minv. unfold gets in Hm. simplify_eq. rewrite Ht in Hr. minv.
    destruct (frame s0 f) as [pgf|] eqn:Ef; [|unfold page_at in Hm; by rewrite Ef in Hm].
    rewrite (page_at_run _ _ _ Ef) in Hm. injection Hm as <- <-. case_decide; [done|]. minv.
    unfold upd_page, whenM, rep_unpin, modify, mret, M_ret in *. simplify_eq. simpl in *.
    match type of Hm0 with (if ?c then _ else _) _ = _ => destruct c end; simplify_eq; simpl;
      (eapply frame_only; [|exact Hgf]; simpl; by rewrite !upd_frame_compose). }
  destruct Hq as [Hw Htq Hpq Hvw]. split.
  - split; [done| | |by apply (k_view _ _ _ Hk)].
    + by rewrite (k_frame _ _ _ Hk) by done.
    + by rewrite (k_pins _ _ _ Hk) by done.
  - intros Hc pg Hf. rewrite Hfr in Hf. rewrite Hd. by apply Hc.
Qed.

(** A new pool. *)
Lemma pool_wf_make n junk d r :
  dk_ok d -> r_ok r -> r_evictable r = ∅ -> wf (make n junk d r).
Proof.
  intros Hd Hr He.
  assert (Hfr : forall f pg, frame (make n junk d r) f = Some pg ->
    pg = mkPage (mkPageId (junk (Z.to_nat f)) INVALID_PAGE_ID) zero_page false 0 /\
    f ∈ free_list_ (make n junk d r)).
  { intros f pg. unfold frame. case_decide; [|done]. simpl. rewrite list_lookup_fmap.
    destruct (seq 0 n !! Z.to_nat f) as [i|] eqn:E; [|done]. simpl. intros [= <-].
    apply lookup_seq in E as [-> Hlt]. split; [done|].
    apply list_elem_of_fmap. exists (Z.to_nat f). split; [lia|]. apply elem_of_seq. lia. }
  split; try done.
  - intros f pg Hf _. destruct (Hfr _ _ Hf) as [-> Hin]. split; simpl; try done.
    + by right.
    + by left.
  - simpl. apply NoDup_fmap; [intros ? ?; lia|apply NoDup_seq].
  - intros f. simpl. rewrite list_elem_of_fmap. intros (i & -> & Hi%elem_of_seq). split; [done|].
    unfold frame. rewrite decide_True by lia. simpl. rewrite list_lookup_fmap, Nat2Z.id, lookup_seq_lt by lia.
    by eexists.
  - intros f. simpl. rewrite He. set_solver.
Qed.

(** ** Properties *)

(** C2: the pool is transparent.  In any legal history of fetches, writes through
    pinned pages, unpins, flushes, allocations and deletions that returns normally,
    whatever is evicted and read again, a fetched page holds what an array of pages
    that starts as the view of the pool would hold: the last data written to it;
    and the invariant of the pool is kept. *)
Theorem pool_transparent s s' l es :
  wf s -> legal_run l s -> run l s = (s', Ok es) -> wf s' /\ consistent es (view s).
Proof. intros Hw Hl Hr. apply (run_ok l s s' es (view s) Hw Hl Hr). by intros q x. Qed.

(** C7: a page that someone holds stays at its frame, whatever operation anyone
    else performs: the pointers the pool has handed out remain valid, its pins are
    not lost, and its contents change only by the operations on that page. *)
Theorem pinned_page_stays s s' o e p :
  wf s -> legal s o -> step o s = (s', Ok e) -> 0 < pins s p -> (forall b, o <> Unpin p b) ->
  page_table_ s' !! p = page_table_ s !! p /\ pins s p <= pins s' p /\
  (~ touches o s p -> dk_valid (disk_manager_ s) p -> forall x, view s p = Some x -> view s' p = Some x).
Proof.
  intros Hw Hl Hs Hp Ho. destruct (step_ok _ _ _ _ Hw Hl Hs) as (_ & Hk & Hst & _).
  destruct (Hst _ Hp Ho). split_and!; [done|done|]. intros Ht Hv x. by apply (k_view _ _ _ Hk).
Qed.

(** [fetch_page] returns the null pointer exactly when the page is not in the
    pool and every frame is pinned, and then nothing has changed; otherwise the page
    has one more pin. *)
Theorem fetch_null_iff s s' p r :
  wf s -> dk_valid (disk_manager_ s) p -> page_no p < dk_next (disk_manager_ s) (fd p) ->
  fetch_page p s = (s', Ok r) ->
  (r = None <-> page_table_ s !! p = None /\ forall f pg, frame s f = Some pg -> 0 < pin_count_ pg) /\
  (r = None -> s' = s) /\ (r <> None -> pins s' p = pins s p + 1).
Proof.
  intros Hw Hv Hn Hr. pose proof (fetch_page_ok _ _ _ _ Hw Hv Hn Hr) as Hfe.
  destruct r as [f|]; simpl in Hfe.
  - destruct Hfe as (_ & _ & Hp & _). split_and!; [|done|done]. split; [done|]. intros [Ht Hall].
    unfold fetch_page in Hr. minv. unfold gets in Hm. simplify_eq. rewrite Ht in Hr. minv.
    pose proof (find_victim_ok _ _ _ Hw Hm) as Hvic. destruct a as [f'|]; simpl in Hr.
    + destruct Hvic as (_ & pg & Hf & Hz). specialize (Hall _ _ Hf). lia.
    + unfold mret, M_ret in Hr. simplify_eq.
  - destruct Hfe as (-> & Ht & Hall). by split_and!.
Qed.

(** C8: [flush_all_pages] persists its file: after it returns, every page of the
    file is on disk with the contents it had in the pool, and the pool only keeps
    those of its pages that are pinned. *)
Theorem flush_all_persists s s' file :
  wf s -> flush_all_pages file s = (s', Ok tt) ->
  forall p x, fd p = file -> dk_valid (disk_manager_ s) p -> view s p = Some x ->
  dk_page (disk_manager_ s') p = Some x /\ (pins s p = 0 -> page_table_ s' !! p = None).
Proof.
  intros Hw Hr p x Hfd Hv Hx. destruct (flush_all_ok _ _ _ Hw Hr) as (Hw' & Hk & Hfl).
  pose proof (k_view _ _ _ Hk _ _ (fun H => H) Hv Hx) as Hx'.
  pose proof (k_pins _ _ _ Hk p (fun H => H)) as Hp. unfold view in Hx'.
  destruct (page_table_ s' !! p) as [f|] eqn:Ht; [|done].
  destruct (wf_resident _ _ _ _ Hw' Ht) as (pg & Hf & Hid & _).
  destruct (inv_table _ _ Hw' _ _ Ht) as (Hno & _).
  rewrite Hf in Hx'. injection Hx' as <-. subst p.
  destruct (Hfl f pg Hf Hfd Hno) as [Hpos Hd]. split; [done|].
  intros Hz. unfold pins in Hp at 1. rewrite Ht, Hf in Hp. simpl in Hp. lia.
Qed.

End laws.

(** ** Witnesses and an execution that loses a page

    A pool over the disk manager on the in-memory file system and the LRU
    replacer; descriptor 2 is a file of three pages, descriptor 1 an empty one. *)
Abbreviation pool := (t (DiskManager.t MemFs.t) LRUReplacer.t).

Definition demo_disk : DiskManager.t MemFs.t :=
  DiskManager.set_pagenos (<[2%nat := 3]> (DiskManager.fd2pageno_ DiskManager.demo)) DiskManager.demo.

Definition demo (n : nat) : pool := make n (fun _ => 0) demo_disk (LRUReplacer.make (Z.of_nat n)).

Lemma pool_demo_wf n : wf (demo n).
Proof.
  apply pool_wf_make; [|apply LRUReplacer.lru_wf_make|done].
  apply DiskManager.wf_set_pagenos; [apply DiskManager.disk_demo_wf|].
  rewrite length_insert. apply (DiskManager.wf_pagenos _ DiskManager.disk_demo_wf).
Qed.

Definition pg (i : Z) : PageId := mkPageId 2 i.

(** A history in which page 0 is written, evicted, and read again. *)
Definition demo_ops : list op :=
  [ Fetch (pg 0); Put (pg 0) (replicate page_size 5); Unpin (pg 0) true;
    Fetch (pg 1); Unpin (pg 1) false; New 1; Fetch (pg 2); Unpin (pg 2) true;
    Fetch (pg 0) ].

Lemma legal_run_cons {D R} `{DiskLaws D} `{ReplacerLaws R} (s : t D R) o l :
  legal s o -> legal_run l (step o s).1 -> legal_run (o :: l) s.
Proof.
  intros Hl Hls. split; [done|]. destruct (step o s) as [s' [e|x]]; [exact Hls|exact I].
Qed.

(** Evaluate the legality of a step of a concrete history. *)
Ltac legal_step :=
  lazymatch goal with
  | |- legal _ (Fetch _) =>
      cbn [legal]; split; [split; [eexists; vm_compute; reflexivity|vm_compute; discriminate]
                          |vm_compute; reflexivity]
  | |- legal _ (Put _ _) => cbn [legal]; split; [vm_compute; reflexivity|apply length_replicate]
  | |- legal _ (MarkDirty _) => cbn [legal]; vm_compute; reflexivity
  | |- legal _ (Unpin _ true) => let E := fresh in intros E; discriminate E
  | |- legal _ (Unpin _ false) =>
      cbn [legal]; intros _ _ f p Ht Hf _; vm_compute in Ht; injection Ht as <-; revert Hf;
      vm_compute; intros Hf; injection Hf as <-; reflexivity
  | |- legal _ (New _) =>
      cbn [legal]; split; [vm_compute; reflexivity
                          |split; [eexists; vm_compute; reflexivity|vm_compute; discriminate]]
  | |- legal _ _ => exact I
  end.

Lemma demo_legal : legal_run demo_ops (demo 2).
Proof.
  unfold demo_ops. repeat (apply legal_run_cons; [legal_step|]). exact I.
Qed.

(** Whether a run returned, and the data of the last fetch in it. *)
Definition last_fetch (es : list event) : option bytes :=
  match last es with Some (EFetch _ d) => Some d | _ => None end.

Lemma pool_transparent_witness :
  match run demo_ops (demo 2) with
  | (s', Ok es) => wf s' /\ consistent es (view (demo 2)) /\
      last_fetch es = Some (replicate page_size 5)
  | _ => False
  end.
Proof.
  destruct (run demo_ops (demo 2)) as [s' [es|e]] eqn:E.
  - destruct (pool_transparent (demo 2) s' demo_ops es (pool_demo_wf 2) demo_legal E) as [Hw Hc].
    split; [exact Hw|]. split; [exact Hc|].
    apply (f_equal (fun r => match r.2 with Ok es => last_fetch es | _ => None end)) in E.
    cbn [snd] in E. rewrite <- E. vm_compute. reflexivity.
  - apply (f_equal (fun r => match r.2 with Ok _ => true | _ => false end)) in E.
    cbn [snd] in E. vm_compute in E. discriminate E.
Defined.

(** Page 0 pinned by one user while another one works on page 1. *)
Definition demo_held : pool := (run [Fetch (pg 0)] (demo 2)).1.
Lemma demo_held_wf : wf demo_held.
Proof.
  assert (legal_run [Fetch (pg 0)] (demo 2)) as Hl by (apply legal_run_cons; [legal_step|exact I]).
  unfold demo_held. destruct (run [Fetch (pg 0)] (demo 2)) as [s' [es|e]] eqn:E.
  - by destruct (run_ok _ _ _ _ (view (demo 2)) (pool_demo_wf 2) Hl E (fun q x _ H => H)).
  - apply (f_equal (fun r => match r.2 with Ok _ => true | _ => false end)) in E.
    cbn [snd] in E. vm_compute in E. discriminate E.
Qed.

Lemma pinned_page_stays_witness :
  match step (Fetch (pg 1)) demo_held with
  | (s', Ok _) => page_table_ s' !! pg 0 = page_table_ demo_held !! pg 0 /\
                  pins demo_held (pg 0) <= pins s' (pg 0)
  | _ => False
  end.
Proof.
  destruct (step (Fetch (pg 1)) demo_held) as [s' [e|x]] eqn:E.
  - destruct (pinned_page_stays demo_held s' (Fetch (pg 1)) e (pg 0) demo_held_wf
      ltac:(legal_step) E ltac:(vm_compute; reflexivity) ltac:(intros b H; discriminate H))
      as (H1 & H2 & _). split; [exact H1|exact H2].
  - apply (f_equal (fun r => match r.2 with Ok _ => true | _ => false end)) in E.
    cbn [snd] in E. vm_compute in E. discriminate E.
Defined.

(** A pool of one frame, held. *)
Lemma fetch_null_iff_witness :
  match (run [Fetch (pg 0)] (demo 1)) with
  | (s, Ok _) => (fetch_page (pg 1) (demo 1)).2 = Ok (Some 0) /\ (fetch_page (pg 1) s).2 = Ok None /\
      (fetch_page (pg 0) s).2 = Ok (Some 0)
  | _ => False
  end /\
  match fetch_page (pg 1) (demo 1) with
  | (s', Ok r) => r <> None -> pins s' (pg 1) = 1
  | _ => False
  end.
Proof.
  split; [vm_compute; auto|].
  destruct (fetch_page (pg 1) (demo 1)) as [s' [r|e]] eqn:E.
  - destruct (fetch_null_iff (demo 1) s' (pg 1) r (pool_demo_wf 1)
      ltac:(split; [eexists; vm_compute; reflexivity|vm_compute; discriminate])
      ltac:(vm_compute; reflexivity) E) as (_ & _ & H). exact H.
  - apply (f_equal (fun r => match r.2 with Ok _ => true | _ => false end)) in E.
    cbn [snd] in E. vm_compute in E. discriminate E.
Defined.

(** Page 0 is changed, then the file is flushed. *)
Definition demo_dirty : pool := (run [Fetch (pg 0); Put (pg 0) (replicate page_size 5); Unpin (pg 0) true] (demo 2)).1.
Lemma demo_dirty_wf : wf demo_dirty.
Proof.
  assert (legal_run [Fetch (pg 0); Put (pg 0) (replicate page_size 5); Unpin (pg 0) true] (demo 2)) as Hl
    by (repeat (apply legal_run_cons; [legal_step|]); exact I).
  unfold demo_dirty. destruct (run _ (demo 2)) as [s' [es|e]] eqn:E.
  - by destruct (run_ok _ _ _ _ (view (demo 2)) (pool_demo_wf 2) Hl E (fun q x _ H => H)).
  - apply (f_equal (fun r => match r.2 with Ok _ => true | _ => false end)) in E.
    cbn [snd] in E. vm_compute in E. discriminate E.
Qed.

Lemma flush_all_persists_witness :
  match flush_all_pages 2 demo_dirty with
  | (s', Ok _) => dk_page (disk_manager_ s') (pg 0) = Some (replicate page_size 5) /\
                  page_table_ s' !! pg 0 = None
  | _ => False
  end.
Proof.
  destruct (flush_all_pages 2 demo_dirty) as [s' [[]|e]] eqn:E.
  - destruct (flush_all_persists demo_dirty s' 2 demo_dirty_wf E (pg 0) (replicate page_size 5) eq_refl
      ltac:(split; [eexists; vm_compute; reflexivity|vm_compute; discriminate])
      ltac:(vm_compute; reflexivity)) as [H1 H2].
    split; [exact H1|]. apply H2. vm_compute. reflexivity.
  - apply (f_equal (fun r => match r.2 with Ok _ => true | _ => false end)) in E.
    cbn [snd] in E. vm_compute in E. discriminate E.
Defined.

(** An exception in [fetch_page] can destroy a page.  When the read of the new
    page fails, the frame that was taken has left the free list and the replacer,
    its old page has left the page table, but the frame still has the old page's
    identifier over zeroed data; a later [flush_all_pages] of the file writes those
    zeros over the old page on disk.  Here: page 0 of a file of three pages, then a
    fetch of page 9 past its end. *)
Theorem failed_fetch_loses_page :
  let s1 := (step (Unpin (pg 0) false) (step (Fetch (pg 0)) (demo 1)).1).1 in
  let r := fetch_page (pg 9) s1 in
  let s3 := (flush_all_pages 2 r.1).1 in
  dk_page (disk_manager_ s1) (pg 0) = Some (replicate page_size 7) /\
  r.2 = Throw (InternalError "DiskManager::read_page Error") /\
  (fetch_page (pg 0) r.1).2 = Ok None /\
  dk_page (disk_manager_ s3) (pg 0) = Some zero_page.
Proof. vm_compute. auto. Qed.

End BufferPool.
