(* ===== verification/RmDefs.v ===== *)
(** * Record manager data

    [record/rm_defs.h]: the headers of a table file and of its pages, and the
    in-memory record [RmRecord]; [record/bitmap.h]. *)

From S2P Require Import Prelude Common.

Definition RM_NO_PAGE : Z := -1.
Definition RM_FILE_HDR_PAGE : Z := 0.
Definition RM_FIRST_RECORD_PAGE : Z := 1.
Definition RM_MAX_RECORD_SIZE : Z := 512.

(** [struct RmFileHdr]: six [int]s. *)
Record RmFileHdr := mkRmFileHdr {
  record_size : Z;
  num_pages : Z;
  num_records_per_page : Z;
  first_free_page_no : Z;
  bitmap_size : Z;
  hdr_lsn : Z;
}.
#[global] Instance RmFileHdr_eq_dec : EqDecision RmFileHdr.
Proof. solve_decision. Defined.

(** [sizeof(RmFileHdr)], and its bytes in memory, which the code writes to disk. *)
Definition sizeof_RmFileHdr : nat := 24.
Definition RmFileHdr_bytes (h : RmFileHdr) : bytes :=
  le_encode 4 (record_size h) ++ le_encode 4 (num_pages h) ++
  le_encode 4 (num_records_per_page h) ++ le_encode 4 (first_free_page_no h) ++
  le_encode 4 (bitmap_size h) ++ le_encode 4 (hdr_lsn h).
Definition RmFileHdr_of (b : bytes) : RmFileHdr :=
  mkRmFileHdr (load_i32 b 0) (load_i32 b 4) (load_i32 b 8) (load_i32 b 12) (load_i32 b 16) (load_i32 b 20).

(** [struct RmPageHdr]: two [int]s, at [OFFSET_PAGE_HDR] in a page. *)
Definition sizeof_RmPageHdr : nat := 8.

(** ** [RmRecord]

    [data] is [None] for the null pointer. *)
Record RmRecord := mkRmRecord {
  rec_data : option bytes;
  rec_size : Z;
  allocated_ : bool;
}.

Definition RmRecord_empty : RmRecord := mkRmRecord None 0 false.

(** [RmRecord(int size_, char *data_)]: a copy of the first [size_] bytes. *)
Definition RmRecord_new (size_ : Z) (data_ : bytes) : RmRecord :=
  mkRmRecord (Some (take (Z.to_nat size_) data_)) size_ true.

(** [RmRecord(const RmRecord &other)]. *)
Definition RmRecord_copy (other : RmRecord) : RmRecord :=
  mkRmRecord (take (Z.to_nat (rec_size other)) <$> rec_data other) (rec_size other) (allocated_ other).

(** [operator=] into a fresh record: the data is copied only if it was allocated
    by the record; otherwise the target keeps its null pointer. *)
Definition RmRecord_assign (other : RmRecord) : RmRecord :=
  mkRmRecord (if allocated_ other then rec_data other else None) (rec_size other) (allocated_ other).

(** [SetData]. *)
Definition RmRecord_SetData (data_ : bytes) (r : RmRecord) : RmRecord :=
  mkRmRecord (Some (take (Z.to_nat (rec_size r)) data_)) (rec_size r) (allocated_ r).

(** [Deserialize]: the size, then the bytes; [allocated_] is not set.  A negative
    size is an invalid array length. *)
Definition RmRecord_Deserialize (r : RmRecord) (src : bytes) (off : nat) : res RmRecord :=
  let size := load_i32 src off in
  if size <? 0 then Throw Stuck
  else Ok (mkRmRecord (Some (mem_read src (off + 4) (Z.to_nat size))) size (allocated_ r)).

(** ** [Bitmap]

    A bitmap is its bytes; bit [pos] is bit [7 - pos mod 8] of byte [pos / 8]. *)
Module Bitmap.

Definition BITMAP_WIDTH : Z := 8.
Definition BITMAP_HIGHEST_BIT : Z := 128.

Definition get_bucket (pos : Z) : nat := Z.to_nat (Z.quot pos BITMAP_WIDTH).
Definition get_bit (pos : Z) : Z := Z.shiftr BITMAP_HIGHEST_BIT (Z.rem pos BITMAP_WIDTH).

Definition init (size : Z) (bm : bytes) : bytes := mem_write bm 0 (replicate (Z.to_nat size) 0).
Definition set (pos : Z) (bm : bytes) : bytes :=
  alter (fun b => Z.lor b (get_bit pos)) (get_bucket pos) bm.
Definition reset (pos : Z) (bm : bytes) : bytes :=
  alter (fun b => Z.land b (255 - get_bit pos)) (get_bucket pos) bm.
Definition is_set (bm : bytes) (pos : Z) : bool :=
  negb (Z.land (default 0 (bm !! get_bucket pos)) (get_bit pos) =? 0).

(** The loop of [next_bit], from [i] up to [max_n]. *)
Fixpoint next_from (fuel : nat) (bit : bool) (bm : bytes) (max_n i : Z) : Z :=
  match fuel with
  | O => max_n
  | S fuel' =>
      if i <? max_n then
        if Bool.eqb (is_set bm i) bit then i else next_from fuel' bit bm max_n (i + 1)
      else max_n
  end.

(** As many steps as there are positions left. *)
Definition next_bit (bit : bool) (bm : bytes) (max_n curr : Z) : Z :=
  next_from (Z.to_nat (max_n - (curr + 1))) bit bm max_n (curr + 1).
Definition first_bit (bit : bool) (bm : bytes) (max_n : Z) : Z := next_bit bit bm max_n (-1).

(** *** Lemmas *)

Lemma get_bucket_of pos : 0 <= pos -> get_bucket pos = Z.to_nat (pos / 8).
Proof. intros H. unfold get_bucket, BITMAP_WIDTH. by rewrite Z.quot_div_nonneg by lia. Qed.

Lemma get_bit_of pos : 0 <= pos -> get_bit pos = 2 ^ (7 - pos mod 8).
Proof.
  intros H. unfold get_bit, BITMAP_WIDTH, BITMAP_HIGHEST_BIT.
  rewrite Z.rem_mod_nonneg by lia. pose proof (Z.mod_pos_bound pos 8 ltac:(lia)).
  change 128 with (2 ^ 7). rewrite Z.shiftr_div_pow2 by lia.
  rewrite <- Z.pow_sub_r by lia. done.
Qed.

Lemma land_pow2 b k : 0 <= k -> (Z.land b (2 ^ k) =? 0) = negb (Z.testbit b k).
Proof.
  intros Hk. destruct (Z.testbit b k) eqn:E; simpl.
  - apply Z.eqb_neq. intros H. assert (Z.testbit (Z.land b (2 ^ k)) k = true) as H'.
    { rewrite Z.land_spec, E, Z.pow2_bits_true by done. done. }
    rewrite H, Z.bits_0 in H'. done.
  - apply Z.eqb_eq, Z.bits_inj'. intros n Hn. rewrite Z.land_spec, Z.bits_0.
    destruct (Z.eq_dec n k) as [->|Hne]; [by rewrite E|].
    rewrite Z.pow2_bits_false by lia. by rewrite andb_false_r.
Qed.

(** A bit of the bitmap as a bit of a byte. *)
Lemma is_set_testbit bm pos :
  0 <= pos -> is_set bm pos = Z.testbit (default 0 (bm !! Z.to_nat (pos / 8))) (7 - pos mod 8).
Proof.
  intros H. unfold is_set. rewrite get_bucket_of, get_bit_of by done.
  pose proof (Z.mod_pos_bound pos 8 ltac:(lia)).
  rewrite land_pow2 by lia. by rewrite negb_involutive.
Qed.

Lemma pos_eq p q : 0 <= p -> 0 <= q ->
  Z.to_nat (p / 8) = Z.to_nat (q / 8) -> 7 - p mod 8 = 7 - q mod 8 -> p = q.
Proof.
  intros Hp Hq Hd Hm. rewrite (Z.div_mod p 8), (Z.div_mod q 8) by lia.
  assert (p / 8 = q / 8); [|lia].
  apply Z2Nat.inj; [apply Z.div_pos; lia..|done].
Qed.

Lemma is_set_set bm pos q :
  0 <= pos -> 0 <= q -> (Z.to_nat (pos / 8) < length bm)%nat ->
  is_set (set pos bm) q = if decide (q = pos) then true else is_set bm q.
Proof.
  intros Hp Hq Hl. rewrite !is_set_testbit by done. unfold set.
  rewrite get_bucket_of, get_bit_of by done. pose proof (Z.mod_pos_bound pos 8 ltac:(lia)).
  pose proof (Z.mod_pos_bound q 8 ltac:(lia)).
  destruct (decide (Z.to_nat (pos / 8) = Z.to_nat (q / 8))) as [E|E].
  - rewrite E, list_lookup_alter_eq. rewrite E in Hl.
    destruct (lookup_lt_is_Some_2 _ _ Hl) as [b ->]. simpl. rewrite Z.lor_spec.
    case_decide as Hd; [subst; rewrite Z.pow2_bits_true by lia; by rewrite orb_true_r|].
    rewrite Z.pow2_bits_false; [by rewrite orb_false_r|]. intros Hb. apply Hd.
    apply pos_eq; [done|done|done|lia].
  - rewrite list_lookup_alter_ne by done. rewrite decide_False; [done|]. by intros ->.
Qed.

Lemma is_set_reset bm pos q :
  0 <= pos -> 0 <= q ->
  is_set (reset pos bm) q = if decide (q = pos) then false else is_set bm q.
Proof.
  intros Hp Hq. rewrite !is_set_testbit by done. unfold reset.
  rewrite get_bucket_of, get_bit_of by done. pose proof (Z.mod_pos_bound pos 8 ltac:(lia)).
  pose proof (Z.mod_pos_bound q 8 ltac:(lia)).
  destruct (decide (Z.to_nat (pos / 8) = Z.to_nat (q / 8))) as [E|E].
  - rewrite E, list_lookup_alter_eq.
    destruct (bm !! Z.to_nat (q / 8)) as [b|]; simpl; [|rewrite !Z.bits_0; by case_decide].
    rewrite Z.land_spec.
    assert (Hbit : Z.testbit (255 - 2 ^ (7 - pos mod 8)) (7 - q mod 8) =
      negb (bool_decide (7 - pos mod 8 = 7 - q mod 8))).
    { assert (exists i, 7 - pos mod 8 = i /\ 0 <= i < 8) as (i & -> & Hi) by (eexists; split; [done|lia]).
      assert (exists j, 7 - q mod 8 = j /\ 0 <= j < 8) as (j & -> & Hj) by (eexists; split; [done|lia]).
      assert (i = 0 \/ i = 1 \/ i = 2 \/ i = 3 \/ i = 4 \/ i = 5 \/ i = 6 \/ i = 7) as Hi' by lia.
      assert (j = 0 \/ j = 1 \/ j = 2 \/ j = 3 \/ j = 4 \/ j = 5 \/ j = 6 \/ j = 7) as Hj' by lia.
      clear Hi Hj. repeat destruct Hi' as [->|Hi']; [..|subst i];
        (repeat destruct Hj' as [->|Hj']; [..|subst j]); reflexivity. }
    rewrite Hbit. destruct (decide (q = pos)) as [Hd|Hd].
    + subst. rewrite bool_decide_true by done. apply andb_false_r.
    + rewrite bool_decide_false; [apply andb_true_r|]. intros Hb. apply Hd.
      apply pos_eq; [done|done|done|lia].
  - rewrite list_lookup_alter_ne by done. rewrite decide_False; [done|]. by intros ->.
Qed.

Lemma length_set pos bm : length (set pos bm) = length bm.
Proof. apply length_alter. Qed.
Lemma length_reset pos bm : length (reset pos bm) = length bm.
Proof. apply length_alter. Qed.
#[export] Hint Rewrite length_set length_reset : len.

(** What the search returns. *)
Lemma next_from_spec fuel bit bm max_n i :
  (Z.to_nat (max_n - i) <= fuel)%nat ->
  let r := next_from fuel bit bm max_n i in
  (forall j, i <= j < Z.min r max_n -> is_set bm j <> bit) /\
  (r = max_n \/ i <= r < max_n /\ is_set bm r = bit).
Proof.
  revert i. induction fuel as [|fuel IH]; intros i Hf; simpl.
  - split; [intros; lia|by left].
  - destruct (Z.ltb_spec i max_n) as [Hi|Hi]; [|split; [lia|by left]].
    destruct (Bool.eqb (is_set bm i) bit) eqn:E.
    + apply eqb_prop in E. split; [lia|]. right. split; [lia|done].
    + apply eqb_false_iff in E. destruct (IH (i + 1)) as [H1 H2]; [lia|].
      split.
      * intros j Hj. destruct (Z.eq_dec j i) as [->|]; [done|apply H1; lia].
      * destruct H2 as [->|[? ?]]; [by left|right; split; [lia|done]].
Qed.

Lemma next_bit_spec bit bm max_n curr :
  let r := next_bit bit bm max_n curr in
  (forall j, curr + 1 <= j < Z.min r max_n -> is_set bm j <> bit) /\
  (r = max_n \/ curr + 1 <= r < max_n /\ is_set bm r = bit).
Proof. apply next_from_spec. lia. Qed.

End Bitmap.
