(* ===== verification/Log.v ===== *)
(** * The write-ahead log

    [recovery/log_defs.h], the log records of [recovery/log_manager.h] with their
    serialization, and Module [LogManager], the log buffer of [log_manager.cpp].
    [LogDisk] is what the log manager uses of the disk manager. *)

From S2P Require Import Prelude Common Posix Disk RmDefs.

(** ** [log_defs.h]: the layout of a header *)
Definition OFFSET_LOG_TYPE : nat := 0.
Definition OFFSET_LSN : nat := 4.
Definition OFFSET_LOG_TOT_LEN : nat := 8.
Definition OFFSET_LOG_TID : nat := 12.
Definition OFFSET_PREV_LSN : nat := 16.
Definition OFFSET_LOG_DATA : nat := 20.
Definition LOG_HEADER_SIZE : nat := OFFSET_LOG_DATA.

Inductive LogRecordType :=
  | UPDATE | INSERT | DELETE | BEGIN | COMMIT | ABORT | END | PAGE_SET | UNDO_NEXT
  | INDEX_PAGE | CREATE_INDEX | DROP_INDEX.
Definition LogRecordType_val (ty : LogRecordType) : Z :=
  match ty with
  | UPDATE => 0 | INSERT => 1 | DELETE => 2 | BEGIN => 3 | COMMIT => 4 | ABORT => 5
  | END => 6 | PAGE_SET => 7 | UNDO_NEXT => 8 | INDEX_PAGE => 9 | CREATE_INDEX => 10
  | DROP_INDEX => 11
  end.

(** ** Records *)

(** [class LogRecord].  The type field is the integer it holds, as recovery may
    read one that is no enumerator. *)
Record LogRecord := mkLogRecord {
  log_type_ : Z;
  lsn_ : Z;
  log_tot_len_ : Z;
  log_tid_ : Z;
  prev_lsn_ : Z;
}.
#[global] Instance LogRecord_eq_dec : EqDecision LogRecord.
Proof. solve_decision. Defined.

(** [log_tot_len_ += n], an unsigned 32-bit sum. *)
Definition add_len (n : nat) (h : LogRecord) : LogRecord :=
  mkLogRecord (log_type_ h) (lsn_ h) ((log_tot_len_ h + Z.of_nat n) mod 2 ^ 32) (log_tid_ h) (prev_lsn_ h).
Definition set_lsn (n : Z) (h : LogRecord) : LogRecord :=
  mkLogRecord (log_type_ h) n (log_tot_len_ h) (log_tid_ h) (prev_lsn_ h).

(** The part the constructors of the derived classes share. *)
Definition mk_header (ty : LogRecordType) (txn_id prev_lsn : Z) : LogRecord :=
  mkLogRecord (LogRecordType_val ty) INVALID_LSN (Z.of_nat LOG_HEADER_SIZE) txn_id prev_lsn.

Definition BeginLogRecord (txn_id prev_lsn : Z) : LogRecord := mk_header BEGIN txn_id prev_lsn.
Definition CommitLogRecord (txn_id prev_lsn : Z) : LogRecord := mk_header COMMIT txn_id prev_lsn.
Definition EndLogRecord (txn_id prev_lsn : Z) : LogRecord := mk_header END txn_id prev_lsn.
Definition AbortLogRecord (txn_id prev_lsn : Z) : LogRecord := mk_header ABORT txn_id prev_lsn.

(** [InsertLogRecord] and [DeleteLogRecord] have the same fields. *)
Record TupleLogRecord := mkTuple {
  tup_hdr : LogRecord;
  tup_value : RmRecord;
  tup_rid : Rid;
  tup_table_name : bytes;  (* with its NUL *)
  tup_table_name_size : Z;
  tup_undo_next : Z;
}.

Record UpdateLogRecord := mkUpdate {
  upd_hdr : LogRecord;
  old_value_ : RmRecord;
  new_value_ : RmRecord;
  upd_rid : Rid;
  upd_table_name : bytes;
  upd_table_name_size : Z;
  upd_undo_next : Z;
}.

Record PageLogRecord := mkPageLog {
  pg_hdr : LogRecord;
  pg_tab_name : string;
  pg_page_no : Z;      (* a [size_t] *)
  old_page : bytes;
  new_page : option bytes;
}.

Record UndoNextLogRecord := mkUndoNext { un_hdr : LogRecord; un_undo_next : Z }.

Record IndexPagesLogRecord := mkIndexPages {
  ip_hdr : LogRecord;
  idx_name : string;
  page_ids : list PageId;
  ip_pages : list bytes;
  hdr_len : Z;
  file_hdr : option bytes;
}.

(** [CreateIndexLogRecord] and [DropIndexLogRecord] have the same fields. *)
Record IndexLogRecord := mkIndexLog {
  ix_hdr : LogRecord;
  ix_tab_name : string;
  ix_col_names : list string;
}.

(** *** Constructors *)

Definition size_bytes (r : RmRecord) : nat := Z.to_nat (rec_size r).
Definition c_string (s : string) : bytes := str_bytes s ++ [0].

Definition new_tuple (ty : LogRecordType) (txn_id prev_lsn : Z) (value : RmRecord) (rid : Rid)
    (table_name : string) : TupleLogRecord :=
  let h := mk_header ty txn_id prev_lsn in
  let h := add_len 4 h in
  let h := add_len (size_bytes value) h in
  let h := add_len 8 h in
  let name := c_string table_name in
  mkTuple (add_len (8 + length name) h) (RmRecord_assign value) rid name
    (Z.of_nat (length name)) (-1).
Definition InsertLogRecord := new_tuple INSERT.
Definition DeleteLogRecord := new_tuple DELETE.

Definition new_UpdateLogRecord (txn_id prev_lsn : Z) (new_value old_value : RmRecord) (rid : Rid)
    (table_name : string) : UpdateLogRecord :=
  let h := mk_header UPDATE txn_id prev_lsn in
  let h := add_len (2 * 4) h in
  let h := add_len (size_bytes old_value) h in
  let h := add_len (size_bytes new_value) h in
  let h := add_len 8 h in
  let name := c_string table_name in
  mkUpdate (add_len (8 + length name) h) (RmRecord_assign old_value) (RmRecord_assign new_value) rid
    name (Z.of_nat (length name)) (-1).

(** [old_data_] is a pointer: the page is a copy of [PAGE_SIZE] bytes from there. *)
Definition new_PageLogRecord (txn_id prev_lsn : Z) (tab_name_ : string) (page_no_ : Z)
    (old_data_ : bytes) : PageLogRecord :=
  let h := mk_header PAGE_SET txn_id prev_lsn in
  let h := add_len 8 h in
  let h := add_len (length (str_bytes tab_name_)) h in
  let h := add_len 8 h in
  mkPageLog (add_len (2 * page_size) h) tab_name_ (page_no_ mod 2 ^ 64) (take page_size old_data_) None.

Definition set_new_page (src : bytes) (r : PageLogRecord) : PageLogRecord :=
  mkPageLog (pg_hdr r) (pg_tab_name r) (pg_page_no r) (old_page r) (Some (take page_size src)).

Definition new_UndoNextLogRecord (txn_id prev_lsn undo_next_ : Z) : UndoNextLogRecord :=
  mkUndoNext (add_len 4 (mk_header UNDO_NEXT txn_id prev_lsn)) undo_next_.

Definition new_IndexPagesLogRecord (txn_id prev_lsn : Z) (idx_name_ : string) : IndexPagesLogRecord :=
  mkIndexPages (add_len (8 + length (str_bytes idx_name_) + 8) (mk_header INDEX_PAGE txn_id prev_lsn))
    idx_name_ [] [] 0 None.

(** [add_page], given the page's identifier and data. *)
Definition add_page (p : PageId) (data : bytes) (r : IndexPagesLogRecord) : IndexPagesLogRecord :=
  mkIndexPages (add_len (page_size + 8) (ip_hdr r)) (idx_name r) (page_ids r ++ [p])
    (ip_pages r ++ [data]) (hdr_len r) (file_hdr r).

Definition add_file_hdr (hdr : bytes) (len : Z) (r : IndexPagesLogRecord) : IndexPagesLogRecord :=
  mkIndexPages (add_len (4 + Z.to_nat len) (ip_hdr r)) (idx_name r) (page_ids r) (ip_pages r)
    len (Some (take (Z.to_nat len) hdr)).

Definition new_IndexLogRecord (ty : LogRecordType) (txn_id prev_lsn : Z) (tab_name_ : string)
    (col_names_ : list string) : IndexLogRecord :=
  let h := mk_header ty txn_id prev_lsn in
  let h := add_len ((length col_names_ + 2) * 8) h in
  let h := add_len (length col_names_) h in
  mkIndexLog (fold_left (fun h col => add_len (length (str_bytes col)) h) col_names_ h)
    tab_name_ col_names_.
Definition CreateIndexLogRecord := new_IndexLogRecord CREATE_INDEX.
Definition DropIndexLogRecord := new_IndexLogRecord DROP_INDEX.

(** A [LogRecord *]. *)
Inductive log_record :=
  | LBase (h : LogRecord)   (* begin, commit, abort and end *)
  | LTuple (r : TupleLogRecord)
  | LUpdate (r : UpdateLogRecord)
  | LPage (r : PageLogRecord)
  | LUndoNext (r : UndoNextLogRecord)
  | LIndexPages (r : IndexPagesLogRecord)
  | LIndex (r : IndexLogRecord).

Definition header (r : log_record) : LogRecord :=
  match r with
  | LBase h => h
  | LTuple r => tup_hdr r
  | LUpdate r => upd_hdr r
  | LPage r => pg_hdr r
  | LUndoNext r => un_hdr r
  | LIndexPages r => ip_hdr r
  | LIndex r => ix_hdr r
  end.

Definition with_header (h : LogRecord) (r : log_record) : log_record :=
  match r with
  | LBase _ => LBase h
  | LTuple r => LTuple (mkTuple h (tup_value r) (tup_rid r) (tup_table_name r)
                          (tup_table_name_size r) (tup_undo_next r))
  | LUpdate r => LUpdate (mkUpdate h (old_value_ r) (new_value_ r) (upd_rid r) (upd_table_name r)
                          (upd_table_name_size r) (upd_undo_next r))
  | LPage r => LPage (mkPageLog h (pg_tab_name r) (pg_page_no r) (old_page r) (new_page r))
  | LUndoNext r => LUndoNext (mkUndoNext h (un_undo_next r))
  | LIndexPages r => LIndexPages (mkIndexPages h (idx_name r) (page_ids r) (ip_pages r) (hdr_len r) (file_hdr r))
  | LIndex r => LIndex (mkIndexLog h (ix_tab_name r) (ix_col_names r))
  end.

(** ** Serialization

    The [memcpy]s of a [serialize], as chunks at offsets from [dest]; [lay] is the
    running [offset] of the code. *)
Fixpoint lay (offset : nat) (l : list bytes) : list (nat * bytes) :=
  match l with
  | [] => []
  | b :: l' => (offset, b) :: lay (offset + length b) l'
  end.

Definition serialize_header (h : LogRecord) : list (nat * bytes) :=
  [ (OFFSET_LOG_TYPE, le_encode 4 (log_type_ h)); (OFFSET_LSN, le_encode 4 (lsn_ h));
    (OFFSET_LOG_TOT_LEN, le_encode 4 (log_tot_len_ h)); (OFFSET_LOG_TID, le_encode 4 (log_tid_ h));
    (OFFSET_PREV_LSN, le_encode 4 (prev_lsn_ h)) ].

Definition rid_bytes (r : Rid) : bytes := le_encode 4 (rid_page_no r) ++ le_encode 4 (rid_slot_no r).
Definition PageId_bytes (p : PageId) : bytes := le_encode 4 (fd p) ++ le_encode 4 (page_no p).

(** The [size] bytes of the data of a record. *)
Definition value_bytes (r : RmRecord) : bytes := take (size_bytes r) (default [] (rec_data r)).

Definition serialize_tuple (r : TupleLogRecord) : list (nat * bytes) :=
  serialize_header (tup_hdr r) ++
  lay OFFSET_LOG_DATA
    [ le_encode 4 (rec_size (tup_value r)); value_bytes (tup_value r); rid_bytes (tup_rid r);
      le_encode 8 (tup_table_name_size r); tup_table_name r; le_encode 4 (tup_undo_next r) ].

Definition serialize_update (r : UpdateLogRecord) : list (nat * bytes) :=
  serialize_header (upd_hdr r) ++
  lay OFFSET_LOG_DATA
    [ le_encode 4 (rec_size (old_value_ r)); value_bytes (old_value_ r);
      le_encode 4 (rec_size (new_value_ r)); value_bytes (new_value_ r); rid_bytes (upd_rid r);
      le_encode 8 (upd_table_name_size r); upd_table_name r; le_encode 4 (upd_undo_next r) ].

Definition serialize_page (r : PageLogRecord) (new : bytes) : list (nat * bytes) :=
  serialize_header (pg_hdr r) ++
  lay LOG_HEADER_SIZE
    [ le_encode 8 (Z.of_nat (length (str_bytes (pg_tab_name r)))); str_bytes (pg_tab_name r);
      le_encode 8 (pg_page_no r); old_page r; new ].

Definition serialize_undo_next (r : UndoNextLogRecord) : list (nat * bytes) :=
  serialize_header (un_hdr r) ++ lay LOG_HEADER_SIZE [ le_encode 4 (un_undo_next r) ].

Definition serialize_index (r : IndexLogRecord) : list (nat * bytes) :=
  serialize_header (ix_hdr r) ++
  lay LOG_HEADER_SIZE
    ([ le_encode 8 (Z.of_nat (length (str_bytes (ix_tab_name r)))); str_bytes (ix_tab_name r);
       le_encode 8 (Z.of_nat (length (ix_col_names r))) ] ++
     concat ((fun col => [le_encode 8 (Z.of_nat (length (str_bytes col))); str_bytes col])
               <$> ix_col_names r)).

(** The page identifiers and [hdr_len] are copied to [dest], not to
    [dest + offset]. *)
Definition serialize_index_pages (r : IndexPagesLogRecord) : list (nat * bytes) * res unit :=
  let name := str_bytes (idx_name r) in
  let start := [ le_encode 8 (Z.of_nat (length name)); name;
                 le_encode 8 (Z.of_nat (length (ip_pages r))) ] in
  let offset := (LOG_HEADER_SIZE + length (concat start))%nat in
  let ids := (fun p => (0%nat, PageId_bytes p)) <$> page_ids r in
  let offset := (offset + 8 * length (page_ids r))%nat in
  let pages := lay offset (ip_pages r) in
  let offset := (offset + length (concat (ip_pages r)))%nat in
  let len := [(0%nat, le_encode 4 (hdr_len r))] in
  let offset := (offset + 4)%nat in
  let written := serialize_header (ip_hdr r) ++ lay LOG_HEADER_SIZE start ++ ids ++ pages ++ len in
  match file_hdr r with
  | None => (written, Throw (InternalError "no file hdr in index pages log"))
  | Some h => (written ++ [(offset, h)], Ok tt)
  end.

(** The virtual call.  Copying from a null pointer is undefined. *)
Definition serialize (r : log_record) : list (nat * bytes) * res unit :=
  match r with
  | LBase h => (serialize_header h, Ok tt)
  | LTuple r =>
      (serialize_tuple r, if decide (rec_data (tup_value r) = None) then Throw Stuck else Ok tt)
  | LUpdate r =>
      (serialize_update r,
       if decide (rec_data (old_value_ r) = None \/ rec_data (new_value_ r) = None)
       then Throw Stuck else Ok tt)
  | LPage r =>
      match new_page r with
      | None => ([], Throw Stuck)
      | Some new => (serialize_page r new, Ok tt)
      end
  | LUndoNext r => (serialize_undo_next r, Ok tt)
  | LIndexPages r => serialize_index_pages r
  | LIndex r => (serialize_index r, Ok tt)
  end.

(** ** Deserialization

    [src] is the memory from the pointer on. *)

Definition deserialize_header (src : bytes) : LogRecord :=
  mkLogRecord (load_i32 src 0) (load_i32 src OFFSET_LSN) (load_u32 src OFFSET_LOG_TOT_LEN)
    (load_i32 src OFFSET_LOG_TID) (load_i32 src OFFSET_PREV_LSN).

Definition load_rid (src : bytes) (o : nat) : Rid := mkRid (load_i32 src o) (load_i32 src (o + 4)).

Definition deserialize_tuple (src : bytes) : res TupleLogRecord :=
  match RmRecord_Deserialize RmRecord_empty src OFFSET_LOG_DATA with
  | Throw e => Throw e
  | Ok v =>
      let offset := (OFFSET_LOG_DATA + size_bytes v + 4)%nat in
      let rid := load_rid src offset in
      let offset := (offset + 8)%nat in
      let tns := load_u64 src offset in
      let offset := (offset + 8)%nat in
      let name := mem_read src offset (Z.to_nat tns) in
      let offset := (offset + Z.to_nat tns)%nat in
      Ok (mkTuple (deserialize_header src) v rid name tns (load_i32 src offset))
  end.

Definition deserialize_update (src : bytes) : res UpdateLogRecord :=
  match RmRecord_Deserialize RmRecord_empty src OFFSET_LOG_DATA with
  | Throw e => Throw e
  | Ok old =>
      let offset := (OFFSET_LOG_DATA + size_bytes old + 4)%nat in
      match RmRecord_Deserialize RmRecord_empty src offset with
      | Throw e => Throw e
      | Ok new =>
          let offset := (offset + size_bytes new + 4)%nat in
          let rid := load_rid src offset in
          let offset := (offset + 8)%nat in
          let tns := load_u64 src offset in
          let offset := (offset + 8)%nat in
          let name := mem_read src offset (Z.to_nat tns) in
          let offset := (offset + Z.to_nat tns)%nat in
          Ok (mkUpdate (deserialize_header src) old new rid name tns (load_i32 src offset))
      end
  end.

(** The name ends at its first NUL, as it goes through a [char *]. *)
Definition load_string (src : bytes) (o n : nat) : string := bytes_str (c_str (mem_read src o n)).

Definition deserialize_page (src : bytes) : PageLogRecord :=
  let offset := LOG_HEADER_SIZE in
  let n := Z.to_nat (load_u64 src offset) in
  let offset := (offset + 8)%nat in
  let name := load_string src offset n in
  let offset := (offset + n)%nat in
  let pno := load_u64 src offset in
  let offset := (offset + 8)%nat in
  let old := mem_read src offset page_size in
  let offset := (offset + page_size)%nat in
  mkPageLog (deserialize_header src) name pno old (Some (mem_read src offset page_size)).

Definition deserialize_undo_next (src : bytes) : UndoNextLogRecord :=
  mkUndoNext (deserialize_header src) (load_i32 src LOG_HEADER_SIZE).

(** The loop over the column names. *)
Fixpoint load_cols (n : nat) (src : bytes) (offset : nat) : list string :=
  match n with
  | O => []
  | S n' =>
      let len := Z.to_nat (load_u64 src offset) in
      let offset := (offset + 8)%nat in
      load_string src offset len :: load_cols n' src (offset + len)
  end.

Definition deserialize_index (src : bytes) : IndexLogRecord :=
  let offset := LOG_HEADER_SIZE in
  let len := Z.to_nat (load_u64 src offset) in
  let offset := (offset + 8)%nat in
  let name := load_string src offset len in
  let offset := (offset + len)%nat in
  let n := Z.to_nat (load_u64 src offset) in
  mkIndexLog (deserialize_header src) name (load_cols n src (offset + 8)).

Fixpoint load_page_ids (n : nat) (src : bytes) (offset : nat) : list PageId :=
  match n with
  | O => []
  | S n' => mkPageId (load_i32 src offset) (load_i32 src (offset + 4)) :: load_page_ids n' src (offset + 8)
  end.
Fixpoint load_pages (n : nat) (src : bytes) (offset : nat) : list bytes :=
  match n with
  | O => []
  | S n' => mem_read src offset page_size :: load_pages n' src (offset + page_size)
  end.

(** [file_hdr] gets [hdr_len] bytes and [PAGE_SIZE] are copied into it. *)
Definition deserialize_index_pages (src : bytes) : res IndexPagesLogRecord :=
  let offset := LOG_HEADER_SIZE in
  let len := Z.to_nat (load_u64 src offset) in
  let offset := (offset + 8)%nat in
  let name := load_string src offset len in
  let offset := (offset + len)%nat in
  let n := Z.to_nat (load_u64 src offset) in
  let offset := (offset + 8)%nat in
  let ids := load_page_ids n src offset in
  let offset := (offset + 8 * n)%nat in
  let pages := load_pages n src offset in
  let offset := (offset + n * page_size)%nat in
  let hl := load_i32 src offset in
  let offset := (offset + 4)%nat in
  if hl <? PAGE_SIZE then Throw Stuck
  else Ok (mkIndexPages (deserialize_header src) name ids pages hl (Some (mem_read src offset (Z.to_nat hl)))).

(** ** Lengths and round trips *)

Lemma length_header h : length (concat (serialize_header h).*2) = LOG_HEADER_SIZE.
Proof. reflexivity. Qed.

Lemma lay_snd o l : (lay o l).*2 = l.
Proof. revert o. induction l as [|b l IH]; intros o; simpl; [done|]. by rewrite IH. Qed.

Lemma tiles_app o ws1 ws2 :
  tiles o ws1 -> tiles (o + length (concat ws1.*2)) ws2 -> tiles o (ws1 ++ ws2).
Proof.
  revert o. induction ws1 as [|[o' b] ws1 IH]; intros o; [by rewrite Nat.add_0_r|].
  rewrite fmap_cons. cbn [tiles concat fst snd app]. rewrite length_app, Nat.add_assoc.
  intros [-> H1] H2. split; [done|]. by apply IH.
Qed.

Lemma tiles_lay o l : tiles o (lay o l).
Proof. revert o. induction l as [|b l IH]; intros o; simpl; auto. Qed.

Lemma tiles_record h l : tiles 0 (serialize_header h ++ lay LOG_HEADER_SIZE l).
Proof.
  apply tiles_app; [|by rewrite length_header; apply tiles_lay].
  by repeat split.
Qed.

(** The bytes of a record, where its chunks follow each other. *)
Definition pieces (h : LogRecord) (l : list bytes) : list bytes :=
  [ le_encode 4 (log_type_ h); le_encode 4 (lsn_ h); le_encode 4 (log_tot_len_ h);
    le_encode 4 (log_tid_ h); le_encode 4 (prev_lsn_ h) ] ++ l.

Lemma record_pieces h l : (serialize_header h ++ lay LOG_HEADER_SIZE l).*2 = pieces h l.
Proof. rewrite fmap_app, lay_snd. done. Qed.

(** The memory at a pointer where a record was serialized. *)
Definition src_of (m : bytes) (base : nat) (ws : list (nat * bytes)) : bytes :=
  drop base (apply_writes m base ws).

Section roundtrip.
Context (m : bytes) (base : nat) (h : LogRecord) (l : list bytes) (ws : list (nat * bytes)).
Context (Hws : ws = serialize_header h ++ lay LOG_HEADER_SIZE l).
Context (Hfit : (base + length (concat (pieces h l)) <= length m)%nat).

Lemma src_block : src_of m base ws = drop base (mem_write m base (concat (pieces h l))).
Proof.
  unfold src_of. rewrite Hws, (apply_writes_tiles _ _ _ 0); rewrite ?record_pieces; [|apply tiles_record|lia].
  by rewrite Nat.add_0_r.
Qed.

(** Reading the [k]-th piece. *)
Lemma src_piece k b o n :
  pieces h l !! k = Some b -> o = length (concat (take k (pieces h l))) -> n = length b ->
  mem_read (src_of m base ws) o n = b.
Proof.
  intros Hk -> ->. rewrite src_block.
  assert (E : pieces h l = take k (pieces h l) ++ b :: drop (S k) (pieces h l))
    by (by rewrite take_drop_middle).
  assert (El : length (concat (pieces h l)) = (length (concat (take k (pieces h l))) +
    (length b + length (concat (drop (S k) (pieces h l)))))%nat).
  { rewrite E at 1. rewrite concat_app, length_app. cbn [concat]. by rewrite length_app. }
  rewrite mem_read_block; [|lia|done].
  transitivity (mem_read (concat (take k (pieces h l) ++ b :: drop (S k) (pieces h l)))
    (length (concat (take k (pieces h l)))) (length b)); [by rewrite <- E|].
  by apply mem_read_concat.
Qed.

Definition header_ok : Prop :=
  in_i32 (log_type_ h) /\ in_i32 (lsn_ h) /\ in_u32 (log_tot_len_ h) /\ in_i32 (log_tid_ h) /\
  in_i32 (prev_lsn_ h).

Lemma src_header : header_ok -> deserialize_header (src_of m base ws) = h.
Proof.
  intros (H1 & H2 & H3 & H4 & H5).
  unfold deserialize_header, load_i32, load_u32, OFFSET_LSN, OFFSET_LOG_TOT_LEN, OFFSET_LOG_TID, OFFSET_PREV_LSN.
  rewrite (src_piece 0 _ _ _ eq_refl), (src_piece 1 _ _ _ eq_refl), (src_piece 2 _ _ _ eq_refl),
    (src_piece 3 _ _ _ eq_refl), (src_piece 4 _ _ _ eq_refl)
    by reflexivity.
  rewrite !i32_decode_encode, u32_decode_encode by done. by destruct h.
Qed.
End roundtrip.

(** *** Each kind of record reads back as it was *)

Definition value_ok (v : RmRecord) : Prop :=
  exists d, rec_data v = Some d /\ rec_size v = Z.of_nat (length d) /\ in_i32 (rec_size v).
Definition rid_ok (r : Rid) : Prop := in_i32 (rid_page_no r) /\ in_i32 (rid_slot_no r).
Definition name_ok (s : string) : Prop := nul_free s /\ in_u64 (Z.of_nat (length (str_bytes s))).

(** Fields in the range of their types, sizes that are those of the data. *)
Definition rec_ok (r : log_record) : Prop :=
  header_ok (header r) /\
  match r with
  | LBase _ => True
  | LTuple r => value_ok (tup_value r) /\ rid_ok (tup_rid r) /\ in_i32 (tup_undo_next r) /\
      tup_table_name_size r = Z.of_nat (length (tup_table_name r)) /\ in_u64 (tup_table_name_size r)
  | LUpdate r => value_ok (old_value_ r) /\ value_ok (new_value_ r) /\ rid_ok (upd_rid r) /\
      in_i32 (upd_undo_next r) /\
      upd_table_name_size r = Z.of_nat (length (upd_table_name r)) /\ in_u64 (upd_table_name_size r)
  | LPage r => name_ok (pg_tab_name r) /\ in_u64 (pg_page_no r) /\ length (old_page r) = page_size /\
      exists p, new_page r = Some p /\ length p = page_size
  | LUndoNext r => in_i32 (un_undo_next r)
  | LIndexPages _ => False
  | LIndex r => name_ok (ix_tab_name r) /\ in_u64 (Z.of_nat (length (ix_col_names r))) /\
      Forall name_ok (ix_col_names r)
  end.

(** What deserialization of the record's memory gives: the record; the copies of
    tuples do not own their data. *)
Definition unowned (v : RmRecord) : RmRecord := mkRmRecord (rec_data v) (rec_size v) false.
Definition reads_back (r : log_record) (src : bytes) : Prop :=
  match r with
  | LBase h => deserialize_header src = h
  | LTuple r => deserialize_tuple src =
      Ok (mkTuple (tup_hdr r) (unowned (tup_value r)) (tup_rid r) (tup_table_name r)
            (tup_table_name_size r) (tup_undo_next r))
  | LUpdate r => deserialize_update src =
      Ok (mkUpdate (upd_hdr r) (unowned (old_value_ r)) (unowned (new_value_ r)) (upd_rid r)
            (upd_table_name r) (upd_table_name_size r) (upd_undo_next r))
  | LPage r => deserialize_page src = r
  | LUndoNext r => deserialize_undo_next src = r
  | LIndexPages _ => True
  | LIndex r => deserialize_index src = r
  end.

(** Solve the offset of a piece. *)
Ltac offset :=
  unfold LOG_HEADER_SIZE, OFFSET_LOG_DATA, rid_bytes, size_bytes, pieces;
  cbn [take app concat rec_size]; rewrite ?length_app, ?length_le_encode; cbn [length]; lia.

Lemma value_bytes_ok v d :
  rec_data v = Some d -> rec_size v = Z.of_nat (length d) -> value_bytes v = d /\ size_bytes v = length d.
Proof.
  intros Hd Hs. unfold value_bytes, size_bytes. rewrite Hd, Hs, Nat2Z.id. simpl.
  by rewrite take_ge by lia.
Qed.

Lemma load_rid_bytes src o r :
  mem_read src o 8 = rid_bytes r -> rid_ok r -> load_rid src o = r.
Proof.
  intros Hr [H1 H2]. unfold load_rid, load_i32.
  rewrite <- (mem_read_read src o 8 4 4) by lia. rewrite <- (Nat.add_0_r o) at 1.
  rewrite <- (mem_read_read src o 8 0 4) by lia. rewrite Hr.
  change (mem_read (rid_bytes r) 0 4) with (le_encode 4 (rid_page_no r)).
  change (mem_read (rid_bytes r) 4 4) with (le_encode 4 (rid_slot_no r)).
  rewrite !i32_decode_encode by done. by destruct r.
Qed.

Lemma Deserialize_ok src o d :
  in_i32 (Z.of_nat (length d)) -> mem_read src o 4 = le_encode 4 (Z.of_nat (length d)) ->
  mem_read src (o + 4) (length d) = d ->
  RmRecord_Deserialize RmRecord_empty src o = Ok (mkRmRecord (Some d) (Z.of_nat (length d)) false).
Proof.
  intros Hi H1 H2. unfold RmRecord_Deserialize, load_i32. rewrite H1, i32_decode_encode by done.
  destruct (Z.ltb_spec (Z.of_nat (length d)) 0); [lia|]. by rewrite Nat2Z.id, H2.
Qed.

Section kinds.
Context (m : bytes) (base : nat).
Implicit Types (ws : list (nat * bytes)).

Lemma tuple_back r :
  rec_ok (LTuple r) -> (base + length (concat (serialize_tuple r).*2) <= length m)%nat ->
  reads_back (LTuple r) (src_of m base (serialize_tuple r)).
Proof.
  intros (Hh & (d & Hd & Hs & Hi) & Hr & Hu & Hn & Hn64) Hl.
  destruct (value_bytes_ok _ _ Hd Hs) as [Hv _].
  unfold serialize_tuple in *. change OFFSET_LOG_DATA with LOG_HEADER_SIZE in *.
  rewrite record_pieces in Hl. rewrite Hv in *.
  pose proof (src_piece m base _ _ _ eq_refl Hl) as P.
  unfold reads_back, deserialize_tuple. change OFFSET_LOG_DATA with LOG_HEADER_SIZE.
  rewrite (Deserialize_ok _ _ d); cycle 1.
  { by rewrite <- Hs. }
  { rewrite (P 5%nat _ _ _ eq_refl) by offset. by rewrite Hs. }
  { by rewrite (P 6%nat _ _ _ eq_refl) by offset. }
  assert (load_u64 (src_of m base (serialize_header (tup_hdr r) ++
    lay LOG_HEADER_SIZE [le_encode 4 (rec_size (tup_value r)); d; rid_bytes (tup_rid r);
       le_encode 8 (tup_table_name_size r); tup_table_name r; le_encode 4 (tup_undo_next r)]))
    (LOG_HEADER_SIZE + size_bytes (mkRmRecord (Some d) (Z.of_nat (length d)) false) + 4 + 8)
    = Z.of_nat (length (tup_table_name r))) as ->.
  { unfold load_u64. rewrite (P 8%nat _ _ _ eq_refl) by offset. by rewrite u64_decode_encode. }
  rewrite Nat2Z.id. f_equal. f_equal; [..|done|].
  - by apply (src_header m base _ _ _ eq_refl Hl).
  - unfold unowned. by rewrite Hd, Hs.
  - apply load_rid_bytes; [|done]. by rewrite (P 7%nat _ _ _ eq_refl) by offset.
  - by rewrite (P 9%nat _ _ _ eq_refl) by offset.
  - unfold load_i32. rewrite (P 10%nat _ _ _ eq_refl) by offset. by apply i32_decode_encode.
Qed.

Lemma update_back r :
  rec_ok (LUpdate r) -> (base + length (concat (serialize_update r).*2) <= length m)%nat ->
  reads_back (LUpdate r) (src_of m base (serialize_update r)).
Proof.
  intros (Hh & (d & Hd & Hs & Hi) & (d' & Hd' & Hs' & Hi') & Hr & Hu & Hn & Hn64) Hl.
  destruct (value_bytes_ok _ _ Hd Hs) as [Hv _]. destruct (value_bytes_ok _ _ Hd' Hs') as [Hv' _].
  unfold serialize_update in *. change OFFSET_LOG_DATA with LOG_HEADER_SIZE in *.
  rewrite record_pieces in Hl. rewrite Hv, Hv' in *.
  pose proof (src_piece m base _ _ _ eq_refl Hl) as P.
  unfold reads_back, deserialize_update. change OFFSET_LOG_DATA with LOG_HEADER_SIZE.
  rewrite (Deserialize_ok _ _ d); cycle 1.
  { by rewrite <- Hs. }
  { rewrite (P 5%nat _ _ _ eq_refl) by offset. by rewrite Hs. }
  { by rewrite (P 6%nat _ _ _ eq_refl) by offset. }
  rewrite (Deserialize_ok _ _ d'); cycle 1.
  { by rewrite <- Hs'. }
  { rewrite (P 7%nat _ _ _ eq_refl) by offset. by rewrite Hs'. }
  { by rewrite (P 8%nat _ _ _ eq_refl) by offset. }
  match goal with |- context [load_u64 ?src ?o] =>
    assert (load_u64 src o = Z.of_nat (length (upd_table_name r))) as -> end.
  { unfold load_u64. rewrite (P 10%nat _ _ _ eq_refl) by offset. by rewrite u64_decode_encode. }
  rewrite Nat2Z.id. f_equal. f_equal; [..|done|].
  - by apply (src_header m base _ _ _ eq_refl Hl).
  - unfold unowned. by rewrite Hd, Hs.
  - unfold unowned. by rewrite Hd', Hs'.
  - apply load_rid_bytes; [|done]. by rewrite (P 9%nat _ _ _ eq_refl) by offset.
  - by rewrite (P 11%nat _ _ _ eq_refl) by offset.
  - unfold load_i32. rewrite (P 12%nat _ _ _ eq_refl) by offset. by apply i32_decode_encode.
Qed.

Lemma load_string_ok src o s :
  nul_free s -> mem_read src o (length (str_bytes s)) = str_bytes s ->
  load_string src o (length (str_bytes s)) = s.
Proof. intros Hs Hm. unfold load_string. by rewrite Hm, c_str_id, bytes_str_bytes. Qed.

Lemma page_back r new :
  rec_ok (LPage r) -> new_page r = Some new ->
  (base + length (concat (serialize_page r new).*2) <= length m)%nat ->
  reads_back (LPage r) (src_of m base (serialize_page r new)).
Proof.
  intros (Hh & [Hnul Hn64] & Hp & Hold & (p & Hnew & Hlp)) Hnp Hl.
  rewrite Hnew in Hnp. injection Hnp as <-.
  unfold serialize_page in *. rewrite record_pieces in Hl.
  pose proof (src_piece m base _ _ _ eq_refl Hl) as P.
  unfold reads_back, deserialize_page.
  match goal with |- context [load_u64 ?src LOG_HEADER_SIZE] =>
    assert (load_u64 src LOG_HEADER_SIZE = Z.of_nat (length (str_bytes (pg_tab_name r)))) as -> end.
  { unfold load_u64. rewrite (P 5%nat _ _ _ eq_refl) by offset. by apply u64_decode_encode. }
  rewrite Nat2Z.id.
  transitivity (mkPageLog (pg_hdr r) (pg_tab_name r) (pg_page_no r) (old_page r) (new_page r));
    [f_equal|by destruct r].
  - by apply (src_header m base _ _ _ eq_refl Hl).
  - apply load_string_ok; [done|]. by rewrite (P 6%nat _ _ _ eq_refl) by offset.
  - unfold load_u64. rewrite (P 7%nat _ _ _ eq_refl) by offset. by apply u64_decode_encode.
  - by rewrite (P 8%nat _ _ _ eq_refl) by (rewrite ?Hold; offset).
  - rewrite Hnew. f_equal. by rewrite (P 9%nat _ _ _ eq_refl) by (rewrite <- ?Hold, ?Hold; offset).
Qed.

Lemma undo_next_back r :
  rec_ok (LUndoNext r) -> (base + length (concat (serialize_undo_next r).*2) <= length m)%nat ->
  reads_back (LUndoNext r) (src_of m base (serialize_undo_next r)).
Proof.
  intros (Hh & Hu) Hl. unfold serialize_undo_next in *. rewrite record_pieces in Hl.
  pose proof (src_piece m base _ _ _ eq_refl Hl) as P. unfold reads_back, deserialize_undo_next.
  rewrite (src_header m base _ _ _ eq_refl Hl) by done.
  unfold load_i32. rewrite (P 5%nat _ _ _ eq_refl) by offset. rewrite i32_decode_encode by done.
  by destruct r.
Qed.

(** The pieces of the column names. *)
Definition col_pieces (cols : list string) : list bytes :=
  concat ((fun col => [le_encode 8 (Z.of_nat (length (str_bytes col))); str_bytes col]) <$> cols).

Lemma load_cols_ok src cols : forall o,
  Forall name_ok cols ->
  (forall l1 b l2, col_pieces cols = l1 ++ b :: l2 ->
     mem_read src (o + length (concat l1)) (length b) = b) ->
  load_cols (length cols) src o = cols.
Proof.
  induction cols as [|c cols IH]; intros o Hc Hr; [done|].
  apply Forall_cons in Hc as [[Hnul H64] Hc]. cbn [length load_cols].
  assert (load_u64 src o = Z.of_nat (length (str_bytes c))) as ->.
  { pose proof (Hr [] (le_encode 8 (Z.of_nat (length (str_bytes c)))) _ eq_refl) as E.
    rewrite length_le_encode, Nat.add_0_r in E. unfold load_u64. rewrite E. by apply u64_decode_encode. }
  rewrite Nat2Z.id. f_equal.
  - apply load_string_ok; [done|].
    apply (Hr [le_encode 8 (Z.of_nat (length (str_bytes c)))] (str_bytes c) _ eq_refl).
  - apply IH; [done|]. intros l1 b l2 E.
    rewrite <- (Hr (le_encode 8 (Z.of_nat (length (str_bytes c))) :: str_bytes c :: l1) b l2) at 2.
    + f_equal. cbn [concat]. rewrite !length_app, length_le_encode. lia.
    + unfold col_pieces. rewrite fmap_cons. cbn [concat app]. unfold col_pieces in E. by rewrite E.
Qed.

Lemma index_back r :
  rec_ok (LIndex r) -> (base + length (concat (serialize_index r).*2) <= length m)%nat ->
  reads_back (LIndex r) (src_of m base (serialize_index r)).
Proof.
  intros (Hh & [Hnul Hn64] & Hc64 & Hc) Hl. unfold serialize_index in *. fold (col_pieces (ix_col_names r)) in *.
  rewrite record_pieces in Hl. pose proof (src_piece m base _ _ _ eq_refl Hl) as P.
  unfold reads_back, deserialize_index.
  rewrite (src_header m base _ _ _ eq_refl Hl) by done.
  match goal with |- context [load_u64 ?src LOG_HEADER_SIZE] =>
    assert (load_u64 src LOG_HEADER_SIZE = Z.of_nat (length (str_bytes (ix_tab_name r)))) as -> end.
  { unfold load_u64. rewrite (P 5%nat _ _ _ eq_refl) by offset. by apply u64_decode_encode. }
  rewrite Nat2Z.id.
  match goal with |- context [load_u64 ?src ?o] =>
    assert (load_u64 src o = Z.of_nat (length (ix_col_names r))) as -> end.
  { unfold load_u64. rewrite (P 7%nat _ _ _ eq_refl) by offset. by apply u64_decode_encode. }
  rewrite Nat2Z.id, load_string_ok, load_cols_ok; [by destruct r|done| |done|].
  - intros l1 b l2 E. apply (P (8 + length l1)%nat); [| |done].
    + unfold pieces. rewrite E.
      by apply (list_lookup_middle (_ :: _ :: _ :: _ :: _ :: _ :: _ :: _ :: l1) l2 b).
    + unfold pieces. rewrite E. cbn [app Nat.add take]. rewrite take_app_length. offset.
  - by rewrite (P 6%nat _ _ _ eq_refl) by offset.
Qed.
End kinds.

(** *** Stated lengths *)

Lemma add_len_tot n h : 0 <= log_tot_len_ h -> log_tot_len_ h + Z.of_nat n < 2 ^ 32 ->
  log_tot_len_ (add_len n h) = log_tot_len_ h + Z.of_nat n.
Proof. intros H1 H2. simpl. apply Z.mod_small. lia. Qed.

Lemma length_record h l :
  length (concat (serialize_header h ++ lay LOG_HEADER_SIZE l).*2) = (20 + length (concat l))%nat.
Proof. rewrite record_pieces. unfold pieces. rewrite concat_app, length_app. reflexivity. Qed.

(** The length the constructor of a tuple record computes. *)
Lemma tuple_tot_len ty txn_id prev_lsn v rid name :
  0 <= rec_size v -> rec_size v + Z.of_nat (length (str_bytes name)) + 41 < 2 ^ 32 ->
  log_tot_len_ (tup_hdr (new_tuple ty txn_id prev_lsn v rid name)) =
    rec_size v + Z.of_nat (length (str_bytes name)) + 41.
Proof.
  intros H1 H2. unfold new_tuple, c_string. cbn [tup_hdr]. rewrite length_app. cbn [length].
  unfold size_bytes. repeat rewrite add_len_tot; simpl log_tot_len_; unfold LOG_HEADER_SIZE, OFFSET_LOG_DATA;
    repeat rewrite Z.mod_small; lia.
Qed.

Lemma update_tot_len txn_id prev_lsn nv ov rid name :
  0 <= rec_size nv -> 0 <= rec_size ov ->
  rec_size ov + rec_size nv + Z.of_nat (length (str_bytes name)) + 45 < 2 ^ 32 ->
  log_tot_len_ (upd_hdr (new_UpdateLogRecord txn_id prev_lsn nv ov rid name)) =
    rec_size ov + rec_size nv + Z.of_nat (length (str_bytes name)) + 45.
Proof.
  intros H1 H2 H3. unfold new_UpdateLogRecord, c_string. cbn [upd_hdr]. rewrite length_app. cbn [length].
  unfold size_bytes. repeat rewrite add_len_tot; simpl log_tot_len_; unfold LOG_HEADER_SIZE, OFFSET_LOG_DATA;
    repeat rewrite Z.mod_small; lia.
Qed.

Lemma page_tot_len txn_id prev_lsn name p old :
  Z.of_nat (length (str_bytes name)) + 8228 < 2 ^ 32 ->
  log_tot_len_ (pg_hdr (new_PageLogRecord txn_id prev_lsn name p old)) =
    Z.of_nat (length (str_bytes name)) + 8228.
Proof.
  intros H1. unfold new_PageLogRecord. cbn [pg_hdr].
  assert (Z.of_nat (2 * page_size) = 8192) as E by (pose proof page_size_Z; unfold PAGE_SIZE in *; lia).
  repeat rewrite add_len_tot; simpl log_tot_len_; unfold LOG_HEADER_SIZE, OFFSET_LOG_DATA;
    repeat rewrite Z.mod_small; lia.
Qed.

(** The sum over the column names. *)
Lemma cols_tot_len cols : forall h,
  0 <= log_tot_len_ h ->
  log_tot_len_ h + Z.of_nat (length (concat (str_bytes <$> cols))) < 2 ^ 32 ->
  log_tot_len_ (fold_left (fun h col => add_len (length (str_bytes col)) h) cols h) =
    log_tot_len_ h + Z.of_nat (length (concat (str_bytes <$> cols))).
Proof.
  induction cols as [|c cols IH]; intros h H1 H2; [simpl; lia|].
  rewrite fmap_cons in *. cbn [concat fold_left] in *. rewrite length_app in *.
  rewrite IH; rewrite add_len_tot; lia.
Qed.

Lemma length_col_pieces cols :
  length (concat (col_pieces cols)) = (8 * length cols + length (concat (str_bytes <$> cols)))%nat.
Proof.
  induction cols as [|c cols IH]; [done|]. unfold col_pieces in *. rewrite !fmap_cons.
  cbn [concat app length]. rewrite !length_app, length_le_encode, IH. lia.
Qed.

Lemma index_tot_len ty txn_id prev_lsn name cols :
  Z.of_nat (9 * length cols + length (concat (str_bytes <$> cols))) + 36 < 2 ^ 32 ->
  log_tot_len_ (ix_hdr (new_IndexLogRecord ty txn_id prev_lsn name cols)) =
    Z.of_nat (9 * length cols + length (concat (str_bytes <$> cols))) + 36.
Proof.
  intros H1. unfold new_IndexLogRecord. cbn [ix_hdr].
  assert (E : forall a b, 0 <= a -> 0 <= b -> a + b + 20 < 2 ^ 32 ->
    log_tot_len_ (add_len (Z.to_nat b) (add_len (Z.to_nat a) (mk_header ty txn_id prev_lsn))) = a + b + 20).
  { intros a b Ha Hb Hab. repeat rewrite add_len_tot; simpl log_tot_len_;
      unfold LOG_HEADER_SIZE, OFFSET_LOG_DATA; repeat rewrite Z.mod_small; lia. }
  specialize (E (Z.of_nat ((length cols + 2) * 8)) (Z.of_nat (length cols)) ltac:(lia) ltac:(lia) ltac:(lia)).
  rewrite !Nat2Z.id in E. rewrite cols_tot_len; rewrite E; lia.
Qed.

(** What the constructors state as the length of a record, against the bytes
    it serializes to.  Begin, commit, abort and end records, page records and undo
    records state their length.  Insert, delete and update records state four bytes
    less: [undo_next] is written but not counted, so the next record overwrites it.
    The create and drop index records count the number of columns where they should
    count the length of the table's name. *)
Theorem stated_lengths txn_id prev_lsn rid name :
  Z.of_nat (length (str_bytes name)) < 2 ^ 20 ->
  (forall h, length (concat (serialize_header h).*2) = 20%nat) /\
  (forall n, Z.of_nat (length (concat (serialize_undo_next (new_UndoNextLogRecord txn_id prev_lsn n)).*2)) =
     log_tot_len_ (un_hdr (new_UndoNextLogRecord txn_id prev_lsn n))) /\
  (forall p old new, length old = page_size -> length new = page_size ->
     let r := set_new_page new (new_PageLogRecord txn_id prev_lsn name p old) in
     Z.of_nat (length (concat (serialize_page r new).*2)) = log_tot_len_ (pg_hdr r)) /\
  (forall ty d, Z.of_nat (length d) < 2 ^ 20 ->
     let r := new_tuple ty txn_id prev_lsn (RmRecord_new (Z.of_nat (length d)) d) rid name in
     Z.of_nat (length (concat (serialize_tuple r).*2)) = log_tot_len_ (tup_hdr r) + 4) /\
  (forall d d', Z.of_nat (length d) < 2 ^ 20 -> Z.of_nat (length d') < 2 ^ 20 ->
     let r := new_UpdateLogRecord txn_id prev_lsn (RmRecord_new (Z.of_nat (length d)) d)
                (RmRecord_new (Z.of_nat (length d')) d') rid name in
     Z.of_nat (length (concat (serialize_update r).*2)) = log_tot_len_ (upd_hdr r) + 4) /\
  (forall ty cols, Z.of_nat (9 * length cols + length (concat (str_bytes <$> cols))) < 2 ^ 20 ->
     let r := new_IndexLogRecord ty txn_id prev_lsn name cols in
     Z.of_nat (length (concat (serialize_index r).*2)) + Z.of_nat (length cols) =
     log_tot_len_ (ix_hdr r) + Z.of_nat (length (str_bytes name))).
Proof.
  intros Hn. pose proof page_size_Z as Ep. unfold PAGE_SIZE in Ep. split_and!.
  - intros h. apply length_header.
  - intros n. reflexivity.
  - intros p old new Ho Hw r. unfold serialize_page. rewrite length_record.
    change (pg_hdr r) with (pg_hdr (new_PageLogRecord txn_id prev_lsn name p old)).
    rewrite page_tot_len by lia. unfold r, set_new_page, new_PageLogRecord. cbn [pg_tab_name pg_page_no old_page concat].
    rewrite !length_app, length_take, !length_le_encode, Nat.min_l by lia. cbn [length]. lia.
  - intros ty d Hd r. unfold serialize_tuple. change OFFSET_LOG_DATA with LOG_HEADER_SIZE.
    rewrite length_record. unfold r. rewrite tuple_tot_len by (simpl; lia).
    unfold new_tuple, value_bytes, size_bytes, RmRecord_assign, RmRecord_new, rid_bytes, c_string.
    cbn [tup_value tup_rid tup_table_name_size tup_table_name tup_undo_next allocated_ rec_data rec_size default from_option id concat].
    rewrite !Nat2Z.id, !length_app, !length_take, !length_le_encode, !Nat.min_id. cbn [length]. lia.
  - intros d d' Hd Hd' r. unfold serialize_update. change OFFSET_LOG_DATA with LOG_HEADER_SIZE.
    rewrite length_record. unfold r. rewrite update_tot_len by (simpl; lia).
    unfold new_UpdateLogRecord, value_bytes, size_bytes, RmRecord_assign, RmRecord_new, rid_bytes, c_string.
    cbn [old_value_ new_value_ upd_rid upd_table_name_size upd_table_name upd_undo_next allocated_ rec_data rec_size default from_option id concat].
    rewrite !Nat2Z.id, !length_app, !length_take, !length_le_encode, !Nat.min_id. cbn [length].
    lia.
  - intros ty cols Hc r. unfold serialize_index. rewrite length_record. unfold r.
    rewrite index_tot_len by lia. cbn [new_IndexLogRecord ix_tab_name ix_col_names].
    fold (col_pieces cols). rewrite concat_app, length_app, length_col_pieces.
    cbn [concat]. rewrite !length_app, !length_le_encode. cbn [length]. lia.
Qed.

(** ** The log manager *)

Class LogDisk (D : Type) := { ld_write_log : bytes -> M D unit }.

Module LogManager.
Section ops.

(** [buffer_size] is [LOG_BUFFER_SIZE], 4 MB in the program: a parameter, so that
    the operations can be evaluated on small buffers. *)
Context (buffer_size : Z).
Context {D : Type} `{LogDisk D}.

Record t := mk {
  global_lsn_ : Z;
  buffer_ : bytes;      (* [buffer_size + 1] bytes *)
  offset_ : Z;
  persist_lsn_ : Z;
  disk_manager_ : D;
}.

(** [persist_lsn_] is not initialised. *)
Definition make (junk : Z) (d : D) : t := mk 0 (replicate (Z.to_nat (buffer_size + 1)) 0) 0 junk d.

Definition set_disk (d : D) (s : t) : t :=
  mk (global_lsn_ s) (buffer_ s) (offset_ s) (persist_lsn_ s) d.

(** [LogBuffer::is_full]. *)
Definition is_full (append_size : Z) (s : t) : bool := buffer_size <? offset_ s + append_size.

Definition flush_log_to_disk : M t unit :=
  s ← get;
  zoom disk_manager_ set_disk (ld_write_log (take (Z.to_nat (offset_ s)) (buffer_ s)));;
  modify (fun s => mk (global_lsn_ s) (replicate (Z.to_nat (buffer_size + 1)) 0) 0 (global_lsn_ s)
                      (disk_manager_ s)).

(** Chunks that would be written outside the buffer. *)
Definition in_buffer (len base : nat) (ws : list (nat * bytes)) : bool :=
  forallb (fun w => (base + w.1 + length w.2 <=? len)%nat) ws.

(** Returns the LSN the record got; the [int] conversions of [log_tot_len_]. *)
Definition add_log_to_buffer (log_record : log_record) : M t Z :=
  s ← get;
  let tot_len := i32 (log_tot_len_ (header log_record)) in
  whenM (is_full tot_len s) flush_log_to_disk;;
  s ← get;
  let r := with_header (set_lsn (global_lsn_ s) (header log_record)) log_record in
  let '(ws, e) := serialize r in
  let base := Z.to_nat (offset_ s) in
  (if in_buffer (length (buffer_ s)) base ws then mret tt else throw Stuck);;
  modify (fun s => mk (global_lsn_ s) (apply_writes (buffer_ s) base ws) (offset_ s) (persist_lsn_ s)
                      (disk_manager_ s));;
  match e with
  | Throw e => throw e
  | Ok _ =>
      modify (fun s => mk (i32 (global_lsn_ s + 1)) (buffer_ s) (i32 (offset_ s + tot_len))
                          (persist_lsn_ s) (disk_manager_ s));;
      mret (global_lsn_ s)
  end.

(** A history of additions and flushes, and the LSNs it hands out. *)
Inductive op := Add (r : log_record) | FlushLog.

Fixpoint run (l : list op) : M t (list Z) :=
  match l with
  | [] => mret []
  | Add r :: l' => n ← add_log_to_buffer r; ns ← run l'; mret (n :: ns)
  | FlushLog :: l' => flush_log_to_disk;; run l'
  end.

End ops.
Arguments t D : clear implicits.

(** ** The log as a stream *)

(** The disk appends what it is given to the log. *)
Class LogDiskLaws (D : Type) `{LogDisk D} := {
  ld_ok : D -> Prop;
  ld_log : D -> bytes;
  ld_append bs d d' : ld_ok d -> ld_write_log bs d = (d', Ok tt) ->
    ld_ok d' /\ ld_log d' = ld_log d ++ bs;
}.

(** A record that serializes to at least the length it states.  (The records of
    index pages are left out: their chunks do not follow each other.) *)
Definition covers (r : log_record) : Prop :=
  match r with LIndexPages _ => False | _ => True end /\
  exists ws, serialize r = (ws, Ok tt) /\
    0 <= log_tot_len_ (header r) < 2 ^ 31 /\
    (Z.to_nat (log_tot_len_ (header r)) <= length (concat ws.*2))%nat.

(** The bytes a record contributes to the log. *)
Definition image (r : log_record) (lsn : Z) : bytes :=
  take (Z.to_nat (log_tot_len_ (header r)))
    (concat (serialize (with_header (set_lsn lsn (header r)) r)).1.*2).

Fixpoint images (l : list op) (lsn : Z) : bytes :=
  match l with
  | [] => []
  | Add r :: l' => image r lsn ++ images l' (i32 (lsn + 1))
  | FlushLog :: l' => images l' lsn
  end.
Fixpoint lsns (l : list op) (lsn : Z) : list Z :=
  match l with
  | [] => []
  | Add r :: l' => lsn :: lsns l' (i32 (lsn + 1))
  | FlushLog :: l' => lsns l' lsn
  end.

Lemma in_buffer_tiles len base ws : forall o,
  tiles o ws -> ws <> [] -> in_buffer len base ws = true ->
  (base + o + length (concat ws.*2) <= len)%nat.
Proof.
  induction ws as [|[o' b] ws IH]; intros o Ht Hne Hin; [done|].
  rewrite fmap_cons. cbn [tiles concat fst snd] in *. destruct Ht as [-> Ht].
  simpl in Hin. apply andb_true_iff in Hin as [Hb Hin]. apply Nat.leb_le in Hb.
  rewrite length_app. destruct ws as [|w ws]; [simpl; lia|].
  specialize (IH _ Ht ltac:(done) Hin). lia.
Qed.

Lemma serialize_pieces r ws :
  match r with LIndexPages _ => False | _ => True end -> serialize r = (ws, Ok tt) ->
  exists l, ws = serialize_header (header r) ++ lay LOG_HEADER_SIZE l /\
    forall n, serialize (with_header (set_lsn n (header r)) r) =
      (serialize_header (set_lsn n (header r)) ++ lay LOG_HEADER_SIZE l, Ok tt).
Proof.
  intros Hr Hs. destruct r as [h|r|r|r|r|r|r]; simpl in Hs; try done.
  - injection Hs as <-. exists []. done.
  - case_decide as Hd; [done|]. injection Hs as <-. eexists. split; [done|].
    intros n. simpl. by rewrite decide_False.
  - case_decide as Hd; [done|]. injection Hs as <-. eexists. split; [done|].
    intros n. simpl. by rewrite decide_False.
  - destruct (new_page r) as [new|] eqn:En; [|done]. injection Hs as <-. eexists. split; [done|].
    intros n. simpl. by rewrite En.
  - injection Hs as <-. eexists. split; [done|]. done.
  - injection Hs as <-. eexists. split; [done|]. done.
Qed.

(** What [add_log_to_buffer] writes for such a record. *)
Lemma covers_lsn r n :
  covers r -> exists ws, serialize (with_header (set_lsn n (header r)) r) = (ws, Ok tt) /\
    tiles 0 ws /\ ws <> [] /\ image r n = take (Z.to_nat (log_tot_len_ (header r))) (concat ws.*2) /\
    (Z.to_nat (log_tot_len_ (header r)) <= length (concat ws.*2))%nat.
Proof.
  intros (Hk & ws & Hs & Hr & Hl). destruct (serialize_pieces _ _ Hk Hs) as (l & -> & Hn).
  eexists. split; [apply Hn|]. split; [apply tiles_record|]. split; [done|].
  split; [unfold image; by rewrite Hn|].
  revert Hl. rewrite !record_pieces. unfold pieces. rewrite !concat_app, !length_app. done.
Qed.

Section stream.
Context (buffer_size : Z).
Context {D : Type} `{LogDiskLaws D}.
Implicit Types (s : t D).
Context (Hsize : 0 <= buffer_size < 2 ^ 31 - 1).

Record wf (s : t D) : Prop := {
  wf_length : length (buffer_ s) = Z.to_nat (buffer_size + 1);
  wf_offset : 0 <= offset_ s <= buffer_size + 1;
  wf_disk : ld_ok (disk_manager_ s);
}.

(** The log on disk followed by what is in the buffer. *)
Definition stream s : bytes := ld_log (disk_manager_ s) ++ take (Z.to_nat (offset_ s)) (buffer_ s).

Lemma log_flush_ok s s' :
  wf s -> flush_log_to_disk buffer_size s = (s', Ok tt) ->
  wf s' /\ stream s' = stream s /\ ld_log (disk_manager_ s') = stream s /\
  global_lsn_ s' = global_lsn_ s /\ persist_lsn_ s' = global_lsn_ s /\ offset_ s' = 0.
Proof.
  intros Hw Hr. unfold flush_log_to_disk in Hr. msimpl.
  destruct (ld_write_log _ (disk_manager_ s)) as [d [[]|e]] eqn:Ew; [|done]. injection Hr as <-.
  destruct (ld_append _ _ _ (wf_disk _ Hw) Ew) as [Hok Hlog]. unfold stream. simpl.
  split_and!; try done; [|by rewrite app_nil_r].
  split; simpl; [apply length_replicate|lia|done].
Qed.

(** A block written at the offset extends the filled part of the buffer. *)
Lemma take_mem_write m o bs n :
  (o + length bs <= length m)%nat -> (n <= length bs)%nat ->
  take (o + n) (mem_write m o bs) = take o m ++ take n bs.
Proof.
  intros Hl Hn. unfold mem_write. rewrite take_app_ge by (rewrite length_take; lia).
  rewrite length_take, Nat.min_l by lia. f_equal.
  replace (o + n - o)%nat with n by lia. rewrite take_app_le by (rewrite length_take; lia).
  rewrite take_take. f_equal. lia.
Qed.

Lemma add_ok s s' r n :
  wf s -> covers r -> add_log_to_buffer buffer_size r s = (s', Ok n) ->
  wf s' /\ stream s' = stream s ++ image r n /\ n = global_lsn_ s /\
  global_lsn_ s' = i32 (n + 1).
Proof.
  intros Hw Hc Hr. assert (Htot : 0 <= log_tot_len_ (header r) < 2 ^ 31) by (by destruct Hc as (_ & ? & _ & ? & _)).
  unfold add_log_to_buffer in Hr. apply bind_inv in Hr as (s0 & ? & Hg & Hr).
  unfold get in Hg. injection Hg as <- <-.
  rewrite (i32_small (log_tot_len_ (header r))) in Hr by (unfold in_i32; lia).
  apply bind_inv in Hr as (s1 & [] & Hf & Hr).
  assert (wf s1 /\ stream s1 = stream s /\ global_lsn_ s1 = global_lsn_ s) as (Hw1 & <- & <-).
  { unfold whenM in Hf. destruct (is_full _ _ _).
    - destruct (log_flush_ok _ _ Hw Hf) as (? & ? & _ & ? & _). done.
    - unfold mret, M_ret in Hf. by injection Hf as <-. }
  clear Hf Hw. apply bind_inv in Hr as (s2 & ? & Hg & Hr). unfold get in Hg. injection Hg as <- <-.
  clear s. rename s1 into s.
  destruct (covers_lsn r (global_lsn_ s) Hc) as (ws & Hs & Ht & Hne & Him & Hle).
  rewrite Hs in Hr. apply bind_inv in Hr as (s2 & [] & Hin & Hr).
  destruct (in_buffer _ _ _) eqn:Ein; [|done]. unfold mret, M_ret in Hin. injection Hin as <-.
  pose proof (in_buffer_tiles _ _ _ _ Ht Hne Ein) as Hfit. destruct Hw1 as [Hl Ho Hd].
  unfold modify, mbind, M_bind, mret, M_ret in Hr. simpl in Hr. injection Hr as <- <-. simpl.
  rewrite (apply_writes_tiles _ _ _ 0) by (done || lia). rewrite Nat.add_0_r in *.
  rewrite (i32_small (offset_ s + log_tot_len_ (header r))) by (unfold in_i32; lia).
  split_and!; try done.
  - split; simpl; [by rewrite length_mem_write|lia|done].
  - unfold stream. simpl. rewrite Him, Z2Nat.inj_add by lia.
    rewrite take_mem_write by lia. by rewrite app_assoc.
Qed.

(** C4: the log is a stream of records.  After any history of [flush_log_to_disk] and of
    [add_log_to_buffer] for records that have at least the bytes their length states
    ([covers]) that returns normally, the log on disk followed by the filled part of the
    buffer is what it was before, followed by the serialized records in the order they were
    added, each cut to the length it states; the LSNs handed out are consecutive.  Not
    covered are the records of index pages, and records that state more than they
    serialize, such as those of an index with more columns than its table's name has
    characters ([stated_lengths]). *)
Theorem log_stream l : forall s s' ns,
  wf s -> Forall (fun o => match o with Add r => covers r | FlushLog => True end) l ->
  run buffer_size l s = (s', Ok ns) ->
  wf s' /\ stream s' = stream s ++ images l (global_lsn_ s) /\ ns = lsns l (global_lsn_ s).
Proof.
  induction l as [|[r|] l IH]; intros s s' ns Hw Hc Hr; simpl in Hr.
  - unfold mret, M_ret in Hr. injection Hr as <- <-. simpl. by rewrite app_nil_r.
  - apply Forall_cons in Hc as [Hr' Hc]. apply bind_inv in Hr as (s1 & n & Ha & Hr).
    apply bind_inv in Hr as (s2 & ns' & Hr & He). unfold mret, M_ret in He. injection He as <- <-.
    destruct (add_ok _ _ _ _ Hw Hr' Ha) as (Hw1 & Hst & -> & Hn).
    destruct (IH _ _ _ Hw1 Hc Hr) as (Hw2 & Hst2 & ->). split; [done|].
    rewrite Hst2, Hst, Hn. simpl. by rewrite app_assoc.
  - apply Forall_cons in Hc as [_ Hc]. apply bind_inv in Hr as (s1 & [] & Ha & Hr).
    destruct (log_flush_ok _ _ Hw Ha) as (Hw1 & Hst & _ & Hn & _ & _).
    destruct (IH _ _ _ Hw1 Hc Hr) as (Hw2 & Hst2 & ->). split; [done|].
    by rewrite Hst2, Hst, Hn.
Qed.

End stream.
(** ** Round trip through the buffer *)

(** C5: a record of any kind but the index pages reads back.  If its serialization
    fits in the buffer at some place, [deserialize] at that place gives the record
    with all its fields, whatever the buffer held. *)
Theorem record_roundtrip m base r ws :
  rec_ok r -> serialize r = (ws, Ok tt) -> in_buffer (length m) base ws = true ->
  reads_back r (src_of m base ws).
Proof.
  intros Hr Hs Hin.
  assert (Hk : match r with LIndexPages _ => False | _ => True end) by (destruct r; try done; apply Hr).
  destruct (serialize_pieces _ _ Hk Hs) as (l & E & _).
  assert (Hfit : (base + length (concat ws.*2) <= length m)%nat).
  { rewrite <- (Nat.add_0_r base). rewrite E in *.
    apply in_buffer_tiles; [apply tiles_record|done|done]. }
  destruct r as [h|r|r|r|r|r|r]; simpl in Hs.
  - injection Hs as <-. rewrite <- (app_nil_r (serialize_header h)) in *.
    change (@nil (nat * bytes)) with (lay LOG_HEADER_SIZE []) in *. rewrite record_pieces in Hfit.
    apply (src_header m base h [] _ eq_refl Hfit). apply Hr.
  - case_decide; [done|]. injection Hs as <-. by apply tuple_back.
  - case_decide; [done|]. injection Hs as <-. by apply update_back.
  - destruct (new_page r) as [new|] eqn:En; [|done]. injection Hs as <-. by apply page_back.
  - injection Hs as <-. by apply undo_next_back.
  - done.
  - injection Hs as <-. by apply index_back.
Qed.

(** ** The index pages record *)

(** Writes that start at [k] or later leave what is before. *)
Lemma apply_writes_above ws : forall m base o n,
  Forall (fun w => (o + n <= w.1)%nat) ws ->
  mem_read (apply_writes m base ws) (base + o) n = mem_read m (base + o) n.
Proof.
  induction ws as [|[o' b] ws IH]; intros m base o n Hw; [done|].
  apply Forall_cons in Hw as [Hb Hw]. cbn [fst] in Hb. unfold apply_writes in *. cbn [fold_left fst snd].
  rewrite IH by done. apply mem_read_write_disjoint. lia.
Qed.

Lemma apply_writes_app m base ws1 ws2 :
  apply_writes m base (ws1 ++ ws2) = apply_writes (apply_writes m base ws1) base ws2.
Proof. apply fold_left_app. Qed.

Lemma apply_writes_one m base o b : apply_writes m base [(o, b)] = mem_write m (base + o) b.
Proof. reflexivity. Qed.

Lemma lay_above l : forall o k, (k <= o)%nat -> Forall (fun w => (k <= w.1)%nat) (lay o l).
Proof. induction l as [|b l IH]; intros o k Hk; constructor; [done|]. apply IH. lia. Qed.

Lemma index_pages_shape r fh :
  file_hdr r = Some fh -> exists A pages off,
  serialize_index_pages r =
    (serialize_header (ip_hdr r) ++ A ++ ((fun p => (0%nat, PageId_bytes p)) <$> page_ids r) ++
     pages ++ [(0%nat, le_encode 4 (hdr_len r))] ++ [(off, fh)], Ok tt) /\
  Forall (fun w => (8 <= w.1)%nat) pages /\ (8 <= off)%nat.
Proof.
  intros Hf. unfold serialize_index_pages. rewrite Hf.
  set (start := [le_encode 8 _; _; _]).
  set (off := (LOG_HEADER_SIZE + length (concat start) + 8 * length (page_ids r))%nat).
  assert (Hoff : (8 <= off)%nat) by (unfold off, LOG_HEADER_SIZE, OFFSET_LOG_DATA; lia).
  clearbody off start.
  exists (lay LOG_HEADER_SIZE start), (lay off (ip_pages r)), (off + length (concat (ip_pages r)) + 4)%nat.
  split; [by rewrite <- !app_assoc|]. split; [by apply lay_above|lia].
Qed.

(** [IndexPagesLogRecord::serialize] destroys the header of its record.  The
    page identifiers and the length of the file header go to the start of the
    record instead of their place: the type field of the serialized record is the
    length of the index file header, and its LSN is the number of the last page in
    the record. *)
Theorem index_pages_header_lost m base r ws ids p :
  serialize (LIndexPages r) = (ws, Ok tt) -> page_ids r = ids ++ [p] ->
  in_buffer (length m) base ws = true -> in_i32 (hdr_len r) -> in_i32 (page_no p) ->
  log_type_ (deserialize_header (src_of m base ws)) = hdr_len r /\
  lsn_ (deserialize_header (src_of m base ws)) = page_no p.
Proof.
  intros Hs Hids Hin Hl Hp. cbn [serialize] in Hs.
  destruct (file_hdr r) as [fh|] eqn:Ef; [|unfold serialize_index_pages in Hs; by rewrite Ef in Hs].
  destruct (index_pages_shape r fh Ef) as (A & pages & off & E & Hpages & Hoff).
  rewrite E in Hs. apply (f_equal fst) in Hs. cbn [fst] in Hs. subst ws.
  rewrite Hids, fmap_app in *. cbn [fmap list_fmap] in *.
  set (H := serialize_header _) in *.
  assert (Hbase : (base + 8 <= length m)%nat).
  { unfold in_buffer in Hin.  rewrite !forallb_app in Hin. rewrite !andb_true_iff in Hin.
    destruct Hin as (_ & _ & [_ Hin] & _). cbn [forallb fst snd] in Hin.
    rewrite andb_true_r in Hin. apply Nat.leb_le in Hin. cbn in Hin. lia. }
  set (m1 := apply_writes m base (H ++ A ++ ((fun p => (0%nat, PageId_bytes p)) <$> ids))).
  assert (Hm1 : length m1 = length m) by apply length_apply_writes.
  set (m2 := apply_writes (mem_write m1 base (PageId_bytes p)) base pages).
  assert (Em : apply_writes m base (H ++ A ++ (((fun p => (0%nat, PageId_bytes p)) <$> ids) ++
      [(0%nat, PageId_bytes p)]) ++ pages ++ [(0%nat, le_encode 4 (hdr_len r))] ++ [(off, fh)]) =
      mem_write (mem_write m2 base (le_encode 4 (hdr_len r))) (base + off) fh).
  { unfold m2, m1. rewrite !apply_writes_app, !apply_writes_one. by rewrite !Nat.add_0_r. }
  unfold src_of. rewrite Em. unfold deserialize_header, load_i32. cbn [log_type_ lsn_].
  assert (Hd : forall (b : bytes) o n, mem_read (drop base b) o n = mem_read b (base + o) n)
    by (intros; unfold mem_read; by rewrite drop_drop).
  rewrite !Hd.
  assert (Hm2 : length m2 = length m) by (unfold m2; by rewrite length_apply_writes, length_mem_write).
  split.
  - rewrite mem_read_write_disjoint by lia. rewrite Nat.add_0_r, mem_read_write_same by (rewrite ?length_le_encode; lia).
    by apply i32_decode_encode.
  - rewrite mem_read_write_disjoint by (unfold OFFSET_LSN; lia).
    rewrite mem_read_write_disjoint by (rewrite length_le_encode; unfold OFFSET_LSN; lia).
    unfold m2. rewrite apply_writes_above.
    2: { eapply Forall_impl; [exact Hpages|]. cbn. intros w Hw. unfold OFFSET_LSN. lia. }
    replace (mem_read (mem_write m1 base (PageId_bytes p)) (base + OFFSET_LSN) 4)
      with (le_encode 4 (page_no p)); [by apply i32_decode_encode|].
    unfold OFFSET_LSN. rewrite <- (mem_read_read _ base 8 4 4) by lia.
    rewrite (mem_read_write_same m1 base (PageId_bytes p) 8) by (done || rewrite Hm1; done). done.
Qed.

(** ** Over the disk manager *)
#[global] Instance disk_log {O : Type} `{Posix O} : LogDisk (DiskManager.t O) := {
  ld_write_log := DiskManager.write_log;
}.
#[global] Program Instance disk_log_laws {O : Type} `{PosixLaws O} : LogDiskLaws (DiskManager.t O) := {
  ld_ok := DiskManager.log_ok;
  ld_log d := default [] (DiskManager.log_file d);
}.
Next Obligation.
  intros O HP HL bs d d' Hok Hw. destruct (DiskManager.write_log_ok _ _ _ Hok Hw) as (? & _ & E).
  simpl. by rewrite E.
Qed.

(** ** Witnesses *)

Definition demo_page : PageLogRecord :=
  set_new_page (replicate page_size 9) (new_PageLogRecord 1 (-1) "t" 3 (replicate page_size 8)).
Definition demo_insert : TupleLogRecord :=
  InsertLogRecord 1 0 (RmRecord_new 3 [10; 20; 30]) (mkRid 1 2) "t".

Lemma stated_lengths_witness :
  Z.of_nat (length (concat (serialize_tuple demo_insert).*2)) = log_tot_len_ (tup_hdr demo_insert) + 4 /\
  log_tot_len_ (tup_hdr demo_insert) = 45.
Proof.
  destruct (stated_lengths 1 0 (mkRid 1 2) "t" ltac:(vm_compute; reflexivity)) as (_ & _ & _ & H & _).
  split; [apply (H INSERT [10; 20; 30]); vm_compute; reflexivity|reflexivity].
Defined.

Lemma record_roundtrip_witness :
  deserialize_tuple (src_of (replicate 100 0) 7 (serialize_tuple demo_insert)) =
    Ok (mkTuple (tup_hdr demo_insert) (mkRmRecord (Some [10; 20; 30]) 3 false) (mkRid 1 2)
          [116; 0] 2 (-1)).
Proof.
  apply (record_roundtrip (replicate 100 0) 7 (LTuple demo_insert) (serialize_tuple demo_insert)).
  - split; [repeat split; vm_compute; discriminate|].
    split; [exists [10; 20; 30]; repeat split; vm_compute; discriminate|].
    repeat split; vm_compute; discriminate.
  - reflexivity.
  - vm_compute. reflexivity.
Defined.

Definition demo_index_pages : IndexPagesLogRecord :=
  add_file_hdr [1; 2; 3] 3 (add_page (mkPageId 5 17) [9] (new_IndexPagesLogRecord 1 0 "i")).

Lemma index_pages_header_lost_witness :
  let src := src_of (replicate 200 0) 0 (serialize_index_pages demo_index_pages).1 in
  log_type_ (deserialize_header src) = 3 /\ lsn_ (deserialize_header src) = 17.
Proof.
  apply (index_pages_header_lost (replicate 200 0) 0 demo_index_pages
    (serialize_index_pages demo_index_pages).1 [] (mkPageId 5 17)).
  - reflexivity.
  - reflexivity.
  - vm_compute. reflexivity.
  - split; vm_compute; congruence.
  - split; vm_compute; congruence.
Defined.

(** A buffer of 100 bytes; the third record does not fit behind the first two. *)
Definition demo : t (DiskManager.t MemFs.t) := make 100 0 (DiskManager.make DiskManager.demo_fs).
Definition demo_ops : list op :=
  [ Add (LBase (BeginLogRecord 1 (-1))); Add (LTuple demo_insert); Add (LTuple demo_insert);
    Add (LBase (CommitLogRecord 1 2)); FlushLog ].

Lemma log_demo_wf : wf 100 demo.
Proof.
  split; [apply length_replicate|simpl; lia|apply DiskManager.demo_log_ok].
Qed.

Lemma demo_covers : Forall (fun o => match o with Add r => covers r | FlushLog => True end) demo_ops.
Proof.
  repeat constructor; try (eexists; split; [reflexivity|vm_compute; repeat split; try discriminate; lia]).
Qed.

Lemma log_stream_witness :
  match run 100 demo_ops demo with
  | (s', Ok ns) => ns = [0; 1; 2; 3] /\ stream s' = stream demo ++ images demo_ops 0 /\
      length (images demo_ops 0) = 130%nat
  | _ => False
  end.
Proof.
  destruct (run 100 demo_ops demo) as [s' [ns|e]] eqn:E.
  - destruct (log_stream 100 ltac:(lia) demo_ops demo s' ns log_demo_wf demo_covers E) as (_ & H1 & H2).
    split; [exact H2|]. split; [exact H1|]. vm_compute. reflexivity.
  - apply (f_equal (fun r => match r.2 with Ok _ => true | _ => false end)) in E.
    cbn [snd] in E. vm_compute in E. discriminate E.
Defined.

End LogManager.
