(* ===== verification/Transaction.v ===== *)
(** * Transactions and locks

    [transaction/txn_defs.h], [transaction.h] and [concurrency/lock_manager.h],
    [lock_manager.cpp].  Module [Txn] is the class [Transaction] with its write set
    and lock set; Module [LockManager] the lock table, the calls that lock and unlock
    a table, and the interleavings of several transactions that make them. *)

From S2P Require Import Prelude Common RmDefs Log.

(** ** [txn_defs.h] *)

Inductive TransactionState := DEFAULT | GROWING | SHRINKING | COMMITTED | ABORTED.
#[global] Instance TransactionState_eq_dec : EqDecision TransactionState.
Proof. solve_decision. Defined.

Inductive IsolationLevel := READ_UNCOMMITTED | REPEATABLE_READ | READ_COMMITTED | SERIALIZABLE.
#[global] Instance IsolationLevel_eq_dec : EqDecision IsolationLevel.
Proof. solve_decision. Defined.

Module WType.
Inductive t := INSERT_TUPLE | DELETE_TUPLE | UPDATE_TUPLE | CREATE_INDEX | DROP_INDEX.
#[global] Instance eq_dec : EqDecision t.
Proof. solve_decision. Defined.
End WType.

(** The write operations of a transaction, kept for its rollback. *)
Module WriteRecord.
Record t := mk {
  wtype_ : WType.t;
  tab_name_ : string;
  rid_ : Rid;
  record_ : RmRecord;
  col_names_ : list string;
  lsn_ : Z;
}.

(** The three constructors; [rid_] of the last is not initialised: [junk]. *)
Definition insert (wtype : WType.t) (tab_name : string) (rid : Rid) (lsn : Z) : t :=
  mk wtype tab_name rid RmRecord_empty [] lsn.
Definition change (wtype : WType.t) (tab_name : string) (rid : Rid) (record : RmRecord) (lsn : Z) : t :=
  mk wtype tab_name rid (RmRecord_copy record) [] lsn.
Definition index (junk : Rid) (wType : WType.t) (tab_name : string) (col_names : list string) (lsn : Z) : t :=
  mk wType tab_name junk RmRecord_empty col_names lsn.

(** [WriteRecord(WriteRecord *other)], for a pointer that is not null: the members
    are assigned. *)
Definition of_pointer (other : t) : t :=
  mk (wtype_ other) (tab_name_ other) (rid_ other) (RmRecord_assign (record_ other))
     (col_names_ other) (lsn_ other).
End WriteRecord.

Inductive LockDataType := TABLE | RECORD.
#[global] Instance LockDataType_eq_dec : EqDecision LockDataType.
Proof. solve_decision. Defined.

Record LockDataId := mkLockDataId { ld_fd : Z; ld_rid : Rid; ld_type : LockDataType }.
(** [operator==] compares the type, the descriptor and the record. *)
#[global] Instance LockDataId_eq_dec : EqDecision LockDataId.
Proof. solve_decision. Defined.
#[global] Program Instance LockDataId_countable : Countable LockDataId :=
  inj_countable' (fun i => (ld_fd i, rid_page_no (ld_rid i), rid_slot_no (ld_rid i), bool_decide (ld_type i = TABLE)))
    (fun x => let '(f, p, s, b) := x in mkLockDataId f (mkRid p s) (if b : bool then TABLE else RECORD)) _.
Next Obligation. by intros [f [p s] []]. Qed.

Definition LockDataId_table (fd : Z) : LockDataId := mkLockDataId fd (mkRid (-1) (-1)) TABLE.
Definition LockDataId_record (fd : Z) (rid : Rid) : LockDataId := mkLockDataId fd rid RECORD.

(** [Get], the key that is hashed. *)
Definition LockDataId_Get (i : LockDataId) : Z :=
  match ld_type i with
  | TABLE => ld_fd i
  | RECORD => i64 (Z.lor (Z.lor (Z.lor (Z.shiftl 1 63) (Z.shiftl (ld_fd i) 31))
                                (Z.shiftl (rid_page_no (ld_rid i)) 16)) (rid_slot_no (ld_rid i)))
  end.

(** ** [Transaction] *)
Module Txn.
(** [page_pins_] is a map with the equality of page identifiers.  The [std::map] of the code is sorted by
    [operator<], which orders some identifiers of two files both ways ([PageId_lt_both_ways]); what the container does
    with such keys is not fixed, so the model is that of the keys of one file. *)
Record t := mk {
  txn_mode_ : bool;
  state_ : TransactionState;
  isolation_level_ : IsolationLevel;
  prev_lsn_ : Z;
  txn_id_ : Z;
  start_ts_ : Z;
  write_set_ : list WriteRecord.t;
  lock_set_ : gset LockDataId;
  index_latch_page_set_ : list Z;
  index_deleted_page_set_ : list Z;
  page_pins_ : gmap PageId Z;
  log_records : list IndexPagesLogRecord;
}.

(** The constructor.  [txn_mode_] and [start_ts_] are not initialised. *)
Definition make (junk_mode : bool) (junk_ts : Z) (txn_id : Z) (isolation_level : IsolationLevel) : t :=
  mk junk_mode DEFAULT isolation_level INVALID_LSN txn_id junk_ts [] ∅ [] [] ∅ [].

Definition set_txn_mode (b : bool) (x : t) : t :=
  mk b (state_ x) (isolation_level_ x) (prev_lsn_ x) (txn_id_ x) (start_ts_ x) (write_set_ x) (lock_set_ x)
     (index_latch_page_set_ x) (index_deleted_page_set_ x) (page_pins_ x) (log_records x).
Definition set_state (st : TransactionState) (x : t) : t :=
  mk (txn_mode_ x) st (isolation_level_ x) (prev_lsn_ x) (txn_id_ x) (start_ts_ x) (write_set_ x) (lock_set_ x)
     (index_latch_page_set_ x) (index_deleted_page_set_ x) (page_pins_ x) (log_records x).
Definition set_start_ts (ts : Z) (x : t) : t :=
  mk (txn_mode_ x) (state_ x) (isolation_level_ x) (prev_lsn_ x) (txn_id_ x) ts (write_set_ x) (lock_set_ x)
     (index_latch_page_set_ x) (index_deleted_page_set_ x) (page_pins_ x) (log_records x).
Definition set_prev_lsn (n : Z) (x : t) : t :=
  mk (txn_mode_ x) (state_ x) (isolation_level_ x) n (txn_id_ x) (start_ts_ x) (write_set_ x) (lock_set_ x)
     (index_latch_page_set_ x) (index_deleted_page_set_ x) (page_pins_ x) (log_records x).
Definition set_write_set (l : list WriteRecord.t) (x : t) : t :=
  mk (txn_mode_ x) (state_ x) (isolation_level_ x) (prev_lsn_ x) (txn_id_ x) (start_ts_ x) l (lock_set_ x)
     (index_latch_page_set_ x) (index_deleted_page_set_ x) (page_pins_ x) (log_records x).
Definition set_lock_set (l : gset LockDataId) (x : t) : t :=
  mk (txn_mode_ x) (state_ x) (isolation_level_ x) (prev_lsn_ x) (txn_id_ x) (start_ts_ x) (write_set_ x) l
     (index_latch_page_set_ x) (index_deleted_page_set_ x) (page_pins_ x) (log_records x).
Definition set_latch_pages (l : list Z) (x : t) : t :=
  mk (txn_mode_ x) (state_ x) (isolation_level_ x) (prev_lsn_ x) (txn_id_ x) (start_ts_ x) (write_set_ x) (lock_set_ x)
     l (index_deleted_page_set_ x) (page_pins_ x) (log_records x).
Definition set_deleted_pages (l : list Z) (x : t) : t :=
  mk (txn_mode_ x) (state_ x) (isolation_level_ x) (prev_lsn_ x) (txn_id_ x) (start_ts_ x) (write_set_ x) (lock_set_ x)
     (index_latch_page_set_ x) l (page_pins_ x) (log_records x).
Definition set_page_pins (m : gmap PageId Z) (x : t) : t :=
  mk (txn_mode_ x) (state_ x) (isolation_level_ x) (prev_lsn_ x) (txn_id_ x) (start_ts_ x) (write_set_ x) (lock_set_ x)
     (index_latch_page_set_ x) (index_deleted_page_set_ x) m (log_records x).
Definition set_log_records (l : list IndexPagesLogRecord) (x : t) : t :=
  mk (txn_mode_ x) (state_ x) (isolation_level_ x) (prev_lsn_ x) (txn_id_ x) (start_ts_ x) (write_set_ x) (lock_set_ x)
     (index_latch_page_set_ x) (index_deleted_page_set_ x) (page_pins_ x) l.

Definition append_write_record (w : WriteRecord.t) (x : t) : t :=
  set_write_set (write_set_ x ++ [WriteRecord.of_pointer w]) x.
Definition append_index_deleted_page (page : Z) (x : t) : t :=
  set_deleted_pages (index_deleted_page_set_ x ++ [page]) x.
Definition append_index_latch_page_set (page : Z) (x : t) : t :=
  set_latch_pages (index_latch_page_set_ x ++ [page]) x.

(** [page_pins_[page_id]++]: a page that is not there counts 0. *)
Definition add_page_pin (p : PageId) (x : t) : t :=
  set_page_pins (<[p := i32 (default 0 (page_pins_ x !! p) + 1)]> (page_pins_ x)) x.
Definition add_index_log (r : IndexPagesLogRecord) (x : t) : t := set_log_records (log_records x ++ [r]) x.
Definition clear_logs (x : t) : t := set_log_records [] x.
Definition clear_page_pins (x : t) : t := set_page_pins ∅ x.
End Txn.

(** ** The lock manager *)
Module LockManager.

Inductive GroupLockMode := NON_LOCK | IS | IX | LS | LX | SIX.
#[global] Instance GroupLockMode_eq_dec : EqDecision GroupLockMode.
Proof. solve_decision. Defined.

Record LockStatus := mkStatus { shared_num : Z; mode : GroupLockMode }.

Record t := mk { lock_table_ : gmap LockDataId LockStatus }.
Definition make : t := mk ∅.

(** The lock manager and the transaction a call works on. *)
Definition st : Type := t * Txn.t.
Definition upd_txn (f : Txn.t -> Txn.t) : M st unit := modify (fun s => (s.1, f s.2)).
Definition set_status (i : LockDataId) (x : LockStatus) : M st unit :=
  modify (fun s => (mk (<[i := x]> (lock_table_ s.1)), s.2)).
Definition erase (i : LockDataId) : M st unit := modify (fun s => (mk (delete i (lock_table_ s.1)), s.2)).

(** [lock_table_[i]]: a missing entry is created, with zeros. *)
Definition status_at (i : LockDataId) : M st LockStatus :=
  s ← get;
  match lock_table_ s.1 !! i with
  | Some x => mret x
  | None => set_status i (mkStatus 0 NON_LOCK);; mret (mkStatus 0 NON_LOCK)
  end.

(** The first steps of both calls: they refuse an isolation level, and set the state
    whatever it was. *)
Definition enter : M st unit :=
  x ← gets snd;
  if decide (Txn.isolation_level_ x = READ_UNCOMMITTED) then
    upd_txn (Txn.set_state ABORTED);;
    throw (TransactionAbortException (Txn.txn_id_ x) LOCK_ON_SHIRINKING)
  else upd_txn (Txn.set_state GROWING).

Definition lock_shared_on_table (fd : Z) : M st bool :=
  enter;;
  let lock_data_id := LockDataId_table fd in
  s ← get;
  if decide (lock_data_id ∈ Txn.lock_set_ s.2) then mret true else
  match lock_table_ s.1 !! lock_data_id with
  | Some x =>
      if decide (mode x = LS) then
        set_status lock_data_id (mkStatus (shared_num x + 1) (mode x));;
        upd_txn (fun x => Txn.set_lock_set ({[lock_data_id]} ∪ Txn.lock_set_ x) x);;
        mret true
      else mret false
  | None =>
      upd_txn (fun x => Txn.set_lock_set ({[lock_data_id]} ∪ Txn.lock_set_ x) x);;
      set_status lock_data_id (mkStatus 1 LS);;
      mret true
  end.

Definition lock_exclusive_on_table (fd : Z) : M st bool :=
  enter;;
  let lock_data_id := LockDataId_table fd in
  s ← get;
  if decide (lock_data_id ∈ Txn.lock_set_ s.2) then
    status ← status_at lock_data_id;
    if decide (mode status = LS) then
      if 1 <? shared_num status then mret false
      else set_status lock_data_id (mkStatus (shared_num status) LX);; mret true
    else mret true
  else
  match lock_table_ s.1 !! lock_data_id with
  | Some _ => mret false
  | None =>
      upd_txn (fun x => Txn.set_lock_set ({[lock_data_id]} ∪ Txn.lock_set_ x) x);;
      set_status lock_data_id (mkStatus 0 LX);;
      mret true
  end.

(** The locks on records and the intention locks do nothing. *)
Definition lock_shared_on_record (rid : Rid) (fd : Z) : M st bool := mret true.
Definition lock_exclusive_on_record (rid : Rid) (fd : Z) : M st bool := mret true.
Definition lock_IS_on_table (fd : Z) : M st bool := mret true.
Definition lock_IX_on_table (fd : Z) : M st bool := mret true.

Definition unlock (lock_data_id : LockDataId) : M st bool :=
  upd_txn (Txn.set_state SHRINKING);;
  s ← get;
  match lock_table_ s.1 !! lock_data_id with
  | None => mret false
  | Some x =>
      (if decide (mode x = LS) then
         set_status lock_data_id (mkStatus (shared_num x - 1) (mode x));;
         whenM (shared_num x - 1 <=? 0) (erase lock_data_id)
       else erase lock_data_id);;
      mret true
  end.

(** ** Several transactions

    Each call runs under the latch of the lock table, so the calls of different
    transactions interleave as wholes.  A transaction that commits or aborts unlocks
    its locks one by one; [releasing] holds what it still has to unlock. *)
Record sys := mkSys {
  lm : t;
  txns : gmap Z Txn.t;
  releasing : gmap Z (list LockDataId);
}.

Inductive lock_op := Shared (fd : Z) | Exclusive (fd : Z).
Definition call (o : lock_op) : M st bool :=
  match o with Shared fd => lock_shared_on_table fd | Exclusive fd => lock_exclusive_on_table fd end.
Definition op_id (o : lock_op) : LockDataId :=
  match o with Shared fd | Exclusive fd => LockDataId_table fd end.

Inductive step : sys -> sys -> Prop :=
| step_begin s id iso m ts :
    txns s !! id = None ->
    step s (mkSys (lm s) (<[id := Txn.make m ts id iso]> (txns s)) (releasing s))
| step_lock s id x o lm' x' r :
    txns s !! id = Some x -> releasing s !! id = None ->
    call o (lm s, x) = ((lm', x'), r) ->
    step s (mkSys lm' (<[id := x']> (txns s)) (releasing s))
| step_release s id x l :
    txns s !! id = Some x -> releasing s !! id = None ->
    NoDup l -> (forall i, i ∈ l <-> i ∈ Txn.lock_set_ x) ->
    step s (mkSys (lm s) (txns s) (<[id := l]> (releasing s)))
| step_unlock s id x i l lm' x' r :
    txns s !! id = Some x -> releasing s !! id = Some (i :: l) ->
    unlock i (lm s, x) = ((lm', x'), r) ->
    step s (mkSys lm' (<[id := x']> (txns s)) (<[id := l]> (releasing s)))
| step_finish s id x final :
    txns s !! id = Some x -> releasing s !! id = Some [] ->
    final = COMMITTED \/ final = ABORTED ->
    step s (mkSys (lm s) (<[id := Txn.set_state final (Txn.set_lock_set ∅ x)]> (txns s)) (delete id (releasing s))).

Definition start : sys := mkSys make ∅ ∅.
Definition reachable (s : sys) : Prop := rtc step start s.

(** The locks a transaction has: its lock set, less what it has unlocked. *)
Definition held (s : sys) (id : Z) : gset LockDataId :=
  match txns s !! id with
  | None => ∅
  | Some x => match releasing s !! id with None => Txn.lock_set_ x | Some l => list_to_set l end
  end.
Definition holders (s : sys) (i : LockDataId) : gset Z := filter (fun id => i ∈ held s id) (dom (txns s)).

(** The entry of the lock table tells how many transactions share the lock, or that
    one has it to itself. *)
Definition entry_ok (e : option LockStatus) (h : gset Z) : Prop :=
  match e with
  | None => h = ∅
  | Some (mkStatus n LS) => n = Z.of_nat (size h) /\ 1 <= n
  | Some (mkStatus _ LX) => size h = 1%nat
  | _ => False
  end.
Definition inv (s : sys) : Prop := forall i, entry_ok (lock_table_ (lm s) !! i) (holders s i).

(** *** The invariant *)

Lemma elem_holders s i id : id ∈ holders s i <-> i ∈ held s id.
Proof.
  unfold holders. rewrite elem_of_filter, elem_of_dom. split; [tauto|]. intros Hi. split; [done|].
  unfold held in Hi. destruct (txns s !! id); [done|set_solver].
Qed.

Lemma holders_same s s' : (forall id, held s' id ≡ held s id) -> forall i, holders s' i = holders s i.
Proof. intros He i. apply set_eq. intros id. by rewrite !elem_holders, He. Qed.

Lemma holders_add s s' id i : held s' id ≡ {[i]} ∪ held s id ->
  (forall id', id' <> id -> held s' id' ≡ held s id') ->
  forall j, holders s' j = if decide (j = i) then {[id]} ∪ holders s j else holders s j.
Proof.
  intros Hi Ho j. apply set_eq. intros id'. rewrite elem_holders.
  destruct (decide (id' = id)) as [->|Hne]; [rewrite Hi|rewrite (Ho _ Hne)];
    destruct (decide (j = i)) as [->|Hj]; rewrite ?elem_of_union, ?elem_of_singleton, elem_holders; naive_solver.
Qed.

Lemma holders_del s s' id i : held s' id ≡ held s id ∖ {[i]} ->
  (forall id', id' <> id -> held s' id' ≡ held s id') ->
  forall j, holders s' j = if decide (j = i) then holders s j ∖ {[id]} else holders s j.
Proof.
  intros Hi Ho j. apply set_eq. intros id'. rewrite elem_holders.
  destruct (decide (id' = id)) as [->|Hne]; [rewrite Hi|rewrite (Ho _ Hne)];
    destruct (decide (j = i)) as [->|Hj]; rewrite ?elem_of_difference, ?elem_of_singleton, elem_holders; naive_solver.
Qed.

(** What a call does to the lock table and to the lock set of its transaction. *)
Inductive effect (i : LockDataId) (lk lk' : t) (a a' : gset LockDataId) : Prop :=
| eff_none : lk' = lk -> a' = a -> effect i lk lk' a a'
| eff_share x : i ∉ a -> lock_table_ lk !! i = Some x -> mode x = LS ->
    lk' = mk (<[i := mkStatus (shared_num x + 1) LS]> (lock_table_ lk)) -> a' = {[i]} ∪ a -> effect i lk lk' a a'
| eff_new x : i ∉ a -> lock_table_ lk !! i = None ->
    x = mkStatus 1 LS \/ x = mkStatus 0 LX ->
    lk' = mk (<[i := x]> (lock_table_ lk)) -> a' = {[i]} ∪ a -> effect i lk lk' a a'
| eff_upgrade x : i ∈ a -> lock_table_ lk !! i = Some x -> mode x = LS -> shared_num x <= 1 ->
    lk' = mk (<[i := mkStatus (shared_num x) LX]> (lock_table_ lk)) -> a' = a -> effect i lk lk' a a'
| eff_missing : i ∈ a -> lock_table_ lk !! i = None ->
    lk' = mk (<[i := mkStatus 0 NON_LOCK]> (lock_table_ lk)) -> a' = a -> effect i lk lk' a a'.

Lemma lock_status_eta x : mode x = LS -> mkStatus (shared_num x + 1) (mode x) = mkStatus (shared_num x + 1) LS.
Proof. by intros ->. Qed.

Lemma call_effect o lk x lk' x' r :
  call o (lk, x) = ((lk', x'), r) -> effect (op_id o) lk lk' (Txn.lock_set_ x) (Txn.lock_set_ x').
Proof.
  destruct o as [fd|fd]; simpl; unfold lock_shared_on_table, lock_exclusive_on_table, enter, status_at;
    unfold set_status, upd_txn, gets, throw, modify, get, mret, M_ret, mbind, M_bind; simpl;
    (case_decide; [intros [= <- <- <-]; by apply eff_none|]); cbv [mbind M_bind]; cbn [fst snd lock_table_ Txn.lock_set_ Txn.set_state Txn.set_lock_set];
    (destruct (decide (LockDataId_table fd ∈ Txn.lock_set_ x)) as [Hin|Hin]); cbv [mbind M_bind]; cbn [fst snd lock_table_ Txn.set_state].
  - intros [= <- <- <-]. by apply eff_none.
  - destruct (lock_table_ lk !! LockDataId_table fd) as [y|] eqn:E.
    + case_decide as Hm; intros [= <- <- <-]; [|by apply eff_none].
      eapply eff_share; try done. by rewrite Hm.
    + intros [= <- <- <-]. eapply eff_new; try done. by left.
  - destruct (lock_table_ lk !! LockDataId_table fd) as [y|] eqn:E; simpl.
    + case_decide as Hm; [|intros [= <- <- <-]; by apply eff_none].
      destruct (Z.ltb_spec 1 (shared_num y)); intros [= <- <- <-]; [by apply eff_none|].
      by eapply eff_upgrade.
    + intros [= <- <- <-]. by apply eff_missing.
  - destruct (lock_table_ lk !! LockDataId_table fd) as [y|] eqn:E; intros [= <- <- <-]; [by apply eff_none|].
    eapply eff_new; try done. by right.
Qed.

Lemma held_lock s id x lm' x' : txns s !! id = Some x -> releasing s !! id = None ->
  let s' := mkSys lm' (<[id := x']> (txns s)) (releasing s) in
  held s id = Txn.lock_set_ x /\ held s' id = Txn.lock_set_ x' /\ forall j, j <> id -> held s' j = held s j.
Proof.
  intros Hx Hr s'. unfold held, s'. simpl. rewrite lookup_insert_eq, Hx, Hr. split_and!; try done.
  intros j Hj. by rewrite lookup_insert_ne.
Qed.

Lemma size_singleton_eq (h : gset Z) id : size h = 1%nat -> id ∈ h -> h = {[id]}.
Proof.
  intros Hs Hi. apply size_1_elem_of in Hs as [y Hy]. set_solver.
Qed.

Lemma entry_add lk i h id e' :
  entry_ok (lock_table_ lk !! i) h -> id ∉ h ->
  (forall x, lock_table_ lk !! i = Some x -> mode x = LS /\ e' = mkStatus (shared_num x + 1) LS) ->
  (lock_table_ lk !! i = None -> e' = mkStatus 1 LS \/ e' = mkStatus 0 LX) ->
  entry_ok (Some e') ({[id]} ∪ h).
Proof.
  intros Ho Hni Hs Hn. destruct (lock_table_ lk !! i) as [[n m]|] eqn:E.
  - destruct (Hs _ eq_refl) as [Hm ->]. simpl in Hm. subst m. simpl in Ho |- *.
    rewrite size_union by set_solver. rewrite size_singleton. lia.
  - simpl in Ho. subst h. assert (size ({[id]} ∪ ∅ : gset Z) = 1%nat) as Hsz.
    { rewrite size_union by set_solver. by rewrite size_singleton, size_empty. }
    destruct (Hn eq_refl) as [->| ->]; cbn [entry_ok]; rewrite Hsz; lia.
Qed.

Lemma inv_call s id x o lm' x' r :
  inv s -> txns s !! id = Some x -> releasing s !! id = None -> call o (lm s, x) = ((lm', x'), r) ->
  inv (mkSys lm' (<[id := x']> (txns s)) (releasing s)).
Proof.
  intros Hi Hx Hr Hc. destruct (held_lock s id x lm' x' Hx Hr) as (Ha & Ha' & Hoth).
  set (s' := mkSys _ _ _) in *. apply call_effect in Hc. rewrite <- Ha, <- Ha' in Hc.
  assert (Hk : held s' id = held s id -> forall j, holders s' j = holders s j).
  { intros E. apply holders_same. intros j. destruct (decide (j = id)) as [->|Hne]; [by rewrite E|by rewrite Hoth]. }
  intros j. pose proof (Hi j) as Hj. pose proof (Hi (op_id o)) as Ho. change (lm s') with lm'.
  destruct Hc as [-> E|y Hni Hy Hm -> E|y Hni Hy Hyy -> E|y Hin Hy Hm Hle -> E|Hin Hy -> E]; simpl.
  - by rewrite (Hk E).
  - rewrite (holders_add s s' id (op_id o)) by (rewrite ?E; done || (intros; by rewrite Hoth)).
    destruct (decide (j = op_id o)) as [->|Hne]; [rewrite lookup_insert_eq|by rewrite lookup_insert_ne].
    eapply entry_add; [exact Ho|by rewrite elem_holders|intros z Hz; simplify_eq; done|congruence].
  - rewrite (holders_add s s' id (op_id o)) by (rewrite ?E; done || (intros; by rewrite Hoth)).
    destruct (decide (j = op_id o)) as [->|Hne]; [rewrite lookup_insert_eq|by rewrite lookup_insert_ne].
    eapply entry_add; [exact Ho|by rewrite elem_holders|congruence|done].
  - rewrite (Hk E). destruct (decide (j = op_id o)) as [->|Hne]; [rewrite lookup_insert_eq|by rewrite lookup_insert_ne].
    rewrite Hy in Ho. destruct y as [n m]. simpl in *. subst m. simpl in Ho. simpl. lia.
  - rewrite Hy in Ho. simpl in Ho. apply elem_holders in Hin. rewrite Ho in Hin. set_solver.
Qed.

Lemma inv_unlock s id x i l lm' x' r :
  inv s -> txns s !! id = Some x -> releasing s !! id = Some (i :: l) -> i ∉ l ->
  unlock i (lm s, x) = ((lm', x'), r) ->
  inv (mkSys lm' (<[id := x']> (txns s)) (<[id := l]> (releasing s))).
Proof.
  intros Hi Hx Hr Hnd Hc. set (s' := mkSys _ _ _).
  assert (Hh : held s id = {[i]} ∪ list_to_set l) by (unfold held; by rewrite Hx, Hr).
  assert (Hh' : held s' id ≡ held s id ∖ {[i]}).
  { rewrite Hh. unfold held, s'. simpl. rewrite !lookup_insert_eq. set_unfold. naive_solver. }
  assert (Hoth : forall j, j <> id -> held s' j ≡ held s j).
  { intros j Hj. unfold held, s'. simpl. by rewrite !lookup_insert_ne. }
  assert (Hin : id ∈ holders s i) by (apply elem_holders; rewrite Hh; set_solver).
  unfold unlock, upd_txn, set_status, erase, modify, get, mbind, M_bind, mret, M_ret in Hc. simpl in Hc.
  pose proof (Hi i) as Hei. intros j. rewrite (holders_del s s' id i Hh' Hoth). pose proof (Hi j) as Hj.
  destruct (lock_table_ (lm s) !! i) as [[n m]|] eqn:E.
  2: { exfalso. simpl in Hei. rewrite Hei in Hin. set_solver. }
  simpl in Hc. destruct (decide (m = LS)) as [->|Hm].
  - destruct Hei as [Hn H1]. assert (Hsz : size (holders s i ∖ {[id]}) = (size (holders s i) - 1)%nat).
    { rewrite size_difference, size_singleton by set_solver. done. }
    destruct (Z.leb_spec (n - 1) 0) as [Hle|Hlt]; simpl in Hc; injection Hc as <- <- <-; simpl.
    + rewrite delete_insert_eq. destruct (decide (j = i)) as [->|Hne].
      * rewrite lookup_delete_eq. apply leibniz_equiv, size_empty_inv. lia.
      * by rewrite lookup_delete_ne.
    + destruct (decide (j = i)) as [->|Hne].
      * rewrite lookup_insert_eq. simpl. lia.
      * by rewrite lookup_insert_ne.
  - injection Hc as <- <- <-. simpl. destruct (decide (j = i)) as [->|Hne].
    + rewrite lookup_delete_eq. destruct m; try done. simpl in Hei.
      rewrite (size_singleton_eq _ _ Hei Hin). set_solver.
    + by rewrite lookup_delete_ne.
Qed.

Definition ready (s : sys) : Prop :=
  inv s /\ forall id l, releasing s !! id = Some l -> NoDup l /\ is_Some (txns s !! id).

Lemma inv_same_held s s' : lm s' = lm s -> (forall id, held s' id ≡ held s id) -> inv s -> inv s'.
Proof. intros El Eh Hi i. rewrite El, (holders_same _ _ Eh). apply Hi. Qed.

Lemma ready_step s s' : ready s -> step s s' -> ready s'.
Proof.
  intros [Hi Hr] Hs. destruct Hs as [s id iso m ts Hn|s id x o lm' x' r Hx Hre Hc|s id x l Hx Hre Hnd Hl
    |s id x i l lm' x' r Hx Hre Hc|s id x final Hx Hre Hf].
  - split.
    + eapply (inv_same_held s); [done| |done]. intros j. unfold held. simpl.
      destruct (decide (j = id)) as [->|Hne]; [|by rewrite lookup_insert_ne].
      rewrite lookup_insert_eq, Hn. destruct (releasing s !! id) eqn:E; [|done].
      destruct (Hr _ _ E) as [_ [? ?]]. congruence.
    + intros j l. simpl. intros [? ?]%Hr. split; [done|]. apply lookup_insert_is_Some. destruct (decide (id = j)); auto.
  - split; [by eapply inv_call|]. intros j l. simpl. intros [? ?]%Hr. split; [done|].
    apply lookup_insert_is_Some. destruct (decide (id = j)); auto.
  - split.
    + eapply (inv_same_held s); [done| |done]. intros j. unfold held. simpl.
      destruct (decide (j = id)) as [->|Hne]; [|by rewrite lookup_insert_ne].
      rewrite lookup_insert_eq, Hx, Hre. intros i. by rewrite elem_of_list_to_set.
    + intros j l'. simpl. intros [[<- <-]|[_ Hl']]%lookup_insert_Some; [split; [done|by eexists]|by apply Hr].
  - pose proof (Hr _ _ Hre) as [Hnd _]. apply NoDup_cons in Hnd as [Hni Hnd]. split; [by eapply inv_unlock|].
    intros j l'. simpl. intros [[<- <-]|[Hne Hl']]%lookup_insert_Some.
    + split; [done|]. rewrite lookup_insert_eq. by eexists.
    + rewrite lookup_insert_ne by done. by apply Hr.
  - split.
    + eapply (inv_same_held s); [done| |done]. intros j. unfold held. simpl.
      destruct (decide (j = id)) as [->|Hne]; [|by rewrite lookup_insert_ne, lookup_delete_ne].
      by rewrite lookup_insert_eq, lookup_delete_eq, Hx, Hre.
    + intros j l. simpl. intros [Hne [? ?]%Hr]%lookup_delete_Some. by rewrite lookup_insert_ne.
Qed.

Lemma reachable_ready s : reachable s -> ready s.
Proof.
  intros Hr. unfold reachable in Hr. assert (ready start) as H0.
  { split; [|done]. intros i. simpl. rewrite lookup_empty. apply set_eq. intros id.
    rewrite elem_holders. set_solver. }
  revert H0. induction Hr; [done|]. intros H0. apply IHHr. by eapply ready_step.
Qed.

Lemma size_le_1 (h : gset Z) a b : (size h <= 1)%nat -> a ∈ h -> b ∈ h -> a = b.
Proof.
  intros Hs Ha Hb. destruct (decide (size h = 1%nat)) as [E|E].
  - pose proof (size_singleton_eq h a E Ha) as ->. set_solver.
  - assert (size h = 0%nat) as E0 by lia. apply size_empty_inv in E0. set_solver.
Qed.

Lemma entry_nonempty x : ~ entry_ok (Some x) ∅.
Proof.
  destruct x as [n m]. assert (size (∅ : gset Z) = 0%nat) as E by apply size_empty.
  destruct m; cbn [entry_ok]; rewrite ?E; lia || tauto.
Qed.

(** C15: whatever the interleaving of transactions that lock, unlock, commit and
    abort, a table that two transactions have locked is locked in shared mode: an
    exclusive lock is held alone; and the lock table has an entry exactly for the
    locks that are held, with their number. *)
Theorem lock_safety s i :
  reachable s ->
  (forall id1 id2, i ∈ held s id1 -> i ∈ held s id2 -> id1 <> id2 ->
     exists n, lock_table_ (lm s) !! i = Some (mkStatus n LS)) /\
  (lock_table_ (lm s) !! i = None <-> forall id, i ∉ held s id) /\
  (forall n, lock_table_ (lm s) !! i = Some (mkStatus n LS) -> n = Z.of_nat (size (holders s i))).
Proof.
  intros [Hi _]%reachable_ready. specialize (Hi i). destruct (lock_table_ (lm s) !! i) as [[n m]|] eqn:E.
  - assert (Hne : holders s i <> ∅).
    { intros Hz. rewrite Hz in Hi. by apply entry_nonempty in Hi. }
    split_and!.
    + intros id1 id2 Q1 Q2 Hd. exists n. destruct m; simpl in Hi; try done.
      destruct Hd. apply (size_le_1 (holders s i)); [lia|by apply elem_holders..].
    + split; [done|]. intros Hall. destruct Hne. apply set_eq. intros id. rewrite elem_holders. set_solver.
    + intros k [= -> ->]. by destruct Hi.
  - simpl in Hi. assert (Hno : forall id, i ∉ held s id) by (intros id; rewrite <- elem_holders, Hi; set_solver).
    split_and!; [|done|done]. intros id1 id2 Q1. by destruct (Hno id1).
Qed.

(** What the calls return, by what the transaction and the table hold. *)
Lemma shared_result s x fd r :
  Txn.isolation_level_ x <> READ_UNCOMMITTED -> (lock_shared_on_table fd (lm s, x)).2 = Ok r ->
  r = true <-> LockDataId_table fd ∈ Txn.lock_set_ x \/
    match lock_table_ (lm s) !! LockDataId_table fd with Some y => mode y = LS | None => True end.
Proof.
  intros Hiso. unfold lock_shared_on_table, enter.
  unfold set_status, upd_txn, gets, throw, modify, get, mret, M_ret, mbind, M_bind; simpl.
  rewrite decide_False by done. cbv [mbind M_bind]. cbn [fst snd lock_table_ Txn.lock_set_ Txn.set_state].
  destruct (decide (LockDataId_table fd ∈ Txn.lock_set_ x)) as [Hin|Hin]; simpl.
  - intros [= <-]. naive_solver.
  - destruct (lock_table_ (lm s) !! LockDataId_table fd) as [y|]; simpl.
    + case_decide; simpl; intros [= <-]; naive_solver.
    + intros [= <-]. naive_solver.
Qed.

Lemma exclusive_result s x fd r :
  Txn.isolation_level_ x <> READ_UNCOMMITTED -> (lock_exclusive_on_table fd (lm s, x)).2 = Ok r ->
  r = true <->
    match lock_table_ (lm s) !! LockDataId_table fd with
    | Some y => LockDataId_table fd ∈ Txn.lock_set_ x /\ (mode y = LS -> shared_num y <= 1)
    | None => True
    end.
Proof.
  intros Hiso. unfold lock_exclusive_on_table, enter, status_at.
  unfold set_status, upd_txn, gets, throw, modify, get, mret, M_ret, mbind, M_bind; simpl.
  rewrite decide_False by done. cbv [mbind M_bind]. cbn [fst snd lock_table_ Txn.lock_set_ Txn.set_state].
  destruct (decide (LockDataId_table fd ∈ Txn.lock_set_ x)) as [Hin|Hin]; cbv [mbind M_bind];
    cbn [fst snd lock_table_ Txn.lock_set_ Txn.set_state];
    destruct (lock_table_ (lm s) !! LockDataId_table fd) as [y|]; simpl.
  - destruct (decide (mode y = LS)) as [E|E]; simpl.
    + destruct (Z.ltb_spec 1 (shared_num y)); simpl; intros [= <-]; [|naive_solver].
      split; [done|]. intros [_ Hle]. specialize (Hle E). lia.
    + intros [= <-]. naive_solver.
  - intros [= <-]. naive_solver.
  - intros [= <-]. naive_solver.
  - intros [= <-]. naive_solver.
Qed.

(** C16: when a lock is granted.  In every reachable state, a running transaction
    gets a table exclusively exactly when no other transaction holds it, and shared
    exactly when it has it already or no other one holds it exclusively; otherwise
    the call answers no at once. *)
Theorem lock_granted_iff s id x fd rs rx :
  reachable s -> txns s !! id = Some x -> releasing s !! id = None ->
  Txn.isolation_level_ x <> READ_UNCOMMITTED ->
  (lock_shared_on_table fd (lm s, x)).2 = Ok rs -> (lock_exclusive_on_table fd (lm s, x)).2 = Ok rx ->
  let i := LockDataId_table fd in
  (rx = true <-> forall id', id' <> id -> i ∉ held s id') /\
  (rs = true <-> i ∈ held s id \/
     ~ exists id' n, id' <> id /\ i ∈ held s id' /\ lock_table_ (lm s) !! i = Some (mkStatus n LX)).
Proof.
  intros Hre Hx Hr Hiso Hs Hxx i. destruct (reachable_ready _ Hre) as [Hi _]. specialize (Hi i).
  assert (Hh : held s id = Txn.lock_set_ x) by (unfold held; by rewrite Hx, Hr).
  rewrite (shared_result _ _ _ _ Hiso Hs), (exclusive_result _ _ _ _ Hiso Hxx). fold i. rewrite <- Hh.
  destruct (lock_table_ (lm s) !! i) as [[n m]|] eqn:E; simpl.
  - split.
    + split.
      * intros [Hin Hn] id' Hne Hin'. assert (size (holders s i) <= 1)%nat.
        { destruct m; simpl in Hi; try done; [specialize (Hn eq_refl)|]; lia. }
        destruct Hne. by apply (size_le_1 (holders s i)); [|apply elem_holders..].
      * intros Hall. assert (Hsub : holders s i ⊆ {[id]}).
        { intros id' Hid'%elem_holders. destruct (decide (id' = id)); [set_solver|]. by destruct (Hall id'). }
        assert (Hsz : (size (holders s i) <= 1)%nat) by (apply subseteq_size in Hsub; by rewrite size_singleton in Hsub).
        assert (exists id', id' ∈ holders s i) as [id' Hid'].
        { apply set_choose_L. intros Hz. rewrite Hz in Hi. by apply entry_nonempty in Hi. }
        assert (id' = id) as -> by set_solver. split; [by apply elem_holders|].
        intros ->. simpl in Hi. lia.
    + split; [intros [?|Hm]; [by left|right; intros (id' & k & _ & _ & [= _ Hk]); congruence]|].
      intros [?|Hno]; [by left|]. destruct (decide (i ∈ held s id)); [by left|right].
      destruct m; simpl in Hi; try done. destruct Hno.
      destruct (size_1_elem_of (holders s i) Hi) as [id' Hid'].
      assert (Hin' : i ∈ held s id') by (apply elem_holders; set_solver).
      exists id', n. split_and!; [by intros ->|done|done].
  - simpl in Hi. assert (Hno : forall id', i ∉ held s id') by (intros id'; rewrite <- elem_holders, Hi; set_solver).
    split; [naive_solver|]. split; [|intros _; by right]. intros _. right. by intros (id' & k & _ & _ & Q).
Qed.

(** Locking is strict: until a transaction commits or aborts it keeps every lock
    it was granted, whatever it and the others do. *)
Theorem locks_kept s s' id :
  step s s' -> is_Some (txns s !! id) -> releasing s !! id = None -> releasing s' !! id = None ->
  held s id ⊆ held s' id.
Proof.
  intros Hs Hid Hr Hr'. destruct Hs as [s j iso m ts Hn|s j x o lm' x' r Hx Hre Hc|s j x l Hx Hre Hnd Hl
    |s j x i l lm' x' r Hx Hre Hc|s j x final Hx Hre Hf]; simpl in Hr'.
  - assert (j <> id) by (intros ->; rewrite Hn in Hid; by destruct Hid).
    unfold held. simpl. by rewrite lookup_insert_ne.
  - destruct (held_lock s j x lm' x' Hx Hre) as (Ha & Ha' & Hoth).
    destruct (decide (id = j)) as [->|Hne]; [|by rewrite Hoth].
    rewrite Ha, Ha'. apply call_effect in Hc. destruct Hc as [_ E|y _ _ _ _ E|y _ _ _ _ E|y _ _ _ _ _ E|_ _ _ E];
      rewrite E; set_solver.
  - destruct (decide (id = j)) as [->|Hne]; [by rewrite lookup_insert_eq in Hr'|].
    unfold held. simpl. by rewrite lookup_insert_ne.
  - destruct (decide (id = j)) as [->|Hne]; [congruence|]. unfold held. simpl. by rewrite !lookup_insert_ne.
  - destruct (decide (id = j)) as [->|Hne]; [congruence|]. unfold held. simpl. by rewrite lookup_insert_ne, lookup_delete_ne.
Qed.

(** A transaction in the shrinking phase is not refused: both calls test the
    isolation level where they mean the state, and put the state back to growing, so
    the manager itself does not enforce two-phase locking. *)
Theorem shrinking_not_refused lk x fd o :
  Txn.state_ x = SHRINKING -> Txn.isolation_level_ x = SERIALIZABLE ->
  (o = Shared fd \/ o = Exclusive fd) ->
  exists lk' x' b, call o (lk, x) = ((lk', x'), Ok b) /\ Txn.state_ x' = GROWING.
Proof.
  intros Hst Hiso Ho. destruct Ho as [->| ->]; cbn [call];
    unfold lock_shared_on_table, lock_exclusive_on_table, enter, status_at;
    unfold set_status, upd_txn, gets, throw, modify, get, mret, M_ret, mbind, M_bind; simpl;
    rewrite (decide_False (P := Txn.isolation_level_ x = _)) by congruence; cbv [mbind M_bind];
    cbn [fst snd lock_table_ Txn.lock_set_ Txn.set_state];
    destruct (decide (LockDataId_table fd ∈ Txn.lock_set_ x)); cbv [mbind M_bind];
    cbn [fst snd lock_table_ Txn.lock_set_ Txn.set_state]; try (by eexists _, _, _);
    (destruct (lock_table_ lk !! LockDataId_table fd) as [y|]; [|by eexists _, _, _]); simpl;
    try (destruct (decide (mode y = LS))); try (by eexists _, _, _).
  destruct (1 <? shared_num y); by eexists _, _, _.
Qed.

(** *** Witnesses: two transactions and table 7 *)

Definition t0 : Txn.t := Txn.make false 0 0 SERIALIZABLE.
Definition t1 : Txn.t := Txn.make false 0 1 SERIALIZABLE.
Definition one : sys := mkSys (lm start) (<[0 := t0]> (txns start)) (releasing start).
Definition both : sys := mkSys (lm one) (<[1 := t1]> (txns one)) (releasing one).
Definition after (s : sys) (id : Z) (x : Txn.t) (o : lock_op) : sys :=
  let r := call o (lm s, x) in mkSys (r.1).1 (<[id := (r.1).2]> (txns s)) (releasing s).
Definition shared_by_0 : sys := after both 0 t0 (Shared 7).
Definition shared_by_both : sys := after shared_by_0 1 t1 (Shared 7).

Lemma both_reachable : reachable both.
Proof.
  apply (rtc_l _ _ one); [by apply (step_begin start 0 SERIALIZABLE false 0)|].
  apply (rtc_l _ _ both); [by apply (step_begin one 1 SERIALIZABLE false 0)|apply rtc_refl].
Qed.

Lemma after_reachable s id x o : reachable s -> txns s !! id = Some x -> releasing s !! id = None ->
  reachable (after s id x o).
Proof.
  intros Hr Hx Hre. eapply rtc_r; [exact Hr|]. unfold after.
  destruct (call o (lm s, x)) as [[lm' x'] r] eqn:E. simpl. by eapply step_lock.
Qed.

Lemma shared_reachable : reachable shared_by_both.
Proof. repeat (apply after_reachable; [|reflexivity..]). apply both_reachable. Qed.

Lemma lock_safety_witness :
  reachable shared_by_both /\ LockDataId_table 7 ∈ held shared_by_both 0 /\
  (exists n, lock_table_ (lm shared_by_both) !! LockDataId_table 7 = Some (mkStatus n LS)).
Proof.
  assert (Q0 : LockDataId_table 7 ∈ held shared_by_both 0) by (apply (bool_decide_unpack _); vm_compute; exact I).
  assert (Q1 : LockDataId_table 7 ∈ held shared_by_both 1) by (apply (bool_decide_unpack _); vm_compute; exact I).
  split; [exact shared_reachable|]. split; [exact Q0|].
  destruct (lock_safety shared_by_both (LockDataId_table 7) shared_reachable) as (Hl & _).
  apply (Hl 0 1 Q0 Q1). discriminate.
Defined.

Lemma lock_granted_iff_witness :
  let x := (call (Shared 7) (lm shared_by_0, t1)).1.2 in
  (true = true <-> LockDataId_table 7 ∈ held shared_by_both 1 \/
     ~ exists id' n, id' <> 1 /\ LockDataId_table 7 ∈ held shared_by_both id' /\
       lock_table_ (lm shared_by_both) !! LockDataId_table 7 = Some (mkStatus n LX)) /\
  (false = true <-> forall id', id' <> 1 -> LockDataId_table 7 ∉ held shared_by_both id').
Proof.
  intros x. destruct (lock_granted_iff shared_by_both 1 x 7 true false shared_reachable
    ltac:(vm_compute; reflexivity) ltac:(vm_compute; reflexivity) ltac:(discriminate)
    ltac:(vm_compute; reflexivity) ltac:(vm_compute; reflexivity)) as [Q1 Q2].
  split; [exact Q2|exact Q1].
Defined.

Lemma locks_kept_witness : held shared_by_0 0 ⊆ held shared_by_both 0.
Proof.
  apply (locks_kept shared_by_0 shared_by_both 0).
  - unfold shared_by_both, after. destruct (call (Shared 7) (lm shared_by_0, t1)) as [[lm' x'] r] eqn:E.
    simpl. eapply step_lock; [| |exact E]; reflexivity.
  - eexists. vm_compute. reflexivity.
  - reflexivity.
  - reflexivity.
Defined.

Lemma shrinking_not_refused_witness :
  exists lk' x' b, call (Exclusive 7) (make, Txn.set_state SHRINKING t0) = ((lk', x'), Ok b) /\
    Txn.state_ x' = GROWING.
Proof.
  apply (shrinking_not_refused make (Txn.set_state SHRINKING t0) 7 (Exclusive 7)); [reflexivity|reflexivity|right; reflexivity].
Defined.
End LockManager.

(** ** [Context] and what the operations on tables use of it *)

(** What a non-null [Context *] gives access to. *)
Class TxnContext (C : Type) := {
  cx_lock_shared_on_record : Rid -> Z -> M C bool;
  cx_lock_exclusive_on_record : Rid -> Z -> M C bool;
  cx_txn_id : C -> Z;
  cx_prev_lsn : C -> Z;
  cx_set_prev_lsn : Z -> C -> C;
  cx_add_log : log_record -> M C Z;
}.

(** Reading and writing [context->txn_]. *)
Class HasTxn (C : Type) := {
  cx_txn : C -> Txn.t;
  cx_set_txn : Txn.t -> C -> C;
}.
Class TxnLens (C : Type) `{HasTxn C} := {
  lens_get_set x (c : C) : cx_txn (cx_set_txn x c) = x;
  lens_set_get (c : C) : cx_set_txn (cx_txn c) c = c;
  lens_set_set x y (c : C) : cx_set_txn x (cx_set_txn y c) = cx_set_txn x c;
}.

(** The calls on tables, locks and the log that whole statements make. *)
Class StmtContext (C : Type) := {
  cx_lock_shared_on_table : Z -> M C bool;
  cx_lock_exclusive_on_table : Z -> M C bool;
  cx_unlock : LockDataId -> M C bool;
  cx_flush_log : M C unit;
  cx_add_idx_log : M C unit;
}.

(** What logging leaves alone: the write set of the transaction. *)
Class TxnLaws (C : Type) `{TxnContext C} `{HasTxn C} `{StmtContext C} := {
  cx_txn_set x c : cx_txn (cx_set_txn x c) = x;
  cx_prev_writes n c : Txn.write_set_ (cx_txn (cx_set_prev_lsn n c)) = Txn.write_set_ (cx_txn c);
  cx_log_writes r c : Txn.write_set_ (cx_txn (cx_add_log r c).1) = Txn.write_set_ (cx_txn c);
  cx_idx_writes c : Txn.write_set_ (cx_txn (cx_add_idx_log c).1) = Txn.write_set_ (cx_txn c);
  cx_flush_writes c : Txn.write_set_ (cx_txn (cx_flush_log c).1) = Txn.write_set_ (cx_txn c);
}.

Module Context.
Section context.
Context (buffer_size : Z) {D : Type} `{LogDisk D}.

(** The managers the context points to, its transaction, and the reply buffer of
    the statement. *)
Record t := mk {
  lock_mgr_ : LockManager.t;
  log_mgr_ : LogManager.t D;
  txn_ : Txn.t;
  data_send_ : bytes;
  offset_ : Z;
  ellipsis_ : bool;
}.

(** The constructor. *)
Definition make (lock_mgr : LockManager.t) (log_mgr : LogManager.t D) (txn : Txn.t) (data_send : bytes) (offset : Z) : t :=
  mk lock_mgr log_mgr txn data_send offset false.

Definition set_log_mgr (l : LogManager.t D) (s : t) : t :=
  mk (lock_mgr_ s) l (txn_ s) (data_send_ s) (offset_ s) (ellipsis_ s).
Definition set_txn (x : Txn.t) (s : t) : t :=
  mk (lock_mgr_ s) (log_mgr_ s) x (data_send_ s) (offset_ s) (ellipsis_ s).
Definition set_locks (p : LockManager.st) (s : t) : t :=
  mk p.1 (log_mgr_ s) p.2 (data_send_ s) (offset_ s) (ellipsis_ s).

Definition on_log {A} (m : M (LogManager.t D) A) : M t A := zoom log_mgr_ set_log_mgr m.
Definition on_locks {A} (m : M LockManager.st A) : M t A := zoom (fun s => (lock_mgr_ s, txn_ s)) set_locks m.
Definition add_log (r : log_record) : M t Z := on_log (LogManager.add_log_to_buffer buffer_size r).

(** [rec.prev_lsn_ = lsn]. *)
Definition set_hdr_prev (n : Z) (h : LogRecord) : LogRecord :=
  mkLogRecord (log_type_ h) (lsn_ h) (log_tot_len_ h) (log_tid_ h) n.

(** [Transaction::add_idx_log]: each record of the index pages is added, chained to
    the one before it. *)
Fixpoint add_idx_logs (l : list IndexPagesLogRecord) (lsn : Z) : M t unit :=
  match l with
  | [] => mret tt
  | r :: l' =>
      lsn ← add_log (with_header (set_hdr_prev lsn (ip_hdr r)) (LIndexPages r));
      modify (fun s => set_txn (Txn.set_prev_lsn lsn (txn_ s)) s);;
      add_idx_logs l' lsn
  end.
Definition add_idx_log : M t unit :=
  x ← gets txn_;
  add_idx_logs (Txn.log_records x) (Txn.prev_lsn_ x);;
  modify (fun s => set_txn (Txn.clear_logs (txn_ s)) s).

#[global] Instance context_TxnContext : TxnContext t := {
  cx_lock_shared_on_record rid fd := on_locks (LockManager.lock_shared_on_record rid fd);
  cx_lock_exclusive_on_record rid fd := on_locks (LockManager.lock_exclusive_on_record rid fd);
  cx_txn_id s := Txn.txn_id_ (txn_ s);
  cx_prev_lsn s := Txn.prev_lsn_ (txn_ s);
  cx_set_prev_lsn n s := set_txn (Txn.set_prev_lsn n (txn_ s)) s;
  cx_add_log := add_log;
}.
#[global] Instance context_HasTxn : HasTxn t := { cx_txn := txn_; cx_set_txn := set_txn }.
#[global] Instance context_TxnLens : TxnLens t.
Proof. split; [done|by intros []|done]. Qed.
#[global] Instance context_StmtContext : StmtContext t := {
  cx_lock_shared_on_table fd := on_locks (LockManager.lock_shared_on_table fd);
  cx_lock_exclusive_on_table fd := on_locks (LockManager.lock_exclusive_on_table fd);
  cx_unlock i := on_locks (LockManager.unlock i);
  cx_flush_log := on_log (LogManager.flush_log_to_disk buffer_size);
  cx_add_idx_log := add_idx_log;
}.

(** *** What the log operations do *)

(** The locks and the members of the transaction that are not about its log. *)
Definition alike (s s' : t) : Prop :=
  lock_mgr_ s' = lock_mgr_ s /\ Txn.lock_set_ (txn_ s') = Txn.lock_set_ (txn_ s) /\
  Txn.write_set_ (txn_ s') = Txn.write_set_ (txn_ s) /\ Txn.page_pins_ (txn_ s') = Txn.page_pins_ (txn_ s) /\
  Txn.txn_id_ (txn_ s') = Txn.txn_id_ (txn_ s).

Lemma alike_refl s : alike s s.
Proof. by split_and!. Qed.

Lemma alike_trans s1 s2 s3 : alike s1 s2 -> alike s2 s3 -> alike s1 s3.
Proof. unfold alike. intros (? & ? & ? & ? & ?) (? & ? & ? & ? & ?). split_and!; congruence. Qed.

Lemma on_log_alike {A} (m : M (LogManager.t D) A) s : alike s (on_log m s).1 /\ txn_ (on_log m s).1 = txn_ s.
Proof. unfold on_log, zoom. by destruct (m (log_mgr_ s)). Qed.

Lemma add_idx_logs_alike l : forall lsn s, alike s (add_idx_logs l lsn s).1.
Proof.
  induction l as [|r l IH]; intros lsn s; [apply alike_refl|]. cbn [add_idx_logs]. unfold mbind, M_bind.
  destruct (on_log_alike (LogManager.add_log_to_buffer buffer_size
    (with_header (set_hdr_prev lsn (ip_hdr r)) (LIndexPages r))) s) as [Ha _].
  unfold add_log. destruct (on_log _ s) as [s1 [n|e]]; [|done].
  eapply alike_trans; [exact Ha|]. eapply alike_trans; [|apply IH]. by split_and!.
Qed.

Lemma add_idx_log_alike s : alike s (add_idx_log s).1.
Proof.
  unfold add_idx_log, mbind, M_bind, gets. pose proof (add_idx_logs_alike (Txn.log_records (txn_ s)) (Txn.prev_lsn_ (txn_ s)) s) as Ha.
  destruct (add_idx_logs _ _ s) as [s1 [u|e]]; [|done]. eapply alike_trans; [exact Ha|]. by split_and!.
Qed.

(** The log is run on the records, one after the other. *)
Definition logs_run (k : list IndexPagesLogRecord) (s s' : t) : Prop :=
  exists l, length l = length k /\ forall ops g ns,
    LogManager.run buffer_size ops (log_mgr_ s') = (g, Ok ns) ->
    exists ns', LogManager.run buffer_size ((LogManager.Add <$> (LIndexPages <$> l)) ++ ops) (log_mgr_ s) = (g, Ok ns').

Lemma add_log_run r s s' n ops g ns : add_log r s = (s', Ok n) ->
  LogManager.run buffer_size ops (log_mgr_ s') = (g, Ok ns) ->
  LogManager.run buffer_size (LogManager.Add r :: ops) (log_mgr_ s) = (g, Ok (n :: ns)).
Proof.
  unfold add_log, on_log, zoom. intros Hr Hn. destruct (LogManager.add_log_to_buffer _ _ _) as [g' [m|e]] eqn:E; [|done].
  injection Hr as <- <-. cbn [log_mgr_ set_log_mgr] in Hn.
  cbn [LogManager.run]. rewrite (bind_ok _ _ _ _ _ E). by rewrite (bind_ok _ _ _ _ _ Hn).
Qed.

Lemma add_idx_logs_run k : forall lsn s s' u, add_idx_logs k lsn s = (s', Ok u) -> logs_run k s s'.
Proof.
  induction k as [|r k IH]; intros lsn s s' u Hv; cbn [add_idx_logs] in Hv.
  - injection Hv as <- _. exists []. split; [done|]. eauto.
  - apply bind_inv in Hv as (s1 & n & Ha & Hv). apply bind_inv in Hv as (s2 & v & Hm & Hv). injection Hm as <- _.
    apply IH in Hv as (l & Hl & Hrun). cbn [log_mgr_ set_txn] in Hrun.
    exists (mkIndexPages (set_hdr_prev lsn (ip_hdr r)) (idx_name r) (page_ids r) (ip_pages r) (hdr_len r) (file_hdr r) :: l).
    split; [by simpl; f_equal|]. intros ops g ns Hn. destruct (Hrun _ _ _ Hn) as [ns' Hns]. exists (n :: ns').
    rewrite !fmap_cons. exact (add_log_run _ _ _ _ _ _ _ Ha Hns).
Qed.

Lemma add_idx_log_run s s' u : add_idx_log s = (s', Ok u) -> logs_run (Txn.log_records (txn_ s)) s s'.
Proof.
  unfold add_idx_log. intros Hr. apply bind_inv in Hr as (s1 & x & Hx & Hr). injection Hx as <- <-.
  apply bind_inv in Hr as (s2 & v & Ha & Hr). injection Hr as <- _. exact (add_idx_logs_run _ _ _ _ _ Ha).
Qed.

#[global] Instance context_TxnLaws : TxnLaws t.
Proof.
  split.
  - done.
  - done.
  - intros r s. apply (on_log_alike (LogManager.add_log_to_buffer buffer_size r) s).
  - intros s. apply add_idx_log_alike.
  - intros s. apply (on_log_alike (LogManager.flush_log_to_disk buffer_size) s).
Qed.
End context.
Arguments t D : clear implicits.
End Context.
