(* ===== verification/Record.v ===== *)
(** * The record manager

    [record/rm_file_handle.h], [rm_file_handle.cpp], [rm_manager.h], [rm_scan.h] and
    [rm_scan.cpp].  Module [RmPage] is the layout of a page of records
    ([RmPageHandle]), Module [RmFileHandle] the operations on a table file over the
    buffer pool, Modules [RmManager] and [RmScan] the classes of those names.
    [Files] is what they use of the disk manager; what they use of [Context] (the
    lock manager, the transaction and the log manager) is the class [TxnContext]. *)

From Stdlib Require Import Sorting.Sorted.
From S2P Require Import Prelude Common Posix Replacer Disk Buffer RmDefs Log Transaction.

(** ** Interfaces *)

(** The disk manager's file operations.  [fl_read] and [fl_write] are [read_page]
    and [write_page] with a page size of [n] bytes, at page 0. *)
Class Files (D : Type) := {
  fl_write : Z -> bytes -> nat -> M D unit;
  fl_read : Z -> nat -> D -> D * (bytes * res unit);
  fl_set_fd2pageno : Z -> Z -> M D unit;
  fl_get_file_name : Z -> M D string;
  fl_create_file : string -> M D unit;
  fl_destroy_file : string -> M D unit;
  fl_open_file : string -> M D Z;
  fl_close_file : Z -> M D unit;
  fl_is_file : string -> M D bool;
}.
(** Asking for the name of an open file changes nothing. *)
Class FileNames (D : Type) `{Files D} := fl_name_keeps f (d : D) : (fl_get_file_name f d).1 = d.

#[global] Instance DiskManager_Files {O : Type} `{Posix O} : Files (DiskManager.t O) := {
  fl_write f bs n := DiskManager.write_page f 0 bs n;
  fl_read f n d := DiskManager.read_page f 0 (replicate n 0) n d;
  fl_set_fd2pageno := DiskManager.set_fd2pageno;
  fl_get_file_name := DiskManager.get_file_name;
  fl_create_file := DiskManager.create_file;
  fl_destroy_file := DiskManager.destroy_file;
  fl_open_file := DiskManager.open_file;
  fl_close_file := DiskManager.close_file;
  fl_is_file := DiskManager.is_file;
}.
#[global] Instance DiskManager_FileNames {O : Type} `{Posix O} : FileNames (DiskManager.t O).
Proof.
  intros f d. unfold fl_get_file_name. cbn. unfold DiskManager.get_file_name, mbind, M_bind, get. by destruct (_ !! _).
Qed.

(** ** [RmPageHandle]: the layout of a page of records *)
Module RmPage.

(** [page_hdr], [bitmap] and [slots] as offsets in [page->get_data()]. *)
Definition hdr_off : nat := BufferPool.OFFSET_PAGE_HDR.
Definition bitmap_off : nat := sizeof_RmPageHdr + BufferPool.OFFSET_PAGE_HDR.

Definition next_free_page_no (pg : bytes) : Z := load_i32 pg hdr_off.
Definition num_records (pg : bytes) : Z := load_i32 pg (hdr_off + 4).
Definition set_next_free_page_no (z : Z) (pg : bytes) : bytes := store_32 pg hdr_off z.
Definition set_num_records (z : Z) (pg : bytes) : bytes := store_32 pg (hdr_off + 4) z.

(** The bitmap is the memory from [bitmap] on. *)
Definition bitmap (pg : bytes) : bytes := drop bitmap_off pg.
Definition on_bitmap (f : bytes -> bytes) (pg : bytes) : bytes := take bitmap_off pg ++ f (drop bitmap_off pg).

(** [get_slot]: where the slot starts, from the start of the page. *)
Definition slot_off (h : RmFileHdr) (slot_no : Z) : Z :=
  Z.of_nat bitmap_off + bitmap_size h + slot_no * record_size h.

(** The slot is inside the page: the code does not check, and touches other memory
    when it is not. *)
Definition slot_ok (h : RmFileHdr) (slot_no : Z) : bool :=
  (0 <=? slot_off h slot_no) && (0 <=? record_size h) &&
  (slot_off h slot_no + record_size h <=? PAGE_SIZE).

Definition read_slot (h : RmFileHdr) (slot_no : Z) (pg : bytes) : bytes :=
  mem_read pg (Z.to_nat (slot_off h slot_no)) (Z.to_nat (record_size h)).
Definition write_slot (h : RmFileHdr) (slot_no : Z) (buf pg : bytes) : bytes :=
  mem_write pg (Z.to_nat (slot_off h slot_no)) (take (Z.to_nat (record_size h)) buf).

(** The header of a new page: no records, no next free page, an empty bitmap. *)
Definition init_page (h : RmFileHdr) (pg : bytes) : bytes :=
  on_bitmap (Bitmap.init (bitmap_size h)) (set_next_free_page_no RM_NO_PAGE (set_num_records 0 pg)).

(** *** The slots of a page *)

(** A header whose pages have room for their bitmap and slots. *)
Record hdr_ok (h : RmFileHdr) : Prop := {
  ho_size : 1 <= record_size h;
  ho_n : 1 <= num_records_per_page h;
  ho_bits : num_records_per_page h <= 8 * bitmap_size h;
  ho_fits : 12 + bitmap_size h + num_records_per_page h * record_size h <= PAGE_SIZE;
}.

(** The records of a page, by slot. *)
Definition slots (h : RmFileHdr) (pg : bytes) (i : Z) : option bytes :=
  if decide (0 <= i < num_records_per_page h) then
    if Bitmap.is_set (bitmap pg) i then Some (read_slot h i pg) else None
  else None.

(** How many there are. *)
Definition count_upto (pg : bytes) (n : nat) : Z :=
  Z.of_nat (length (filter (fun i => Bitmap.is_set (bitmap pg) (Z.of_nat i) = true) (seq 0 n))).
Definition count (h : RmFileHdr) (pg : bytes) : Z :=
  count_upto pg (Z.to_nat (num_records_per_page h)).

Section page.
Context (h : RmFileHdr) (Hh : hdr_ok h).

Lemma slot_bounds i : 0 <= i < num_records_per_page h ->
  12 + bitmap_size h <= slot_off h i /\ slot_off h i + record_size h <= PAGE_SIZE.
Proof.
  intros Hi. unfold slot_off. change (Z.of_nat bitmap_off) with 12.
  destruct Hh as [Q1 Q2 Q3 Q4]. split; [nia|].
  assert (i * record_size h + record_size h <= num_records_per_page h * record_size h) by nia. lia.
Qed.

Lemma slot_ok_in i : 0 <= i < num_records_per_page h -> slot_ok h i = true.
Proof.
  intros Hi. destruct (slot_bounds i Hi). destruct Hh as [Q1 Q2 Q3 Q4]. unfold slot_ok.
  rewrite !andb_true_iff, !Z.leb_le. lia.
Qed.

Lemma slot_disjoint i j : i <> j ->
  slot_off h i + record_size h <= slot_off h j \/ slot_off h j + record_size h <= slot_off h i.
Proof. intros Hij. unfold slot_off. destruct Hh as [Q1 Q2 Q3 Q4]. nia. Qed.

(** The byte of the bitmap a bit is in. *)
Lemma bucket_bounds i : 0 <= i < num_records_per_page h -> 0 <= i / 8 < bitmap_size h.
Proof.
  intros Hi. destruct Hh as [Q1 Q2 Q3 Q4]. split; [apply Z.div_pos; lia|].
  apply Z.div_lt_upper_bound; lia.
Qed.

Lemma is_set_ext pg pg' i : 0 <= i ->
  pg !! (12 + Z.to_nat (i / 8))%nat = pg' !! (12 + Z.to_nat (i / 8))%nat ->
  Bitmap.is_set (bitmap pg) i = Bitmap.is_set (bitmap pg') i.
Proof.
  intros Hi E. rewrite !Bitmap.is_set_testbit by done. unfold bitmap.
  change bitmap_off with 12%nat. by rewrite !lookup_drop, E.
Qed.

Lemma length_on_bitmap f pg : (forall b, length (f b) = length b) -> length (on_bitmap f pg) = length pg.
Proof. intros Hf. unfold on_bitmap. rewrite length_app, Hf, length_take, length_drop. lia. Qed.

Lemma lookup_on_bitmap_lt f pg i : (i < 12)%nat -> (12 <= length pg)%nat -> on_bitmap f pg !! i = pg !! i.
Proof.
  intros Hi Hl. unfold on_bitmap. change bitmap_off with 12%nat.
  rewrite lookup_app_l by (rewrite length_take; lia). by apply lookup_take_lt.
Qed.

Lemma bitmap_on_bitmap f pg : (12 <= length pg)%nat -> bitmap (on_bitmap f pg) = f (bitmap pg).
Proof.
  intros Hl. unfold bitmap, on_bitmap. change bitmap_off with 12%nat.
  rewrite drop_app_length'; [done|]. rewrite length_take. lia.
Qed.

(** Changing one bit leaves the header and the slots. *)
Lemma on_bitmap_alter_lookup (g : Z -> Z) pg k i : (12 <= length pg)%nat -> i <> (12 + k)%nat ->
  on_bitmap (alter g k) pg !! i = pg !! i.
Proof.
  intros Hl Hi. unfold on_bitmap. change bitmap_off with 12%nat. destruct (decide (i < 12)%nat).
  - rewrite lookup_app_l by (rewrite length_take; lia). by apply lookup_take_lt.
  - rewrite lookup_app_r by (rewrite length_take; lia). rewrite length_take, Nat.min_l by lia.
    rewrite list_lookup_alter_ne by lia. rewrite lookup_drop. f_equal. lia.
Qed.

Lemma read_slot_alter (g : Z -> Z) pg k j :
  length pg = page_size -> (Z.of_nat k < bitmap_size h) -> 0 <= j < num_records_per_page h ->
  read_slot h j (on_bitmap (alter g k) pg) = read_slot h j pg.
Proof.
  intros Hl Hk Hj. destruct (slot_bounds j Hj). unfold read_slot. apply mem_read_ext.
  intros i Hi. pose proof page_size_Z as E. unfold PAGE_SIZE in E.
  apply on_bitmap_alter_lookup; lia.
Qed.

Lemma load_i32_alter (g : Z -> Z) pg k o :
  length pg = page_size -> (o + 4 <= 12)%nat ->
  load_i32 (on_bitmap (alter g k) pg) o = load_i32 pg o.
Proof.
  intros Hl Ho. unfold load_i32. f_equal. f_equal. apply mem_read_ext. intros i Hi.
  pose proof page_size_Z as E. unfold PAGE_SIZE in E. apply on_bitmap_alter_lookup; lia.
Qed.

(** Writing a slot leaves the header, the bitmap and the other slots. *)
Lemma write_slot_lookup j buf pg i :
  0 <= j < num_records_per_page h -> (Z.of_nat i < 12 + bitmap_size h) ->
  write_slot h j buf pg !! i = pg !! i.
Proof.
  intros Hj Hi. destruct (slot_bounds j Hj). unfold write_slot.
  apply lookup_mem_write_ne. left. lia.
Qed.

Lemma length_write_slot j buf pg : length (write_slot h j buf pg) = length pg.
Proof. apply length_mem_write. Qed.

Lemma read_write_slot j buf pg :
  length pg = page_size -> 0 <= j < num_records_per_page h -> record_size h <= Z.of_nat (length buf) ->
  read_slot h j (write_slot h j buf pg) = take (Z.to_nat (record_size h)) buf.
Proof.
  intros Hl Hj Hb. destruct (slot_bounds j Hj). pose proof page_size_Z as E. unfold PAGE_SIZE in *.
  destruct Hh as [Q1 Q2 Q3 Q4]. apply mem_read_write_same; rewrite ?length_take; lia.
Qed.

Lemma read_write_slot_ne i j buf pg :
  0 <= i < num_records_per_page h -> 0 <= j < num_records_per_page h -> i <> j ->
  read_slot h i (write_slot h j buf pg) = read_slot h i pg.
Proof.
  intros Hi Hj Hne. destruct (slot_bounds i Hi), (slot_bounds j Hj). destruct Hh as [Q1 Q2 Q3 Q4].
  apply mem_read_write_disjoint. rewrite length_take. destruct (slot_disjoint i j Hne); lia.
Qed.

Lemma load_i32_write_slot j buf pg o :
  0 <= j < num_records_per_page h -> (o + 4 <= 12)%nat ->
  load_i32 (write_slot h j buf pg) o = load_i32 pg o.
Proof.
  intros Hj Ho. unfold load_i32. f_equal. f_equal. apply mem_read_ext. intros i Hi.
  apply write_slot_lookup; [done|]. destruct Hh. lia.
Qed.

(** Changing the header leaves the rest. *)
Lemma store_lookup pg o z i : (o + 4 <= 12)%nat -> (12 <= i)%nat -> store_32 pg o z !! i = pg !! i.
Proof. intros Ho Hi. apply lookup_mem_write_ne. rewrite length_le_encode. lia. Qed.

Lemma slots_ext pg pg' :
  (forall i, (12 <= i)%nat -> pg !! i = pg' !! i) -> forall i, slots h pg i = slots h pg' i.
Proof.
  intros E i. unfold slots. case_decide as Hi; [|done].
  rewrite (is_set_ext pg pg') by (try apply E; lia).
  destruct (slot_bounds i Hi). destruct Hh as [Q1 Q2 Q3 Q4].
  case_match; [|done]. f_equal. apply mem_read_ext. intros k Hk. apply E. lia.
Qed.

Lemma count_ext pg pg' :
  (forall i, (12 <= i)%nat -> pg !! i = pg' !! i) -> forall n, count_upto pg n = count_upto pg' n.
Proof.
  intros E n. unfold count_upto. f_equal. f_equal. apply list_filter_iff. intros i.
  by rewrite (is_set_ext pg pg') by (try apply E; lia).
Qed.

(** One bit more or less in the count. *)
Lemma count_set_upto pg pg' j n :
  (j < n)%nat ->
  (forall i, (i < n)%nat -> i <> j ->
     Bitmap.is_set (bitmap pg') (Z.of_nat i) = Bitmap.is_set (bitmap pg) (Z.of_nat i)) ->
  Bitmap.is_set (bitmap pg) (Z.of_nat j) = false -> Bitmap.is_set (bitmap pg') (Z.of_nat j) = true ->
  count_upto pg' n = count_upto pg n + 1.
Proof.
  intros Hj He H0 H1. unfold count_upto. induction n as [|n IH]; [lia|].
  rewrite seq_S, !filter_app, !length_app, !filter_cons, !filter_nil, Nat.add_0_l.
  destruct (decide (j = n)) as [->|Hne].
  - rewrite (decide_True (P := Bitmap.is_set (bitmap pg') _ = true)) by done.
    rewrite (decide_False (P := Bitmap.is_set (bitmap pg) _ = true)) by congruence.
    assert (filter (fun i => Bitmap.is_set (bitmap pg') (Z.of_nat i) = true) (seq 0 n) =
            filter (fun i => Bitmap.is_set (bitmap pg) (Z.of_nat i) = true) (seq 0 n)) as ->.
    { clear IH Hj. assert (forall i, i ∈ seq 0 n -> (i < n)%nat) as Hs
        by (intros i Hi; apply elem_of_seq in Hi; lia).
      induction (seq 0 n) as [|a l IHl]; [done|]. rewrite !filter_cons, IHl by (intros; apply Hs; set_solver).
      assert (a < n)%nat by (apply Hs; set_solver). by rewrite He by lia. }
    simpl. lia.
  - rewrite (He n) by lia. assert (j < n)%nat as Hlt by lia.
    specialize (IH Hlt ltac:(intros; apply He; lia)).
    rewrite !Nat2Z.inj_add, IH. lia.
Qed.

(** *** The operations on a page *)

Lemma page_size_4096 : Z.of_nat page_size = 4096.
Proof. apply page_size_Z. Qed.

Lemma is_set_in j pg i :
  length pg = page_size -> 0 <= j < num_records_per_page h -> 0 <= i ->
  Bitmap.is_set (bitmap (on_bitmap (Bitmap.set j) pg)) i =
    if decide (i = j) then true else Bitmap.is_set (bitmap pg) i.
Proof.
  intros Hl Hj Hi. pose proof page_size_4096. destruct (bucket_bounds j Hj).
  destruct Hh as [Q1 Q2 Q3 Q4]. unfold PAGE_SIZE in *.
  rewrite bitmap_on_bitmap by lia. apply Bitmap.is_set_set; [lia|done|].
  unfold bitmap. rewrite length_drop. change bitmap_off with 12%nat. nia.
Qed.

Lemma is_reset_in j pg i :
  length pg = page_size -> 0 <= j < num_records_per_page h -> 0 <= i ->
  Bitmap.is_set (bitmap (on_bitmap (Bitmap.reset j) pg)) i =
    if decide (i = j) then false else Bitmap.is_set (bitmap pg) i.
Proof.
  intros Hl Hj Hi. pose proof page_size_4096. rewrite bitmap_on_bitmap by lia.
  apply Bitmap.is_set_reset; lia.
Qed.

Lemma is_set_write_slot j buf pg i :
  0 <= j < num_records_per_page h -> 0 <= i < num_records_per_page h ->
  Bitmap.is_set (bitmap (write_slot h j buf pg)) i = Bitmap.is_set (bitmap pg) i.
Proof.
  intros Hj Hi. destruct (bucket_bounds i Hi). apply is_set_ext; [lia|].
  apply write_slot_lookup; [done|lia].
Qed.

(** Setting or clearing the bit of a slot. *)
Lemma slots_set j q i :
  length q = page_size -> 0 <= j < num_records_per_page h ->
  slots h (on_bitmap (Bitmap.set j) q) i = if decide (i = j) then Some (read_slot h j q) else slots h q i.
Proof.
  intros Hl Hj. unfold slots. destruct (decide (0 <= i < _)) as [Hi|Hi].
  2: { destruct (decide (i = j)) as [->|]; [done|done]. }
  rewrite is_set_in by (lia || done). unfold Bitmap.set. destruct (bucket_bounds j Hj).
  rewrite read_slot_alter; [|done|rewrite Bitmap.get_bucket_of; lia|done].
  by destruct (decide (i = j)) as [->|Hne].
Qed.

Lemma slots_reset j q i :
  length q = page_size -> 0 <= j < num_records_per_page h ->
  slots h (on_bitmap (Bitmap.reset j) q) i = if decide (i = j) then None else slots h q i.
Proof.
  intros Hl Hj. unfold slots. destruct (decide (0 <= i < _)) as [Hi|Hi].
  2: { by destruct (decide (i = j)). }
  rewrite is_reset_in by (lia || done). unfold Bitmap.reset. destruct (bucket_bounds j Hj).
  rewrite read_slot_alter; [|done|rewrite Bitmap.get_bucket_of; lia|done].
  by destruct (decide (i = j)) as [->|Hne].
Qed.

(** Writing a slot changes no other one. *)
Lemma slots_write_ne j buf pg i :
  length pg = page_size -> 0 <= j < num_records_per_page h -> i <> j ->
  slots h (write_slot h j buf pg) i = slots h pg i.
Proof.
  intros Hl Hj Hne. unfold slots. destruct (decide (0 <= i < _)) as [Hi|Hi]; [|done].
  by rewrite is_set_write_slot, read_write_slot_ne.
Qed.

Lemma slots_write j buf pg i :
  length pg = page_size -> 0 <= j < num_records_per_page h -> record_size h <= Z.of_nat (length buf) ->
  is_Some (slots h pg j) ->
  slots h (write_slot h j buf pg) i =
    if decide (i = j) then Some (take (Z.to_nat (record_size h)) buf) else slots h pg i.
Proof.
  intros Hl Hj Hb Hs. unfold slots in *. rewrite decide_True in Hs by done.
  destruct (decide (0 <= i < _)) as [Hi|Hi].
  2: { destruct (decide (i = j)) as [->|]; done. }
  rewrite is_set_write_slot by done. destruct (decide (i = j)) as [->|Hne].
  - rewrite read_write_slot by done. case_match; [done|by inversion Hs].
  - by rewrite read_write_slot_ne.
Qed.

Lemma count_set j q :
  length q = page_size -> 0 <= j < num_records_per_page h -> Bitmap.is_set (bitmap q) j = false ->
  count h (on_bitmap (Bitmap.set j) q) = count h q + 1.
Proof.
  intros Hl Hj H0. unfold count. rewrite <- (Z2Nat.id j) in H0 by lia.
  apply (count_set_upto q _ (Z.to_nat j)); [lia| |done|].
  - intros i Hi Hne. rewrite is_set_in by (lia || done). by rewrite decide_False by lia.
  - rewrite is_set_in by (lia || done). by rewrite decide_True by lia.
Qed.

Lemma count_reset j q :
  length q = page_size -> 0 <= j < num_records_per_page h -> Bitmap.is_set (bitmap q) j = true ->
  count h (on_bitmap (Bitmap.reset j) q) = count h q - 1.
Proof.
  intros Hl Hj H0. unfold count. rewrite <- (Z2Nat.id j) in H0 by lia.
  enough (count_upto q (Z.to_nat (num_records_per_page h)) =
    count_upto (on_bitmap (Bitmap.reset j) q) (Z.to_nat (num_records_per_page h)) + 1) by lia.
  apply (count_set_upto _ q (Z.to_nat j)); [lia| | |done].
  - intros i Hi Hne. symmetry. rewrite is_reset_in by (lia || done). by rewrite decide_False by lia.
  - rewrite is_reset_in by (lia || done). by rewrite decide_True by lia.
Qed.

Lemma count_write j buf pg :
  0 <= j < num_records_per_page h -> count h (write_slot h j buf pg) = count h pg.
Proof.
  intros Hj. unfold count, count_upto. f_equal. f_equal.
  assert (forall i, i ∈ seq 0 (Z.to_nat (num_records_per_page h)) -> Z.of_nat i < num_records_per_page h) as Hs
    by (intros i Hi; apply elem_of_seq in Hi; lia).
  induction (seq 0 _) as [|a l IHl]; [done|].
  rewrite !filter_cons, IHl by (intros; apply Hs; set_solver).
  assert (Z.of_nat a < num_records_per_page h) by (apply Hs; set_solver).
  by rewrite is_set_write_slot by lia.
Qed.

Lemma count_bounds pg : 0 <= count h pg <= num_records_per_page h.
Proof.
  destruct Hh as [Q1 Q2 Q3 Q4]. unfold count, count_upto.
  pose proof (length_filter (fun i => Bitmap.is_set (bitmap pg) (Z.of_nat i) = true)
    (seq 0 (Z.to_nat (num_records_per_page h)))). rewrite length_seq in *. lia.
Qed.

(** A page that is not full has a free slot, and [first_bit] finds it. *)
Lemma first_free pg :
  count h pg < num_records_per_page h ->
  let pos := Bitmap.first_bit false (bitmap pg) (num_records_per_page h) in
  0 <= pos < num_records_per_page h /\ Bitmap.is_set (bitmap pg) pos = false.
Proof.
  intros Hc pos. destruct Hh as [Q1 Q2 Q3 Q4].
  destruct (Bitmap.next_bit_spec false (bitmap pg) (num_records_per_page h) (-1)) as [Ha [Hb|Hb]];
    fold (Bitmap.first_bit false (bitmap pg) (num_records_per_page h)) in *; fold pos in Ha, Hb; [|done].
  exfalso. revert Hc. unfold count, count_upto. rewrite filter_all; [rewrite length_seq; lia|].
  apply Forall_forall. intros i Hi%elem_of_seq.
  destruct (Bitmap.is_set (bitmap pg) (Z.of_nat i)) eqn:E; [done|].
  destruct (Ha (Z.of_nat i)); [lia|done].
Qed.

Lemma length_set_hdr pg o z : length (store_32 pg o z) = length pg.
Proof. apply length_store_32. Qed.

Lemma slots_store pg o z : (o + 4 <= 12)%nat -> forall i, slots h (store_32 pg o z) i = slots h pg i.
Proof. intros Ho. apply slots_ext. intros i Hi. by apply store_lookup. Qed.

Lemma count_store pg o z : (o + 4 <= 12)%nat -> count h (store_32 pg o z) = count h pg.
Proof. intros Ho. apply count_ext. intros i Hi. by apply store_lookup. Qed.

Lemma init_page_state pg : length pg = page_size ->
  length (init_page h pg) = page_size /\ (forall i, slots h (init_page h pg) i = None) /\
  num_records (init_page h pg) = 0 /\ next_free_page_no (init_page h pg) = RM_NO_PAGE /\
  count h (init_page h pg) = 0.
Proof.
  intros Hl. pose proof page_size_4096. unfold init_page.
  set (q := set_next_free_page_no _ _). assert (Hq : length q = page_size)
    by (unfold q, set_next_free_page_no, set_num_records; by rewrite !length_store_32).
  assert (Hbit : forall i, 0 <= i < num_records_per_page h ->
    Bitmap.is_set (bitmap (on_bitmap (Bitmap.init (bitmap_size h)) q)) i = false).
  { intros i Hi. destruct (bucket_bounds i Hi). destruct Hh as [Q1 Q2 Q3 Q4]. unfold PAGE_SIZE in *.
    rewrite bitmap_on_bitmap by lia. rewrite Bitmap.is_set_testbit by lia.
    unfold Bitmap.init. rewrite lookup_mem_write.
    - rewrite lookup_replicate_2 by lia. simpl. apply Z.bits_0.
    - rewrite length_replicate. lia.
    - unfold bitmap. rewrite length_drop. change bitmap_off with 12%nat. nia. }
  assert (Hlow : forall o, (o + 4 <= 12)%nat ->
    load_i32 (on_bitmap (Bitmap.init (bitmap_size h)) q) o = load_i32 q o).
  { intros o Ho. unfold load_i32. f_equal. f_equal. apply mem_read_ext. intros i Hi.
    apply lookup_on_bitmap_lt; lia. }
  split_and!.
  - rewrite length_on_bitmap; [done|]. intros b. apply length_mem_write.
  - intros i. unfold slots. case_decide as Hi; [|done]. by rewrite Hbit.
  - unfold num_records. rewrite Hlow by (unfold hdr_off, BufferPool.OFFSET_PAGE_HDR; lia).
    unfold q, set_next_free_page_no, set_num_records, hdr_off, BufferPool.OFFSET_PAGE_HDR.
    rewrite load_store_i32_ne by lia. apply load_store_i32; [lia|]. unfold in_i32. lia.
  - unfold next_free_page_no. rewrite Hlow by (unfold hdr_off, BufferPool.OFFSET_PAGE_HDR; lia).
    unfold q, set_next_free_page_no, set_num_records, hdr_off, BufferPool.OFFSET_PAGE_HDR.
    apply load_store_i32; [rewrite length_store_32; lia|]. unfold in_i32, RM_NO_PAGE. lia.
  - unfold count, count_upto. replace (filter _ _) with (@nil nat); [done|]. symmetry.
    assert (forall i, i ∈ seq 0 (Z.to_nat (num_records_per_page h)) -> Z.of_nat i < num_records_per_page h) as Hs
      by (intros i Hi; apply elem_of_seq in Hi; lia).
    induction (seq 0 _) as [|a l IHl]; [done|]. rewrite filter_cons, decide_False.
    + apply IHl. intros; apply Hs; set_solver.
    + assert (Z.of_nat a < num_records_per_page h) by (apply Hs; set_solver). by rewrite Hbit by lia.
Qed.

(** A page whose header tells how many of its slots are used. *)
Record page_ok (pg : bytes) : Prop := {
  po_length : length pg = page_size;
  po_count : num_records pg = count h pg;
}.

Lemma num_records_range pg : page_ok pg -> 0 <= num_records pg <= num_records_per_page h.
Proof. intros [_ ->]. apply count_bounds. Qed.

Lemma records_per_page_max : num_records_per_page h <= PAGE_SIZE.
Proof. destruct Hh. assert (num_records_per_page h <= num_records_per_page h * record_size h) by nia. lia. Qed.

Lemma read_slot_store pg o z i :
  (o + 4 <= 12)%nat -> 0 <= i < num_records_per_page h ->
  read_slot h i (store_32 pg o z) = read_slot h i pg.
Proof.
  intros Ho Hi. destruct (slot_bounds i Hi). destruct Hh. apply mem_read_ext. intros k Hk.
  apply store_lookup; lia.
Qed.

Lemma is_set_store pg o z i : (o + 4 <= 12)%nat -> 0 <= i ->
  Bitmap.is_set (bitmap (store_32 pg o z)) i = Bitmap.is_set (bitmap pg) i.
Proof. intros Ho Hi. apply is_set_ext; [done|]. apply store_lookup; lia. Qed.

Lemma num_records_set z pg : length pg = page_size -> in_i32 z -> num_records (set_num_records z pg) = z.
Proof. intros Hl Hz. apply load_store_i32; [|done]. pose proof page_size_4096. cbn. lia. Qed.

Lemma next_free_set z pg : length pg = page_size -> in_i32 z -> next_free_page_no (set_next_free_page_no z pg) = z.
Proof. intros Hl Hz. apply load_store_i32; [|done]. pose proof page_size_4096. cbn. lia. Qed.

Lemma num_records_set_next z pg : num_records (set_next_free_page_no z pg) = num_records pg.
Proof. apply load_store_i32_ne. cbn. lia. Qed.

Lemma next_free_set_num z pg : next_free_page_no (set_num_records z pg) = next_free_page_no pg.
Proof. apply load_store_i32_ne. cbn. lia. Qed.

(** The page after a record was put into slot [pos], and after slot [j] was cleared
    in a file whose first free page is [first]. *)
Definition inserted (pos : Z) (buf pg : bytes) : bytes :=
  on_bitmap (Bitmap.set pos) (set_num_records (i32 (num_records pg + 1)) (write_slot h pos buf pg)).
Definition cleared (j : Z) (pg : bytes) : bytes :=
  on_bitmap (Bitmap.reset j) (write_slot h j (replicate (Z.to_nat (record_size h)) 0) pg).
Definition released (first : Z) (pg : bytes) : bytes :=
  if num_records pg =? num_records_per_page h then set_next_free_page_no first pg else pg.
Definition removed (j first : Z) (pg : bytes) : bytes :=
  let d := released first (cleared j pg) in set_num_records (i32 (num_records d - 1)) d.

Lemma inserted_ok pos buf pg :
  page_ok pg -> 0 <= pos < num_records_per_page h -> Bitmap.is_set (bitmap pg) pos = false ->
  record_size h <= Z.of_nat (length buf) ->
  page_ok (inserted pos buf pg) /\ num_records (inserted pos buf pg) = num_records pg + 1 /\
  next_free_page_no (inserted pos buf pg) = next_free_page_no pg /\
  forall i, slots h (inserted pos buf pg) i =
    if decide (i = pos) then Some (take (Z.to_nat (record_size h)) buf) else slots h pg i.
Proof.
  intros Hp Hpos Hset Hb. pose proof (num_records_range _ Hp). pose proof records_per_page_max.
  destruct Hp as [Hl Hc]. unfold PAGE_SIZE in *. unfold inserted.
  rewrite i32_small by (unfold in_i32; lia). set (w := write_slot h pos buf pg).
  assert (Hw : length w = page_size) by (unfold w; by rewrite length_write_slot).
  set (q := set_num_records _ w). assert (Hq : length q = page_size) by (unfold q, set_num_records; by rewrite length_store_32).
  assert (Hqs : Bitmap.is_set (bitmap q) pos = false).
  { unfold q, set_num_records. rewrite is_set_store by (cbn; lia). unfold w. by rewrite is_set_write_slot. }
  assert (Hn : num_records (on_bitmap (Bitmap.set pos) q) = num_records pg + 1).
  { unfold Bitmap.set, num_records at 1. rewrite load_i32_alter; [|done|cbn; lia].
    fold (num_records q). apply num_records_set; [done|unfold in_i32; lia]. }
  split_and!; [split| | |].
  - rewrite length_on_bitmap; [done|]. apply Bitmap.length_set.
  - rewrite Hn, count_set, Hc by done. unfold q, set_num_records. rewrite count_store by (cbn; lia).
    unfold w. by rewrite count_write.
  - done.
  - unfold Bitmap.set, next_free_page_no at 1. rewrite load_i32_alter; [|done|cbn; lia].
    fold (next_free_page_no q). unfold q. rewrite next_free_set_num. apply load_i32_write_slot; [done|cbn; lia].
  - intros i. rewrite slots_set by done. destruct (decide (i = pos)) as [->|Hne].
    + unfold q, set_num_records. rewrite read_slot_store by (done || (cbn; lia)).
      unfold w. by rewrite read_write_slot.
    + unfold q, set_num_records. rewrite slots_store by (cbn; lia). unfold w. by rewrite slots_write_ne.
Qed.

Lemma cleared_ok j pg :
  length pg = page_size -> 0 <= j < num_records_per_page h ->
  length (cleared j pg) = page_size /\ num_records (cleared j pg) = num_records pg /\
  next_free_page_no (cleared j pg) = next_free_page_no pg /\
  (Bitmap.is_set (bitmap pg) j = true -> count h (cleared j pg) = count h pg - 1) /\
  forall i, slots h (cleared j pg) i = if decide (i = j) then None else slots h pg i.
Proof.
  intros Hl Hj. unfold cleared. set (w := write_slot h j _ pg).
  assert (Hw : length w = page_size) by (unfold w; by rewrite length_write_slot).
  split_and!.
  - rewrite length_on_bitmap; [done|]. apply Bitmap.length_reset.
  - unfold Bitmap.reset, num_records at 1. rewrite load_i32_alter; [|done|cbn; lia].
    apply load_i32_write_slot; [done|cbn; lia].
  - unfold Bitmap.reset, next_free_page_no at 1. rewrite load_i32_alter; [|done|cbn; lia].
    apply load_i32_write_slot; [done|cbn; lia].
  - intros Hset. rewrite count_reset; [|done|done|unfold w; by rewrite is_set_write_slot].
    unfold w. by rewrite count_write.
  - intros i. rewrite slots_reset by done. destruct (decide (i = j)) as [->|Hne]; [done|].
    unfold w. by rewrite slots_write_ne.
Qed.

Lemma removed_ok j first pg :
  page_ok pg -> 0 <= j < num_records_per_page h -> Bitmap.is_set (bitmap pg) j = true -> in_i32 first ->
  page_ok (removed j first pg) /\ num_records (removed j first pg) = num_records pg - 1 /\
  next_free_page_no (removed j first pg) =
    (if num_records pg =? num_records_per_page h then first else next_free_page_no pg) /\
  forall i, slots h (removed j first pg) i = if decide (i = j) then None else slots h pg i.
Proof.
  intros Hp Hj Hset Hfirst. pose proof (num_records_range _ Hp). pose proof records_per_page_max.
  destruct Hp as [Hl Hc]. unfold PAGE_SIZE in *. unfold removed.
  destruct (cleared_ok j pg Hl Hj) as (Hcl & Hcn & Hcx & Hcc & Hcs). specialize (Hcc Hset).
  set (c := cleared j pg) in *. set (d := released first c).
  assert (Hd : length d = page_size /\ num_records d = num_records pg /\ count h d = count h pg - 1 /\
    next_free_page_no d = (if num_records pg =? num_records_per_page h then first else next_free_page_no pg) /\
    forall i, slots h d i = slots h c i).
  { unfold d, released. rewrite Hcn. destruct (num_records pg =? num_records_per_page h); [|by split_and!].
    split_and!; [unfold set_next_free_page_no; by rewrite length_store_32|by rewrite num_records_set_next| |by apply next_free_set|].
    - unfold set_next_free_page_no. by rewrite count_store by (cbn; lia).
    - apply slots_store. cbn. lia. }
  destruct Hd as (Hdl & Hdn & Hdc & Hdx & Hds). rewrite Hdn, i32_small by (unfold in_i32; lia).
  split_and!; [split| | |].
  - unfold set_num_records. by rewrite length_store_32.
  - rewrite num_records_set by (done || (unfold in_i32; lia)). unfold set_num_records.
    rewrite count_store by (cbn; lia). lia.
  - apply num_records_set; [done|unfold in_i32; lia].
  - by rewrite next_free_set_num.
  - intros i. unfold set_num_records. rewrite slots_store by (cbn; lia). by rewrite Hds.
Qed.

Lemma written_ok j buf pg :
  page_ok pg -> 0 <= j < num_records_per_page h -> Bitmap.is_set (bitmap pg) j = true ->
  record_size h <= Z.of_nat (length buf) ->
  page_ok (write_slot h j buf pg) /\ num_records (write_slot h j buf pg) = num_records pg /\
  next_free_page_no (write_slot h j buf pg) = next_free_page_no pg /\
  forall i, slots h (write_slot h j buf pg) i =
    if decide (i = j) then Some (take (Z.to_nat (record_size h)) buf) else slots h pg i.
Proof.
  intros [Hl Hc] Hj Hset Hb.
  assert (Hn : num_records (write_slot h j buf pg) = num_records pg)
    by (apply load_i32_write_slot; [done|cbn; lia]).
  split_and!; [split| | |]; [by rewrite length_write_slot|by rewrite Hn, count_write|done| |].
  - apply load_i32_write_slot; [done|cbn; lia].
  - intros i. apply slots_write; [done..|]. unfold slots. rewrite decide_True by done. by rewrite Hset.
Qed.

Lemma slots_is_set pg i : is_Some (slots h pg i) <->
  0 <= i < num_records_per_page h /\ Bitmap.is_set (bitmap pg) i = true.
Proof.
  unfold slots. destruct (decide (0 <= i < _)) as [Hi|Hi].
  - destruct (Bitmap.is_set (bitmap pg) i); split; try done; by intros [? ?].
  - split; [by intros [? ?]|tauto].
Qed.

End page.

End RmPage.

(** ** [RmFileHandle] *)
Module RmFileHandle.
Import RmPage.

Section ops.
Context {D R C : Type} `{Disk D} `{Files D} `{Replacer R} `{TxnContext C}.
Abbreviation pool := (BufferPool.t D R).

(** The handle, the pool it works on and the context its caller passes. *)
Record t := mk {
  fd_ : Z;
  file_hdr_ : RmFileHdr;
  bpm : pool;
  ctx : C;
}.

Definition set_hdr (h : RmFileHdr) (s : t) : t := mk (fd_ s) h (bpm s) (ctx s).
Definition set_pool (p : pool) (s : t) : t := mk (fd_ s) (file_hdr_ s) p (ctx s).
Definition set_ctx (c : C) (s : t) : t := mk (fd_ s) (file_hdr_ s) (bpm s) c.

Definition on_pool {A} (m : M pool A) : M t A := zoom bpm set_pool m.
Definition on_disk {A} (m : M D A) : M t A := on_pool (BufferPool.disk_op m).
Definition on_ctx {A} (m : M C A) : M t A := zoom ctx set_ctx m.

Definition set_first_free (z : Z) (h : RmFileHdr) : RmFileHdr :=
  mkRmFileHdr (record_size h) (num_pages h) (num_records_per_page h) z (bitmap_size h) (hdr_lsn h).
Definition set_num_pages (z : Z) (h : RmFileHdr) : RmFileHdr :=
  mkRmFileHdr (record_size h) z (num_records_per_page h) (first_free_page_no h) (bitmap_size h) (hdr_lsn h).
Definition set_hdr_lsn (z : Z) (h : RmFileHdr) : RmFileHdr :=
  mkRmFileHdr (record_size h) (num_pages h) (num_records_per_page h) (first_free_page_no h) (bitmap_size h) z.
Definition upd_hdr (f : RmFileHdr -> RmFileHdr) : M t unit := modify (fun s => set_hdr (f (file_hdr_ s)) s).

(** Changing the data of a page through its pointer. *)
Definition upd_data (page : Z) (f : bytes -> bytes) : M t unit :=
  d ← on_pool (BufferPool.get_data page);
  on_pool (BufferPool.put_data page (f d)).

(** [get_slot] of a slot outside the page. *)
Definition check_slot (slot_no : Z) : M t unit :=
  h ← gets file_hdr_;
  if slot_ok h slot_no then mret tt else throw Stuck.

(** [page_handle.page] cast to a [char] pointer: the memory of the [Page] object, which starts with
    its identifier and not with its data. *)
Definition page_object (p : BufferPool.Page) : bytes :=
  take page_size (PageId_bytes (BufferPool.id_ p) ++ BufferPool.data_ p).

(** A copy of the file header in a zeroed page. *)
Definition hdr_page (h : RmFileHdr) : bytes :=
  mem_write (replicate page_size 0) 0 (RmFileHdr_bytes h).

(** *** Pages *)

Definition fetch_page_handle (page_no : Z) : M t Z :=
  f ← gets fd_;
  r ← on_pool (BufferPool.fetch_page (mkPageId f page_no));
  match r with
  | None => throw (PageNotExistError "" page_no)
  | Some page => mret page
  end.

Definition create_new_page_handle : M t Z :=
  f ← gets fd_;
  r ← on_pool (BufferPool.new_page f);
  match r with
  | None => throw (InternalError "[RmFileHandle] buffer pool cannot allocate new page")
  | Some (page, id) =>
      h ← gets file_hdr_;
      upd_data page (init_page h);;
      upd_hdr (set_first_free (page_no id));;
      upd_hdr (fun h => set_num_pages (i32 (num_pages h + 1)) h);;
      mret page
  end.

Definition create_page_handle : M t Z :=
  h ← gets file_hdr_;
  if decide (first_free_page_no h = RM_NO_PAGE) then create_new_page_handle
  else fetch_page_handle (first_free_page_no h).

Definition release_page_handle (page : Z) : M t unit :=
  h ← gets file_hdr_;
  upd_data page (set_next_free_page_no (first_free_page_no h));;
  p ← on_pool (BufferPool.page_at page);
  upd_hdr (set_first_free (page_no (BufferPool.id_ p))).

(** *** Logging, when the context is not null *)

(** The record of the page before the change, and the header before it. *)
Definition log_before (page : Z) : M t (PageLogRecord * RmFileHdr) :=
  s ← get;
  name ← on_disk (fl_get_file_name (fd_ s));
  p ← on_pool (BufferPool.page_at page);
  mret (new_PageLogRecord (cx_txn_id (ctx s)) (cx_prev_lsn (ctx s)) name
          (page_no (BufferPool.id_ p)) (page_object p), file_hdr_ s).

(** The page record is completed and added, and its LSN put on the page. *)
Definition log_page (page : Z) (r : PageLogRecord) : M t Z :=
  p ← on_pool (BufferPool.page_at page);
  lsn ← on_ctx (cx_add_log (LPage (set_new_page (page_object p) r)));
  on_pool (BufferPool.upd_page page (BufferPool.set_page_lsn lsn));;
  mret lsn.

(** The record of the header page. *)
Definition log_hdr (lsn : Z) (old : RmFileHdr) : M t Z :=
  s ← get;
  name ← on_disk (fl_get_file_name (fd_ s));
  let r := new_PageLogRecord (cx_txn_id (ctx s)) lsn name RM_FILE_HDR_PAGE (hdr_page old) in
  on_ctx (cx_add_log (LPage (set_new_page (hdr_page (file_hdr_ s)) r))).

Definition set_prev_lsn (lsn : Z) : M t unit := modify (fun s => set_ctx (cx_set_prev_lsn lsn (ctx s)) s).

(** The lock on the record; [context] tells whether the pointer is null. *)
Definition lock_record (context shared : bool) (rid : Rid) : M t unit :=
  if context then
    f ← gets fd_;
    b ← on_ctx (if shared then cx_lock_shared_on_record rid f else cx_lock_exclusive_on_record rid f);
    if b : bool then mret tt
    else c ← gets ctx; throw (TransactionAbortException (cx_txn_id c) DEADLOCK_PREVENTION)
  else mret tt.

Definition unpin (page_no : Z) (is_dirty : bool) : M t unit :=
  f ← gets fd_; _ ← on_pool (BufferPool.unpin_page (mkPageId f page_no) is_dirty); mret tt.

(** *** Operations *)

(** The page stays pinned. *)
Definition is_record (rid : Rid) : M t bool :=
  page ← fetch_page_handle (rid_page_no rid);
  d ← on_pool (BufferPool.get_data page);
  mret (Bitmap.is_set (bitmap d) (rid_slot_no rid)).

Definition get_record (rid : Rid) (context : bool) : M t RmRecord :=
  lock_record context true rid;;
  page ← fetch_page_handle (rid_page_no rid);
  check_slot (rid_slot_no rid);;
  d ← on_pool (BufferPool.get_data page);
  h ← gets file_hdr_;
  unpin (rid_page_no rid) false;;
  mret (RmRecord_new (record_size h) (read_slot h (rid_slot_no rid) d)).

(** [insert_record(char *buf, Context *context)]. *)
Definition insert_record (buf : bytes) (context : bool) : M t Rid :=
  page ← create_page_handle;
  before ← (if context then b ← log_before page; mret (Some b) else mret None);
  h ← gets file_hdr_;
  d ← on_pool (BufferPool.get_data page);
  p ← on_pool (BufferPool.page_at page);
  let pos := Bitmap.first_bit false (bitmap d) (num_records_per_page h) in
  let rid := mkRid (page_no (BufferPool.id_ p)) pos in
  lock_record context false rid;;
  check_slot pos;;
  upd_data page (fun d => set_num_records (i32 (num_records d + 1)) (write_slot h pos buf d));;
  d ← on_pool (BufferPool.get_data page);
  whenM (num_records_per_page h <=? num_records d) (upd_hdr (set_first_free (next_free_page_no d)));;
  upd_data page (on_bitmap (Bitmap.set pos));;
  match before with
  | Some (r, old) =>
      lsn ← log_page page r;
      lsn ← log_hdr lsn old;
      set_prev_lsn lsn;;
      upd_hdr (set_hdr_lsn lsn)
  | None => mret tt
  end;;
  unpin (page_no (BufferPool.id_ p)) true;;
  mret rid.

(** [insert_record(const Rid &rid, char *buf)], used by rollback: the number of
    records of the page is not changed. *)
Definition insert_record_at (rid : Rid) (buf : bytes) : M t unit :=
  page ← fetch_page_handle (rid_page_no rid);
  check_slot (rid_slot_no rid);;
  h ← gets file_hdr_;
  upd_data page (write_slot h (rid_slot_no rid) buf);;
  upd_data page (on_bitmap (Bitmap.set (rid_slot_no rid)));;
  unpin (rid_page_no rid) true.

Definition delete_record (rid : Rid) (context : bool) : M t unit :=
  lock_record context false rid;;
  page ← fetch_page_handle (rid_page_no rid);
  before ← (if context then b ← log_before page; mret (Some b) else mret None);
  check_slot (rid_slot_no rid);;
  h ← gets file_hdr_;
  upd_data page (fun d => on_bitmap (Bitmap.reset (rid_slot_no rid))
    (write_slot h (rid_slot_no rid) (replicate (Z.to_nat (record_size h)) 0) d));;
  d ← on_pool (BufferPool.get_data page);
  whenM (num_records d =? num_records_per_page h) (release_page_handle page);;
  upd_data page (fun d => set_num_records (i32 (num_records d - 1)) d);;
  match before with
  | Some (r, old) =>
      lsn ← log_page page r;
      lsn ← log_hdr lsn old;
      upd_hdr (set_hdr_lsn lsn);;
      set_prev_lsn lsn
  | None => mret tt
  end;;
  unpin (rid_page_no rid) true.

Definition update_record (rid : Rid) (buf : bytes) (context : bool) : M t unit :=
  lock_record context false rid;;
  page ← fetch_page_handle (rid_page_no rid);
  before ← (if context then b ← log_before page; mret (Some b) else mret None);
  check_slot (rid_slot_no rid);;
  h ← gets file_hdr_;
  upd_data page (write_slot h (rid_slot_no rid) buf);;
  match before with
  | Some (r, _) => lsn ← log_page page r; set_prev_lsn lsn
  | None => mret tt
  end;;
  unpin (rid_page_no rid) true.

Definition flush_all_record : M t unit :=
  s ← get;
  on_disk (fl_write (fd_ s) (RmFileHdr_bytes (file_hdr_ s)) sizeof_RmFileHdr);;
  on_pool (BufferPool.flush_all_pages (fd_ s)).

End ops.
Arguments t D R C : clear implicits.

(** *** The table a file holds *)
Section laws.
Context {D R C : Type} `{DiskLaws D} `{!Files D} `{ReplacerLaws R} `{TxnContext C}.
Abbreviation handle := (t D R C).
Implicit Types (s : handle) (pg : Z -> bytes).

(** The pages of records of a file, and the chain of the ones with a free slot. *)
Definition in_file (h : RmFileHdr) (p : Z) : Prop := RM_FIRST_RECORD_PAGE <= p < num_pages h.

Fixpoint free_chain (h : RmFileHdr) pg (first : Z) (l : list Z) : Prop :=
  match l with
  | [] => first = RM_NO_PAGE
  | p :: l' => first = p /\ in_file h p /\ free_chain h pg (next_free_page_no (pg p)) l'
  end.

(** The pages are consistent with their headers and with the file's. *)
Record table_ok (h : RmFileHdr) pg : Prop := {
  to_hdr : hdr_ok h;
  to_pages : 1 <= num_pages h < 2 ^ 31;
  to_page p : in_file h p -> page_ok h (pg p);
  to_free : exists l, NoDup l /\ free_chain h pg (first_free_page_no h) l /\
    forall p, in_file h p -> p ∈ l <-> num_records (pg p) < num_records_per_page h;
}.

Definition page_of s (p : Z) : PageId := mkPageId (fd_ s) p.

(** The pool shows these pages. *)
Record shows s pg : Prop := {
  sh_pool : BufferPool.wf (bpm s);
  sh_next : dk_next (BufferPool.disk_manager_ (bpm s)) (fd_ s) = num_pages (file_hdr_ s);
  sh_valid p : 0 <= p -> dk_valid (BufferPool.disk_manager_ (bpm s)) (page_of s p);
  sh_view p : in_file (file_hdr_ s) p -> BufferPool.view (bpm s) (page_of s p) = Some (pg p);
}.

(** The invariant of an open table, and the records in it. *)
Definition ok s : Prop := exists pg, shows s pg /\ table_ok (file_hdr_ s) pg.
Definition table s (rid : Rid) : option bytes :=
  if decide (in_file (file_hdr_ s) (rid_page_no rid)) then
    d ← BufferPool.view (bpm s) (page_of s (rid_page_no rid));
    slots (file_hdr_ s) d (rid_slot_no rid)
  else None.

(** *** Working on one page *)

Record working (pl0 : BufferPool.t D R) s (p f : Z) (x : bytes) (np : Z) : Prop := {
  w_held : BufferPool.held (bpm s) (page_of s p) f x;
  w_pins : BufferPool.pins (bpm s) (page_of s p) = BufferPool.pins pl0 (page_of s p) + 1;
  w_keeps : BufferPool.keeps (fun q => q = page_of s p) pl0 (bpm s);
  w_next : dk_next (BufferPool.disk_manager_ (bpm s)) (fd_ s) = np;
}.

Record finished (pl0 : BufferPool.t D R) s (p : Z) (x : bytes) (np : Z) : Prop := {
  f_pool : BufferPool.wf (bpm s);
  f_view : BufferPool.view (bpm s) (page_of s p) = Some x;
  f_pins q : BufferPool.pins (bpm s) q = BufferPool.pins pl0 q;
  f_keeps : BufferPool.keeps (fun q => q = page_of s p) pl0 (bpm s);
  f_next : dk_next (BufferPool.disk_manager_ (bpm s)) (fd_ s) = np;
}.

Lemma on_pool_ok {A} (m : M (BufferPool.t D R) A) s pl a :
  m (bpm s) = (pl, Ok a) -> on_pool m s = (set_pool pl s, Ok a).
Proof. intros E. unfold on_pool, zoom. by rewrite E. Qed.

Lemma on_pool_inv {A} (m : M (BufferPool.t D R) A) s s' a :
  on_pool m s = (s', Ok a) -> exists pl, m (bpm s) = (pl, Ok a) /\ s' = set_pool pl s.
Proof. unfold on_pool, zoom. destruct (m (bpm s)) as [pl r]. intros [= <- ->]. eauto. Qed.

Lemma work_fetch s s' pg p f :
  shows s pg -> in_file (file_hdr_ s) p -> fetch_page_handle p s = (s', Ok f) ->
  exists pl, s' = set_pool pl s /\ working (bpm s) s' p f (pg p) (num_pages (file_hdr_ s)) /\
    BufferPool.unpin_clean pl (page_of s p) f.
Proof.
  intros [Hw Hn Hv Hs] Hp Hr. unfold fetch_page_handle in Hr.
  rewrite (bind_ok _ _ s s (fd_ s)) in Hr by done. apply bind_inv in Hr as (s1 & o & Hf & Hr).
  apply on_pool_inv in Hf as (pl & Hf & ->). destruct o as [f'|]; [|done].
  unfold mret, M_ret in Hr. injection Hr as <- ->.
  assert (0 <= p) as Hp0 by (unfold in_file, RM_FIRST_RECORD_PAGE in Hp; lia).
  apply BufferPool.fetch_held in Hf as (x & Hh & Hx & Hpin & Hk & Hu & Hnx); [|done|by apply Hv|].
  2: { simpl. rewrite Hn. by destruct Hp. }
  specialize (Hx _ (Hs _ Hp)). subst x. exists pl. split_and!; [done| |done].
  split; try done. simpl. by rewrite Hnx.
Qed.

Lemma work_get pl0 s p f x np : working pl0 s p f x np -> on_pool (BufferPool.get_data f) s = (s, Ok x).
Proof.
  intros [Hh _ _ _]. rewrite (on_pool_ok _ s (bpm s) x) by (by eapply BufferPool.held_get). by destruct s.
Qed.

Lemma work_page_at pl0 s p f x np : working pl0 s p f x np ->
  exists q, on_pool (BufferPool.page_at f) s = (s, Ok q) /\ page_no (BufferPool.id_ q) = p.
Proof.
  intros [Hh _ _ _]. destruct (BufferPool.held_page_at _ _ _ _ Hh) as (q & Hq & Hid & _).
  exists q. rewrite (on_pool_ok _ s (bpm s) q) by done. rewrite Hid. by destruct s.
Qed.

Lemma work_upd pl0 s p f x np (g : bytes -> bytes) :
  working pl0 s p f x np -> length (g x) = page_size ->
  exists pl, upd_data f g s = (set_pool pl s, Ok tt) /\ working pl0 (set_pool pl s) p f (g x) np.
Proof.
  intros Hwk Hl. pose proof Hwk as [Hh Hp Hk Hn].
  destruct (BufferPool.held_put _ _ _ _ (g x) Hh Hl) as (pl & Hr & Hh' & Hp' & Hk' & Hd).
  exists pl. split.
  { unfold upd_data. rewrite (bind_ok _ _ _ _ _ (work_get _ _ _ _ _ _ Hwk)). by apply on_pool_ok. }
  split; simpl; [done| | |by rewrite Hd].
  - unfold page_of in *. simpl. lia.
  - by eapply BufferPool.keeps_trans.
Qed.

Lemma work_hdr pl0 s p f x np h : working pl0 s p f x np -> working pl0 (set_hdr h s) p f x np.
Proof. by intros [? ? ? ?]. Qed.

Lemma work_unpin pl0 s p f x np b :
  working pl0 s p f x np -> (b = false -> BufferPool.unpin_clean (bpm s) (page_of s p) f) ->
  exists pl, unpin p b s = (set_pool pl s, Ok tt) /\ finished pl0 (set_pool pl s) p x np.
Proof.
  intros [Hh Hp Hk Hn] Hb. destruct (BufferPool.held_unpin _ _ _ _ b Hh Hb) as (pl & Hr & Hw & Hv & Hp' & Hk' & Hd).
  exists pl. split.
  { unfold unpin. rewrite (bind_ok _ _ s s (fd_ s)) by done.
    by rewrite (bind_ok _ _ _ _ _ (on_pool_ok _ s pl true Hr)). }
  assert (Hkk : BufferPool.keeps (fun q => q = page_of s p) pl0 pl) by (by eapply BufferPool.keeps_trans).
  split; simpl; [done|done| |done|by rewrite Hd].
  intros q. destruct (decide (q = page_of s p)) as [->|Hne]; [lia|]. by apply (BufferPool.k_pins _ _ _ Hkk).
Qed.

(** The pages that are shown after the work. *)
Definition upd (p : Z) (x : bytes) pg : Z -> bytes := fun q => if decide (q = p) then x else pg q.

Lemma shows_finished s s' pg p x :
  shows s pg -> fd_ s' = fd_ s -> finished (bpm s) s' p x (num_pages (file_hdr_ s')) ->
  (forall q, in_file (file_hdr_ s') q -> q <> p -> in_file (file_hdr_ s) q) ->
  shows s' (upd p x pg).
Proof.
  intros [Hw Hn Hv Hs] Hfd [Fw Fv Fp Fk Fn] Hin. split; try done.
  - intros q Hq. apply (BufferPool.k_valid _ _ _ Fk). unfold page_of. rewrite Hfd. by apply Hv.
  - intros q Hq. unfold upd. destruct (decide (q = p)) as [->|Hne]; [done|].
    assert (0 <= q) by (unfold in_file, RM_FIRST_RECORD_PAGE in Hq; lia).
    apply (BufferPool.k_view _ _ _ Fk).
    + unfold page_of. congruence.
    + unfold page_of. rewrite Hfd. by apply Hv.
    + unfold page_of. rewrite Hfd. apply Hs. by apply Hin.
Qed.

Lemma table_shows s pg rid : shows s pg ->
  table s rid = if decide (in_file (file_hdr_ s) (rid_page_no rid))
                then slots (file_hdr_ s) (pg (rid_page_no rid)) (rid_slot_no rid) else None.
Proof. intros Hs. unfold table. case_decide as Hin; [|done]. by rewrite (sh_view _ _ Hs _ Hin). Qed.

(** *** The table's headers and chain *)

(** Headers that lay pages out the same way. *)
Record same_layout (h h' : RmFileHdr) : Prop := {
  sl_size : record_size h' = record_size h;
  sl_n : num_records_per_page h' = num_records_per_page h;
  sl_bits : bitmap_size h' = bitmap_size h;
}.

Lemma layout_hdr_ok h h' : same_layout h h' -> hdr_ok h -> hdr_ok h'.
Proof. intros [E1 E2 E3] [Q1 Q2 Q3 Q4]. split; rewrite ?E1, ?E2, ?E3; done. Qed.

Lemma layout_slots h h' x i : same_layout h h' -> slots h' x i = slots h x i.
Proof. intros [E1 E2 E3]. unfold slots, read_slot, slot_off. by rewrite E1, E2, E3. Qed.

Lemma layout_page_ok h h' x : same_layout h h' -> page_ok h x -> page_ok h' x.
Proof. intros [E1 E2 E3] [Q1 Q2]. split; [done|]. unfold count. by rewrite E2. Qed.

Lemma free_chain_ext h h' pg pg' l : forall first,
  free_chain h pg first l -> (forall p, p ∈ l -> next_free_page_no (pg' p) = next_free_page_no (pg p)) ->
  (forall p, in_file h p -> in_file h' p) -> free_chain h' pg' first l.
Proof.
  induction l as [|p l IH]; intros first; simpl; [done|].
  intros (Q1 & Q2 & Q3) Hn Hin. split_and!; [done|auto|]. rewrite Hn by set_solver.
  apply IH; [done| |done]. set_solver.
Qed.

Lemma free_first h pg : table_ok h pg -> first_free_page_no h <> RM_NO_PAGE ->
  in_file h (first_free_page_no h) /\
  num_records (pg (first_free_page_no h)) < num_records_per_page h.
Proof.
  intros [_ _ _ (l & _ & Hc & Hl)] Hne. destruct l as [|p l]; [done|].
  destruct Hc as (-> & Hin & _). split; [done|]. apply Hl; set_solver.
Qed.

Lemma table_ok_first h pg : table_ok h pg -> in_i32 (first_free_page_no h).
Proof.
  intros Ht. destruct (decide (first_free_page_no h = RM_NO_PAGE)) as [->|Hne].
  - unfold in_i32, RM_NO_PAGE. lia.
  - destruct (free_first _ _ Ht Hne) as [[? ?] _]. pose proof (to_pages _ _ Ht).
    unfold in_i32, RM_FIRST_RECORD_PAGE in *. lia.
Qed.

(** A page with the same number of records as before, or one that stays in or out
    of the chain. *)
Lemma table_ok_page h pg p x :
  table_ok h pg -> in_file h p -> page_ok h x -> next_free_page_no x = next_free_page_no (pg p) ->
  (num_records x < num_records_per_page h <-> num_records (pg p) < num_records_per_page h) ->
  table_ok h (upd p x pg).
Proof.
  intros [Q1 Q2 Q3 (l & Hnd & Hc & Hl)] Hp Hx Hn Hf. split; [done|done| |].
  - intros q Hq. unfold upd. destruct (decide (q = p)) as [->|]; auto.
  - exists l. split_and!; [done| |].
    + eapply free_chain_ext; [exact Hc| |done]. intros q Hq. unfold upd. by destruct (decide (q = p)) as [->|].
    + intros q Hq. rewrite Hl by done. unfold upd. destruct (decide (q = p)) as [->|]; [by rewrite Hf|done].
Qed.

(** The first free page has become full. *)
Lemma table_ok_fill h pg p x :
  table_ok h pg -> first_free_page_no h = p -> p <> RM_NO_PAGE -> page_ok h x ->
  next_free_page_no x = next_free_page_no (pg p) -> num_records_per_page h <= num_records x ->
  table_ok (set_first_free (next_free_page_no x) h) (upd p x pg).
Proof.
  intros Ht Hfp Hne Hx Hn Hfull. destruct Ht as [Q1 Q2 Q3 (l & Hnd & Hc & Hl)].
  assert (Hsl : same_layout h (set_first_free (next_free_page_no x) h)) by done.
  split; [by eapply layout_hdr_ok|done| |].
  - intros q Hq. apply (layout_page_ok h); [done|]. unfold upd.
    destruct (decide (q = p)) as [->|]; [done|]. by apply Q3.
  - destruct l as [|p' l]; [simpl in Hc; congruence|]. destruct Hc as (E & Hin & Hc).
    assert (p' = p) as -> by congruence. apply NoDup_cons in Hnd as [Hni Hnd]. exists l. split_and!; [done| |].
    + simpl. rewrite Hn. eapply free_chain_ext; [exact Hc| |done].
      intros q Hq. unfold upd. destruct (decide (q = p)) as [->|]; [done|done].
    + intros q Hq. change (in_file h q) in Hq. simpl. unfold upd. specialize (Hl q Hq).
      rewrite elem_of_cons in Hl. destruct (decide (q = p)) as [->|Hqp].
      * split; [done|]. intros. lia.
      * rewrite <- Hl. naive_solver.
Qed.

(** A full page has room again. *)
Lemma table_ok_release h pg p x :
  table_ok h pg -> in_file h p -> page_ok h x -> num_records (pg p) = num_records_per_page h ->
  next_free_page_no x = first_free_page_no h -> num_records x < num_records_per_page h ->
  table_ok (set_first_free p h) (upd p x pg).
Proof.
  intros Ht Hp Hx Hfull Hn Hroom. destruct Ht as [Q1 Q2 Q3 (l & Hnd & Hc & Hl)].
  assert (Hsl : same_layout h (set_first_free p h)) by done.
  split; [by eapply layout_hdr_ok|done| |].
  - intros q Hq. apply (layout_page_ok h); [done|]. unfold upd.
    destruct (decide (q = p)) as [->|]; [done|]. by apply Q3.
  - assert (Hni : p ∉ l) by (rewrite Hl by done; lia). exists (p :: l). split_and!.
    + by constructor.
    + simpl. split_and!; [done|done|]. replace (upd p x pg p) with x by (unfold upd; by rewrite decide_True).
      rewrite Hn.
      eapply free_chain_ext; [exact Hc| |done]. intros q Hq. unfold upd.
      destruct (decide (q = p)) as [->|]; [done|done].
    + intros q Hq. change (in_file h q) in Hq. simpl. unfold upd. specialize (Hl q Hq).
      rewrite elem_of_cons. destruct (decide (q = p)) as [->|Hqp]; [naive_solver|].
      rewrite <- Hl. naive_solver.
Qed.

(** A page is added. *)
Lemma table_ok_new h pg x :
  table_ok h pg -> first_free_page_no h = RM_NO_PAGE -> num_pages h < 2 ^ 31 - 1 -> page_ok h x ->
  num_records x = 0 -> next_free_page_no x = RM_NO_PAGE ->
  table_ok (set_num_pages (num_pages h + 1) (set_first_free (num_pages h) h)) (upd (num_pages h) x pg).
Proof.
  intros Ht Hf Hmax Hx Hz Hn. destruct Ht as [Q1 Q2 Q3 (l & Hnd & Hc & Hl)].
  set (h' := set_num_pages _ _). assert (Hsl : same_layout h h') by done.
  destruct l as [|p l].
  2: { destruct Hc as (E & [Hin _] & _). rewrite E in Hf. unfold RM_NO_PAGE, RM_FIRST_RECORD_PAGE in *. lia. }
  pose proof (ho_n _ Q1).
  assert (Hin : forall q, in_file h' q -> q = num_pages h \/ in_file h q).
  { intros q [? Hq]. unfold h' in Hq. simpl in Hq. unfold in_file. lia. }
  split; [by eapply layout_hdr_ok|simpl; lia| |].
  - intros q Hq. apply (layout_page_ok h); [done|]. unfold upd.
    destruct (decide (q = _)) as [->|]; [done|]. apply Q3. by destruct (Hin q Hq).
  - exists [num_pages h]. split_and!.
    + apply NoDup_singleton.
    + simpl. split_and!; [done|unfold in_file, RM_FIRST_RECORD_PAGE; simpl; lia|].
      unfold upd. by rewrite decide_True.
    + intros q Hq. unfold upd. simpl. rewrite list_elem_of_singleton. destruct (decide (q = _)) as [->|Hne].
      * split; [lia|done].
      * split; [done|]. destruct (Hin q Hq) as [|Hq']; [done|]. intros Hlt.
        apply (Hl q Hq') in Hlt. set_solver.
Qed.

(** *** The operations *)

Lemma table_after s s' pg p x r :
  shows s pg -> shows s' (upd p x pg) -> same_layout (file_hdr_ s) (file_hdr_ s') ->
  (forall q, in_file (file_hdr_ s') q <-> q = p \/ in_file (file_hdr_ s) q) ->
  table s' r = if decide (rid_page_no r = p) then slots (file_hdr_ s) x (rid_slot_no r) else table s r.
Proof.
  intros Hs Hs' Hl Hin. rewrite (table_shows _ _ _ Hs), (table_shows _ _ _ Hs').
  rewrite (layout_slots _ _ _ _ Hl). unfold upd.
  destruct (decide (rid_page_no r = p)) as [->|Hne].
  - rewrite decide_True; [done|]. apply Hin. by left.
  - destruct (decide (in_file (file_hdr_ s) (rid_page_no r))) as [Hi|Hi].
    + rewrite decide_True; [done|]. apply Hin. by right.
    + rewrite decide_False; [done|]. intros [?|?]%Hin; done.
Qed.

(** What a step on page [p] leaves alone. *)
Definition quiet s s' : Prop :=
  fd_ s' = fd_ s /\ ctx s' = ctx s /\
  (forall q, BufferPool.pins (bpm s') q = BufferPool.pins (bpm s) q) /\
  BufferPool.keeps (fun q => fd q = fd_ s) (bpm s) (bpm s').

Lemma quiet_finished s s' p x np :
  fd_ s' = fd_ s -> ctx s' = ctx s -> finished (bpm s) s' p x np -> quiet s s'.
Proof.
  intros Hf Hc [_ _ Fp Fk _]. split_and!; try done. eapply BufferPool.keeps_mono; [|exact Fk].
  intros q ->. unfold page_of. simpl. done.
Qed.

Lemma table_in s pg rid d : shows s pg -> table s rid = Some d ->
  in_file (file_hdr_ s) (rid_page_no rid) /\
  0 <= rid_slot_no rid < num_records_per_page (file_hdr_ s) /\
  Bitmap.is_set (bitmap (pg (rid_page_no rid))) (rid_slot_no rid) = true /\
  d = read_slot (file_hdr_ s) (rid_slot_no rid) (pg (rid_page_no rid)).
Proof.
  intros Hs. rewrite (table_shows _ _ _ Hs). case_decide as Hin; [|done]. intros Hd.
  destruct (slots_is_set (file_hdr_ s) (pg (rid_page_no rid)) (rid_slot_no rid)) as [Hi _].
  destruct Hi as [Hi Hb]; [eauto|]. split_and!; try done; try lia.
  unfold slots in Hd. rewrite decide_True, Hb in Hd by lia. by injection Hd as <-.
Qed.

Lemma check_slot_ok s i : hdr_ok (file_hdr_ s) -> 0 <= i < num_records_per_page (file_hdr_ s) ->
  check_slot i s = (s, Ok tt).
Proof.
  intros Hh Hi. unfold check_slot. rewrite (bind_ok _ _ s s (file_hdr_ s)) by done.
  by rewrite slot_ok_in.
Qed.

Lemma get_record_ok s s' rid r d :
  ok s -> table s rid = Some d -> get_record rid false s = (s', Ok r) ->
  ok s' /\ quiet s s' /\ r = mkRmRecord (Some d) (record_size (file_hdr_ s)) true /\
  file_hdr_ s' = file_hdr_ s /\ forall q, table s' q = table s q.
Proof.
  intros (pg & Hs & Ht) Hd Hr. destruct (table_in _ _ _ _ Hs Hd) as (Hin & Hsl & Hset & ->).
  unfold get_record in Hr. rewrite (bind_ok _ _ s s tt) in Hr by done.
  apply bind_inv in Hr as (s1 & f & Hf & Hr).
  destruct (work_fetch _ _ _ _ _ Hs Hin Hf) as (pl & -> & Hwk & Hu).
  rewrite (bind_ok _ _ _ _ _ (check_slot_ok (set_pool pl s) _ (to_hdr _ _ Ht) Hsl)) in Hr.
  rewrite (bind_ok _ _ _ _ _ (work_get _ _ _ _ _ _ Hwk)) in Hr.
  rewrite (bind_ok _ _ _ (set_pool pl s) (file_hdr_ s)) in Hr by done.
  destruct (work_unpin _ _ _ _ _ _ false Hwk (fun _ => Hu)) as (pl' & Hun & Hfin).
  rewrite (bind_ok _ _ _ _ _ Hun) in Hr. unfold mret, M_ret in Hr. injection Hr as <- <-.
  assert (Hs' : shows (set_pool pl' (set_pool pl s)) (upd (rid_page_no rid) (pg (rid_page_no rid)) pg))
    by (eapply shows_finished; [exact Hs|done|exact Hfin|done]).
  split_and!; [|by eapply quiet_finished| |done|].
  - eexists. split; [exact Hs'|]. apply table_ok_page; try done. by apply (to_page _ _ Ht).
  - unfold RmRecord_new, read_slot. f_equal. f_equal. rewrite take_ge; [done|]. rewrite length_mem_read. lia.
  - intros q. rewrite (table_after _ _ _ _ _ q Hs Hs'); [|done|simpl; naive_solver].
    destruct (decide (_ = _)) as [E|E]; [|done]. rewrite (table_shows _ _ _ Hs), E. by rewrite decide_True.
Qed.

Lemma update_record_ok s s' rid d buf :
  ok s -> table s rid = Some d -> record_size (file_hdr_ s) <= Z.of_nat (length buf) ->
  update_record rid buf false s = (s', Ok tt) ->
  ok s' /\ quiet s s' /\ file_hdr_ s' = file_hdr_ s /\
  forall q, table s' q =
    if decide (q = rid) then Some (take (Z.to_nat (record_size (file_hdr_ s))) buf) else table s q.
Proof.
  intros (pg & Hs & Ht) Hd Hb Hr. destruct (table_in _ _ _ _ Hs Hd) as (Hin & Hsl & Hset & _).
  destruct (written_ok _ (to_hdr _ _ Ht) _ buf _ (to_page _ _ Ht _ Hin) Hsl Hset Hb) as (Hp' & Hn' & Hx' & Hsl').
  unfold update_record in Hr. rewrite (bind_ok _ _ s s tt) in Hr by done.
  apply bind_inv in Hr as (s1 & f & Hf & Hr).
  destruct (work_fetch _ _ _ _ _ Hs Hin Hf) as (pl & -> & Hwk & Hu).
  rewrite (bind_ok _ _ _ (set_pool pl s) None) in Hr by done.
  rewrite (bind_ok _ _ _ _ _ (check_slot_ok (set_pool pl s) _ (to_hdr _ _ Ht) Hsl)) in Hr.
  rewrite (bind_ok _ _ _ (set_pool pl s) (file_hdr_ s)) in Hr by done.
  destruct (work_upd _ _ _ _ _ _ _ Hwk (po_length _ _ Hp')) as (pl2 & Hup & Hwk2).
  rewrite (bind_ok _ _ _ _ _ Hup) in Hr. rewrite (bind_ok _ _ _ (set_pool pl2 (set_pool pl s)) tt) in Hr by done.
  destruct (work_unpin _ _ _ _ _ _ true Hwk2 ltac:(done)) as (pl' & Hun & Hfin).
  rewrite Hun in Hr. injection Hr as <-.
  match goal with |- ok ?s' /\ _ => set (st := s') end.
  assert (Hs' : shows st (upd (rid_page_no rid) (write_slot (file_hdr_ s) (rid_slot_no rid) buf (pg (rid_page_no rid))) pg))
    by (eapply shows_finished; [exact Hs|done|exact Hfin|done]).
  split_and!; [|by eapply quiet_finished|done|].
  - eexists. split; [exact Hs'|]. apply table_ok_page; try done. by rewrite Hn'.
  - intros q. rewrite (table_after _ _ _ _ _ q Hs Hs'); [|done|simpl; naive_solver].
    rewrite Hsl'. destruct q as [qp qs], rid as [p i]. simpl in *.
    destruct (decide (qp = p)) as [->|Hne].
    + rewrite (table_shows _ _ _ Hs). simpl. rewrite (decide_True (P := in_file _ _)) by done.
      destruct (decide (qs = i)) as [->|]; [by rewrite decide_True|]. rewrite decide_False; [done|congruence].
    + rewrite decide_False; [done|congruence].
Qed.

Lemma work_release pl0 s p f x np :
  working pl0 s p f x np -> length x = page_size ->
  exists pl, release_page_handle f s = (set_hdr (set_first_free p (file_hdr_ s)) (set_pool pl s), Ok tt) /\
    working pl0 (set_hdr (set_first_free p (file_hdr_ s)) (set_pool pl s)) p f
      (set_next_free_page_no (first_free_page_no (file_hdr_ s)) x) np.
Proof.
  intros Hwk Hl. unfold release_page_handle. rewrite (bind_ok _ _ s s (file_hdr_ s)) by done.
  destruct (work_upd _ _ _ _ _ _ (set_next_free_page_no (first_free_page_no (file_hdr_ s))) Hwk
    ltac:(unfold set_next_free_page_no; by rewrite length_store_32)) as (pl & Hup & Hwk').
  exists pl. rewrite (bind_ok _ _ _ _ _ Hup).
  destruct (work_page_at _ _ _ _ _ _ Hwk') as (q & Hq & Hid). rewrite (bind_ok _ _ _ _ _ Hq), Hid.
  split; [done|]. by apply work_hdr.
Qed.

(** The steps of [delete_record] after the page was fetched. *)
Lemma work_remove {B} pl0 s p f x np j :
  working pl0 s p f x np -> hdr_ok (file_hdr_ s) -> page_ok (file_hdr_ s) x ->
  0 <= j < num_records_per_page (file_hdr_ s) ->
  let h := file_hdr_ s in
  let h' := if num_records x =? num_records_per_page h then set_first_free p h else h in
  exists pl, (forall k : M handle B, (upd_data f (cleared h j);;
    d ← on_pool (BufferPool.get_data f);
    whenM (num_records d =? num_records_per_page h) (release_page_handle f);;
    upd_data f (fun d => set_num_records (i32 (num_records d - 1)) d);; k) s = k (set_hdr h' (set_pool pl s))) /\
    working pl0 (set_hdr h' (set_pool pl s)) p f (removed h j (first_free_page_no h) x) np.
Proof.
  intros Hwk Hh Hx Hj h h'. destruct (cleared_ok h Hh j x (po_length _ _ Hx) Hj) as (Hcl & Hcn & _).
  destruct (work_upd _ _ _ _ _ _ (cleared h j) Hwk Hcl) as (pl & Hup & Hwk').
  unfold removed, released, h'. rewrite Hcn.
  destruct (num_records x =? num_records_per_page h) eqn:E.
  - destruct (work_release _ _ _ _ _ _ Hwk' Hcl) as (pl2 & Hre & Hwk2). 
    destruct (work_upd _ _ _ _ _ _ (fun d => set_num_records (i32 (num_records d - 1)) d) Hwk2
      ltac:(unfold set_num_records, set_next_free_page_no; by rewrite !length_store_32)) as (pl3 & Hup3 & Hwk3).
    exists pl3. split; [|done]. intros k.
    rewrite (bind_ok _ _ _ _ _ Hup), (bind_ok _ _ _ _ _ (work_get _ _ _ _ _ _ Hwk')), Hcn, E. simpl whenM.
    by rewrite (bind_ok _ _ _ _ _ Hre), (bind_ok _ _ _ _ _ Hup3).
  -    destruct (work_upd _ _ _ _ _ _ (fun d => set_num_records (i32 (num_records d - 1)) d) Hwk'
      ltac:(unfold set_num_records; by rewrite !length_store_32)) as (pl3 & Hup3 & Hwk3).
    exists pl3. split; [|by destruct s]. intros k.
    rewrite (bind_ok _ _ _ _ _ Hup), (bind_ok _ _ _ _ _ (work_get _ _ _ _ _ _ Hwk')), Hcn, E. simpl whenM.
    rewrite (bind_ok _ _ (set_pool pl s) (set_pool pl s) tt) by done.
    rewrite (bind_ok _ _ _ _ _ Hup3). by destruct s.
Qed.

Lemma delete_record_ok s s' rid d :
  ok s -> table s rid = Some d -> delete_record rid false s = (s', Ok tt) ->
  ok s' /\ quiet s s' /\ same_layout (file_hdr_ s) (file_hdr_ s') /\
  num_pages (file_hdr_ s') = num_pages (file_hdr_ s) /\
  forall q, table s' q = if decide (q = rid) then None else table s q.
Proof.
  intros (pg & Hs & Ht) Hd Hr. destruct (table_in _ _ _ _ Hs Hd) as (Hin & Hsl & Hset & _).
  pose proof (to_page _ _ Ht _ Hin) as Hpo. pose proof (to_hdr _ _ Ht) as Hh.
  pose proof (num_records_range _ Hh _ Hpo) as Hrange.
  destruct (removed_ok _ Hh _ (first_free_page_no (file_hdr_ s)) _ Hpo Hsl Hset (table_ok_first _ _ Ht))
    as (Hp' & Hn' & Hx' & Hsl').
  unfold delete_record in Hr. rewrite (bind_ok _ _ s s tt) in Hr by done.
  apply bind_inv in Hr as (s1 & f & Hf & Hr).
  destruct (work_fetch _ _ _ _ _ Hs Hin Hf) as (pl & -> & Hwk & Hu).
  rewrite (bind_ok _ _ _ (set_pool pl s) None) in Hr by done.
  rewrite (bind_ok _ _ _ _ _ (check_slot_ok (set_pool pl s) _ Hh Hsl)) in Hr.
  rewrite (bind_ok _ _ _ (set_pool pl s) (file_hdr_ s)) in Hr by done.
  destruct (work_remove (B := unit) _ _ _ _ _ _ (rid_slot_no rid) Hwk Hh Hpo Hsl) as (pl2 & Hrm & Hwk2).
  simpl file_hdr_ in Hrm, Hwk2. unfold cleared in Hrm. rewrite Hrm in Hr. clear Hrm.
  set (h' := if _ =? _ then _ else _) in *. set (st := set_hdr h' (set_pool pl2 (set_pool pl s))) in *.
  rewrite (bind_ok _ _ st st tt) in Hr by done.
  destruct (work_unpin _ _ _ _ _ _ true Hwk2 ltac:(done)) as (pl' & Hun & Hfin).
  rewrite Hun in Hr. injection Hr as <-.
  assert (Hnp : num_pages h' = num_pages (file_hdr_ s)) by (unfold h'; by destruct (_ =? _)).
  assert (Hlay : same_layout (file_hdr_ s) h') by (unfold h'; by destruct (_ =? _)).
  assert (Hs' : shows (set_pool pl' st) (upd (rid_page_no rid)
    (removed (file_hdr_ s) (rid_slot_no rid) (first_free_page_no (file_hdr_ s)) (pg (rid_page_no rid))) pg)).
  { eapply shows_finished; [exact Hs|done| |].
    - simpl. rewrite Hnp. exact Hfin.
    - unfold in_file. simpl. rewrite Hnp. done. }
  split_and!; [|by eapply quiet_finished|done|done|].
  - eexists. split; [exact Hs'|]. simpl. unfold h'.
    destruct (Z.eqb_spec (num_records (pg (rid_page_no rid))) (num_records_per_page (file_hdr_ s))) as [E|E].
    + apply table_ok_release; try done. lia.
    + apply table_ok_page; try done. lia.
  - intros q. rewrite (table_after _ _ _ _ _ q Hs Hs'); [|done|].
    2: { unfold in_file. simpl. rewrite Hnp. intros q'. split; [tauto|]. by intros [->|]. }
    rewrite Hsl'. destruct q as [qp qs], rid as [p i]. simpl in *.
    destruct (decide (qp = p)) as [->|Hne].
    + rewrite (table_shows _ _ _ Hs). simpl. rewrite (decide_True (P := in_file _ _)) by done.
      destruct (decide (qs = i)) as [->|]; [by rewrite decide_True|]. rewrite decide_False; [done|congruence].
    + rewrite decide_False; [done|congruence].
Qed.

(** The page [insert_record] takes: the first free one, or a new one. *)
Record taken s s1 pg p f pg1 : Prop := {
  tn_fd : fd_ s1 = fd_ s;
  tn_ctx : ctx s1 = ctx s;
  tn_layout : same_layout (file_hdr_ s) (file_hdr_ s1);
  tn_first : first_free_page_no (file_hdr_ s1) = p;
  tn_in : forall q, in_file (file_hdr_ s1) q <-> q = p \/ in_file (file_hdr_ s) q;
  tn_ok : table_ok (file_hdr_ s1) pg1;
  tn_room : num_records (pg1 p) < num_records_per_page (file_hdr_ s);
  tn_pages : forall q, q <> p -> pg1 q = pg q;
  tn_slots : forall i, table s (mkRid p i) = slots (file_hdr_ s) (pg1 p) i;
  tn_work : working (bpm s) s1 p f (pg1 p) (num_pages (file_hdr_ s1));
}.

Lemma create_page_ok s s1 pg f :
  shows s pg -> table_ok (file_hdr_ s) pg -> num_pages (file_hdr_ s) < 2 ^ 31 - 1 ->
  create_page_handle s = (s1, Ok f) -> exists p pg1, taken s s1 pg p f pg1.
Proof.
  intros Hs Ht Hmax Hr. unfold create_page_handle in Hr.
  rewrite (bind_ok _ _ s s (file_hdr_ s)) in Hr by done.
  destruct (decide (first_free_page_no (file_hdr_ s) = RM_NO_PAGE)) as [E|E].
  2: { destruct (free_first _ _ Ht E) as [Hin Hroom].
       destruct (work_fetch _ _ _ _ _ Hs Hin Hr) as (pl & -> & Hwk & _).
       eexists _, pg. split; try done.
       - simpl. naive_solver.
       - intros i. rewrite (table_shows _ _ _ Hs). simpl. by rewrite decide_True. }
  pose proof (to_hdr _ _ Ht) as Hh. pose proof (ho_n _ Hh) as Hn1. pose proof (to_pages _ _ Ht) as [Hnp _].
  unfold create_new_page_handle in Hr. rewrite (bind_ok _ _ s s (fd_ s)) in Hr by done.
  apply bind_inv in Hr as (s2 & o & Hnew & Hr). apply on_pool_inv in Hnew as (pl & Hnew & ->).
  destruct o as [[f' id]|]; [|done]. pose proof Hs as [Hw Hnx Hv Hsv].
  apply BufferPool.new_held in Hnew as (-> & Hheld & Hp1 & Hp0 & Hk & Hnx'); [|done|by rewrite Hnx|].
  2: { rewrite Hnx. apply Hv. lia. }
  rewrite Hnx in *. set (np := num_pages (file_hdr_ s)) in *.
  assert (Hwk : working (bpm s) (set_pool pl s) np f' BufferPool.fresh_page (np + 1)).
  { split; try done. unfold page_of. simpl. lia. }
  assert (Hfr : length BufferPool.fresh_page = page_size).
  { unfold BufferPool.fresh_page, BufferPool.zero_page. by rewrite length_store_32, length_replicate. }
  destruct (init_page_state (file_hdr_ s) Hh _ Hfr) as (Hil & His & Hin0 & Hinf & Hic).
  rewrite (bind_ok _ _ _ (set_pool pl s) (file_hdr_ s)) in Hr by done.
  destruct (work_upd _ _ _ _ _ _ (init_page (file_hdr_ s)) Hwk Hil) as (pl2 & Hup & Hwk2).
  rewrite (bind_ok _ _ _ _ _ Hup) in Hr. unfold upd_hdr, modify, mret, M_ret, mbind, M_bind in Hr.
  simpl in Hr. fold np in Hr. rewrite i32_small in Hr by (unfold in_i32; lia).
  injection Hr as <- <-. exists np, (upd np (init_page (file_hdr_ s) BufferPool.fresh_page) pg).
  assert (Hself : upd np (init_page (file_hdr_ s) BufferPool.fresh_page) pg np =
    init_page (file_hdr_ s) BufferPool.fresh_page) by (unfold upd; by rewrite decide_True).
  assert (Hpo : page_ok (file_hdr_ s) (init_page (file_hdr_ s) BufferPool.fresh_page)) by (split; congruence).
  split; rewrite ?Hself.
  - reflexivity.
  - reflexivity.
  - by split.
  - reflexivity.
  - intros q. unfold in_file, RM_FIRST_RECORD_PAGE. simpl. fold np. lia.
  - apply table_ok_new; done.
  - rewrite Hin0. lia.
  - intros q Hq. unfold upd. by rewrite decide_False.
  - intros i. rewrite His, (table_shows _ _ _ Hs). simpl. rewrite decide_False; [done|].
    unfold in_file. fold np. lia.
  - apply work_hdr, work_hdr. exact Hwk2.
Qed.

(** *** Logging changes the LSN of the page, that of the header and the context *)
Definition stamped (x x' : bytes) : Prop := x' = x \/ exists z, x' = store_32 x BufferPool.OFFSET_LSN z.
Definition hdr_stamped (h h' : RmFileHdr) : Prop := h' = h \/ exists z, h' = set_hdr_lsn z h.

Lemma insertion_page h x x' : hdr_ok h -> stamped x x' -> page_ok h x -> page_ok h x' /\ num_records x' = num_records x /\
  next_free_page_no x' = next_free_page_no x /\ forall i, slots h x' i = slots h x i.
Proof.
  intros Hh [->|[z ->]] [Hl Hc]; [done|]. unfold BufferPool.OFFSET_LSN.
  assert (Hn : num_records (store_32 x 0 z) = num_records x) by (apply load_store_i32_ne; right; apply Nat.leb_le; reflexivity).
  assert (Hx : next_free_page_no (store_32 x 0 z) = next_free_page_no x)
    by (apply load_store_i32_ne; right; apply Nat.leb_le; reflexivity).
  split; [split; [by rewrite length_store_32|rewrite Hn, Hc; symmetry; apply count_store; lia]|].
  split; [done|]. split; [done|]. intros i. apply slots_store; [done|lia].
Qed.

Lemma stamped_table h h' pg : hdr_stamped h h' -> table_ok h pg -> table_ok h' pg.
Proof.
  intros [->|[z ->]]; [done|]. intros [Q1 Q2 Q3 (l & L1 & L2 & L3)]. assert (Hl : same_layout h (set_hdr_lsn z h)) by done.
  split; [by eapply layout_hdr_ok|done|intros p Hp; by apply (layout_page_ok h), Q3|].
  exists l. split_and!; [done|by eapply free_chain_ext|done].
Qed.

Lemma work_ctx pl0 s p f x np c : working pl0 s p f x np -> working pl0 (set_ctx c s) p f x np.
Proof. by intros [? ? ? ?]. Qed.

Lemma work_stamp pl0 s p f x np z s' u : working pl0 s p f x np ->
  on_pool (BufferPool.upd_page f (BufferPool.set_page_lsn z)) s = (s', Ok u) ->
  exists pl, s' = set_pool pl s /\ working pl0 s' p f (store_32 x BufferPool.OFFSET_LSN z) np.
Proof.
  intros Hwk Hr. destruct (BufferPool.held_frame _ _ _ _ (w_held _ _ _ _ _ _ Hwk)) as (pf & Hf & _ & Hx & _ & _ & Hl).
  destruct (work_upd _ _ _ _ _ _ (fun x => store_32 x BufferPool.OFFSET_LSN z) Hwk) as (pl & Hup & Hwk').
  { by rewrite length_store_32. }
  assert (E : on_pool (BufferPool.upd_page f (BufferPool.set_page_lsn z)) s = (set_pool pl s, Ok tt)).
  { rewrite <- Hup. unfold upd_data. rewrite (bind_ok _ _ _ _ _ (work_get _ _ _ _ _ _ Hwk)).
    unfold on_pool, zoom, BufferPool.put_data. rewrite (bind_ok _ _ _ _ _ (BufferPool.page_at_run _ _ _ Hf)).
    unfold BufferPool.upd_page, modify. do 3 f_equal. apply (BufferPool.upd_frame_ext f _ _ pf); [exact Hf|].
    unfold BufferPool.set_page_lsn. by rewrite Hx. }
  rewrite E in Hr. injection Hr as <- _. by exists pl.
Qed.

Lemma lock_ctx b shared rid s s' u : lock_record b shared rid s = (s', Ok u) ->
  exists c, s' = set_ctx c s /\ (b = false -> c = ctx s).
Proof.
  unfold lock_record. destruct b; intros Hr; [|unfold mret, M_ret in Hr; injection Hr as <- _; exists (ctx s); by destruct s].
  rewrite (bind_ok _ _ s s (fd_ s)) in Hr by done. apply bind_inv in Hr as (s1 & a & Hl & Hr).
  assert (Hs : exists c, s1 = set_ctx c s).
  { destruct shared; unfold on_ctx, zoom in Hl; [destruct (cx_lock_shared_on_record _ _ _) as [c r]|
      destruct (cx_lock_exclusive_on_record _ _ _) as [c r]]; injection Hl as <- _; by exists c. }
  destruct Hs as [c ->]. destruct a; [|unfold gets, throw in Hr; msimpl; discriminate Hr].
  unfold mret, M_ret in Hr. injection Hr as <- _. by exists c.
Qed.

Section names.
Context (Hname : forall g (d : D), (fl_get_file_name g d).1 = d).

Lemma insertion_name g s s' n : on_disk (fl_get_file_name g) s = (s', Ok n) -> s' = s.
Proof.
  unfold on_disk, on_pool, BufferPool.disk_op, zoom. pose proof (Hname g (BufferPool.disk_manager_ (bpm s))) as Hd.
  destruct (fl_get_file_name _ _) as [d r]. cbn [fst] in Hd. subst d. intros [= <- _]. destruct s as [? ? pl ?]. by destruct pl.
Qed.

Lemma log_before_keeps f s s' r : log_before f s = (s', Ok r) -> s' = s.
Proof.
  unfold log_before. intros Hr. rewrite (bind_ok _ _ s s s) in Hr by done. apply bind_inv in Hr as (s1 & n & Hn & Hr).
  apply insertion_name in Hn as ->. apply bind_inv in Hr as (s1 & p & Hp & Hr).
  unfold on_pool, zoom, BufferPool.page_at in Hp. destruct (BufferPool.frame _ _); [|done]. injection Hp as <- _.
  unfold mret, M_ret in Hr. injection Hr as <- _. by destruct s.
Qed.

Lemma log_after_ok pl0 s p f x np r old s' u : working pl0 s p f x np ->
  (lsn ← log_page f r; lsn ← log_hdr lsn old; set_prev_lsn lsn;; upd_hdr (set_hdr_lsn lsn)) s = (s', Ok u) ->
  exists x', working pl0 s' p f x' np /\ stamped x x' /\ hdr_stamped (file_hdr_ s) (file_hdr_ s') /\ fd_ s' = fd_ s.
Proof.
  intros Hwk Hr. apply bind_inv in Hr as (s1 & lsn & Hp & Hr). unfold log_page in Hp.
  destruct (work_page_at _ _ _ _ _ _ Hwk) as (q & Hq & _). rewrite (bind_ok _ _ _ _ _ Hq) in Hp.
  apply bind_inv in Hp as (s2 & l & Hl & Hp). unfold on_ctx, zoom in Hl. destruct (cx_add_log _ _) as [c rl]. injection Hl as <- ->.
  apply (work_ctx _ _ _ _ _ _ c) in Hwk. apply bind_inv in Hp as (s2 & [] & Hst & Hp).
  destruct (work_stamp _ _ _ _ _ _ _ _ _ Hwk Hst) as (pl & -> & Hwk'). unfold mret, M_ret in Hp. injection Hp as <- <-.
  apply bind_inv in Hr as (s2 & lsn2 & Hh & Hr). unfold log_hdr in Hh. apply bind_inv in Hh as (s3 & s0 & Hg & Hh).
  unfold get in Hg. injection Hg as <- <-. apply bind_inv in Hh as (s3 & nm & Hn & Hh). apply insertion_name in Hn as ->.
  unfold on_ctx, zoom in Hh. destruct (cx_add_log _ _) as [c2 rl2]. injection Hh as <- ->.
  unfold set_prev_lsn, upd_hdr, modify, mbind, M_bind in Hr. injection Hr as <- _.
  eexists. split_and!; [|by right; eexists|by right; eexists|done]. apply work_hdr, work_ctx, work_ctx. exact Hwk'.
Qed.
End names.

(** What an operation with a context leaves alone. *)
Definition still s s' : Prop :=
  fd_ s' = fd_ s /\ (forall q, BufferPool.pins (bpm s') q = BufferPool.pins (bpm s) q) /\
  BufferPool.keeps (fun q => fd q = fd_ s) (bpm s) (bpm s').

Lemma still_finished s s' p x np : fd_ s' = fd_ s -> finished (bpm s) s' p x np -> still s s'.
Proof.
  intros Hf [_ _ Fp Fk _]. split_and!; try done. eapply BufferPool.keeps_mono; [|exact Fk].
  intros q ->. unfold page_of. simpl. done.
Qed.

(** The inserted page, with its LSN, in the table. *)
Lemma insertion_shown s s1 s' pg p f pg1 h' pos buf y : shows s pg -> taken s s1 pg p f pg1 ->
  let x := inserted (file_hdr_ s1) pos buf (pg1 p) in
  stamped x y -> page_ok (file_hdr_ s1) x -> num_records x = num_records (pg1 p) + 1 -> next_free_page_no x = next_free_page_no (pg1 p) ->
  (forall i, slots (file_hdr_ s1) x i =
    if decide (i = pos) then Some (take (Z.to_nat (record_size (file_hdr_ s1))) buf) else slots (file_hdr_ s1) (pg1 p) i) ->
  h' = (if num_records_per_page (file_hdr_ s1) <=? num_records x
        then set_first_free (next_free_page_no x) (file_hdr_ s1) else file_hdr_ s1) ->
  hdr_stamped h' (file_hdr_ s') -> fd_ s' = fd_ s -> finished (bpm s) s' p y (num_pages (file_hdr_ s')) ->
  ok s' /\ same_layout (file_hdr_ s) (file_hdr_ s') /\
  forall q, table s' q = if decide (q = mkRid p pos)
    then Some (take (Z.to_nat (record_size (file_hdr_ s))) buf) else table s q.
Proof.
  intros Hs [Hfd Hctx Hlay Hfirst Hin Hok Hroom Hoth Hsl Hwk] x Hy Hx Hn Hx' Hsx Eh Hh Hf Hfin.
  assert (Hpin : in_file (file_hdr_ s1) p) by (apply Hin; by left). pose proof (to_hdr _ _ Hok) as Hhdr.
  destruct (insertion_page _ _ _ Hhdr Hy Hx) as (Hyok & Hny & Hxy & Hsy).
  assert (Hnp : num_pages (file_hdr_ s') = num_pages (file_hdr_ s1))
    by (destruct Hh as [-> | [z ->]]; subst h'; by destruct (_ <=? _)).
  assert (Hlay1 : same_layout (file_hdr_ s1) (file_hdr_ s'))
    by (destruct Hh as [-> | [z ->]]; subst h'; by destruct (_ <=? _)).
  assert (Hlay' : same_layout (file_hdr_ s) (file_hdr_ s')) by (destruct Hlay, Hlay1; split; congruence).
  assert (Hin' : forall q, in_file (file_hdr_ s') q <-> q = p \/ in_file (file_hdr_ s) q)
    by (intros q; rewrite <- Hin; unfold in_file; by rewrite Hnp).
  assert (Hs' : shows s' (upd p y pg)).
  { eapply shows_finished; [exact Hs|done|done|]. intros q Hq Hne. by apply Hin' in Hq as [?|?]. }
  split_and!; [|done|].
  - exists (upd p y pg1). split.
    { destruct Hs' as [S1 S2 S3 S4]. split; try done. intros q Hq. rewrite S4 by done.
      unfold upd. destruct (decide (q = p)); [done|]. by rewrite Hoth. }
    apply (stamped_table h'); [done|]. subst h'. destruct Hlay as [_ L2 _]. rewrite <- L2 in Hroom.
    destruct (Z.leb_spec (num_records_per_page (file_hdr_ s1)) (num_records x)) as [E|E].
    + rewrite <- Hxy. apply table_ok_fill; try done; [|congruence|lia].
      destruct Hpin. unfold RM_NO_PAGE, RM_FIRST_RECORD_PAGE in *. lia.
    + apply table_ok_page; try done; [congruence|lia].
  - intros q. rewrite (table_after _ _ _ _ _ q Hs Hs' Hlay' Hin'). rewrite <- (sl_size _ _ Hlay).
    destruct q as [qp qs]. cbn [rid_page_no rid_slot_no]. destruct (decide (qp = p)) as [->|Hne].
    + rewrite Hsl. rewrite <- !(layout_slots (file_hdr_ s) (file_hdr_ s1)) by done. rewrite Hsy, Hsx.
      destruct (decide (qs = pos)) as [->|]; [by rewrite decide_True|]. rewrite decide_False; [done|congruence].
    + rewrite decide_False; [done|congruence].
Qed.

(** With a context or without one. *)
Lemma insert_record_gives context s s' rid buf :
  (context = true -> forall g (d : D), (fl_get_file_name g d).1 = d) ->
  ok s -> record_size (file_hdr_ s) <= Z.of_nat (length buf) -> num_pages (file_hdr_ s) < 2 ^ 31 - 1 ->
  insert_record buf context s = (s', Ok rid) ->
  ok s' /\ still s s' /\ same_layout (file_hdr_ s) (file_hdr_ s') /\ table s rid = None /\
  (forall q, table s' q =
    if decide (q = rid) then Some (take (Z.to_nat (record_size (file_hdr_ s))) buf) else table s q) /\
  (context = false -> ctx s' = ctx s).
Proof.
  intros Hname (pg & Hs & Ht) Hb Hmax Hr. unfold insert_record in Hr.
  apply bind_inv in Hr as (s1 & f & Hc & Hr).
  destruct (create_page_ok _ _ _ _ Hs Ht Hmax Hc) as (p & pg1 & Htk). pose proof Htk as [Hfd Hctx Hlay Hfirst Hin Hok Hroom Hoth Hsl Hwk].
  assert (Hpin : in_file (file_hdr_ s1) p) by (apply Hin; by left).
  pose proof (to_page _ _ Hok _ Hpin) as Hpo. pose proof (to_hdr _ _ Hok) as Hh. clear Hc.
  pose proof Hlay as [L1 L2 L3]. rewrite <- L2 in Hroom. rewrite <- L1 in Hb.
  destruct (first_free _ Hh (pg1 p)) as [Hpos Hclr]; [rewrite <- (po_count _ _ Hpo); lia|].
  apply bind_inv in Hr as (s2 & before & Hbef & Hr).
  assert (s2 = s1 /\ (context = false -> before = None)) as [-> Hnone].
  { destruct context; [|unfold mret, M_ret in Hbef; by injection Hbef as <- <-].
    apply bind_inv in Hbef as (s3 & b & Hbef & Hr'). apply log_before_keeps in Hbef as ->; [|by apply Hname].
    unfold mret, M_ret in Hr'. by injection Hr' as <- <-. }
  rewrite (bind_ok _ _ _ s1 (file_hdr_ s1)) in Hr by done.
  rewrite (bind_ok _ _ _ _ _ (work_get _ _ _ _ _ _ Hwk)) in Hr.
  destruct (work_page_at _ _ _ _ _ _ Hwk) as (pp & Hpp & Hid). rewrite (bind_ok _ _ _ _ _ Hpp), Hid in Hr.
  cbv zeta in Hr. set (pos := Bitmap.first_bit false (bitmap (pg1 p)) (num_records_per_page (file_hdr_ s1))) in *.
  apply bind_inv in Hr as (s2 & [] & Hlock & Hr). apply lock_ctx in Hlock as (c & -> & Hctx').
  apply (work_ctx _ _ _ _ _ _ c) in Hwk.
  rewrite (bind_ok _ _ _ _ _ (check_slot_ok (set_ctx c s1) _ Hh Hpos)) in Hr.
  destruct (inserted_ok _ Hh pos buf _ Hpo Hpos Hclr Hb) as (Hp' & Hn' & Hx' & Hsl').
  set (d1 := set_num_records (i32 (num_records (pg1 p) + 1)) (write_slot (file_hdr_ s1) pos buf (pg1 p))) in *.
  assert (Hd1 : length d1 = page_size).
  { unfold d1, set_num_records. rewrite length_store_32, length_write_slot. apply (po_length _ _ Hpo). }
  destruct (work_upd _ _ _ _ _ _ (fun d => set_num_records (i32 (num_records d + 1)) (write_slot (file_hdr_ s1) pos buf d))
    Hwk Hd1) as (pl2 & Hup & Hwk2). rewrite (bind_ok _ _ _ _ _ Hup) in Hr.
  rewrite (bind_ok _ _ _ _ _ (work_get _ _ _ _ _ _ Hwk2)) in Hr. cbv beta in Hr, Hwk2. fold d1 in Hr, Hwk2.
  assert (Hnd1 : num_records (inserted (file_hdr_ s1) pos buf (pg1 p)) = num_records d1)
    by (unfold inserted; fold d1; unfold Bitmap.set; apply load_i32_alter; [done|cbn; lia]).
  assert (Hxd1 : next_free_page_no (inserted (file_hdr_ s1) pos buf (pg1 p)) = next_free_page_no d1)
    by (unfold inserted; fold d1; unfold Bitmap.set; apply load_i32_alter; [done|cbn; lia]).
  set (h' := if num_records_per_page (file_hdr_ s1) <=? num_records d1
             then set_first_free (next_free_page_no d1) (file_hdr_ s1) else file_hdr_ s1).
  rewrite (bind_ok _ _ _ (set_hdr h' (set_pool pl2 (set_ctx c s1))) tt) in Hr
    by (unfold h'; by destruct (_ <=? _)).
  apply (work_hdr _ _ _ _ _ _ h') in Hwk2.
  destruct (work_upd _ _ _ _ _ _ (on_bitmap (Bitmap.set pos)) Hwk2 (po_length _ _ Hp')) as (pl3 & Hup3 & Hwk3).
  rewrite (bind_ok _ _ _ _ _ Hup3) in Hr. set (st := set_pool pl3 _) in *.
  fold (inserted (file_hdr_ s1) pos buf (pg1 p)) in Hwk3.
  apply bind_inv in Hr as (st' & [] & Hlog & Hr).
  assert (exists y, working (bpm s) st' p f y (num_pages (file_hdr_ s1)) /\ stamped (inserted (file_hdr_ s1) pos buf (pg1 p)) y /\
    hdr_stamped h' (file_hdr_ st') /\ fd_ st' = fd_ s /\ (before = None -> ctx st' = c)) as (y & Hwk4 & Hy & Hhy & Hfy & Hcy).
  { destruct before as [[r old]|].
    - destruct context; [|by discriminate (Hnone eq_refl)].
      destruct (log_after_ok (Hname eq_refl) _ _ _ _ _ _ _ _ _ _ Hwk3 Hlog) as (y & Hw & Hy & Hhy & Hfy). exists y.
      split_and!; [done|done|done|rewrite Hfy; exact Hfd|done].
    - unfold mret, M_ret in Hlog. injection Hlog as <-. exists (inserted (file_hdr_ s1) pos buf (pg1 p)).
      split_and!; [done|by left|by left|exact Hfd|done]. }
  destruct (work_unpin _ _ _ _ _ _ true Hwk4 ltac:(done)) as (pl' & Hun & Hfin).
  rewrite (bind_ok _ _ _ _ _ Hun) in Hr. unfold mret, M_ret in Hr. injection Hr as <- <-.
  assert (Hnp : num_pages (file_hdr_ st') = num_pages (file_hdr_ s1))
    by (destruct Hhy as [-> | [z ->]]; unfold h'; by destruct (_ <=? _)).
  destruct (insertion_shown s s1 (set_pool pl' st') pg p f pg1 h' pos buf y) as (Hok' & Hlay' & Htab); try done.
  - unfold h'. by rewrite Hnd1, Hxd1.
  - simpl. rewrite Hnp. exact Hfin.
  - split_and!; [done|by eapply still_finished|done| |exact Htab|].
    + rewrite Hsl. unfold slots. rewrite <- L2, decide_True by done. fold pos in Hclr. by rewrite Hclr.
    + intros E. simpl. rewrite Hcy by auto. rewrite Hctx' by done. done.
Qed.

Lemma insert_record_ok s s' rid buf :
  ok s -> record_size (file_hdr_ s) <= Z.of_nat (length buf) -> num_pages (file_hdr_ s) < 2 ^ 31 - 1 ->
  insert_record buf false s = (s', Ok rid) ->
  ok s' /\ quiet s s' /\ same_layout (file_hdr_ s) (file_hdr_ s') /\ table s rid = None /\
  forall q, table s' q =
    if decide (q = rid) then Some (take (Z.to_nat (record_size (file_hdr_ s))) buf) else table s q.
Proof.
  intros Hok Hb Hn Hr. destruct (insert_record_gives false s s' rid buf) as (? & (? & ? & ?) & ? & ? & ? & Hc); try done.
  split_and!; try done. split_and!; try done. by apply Hc.
Qed.

(** *** Histories of operations *)

Inductive op := Get (rid : Rid) | Insert (buf : bytes) | Delete (rid : Rid) | Update (rid : Rid) (buf : bytes).
Inductive event :=
  EGet (rid : Rid) (r : RmRecord) | EInsert (rid : Rid) (buf : bytes)
| EDelete (rid : Rid) | EUpdate (rid : Rid) (buf : bytes).

Definition step (o : op) : M handle event :=
  match o with
  | Get rid => r ← get_record rid false; mret (EGet rid r)
  | Insert buf => rid ← insert_record buf false; mret (EInsert rid buf)
  | Delete rid => delete_record rid false;; mret (EDelete rid)
  | Update rid buf => update_record rid buf false;; mret (EUpdate rid buf)
  end.

Fixpoint run (l : list op) : M handle (list event) :=
  match l with
  | [] => mret []
  | o :: l => e ← step o; es ← run l; mret (e :: es)
  end.

(** The use of a table: records that are there are read, changed and deleted, with
    buffers of the size of a record; page numbers do not overflow. *)
Definition legal s (o : op) : Prop :=
  match o with
  | Get rid | Delete rid => is_Some (table s rid)
  | Insert buf => record_size (file_hdr_ s) <= Z.of_nat (length buf) /\ num_pages (file_hdr_ s) < 2 ^ 31 - 1
  | Update rid buf => is_Some (table s rid) /\ record_size (file_hdr_ s) <= Z.of_nat (length buf)
  end.

Fixpoint legal_run (l : list op) s : Prop :=
  match l with
  | [] => True
  | o :: l => legal s o /\ match step o s with (s', Ok _) => legal_run l s' | _ => True end
  end.

(** A map from record identifiers to records of [n] bytes. *)
Definition spec_step (n : nat) (e : event) (m : Rid -> option bytes) : Rid -> option bytes :=
  match e with
  | EGet _ _ => m
  | EInsert rid buf | EUpdate rid buf => fun r => if decide (r = rid) then Some (take n buf) else m r
  | EDelete rid => fun r => if decide (r = rid) then None else m r
  end.

(** The answers are those of the map: what is read is what the map holds, and an
    insertion uses an identifier that is not in it. *)
Fixpoint consistent (n : nat) (es : list event) (m : Rid -> option bytes) : Prop :=
  match es with
  | [] => True
  | e :: es =>
      match e with
      | EGet rid r => rec_data r = m rid /\ rec_size r = Z.of_nat n
      | EInsert rid _ => m rid = None
      | _ => True
      end /\ consistent n es (spec_step n e m)
  end.

Lemma quiet_trans s1 s2 s3 : quiet s1 s2 -> quiet s2 s3 -> quiet s1 s3.
Proof.
  intros (F1 & C1 & P1 & K1) (F2 & C2 & P2 & K2). split_and!; try congruence.
  eapply BufferPool.keeps_trans; [exact K1|]. by rewrite <- F1.
Qed.

Lemma quiet_refl s : quiet s s.
Proof. split_and!; try done. Qed.

Definition stepped s s' (n : nat) (e : event) : Prop :=
  ok s' /\ quiet s s' /\ record_size (file_hdr_ s') = record_size (file_hdr_ s) /\
  consistent n [e] (table s) /\ forall r, table s' r = spec_step n e (table s) r.

Lemma table_step_ok s s' o e :
  ok s -> legal s o -> step o s = (s', Ok e) -> stepped s s' (Z.to_nat (record_size (file_hdr_ s))) e.
Proof.
  intros Hok Hl Hr. assert (Hsz : 0 <= record_size (file_hdr_ s))
    by (destruct Hok as (pg & _ & Ht); pose proof (ho_size _ (to_hdr _ _ Ht)); lia).
  unfold stepped. destruct o as [rid|buf|rid|rid buf]; simpl in Hl, Hr.
  - apply bind_inv in Hr as (s1 & r & Hg & Hr). unfold mret, M_ret in Hr. injection Hr as <- <-.
    destruct Hl as [d Hd]. destruct (get_record_ok _ _ _ _ _ Hok Hd Hg) as (? & ? & -> & Hh & Hq).
    simpl. split_and!; try done; [by rewrite Hh|lia].
  - apply bind_inv in Hr as (s1 & rid & Hg & Hr). unfold mret, M_ret in Hr. injection Hr as <- <-.
    destruct Hl as [Hb Hn]. destruct (insert_record_ok _ _ _ _ Hok Hb Hn Hg) as (? & ? & [Hsl _ _] & ? & ?).
    by split_and!.
  - apply bind_inv in Hr as (s1 & [] & Hg & Hr). unfold mret, M_ret in Hr. injection Hr as <- <-.
    destruct Hl as [d Hd]. destruct (delete_record_ok _ _ _ _ Hok Hd Hg) as (? & ? & [Hsl _ _] & ? & ?).
    by split_and!.
  - apply bind_inv in Hr as (s1 & [] & Hg & Hr). unfold mret, M_ret in Hr. injection Hr as <- <-.
    destruct Hl as [[d Hd] Hb]. destruct (update_record_ok _ _ _ _ _ Hok Hd Hb Hg) as (? & ? & Hh & ?).
    split_and!; try done. by rewrite Hh.
Qed.

Lemma consistent_ext n es : forall m m', (forall r, m r = m' r) -> consistent n es m -> consistent n es m'.
Proof.
  induction es as [|e es IH]; intros m m' Hm; [done|]. simpl. intros [He Hc]. split.
  - by destruct e; rewrite <- ?Hm.
  - eapply IH; [|exact Hc]. intros r. by destruct e; simpl; rewrite Hm.
Qed.

Lemma table_run_ok l : forall s s' es,
  ok s -> legal_run l s -> run l s = (s', Ok es) ->
  ok s' /\ quiet s s' /\ consistent (Z.to_nat (record_size (file_hdr_ s))) es (table s).
Proof.
  induction l as [|o l IH]; intros s s' es Hok Hl Hr; simpl in Hr.
  - unfold mret, M_ret in Hr. injection Hr as <- <-. split_and!; [done|apply quiet_refl|done].
  - destruct Hl as [Hl Hls]. apply bind_inv in Hr as (s1 & e & Hs & Hr). rewrite Hs in Hls.
    apply bind_inv in Hr as (s2 & es' & Hr & He). unfold mret, M_ret in He. injection He as <- <-.
    destruct (table_step_ok _ _ _ _ Hok Hl Hs) as (Hok1 & Hq & Hsz & [Hc _] & Ht).
    destruct (IH _ _ _ Hok1 Hls Hr) as (Hok2 & Hq2 & Hc2). rewrite Hsz in Hc2.
    split_and!; [done|by eapply quiet_trans|]. split; [done|]. by eapply consistent_ext.
Qed.
End laws.
End RmFileHandle.

(** ** [RmManager] *)
Module RmManager.
Section ops.
Context {D R : Type} `{Disk D} `{Files D} `{Replacer R}.
Abbreviation pool := (BufferPool.t D R).

(** The header [create_file] computes; the arithmetic is on [int]. *)
Definition new_file_hdr (record_size : Z) : RmFileHdr :=
  let n := Z.quot (Bitmap.BITMAP_WIDTH * (PAGE_SIZE - 1 - Z.of_nat sizeof_RmFileHdr) + 1)
                  (1 + record_size * Bitmap.BITMAP_WIDTH) in
  mkRmFileHdr record_size 1 n RM_NO_PAGE
    (Z.quot (n + Bitmap.BITMAP_WIDTH - 1) Bitmap.BITMAP_WIDTH) 0.

Definition create_file (filename : string) (record_size : Z) : M pool unit :=
  if (record_size <? 1) || (RM_MAX_RECORD_SIZE <? record_size)
  then throw (InvalidRecordSizeError record_size) else
  BufferPool.disk_op (
    fl_create_file filename;;
    f ← fl_open_file filename;
    fl_write f (RmFileHdr_bytes (new_file_hdr record_size)) sizeof_RmFileHdr;;
    fl_close_file f).

Definition destroy_file (filename : string) : M pool unit :=
  BufferPool.disk_op (fl_destroy_file filename).

(** The new handle: its descriptor and the header read from the file. *)
Definition open_file (filename : string) : M pool (Z * RmFileHdr) :=
  f ← BufferPool.disk_op (fl_open_file filename);
  b ← (fun s => let '(d, (b, r)) := fl_read f sizeof_RmFileHdr (BufferPool.disk_manager_ s) in
                (BufferPool.set_disk d s, match r with Ok _ => Ok b | Throw e => Throw e end));
  let h := RmFileHdr_of b in
  BufferPool.disk_op (fl_set_fd2pageno f (num_pages h));;
  mret (f, h).

Definition close_file (f : Z) (h : RmFileHdr) : M pool unit :=
  BufferPool.disk_op (fl_write f (RmFileHdr_bytes h) sizeof_RmFileHdr);;
  BufferPool.flush_all_pages f;;
  BufferPool.disk_op (fl_close_file f).
End ops.
End RmManager.

(** ** [RmScan] *)
Module RmScan.
Section ops.
Context {D R C : Type} `{Disk D} `{Files D} `{Replacer R} `{TxnContext C}.
Abbreviation handle := (RmFileHandle.t D R C).

(** One turn of the loop of [next]: [inl] when it returns, [inr] to go on. *)
Definition next_page (rid : Rid) : M handle (Rid + Rid) :=
  page ← RmFileHandle.fetch_page_handle (rid_page_no rid);
  d ← RmFileHandle.on_pool (BufferPool.get_data page);
  h ← gets RmFileHandle.file_hdr_;
  let slot_no := Bitmap.next_bit true (RmPage.bitmap d) (num_records_per_page h) (rid_slot_no rid) in
  RmFileHandle.unpin (rid_page_no rid) false;;
  if slot_no <? num_records_per_page h then mret (inl (mkRid (rid_page_no rid) slot_no))
  else mret (inr (mkRid (rid_page_no rid + 1) (-1))).

(** The loop; [fuel] bounds the pages that are left. *)
Fixpoint next_loop (fuel : nat) (rid : Rid) : M handle Rid :=
  h ← gets RmFileHandle.file_hdr_;
  if rid_page_no rid <? num_pages h then
    match fuel with
    | O => throw OutOfFuel
    | S fuel' =>
        r ← next_page rid;
        match r with
        | inl rid' => mret rid'
        | inr rid' => next_loop fuel' rid'
        end
    end
  else mret (mkRid RM_NO_PAGE (rid_slot_no rid)).

Definition next (rid : Rid) : M handle Rid :=
  h ← gets RmFileHandle.file_hdr_;
  next_loop (Z.to_nat (num_pages h - rid_page_no rid)) rid.

(** The constructor. *)
Definition start : M handle Rid := next (mkRid RM_FIRST_RECORD_PAGE (-1)).
Definition is_end (rid : Rid) : bool := bool_decide (rid_page_no rid = RM_NO_PAGE).
End ops.
(** *** What a scan visits *)
Section laws.
Context {D R C : Type} `{DiskLaws D} `{!Files D} `{ReplacerLaws R} `{TxnContext C}.
Abbreviation handle := (RmFileHandle.t D R C).
Implicit Types s : handle.
Import RmFileHandle RmPage.

(** The order of record identifiers in the file. *)
Definition rid_lt (a b : Rid) : Prop :=
  rid_page_no a < rid_page_no b \/ rid_page_no a = rid_page_no b /\ rid_slot_no a < rid_slot_no b.

(** [b] is the record that follows [a] in a table, or the end. *)
Definition follows (m : Rid -> option bytes) (a b : Rid) : Prop :=
  (rid_page_no b = RM_NO_PAGE /\ forall r, rid_lt a r -> m r = None) \/
  (rid_lt a b /\ is_Some (m b) /\ forall r, rid_lt a r -> rid_lt r b -> m r = None).

(** A read: the table is as it was. *)
Definition same s s' : Prop :=
  ok s' /\ quiet s s' /\ file_hdr_ s' = file_hdr_ s /\ forall q, table s' q = table s q.

Lemma same_trans s1 s2 s3 : same s1 s2 -> same s2 s3 -> same s1 s3.
Proof.
  intros (O1 & Q1 & E1 & T1) (O2 & Q2 & E2 & T2). split_and!; [done|by eapply quiet_trans|congruence|].
  intros q. by rewrite T2.
Qed.

Lemma next_page_ok s s' rid r :
  ok s -> in_file (file_hdr_ s) (rid_page_no rid) -> -1 <= rid_slot_no rid ->
  next_page rid s = (s', Ok r) ->
  same s s' /\
  match r with
  | inl rid' => follows (table s) rid rid'
  | inr rid' => rid' = mkRid (rid_page_no rid + 1) (-1) /\
      forall q, rid_page_no q = rid_page_no rid -> rid_lt rid q -> table s q = None
  end.
Proof.
  intros (pg & Hs & Ht) Hin Hsl Hr. unfold next_page in Hr.
  apply bind_inv in Hr as (s1 & f & Hf & Hr).
  destruct (work_fetch _ _ _ _ _ Hs Hin Hf) as (pl & -> & Hwk & Hu).
  rewrite (bind_ok _ _ _ _ _ (work_get _ _ _ _ _ _ Hwk)) in Hr.
  rewrite (bind_ok _ _ _ (set_pool pl s) (file_hdr_ s)) in Hr by done.
  destruct (work_unpin _ _ _ _ _ _ false Hwk (fun _ => Hu)) as (pl' & Hun & Hfin).
  rewrite (bind_ok _ _ _ _ _ Hun) in Hr. set (st := set_pool pl' (set_pool pl s)) in *.
  assert (Hs' : shows st (upd (rid_page_no rid) (pg (rid_page_no rid)) pg))
    by (eapply shows_finished; [exact Hs|done|exact Hfin|done]).
  assert (Hsame : same s st).
  { split_and!; [|by eapply quiet_finished|done|].
    - eexists. split; [exact Hs'|]. apply table_ok_page; try done. by apply (to_page _ _ Ht).
    - intros q. rewrite (table_after _ _ _ _ _ q Hs Hs'); [|done|simpl; naive_solver].
      destruct (decide (_ = _)) as [E|E]; [|done]. rewrite (table_shows _ _ _ Hs), E. by rewrite decide_True. }
  set (x := pg (rid_page_no rid)) in *. set (n := num_records_per_page (file_hdr_ s)) in *.
  destruct (Bitmap.next_bit_spec true (bitmap x) n (rid_slot_no rid)) as [Hnone Hfound].
  set (j := Bitmap.next_bit true (bitmap x) n (rid_slot_no rid)) in *.
  assert (Hgap : forall q, rid_page_no q = rid_page_no rid -> rid_lt rid q -> rid_slot_no q < j -> table s q = None).
  { intros q Hq Hlt Hj. rewrite (table_shows _ _ _ Hs). case_decide as Hiq; [|done]. rewrite Hq. fold x.
    unfold slots. fold n. case_decide as Hsq; [|done]. destruct Hlt as [?|[_ ?]]; [lia|].
    destruct (Bitmap.is_set (bitmap x) (rid_slot_no q)) eqn:E; [|done].
    destruct (Hnone (rid_slot_no q)); [lia|done]. }
  destruct (Z.ltb_spec j n) as [E|E]; unfold mret, M_ret in Hr; injection Hr as <- <-; (split; [done|]).
  - destruct Hfound as [?|[Hj Hset]]; [lia|]. right. split_and!.
    + right. simpl. split; [done|lia].
    + rewrite (table_shows _ _ _ Hs). simpl. rewrite decide_True by done. fold x. apply slots_is_set. split; [lia|done].
    + intros q Q1 Q2. apply Hgap; [|done|]; unfold rid_lt in *; simpl in *; lia.
  - split; [done|]. intros q Hq Hlt. destruct (decide (rid_slot_no q < j)); [by apply Hgap|].
    rewrite (table_shows _ _ _ Hs). case_decide; [|done]. unfold slots. rewrite decide_False; [done|]. fold n. lia.
Qed.

Lemma next_loop_ok fuel : forall s s' rid rid',
  ok s -> RM_FIRST_RECORD_PAGE <= rid_page_no rid -> -1 <= rid_slot_no rid ->
  next_loop fuel rid s = (s', Ok rid') -> same s s' /\ follows (table s) rid rid'.
Proof.
  induction fuel as [|fuel IH]; intros s s' rid rid' Hok Hp Hsl Hr; simpl in Hr;
    rewrite (bind_ok _ _ s s (file_hdr_ s)) in Hr by done;
    destruct (Z.ltb_spec (rid_page_no rid) (num_pages (file_hdr_ s))) as [E|E].
  1: { done. }
  1,3: unfold mret, M_ret in Hr; injection Hr as <- <-; split; [split_and!; done|left; split; [done|]];
    intros q Hq; unfold table; rewrite decide_False; [done|]; unfold in_file, rid_lt in *; lia.
  apply bind_inv in Hr as (s1 & r & Hn & Hr).
  destruct (next_page_ok _ _ _ _ Hok ltac:(by split) Hsl Hn) as [Hsame Hres].
  destruct r as [r|r].
  - unfold mret, M_ret in Hr. injection Hr as <- <-. done.
  - destruct Hres as [-> Hnone]. pose proof Hsame as (Hok1 & _ & _ & Ht1).
    apply IH in Hr as [Hsame' Hfol]; [|done|simpl; lia|simpl; lia].
    split; [by eapply same_trans|].
    assert (Hskip : forall q, rid_lt rid q -> table s q = None \/ rid_lt (mkRid (rid_page_no rid + 1) (-1)) q \/
      rid_page_no q = rid_page_no rid + 1 /\ rid_slot_no q <= -1).
    { intros q Hq. destruct (decide (rid_page_no q = rid_page_no rid)); [left; by apply Hnone|right].
      unfold rid_lt in *. simpl. lia. }
    assert (Hneg : forall q, rid_slot_no q <= -1 -> table s q = None).
    { intros q Hq. unfold table. case_decide; [|done]. destruct (BufferPool.view _ _); [|done]. simpl.
      unfold slots. rewrite decide_False; [done|lia]. }
    destruct Hfol as [[He Hall]|(Hlt & [d Hd] & Hall)].
    + left. split; [done|]. intros q Hq. destruct (Hskip q Hq) as [?|[Hq'|[_ Hq']]]; [done| |auto].
      rewrite <- Ht1. by apply Hall.
    + right. split_and!; [unfold rid_lt in *; simpl in *; lia|exists d; by rewrite <- Ht1|].
      intros q Q1 Q2. destruct (Hskip q Q1) as [?|[Hq'|[_ Hq']]]; [done| |auto].
      rewrite <- Ht1. by apply Hall.
Qed.

Lemma next_page_hdr s s' rid r : next_page rid s = (s', Ok r) ->
  file_hdr_ s' = file_hdr_ s /\ forall rid', r = inr rid' -> rid_page_no rid' = rid_page_no rid + 1.
Proof.
  intros Hr. unfold next_page, fetch_page_handle in Hr. apply bind_inv in Hr as (s1 & f & Hf & Hr).
  rewrite (bind_ok _ _ s s (fd_ s)) in Hf by done. apply bind_inv in Hf as (s2 & o & Hf & Hg).
  apply on_pool_inv in Hf as (pl & _ & ->). destruct o; [|done]. unfold mret, M_ret in Hg. injection Hg as <- <-.
  apply bind_inv in Hr as (s3 & d & Hd & Hr). apply on_pool_inv in Hd as (pl2 & _ & ->).
  rewrite (bind_ok _ _ _ (set_pool pl2 (set_pool pl s)) (file_hdr_ s)) in Hr by done.
  apply bind_inv in Hr as (s4 & [] & Hu & Hr). unfold unpin in Hu.
  rewrite (bind_ok _ _ _ (set_pool pl2 (set_pool pl s)) (fd_ s)) in Hu by done.
  apply bind_inv in Hu as (s5 & b & Hu & Hg). apply on_pool_inv in Hu as (pl3 & _ & ->).
  unfold mret, M_ret in Hg. injection Hg as <-.
  destruct (_ <? _); unfold mret, M_ret in Hr; injection Hr as <- <-; (split; [done|]); [done|].
  by intros rid' [= <-].
Qed.

(** The fuel is enough: more of it changes nothing. *)
Lemma next_loop_fuel fuel : forall s rid fuel',
  (Z.to_nat (num_pages (file_hdr_ s) - rid_page_no rid) <= fuel)%nat -> (fuel <= fuel')%nat ->
  next_loop fuel' rid s = next_loop fuel rid s.
Proof.
  induction fuel as [|fuel IH]; intros s rid fuel' Hf Hle.
  - assert (num_pages (file_hdr_ s) <= rid_page_no rid) by lia.
    destruct fuel'; simpl; rewrite !(bind_ok _ _ s s (file_hdr_ s)) by done;
      (destruct (Z.ltb_spec (rid_page_no rid) (num_pages (file_hdr_ s))); [lia|done]).
  - destruct fuel' as [|fuel']; [lia|]. simpl. rewrite !(bind_ok _ _ s s (file_hdr_ s)) by done.
    destruct (Z.ltb_spec (rid_page_no rid) (num_pages (file_hdr_ s))); [|done].
    unfold mbind at 1 2, M_bind at 1 2. destruct (next_page rid s) as [s1 [[r|r]|e]] eqn:E; [done| |done].
    destruct (next_page_hdr _ _ _ _ E) as [Hh Hr]. apply IH; [|lia]. rewrite Hh, (Hr _ eq_refl). lia.
Qed.

(** The loop every user of a scan runs: [for (scan; !scan.is_end(); scan.next())]. *)
Fixpoint visit (fuel : nat) (rid : Rid) : M handle (list Rid) :=
  if is_end rid then mret [] else
  match fuel with
  | O => throw OutOfFuel
  | S fuel' => rid' ← next rid; l ← visit fuel' rid'; mret (rid :: l)
  end.
Definition scan_all (fuel : nat) : M handle (list Rid) := rid ← start; visit fuel rid.

(** As many turns as there are slots in the file. *)
Definition scan_bound (h : RmFileHdr) : nat := Z.to_nat (num_pages h * num_records_per_page h).

Lemma next_ok s s' rid rid' :
  ok s -> RM_FIRST_RECORD_PAGE <= rid_page_no rid -> -1 <= rid_slot_no rid ->
  next rid s = (s', Ok rid') -> same s s' /\ follows (table s) rid rid'.
Proof.
  intros Hok Hp Hsl Hr. unfold next in Hr. rewrite (bind_ok _ _ s s (file_hdr_ s)) in Hr by done.
  by apply next_loop_ok in Hr.
Qed.

(** The identifiers of records are slots of pages of the file. *)
Lemma table_bounds s rid : ok s -> is_Some (table s rid) ->
  RM_FIRST_RECORD_PAGE <= rid_page_no rid < num_pages (file_hdr_ s) /\
  0 <= rid_slot_no rid < num_records_per_page (file_hdr_ s).
Proof.
  intros (pg & Hs & Ht) [d Hd]. destruct (table_in _ _ _ _ Hs Hd) as (Hin & Hsl & _). by split.
Qed.

Lemma is_end_spec rid : is_end rid = true <-> rid_page_no rid = RM_NO_PAGE.
Proof. unfold is_end. apply bool_decide_eq_true. Qed.

Lemma visit_end fuel s s' rid l :
  ok s -> is_end rid = true -> visit fuel rid s = (s', Ok l) ->
  same s s' /\ StronglySorted rid_lt l /\
  forall r, r ∈ l <-> is_Some (table s r) /\ true = false /\ (r = rid \/ rid_lt rid r).
Proof.
  intros Hok E Hr. destruct fuel; simpl in Hr; rewrite E in Hr; unfold mret, M_ret in Hr; injection Hr as <- <-;
    (split; [split_and!; try done; apply quiet_refl|]; split; [constructor|]; set_solver).
Qed.

Lemma visit_ok fuel : forall s s' rid l,
  ok s -> (is_end rid = false -> is_Some (table s rid)) -> visit fuel rid s = (s', Ok l) ->
  same s s' /\ StronglySorted rid_lt l /\
  forall r, r ∈ l <-> is_Some (table s r) /\ is_end rid = false /\ (r = rid \/ rid_lt rid r).
Proof.
  induction fuel as [|fuel IH]; intros s s' rid l Hok Hrid Hr; (destruct (is_end rid) eqn:E;
    [by destruct (visit_end _ _ _ _ _ Hok E Hr) as (? & ? & ?)|]); simpl in Hr; rewrite E in Hr; [done|].
  specialize (Hrid eq_refl). destruct (table_bounds _ _ Hok Hrid) as [Hp Hsl].
  apply bind_inv in Hr as (s1 & rid1 & Hn & Hr). apply bind_inv in Hr as (s2 & l2 & Hv & Hr).
  unfold mret, M_ret in Hr. injection Hr as <- <-.
  destruct (next_ok _ _ _ _ Hok (proj1 Hp) ltac:(lia) Hn) as [Hsame Hfol].
  pose proof Hsame as (Hok1 & _ & _ & Ht1).
  assert (Hend : is_end rid1 = true \/ is_end rid1 = false /\ rid_lt rid rid1 /\ is_Some (table s rid1)).
  { destruct (is_end rid1) eqn:E1; [by left|right]. split; [done|].
    destruct Hfol as [[He _]|(? & ? & _)]; [|done]. apply is_end_spec in He. congruence. }
  apply IH in Hv as (Hsame' & Hsort & Hl); [|done|].
  2: { intros E1. rewrite Ht1. destruct Hend as [?|(_ & _ & ?)]; [congruence|done]. }
  split_and!; [by eapply same_trans|constructor; [done|]|].
  - apply Forall_forall. intros r Hr. apply Hl in Hr as (_ & E1 & Hr).
    destruct Hend as [?|(_ & Hlt & _)]; [congruence|]. unfold rid_lt in *. naive_solver lia.
  - intros r. rewrite elem_of_cons, Hl, Ht1. split.
    + intros [->|(Hr & E1 & Hor)]; [split_and!; auto|]. split_and!; [done|done|right].
      destruct Hend as [?|(_ & Hlt & _)]; [congruence|]. unfold rid_lt in *. naive_solver lia.
    + intros (Hr & _ & [->|Hlt]); [by left|right].
      destruct Hfol as [[_ Hall]|(Hlt1 & Hs1 & Hall)].
      { rewrite (Hall _ Hlt) in Hr. by destruct Hr. }
      destruct Hend as [He|(E1 & _ & _)].
      { apply is_end_spec in He. destruct (table_bounds _ _ Hok Hs1) as [? _]. unfold RM_NO_PAGE, RM_FIRST_RECORD_PAGE in *. lia. }
      split_and!; [done|done|].
      destruct (decide (r = rid1)) as [->|Hne]; [by left|right].
      destruct r as [rp rs], rid1 as [p1 i1]. unfold rid_lt in *. simpl in *.
      destruct (decide (p1 < rp)); [lia|]. destruct (decide (p1 = rp /\ i1 < rs)); [lia|].
      exfalso. destruct Hr as [d Hd]. rewrite (Hall (mkRid rp rs)) in Hd; [done|done|]. simpl.
      assert (rp <> p1 \/ rs <> i1) by (destruct (decide (rp = p1)); [right|left]; congruence). lia.
Qed.

Lemma scan_start s s1 rid : ok s -> next (mkRid RM_FIRST_RECORD_PAGE (-1)) s = (s1, Ok rid) ->
  same s s1 /\ (is_end rid = false -> is_Some (table s rid)) /\
  forall r, is_Some (table s r) -> is_end rid = false /\ (r = rid \/ rid_lt rid r).
Proof.
  intros Hok Hn. apply next_ok in Hn as [Hsame Hfol]; [|done|done|done]. split; [done|].
  assert (Hlt : forall r, is_Some (table s r) -> rid_lt (mkRid RM_FIRST_RECORD_PAGE (-1)) r).
  { intros r Hr. destruct (table_bounds _ _ Hok Hr). unfold rid_lt. simpl. lia. }
  destruct Hfol as [[He Hall]|(_ & Hs & Hall)].
  - split; [intros E; apply is_end_spec in He; congruence|]. intros r Hr.
    rewrite (Hall r (Hlt r Hr)) in Hr. by destruct Hr.
  - split; [done|]. intros r Hr. destruct (is_end rid) eqn:E.
    { apply is_end_spec in E. destruct (table_bounds _ _ Hok Hs). unfold RM_NO_PAGE, RM_FIRST_RECORD_PAGE in *. lia. }
    split; [done|]. destruct (decide (r = rid)) as [->|Hne]; [by left|right].
    destruct r as [rp rs], rid as [p1 i1]. unfold rid_lt in *. simpl in *.
    destruct (decide (p1 < rp)); [lia|]. destruct (decide (p1 = rp /\ i1 < rs)); [lia|].
    exfalso. destruct Hr as [d Hd]. specialize (Hlt (mkRid rp rs) (ex_intro _ d Hd)).
    rewrite (Hall (mkRid rp rs)) in Hd; [done|done|]. simpl.
    assert (rp <> p1 \/ rs <> i1) by (destruct (decide (rp = p1)); [right|left]; congruence). lia.
Qed.

Definition rank (h : RmFileHdr) (rid : Rid) : Z := rid_page_no rid * num_records_per_page h + rid_slot_no rid.

Lemma visit_fuel fuel : forall s rid fuel',
  ok s -> (is_end rid = false -> is_Some (table s rid)) ->
  (is_end rid = false -> (Z.to_nat (Z.of_nat (scan_bound (file_hdr_ s)) - rank (file_hdr_ s) rid) <= fuel)%nat) ->
  (fuel <= fuel')%nat -> visit fuel' rid s = visit fuel rid s.
Proof.
  induction fuel as [|fuel IH]; intros s rid fuel' Hok Hrid Hf Hle.
  - destruct fuel'; simpl; destruct (is_end rid); try done.
    exfalso. specialize (Hf eq_refl). destruct (table_bounds _ _ Hok (Hrid eq_refl)) as [Hp Hsl].
    unfold scan_bound, rank, RM_FIRST_RECORD_PAGE in *. nia.
  - destruct fuel' as [|fuel']; [lia|]. simpl. destruct (is_end rid) eqn:E; [done|].
    specialize (Hrid eq_refl). specialize (Hf eq_refl).
    destruct (table_bounds _ _ Hok Hrid) as [Hp Hsl].
    unfold mbind at 1 3, M_bind at 1 3. destruct (next rid s) as [s1 [rid1|e]] eqn:En; [|done].
    destruct (next_ok _ _ _ _ Hok (proj1 Hp) ltac:(lia) En) as [(Hok1 & _ & Hh1 & Ht1) Hfol].
    assert (Hv : visit fuel' rid1 s1 = visit fuel rid1 s1); [|unfold mbind, M_bind; by rewrite Hv].
    destruct Hfol as [[He _]|(Hlt & Hs1 & _)].
    + apply is_end_spec in He. apply IH; [done|congruence|congruence|lia].
    + destruct (table_bounds _ _ Hok Hs1) as [Hp1 Hsl1].
      apply IH; [done|by rewrite Ht1| |lia]. intros _. rewrite Hh1.
      unfold rank, rid_lt in *. destruct Hlt as [?|[? ?]]; [|nia].
      assert (rid_page_no rid * num_records_per_page (file_hdr_ s) + num_records_per_page (file_hdr_ s)
        <= rid_page_no rid1 * num_records_per_page (file_hdr_ s)) by nia. nia.
Qed.

(** *** A scan ends

    Nothing but the pool stops it: it gives its result, or the exception with which the fetch
    of a page of the file ended. *)
Definition fetch_failed s s' (e : exn) : Prop :=
  exists s1 p, same s s1 /\ in_file (file_hdr_ s) p /\ fetch_page_handle p s1 = (s', Throw e).
Definition ends {A} s (x : handle * res A) : Prop :=
  match x.2 with Ok _ => same s x.1 | Throw e => fetch_failed s x.1 e end.

Lemma same_refl s : ok s -> same s s.
Proof. intros Hok. split_and!; [done|apply quiet_refl|done|done]. Qed.

Lemma ends_after {A} s s1 (x : handle * res A) : same s s1 -> ends s1 x -> ends s x.
Proof.
  intros Hs. unfold ends. destruct x.2 as [a|e]; [by apply same_trans|].
  intros (s2 & p & Hs2 & Hp & Hf). exists s2, p. split_and!; [by eapply same_trans| |done].
  destruct Hs as (_ & _ & <- & _). done.
Qed.

Lemma next_page_ends s rid : ok s -> in_file (file_hdr_ s) (rid_page_no rid) -> -1 <= rid_slot_no rid ->
  ends s (next_page rid s).
Proof.
  intros Hok Hin Hsl. destruct (next_page rid s) as [s' [r|e]] eqn:Hr; [by destruct (next_page_ok _ _ _ _ Hok Hin Hsl Hr)|].
  exists s, (rid_page_no rid). split_and!; [by apply same_refl|done|]. unfold next_page in Hr. cbn [fst].
  apply bind_inv_any in Hr as [(s1 & f & Hf & Hr)|(e' & Hf & [= ->])]; [|done]. exfalso.
  destruct Hok as (pg & Hs & Ht). destruct (work_fetch _ _ _ _ _ Hs Hin Hf) as (pl & -> & Hwk & Hu).
  rewrite (bind_ok _ _ _ _ _ (work_get _ _ _ _ _ _ Hwk)) in Hr.
  rewrite (bind_ok _ _ _ (set_pool pl s) (file_hdr_ s)) in Hr by done.
  destruct (work_unpin _ _ _ _ _ _ false Hwk (fun _ => Hu)) as (pl' & Hun & _).
  rewrite (bind_ok _ _ _ _ _ Hun) in Hr. by destruct (_ <? _).
Qed.

Lemma next_loop_ends fuel : forall s rid, ok s -> RM_FIRST_RECORD_PAGE <= rid_page_no rid -> -1 <= rid_slot_no rid ->
  (Z.to_nat (num_pages (file_hdr_ s) - rid_page_no rid) <= fuel)%nat -> ends s (next_loop fuel rid s).
Proof.
  induction fuel as [|fuel IH]; intros s rid Hok Hp Hsl Hf; cbn [next_loop];
    rewrite (bind_ok _ _ s s (file_hdr_ s)) by done;
    (destruct (Z.ltb_spec (rid_page_no rid) (num_pages (file_hdr_ s))); [|by apply same_refl]); [lia|].
  pose proof (next_page_ends s rid Hok ltac:(by split) Hsl) as He.
  destruct (next_page rid s) as [s1 [r|e]] eqn:E; [|by rewrite (bind_throw _ _ _ _ _ E)].
  rewrite (bind_ok _ _ _ _ _ E). destruct r as [r|r]; [done|]. apply (ends_after s s1); [done|].
  destruct (next_page_ok _ _ _ _ Hok ltac:(by split) Hsl E) as [(Hok1 & _ & Hh1 & _) [-> _]].
  apply IH; cbn [rid_page_no rid_slot_no]; [done|lia|lia|rewrite Hh1; lia].
Qed.

Lemma visit_ends fuel : forall s rid, ok s -> (is_end rid = false -> is_Some (table s rid)) ->
  (is_end rid = false -> (Z.to_nat (Z.of_nat (scan_bound (file_hdr_ s)) - rank (file_hdr_ s) rid) <= fuel)%nat) ->
  ends s (visit fuel rid s).
Proof.
  induction fuel as [|fuel IH]; intros s rid Hok Hrid Hf; cbn [visit];
    (destruct (is_end rid) eqn:E; [by apply same_refl|]);
    specialize (Hrid eq_refl); specialize (Hf eq_refl); destruct (table_bounds _ _ Hok Hrid) as [Hp Hsl].
  { exfalso. unfold scan_bound, rank, RM_FIRST_RECORD_PAGE in *. nia. }
  assert (He : ends s (next rid s)).
  { unfold next. rewrite (bind_ok _ _ s s (file_hdr_ s)) by done. apply next_loop_ends; [done|lia|lia|done]. }
  destruct (next rid s) as [s1 [rid1|e]] eqn:En; [|by rewrite (bind_throw _ _ _ _ _ En)].
  rewrite (bind_ok _ _ _ _ _ En).
  destruct (next_ok _ _ _ _ Hok (proj1 Hp) ltac:(lia) En) as [(Hok1 & _ & Hh1 & Ht1) Hfol].
  assert (Hv : ends s1 (visit fuel rid1 s1)).
  { destruct Hfol as [[Hend _]|(Hlt & Hs1 & _)].
    - apply is_end_spec in Hend. apply IH; [done|congruence|congruence].
    - destruct (table_bounds _ _ Hok Hs1) as [Hp1 Hsl1]. apply IH; [done|by rewrite Ht1|]. intros _. rewrite Hh1.
      unfold rank, rid_lt in *. destruct Hlt as [?|[? ?]]; [|nia].
      assert (rid_page_no rid * num_records_per_page (file_hdr_ s) + num_records_per_page (file_hdr_ s)
        <= rid_page_no rid1 * num_records_per_page (file_hdr_ s)) by nia. nia. }
  apply (ends_after s s1); [done|].
  destruct (visit fuel rid1 s1) as [s2 [l|e]] eqn:Ev; [by rewrite (bind_ok _ _ _ _ _ Ev)|by rewrite (bind_throw _ _ _ _ _ Ev)].
Qed.

Lemma scan_all_ends s fuel : ok s -> (scan_bound (file_hdr_ s) <= fuel)%nat -> ends s (scan_all fuel s).
Proof.
  intros Hok Hf. unfold scan_all, start.
  assert (He : ends s (next (mkRid RM_FIRST_RECORD_PAGE (-1)) s)).
  { unfold next. rewrite (bind_ok _ _ s s (file_hdr_ s)) by done. by apply next_loop_ends. }
  destruct (next (mkRid RM_FIRST_RECORD_PAGE (-1)) s) as [s1 [rid1|e]] eqn:E; [|by rewrite (bind_throw _ _ _ _ _ E)].
  rewrite (bind_ok _ _ _ _ _ E). destruct (scan_start _ _ _ Hok E) as ((Hok1 & _ & Hh1 & Ht1) & Hrid & _).
  apply (ends_after s s1); [done|]. apply visit_ends; [done|intros E1; rewrite Ht1; auto|].
  intros E1. rewrite Hh1. destruct (table_bounds _ _ Hok (Hrid E1)) as [Hp Hsl].
  unfold rank, RM_FIRST_RECORD_PAGE in *. destruct Hok as (pg & _ & Ht). pose proof (ho_n _ (to_hdr _ _ Ht)). nia.
Qed.
End laws.
End RmScan.

(** ** Properties *)
Module RmTable.
Import RmPage RmFileHandle RmManager RmScan.

Lemma new_hdr_sound rs pg :
  1 <= rs <= RM_MAX_RECORD_SIZE ->
  let h := new_file_hdr rs in
  hdr_ok h /\ table_ok h pg /\
  in_i32 (Bitmap.BITMAP_WIDTH * (PAGE_SIZE - 1 - Z.of_nat sizeof_RmFileHdr) + 1) /\
  in_i32 (1 + rs * Bitmap.BITMAP_WIDTH) /\ in_i32 (num_records_per_page h) /\ in_i32 (bitmap_size h).
Proof.
  intros Hrs h. unfold RM_MAX_RECORD_SIZE in Hrs.
  assert (Hn : num_records_per_page h = 32569 / (1 + rs * 8)).
  { unfold h, new_file_hdr. cbn [num_records_per_page]. apply Z.quot_div_nonneg; lia. }
  set (n := num_records_per_page h) in *.
  assert (Hb : bitmap_size h = (n + 7) / 8).
  { change (bitmap_size h) with (Z.quot (n + 8 - 1) 8). rewrite Z.quot_div_nonneg; [f_equal; lia| |lia].
    rewrite Hn. assert (0 <= 32569 / (1 + rs * 8)) by (apply Z.div_pos; lia). lia. }
  pose proof (Z.mul_div_le 32569 (1 + rs * 8) ltac:(lia)) as Hle. rewrite <- Hn in Hle.
  assert (1 <= n) by (rewrite Hn; apply Z.div_le_lower_bound; lia).
  pose proof (Z.div_mod (n + 7) 8 ltac:(lia)). pose proof (Z.mod_pos_bound (n + 7) 8 ltac:(lia)).
  assert (n <= 32569 / 9) by (rewrite Hn; apply Z.div_le_compat_l; lia). change (32569 / 9) with 3618 in *.
  assert (Hh : hdr_ok h).
  { split; fold n; rewrite ?Hb; [exact (proj1 Hrs)|done|lia|].
    change (record_size h) with rs. unfold PAGE_SIZE. nia. }
  split_and!; try done; unfold in_i32; rewrite ?Hb; unfold Bitmap.BITMAP_WIDTH; try lia.
  split; [done|cbn; lia|unfold in_file, RM_FIRST_RECORD_PAGE; cbn; lia|].
  exists []. split_and!; [constructor|done|]. unfold in_file, RM_FIRST_RECORD_PAGE. cbn. lia.
Qed.

(** C14: the header [create_file] computes is sound for every record size it
    accepts: a page has room for at least one record, its bitmap has a bit for every
    slot, the header of the page, the bitmap and the slots fit in the page, and no
    [int] of the computation overflows; and an empty file with that header is a
    table. *)
Theorem new_file_hdr_ok rs pg :
  1 <= rs <= RM_MAX_RECORD_SIZE ->
  let h := new_file_hdr rs in
  hdr_ok h /\ table_ok h pg /\
  in_i32 (Bitmap.BITMAP_WIDTH * (PAGE_SIZE - 1 - Z.of_nat sizeof_RmFileHdr) + 1) /\
  in_i32 (1 + rs * Bitmap.BITMAP_WIDTH) /\ in_i32 (num_records_per_page h) /\ in_i32 (bitmap_size h).
Proof. apply new_hdr_sound. Qed.

Lemma new_file_hdr_ok_witness :
  1 <= 500 <= RM_MAX_RECORD_SIZE /\ new_file_hdr 500 = mkRmFileHdr 500 1 8 RM_NO_PAGE 1 0 /\
  hdr_ok (new_file_hdr 500).
Proof.
  split; [split; vm_compute; discriminate|]. split; [vm_compute; reflexivity|].
  exact (proj1 (new_file_hdr_ok 500 (fun _ => []) ltac:(split; vm_compute; discriminate))).
Defined.

(** The header of a table file survives being written to the file by
    [close_file] and read by [open_file]. *)
Theorem file_hdr_roundtrip h :
  in_i32 (record_size h) -> in_i32 (num_pages h) -> in_i32 (num_records_per_page h) ->
  in_i32 (first_free_page_no h) -> in_i32 (bitmap_size h) -> in_i32 (hdr_lsn h) ->
  length (RmFileHdr_bytes h) = sizeof_RmFileHdr /\ RmFileHdr_of (RmFileHdr_bytes h) = h.
Proof.
  intros Q1 Q2 Q3 Q4 Q5 Q6. split; [reflexivity|].
  destruct h as [a b c d e f]. simpl in *. unfold RmFileHdr_of, load_i32.
  rewrite <- (i32_decode_encode a), <- (i32_decode_encode b), <- (i32_decode_encode c),
    <- (i32_decode_encode d), <- (i32_decode_encode e), <- (i32_decode_encode f) at 7 by done.
  reflexivity.
Qed.

Section table.
Context {D R C : Type} `{DiskLaws D} `{!Files D} `{ReplacerLaws R} `{TxnContext C}.
Abbreviation handle := (RmFileHandle.t D R C).
Implicit Types s : handle.

(** C11: a table is a map from record identifiers to records.  In any legal history
    of reads, insertions, deletions and updates (without a context) that returns
    normally, over any buffer pool: what is read is what the map holds, an insertion
    gets an identifier that is not in use, wherever the pages are and however often
    they are evicted; the header, the bitmaps and the chain of free pages stay
    consistent, every pin that is taken is given back, and the pages of other files
    are as they were. *)
Theorem table_is_map s s' l es :
  ok s -> legal_run l s -> run l s = (s', Ok es) ->
  ok s' /\ consistent (Z.to_nat (record_size (file_hdr_ s))) es (table s) /\
  (forall q, BufferPool.pins (bpm s') q = BufferPool.pins (bpm s) q) /\
  BufferPool.keeps (fun q => fd q = fd_ s) (bpm s) (bpm s').
Proof. intros Hok Hl Hr. destruct (table_run_ok _ _ _ _ Hok Hl Hr) as (? & (_ & _ & ? & ?) & ?). done. Qed.

(** C12: a scan that returns normally has visited exactly the records of the table,
    each of them once and in the order of their identifiers, and changed nothing. *)
Theorem scan_visits_all s s' fuel l :
  ok s -> scan_all fuel s = (s', Ok l) ->
  StronglySorted rid_lt l /\ (forall rid, rid ∈ l <-> is_Some (table s rid)) /\
  ok s' /\ file_hdr_ s' = file_hdr_ s /\ (forall rid, table s' rid = table s rid) /\
  forall q, BufferPool.pins (bpm s') q = BufferPool.pins (bpm s) q.
Proof.
  intros Hok Hr. unfold scan_all, start in Hr. apply bind_inv in Hr as (s1 & rid & Hn & Hv).
  destruct (scan_start _ _ _ Hok Hn) as (Hsame & Hrid & Hall).
  pose proof Hsame as (Hok1 & _ & _ & Ht1).
  destruct (visit_ok _ _ _ _ _ Hok1 ltac:(intros E; rewrite Ht1; auto) Hv) as (Hsame' & Hsort & Hl).
  destruct (same_trans _ _ _ Hsame Hsame') as (? & (_ & _ & Hpins & _) & ? & ?).
  split_and!; try done. intros r. rewrite Hl, Ht1. naive_solver.
Qed.

(** C13: a scan ends.  With as many turns as the file has slots it gives a list, and the
    turns of [next] are no more than the pages that are left; or it stops with the exception
    of the fetch of a page of the file, in the state that fetch left, and nothing else stops
    it, in particular not the bound on the turns ([OutOfFuel]). *)
Theorem scan_terminates s fuel rid fuel' :
  ok s -> (scan_bound (file_hdr_ s) <= fuel)%nat -> RM_FIRST_RECORD_PAGE <= rid_page_no rid -> -1 <= rid_slot_no rid ->
  (Z.to_nat (num_pages (file_hdr_ s) - rid_page_no rid) <= fuel')%nat ->
  ((exists s' l, scan_all fuel s = (s', Ok l)) \/
   exists s' e s1 p, scan_all fuel s = (s', Throw e) /\ same s s1 /\ in_file (file_hdr_ s) p /\
     fetch_page_handle p s1 = (s', Throw e)) /\
  ((exists s' rid', next_loop fuel' rid s = (s', Ok rid')) \/
   exists s' e s1 p, next_loop fuel' rid s = (s', Throw e) /\ same s s1 /\ in_file (file_hdr_ s) p /\
     fetch_page_handle p s1 = (s', Throw e)).
Proof.
  intros Hok Hf Hp Hsl Hf'. pose proof (scan_all_ends s fuel Hok Hf) as Q1.
  pose proof (next_loop_ends fuel' s rid Hok Hp Hsl Hf') as Q2. unfold ends in Q1, Q2. split.
  - destruct (scan_all fuel s) as [s' [l|e]]; [by left; exists s', l|].
    right. destruct Q1 as (s1 & p & Hs & Hin & Hr). by exists s', e, s1, p.
  - destruct (next_loop fuel' rid s) as [s' [l|e]]; [by left; exists s', l|].
    right. destruct Q2 as (s1 & p & Hs & Hin & Hr). by exists s', e, s1, p.
Qed.
End table.

(** *** Witnesses: records of 512 bytes over a pool of one frame

    Descriptor 1 is an empty file; every page of the table that is used is evicted
    when another one is needed. *)
Definition demo_disk : DiskManager.t MemFs.t :=
  DiskManager.set_pagenos (<[1%nat := 1]> (DiskManager.fd2pageno_ DiskManager.demo)) DiskManager.demo.
Definition demo_pool : BufferPool.pool :=
  BufferPool.make 1 (fun _ => 0) demo_disk (LRUReplacer.make 1).
Definition demo_ctx : Context.t (DiskManager.t MemFs.t) :=
  Context.make LockManager.make (LogManager.make 100 0 (DiskManager.make DiskManager.demo_fs)) LockManager.t0 [] 0.
#[local] Instance demo_TxnContext : TxnContext (Context.t (DiskManager.t MemFs.t)) := Context.context_TxnContext 100.
Definition demo : RmFileHandle.t (DiskManager.t MemFs.t) LRUReplacer.t (Context.t (DiskManager.t MemFs.t)) :=
  RmFileHandle.mk 1 (new_file_hdr 512) demo_pool demo_ctx.

Lemma table_demo_ok : ok demo.
Proof.
  exists (fun _ => []). split; [|apply new_hdr_sound; split; vm_compute; discriminate].
  split.
  - apply BufferPool.pool_wf_make; [|apply LRUReplacer.lru_wf_make|done].
    apply DiskManager.wf_set_pagenos; [apply DiskManager.disk_demo_wf|].
    rewrite length_insert. apply (DiskManager.wf_pagenos _ DiskManager.disk_demo_wf).
  - vm_compute. reflexivity.
  - intros p Hp. split; [eexists; vm_compute; reflexivity|exact Hp].
  - intros p [Hp Hp']. unfold RM_FIRST_RECORD_PAGE in Hp. cbn in Hp'. lia.
Qed.

Definition rec (i : Z) : bytes := replicate 512 i.

(** Two pages are filled and used again. *)
Definition demo_ops : list op :=
  (Insert <$> (rec <$> [1; 2; 3; 4; 5; 6; 7; 8])) ++
  [ Delete (mkRid 1 3); Insert (rec 9); Update (mkRid 2 0) (rec 10); Get (mkRid 1 3); Get (mkRid 2 0) ].

Lemma table_legal_cons s o l : legal s o -> legal_run l (step o s).1 -> legal_run (o :: l) s.
Proof.
  intros Hl Hls. split; [done|]. destruct (step o s) as [s' [e|x]]; [exact Hls|exact I].
Qed.

(** Evaluate the legality of a step of a concrete history. *)
Ltac table_legal :=
  lazymatch goal with
  | |- legal _ (Insert _) => cbn [legal]; split; [vm_compute; discriminate|vm_compute; reflexivity]
  | |- legal _ (Update _ _) => cbn [legal]; split; [eexists; vm_compute; reflexivity|vm_compute; discriminate]
  | |- legal _ _ => cbn [legal]; eexists; vm_compute; reflexivity
  end.

Lemma demo_table_legal : legal_run demo_ops demo.
Proof.
  unfold demo_ops. cbn [fmap list_fmap app].
  repeat (apply table_legal_cons; [table_legal|]). exact I.
Qed.

(** The identifiers and the bytes in the events of a run. *)
Definition brief (e : event) : Rid * option Z :=
  match e with
  | EGet rid r => (rid, rec_data r ≫= head)
  | EInsert rid _ | EDelete rid | EUpdate rid _ => (rid, None)
  end.

Lemma table_is_map_witness :
  match run demo_ops demo with
  | (s', Ok es) => ok s' /\ consistent 512 es (table demo) /\
      brief <$> drop 9 es = [ (mkRid 1 3, None); (mkRid 2 0, None);
                              (mkRid 1 3, Some 9); (mkRid 2 0, Some 10) ]
  | _ => False
  end.
Proof.
  destruct (run demo_ops demo) as [s' [es|e]] eqn:E.
  - destruct (table_is_map demo s' demo_ops es table_demo_ok demo_table_legal E) as (Q1 & Q2 & _).
    split; [exact Q1|]. split; [exact Q2|].
    apply (f_equal (fun r => match r.2 with Ok es => brief <$> drop 9 es | _ => [] end)) in E.
    cbn [snd] in E. rewrite <- E. vm_compute. reflexivity.
  - apply (f_equal (fun r => match r.2 with Ok _ => true | _ => false end)) in E.
    cbn [snd] in E. vm_compute in E. discriminate E.
Defined.

(** The table after the history, and a scan of it. *)
Definition demo_full : RmFileHandle.t (DiskManager.t MemFs.t) LRUReplacer.t (Context.t (DiskManager.t MemFs.t)) :=
  (run (take 9 demo_ops) demo).1.

Lemma demo_full_ok : ok demo_full.
Proof.
  unfold demo_full. destruct (run (take 9 demo_ops) demo) as [s' [es|e]] eqn:E.
  - apply (table_run_ok _ _ _ _ table_demo_ok) in E as (Q & _); [exact Q|].
    unfold demo_ops. cbn [fmap list_fmap app take]. repeat (apply table_legal_cons; [table_legal|]). exact I.
  - apply (f_equal (fun r => match r.2 with Ok _ => true | _ => false end)) in E.
    cbn [snd] in E. vm_compute in E. discriminate E.
Qed.

Lemma scan_visits_all_witness :
  match scan_all 20 demo_full with
  | (s', Ok l) => StronglySorted rid_lt l /\ l = (mkRid 1 <$> [0; 1; 2; 4; 5; 6]) ++ [mkRid 2 0]
  | _ => False
  end.
Proof.
  destruct (scan_all 20 demo_full) as [s' [l|e]] eqn:E.
  - destruct (scan_visits_all demo_full s' 20 l demo_full_ok E) as (Q1 & _). split; [exact Q1|].
    apply (f_equal (fun r => match r.2 with Ok l => l | _ => [] end)) in E.
    cbn [snd] in E. rewrite <- E. vm_compute. reflexivity.
  - apply (f_equal (fun r => match r.2 with Ok _ => true | _ => false end)) in E.
    cbn [snd] in E. vm_compute in E. discriminate E.
Defined.

Lemma scan_terminates_witness :
  scan_bound (file_hdr_ demo_full) = 21%nat /\
  (exists s' l, scan_all 21 demo_full = (s', Ok l) /\ l = (mkRid 1 <$> [0; 1; 2; 4; 5; 6]) ++ [mkRid 2 0]) /\
  exists s' rid', next_loop 5 (mkRid 1 (-1)) demo_full = (s', Ok rid') /\ rid' = mkRid 1 0.
Proof.
  destruct (scan_terminates demo_full 21 (mkRid 1 (-1)) 5 demo_full_ok
    ltac:(apply Nat.leb_le; vm_compute; reflexivity) ltac:(vm_compute; discriminate) ltac:(vm_compute; discriminate)
    ltac:(apply Nat.leb_le; vm_compute; reflexivity)) as [Q1 Q2].
  split; [vm_compute; reflexivity|].
  assert (E1 : match (scan_all 21 demo_full).2 with Ok l => l = (mkRid 1 <$> [0; 1; 2; 4; 5; 6]) ++ [mkRid 2 0] | Throw _ => False end) by (vm_compute; reflexivity).
  assert (E2 : (next_loop 5 (mkRid 1 (-1)) demo_full).2 = Ok (mkRid 1 0)) by (vm_compute; reflexivity).
  revert Q1 Q2 E1 E2. generalize (scan_all 21 demo_full). generalize (next_loop 5 (mkRid 1 (-1)) demo_full).
  generalize (same demo_full) (in_file (file_hdr_ demo_full)). intros P Q r2 r1 Q1 Q2 E1 E2. split.
  - destruct Q1 as [(s' & l & E)|(s' & e & s1 & p & E & _)]; rewrite E in E1; [|destruct E1].
    exact (ex_intro _ s' (ex_intro _ l (conj E E1))).
  - destruct Q2 as [(s' & r & E)|(s' & e & s1 & p & E & _)]; rewrite E in E2; [|discriminate E2].
    injection E2 as E2. exact (ex_intro _ s' (ex_intro _ r (conj E E2))).
Defined.

Lemma file_hdr_roundtrip_witness :
  RmFileHdr_of (RmFileHdr_bytes (new_file_hdr 512)) = new_file_hdr 512.
Proof.
  apply (file_hdr_roundtrip (new_file_hdr 512));
    (split; [apply Z.leb_le; vm_compute; reflexivity|apply Z.ltb_lt; vm_compute; reflexivity]).
Defined.

(** [insert_record(rid, buf)], which a rollback uses, sets the bit of the slot but
    does not count the record: after a deletion and its rollback the page counts one
    record less than it has, a full page stays in the chain of free pages, and the
    next insertion finds no free slot in it and takes the one past the last. *)
Theorem rollback_miscounts :
  let s1 := (run (take 7 demo_ops) demo).1 in
  let s2 := (delete_record (mkRid 1 3) false s1).1 in
  let s3 := (insert_record_at (mkRid 1 3) (rec 4) s2).1 in
  let r := insert_record (rec 9) false s3 in
  (forall i, In i [0; 1; 2; 3; 4; 5; 6] -> table s3 (mkRid 1 i) <> None) /\
  first_free_page_no (file_hdr_ s3) = 1 /\
  num_records (default [] (BufferPool.view (bpm s3) (mkPageId 1 1))) = 6 /\
  Bitmap.first_bit false (bitmap (default [] (BufferPool.view (bpm s3) (mkPageId 1 1)))) 7 = 7 /\
  slot_ok (file_hdr_ s3) 7 = false /\ r.2 = Throw Stuck.
Proof.
  cbv zeta. split; [|vm_compute; auto].
  intros i Hi. repeat (destruct Hi as [<-|Hi]; [vm_compute; discriminate|]). destruct Hi.
Qed.

End RmTable.
