(* ===== verification/SmMeta.v ===== *)
(** * Metadata of tables

    [system/sm_meta.h]: the records about columns, indexes, tables and the database,
    the look-ups on them, and the text they are kept as in [db.meta]. *)

From Stdlib Require Import Ascii.
From stdpp Require Import sorting.
From S2P Require Import Prelude Common.

(** ** The records *)

Record ColMeta := mkColMeta {
  cm_tab_name : string;
  cm_name : string;
  cm_type : ColType;
  cm_len : Z;
  cm_offset : Z;
  cm_index : bool;
}.
#[global] Instance ColMeta_eq_dec : EqDecision ColMeta.
Proof. solve_decision. Defined.

Record IndexMeta := mkIndexMeta {
  im_tab_name : string;
  im_col_tot_len : Z;
  im_col_num : Z;
  im_cols : list ColMeta;
}.
#[global] Instance IndexMeta_eq_dec : EqDecision IndexMeta.
Proof. solve_decision. Defined.

Record TabMeta := mkTabMeta {
  tm_name : string;
  tm_cols : list ColMeta;
  tm_indexes : list IndexMeta;
}.
#[global] Instance TabMeta_eq_dec : EqDecision TabMeta.
Proof. solve_decision. Defined.

(** The copy constructor. *)
Definition TabMeta_copy (other : TabMeta) : TabMeta :=
  mkTabMeta (tm_name other) (tm_cols other) (tm_indexes other).

Record DbMeta := mkDbMeta { db_name : string; db_tabs : gmap string TabMeta }.

(** ** Look-ups *)

(** The position of the first column of a name: [std::find_if]. *)
Fixpoint find_col (cols : list ColMeta) (col_name : string) : option nat :=
  match cols with
  | [] => None
  | c :: cs => if bool_decide (cm_name c = col_name) then Some O else S <$> find_col cs col_name
  end.

Definition is_col (t : TabMeta) (col_name : string) : bool :=
  match find_col (tm_cols t) col_name with Some _ => true | None => false end.

(** The iterator of [get_col], as the column. *)
Definition get_col (t : TabMeta) (col_name : string) : res ColMeta :=
  match find_col (tm_cols t) col_name with
  | Some i => match tm_cols t !! i with Some c => Ok c | None => Throw Stuck end
  | None => Throw (ColumnNotFoundError col_name)
  end.

(** Whether the names of the columns are [col_names]: the loop over [i] until the
    first that is not. *)
Fixpoint names_match (cols : list ColMeta) (col_names : list string) : res bool :=
  match col_names, cols with
  | [], _ => Ok true
  | n :: ns, c :: cs => if bool_decide (cm_name c = n) then names_match cs ns else Ok false
  | _ :: _, [] => Throw Stuck
  end.

(** [index.col_num == col_names.size()], an [int] compared with a [size_t]. *)
Definition same_num (i : IndexMeta) (col_names : list string) : bool :=
  im_col_num i mod 2 ^ 64 =? Z.of_nat (length col_names).

(** The position of the first index on exactly these columns. *)
Fixpoint find_index (l : list IndexMeta) (col_names : list string) : res (option nat) :=
  match l with
  | [] => Ok None
  | i :: l' =>
      b ← (if same_num i col_names then names_match (im_cols i) col_names else Ok false);
      if b : bool then Ok (Some O) else r ← find_index l' col_names; Ok (fmap (M:=option) S r)
  end.
Definition is_index (t : TabMeta) (col_names : list string) : res bool :=
  r ← find_index (tm_indexes t) col_names;
  Ok (match r with Some _ => true | None => false end).
Definition get_index_meta (t : TabMeta) (col_names : list string) : res (nat * IndexMeta) :=
  r ← find_index (tm_indexes t) col_names;
  match r with
  | Some i => match tm_indexes t !! i with Some m => Ok (i, m) | None => Throw Stuck end
  | None => Throw (IndexNotFoundError (tm_name t) col_names)
  end.

(** How many of the first columns of an index are among the names. *)
Fixpoint prefix_len (cols : list ColMeta) (col_names : list string) : Z :=
  match cols with
  | [] => 0
  | c :: cs => if bool_decide (cm_name c ∈ col_names) then 1 + prefix_len cs col_names else 0
  end.

(** The loop over the indexes: the first with the longest such prefix. *)
Fixpoint best_prefix (l : list IndexMeta) (col_names : list string) (cur_size : Z) (matched : option IndexMeta) :
    Z * option IndexMeta :=
  match l with
  | [] => (cur_size, matched)
  | i :: l' =>
      let new_size := prefix_len (im_cols i) col_names in
      if cur_size <? new_size then best_prefix l' col_names new_size (Some i)
      else best_prefix l' col_names cur_size matched
  end.

(** What is returned, and [index_col_names] afterwards. *)
Definition is_index_prefix (t : TabMeta) (col_names index_col_names : list string) : bool * list string :=
  match best_prefix (tm_indexes t) col_names 0 None with
  | (_, Some m) => (true, cm_name <$> im_cols m)
  | (_, None) => (false, index_col_names)
  end.

Definition is_table (d : DbMeta) (tab_name : string) : bool := bool_decide (is_Some (db_tabs d !! tab_name)).
Definition SetTabMeta (tab_name : string) (meta : TabMeta) (d : DbMeta) : DbMeta :=
  mkDbMeta (db_name d) (<[tab_name := meta]> (db_tabs d)).
Definition get_table (d : DbMeta) (tab_name : string) : res TabMeta :=
  match db_tabs d !! tab_name with
  | Some t => Ok (TabMeta_copy t)
  | None => Throw (TableNotFoundError tab_name)
  end.

(** ** The text *)

(** A [bool] is written as 0 or 1. *)
Definition bool_val (b : bool) : Z := if b then 1 else 0.

Definition ColMeta_out (c : ColMeta) : string :=
  cm_tab_name c +:+ " " +:+ cm_name c +:+ " " +:+ pretty (ColType_val (cm_type c)) +:+ " " +:+
  pretty (cm_len c) +:+ " " +:+ pretty (cm_offset c) +:+ " " +:+ pretty (bool_val (cm_index c)).

Fixpoint concat_strings (l : list string) : string :=
  match l with [] => "" | s :: l' => s +:+ concat_strings l' end.

Definition IndexMeta_out (i : IndexMeta) : string :=
  im_tab_name i +:+ " " +:+ pretty (im_col_tot_len i) +:+ " " +:+ pretty (im_col_num i) +:+
  concat_strings ((fun c => endl +:+ ColMeta_out c) <$> im_cols i).

Definition TabMeta_out (t : TabMeta) : string :=
  tm_name t +:+ endl +:+ pretty (Z.of_nat (length (tm_cols t))) +:+ endl +:+
  concat_strings ((fun c => ColMeta_out c +:+ endl) <$> tm_cols t) +:+
  pretty (Z.of_nat (length (tm_indexes t))) +:+ endl +:+
  concat_strings ((fun i => IndexMeta_out i +:+ endl) <$> tm_indexes t).

(** A [std::map] is iterated in the order of its keys. *)
Definition string_le (a b : string * TabMeta) : Prop := String.leb a.1 b.1 = true.
#[global] Instance string_le_dec : RelDecision string_le.
Proof. intros a b. unfold string_le. apply _. Defined.
Definition entries (d : DbMeta) : list (string * TabMeta) := merge_sort string_le (map_to_list (db_tabs d)).

Definition DbMeta_out (d : DbMeta) : string :=
  db_name d +:+ endl +:+ pretty (Z.of_nat (size (db_tabs d))) +:+ endl +:+
  concat_strings ((fun e => TabMeta_out e.2 +:+ endl) <$> entries d).

(** *** Reading

    A reader takes the characters left in the stream; [None] is a stream whose
    [failbit] has been set, from which nothing more is read. *)
Definition reader (A : Type) : Type := string -> option (A * string).
#[global] Instance reader_ret : MRet reader := fun A a s => Some (a, s).
#[global] Instance reader_bind : MBind reader := fun A B k m s =>
  match m s with Some (a, s') => k a s' | None => None end.

Definition is_space (c : ascii) : bool :=
  let n := nat_of_ascii c in (Nat.eqb n 32 || (Nat.leb 9 n && Nat.leb n 13))%nat.
Definition is_digit (c : ascii) : bool :=
  let n := nat_of_ascii c in (Nat.leb 48 n && Nat.leb n 57)%nat.

Fixpoint skip_ws (s : string) : string :=
  match s with String c s' => if is_space c then skip_ws s' else s | EmptyString => s end.
Fixpoint span (p : ascii -> bool) (s : string) : string * string :=
  match s with
  | String c s' => if p c then let '(a, b) := span p s' in (String c a, b) else (EmptyString, s)
  | EmptyString => (EmptyString, EmptyString)
  end.

(** [>>] of a [std::string]. *)
Definition read_word : reader string := fun s =>
  let '(w, r) := span (fun c => negb (is_space c)) (skip_ws s) in
  match w with EmptyString => None | _ => Some (w, r) end.

(** [>>] of an integer with values from [lo] to [hi]. *)
Fixpoint digits (acc : N) (s : string) : N :=
  match s with
  | String c s' => digits (acc * 10 + (N_of_ascii c - 48)) s'
  | EmptyString => acc
  end.
Definition read_num (lo hi : Z) : reader Z := fun s =>
  let s := skip_ws s in
  let '(neg, s) := match s with
                   | String "-"%char s' => (true, s')
                   | String "+"%char s' => (false, s')
                   | _ => (false, s)
                   end in
  let '(w, r) := span is_digit s in
  match w with
  | EmptyString => None
  | _ =>
      let n := Z.of_N (digits 0 w) in
      let n := if neg : bool then - n else n in
      if decide (lo <= n <= hi) then Some (n, r) else None
  end.
Definition read_int : reader Z := read_num (- 2 ^ 31) (2 ^ 31 - 1).
Definition read_bool : reader bool := b ← read_num 0 1; mret (b =? 1).
Definition read_ColType : reader ColType :=
  z ← read_int; ((fun s => match ColType_of z with Some t => Some (t, s) | None => None end) : reader ColType).

Definition read_ColMeta : reader ColMeta :=
  tab ← read_word; name ← read_word; ty ← read_ColType; len ← read_int; offset ← read_int; index ← read_bool;
  mret (mkColMeta tab name ty len offset index).

(** The loops that read [n] elements. *)
Fixpoint read_many {A} (n : nat) (r : reader A) : reader (list A) :=
  match n with
  | O => mret []
  | S n' => x ← r; l ← read_many n' r; mret (x :: l)
  end.

Definition read_IndexMeta : reader IndexMeta :=
  tab ← read_word; tot ← read_int; num ← read_int;
  cols ← read_many (Z.to_nat num) read_ColMeta;
  mret (mkIndexMeta tab tot num cols).

Definition read_size : reader Z := read_num 0 (2 ^ 64 - 1).
Definition read_TabMeta : reader TabMeta :=
  name ← read_word; n ← read_size;
  cols ← read_many (Z.to_nat n) read_ColMeta;
  n ← read_size;
  indexes ← read_many (Z.to_nat n) read_IndexMeta;
  mret (mkTabMeta name cols indexes).

(** [db_meta.tabs_[tab.name] = tab] for each table read, into an empty database. *)
Definition read_DbMeta : reader DbMeta :=
  name ← read_word; n ← read_size;
  tabs ← read_many (Z.to_nat n) read_TabMeta;
  mret (mkDbMeta name (foldl (fun m t => <[tm_name t := t]> m) ∅ tabs)).

(** ** Written metadata reads back *)

Lemma sapp_cons x (a b : string) : String x a +:+ b = String x (a +:+ b).
Proof. reflexivity. Qed.

Lemma sapp_empty (b : string) : "" +:+ b = b.
Proof. reflexivity. Qed.

Lemma sapp_assoc (a b c : string) : (a +:+ b) +:+ c = a +:+ (b +:+ c).
Proof. induction a as [|x a IH]; [done|]. by rewrite !sapp_cons, IH. Qed.

Lemma sapp_nil (a : string) : a +:+ "" = a.
Proof. induction a as [|x a IH]; [done|]. by rewrite sapp_cons, IH. Qed.

Fixpoint all_chars (p : ascii -> bool) (s : string) : Prop :=
  match s with String c s' => p c = true /\ all_chars p s' | EmptyString => True end.
Definition spaces : string -> Prop := all_chars is_space.

(** A name that [>>] reads as one word. *)
Definition word (s : string) : Prop := s <> "" /\ all_chars (fun c => negb (is_space c)) s.

(** Reading [s], after any spaces and before anything, gives [x] and leaves spaces. *)
Definition fin {A} (r : reader A) (s : string) (x : A) : Prop := forall sp rest, spaces sp ->
  exists sp', spaces sp' /\ r (sp +:+ s +:+ rest) = Some (x, sp' +:+ rest).

Lemma fin_ret {A} (x : A) : fin (mret x) "" x.
Proof. intros sp rest Hs. by exists sp. Qed.

Lemma fin_bind {A B} (r : reader A) (k : A -> reader B) s1 s2 x y :
  fin r s1 x -> fin (k x) s2 y -> fin (a ← r; k a) (s1 +:+ s2) y.
Proof.
  intros H1 H2 sp rest Hs. destruct (H1 sp (s2 +:+ rest) Hs) as (sp1 & Hs1 & E1).
  destruct (H2 sp1 rest Hs1) as (sp2 & Hs2 & E2). exists sp2. split; [done|].
  unfold mbind, reader_bind. by rewrite sapp_assoc, E1, E2.
Qed.

Lemma fin_map {A B} (r : reader A) (f : A -> B) s x : fin r s x -> fin (a ← r; mret (f a)) s (f x).
Proof. intros H1. rewrite <- (sapp_nil s). eapply fin_bind; [done|apply fin_ret]. Qed.

Lemma fin_many {A} (r : reader A) (f : A -> string) l :
  Forall (fun x => fin r (f x) x) l -> fin (read_many (length l) r) (concat_strings (f <$> l)) l.
Proof.
  induction 1 as [|x l Hx _ IH]; simpl; [apply fin_ret|].
  eapply fin_bind; [done|]. by apply (fin_map _ (cons x)).
Qed.

Lemma skip_spaces sp s : spaces sp -> skip_ws (sp +:+ s) = skip_ws s.
Proof. induction sp as [|c sp IH]; [done|]. rewrite sapp_cons. simpl. intros [-> Hs]. by apply IH. Qed.

Lemma span_all p w c rest : all_chars p w -> p c = false ->
  span p (w +:+ String c rest) = (w, String c rest).
Proof.
  intros Hw Hc. induction w as [|x w IH]; [rewrite sapp_empty; simpl; by rewrite Hc|].
  destruct Hw as [Hx Hw]. rewrite sapp_cons. simpl. rewrite Hx. by rewrite IH.
Qed.

Lemma fin_word w c : word w -> is_space c = true -> fin read_word (w +:+ String c "") w.
Proof.
  intros [Hne Hw] Hc sp rest Hs. exists (String c ""). split; [by split|].
  unfold read_word. rewrite skip_spaces by done. rewrite sapp_assoc, sapp_cons, sapp_empty.
  assert (skip_ws (w +:+ String c rest) = w +:+ String c rest) as ->.
  { destruct w as [|x w]; [done|]. rewrite sapp_cons. simpl. destruct Hw as [Hx _]. by destruct (is_space x). }
  rewrite span_all; [|done|by rewrite Hc]. by destruct w.
Qed.

(** *** Numbers *)

Lemma pretty_char_digit n : (n < 10)%N ->
  is_digit (pretty_N_char n) = true /\ (N_of_ascii (pretty_N_char n) - 48 = n)%N.
Proof.
  intros Hn. destruct n as [|p]; [done|]. do 4 (destruct p as [p|p|]; try done; try lia).
Qed.

Lemma digits_go x : forall s, all_chars is_digit s ->
  (0 < x)%N -> digits 0 (pretty_N_go x s) = digits x s /\ all_chars is_digit (pretty_N_go x s) /\ pretty_N_go x s <> "".
Proof.
  induction (N.lt_wf_0 x) as [x _ IH]. intros s Hs Hx. rewrite pretty_N_go_step by done.
  pose proof (N.mod_lt x 10 ltac:(lia)) as Hm. destruct (pretty_char_digit _ Hm) as [Hd Hv].
  assert (Hs' : all_chars is_digit (String (pretty_N_char (x mod 10)) s)) by (by split).
  assert (E : (x / 10 * 10 + x mod 10 = x)%N) by (rewrite (N.div_mod x 10) at 3; lia).
  destruct (decide (x / 10 = 0)%N) as [E0|E0].
  - rewrite E0, pretty_N_go_0. split_and!; [|done|done]. cbn [digits]. rewrite Hv. f_equal. lia.
  - destruct (IH (x / 10)%N ltac:(by apply N.div_lt) _ Hs' ltac:(lia)) as (-> & Q1 & Q2).
    split_and!; [|done|done]. cbn [digits]. rewrite Hv. f_equal. lia.
Qed.

Lemma digits_pretty n : digits 0 (pretty n) = n /\ all_chars is_digit (pretty n) /\ pretty n <> "".
Proof.
  unfold pretty, pretty_N. case_decide as E; [subst; done|]. apply (digits_go n ""); [done|lia].
Qed.

Lemma not_sign s : s <> "" -> all_chars is_digit s -> forall rest,
  skip_ws (s +:+ rest) = s +:+ rest /\
  (match s +:+ rest with String "-"%char s' => (true, s') | String "+"%char s' => (false, s') | _ => (false, s +:+ rest) end)
  = (false, s +:+ rest).
Proof.
  intros Hne Hs rest. destruct s as [|c s]; [done|]. destruct Hs as [Hc _]. rewrite sapp_cons. simpl.
  assert (is_space c = false) as ->.
  { unfold is_digit, is_space in *. apply andb_true_iff in Hc as [Q1 Q2].
    apply Nat.leb_le in Q1, Q2. apply orb_false_iff. split; [apply Nat.eqb_neq; lia|].
    apply andb_false_iff. right. apply Nat.leb_gt. lia. }
  split; [done|]. destruct c as [[] [] [] [] [] [] [] []]; done.
Qed.

Lemma fin_num lo hi z c : lo <= z <= hi -> is_space c = true -> fin (read_num lo hi) (pretty z +:+ String c "") z.
Proof.
  intros Hz Hc sp rest Hs. exists (String c ""). split; [by split|].
  assert (Hcd : is_digit c = false).
  { destruct (is_digit c) eqn:E; [|done]. unfold is_digit, is_space in *.
    apply andb_true_iff in E as [Q1 Q2]. apply Nat.leb_le in Q1, Q2.
    apply orb_true_iff in Hc as [Hc|Hc]; [apply Nat.eqb_eq in Hc; lia|].
    apply andb_true_iff in Hc as [Q3 Q4]. apply Nat.leb_le in Q4. lia. }
  assert (Hnat : forall n : N, n <> 0%N \/ True -> forall r, span is_digit (pretty n +:+ String c r) = (pretty n, String c r)).
  { intros n _ r. apply span_all; [apply digits_pretty|done]. }
  unfold read_num. rewrite skip_spaces by done. rewrite sapp_assoc, sapp_cons, sapp_empty.
  assert (Hpos : forall n : N, lo <= Z.of_N n <= hi ->
    (let s := skip_ws (pretty n +:+ String c rest) in
     let '(neg, s) := match s with String "-"%char s' => (true, s') | String "+"%char s' => (false, s') | _ => (false, s) end in
     let '(w, r) := span is_digit s in
     match w with
     | EmptyString => None
     | _ => let n := Z.of_N (digits 0 w) in let n := if neg : bool then - n else n in
            if decide (lo <= n <= hi) then Some (n, r) else None
     end) = Some (Z.of_N n, String c rest)).
  { intros n Hn. destruct (digits_pretty n) as (Q1 & Q2 & Q3).
    destruct (not_sign (pretty n) Q3 Q2 (String c rest)) as [-> E]. cbv zeta. rewrite E, Hnat by auto.
    rewrite Q1. destruct (pretty n) eqn:E2; [done|]. by rewrite decide_True. }
  destruct z as [|p|p]; [apply (Hpos 0%N Hz)|apply (Hpos (Npos p) Hz)|].
  change (pretty (Z.neg p)) with (String "-" (pretty (Npos p))). rewrite sapp_cons. simpl.
  destruct (digits_pretty (Npos p)) as (Q1 & Q2 & Q3). rewrite Hnat by auto.
  rewrite Q1. destruct (pretty (Npos p)) eqn:E2; [done|]. by rewrite decide_True.
Qed.

Lemma fin_int z c : in_i32 z -> is_space c = true -> fin read_int (pretty z +:+ String c "") z.
Proof. intros Hz. apply fin_num. unfold in_i32 in Hz. lia. Qed.

Lemma fin_bool b c : is_space c = true -> fin read_bool (pretty (bool_val b) +:+ String c "") b.
Proof.
  intros Hc. replace b with (bool_val b =? 1) at 2 by (by destruct b).
  apply (fin_map _ (fun z => z =? 1)), fin_num; [destruct b; simpl; lia|done].
Qed.

Lemma fin_ColType t c : is_space c = true -> fin read_ColType (pretty (ColType_val t) +:+ String c "") t.
Proof.
  intros Hc. rewrite <- (sapp_nil (_ +:+ String c "")). eapply fin_bind; [apply fin_int; [by destruct t|done]|].
  intros sp rest Hs. exists sp. split; [done|]. cbn beta. by destruct t.
Qed.

(** *** Metadata whose names are words *)

Record col_ok (c : ColMeta) : Prop := {
  co_tab : word (cm_tab_name c);
  co_name : word (cm_name c);
  co_len : in_i32 (cm_len c);
  co_offset : in_i32 (cm_offset c);
}.
Record index_ok (i : IndexMeta) : Prop := {
  io_tab : word (im_tab_name i);
  io_tot : in_i32 (im_col_tot_len i);
  io_num : im_col_num i = Z.of_nat (length (im_cols i));
  io_num_int : in_i32 (im_col_num i);
  io_cols : Forall col_ok (im_cols i);
}.
Record tab_ok (t : TabMeta) : Prop := {
  to_name : word (tm_name t);
  to_cols : Forall col_ok (tm_cols t);
  to_cols_num : Z.of_nat (length (tm_cols t)) < 2 ^ 64;
  to_indexes : Forall index_ok (tm_indexes t);
  to_indexes_num : Z.of_nat (length (tm_indexes t)) < 2 ^ 64;
}.
Record db_ok (d : DbMeta) : Prop := {
  do_name : word (db_name d);
  do_tabs : map_Forall (fun n t => tm_name t = n /\ tab_ok t) (db_tabs d);
  do_num : Z.of_nat (size (db_tabs d)) < 2 ^ 64;
}.

Lemma fin_ColMeta c : col_ok c -> fin read_ColMeta (ColMeta_out c +:+ endl) c.
Proof.
  intros [Q1 Q2 Q3 Q4].
  replace (ColMeta_out c +:+ endl) with ((cm_tab_name c +:+ " ") +:+ (cm_name c +:+ " ") +:+
    (pretty (ColType_val (cm_type c)) +:+ " ") +:+ (pretty (cm_len c) +:+ " ") +:+ (pretty (cm_offset c) +:+ " ") +:+
    (pretty (bool_val (cm_index c)) +:+ endl)) by (unfold ColMeta_out; by rewrite !sapp_assoc).
  unfold read_ColMeta.
  eapply fin_bind; [by apply fin_word|]. eapply fin_bind; [by apply fin_word|].
  eapply fin_bind; [by apply fin_ColType|]. eapply fin_bind; [by apply fin_int|].
  eapply fin_bind; [by apply fin_int|]. destruct c as [tab name ty len off idx].
  eapply (fin_map _ (fun b => mkColMeta tab name ty len off b)). by apply fin_bool.
Qed.

(** Lines that start with a line break, as lines that end with one. *)
Lemma concat_shift {A} (f : A -> string) l :
  concat_strings ((fun x => endl +:+ f x) <$> l) +:+ endl = endl +:+ concat_strings ((fun x => f x +:+ endl) <$> l).
Proof.
  induction l as [|x l IH]; [done|]. cbn [fmap list_fmap concat_strings]. rewrite sapp_assoc, IH.
  by rewrite !sapp_assoc.
Qed.

Lemma fin_IndexMeta i : index_ok i -> fin read_IndexMeta (IndexMeta_out i +:+ endl) i.
Proof.
  intros [Q1 Q2 Q3 Q4 Q5].
  replace (IndexMeta_out i +:+ endl) with ((im_tab_name i +:+ " ") +:+ (pretty (im_col_tot_len i) +:+ " ") +:+
    (pretty (im_col_num i) +:+ endl) +:+ concat_strings ((fun c => ColMeta_out c +:+ endl) <$> im_cols i)).
  2: { unfold IndexMeta_out. rewrite !sapp_assoc, concat_shift. done. }
  unfold read_IndexMeta.
  eapply fin_bind; [by apply fin_word|]. eapply fin_bind; [by apply fin_int|]. eapply fin_bind; [by apply fin_int|].
  destruct i as [tab tot num cols]. simpl in *. eapply (fin_map _ (mkIndexMeta tab tot num)).
  rewrite Q3, Nat2Z.id. apply fin_many. eapply Forall_impl; [done|]. exact fin_ColMeta.
Qed.

Lemma fin_TabMeta t : tab_ok t -> fin read_TabMeta (TabMeta_out t) t.
Proof.
  intros [Q1 Q2 Q3 Q4 Q5].
  replace (TabMeta_out t) with ((tm_name t +:+ endl) +:+ (pretty (Z.of_nat (length (tm_cols t))) +:+ endl) +:+
    concat_strings ((fun c => ColMeta_out c +:+ endl) <$> tm_cols t) +:+
    (pretty (Z.of_nat (length (tm_indexes t))) +:+ endl) +:+
    concat_strings ((fun i => IndexMeta_out i +:+ endl) <$> tm_indexes t)) by (unfold TabMeta_out; by rewrite !sapp_assoc).
  unfold read_TabMeta, read_size.
  eapply fin_bind; [by apply fin_word|]. eapply fin_bind; [apply fin_num; [lia|done]|]. rewrite Nat2Z.id.
  eapply fin_bind; [apply fin_many; eapply Forall_impl; [done|exact fin_ColMeta]|].
  eapply fin_bind; [apply fin_num; [lia|done]|]. rewrite Nat2Z.id.
  destruct t as [name cols indexes]. eapply (fin_map _ (mkTabMeta name cols)).
  apply fin_many. eapply Forall_impl; [done|exact fin_IndexMeta].
Qed.

Lemma fin_endl {A} (r : reader A) s x : fin r s x -> fin r (s +:+ endl) x.
Proof.
  intros Hr sp rest Hs. destruct (Hr sp (endl +:+ rest) Hs) as (sp' & Hs' & E).
  exists (sp' +:+ endl). rewrite !sapp_assoc. split; [|done].
  induction sp' as [|c sp' IH]; [done|]. rewrite sapp_cons. destruct Hs' as [Hc Hs']. split; [done|].
  clear E. revert Hs'. clear. induction sp' as [|c sp' IH]; [done|]. rewrite sapp_cons. intros [Hc Hs]. split; auto.
Qed.

Lemma tabs_of_entries d : db_ok d ->
  foldl (fun m t => <[tm_name t := t]> m) ∅ (entries d).*2 = db_tabs d.
Proof.
  intros Hd. assert (Hp : entries d ≡ₚ map_to_list (db_tabs d)) by (apply merge_sort_Permutation).
  assert (Hn : Forall (fun e => tm_name e.2 = e.1) (entries d)).
  { apply Forall_forall. intros [n t] He. rewrite Hp in He. apply elem_of_map_to_list in He.
    by apply (do_tabs d Hd n t). }
  rewrite <- (list_to_map_to_list (db_tabs d)).
  assert (Hnd : NoDup (entries d).*1) by (rewrite Hp; apply NoDup_fst_map_to_list).
  rewrite <- (list_to_map_proper _ _ Hnd Hp).
  assert (Hr : forall (l : list (string * TabMeta)) (m : gmap string TabMeta), Forall (fun e => tm_name e.2 = e.1) l ->
    foldl (fun m t => <[tm_name t := t]> m) m l.*2 = foldl (fun m e => <[e.1 := e.2]> m) m l).
  { induction l as [|e l IH]; intros m Hl; [done|]. inversion Hl; subst. simpl. rewrite IH by done. by match goal with E : tm_name e.2 = _ |- _ => rewrite E end. }
  rewrite Hr by done. clear Hr Hn Hp.
  assert (Hg : forall (l : list (string * TabMeta)) (m : gmap string TabMeta), NoDup l.*1 ->
    foldl (fun m e => <[e.1 := e.2]> m) m l = list_to_map l ∪ m).
  { induction l as [|[n t] l IH]; intros m Hl; simpl; [by rewrite (left_id_L ∅ union)|].
    apply NoDup_cons in Hl as [Hn Hl]. rewrite IH by done.
    rewrite <- insert_union_r by (by apply not_elem_of_list_to_map_1). by rewrite insert_union_l. }
  rewrite Hg by done. apply (right_id_L ∅ union).
Qed.

(** C19: what [operator<<] writes of the metadata of a database, with its tables,
    columns and indexes, [operator>>] reads back, when the names are words and the
    numbers fit their types; only white space is left. *)
Theorem db_meta_roundtrip d : db_ok d ->
  exists sp, spaces sp /\ read_DbMeta (DbMeta_out d) = Some (d, sp).
Proof.
  intros Hd. pose proof Hd as [Q1 Q2 Q3].
  assert (Hf : fin read_DbMeta (DbMeta_out d) d); [|].
  2: { destruct (Hf "" "" I) as (sp & Hs & E). rewrite !sapp_nil in E. by exists sp. }
  replace (DbMeta_out d) with ((db_name d +:+ endl) +:+ (pretty (Z.of_nat (size (db_tabs d))) +:+ endl) +:+
    concat_strings ((fun t => TabMeta_out t +:+ endl) <$> (entries d).*2)).
  2: { unfold DbMeta_out. rewrite !sapp_assoc, <- list_fmap_compose. done. }
  unfold read_DbMeta, read_size.
  eapply fin_bind; [by apply fin_word|]. eapply fin_bind; [apply fin_num; [lia|done]|]. rewrite Nat2Z.id.
  assert (Hp : entries d ≡ₚ map_to_list (db_tabs d)) by (apply merge_sort_Permutation).
  replace (size (db_tabs d)) with (length (entries d).*2) by (rewrite length_fmap, Hp; apply length_map_to_list).
  assert (Hd2 : d = mkDbMeta (db_name d) (foldl (fun m t => <[tm_name t := t]> m) ∅ (entries d).*2))
    by (rewrite tabs_of_entries by done; by destruct d).
  rewrite Hd2 at 3. apply (fin_map _ (fun l => mkDbMeta (db_name d) (foldl (fun m t => <[tm_name t := t]> m) ∅ l))).
  apply fin_many. apply Forall_forall. intros t Ht. apply list_elem_of_fmap in Ht as ([n t'] & -> & He).
  rewrite Hp in He. apply elem_of_map_to_list in He. apply fin_endl, fin_TabMeta, (Q2 n t' He).
Qed.

(** *** A database with a table and an index *)
Definition demo_col (name : string) (ty : ColType) (len offset : Z) : ColMeta :=
  mkColMeta "grade" name ty len offset false.
Definition demo_tab : TabMeta :=
  mkTabMeta "grade" [demo_col "name" TYPE_STRING 20 0; demo_col "score" TYPE_FLOAT 4 20]
    [mkIndexMeta "grade" 4 1 [demo_col "score" TYPE_FLOAT 4 20]].
Definition demo_db : DbMeta := mkDbMeta "school" {[ "grade" := demo_tab ]}.

Lemma db_meta_roundtrip_witness :
  (exists sp, spaces sp /\ read_DbMeta (DbMeta_out demo_db) = Some (demo_db, sp)) /\
  String.length (DbMeta_out demo_db) = 92%nat.
Proof.
  split; [|vm_compute; reflexivity]. apply db_meta_roundtrip.
  assert (Hc : forall n ty len off, word n -> in_i32 len -> in_i32 off -> col_ok (demo_col n ty len off))
    by (intros n ty len off Q1 Q2 Q3; split; [split; [discriminate|repeat split]|exact Q1|exact Q2|exact Q3]).
  assert (Hw : forall s, s <> "" -> all_chars (fun c => negb (is_space c)) s -> word s) by (intros s Q1 Q2; split; assumption).
  assert (Hi : forall z, (- 2 ^ 31 <=? z) && (z <? 2 ^ 31) = true -> in_i32 z)
    by (intros z E; apply andb_true_iff in E as [E1 E2]; apply Z.leb_le in E1; apply Z.ltb_lt in E2; split; assumption).
  assert (Hs : col_ok (demo_col "score" TYPE_FLOAT 4 20)) by (apply Hc; [apply Hw; [discriminate|repeat split]|apply Hi; reflexivity..]).
  assert (Hn : col_ok (demo_col "name" TYPE_STRING 20 0)) by (apply Hc; [apply Hw; [discriminate|repeat split]|apply Hi; reflexivity..]).
  split; [apply Hw; [discriminate|repeat split]| |reflexivity].
  apply map_Forall_singleton. split; [reflexivity|].
  split; [apply Hw; [discriminate|repeat split]|constructor; [exact Hn|constructor; [exact Hs|constructor]]|reflexivity| |reflexivity].
  constructor; [|constructor]. split; [apply Hw; [discriminate|repeat split]|apply Hi; reflexivity|reflexivity|apply Hi; reflexivity|].
  constructor; [exact Hs|constructor].
Defined.
