(* ===== verification/IxDefs.v ===== *)
(** * Index data

    [index/ix_defs.h]: the header of an index file and its serialization, the header
    of a node; and the comparison of keys of [ix_index_handle.h]. *)

From Stdlib Require Import Sorting.Sorted.
From S2P Require Import Prelude Common Log.

Definition IX_NO_PAGE : Z := -1.
Definition IX_FILE_HDR_PAGE : Z := 0.
Definition IX_LEAF_HEADER_PAGE : Z := 1.
Definition IX_INIT_ROOT_PAGE : Z := 2.
Definition IX_INIT_NUM_PAGES : Z := 3.
Definition IX_MAX_COL_LEN : Z := 512.

(** ** [IxFileHdr] *)
Record IxFileHdr := mkIxFileHdr {
  ix_first_free_page_no : Z;
  num_pages_ : Z;
  root_page_ : Z;
  col_num_ : Z;
  col_types_ : list ColType;
  col_lens_ : list Z;
  col_tot_len_ : Z;
  btree_order_ : Z;
  keys_size_ : Z;
  first_leaf_ : Z;
  last_leaf_ : Z;
  tot_len_ : Z;
  ix_lsn : Z;
}.

(** The constructor with arguments, followed by the [push_back]s of the types and
    lengths. *)
Definition new_IxFileHdr (first_free num_pages root_page col_num : Z) (types : list ColType) (lens : list Z)
    (col_tot_len btree_order keys_size first_leaf last_leaf : Z) : IxFileHdr :=
  mkIxFileHdr first_free num_pages root_page col_num types lens col_tot_len btree_order keys_size
    first_leaf last_leaf 0 (-1).

(** [sizeof] of four page numbers, six [int]s, and a type and a length per column. *)
Definition update_tot_len (h : IxFileHdr) : IxFileHdr :=
  mkIxFileHdr (ix_first_free_page_no h) (num_pages_ h) (root_page_ h) (col_num_ h) (col_types_ h) (col_lens_ h)
    (col_tot_len_ h) (btree_order_ h) (keys_size_ h) (first_leaf_ h) (last_leaf_ h)
    (4 * 4 + 4 * 6 + (4 * col_num_ h + 4 * col_num_ h) + 4) (ix_lsn h).

(** The [memcpy]s of [serialize], in order. *)
Definition hdr_chunks (h : IxFileHdr) : list bytes :=
  [ le_encode 4 (tot_len_ h); le_encode 4 (ix_first_free_page_no h); le_encode 4 (num_pages_ h);
    le_encode 4 (root_page_ h); le_encode 4 (col_num_ h) ] ++
  ((fun ty => le_encode 4 (ColType_val ty)) <$> take (Z.to_nat (col_num_ h)) (col_types_ h)) ++
  (le_encode 4 <$> take (Z.to_nat (col_num_ h)) (col_lens_ h)) ++
  [ le_encode 4 (col_tot_len_ h); le_encode 4 (btree_order_ h); le_encode 4 (keys_size_ h);
    le_encode 4 (first_leaf_ h); le_encode 4 (last_leaf_ h); le_encode 4 (ix_lsn h) ].

(** The bytes at [dest] and how it ended: the vectors are read up to [col_num_]. *)
Definition hdr_serialize (h : IxFileHdr) (dest : bytes) : bytes * res unit :=
  let n := Z.to_nat (col_num_ h) in
  if decide (n <= length (col_types_ h) /\ n <= length (col_lens_ h))%nat then
    (apply_writes dest 0 (lay 0 (hdr_chunks h)),
     if Z.of_nat (length (concat (hdr_chunks h))) =? tot_len_ h then Ok tt else Throw AssertFailure)
  else (dest, Throw Stuck).

Fixpoint load_ints (n : nat) (src : bytes) (offset : nat) : list Z :=
  match n with
  | O => []
  | S n' => load_i32 src offset :: load_ints n' src (offset + 4)
  end.

(** [deserialize] into a fresh header; the values of the types are enumerators, or
    the program has read something else than a header. *)
Definition hdr_deserialize (src : bytes) : res IxFileHdr :=
  let n := Z.to_nat (load_i32 src 16) in
  match mapM ColType_of (load_ints n src 20) with
  | None => Throw Stuck
  | Some types =>
      let lens := load_ints n src (20 + 4 * n) in
      let o := (20 + 8 * n)%nat in
      let h := mkIxFileHdr (load_i32 src 4) (load_i32 src 8) (load_i32 src 12) (load_i32 src 16) types lens
                 (load_i32 src o) (load_i32 src (o + 4)) (load_i32 src (o + 8)) (load_i32 src (o + 12))
                 (load_i32 src (o + 16)) (load_i32 src 0) (load_i32 src (o + 20)) in
      if Z.of_nat (o + 24) =? tot_len_ h then Ok h else Throw AssertFailure
  end.

(** ** [IxPageHdr]: at [OFFSET_PAGE_HDR] in a page *)
Definition sizeof_IxPageHdr : nat := 24.
Definition sizeof_Rid : nat := 8.
Definition OFFSET_NODE : nat := 4.

Definition hd_next_free (d : bytes) : Z := load_i32 d (OFFSET_NODE + 0).
Definition hd_parent (d : bytes) : Z := load_i32 d (OFFSET_NODE + 4).
Definition hd_num_key (d : bytes) : Z := load_i32 d (OFFSET_NODE + 8).
(** A [bool] is a byte; the three after it are padding. *)
Definition hd_is_leaf (d : bytes) : bool := negb (le_decode (mem_read d (OFFSET_NODE + 12) 1) =? 0).
Definition hd_prev_leaf (d : bytes) : Z := load_i32 d (OFFSET_NODE + 16).
Definition hd_next_leaf (d : bytes) : Z := load_i32 d (OFFSET_NODE + 20).

Definition set_next_free (z : Z) (d : bytes) : bytes := store_32 d (OFFSET_NODE + 0) z.
Definition set_parent_page_no (z : Z) (d : bytes) : bytes := store_32 d (OFFSET_NODE + 4) z.
Definition set_size (z : Z) (d : bytes) : bytes := store_32 d (OFFSET_NODE + 8) z.
Definition set_is_leaf (b : bool) (d : bytes) : bytes := mem_write d (OFFSET_NODE + 12) [if b then 1 else 0].
Definition set_prev_leaf (z : Z) (d : bytes) : bytes := store_32 d (OFFSET_NODE + 16) z.
Definition set_next_leaf (z : Z) (d : bytes) : bytes := store_32 d (OFFSET_NODE + 20) z.

Record Iid := mkIid { iid_page_no : Z; iid_slot_no : Z }.
#[global] Instance Iid_eq_dec : EqDecision Iid.
Proof. solve_decision. Defined.

(** ** Comparison of keys *)

(** IEEE binary32 values by their bits: the order of the machine's [<] on them, where
    a NaN is neither less nor greater than anything and the zeros are equal. *)
Definition f32_nan (b : Z) : bool := (Z.shiftr b 23 mod 256 =? 255) && negb (b mod 2 ^ 23 =? 0).
Definition f32_ord (b : Z) : Z := if Z.testbit b 31 then - (b mod 2 ^ 31) else b mod 2 ^ 31.
Definition f32_lt (a b : Z) : bool := negb (f32_nan a) && negb (f32_nan b) && (f32_ord a <? f32_ord b).

(** [memcmp], up to the sign of its result. *)
Fixpoint memcmp (a b : bytes) (n : nat) : Z :=
  match n, a, b with
  | S n', x :: a', y :: b' => if x <? y then -1 else if y <? x then 1 else memcmp a' b' n'
  | _, _, _ => 0
  end.

(** [ix_compare] of one column at the pointers [a] and [b]. *)
Definition ix_compare1 (a b : bytes) (type : ColType) (col_len : Z) : res Z :=
  match type with
  | TYPE_INT =>
      let ia := load_i32 a 0 in let ib := load_i32 b 0 in
      Ok (if ia <? ib then -1 else if ib <? ia then 1 else 0)
  | TYPE_FLOAT =>
      let fa := load_u32 a 0 in let fb := load_u32 b 0 in
      Ok (if f32_lt fa fb then -1 else if f32_lt fb fa then 1 else 0)
  | TYPE_BIGINT =>
      let ia := load_i64 a 0 in let ib := load_i64 b 0 in
      Ok (if ia <? ib then -1 else if ib <? ia then 1 else 0)
  | TYPE_STRING | TYPE_DATETIME => Ok (memcmp a b (Z.to_nat col_len))
  | TYPE_DOUBLE => Throw (InternalError "Unexpected data type")
  end.

(** [ix_compare] of all the columns; the lengths vector is as long as the types. *)
Fixpoint ix_compare (col_types : list ColType) (col_lens : list Z) (a b : bytes) : res Z :=
  match col_types, col_lens with
  | [], _ => Ok 0
  | ty :: types, len :: lens =>
      r ← ix_compare1 a b ty len;
      if negb (r =? 0) then Ok r else ix_compare types lens (drop (Z.to_nat len) a) (drop (Z.to_nat len) b)
  | _ :: _, [] => Throw Stuck
  end.

(** *** The order of keys

    A key without NaNs has a rank, a list of numbers, and keys compare as their ranks
    do in the lexicographic order. *)

Fixpoint lex (a b : list Z) : Z :=
  match a, b with
  | [], [] => 0
  | [], _ :: _ => -1
  | _ :: _, [] => 1
  | x :: a', y :: b' => if x <? y then -1 else if y <? x then 1 else lex a' b'
  end.

Definition col_rank (type : ColType) (len : Z) (a : bytes) : list Z :=
  match type with
  | TYPE_INT => [load_i32 a 0]
  | TYPE_FLOAT => [f32_ord (load_u32 a 0)]
  | TYPE_BIGINT => [load_i64 a 0]
  | _ => take (Z.to_nat len) a
  end.
Fixpoint rank (types : list ColType) (lens : list Z) (a : bytes) : list Z :=
  match types, lens with
  | ty :: types, len :: lens => col_rank ty len a ++ rank types lens (drop (Z.to_nat len) a)
  | _, _ => []
  end.

(** A key that has a value in every column. *)
Definition col_width (type : ColType) : nat :=
  match type with TYPE_INT | TYPE_FLOAT => 4 | TYPE_BIGINT => 8 | _ => 0 end.
Fixpoint key_ok (types : list ColType) (lens : list Z) (a : bytes) : Prop :=
  match types, lens with
  | [], [] => True
  | ty :: types, len :: lens =>
      (col_width ty <= Z.to_nat len)%nat /\ (Z.to_nat len <= length a)%nat /\ ty <> TYPE_DOUBLE /\
      (ty = TYPE_FLOAT -> f32_nan (load_u32 a 0) = false) /\
      key_ok types lens (drop (Z.to_nat len) a)
  | _, _ => False
  end.

Lemma lex_refl a : lex a a = 0.
Proof. induction a as [|x a IH]; simpl; [done|]. rewrite Z.ltb_irrefl. done. Qed.

Lemma lex_opp a b : lex b a = - lex a b.
Proof.
  revert b. induction a as [|x a IH]; intros [|y b]; simpl; try done.
  destruct (Z.ltb_spec x y), (Z.ltb_spec y x); try done; lia.
Qed.

Lemma lex_eq a b : lex a b = 0 -> a = b.
Proof.
  revert b. induction a as [|x a IH]; intros [|y b]; simpl; try done.
  destruct (Z.ltb_spec x y), (Z.ltb_spec y x); try done. intros E. f_equal; [lia|auto].
Qed.

Lemma lex_trans a b c : lex a b <= 0 -> lex b c <= 0 ->
  lex a c <= 0 /\ (lex a b < 0 \/ lex b c < 0 -> lex a c < 0).
Proof.
  revert b c. induction a as [|x a IH]; intros [|y b] [|z c]; simpl; try lia.
  intros Q1 Q2. specialize (IH b c).
  destruct (Z.ltb_spec x y), (Z.ltb_spec y x), (Z.ltb_spec y z), (Z.ltb_spec z y),
    (Z.ltb_spec x z), (Z.ltb_spec z x); try lia; auto.
Qed.

Lemma lex_values a b : lex a b = -1 \/ lex a b = 0 \/ lex a b = 1.
Proof.
  revert b. induction a as [|x a IH]; intros [|y b]; simpl; auto.
  destruct (x <? y), (y <? x); auto.
Qed.

Lemma lex_app a1 a2 b1 b2 : length a1 = length b1 ->
  lex (a1 ++ a2) (b1 ++ b2) = if negb (lex a1 b1 =? 0) then lex a1 b1 else lex a2 b2.
Proof.
  revert b1. induction a1 as [|x a1 IH]; intros [|y b1] Hl; simpl in *; try done.
  destruct (x <? y), (y <? x); try done. apply IH. lia.
Qed.

Lemma memcmp_lex a b n : (n <= length a)%nat -> (n <= length b)%nat ->
  memcmp a b n = lex (take n a) (take n b).
Proof.
  revert a b. induction n as [|n IH]; intros [|x a] [|y b] Ha Hb; simpl in *; try done; try lia.
  destruct (x <? y), (y <? x); try done. apply IH; lia.
Qed.

Lemma lex_one x y : lex [x] [y] = if x <? y then -1 else if y <? x then 1 else 0.
Proof. reflexivity. Qed.

Lemma compare1_rank a b ty len :
  ty <> TYPE_DOUBLE -> (Z.to_nat len <= length a)%nat -> (Z.to_nat len <= length b)%nat ->
  (ty = TYPE_FLOAT -> f32_nan (load_u32 a 0) = false /\ f32_nan (load_u32 b 0) = false) ->
  ix_compare1 a b ty len = Ok (lex (col_rank ty len a) (col_rank ty len b)) /\
  length (col_rank ty len a) = length (col_rank ty len b).
Proof.
  intros Ht Ha Hb Hf. destruct ty; try done; cbn [ix_compare1 col_rank]; rewrite ?lex_one; (split; [|rewrite ?length_take; try lia; done]);
    rewrite ?memcmp_lex by done; try done.
  destruct (Hf eq_refl) as [Q1 Q2]. unfold f32_lt. by rewrite Q1, Q2.
Qed.

(** Keys compare as their ranks. *)
Lemma compare_rank types : forall lens a b,
  key_ok types lens a -> key_ok types lens b ->
  ix_compare types lens a b = Ok (lex (rank types lens a) (rank types lens b)).
Proof.
  induction types as [|ty types IH]; intros [|len lens] a b; simpl; try done.
  intros (A1 & A2 & A3 & A4 & A5) (B1 & B2 & B3 & B4 & B5).
  destruct (compare1_rank a b ty len A3 A2 B2) as [-> Hl]; [auto|].
  rewrite lex_app by done. unfold mbind, res_bind.
  destruct (lex (col_rank ty len a) _ =? 0); simpl; [|done]. by apply IH.
Qed.

(** Only the bytes of the columns matter. *)
Definition cols_len (lens : list Z) : nat := sum_list (Z.to_nat <$> lens).

Lemma col_rank_app ty len a r : (col_width ty <= Z.to_nat len)%nat -> (Z.to_nat len <= length a)%nat ->
  col_rank ty len (a ++ r) = col_rank ty len a.
Proof.
  intros Hw Hl. destruct ty; cbn [col_rank col_width] in *; unfold load_i32, load_u32, load_i64, mem_read;
    rewrite ?drop_0, ?take_app_le by lia; done.
Qed.

Lemma load_u32_app a r : (4 <= length a)%nat -> load_u32 (a ++ r) 0 = load_u32 a 0.
Proof. intros Hl. unfold load_u32, mem_read. by rewrite !drop_0, take_app_le. Qed.

Lemma rank_app types : forall lens a r, key_ok types lens a ->
  rank types lens (a ++ r) = rank types lens a /\ key_ok types lens (a ++ r).
Proof.
  induction types as [|ty types IH]; intros [|len lens] a r; simpl; try done.
  intros (A1 & A2 & A3 & A4 & A5). rewrite col_rank_app, drop_app_le by done.
  destruct (IH lens (drop (Z.to_nat len) a) r A5) as [-> ?]. split; [done|].
  split_and!; try done; [rewrite length_app; lia|]. intros ->. rewrite load_u32_app; [auto|].
  cbn in A1. lia.
Qed.

(** ** The header reads back *)

Definition hdr_ints (h : IxFileHdr) : list Z :=
  [ tot_len_ h; ix_first_free_page_no h; num_pages_ h; root_page_ h; col_num_ h ] ++
  (ColType_val <$> take (Z.to_nat (col_num_ h)) (col_types_ h)) ++ take (Z.to_nat (col_num_ h)) (col_lens_ h) ++
  [ col_tot_len_ h; btree_order_ h; keys_size_ h; first_leaf_ h; last_leaf_ h; ix_lsn h ].

Lemma hdr_chunks_ints h : hdr_chunks h = le_encode 4 <$> hdr_ints h.
Proof. unfold hdr_chunks, hdr_ints. rewrite !fmap_app, <- list_fmap_compose. done. Qed.

Lemma length_concat_ints l : length (concat (le_encode 4 <$> l)) = (4 * length l)%nat.
Proof.
  induction l as [|z l IH]; [done|]. rewrite fmap_cons. cbn [concat length].
  rewrite length_app, length_le_encode, IH. lia.
Qed.

(** Reading the [k]-th of consecutive integers. *)
Lemma load_written l dest k z :
  (4 * length l <= length dest)%nat -> l !! k = Some z -> in_i32 z ->
  load_i32 (apply_writes dest 0 (lay 0 (le_encode 4 <$> l))) (4 * k) = z.
Proof.
  intros Hd Hk Hz. rewrite (apply_writes_tiles _ _ _ 0); [|apply tiles_lay|rewrite lay_snd, length_concat_ints; lia].
  rewrite lay_snd, Nat.add_0_r. unfold load_i32.
  pose proof (lookup_lt_Some _ _ _ Hk) as Hlt.
  rewrite <- (drop_0 (mem_write _ _ _)), mem_read_block by (rewrite length_concat_ints; lia).
  rewrite <- (take_drop_middle l k z Hk), fmap_app, fmap_cons.
  pose proof (mem_read_concat (le_encode 4 <$> take k l) (le_encode 4 <$> drop (S k) l) (le_encode 4 z) (4 * k)) as E.
  rewrite length_le_encode in E. rewrite E; [by apply i32_decode_encode|].
  rewrite length_concat_ints, length_take. lia.
Qed.

Lemma load_ints_ok src l : forall j,
  (forall i z, l !! i = Some z -> load_i32 src (4 * (j + i)) = z) -> load_ints (length l) src (4 * j) = l.
Proof.
  induction l as [|z l IH]; intros j Hl; [done|]. cbn [length load_ints]. f_equal.
  - rewrite <- (Hl 0%nat z eq_refl). f_equal. lia.
  - replace (4 * j + 4)%nat with (4 * S j)%nat by lia. apply IH. intros i x Hi.
    rewrite <- (Hl (S i) x Hi). f_equal. lia.
Qed.

(** The header of an index file survives being serialized by [close_index] or
    [flush] and deserialized when the index is opened, whatever the number of
    columns, and the assertion on its length holds on both sides. *)
Theorem ix_hdr_roundtrip h dest :
  length (col_types_ h) = Z.to_nat (col_num_ h) -> length (col_lens_ h) = Z.to_nat (col_num_ h) ->
  Forall in_i32 (hdr_ints (update_tot_len h)) -> 0 <= col_num_ h ->
  tot_len_ (update_tot_len h) <= Z.of_nat (length dest) ->
  let '(d, r) := hdr_serialize (update_tot_len h) dest in
  r = Ok tt /\ hdr_deserialize d = Ok (update_tot_len h).
Proof.
  intros Ht Hl Hi Hc Hd. set (u := update_tot_len h) in *. set (n := Z.to_nat (col_num_ h)) in *.
  assert (Hlen : length (hdr_ints u) = (11 + 2 * n)%nat).
  { unfold hdr_ints. rewrite !length_app, length_fmap, !length_take. unfold u. simpl. fold n. rewrite Ht, Hl. lia. }
  assert (Htot : tot_len_ u = Z.of_nat (44 + 8 * n)) by (unfold u; simpl; lia).
  unfold hdr_serialize. change (Z.to_nat (col_num_ u)) with n.
  rewrite decide_True by (unfold u; simpl; lia). rewrite hdr_chunks_ints, length_concat_ints, Hlen.
  split; [by rewrite (proj2 (Z.eqb_eq _ _)) by lia|].
  set (d := apply_writes _ _ _).
  assert (R : forall k z, hdr_ints u !! k = Some z -> load_i32 d (4 * k) = z).
  { intros k z Hk. apply load_written; [lia|done|]. by eapply Forall_lookup_1. }
  assert (R' : forall k o z, o = (4 * k)%nat -> hdr_ints u !! k = Some z -> load_i32 d o = z)
    by (intros k o z ->; apply R).
  assert (Hty : take n (col_types_ u) = col_types_ u) by (apply take_ge; unfold u; simpl; lia).
  assert (Hle : take n (col_lens_ u) = col_lens_ u) by (apply take_ge; unfold u; simpl; lia).
  assert (Hints : hdr_ints u = [ tot_len_ u; ix_first_free_page_no u; num_pages_ u; root_page_ u; col_num_ u ] ++
    (ColType_val <$> col_types_ u) ++ col_lens_ u ++
    [ col_tot_len_ u; btree_order_ u; keys_size_ u; first_leaf_ u; last_leaf_ u; ix_lsn u ])
    by (unfold hdr_ints; change (Z.to_nat (col_num_ u)) with n; by rewrite Hty, Hle).
  unfold hdr_deserialize. rewrite (R' 4%nat 16%nat (col_num_ u) eq_refl) by (by rewrite Hints).
  change (Z.to_nat (col_num_ u)) with n.
  assert (Lt : length (col_types_ u) = n) by (unfold u; simpl; lia).
  assert (Ll : length (col_lens_ u) = n) by (unfold u; simpl; lia).
  replace (load_ints n d 20) with (ColType_val <$> col_types_ u).
  2: { rewrite <- (load_ints_ok d (ColType_val <$> col_types_ u) 5); [by rewrite length_fmap, Lt|].
       intros i z Hz. apply R. rewrite Hints, lookup_app_r by (cbn; lia).
       replace (5 + i - _)%nat with i by (cbn; lia). rewrite lookup_app_l; [done|]. by eapply lookup_lt_Some. }
  rewrite ColType_of_val.
  replace (load_ints n d (20 + 4 * n)) with (col_lens_ u).
  2: { rewrite <- (load_ints_ok d (col_lens_ u) (5 + n)); [rewrite Ll; f_equal; lia|].
       intros i z Hz. apply R. rewrite Hints, lookup_app_r by (cbn; lia).
       rewrite lookup_app_r by (rewrite length_fmap; cbn; lia). rewrite length_fmap, Lt.
       replace (5 + n + i - _ - n)%nat with i by (cbn; lia). rewrite lookup_app_l; [done|]. by eapply lookup_lt_Some. }
  assert (T : forall j z, [ col_tot_len_ u; btree_order_ u; keys_size_ u; first_leaf_ u; last_leaf_ u; ix_lsn u ] !! j = Some z ->
    load_i32 d (20 + 8 * n + 4 * j) = z).
  { intros j z Hz. replace (20 + 8 * n + 4 * j)%nat with (4 * (5 + 2 * n + j))%nat by lia. apply R.
    rewrite Hints, lookup_app_r by (cbn; lia). rewrite lookup_app_r by (rewrite length_fmap; cbn; lia).
    rewrite length_fmap, Lt, lookup_app_r by (cbn; lia). rewrite Ll. rewrite <- Hz. f_equal. cbn. lia. }
  rewrite (R' 0%nat 0%nat (tot_len_ u) eq_refl), (R' 1%nat 4%nat (ix_first_free_page_no u) eq_refl),
    (R' 2%nat 8%nat (num_pages_ u) eq_refl), (R' 3%nat 12%nat (root_page_ u) eq_refl) by (by rewrite Hints).
  assert (T' : forall j o z, o = (20 + 8 * n + 4 * j)%nat ->
    [ col_tot_len_ u; btree_order_ u; keys_size_ u; first_leaf_ u; last_leaf_ u; ix_lsn u ] !! j = Some z ->
    load_i32 d o = z) by (intros j o z ->; apply T).
  rewrite (T' 0%nat (20 + 8 * n)%nat _ ltac:(lia) eq_refl), (T' 1%nat (20 + 8 * n + 4)%nat _ eq_refl eq_refl),
    (T' 2%nat (20 + 8 * n + 8)%nat _ eq_refl eq_refl), (T' 3%nat (20 + 8 * n + 12)%nat _ eq_refl eq_refl),
    (T' 4%nat (20 + 8 * n + 16)%nat _ eq_refl eq_refl), (T' 5%nat (20 + 8 * n + 20)%nat _ eq_refl eq_refl).
  change (tot_len_ (mkIxFileHdr _ _ _ _ _ _ _ _ _ _ _ (tot_len_ u) _)) with (tot_len_ u).
  rewrite (proj2 (Z.eqb_eq _ _)) by lia. by destruct u.
Qed.

(** A header of an index on two columns. *)
Definition demo_ix_hdr : IxFileHdr :=
  new_IxFileHdr (-1) 3 2 2 [TYPE_INT; TYPE_STRING] [4; 20] 24 126 (127 * 24) 2 2.

Lemma ix_hdr_roundtrip_witness :
  (hdr_serialize (update_tot_len demo_ix_hdr) (replicate 60 7)).2 = Ok tt /\
  hdr_deserialize (hdr_serialize (update_tot_len demo_ix_hdr) (replicate 60 7)).1 = Ok (update_tot_len demo_ix_hdr).
Proof.
  pose proof (ix_hdr_roundtrip demo_ix_hdr (replicate 60 7) eq_refl eq_refl) as Hr.
  destruct (hdr_serialize (update_tot_len demo_ix_hdr) (replicate 60 7)) as [d r].
  apply Hr.
  - assert (hdr_ints (update_tot_len demo_ix_hdr) = [60; -1; 3; 2; 2; 0; 2; 4; 20; 24; 126; 3048; 2; 2; -1])
      as -> by reflexivity.
    repeat constructor; unfold in_i32; lia.
  - discriminate.
  - vm_compute. discriminate.
Defined.
