(* ===== verification/IxNode.v ===== *)
(** * Nodes of an index

    The class [IxNodeHandle] of [index/ix_index_handle.h] and its methods in
    [ix_index_handle.cpp]: operations on the data of a page, given the header of the
    file.  Keys and record identifiers are two arrays after the header of the node. *)

From Stdlib Require Import Sorting.Sorted.
From stdpp Require Import sorting.
From S2P Require Import Prelude Common Log IxDefs.

Module IxNode.

(** [keys] and [rids], as offsets in the page, and the elements of the arrays. *)
Definition keys_off : nat := OFFSET_NODE + sizeof_IxPageHdr.
Definition key_off (h : IxFileHdr) (i : Z) : Z := Z.of_nat keys_off + i * col_tot_len_ h.
Definition rid_off (h : IxFileHdr) (i : Z) : Z := Z.of_nat keys_off + keys_size_ h + i * Z.of_nat sizeof_Rid.

(** [get_key] and [get_rid] are pointers: what is read from them on. *)
Definition get_key (h : IxFileHdr) (i : Z) (d : bytes) : bytes := drop (Z.to_nat (key_off h i)) d.
Definition get_rid (h : IxFileHdr) (i : Z) (d : bytes) : Rid := load_rid d (Z.to_nat (rid_off h i)).
Definition value_at (h : IxFileHdr) (i : Z) (d : bytes) : Z := rid_page_no (get_rid h i d).

Definition get_max_size (h : IxFileHdr) : Z := btree_order_ h.
Definition get_min_size (h : IxFileHdr) : Z := Z.quot (get_max_size h) 2.
Definition is_root_page (d : bytes) : bool := hd_parent d =? INVALID_PAGE_ID.

(** [set_key]. *)
Definition set_key (h : IxFileHdr) (i : Z) (key d : bytes) : bytes :=
  mem_write d (Z.to_nat (key_off h i)) (take (Z.to_nat (col_tot_len_ h)) key).

Definition compare (h : IxFileHdr) (a b : bytes) : res Z := ix_compare (col_types_ h) (col_lens_ h) a b.

(** The loops of [lower_bound] and [upper_bound]; [fuel] bounds [r - l]. *)
Fixpoint lower_loop (fuel : nat) (h : IxFileHdr) (target d : bytes) (l r : Z) : res Z :=
  if l <? r then
    match fuel with
    | O => Throw OutOfFuel
    | S fuel' =>
        let mid := Z.shiftr (l + r) 1 in
        flag ← compare h (get_key h mid d) target;
        if flag <? 0 then lower_loop fuel' h target d (mid + 1) r else lower_loop fuel' h target d l mid
    end
  else Ok l.
Definition lower_bound (h : IxFileHdr) (target d : bytes) : res Z :=
  lower_loop (Z.to_nat (hd_num_key d)) h target d 0 (hd_num_key d).

Fixpoint upper_loop (fuel : nat) (h : IxFileHdr) (target d : bytes) (l r : Z) : res Z :=
  if l <? r then
    match fuel with
    | O => Throw OutOfFuel
    | S fuel' =>
        let mid := Z.shiftr (l + r) 1 in
        flag ← compare h (get_key h mid d) target;
        if 0 <? flag then upper_loop fuel' h target d l mid else upper_loop fuel' h target d (mid + 1) r
    end
  else Ok l.
Definition upper_bound (h : IxFileHdr) (target d : bytes) : res Z :=
  upper_loop (Z.to_nat (hd_num_key d)) h target d 1 (hd_num_key d).

Definition leaf_lookup (h : IxFileHdr) (key d : bytes) : res (option Rid) :=
  idx ← lower_bound h key d;
  if negb (idx =? hd_num_key d) then
    c ← compare h (get_key h idx d) key;
    if c =? 0 then Ok (Some (get_rid h idx d)) else Ok None
  else Ok None.

Definition internal_lookup (h : IxFileHdr) (key d : bytes) : res Z :=
  idx ← upper_bound h key d;
  if idx =? 0 then Ok INVALID_PAGE_ID else Ok (value_at h (idx - 1) d).

(** The part of the page an array move reaches: the code does not check it. *)
Definition in_page (off len : Z) : bool := (0 <=? off) && (0 <=? len) && (off + len <=? PAGE_SIZE).
Definition memmove (dst src n : Z) (d : bytes) : bytes :=
  mem_write d (Z.to_nat dst) (mem_read d (Z.to_nat src) (Z.to_nat n)).

(** [insert_pairs]: [key] and [rid] are the memory at the pointers. *)
Definition insert_pairs (h : IxFileHdr) (pos : Z) (key rid : bytes) (n : Z) (d : bytes) : res bytes :=
  if (hd_num_key d <? pos) || (pos <? 0) then Throw (InternalError "IxNodeHandle::insert_pairs invalid pos") else
  let num := hd_num_key d - pos in
  let k_len := col_tot_len_ h in
  let r_len := Z.of_nat sizeof_Rid in
  if in_page (key_off h (pos + n)) (num * k_len) && in_page (key_off h pos) (n * k_len) &&
     in_page (rid_off h (pos + n)) (num * r_len) && in_page (rid_off h pos) (n * r_len) then
    let d := memmove (key_off h (pos + n)) (key_off h pos) (num * k_len) d in
    let d := mem_write d (Z.to_nat (key_off h pos)) (take (Z.to_nat (n * k_len)) key) in
    let d := memmove (rid_off h (pos + n)) (rid_off h pos) (num * r_len) d in
    let d := mem_write d (Z.to_nat (rid_off h pos)) (take (Z.to_nat (n * r_len)) rid) in
    Ok (set_size (i32 (hd_num_key d + n)) d)
  else Throw Stuck.
Definition insert_pair (h : IxFileHdr) (pos : Z) (key : bytes) (rid : Rid) (d : bytes) : res bytes :=
  insert_pairs h pos key (rid_bytes rid) 1 d.

(** [insert]: the node, and the number of its pairs after it; the comparison is made
    also at the end of the node. *)
Definition insert (h : IxFileHdr) (key : bytes) (value : Rid) (d : bytes) : res (bytes * Z) :=
  idx ← lower_bound h key d;
  flag ← compare h (get_key h idx d) key;
  if (idx =? hd_num_key d) || (0 <? flag) then
    d' ← insert_pair h idx key value d; Ok (d', hd_num_key d')
  else Ok (d, hd_num_key d).

Definition erase_pair (h : IxFileHdr) (idx : Z) (d : bytes) : res bytes :=
  if (idx <? 0) || (hd_num_key d <=? idx) then Throw (InternalError "IxNodeHandle::erase_pair invalid idx") else
  let num := hd_num_key d - idx - 1 in
  let k_len := col_tot_len_ h in
  let r_len := Z.of_nat sizeof_Rid in
  if in_page (key_off h (idx + 1)) (num * k_len) && in_page (key_off h idx) (num * k_len) &&
     in_page (rid_off h (idx + 1)) (num * r_len) && in_page (rid_off h idx) (num * r_len) then
    let d := memmove (key_off h idx) (key_off h (idx + 1)) (num * k_len) d in
    let d := memmove (rid_off h idx) (rid_off h (idx + 1)) (num * r_len) d in
    Ok (set_size (hd_num_key d - 1) d)
  else Throw Stuck.

Definition remove (h : IxFileHdr) (key d : bytes) : res (bytes * Z) :=
  idx ← lower_bound h key d;
  if negb (idx =? hd_num_key d) then
    c ← compare h (get_key h idx d) key;
    if c =? 0 then d' ← erase_pair h idx d; Ok (d', hd_num_key d') else Ok (d, hd_num_key d)
  else Ok (d, hd_num_key d).

Definition remove_and_return_only_child (h : IxFileHdr) (d : bytes) : res (bytes * Z) :=
  if hd_num_key d =? 1 then
    d' ← erase_pair h 0 d;
    if hd_num_key d' =? 0 then Ok (d', value_at h 0 d) else Throw AssertFailure
  else Throw AssertFailure.

(** [find_child]: the loop over the pairs, then the assertion that it was found. *)
Fixpoint find_from (fuel : nat) (h : IxFileHdr) (d : bytes) (page : Z) (i : Z) : Z :=
  match fuel with
  | O => i
  | S fuel' =>
      if i <? hd_num_key d then
        if value_at h i d =? page then i else find_from fuel' h d page (i + 1)
      else i
  end.
Definition find_child (h : IxFileHdr) (page : Z) (d : bytes) : res Z :=
  let i := find_from (Z.to_nat (hd_num_key d)) h d page 0 in
  if i <? hd_num_key d then Ok i else Throw AssertFailure.

(** ** Arrays in memory *)

(** The [i]-th cell of an array of cells of [w] bytes at [base]. *)
Definition cell (base w : nat) (m : bytes) (i : nat) : bytes := mem_read m (base + i * w) w.

(** Moving the cells from [p] on up by [n] and writing [new] in the gap. *)
Definition cells_insert (base w p n k : nat) (new m : bytes) : bytes :=
  mem_write (mem_write m (base + (p + n) * w) (mem_read m (base + p * w) (k * w))) (base + p * w) new.

Lemma cells_insert_ok base w p n k new m :
  (0 < w)%nat -> length new = (n * w)%nat -> (base + (p + n + k) * w <= length m)%nat ->
  let m' := cells_insert base w p n k new m in
  length m' = length m /\
  (forall i, (i < p)%nat -> cell base w m' i = cell base w m i) /\
  (forall i, (i < n)%nat -> cell base w m' (p + i) = mem_read new (i * w) w) /\
  (forall i, (i < k)%nat -> cell base w m' (p + n + i) = cell base w m (p + i)) /\
  (forall o j, (o + j <= base + p * w \/ base + (p + n + k) * w <= o)%nat -> mem_read m' o j = mem_read m o j).
Proof.
  intros Hw Hn Hl m'. set (b := mem_read m (base + p * w) (k * w)).
  assert (Hb : length b = (k * w)%nat) by (unfold b; rewrite length_mem_read; nia).
  assert (Hout : forall o j, (o + j <= base + p * w \/ base + (p + n + k) * w <= o)%nat ->
    mem_read m' o j = mem_read m o j).
  { intros o j Ho. unfold m', cells_insert. fold b.
    rewrite mem_read_write_disjoint by (rewrite Hn; nia). apply mem_read_write_disjoint. rewrite Hb. nia. }
  split_and!; [unfold m', cells_insert; by rewrite !length_mem_write| | | |exact Hout].
  - intros i Hi. apply Hout. left. nia.
  - intros i Hi. unfold cell, m', cells_insert. fold b. set (m1 := mem_write m _ b).
    transitivity (mem_read (mem_read (mem_write m1 (base + p * w) new) (base + p * w) (n * w)) (i * w) w).
    { rewrite mem_read_read by nia. f_equal. nia. }
    rewrite mem_read_write_same; [done|lia|]. unfold m1. rewrite length_mem_write. nia.
  - intros i Hi. unfold cell, m', cells_insert. fold b.
    rewrite mem_read_write_disjoint by (rewrite Hn; nia).
    transitivity (mem_read (mem_read (mem_write m (base + (p + n) * w) b) (base + (p + n) * w) (k * w)) (i * w) w).
    { rewrite mem_read_read by nia. f_equal. nia. }
    rewrite mem_read_write_same by (rewrite ?Hb; nia). unfold b. rewrite mem_read_read by nia. f_equal. nia.
Qed.

(** Moving the cells after [p] down by one. *)
Definition cells_erase (base w p k : nat) (m : bytes) : bytes :=
  mem_write m (base + p * w) (mem_read m (base + (p + 1) * w) (k * w)).

Lemma cells_erase_ok base w p k m :
  (0 < w)%nat -> (base + (p + 1 + k) * w <= length m)%nat ->
  let m' := cells_erase base w p k m in
  length m' = length m /\
  (forall i, (i < p)%nat -> cell base w m' i = cell base w m i) /\
  (forall i, (i < k)%nat -> cell base w m' (p + i) = cell base w m (p + 1 + i)) /\
  (forall o j, (o + j <= base + p * w \/ base + (p + k) * w <= o)%nat -> mem_read m' o j = mem_read m o j).
Proof.
  intros Hw Hl m'. set (b := mem_read m (base + (p + 1) * w) (k * w)).
  assert (Hb : length b = (k * w)%nat) by (unfold b; rewrite length_mem_read; nia).
  assert (Hout : forall o j, (o + j <= base + p * w \/ base + (p + k) * w <= o)%nat ->
    mem_read m' o j = mem_read m o j).
  { intros o j Ho. unfold m', cells_erase. fold b. apply mem_read_write_disjoint. rewrite Hb. nia. }
  split_and!; [unfold m', cells_erase; by rewrite length_mem_write| | |exact Hout].
  - intros i Hi. apply Hout. left. nia.
  - intros i Hi. unfold cell, m', cells_erase. fold b.
    transitivity (mem_read (mem_read (mem_write m (base + p * w) b) (base + p * w) (k * w)) (i * w) w).
    { rewrite mem_read_read by nia. f_equal. nia. }
    rewrite mem_read_write_same by (rewrite ?Hb; nia). unfold b. rewrite mem_read_read by nia. f_equal. nia.
Qed.

(** ** The pairs of a node *)

(** A header of the shape [create_index] makes. *)
Record ix_ok (h : IxFileHdr) : Prop := {
  xo_len : 1 <= col_tot_len_ h;
  xo_order : 3 <= btree_order_ h;
  xo_keys : keys_size_ h = (btree_order_ h + 1) * col_tot_len_ h;
  xo_fits : 28 + (btree_order_ h + 1) * (col_tot_len_ h + 8) <= PAGE_SIZE;
  xo_lens : Z.of_nat (cols_len (col_lens_ h)) = col_tot_len_ h;
}.

Definition klen (h : IxFileHdr) : nat := Z.to_nat (col_tot_len_ h).
Definition size (d : bytes) : nat := Z.to_nat (hd_num_key d).
Definition key_at (h : IxFileHdr) (d : bytes) (i : nat) : bytes := cell keys_off (klen h) d i.
Definition rid_at (h : IxFileHdr) (d : bytes) (i : nat) : bytes :=
  cell (keys_off + Z.to_nat (keys_size_ h)) sizeof_Rid d i.
Definition keys (h : IxFileHdr) (d : bytes) : list bytes := key_at h d <$> seq 0 (size d).
Definition rids (h : IxFileHdr) (d : bytes) : list Rid := (fun i => load_rid (rid_at h d i) 0) <$> seq 0 (size d).
Definition pairs (h : IxFileHdr) (d : bytes) : list (bytes * Rid) := zip (keys h d) (rids h d).

(** A page whose pairs fit, with the one more that may be inserted before a split. *)
Record node_ok (h : IxFileHdr) (d : bytes) : Prop := {
  no_length : length d = page_size;
  no_size : 0 <= hd_num_key d <= btree_order_ h + 1;
}.

(** Cells that agree with a list. *)
Lemma fmap_seq_insert {A} (f f' : nat -> A) p n k (new : nat -> A) :
  (forall i, (i < p)%nat -> f' i = f i) -> (forall i, (i < n)%nat -> f' (p + i)%nat = new i) ->
  (forall i, (i < k)%nat -> f' (p + n + i)%nat = f (p + i)%nat) ->
  f' <$> seq 0 (p + n + k) = take p (f <$> seq 0 (p + k)) ++ (new <$> seq 0 n) ++ drop p (f <$> seq 0 (p + k)).
Proof.
  intros Q1 Q2 Q3. apply list_eq. intros i. rewrite list_lookup_fmap.
  destruct (decide (i < p)%nat) as [Hp|Hp].
  - rewrite lookup_seq_lt, lookup_app_l by (rewrite ?length_take, ?length_fmap, ?length_seq; lia).
    rewrite lookup_take_lt, list_lookup_fmap, lookup_seq_lt by lia. simpl. by rewrite Q1.
  - rewrite lookup_app_r by (rewrite length_take; lia).
    rewrite length_take, length_fmap, length_seq, Nat.min_l by lia.
    destruct (decide (i - p < n)%nat) as [Hn|Hn].
    + rewrite lookup_seq_lt, lookup_app_l by (rewrite ?length_fmap, ?length_seq; lia).
      rewrite list_lookup_fmap, lookup_seq_lt by lia. simpl. rewrite <- Q2 by lia. do 2 f_equal. lia.
    + rewrite lookup_app_r by (rewrite length_fmap, length_seq; lia). rewrite length_fmap, length_seq, lookup_drop.
      rewrite list_lookup_fmap. destruct (decide (i < p + n + k)%nat) as [Hk|Hk].
      * rewrite !lookup_seq_lt by lia. simpl. replace (p + (i - p - n))%nat with (i - n)%nat by lia.
        replace i with (p + n + (i - p - n))%nat at 1 by lia. rewrite Q3 by lia. do 2 f_equal. lia.
      * rewrite !lookup_seq_ge by lia. done.
Qed.

Lemma fmap_seq_erase {A} (f f' : nat -> A) p k :
  (forall i, (i < p)%nat -> f' i = f i) -> (forall i, (i < k)%nat -> f' (p + i)%nat = f (p + 1 + i)%nat) ->
  f' <$> seq 0 (p + k) = delete p (f <$> seq 0 (p + 1 + k)).
Proof.
  intros Q1 Q2. apply list_eq. intros i. rewrite list_lookup_fmap.
  destruct (decide (i < p)%nat) as [Hp|Hp].
  - rewrite list_lookup_delete_lt, list_lookup_fmap, !lookup_seq_lt by lia. simpl. by rewrite Q1.
  - rewrite list_lookup_delete_ge, list_lookup_fmap by lia. destruct (decide (i < p + k)%nat) as [Hk|Hk].
    + rewrite !lookup_seq_lt by lia. simpl. replace i with (p + (i - p))%nat at 1 by lia.
      rewrite Q2 by lia. do 2 f_equal. lia.
    + by rewrite !lookup_seq_ge by lia.
Qed.

Section node.
Context (h : IxFileHdr) (Hh : ix_ok h).

Lemma key_off_nat i : Z.to_nat (key_off h (Z.of_nat i)) = (keys_off + i * klen h)%nat.
Proof. destruct Hh. unfold key_off, klen. nia. Qed.

Lemma rid_off_nat i : Z.to_nat (rid_off h (Z.of_nat i)) = (keys_off + Z.to_nat (keys_size_ h) + i * sizeof_Rid)%nat.
Proof. destruct Hh as [Q1 Q2 Q3 Q4 Q5]. unfold rid_off. rewrite Q3. nia. Qed.

Lemma keys_end : (keys_off + (Z.to_nat (btree_order_ h) + 1) * klen h = keys_off + Z.to_nat (keys_size_ h))%nat.
Proof. destruct Hh as [Q1 Q2 Q3 Q4 Q5]. rewrite Q3. unfold klen. nia. Qed.

Lemma rids_end : (keys_off + Z.to_nat (keys_size_ h) + (Z.to_nat (btree_order_ h) + 1) * sizeof_Rid <= page_size)%nat.
Proof.
  destruct Hh as [Q1 Q2 Q3 Q4 Q5]. rewrite Q3. pose proof page_size_Z. unfold sizeof_Rid.
  change keys_off with 28%nat. nia.
Qed.

(** Two pages that agree outside their arrays and sizes. *)
Definition same_header (d d' : bytes) : Prop :=
  hd_next_free d' = hd_next_free d /\ hd_parent d' = hd_parent d /\ hd_is_leaf d' = hd_is_leaf d /\
  hd_prev_leaf d' = hd_prev_leaf d /\ hd_next_leaf d' = hd_next_leaf d.

Lemma same_header_of d d' :
  (forall o j, (o + j <= 12)%nat \/ (16 <= o /\ o + j <= 28)%nat -> mem_read d' o j = mem_read d o j) ->
  same_header d d'.
Proof.
  intros Hr. unfold same_header, hd_next_free, hd_parent, hd_is_leaf, hd_prev_leaf, hd_next_leaf, load_i32.
  unfold OFFSET_NODE. split_and!; rewrite Hr by lia; done.
Qed.

Lemma set_size_read z d o j : (o + j <= 12 \/ 16 <= o)%nat -> mem_read (set_size z d) o j = mem_read d o j.
Proof.
  intros Ho. unfold set_size, store_32. apply mem_read_write_disjoint. rewrite length_le_encode.
  unfold OFFSET_NODE. lia.
Qed.

Lemma hd_num_key_set z d : (16 <= length d)%nat -> in_i32 z -> hd_num_key (set_size z d) = z.
Proof. intros Hl Hz. apply load_store_i32; [unfold OFFSET_NODE; lia|done]. Qed.

Lemma hd_num_key_eq d d' : (forall o j, (o + j <= 28)%nat -> mem_read d' o j = mem_read d o j) ->
  hd_num_key d' = hd_num_key d.
Proof. intros Hr. unfold hd_num_key, load_i32. do 2 f_equal. apply Hr. unfold OFFSET_NODE. lia. Qed.

Lemma order_small : btree_order_ h + 1 < 4096.
Proof. destruct Hh as [Q1 Q2 Q3 Q4 Q5]. unfold PAGE_SIZE in Q4. nia. Qed.

Lemma length_keys d : length (keys h d) = size d.
Proof. unfold keys. by rewrite length_fmap, length_seq. Qed.
Lemma length_rids d : length (rids h d) = size d.
Proof. unfold rids. by rewrite length_fmap, length_seq. Qed.

(** The arrays after an insertion of [n] pairs at [p]. *)
Lemma insert_pairs_ok p n key rid d :
  node_ok h d -> (p <= size d)%nat -> (size d + n <= Z.to_nat (btree_order_ h) + 1)%nat ->
  (n * klen h <= length key)%nat -> (n * sizeof_Rid <= length rid)%nat ->
  exists d', insert_pairs h (Z.of_nat p) key rid (Z.of_nat n) d = Ok d' /\ node_ok h d' /\
    hd_num_key d' = hd_num_key d + Z.of_nat n /\ same_header d d' /\
    keys h d' = take p (keys h d) ++ ((fun i => mem_read key (i * klen h) (klen h)) <$> seq 0 n) ++ drop p (keys h d) /\
    rids h d' = take p (rids h d) ++ ((fun i => load_rid rid (i * sizeof_Rid)) <$> seq 0 n) ++ drop p (rids h d).
Proof.
  intros [Hl Hs] Hp Hn Hk Hr. set (k := (size d - p)%nat). pose proof order_small as Hos.
  assert (Hnum : hd_num_key d = Z.of_nat (p + k)) by (unfold k, size in *; lia).
  pose proof rids_end as Hend. pose proof keys_end as Hke. pose proof page_size_Z as Hps. unfold PAGE_SIZE in *.
  pose proof (xo_len _ Hh) as Hlen. pose proof (xo_order _ Hh) as Hord.
  assert (Hkl : (0 < klen h)%nat) by (unfold klen; lia).
  assert (Hkz : col_tot_len_ h = Z.of_nat (klen h)) by (unfold klen; lia).
  set (o := (Z.to_nat (btree_order_ h))%nat) in *. change keys_off with 28%nat in *. unfold sizeof_Rid in *.
  set (ks := Z.to_nat (keys_size_ h)) in *.
  assert (Hsz : (p + n + k <= o + 1)%nat) by (unfold k in *; lia).
  set (newk := take (n * klen h) key). set (newr := take (n * 8) rid).
  assert (Hkfit : (28 + (p + n + k) * klen h <= 28 + ks)%nat) by nia.
  set (d1 := cells_insert 28 (klen h) p n k newk d).
  destruct (cells_insert_ok 28 (klen h) p n k newk d Hkl) as (L1 & K1 & K2 & K3 & K4);
    [unfold newk; rewrite length_take; lia|lia|]. fold d1 in L1, K1, K2, K3, K4.
  set (d2 := cells_insert (28 + ks) 8 p n k newr d1).
  destruct (cells_insert_ok (28 + ks) 8 p n k newr d1 ltac:(lia)) as (L2 & R1 & R2 & R3 & R4);
    [unfold newr; rewrite length_take; lia|lia|]. fold d2 in L2, R1, R2, R3, R4.
  set (d' := set_size (Z.of_nat (p + n + k)) d2). exists d'.
  assert (Hd2 : hd_num_key d2 = hd_num_key d).
  { rewrite (hd_num_key_eq d1 d2), (hd_num_key_eq d d1); [done| |]; intros; [apply K4|apply R4]; lia. }
  assert (Hl' : length d' = page_size) by (unfold d', set_size; rewrite length_store_32; lia).
  assert (Hnk : hd_num_key d' = Z.of_nat (p + n + k))
    by (apply hd_num_key_set; [lia|unfold in_i32; lia]).
  assert (Hcell : forall i, (i < p + n + k)%nat ->
    key_at h d' i = cell 28 (klen h) d1 i /\ rid_at h d' i = cell (28 + ks) 8 d2 i).
  { intros i Hi. unfold key_at, rid_at, cell. change keys_off with 28%nat. fold ks. unfold sizeof_Rid, d'.
    rewrite !set_size_read by lia. split; [|done]. apply R4. left. nia. }
  split_and!.
  - unfold insert_pairs. rewrite Hnum.
    replace ((Z.of_nat (p + k) <? Z.of_nat p) || (Z.of_nat p <? 0)) with false
      by (symmetry; apply orb_false_iff; split; apply Z.ltb_ge; lia).
    replace (in_page _ _ && _ && _ && _) with true.
    2: { symmetry. unfold in_page, key_off, rid_off, PAGE_SIZE, sizeof_Rid. change keys_off with 28%nat.
         rewrite !andb_true_iff, !Z.leb_le, Hkz. repeat split; nia. }
    unfold memmove. rewrite <- !Nat2Z.inj_add. rewrite !key_off_nat, !rid_off_nat. change keys_off with 28%nat. fold ks.
    rewrite Hkz. unfold sizeof_Rid.
    replace (Z.of_nat (p + k) - Z.of_nat p) with (Z.of_nat k) by lia.
    rewrite <- !Nat2Z.inj_mul, !Nat2Z.id.
    fold newk newr. fold (cells_insert 28 (klen h) p n k newk d). fold d1.
    fold (cells_insert (28 + ks) 8 p n k newr d1). fold d2. rewrite Hd2, Hnum.
    unfold d'. do 2 f_equal. rewrite i32_small by (unfold in_i32; lia). lia.
  - split; [done|]. lia.
  - lia.
  - apply same_header_of. intros o' j Ho. unfold d'. rewrite set_size_read by lia.
    rewrite R4 by lia. apply K4. lia.
  - unfold keys, size. rewrite Hnk, Hnum, !Nat2Z.id.
    apply (fmap_seq_insert _ (key_at h d') p n k).
    + intros i Hi. rewrite (proj1 (Hcell i ltac:(lia))). by apply K1.
    + intros i Hi. rewrite (proj1 (Hcell (p + i)%nat ltac:(lia))), K2 by lia. unfold newk, mem_read.
      rewrite skipn_firstn_comm, take_take. f_equal. nia.
    + intros i Hi. rewrite (proj1 (Hcell (p + n + i)%nat ltac:(lia))). by apply K3.
  - unfold rids, size. rewrite Hnk, Hnum, !Nat2Z.id.
    apply (fmap_seq_insert _ (fun i => load_rid (rid_at h d' i) 0) p n k).
    + intros i Hi. rewrite (proj2 (Hcell i ltac:(lia))), R1 by lia. unfold rid_at, cell.
      rewrite K4 by nia. done.
    + intros i Hi. rewrite (proj2 (Hcell (p + i)%nat ltac:(lia))), R2 by lia. unfold load_rid, load_i32, newr.
      unfold mem_read. rewrite !skipn_firstn_comm, !take_take, !drop_drop, !Nat.add_0_r.
      do 3 f_equal; do 2 f_equal; lia.
    + intros i Hi. rewrite (proj2 (Hcell (p + n + i)%nat ltac:(lia))), R3 by lia. unfold rid_at, cell.
      rewrite K4 by nia. done.
Qed.
(** The arrays after the pair at [p] is erased. *)
Lemma erase_pair_ok p d :
  node_ok h d -> (p < size d)%nat ->
  exists d', erase_pair h (Z.of_nat p) d = Ok d' /\ node_ok h d' /\
    hd_num_key d' = hd_num_key d - 1 /\ same_header d d' /\
    keys h d' = delete p (keys h d) /\ rids h d' = delete p (rids h d).
Proof.
  intros [Hl Hs] Hp. set (k := (size d - p - 1)%nat). pose proof order_small as Hos.
  assert (Hnum : hd_num_key d = Z.of_nat (p + 1 + k)) by (unfold k, size in *; lia).
  pose proof rids_end as Hend. pose proof keys_end as Hke. pose proof page_size_Z as Hps. unfold PAGE_SIZE in *.
  pose proof (xo_len _ Hh) as Hlen. pose proof (xo_order _ Hh) as Hord.
  assert (Hkl : (0 < klen h)%nat) by (unfold klen; lia).
  assert (Hkz : col_tot_len_ h = Z.of_nat (klen h)) by (unfold klen; lia).
  set (o := (Z.to_nat (btree_order_ h))%nat) in *. change keys_off with 28%nat in *. unfold sizeof_Rid in *.
  set (ks := Z.to_nat (keys_size_ h)) in *.
  assert (Hsz : (p + 1 + k <= o + 1)%nat) by lia.
  assert (Hkfit : (28 + (p + 1 + k) * klen h <= 28 + ks)%nat) by nia.
  set (d1 := cells_erase 28 (klen h) p k d).
  destruct (cells_erase_ok 28 (klen h) p k d Hkl) as (L1 & K1 & K2 & K4); [lia|]. fold d1 in L1, K1, K2, K4.
  set (d2 := cells_erase (28 + ks) 8 p k d1).
  destruct (cells_erase_ok (28 + ks) 8 p k d1 ltac:(lia)) as (L2 & R1 & R2 & R4); [lia|]. fold d2 in L2, R1, R2, R4.
  set (d' := set_size (Z.of_nat (p + k)) d2). exists d'.
  assert (Hd2 : hd_num_key d2 = hd_num_key d).
  { rewrite (hd_num_key_eq d1 d2), (hd_num_key_eq d d1); [done| |]; intros; [apply K4|apply R4]; lia. }
  assert (Hl' : length d' = page_size) by (unfold d', set_size; rewrite length_store_32; lia).
  assert (Hnk : hd_num_key d' = Z.of_nat (p + k))
    by (apply hd_num_key_set; [lia|unfold in_i32; lia]).
  assert (Hcell : forall i, (i < p + 1 + k)%nat ->
    key_at h d' i = cell 28 (klen h) d1 i /\ rid_at h d' i = cell (28 + ks) 8 d2 i).
  { intros i Hi. unfold key_at, rid_at, cell. change keys_off with 28%nat. fold ks. unfold sizeof_Rid, d'.
    rewrite !set_size_read by lia. split; [|done]. apply R4. left. nia. }
  split_and!.
  - unfold erase_pair. rewrite Hnum.
    replace ((Z.of_nat p <? 0) || (Z.of_nat (p + 1 + k) <=? Z.of_nat p)) with false
      by (symmetry; apply orb_false_iff; split; [apply Z.ltb_ge|apply Z.leb_gt]; lia).
    replace (in_page _ _ && _ && _ && _) with true.
    2: { symmetry. unfold in_page, key_off, rid_off, PAGE_SIZE, sizeof_Rid. change keys_off with 28%nat.
         rewrite !andb_true_iff, !Z.leb_le, Hkz. repeat split; nia. }
    unfold memmove. replace (Z.of_nat p + 1) with (Z.of_nat (p + 1)) by lia.
    rewrite !key_off_nat, !rid_off_nat. change keys_off with 28%nat. fold ks. rewrite Hkz. unfold sizeof_Rid.
    replace (Z.of_nat (p + 1 + k) - Z.of_nat p - 1) with (Z.of_nat k) by lia.
    rewrite <- !Nat2Z.inj_mul, !Nat2Z.id.
    fold (cells_erase 28 (klen h) p k d). fold d1. fold (cells_erase (28 + ks) 8 p k d1). fold d2.
    rewrite Hd2, Hnum. unfold d'. do 2 f_equal. lia.
  - split; [done|]. lia.
  - lia.
  - apply same_header_of. intros o' j Ho. unfold d'. rewrite set_size_read by lia.
    rewrite R4 by lia. apply K4. lia.
  - unfold keys, size. rewrite Hnk, Hnum, !Nat2Z.id.
    apply (fmap_seq_erase _ (key_at h d') p k).
    + intros i Hi. rewrite (proj1 (Hcell i ltac:(lia))). by apply K1.
    + intros i Hi. rewrite (proj1 (Hcell (p + i)%nat ltac:(lia))), K2 by lia. done.
  - unfold rids, size. rewrite Hnk, Hnum, !Nat2Z.id.
    apply (fmap_seq_erase _ (fun i => load_rid (rid_at h d' i) 0) p k).
    + intros i Hi. rewrite (proj2 (Hcell i ltac:(lia))), R1 by lia. unfold rid_at, cell.
      rewrite K4 by nia. done.
    + intros i Hi. rewrite (proj2 (Hcell (p + i)%nat ltac:(lia))), R2 by lia. unfold rid_at, cell.
      rewrite K4 by nia. done.
Qed.

(** *** Searching *)

(** The rank of a key under the columns of the index. *)
Definition krank (k : bytes) : list Z := rank (col_types_ h) (col_lens_ h) k.
Definition good_key (k : bytes) : Prop := key_ok (col_types_ h) (col_lens_ h) k.
Definition key_lt (a b : bytes) : Prop := lex (krank a) (krank b) < 0.

(** The keys of the node are in strictly ascending order. *)
Record sorted (d : bytes) : Prop := {
  so_keys : Forall good_key (keys h d);
  so_sorted : StronglySorted key_lt (keys h d);
}.

Lemma lookup_keys d i : (i < size d)%nat -> keys h d !! i = Some (key_at h d i).
Proof. intros Hi. unfold keys. by rewrite list_lookup_fmap, lookup_seq_lt. Qed.

Lemma get_key_split d i : length d = page_size -> (i < Z.to_nat (btree_order_ h) + 1)%nat ->
  exists r, get_key h (Z.of_nat i) d = key_at h d i ++ r.
Proof.
  intros Hl Hi. unfold get_key, key_at, cell, mem_read. rewrite key_off_nat.
  eexists. symmetry. apply take_drop.
Qed.

Lemma compare_good d i k :
  node_ok h d -> good_key (key_at h d i) -> good_key k -> (i < size d)%nat ->
  compare h (get_key h (Z.of_nat i) d) k = Ok (lex (krank (key_at h d i)) (krank k)).
Proof.
  intros [Hl Hs] Ha Hk Hi. destruct (get_key_split d i Hl) as [r ->]; [unfold size in Hi; lia|].
  destruct (rank_app _ _ _ r Ha) as [Hr Ho]. unfold compare. rewrite compare_rank by done.
  unfold krank. by rewrite Hr.
Qed.
Lemma compare_key d i k :
  node_ok h d -> sorted d -> good_key k -> (i < size d)%nat ->
  compare h (get_key h (Z.of_nat i) d) k = Ok (lex (krank (key_at h d i)) (krank k)).
Proof.
  intros Hd [Hg _] Hk Hi. apply compare_good; [done| |done..]. eapply Forall_lookup_1; [done|by apply lookup_keys].
Qed.

(** The sequential search the binary searches are equivalent to. *)
Fixpoint count_while (p : bytes -> bool) (l : list bytes) : nat :=
  match l with
  | [] => O
  | k :: l' => if p k then S (count_while p l') else O
  end.
Definition first_ge (k : bytes) (l : list bytes) : nat := count_while (fun a => lex (krank a) (krank k) <? 0) l.
Definition first_gt (k : bytes) (l : list bytes) : nat := count_while (fun a => lex (krank a) (krank k) <=? 0) l.

Lemma count_while_le p l : (count_while p l <= length l)%nat.
Proof. induction l as [|a l IH]; simpl; [lia|]. destruct (p a); lia. Qed.

Lemma count_while_spec p l :
  StronglySorted key_lt l -> (forall a b, key_lt a b -> p b = true -> p a = true) ->
  forall i a, l !! i = Some a -> (p a = true <-> (i < count_while p l)%nat).
Proof.
  intros Hs Hp. induction Hs as [|x l Hs IH Hx]; intros i a Hi; [done|]. simpl.
  destruct (p x) eqn:Ex.
  - destruct i as [|i]; simpl in Hi; [injection Hi as <-; split; [lia|done]|]. rewrite (IH i a Hi). lia.
  - split; [|lia]. intros Ha. destruct i as [|i]; simpl in Hi; [congruence|].
    rewrite Forall_lookup in Hx. rewrite (Hp x a) in Ex; [done|by eapply Hx|done].
Qed.

Lemma lt_mono k a b : key_lt a b -> (lex (krank b) (krank k) <? 0) = true -> (lex (krank a) (krank k) <? 0) = true.
Proof.
  unfold key_lt. rewrite !Z.ltb_lt. intros Q1 Q2. eapply lex_trans; [apply Z.lt_le_incl, Q1|apply Z.lt_le_incl, Q2|auto].
Qed.
Lemma le_mono k a b : key_lt a b -> (lex (krank b) (krank k) <=? 0) = true -> (lex (krank a) (krank k) <=? 0) = true.
Proof.
  unfold key_lt. rewrite !Z.leb_le. intros Q1 Q2. eapply lex_trans; [apply Z.lt_le_incl, Q1|apply Q2].
Qed.

Section search.
Context (d k : bytes) (Hd : node_ok h d) (Hs : sorted d) (Hk : good_key k).

Lemma lower_loop_ok fuel : forall l r,
  (l <= first_ge k (keys h d) <= r)%nat -> (r <= size d)%nat -> (r - l <= fuel)%nat ->
  lower_loop fuel h k d (Z.of_nat l) (Z.of_nat r) = Ok (Z.of_nat (first_ge k (keys h d))).
Proof.
  induction fuel as [|fuel IH]; intros l r Hc Hr Hf; cbn [lower_loop];
    destruct (Z.ltb_spec (Z.of_nat l) (Z.of_nat r)) as [Hlr|Hlr]; try lia; try (f_equal; lia).
  set (m := Nat.div2 (l + r)).
  assert (Hm : Z.shiftr (Z.of_nat l + Z.of_nat r) 1 = Z.of_nat m).
  { unfold m. rewrite Z.shiftr_div_pow2, Nat.div2_div, <- Nat2Z.inj_add by lia.
    rewrite Nat2Z.inj_div. done. }
  assert (Hmb : (l <= m < r)%nat).
  { unfold m. rewrite Nat.div2_div. pose proof (Nat.div_mod (l + r) 2). pose proof (Nat.mod_upper_bound (l + r) 2). lia. }
  rewrite Hm, compare_key by (done || lia). cbv [mbind res_bind].
  pose proof (count_while_spec _ _ (so_sorted _ Hs) (lt_mono k) m _ (lookup_keys d m ltac:(lia))) as Hw.
  fold (first_ge k (keys h d)) in Hw.
  destruct (lex (krank (key_at h d m)) (krank k) <? 0).
  - replace (Z.of_nat m + 1) with (Z.of_nat (S m)) by lia. apply IH; lia.
  - apply IH; lia.
Qed.

Lemma lower_bound_eq : lower_bound h k d = Ok (Z.of_nat (first_ge k (keys h d))).
Proof.
  destruct Hd as [_ Hb]. unfold lower_bound. replace (hd_num_key d) with (Z.of_nat (size d)) by (unfold size; lia).
  pose proof (count_while_le (fun a => lex (krank a) (krank k) <? 0) (keys h d)) as Hc.
  rewrite length_keys in Hc. fold (first_ge k (keys h d)) in Hc.
  rewrite Nat2Z.id. apply (lower_loop_ok _ 0); lia.
Qed.
End search.

(** The search for the child of a key does not look at the first key of the node. *)
Section child.
Context (d k : bytes) (Hd : node_ok h d) (Hk : good_key k).
Context (Hg : Forall good_key (tail (keys h d))) (Hs : StronglySorted key_lt (tail (keys h d))).

Lemma lookup_tail_keys i : (S i < size d)%nat -> tail (keys h d) !! i = Some (key_at h d (S i)).
Proof. intros Hi. rewrite lookup_tail. by apply lookup_keys. Qed.

Lemma upper_loop_ok fuel : forall l r,
  (1 <= l)%nat -> (l <= S (first_gt k (tail (keys h d))) <= r)%nat -> (r <= size d)%nat -> (r - l <= fuel)%nat ->
  upper_loop fuel h k d (Z.of_nat l) (Z.of_nat r) = Ok (Z.of_nat (S (first_gt k (tail (keys h d))))).
Proof.
  induction fuel as [|fuel IH]; intros l r H1 Hc Hr Hf; cbn [upper_loop];
    destruct (Z.ltb_spec (Z.of_nat l) (Z.of_nat r)) as [Hlr|Hlr]; try lia; try (f_equal; lia).
  set (m := Nat.div2 (l + r)).
  assert (Hm : Z.shiftr (Z.of_nat l + Z.of_nat r) 1 = Z.of_nat m).
  { unfold m. rewrite Z.shiftr_div_pow2, Nat.div2_div, <- Nat2Z.inj_add by lia.
    rewrite Nat2Z.inj_div. done. }
  assert (Hmb : (l <= m < r)%nat).
  { unfold m. rewrite Nat.div2_div. pose proof (Nat.div_mod (l + r) 2). pose proof (Nat.mod_upper_bound (l + r) 2). lia. }
  destruct m as [|m]; [lia|]. pose proof (lookup_tail_keys m ltac:(lia)) as Hmk.
  rewrite Hm, compare_good by (done || lia || (by eapply (proj1 (Forall_lookup _ _) Hg))). cbv [mbind res_bind].
  pose proof (count_while_spec _ _ Hs (le_mono k) m _ Hmk) as Hw.
  fold (first_gt k (tail (keys h d))) in Hw. rewrite Z.leb_le in Hw.
  destruct (Z.ltb_spec 0 (lex (krank (key_at h d (S m))) (krank k))) as [Hx|Hx].
  - apply IH; lia.
  - replace (Z.of_nat (S m) + 1) with (Z.of_nat (S (S m))) by lia. apply IH; lia.
Qed.

Lemma upper_bound_tail : upper_bound h k d = Ok (Z.of_nat (S (first_gt k (tail (keys h d))))).
Proof.
  destruct Hd as [_ Hb]. unfold upper_bound. replace (hd_num_key d) with (Z.of_nat (size d)) by (unfold size; lia).
  pose proof (count_while_le (fun a => lex (krank a) (krank k) <=? 0) (tail (keys h d))) as Hc.
  fold (first_gt k (tail (keys h d))) in Hc. 
  assert (length (tail (keys h d)) = size d - 1)%nat as Ht by (rewrite <- length_keys; destruct (keys h d); cbn; lia).
  rewrite Ht in Hc. rewrite Nat2Z.id.
  destruct (decide (size d = 0)%nat) as [E|E].
  - replace (first_gt k (tail (keys h d))) with 0%nat by lia. rewrite E. done.
  - apply (upper_loop_ok _ 1); lia.
Qed.
End child.

Lemma first_gt_tail k ks : StronglySorted key_lt ks -> Nat.max 1 (first_gt k ks) = S (first_gt k (tail ks)).
Proof.
  intros Hs. destruct Hs as [|a ks Hs Ha]; [done|]. cbn [tail]. unfold first_gt at 1. cbn [count_while].
  destruct (lex (krank a) (krank k) <=? 0) eqn:E; [unfold first_gt; lia|]. destruct Hs as [|b ks Hs Hb]; [done|].
  unfold first_gt. cbn [count_while]. apply Forall_cons in Ha as [Ha _].
  destruct (lex (krank b) (krank k) <=? 0) eqn:E2; [|done]. rewrite (le_mono k a b Ha E2) in E. done.
Qed.
Lemma upper_bound_eq d k : node_ok h d -> sorted d -> good_key k ->
  upper_bound h k d = Ok (Z.of_nat (Nat.max 1 (first_gt k (keys h d)))).
Proof.
  intros Hd [Hg Hs] Hk. rewrite first_gt_tail by done. apply upper_bound_tail; [done..| |].
  - destruct (keys h d); [done|]. by inversion Hg.
  - destruct (keys h d); [done|]. by inversion Hs.
Qed.

(** *** A node as a map *)

(** The pairs of two parallel arrays, by the rank of the key. *)
Definition assoc (ks : list bytes) (rs : list Rid) : gmap (list Z) Rid := list_to_map (zip (krank <$> ks) rs).
Definition contents (d : bytes) : gmap (list Z) Rid := assoc (keys h d) (rids h d).

Lemma sorted_NoDup ks : StronglySorted key_lt ks -> NoDup (krank <$> ks).
Proof.
  induction 1 as [|k ks Hs IH Hk]; [constructor|]. rewrite fmap_cons. constructor; [|done].
  rewrite list_elem_of_fmap. intros (k' & E & Hin). rewrite Forall_forall in Hk.
  specialize (Hk k' Hin). unfold key_lt in Hk. rewrite E, lex_refl in Hk. lia.
Qed.

Lemma assoc_fst (ks : list bytes) (rs : list Rid) : length ks = length rs -> (zip (krank <$> ks) rs).*1 = krank <$> ks.
Proof. intros Hl. apply fst_zip. rewrite length_fmap. lia. Qed.

Lemma assoc_lookup ks rs i k v :
  length ks = length rs -> NoDup (krank <$> ks) -> ks !! i = Some k -> rs !! i = Some v ->
  assoc ks rs !! krank k = Some v.
Proof.
  intros Hl Hn Hk Hv. apply elem_of_list_to_map_1; [by rewrite assoc_fst|].
  apply list_elem_of_lookup. exists i. rewrite lookup_zip_with, list_lookup_fmap, Hk. simpl. by rewrite Hv.
Qed.

Lemma assoc_None ks rs r : length ks = length rs -> r ∉ krank <$> ks -> assoc ks rs !! r = None.
Proof. intros Hl Hr. apply not_elem_of_list_to_map_1. by rewrite assoc_fst. Qed.

Lemma assoc_insert ks rs c k v :
  length ks = length rs -> NoDup (krank <$> ks) -> krank k ∉ krank <$> ks ->
  assoc (take c ks ++ [k] ++ drop c ks) (take c rs ++ [v] ++ drop c rs) = <[krank k := v]> (assoc ks rs).
Proof.
  intros Hl Hn Hk. unfold assoc. rewrite !fmap_app, zip_with_app by (rewrite length_fmap, !length_take; lia).
  rewrite zip_with_app by done.
  transitivity (list_to_map ((krank k, v) :: zip (krank <$> ks) rs) : gmap (list Z) Rid); [|done].
  symmetry. apply list_to_map_proper.
  { rewrite fmap_cons, assoc_fst by done. by constructor. }
  rewrite <- (take_drop c ks) at 1. rewrite <- (take_drop c rs) at 1. rewrite fmap_app.
  rewrite zip_with_app by (rewrite length_fmap, !length_take; lia).
  change (zip (krank <$> [k]) [v]) with [(krank k, v)]. apply Permutation_middle.
Qed.

Lemma delete_app {A} (l : list A) i : delete i l = take i l ++ drop (S i) l.
Proof. apply delete_take_drop. Qed.

Lemma assoc_delete ks rs i k :
  length ks = length rs -> NoDup (krank <$> ks) -> ks !! i = Some k ->
  assoc (delete i ks) (delete i rs) = delete (krank k) (assoc ks rs).
Proof.
  intros Hl Hn Hk. pose proof (lookup_lt_Some _ _ _ Hk) as Hi.
  destruct (lookup_lt_is_Some_2 rs i ltac:(lia)) as [v Hv].
  assert (Hlt : length (take i ks) = i) by (rewrite length_take; lia).
  assert (Hlr : length (take i rs) = i) by (rewrite length_take; lia).
  assert (Hn2 : NoDup (krank <$> delete i ks) /\ krank k ∉ krank <$> delete i ks).
  { rewrite <- (take_drop_middle _ _ _ Hk) in Hn. rewrite fmap_app, fmap_cons in Hn.
    rewrite delete_app, fmap_app. rewrite <- Permutation_middle, NoDup_cons in Hn. tauto. }
  assert (Hd : assoc ks rs = <[krank k := v]> (assoc (delete i ks) (delete i rs))).
  { rewrite <- (assoc_insert _ _ i) by (rewrite ?length_delete by eauto; tauto || lia).
    rewrite !delete_app, !take_app_le, !take_take, !Nat.min_id by lia.
    rewrite !drop_app_length' by done. f_equal; symmetry; by apply take_drop_middle. }
  rewrite Hd, delete_insert_id; [done|]. apply assoc_None; [|tauto]. rewrite !length_delete; [lia|eauto..].
Qed.

Lemma sorted_delete ks i : StronglySorted key_lt ks -> StronglySorted key_lt (delete i ks).
Proof.
  intros Hs. destruct (decide (i < length ks)%nat) as [Hi|Hi].
  - destruct (lookup_lt_is_Some_2 _ _ Hi) as [k Hk]. rewrite delete_app.
    rewrite <- (take_drop_middle _ _ _ Hk) in Hs. apply StronglySorted_app in Hs as (Q1 & Q2 & Q3).
    apply StronglySorted_app_2; [|done|by inversion Q3].
    intros a b Ha Hb. apply Q1; [done|]. by right.
  - rewrite delete_app, take_ge, drop_ge, app_nil_r by lia. done.
Qed.

Lemma first_ge_split k ks :
  StronglySorted key_lt ks ->
  (forall a, a ∈ take (first_ge k ks) ks -> key_lt a k) /\
  (forall a, a ∈ drop (first_ge k ks) ks -> 0 <= lex (krank a) (krank k)).
Proof.
  intros Hs. pose proof (count_while_spec _ _ Hs (lt_mono k)) as Hc. fold (first_ge k ks) in Hc.
  split; intros a Ha; apply list_elem_of_lookup in Ha as [i Hi].
  - apply lookup_take_Some in Hi as [Hi Hlt]. apply Z.ltb_lt. by apply (Hc i a Hi).
  - rewrite lookup_drop in Hi. apply Z.ltb_ge. destruct (_ <? 0) eqn:E; [|done].
    apply (Hc _ a Hi) in E. lia.
Qed.

Lemma sorted_insert k k' ks :
  StronglySorted key_lt ks -> krank k' = krank k -> krank k ∉ krank <$> ks ->
  StronglySorted key_lt (take (first_ge k ks) ks ++ [k'] ++ drop (first_ge k ks) ks).
Proof.
  intros Hs Hk Hn. destruct (first_ge_split k ks Hs) as [Hlo Hhi].
  rewrite <- (take_drop (first_ge k ks) ks) in Hs. apply StronglySorted_app in Hs as (Q1 & Q2 & Q3).
  assert (Hgt : forall a, a ∈ drop (first_ge k ks) ks -> key_lt k' a).
  { intros a Ha. unfold key_lt. rewrite Hk, lex_opp. specialize (Hhi a Ha).
    destruct (decide (lex (krank a) (krank k) = 0)) as [E|E]; [|lia].
    apply lex_eq in E. destruct Hn. rewrite <- E. apply list_elem_of_fmap_2.
    rewrite <- (take_drop (first_ge k ks) ks). apply elem_of_app. by right. }
  apply StronglySorted_app_2; [|done|constructor; [done|by apply Forall_forall]].
  intros a b Ha Hb. apply elem_of_cons in Hb as [->|Hb].
  - unfold key_lt. rewrite Hk. by apply Hlo.
  - by apply Q1.
Qed.

Lemma ix_compare_total types : forall lens a k,
  key_ok types lens k -> exists c, ix_compare types lens a k = Ok c.
Proof.
  induction types as [|ty types IH]; intros [|len lens] a k; cbn [ix_compare key_ok]; try done; [by exists 0|].
  intros (Q1 & Q2 & Q3 & Q4 & Q5). cbv [mbind res_bind].
  assert (exists r, ix_compare1 a k ty len = Ok r) as [r ->] by (destruct ty; cbn [ix_compare1]; eauto; done).
  destruct (negb (r =? 0)); [eauto|by apply IH].
Qed.

Section ops.
Context (d k : bytes) (Hd : node_ok h d) (Hs : sorted d) (Hk : good_key k).

Let ks := keys h d.
Let c := first_ge k ks.

Lemma position : (c <= size d)%nat.
Proof. unfold c, first_ge. etrans; [apply count_while_le|]. unfold ks. by rewrite length_keys. Qed.

(** The key at the position found is the key, or the key is not in the node. *)
Lemma found_or_not :
  (exists a, ks !! c = Some a /\ a = key_at h d c /\ (c < size d)%nat /\ krank a = krank k) \/
  (krank k ∉ krank <$> ks /\
   (c = size d \/ (c < size d)%nat /\ 0 < lex (krank (key_at h d c)) (krank k))).
Proof.
  pose proof position as Hc. destruct (first_ge_split k ks (so_sorted _ Hs)) as [Hlo Hhi]. fold c in Hlo, Hhi.
  pose proof (sorted_NoDup _ (so_sorted _ Hs)) as Hn. fold ks in Hn.
  assert (Hlow : forall i a, ks !! i = Some a -> krank a = krank k -> (c <= i)%nat).
  { intros i a Hi E. destruct (decide (c <= i)%nat) as [|Hlt]; [done|].
    assert (key_lt a k) as Hl by (apply Hlo, list_elem_of_lookup; exists i; apply lookup_take_Some; lia || (split; [done|lia])).
    unfold key_lt in Hl. rewrite E, lex_refl in Hl. lia. }
  destruct (decide (c < size d)%nat) as [Hlt|Hge].
  2: { right. split; [|left; lia]. rewrite list_elem_of_fmap. intros (a & E & Ha).
       apply list_elem_of_lookup in Ha as [i Hi]. pose proof (lookup_lt_Some _ _ _ Hi) as Hl.
       unfold ks in Hl. rewrite length_keys in Hl. specialize (Hlow i a Hi (eq_sym E)). lia. }
  pose proof (lookup_keys d c Hlt) as Ha. fold ks in Ha.
  assert (0 <= lex (krank (key_at h d c)) (krank k)) as H0
    by (apply Hhi, list_elem_of_lookup; exists 0%nat; rewrite lookup_drop, Nat.add_0_r; done).
  destruct (decide (lex (krank (key_at h d c)) (krank k) = 0)) as [E|E].
  { left. exists (key_at h d c). split_and!; [done..|by apply lex_eq]. }
  right. split; [|right; split; [done|lia]]. rewrite list_elem_of_fmap. intros (a & Ea & Hin).
  apply list_elem_of_lookup in Hin as [i Hi]. pose proof (Hlow i a Hi (eq_sym Ea)) as Hci.
  destruct (decide (i = c)) as [->|Hne].
  { rewrite Ha in Hi. injection Hi as <-. rewrite Ea, lex_refl in E. done. }
  assert (key_lt (key_at h d c) a) as Hl.
  { pose proof (so_sorted _ Hs) as Hss. fold ks in Hss. rewrite <- (take_drop_middle _ _ _ Ha) in Hss.
    apply StronglySorted_app in Hss as (_ & _ & Q3). inversion Q3 as [|? ? _ Q4]; subst.
    rewrite Forall_forall in Q4. apply Q4, list_elem_of_lookup. exists (i - S c)%nat.
    rewrite lookup_drop. rewrite <- Hi. f_equal. lia. }
  unfold key_lt in Hl. rewrite <- Ea in Hl. lia.
Qed.

Lemma leaf_lookup_contents : leaf_lookup h k d = Ok (contents d !! krank k).
Proof.
  unfold leaf_lookup. rewrite lower_bound_eq by done. fold ks. fold c. cbv [mbind res_bind].
  pose proof (no_size _ _ Hd) as Hb. pose proof position as Hc.
  destruct found_or_not as [(a & Ha & -> & Hlt & E)|[Hnin [Hend|[Hlt Hgt]]]].
  - rewrite (proj2 (Z.eqb_neq _ _)) by (unfold size in Hlt; lia). cbn [negb].
    rewrite compare_key by done. rewrite E, lex_refl. cbn [Z.eqb]. f_equal. symmetry.
    rewrite <- E. unfold contents. fold ks. eapply assoc_lookup; [unfold ks; by rewrite length_keys, length_rids| |done|].
    + apply sorted_NoDup, Hs.
    + unfold rids. rewrite list_lookup_fmap, lookup_seq_lt by done. simpl. f_equal. unfold get_rid, rid_at, cell.
      rewrite rid_off_nat. unfold load_rid, load_i32. rewrite !mem_read_read by (unfold sizeof_Rid; lia). by rewrite !Nat.add_0_r.
  - rewrite (proj2 (Z.eqb_eq _ _)) by (unfold size in Hend; lia). cbn [negb]. f_equal. symmetry.
    apply assoc_None; [by rewrite length_keys, length_rids|done].
  - rewrite (proj2 (Z.eqb_neq _ _)) by (unfold size in Hlt; lia). cbn [negb].
    rewrite compare_key by done. rewrite (proj2 (Z.eqb_neq _ _)) by lia. f_equal. symmetry.
    apply assoc_None; [by rewrite length_keys, length_rids|done].
Qed.

Lemma cols_len_cons len lens : cols_len (len :: lens) = (Z.to_nat len + cols_len lens)%nat.
Proof. reflexivity. Qed.

Lemma key_ok_take types : forall lens a n,
  key_ok types lens a -> (cols_len lens <= n)%nat -> key_ok types lens (take n a).
Proof.
  induction types as [|ty types IH]; intros [|len lens] a n; cbn [key_ok]; try done.
  intros (Q1 & Q2 & Q3 & Q4 & Q5) Hn. rewrite cols_len_cons in Hn. split_and!; try done.
  - rewrite length_take. lia.
  - intros ->. cbn [col_width] in Q1. rewrite <- (Q4 eq_refl). f_equal.
    rewrite <- (take_drop n a) at 2. rewrite load_u32_app; [done|]. rewrite length_take. lia.
  - rewrite skipn_firstn_comm. apply IH; [done|]. lia.
Qed.

Lemma key_ok_length types : forall lens a, key_ok types lens a -> (cols_len lens <= length a)%nat.
Proof.
  induction types as [|ty types IH]; intros [|len lens] a; cbn [key_ok]; try done; [cbn; lia|].
  intros (Q1 & Q2 & Q3 & Q4 & Q5). specialize (IH _ _ Q5). rewrite length_drop in IH.
  rewrite cols_len_cons. lia.
Qed.

Lemma stored_key : good_key (take (klen h) k) /\ krank (take (klen h) k) = krank k /\ (klen h <= length k)%nat.
Proof.
  pose proof (xo_lens _ Hh) as Hl. assert (Hc : (cols_len (col_lens_ h) = klen h)%nat) by (unfold klen; lia).
  assert (Hg : good_key (take (klen h) k)) by (apply key_ok_take; [done|lia]).
  split_and!; [done| |rewrite <- Hc; by eapply key_ok_length].
  destruct (rank_app _ _ _ (drop (klen h) k) Hg) as [Hr _]. unfold krank. by rewrite <- Hr, take_drop.
Qed.

Lemma contents_size d0 : node_ok h d0 -> sorted d0 -> hd_num_key d0 = Z.of_nat (base.size (contents d0)).
Proof.
  intros [_ Hb] Hso. unfold contents, assoc.
  assert (Hl : length (keys h d0) = length (rids h d0)) by (by rewrite length_keys, length_rids).
  rewrite map_size_list_to_map by (rewrite assoc_fst by done; apply sorted_NoDup, Hso).
  rewrite length_zip, length_fmap, <- Hl, length_keys. unfold size. lia.
Qed.

Lemma insert_contents v :
  (size d <= Z.to_nat (btree_order_ h))%nat -> rid_ok v ->
  exists d', insert h k v d = Ok (d', hd_num_key d') /\ node_ok h d' /\ sorted d' /\ same_header d d' /\
    contents d' = match contents d !! krank k with Some _ => contents d | None => <[krank k := v]> (contents d) end /\
    (contents d !! krank k <> None -> d' = d).
Proof.
  intros Hsz Hv. unfold insert. rewrite lower_bound_eq by done. fold ks. fold c. cbv [mbind res_bind].
  pose proof (no_size _ _ Hd) as Hb. pose proof position as Hc. pose proof order_small as Hos.
  pose proof leaf_lookup_contents as Hlk. unfold leaf_lookup in Hlk. rewrite lower_bound_eq in Hlk by done.
  fold ks in Hlk. fold c in Hlk. cbv [mbind res_bind] in Hlk.
  pose proof (sorted_NoDup _ (so_sorted _ Hs)) as Hn. fold ks in Hn.
  assert (Hl : length ks = length (rids h d)) by (unfold ks; by rewrite length_keys, length_rids).
  destruct found_or_not as [(a & Ha & -> & Hlt & E)|[Hnin Hc2]].
  - rewrite compare_key in Hlk |- * by done. rewrite E, lex_refl in Hlk |- *. cbn [Z.ltb Z.compare orb Z.eqb] in Hlk |- *.
    rewrite (proj2 (Z.eqb_neq _ _)) in Hlk |- * by (unfold size in Hlt; lia). cbn [orb negb] in Hlk |- *.
    exists d. split_and!; try done. injection Hlk as <-. done.
  - assert (Hnone : contents d !! krank k = None) by (apply assoc_None; done). rewrite Hnone.
    assert (exists f, compare h (get_key h (Z.of_nat c) d) k = Ok f /\ (Z.of_nat c =? hd_num_key d) || (0 <? f) = true)
      as (f & -> & ->).
    { destruct Hc2 as [E|[Hlt Hgt]].
      - destruct (ix_compare_total _ _ (get_key h (Z.of_nat c) d) k Hk) as [f Hf]. exists f. split; [done|].
        apply orb_true_iff. left. unfold size in E. lia.
      - rewrite compare_key by done. eexists. split; [done|]. apply orb_true_iff. right. by apply Z.ltb_lt. }
    destruct stored_key as (Hg & Hr & Hlen).
    destruct (insert_pairs_ok c 1 k (rid_bytes v) d Hd Hc) as (d' & E & Hok & _ & Hsh & Hks & Hrs);
      [lia|lia|unfold sizeof_Rid; cbn; lia|].
    unfold insert_pair. change 1 with (Z.of_nat 1) at 1. rewrite E. exists d'.
    assert (Hnew : mem_read k (0 * klen h) (klen h) = take (klen h) k) by done.
    assert (Hv' : load_rid (rid_bytes v) (0 * sizeof_Rid) = v)
      by (apply load_rid_bytes; [done|done]).
    cbn [seq fmap list_fmap] in Hks, Hrs. rewrite Hnew in Hks. rewrite Hv' in Hrs. fold ks in Hks.
    split_and!; [done|done| |done| |].
    + split; rewrite Hks; [|apply sorted_insert; [apply Hs|done..]].
      apply Forall_app. split; [|constructor; [done|]].
      * eapply Forall_take, Hs.
      * eapply Forall_drop, Hs.
    + unfold contents. rewrite Hks, Hrs, <- Hr. apply assoc_insert; [done|done|by rewrite Hr].
    + done.
Qed.

Lemma remove_contents :
  exists d', remove h k d = Ok (d', hd_num_key d') /\ node_ok h d' /\ sorted d' /\ same_header d d' /\
    contents d' = delete (krank k) (contents d).
Proof.
  unfold remove. rewrite lower_bound_eq by done. fold ks. fold c. cbv [mbind res_bind].
  pose proof (no_size _ _ Hd) as Hb. pose proof position as Hc.
  pose proof (sorted_NoDup _ (so_sorted _ Hs)) as Hn. fold ks in Hn.
  assert (Hl : length ks = length (rids h d)) by (unfold ks; by rewrite length_keys, length_rids).
  destruct found_or_not as [(a & Ha & -> & Hlt & E)|[Hnin Hc2]].
  - rewrite (proj2 (Z.eqb_neq _ _)) by (unfold size in Hlt; lia). cbn [negb].
    rewrite compare_key by done. rewrite E, lex_refl. cbn [Z.eqb].
    destruct (erase_pair_ok c d Hd Hlt) as (d' & -> & Hok & _ & Hsh & Hks & Hrs). exists d'.
    split_and!; [done|done| |done|].
    + split; rewrite Hks; [apply Forall_delete, Hs|apply sorted_delete, Hs].
    + unfold contents. rewrite Hks, Hrs, <- E. by apply assoc_delete.
  - assert (Hnone : contents d !! krank k = None) by (apply assoc_None; done).
    exists d. rewrite delete_id by done. split_and!; try done.
    destruct Hc2 as [E|[Hlt Hgt]].
    + rewrite (proj2 (Z.eqb_eq _ _)) by (unfold size in E; lia). done.
    + rewrite (proj2 (Z.eqb_neq _ _)) by (unfold size in Hlt; lia). cbn [negb].
      rewrite compare_key by done. by rewrite (proj2 (Z.eqb_neq _ _)) by lia.
Qed.
End ops.
End node.

(** C18: the binary searches of a node with sorted keys are equivalent to sequential
    ones: [lower_bound] is the position of the first key not less than the target, and
    [upper_bound] of the first greater than it, but at least 1; both end within as
    many rounds as there are keys. *)
Theorem binary_search_ok h d k :
  ix_ok h -> node_ok h d -> sorted h d -> good_key h k ->
  lower_bound h k d = Ok (Z.of_nat (first_ge h k (keys h d))) /\
  upper_bound h k d = Ok (Z.of_nat (Nat.max 1 (first_gt h k (keys h d)))).
Proof. intros Hh Hd Hs Hk. split; [by apply lower_bound_eq|by apply upper_bound_eq]. Qed.

(** C17: a node with sorted keys is a map from keys to record identifiers: [leaf_lookup]
    looks a key up, [insert] adds a key that is not there and leaves one that is, and
    [remove] deletes a key; both keep the keys sorted and the header of the node but for
    its size, which is the number of the keys of the map. *)
Theorem node_is_map h d k :
  ix_ok h -> node_ok h d -> sorted h d -> good_key h k ->
  leaf_lookup h k d = Ok (contents h d !! krank h k) /\
  hd_num_key d = Z.of_nat (base.size (contents h d)) /\
  (forall v, (size d <= Z.to_nat (btree_order_ h))%nat -> rid_ok v ->
    exists d', insert h k v d = Ok (d', hd_num_key d') /\ node_ok h d' /\ sorted h d' /\ same_header d d' /\
      contents h d' = match contents h d !! krank h k with
                      | Some _ => contents h d
                      | None => <[krank h k := v]> (contents h d)
                      end) /\
  (exists d', remove h k d = Ok (d', hd_num_key d') /\ node_ok h d' /\ sorted h d' /\ same_header d d' /\
    contents h d' = delete (krank h k) (contents h d)).
Proof.
  intros Hh Hd Hs Hk. split_and!.
  - by apply leaf_lookup_contents.
  - by eapply contents_size.
  - intros v Hv Hr. destruct (insert_contents h Hh d k Hd Hs Hk v Hv Hr) as (d' & Q1 & Q2 & Q3 & Q4 & Q5 & _). by exists d'.
  - by apply remove_contents.
Qed.

(** *** A node of an index on one [int] column *)

Definition demo_hdr : IxFileHdr :=
  update_tot_len (new_IxFileHdr (-1) 3 2 1 [TYPE_INT] [4] 4 338 (339 * 4) 2 2).
Definition int_key (z : Z) : bytes := le_encode 4 z.
Definition demo_empty : bytes :=
  set_next_leaf 1 (set_prev_leaf 1 (set_is_leaf true (set_parent_page_no (-1) (replicate page_size 0)))).
Definition demo_inserts (l : list Z) (d : bytes) : res bytes :=
  foldl (fun r z => d ← r; p ← insert demo_hdr (int_key z) (mkRid z (z + 1)) d; Ok p.1) (Ok d) l.
Definition demo_node : bytes := match demo_inserts [30; 10; 20] demo_empty with Ok d => d | Throw _ => [] end.

Lemma demo_hdr_ok : ix_ok demo_hdr.
Proof. by split. Qed.

Lemma demo_node_ok : node_ok demo_hdr demo_node.
Proof. split; vm_compute; [done|split; discriminate]. Qed.

Lemma demo_node_keys : keys demo_hdr demo_node = int_key <$> [10; 20; 30].
Proof. by vm_compute. Qed.

Lemma int_key_good z : good_key demo_hdr (int_key z).
Proof.
  unfold good_key, int_key. cbn [demo_hdr update_tot_len new_IxFileHdr col_types_ col_lens_ key_ok col_width].
  rewrite length_le_encode. split_and!; [lia|lia|done|done|done].
Qed.

Lemma demo_node_sorted : sorted demo_hdr demo_node.
Proof.
  split; rewrite demo_node_keys.
  - apply Forall_fmap, Forall_true. exact int_key_good.
  - repeat constructor.
Qed.

Lemma binary_search_ok_witness :
  lower_bound demo_hdr (int_key 20) demo_node = Ok 1 /\ upper_bound demo_hdr (int_key 20) demo_node = Ok 2 /\
  upper_bound demo_hdr (int_key 5) demo_node = Ok 1.
Proof.
  destruct (binary_search_ok demo_hdr demo_node (int_key 20) demo_hdr_ok demo_node_ok demo_node_sorted (int_key_good 20))
    as [-> ->].
  destruct (binary_search_ok demo_hdr demo_node (int_key 5) demo_hdr_ok demo_node_ok demo_node_sorted (int_key_good 5))
    as [_ ->].
  rewrite demo_node_keys. split_and!; reflexivity.
Defined.

Lemma node_is_map_witness :
  leaf_lookup demo_hdr (int_key 20) demo_node = Ok (Some (mkRid 20 21)) /\
  (exists d', remove demo_hdr (int_key 20) demo_node = Ok (d', hd_num_key d') /\
    contents demo_hdr d' = delete [20] (contents demo_hdr demo_node)) /\
  (exists d', insert demo_hdr (int_key 25) (mkRid 1 2) demo_node = Ok (d', hd_num_key d') /\
    contents demo_hdr d' = <[ [25] := mkRid 1 2 ]> (contents demo_hdr demo_node)).
Proof.
  assert (krank demo_hdr (int_key 20) = [20]) as E20 by reflexivity.
  assert (krank demo_hdr (int_key 25) = [25]) as E25 by reflexivity.
  destruct (node_is_map demo_hdr demo_node (int_key 20) demo_hdr_ok demo_node_ok demo_node_sorted (int_key_good 20))
    as (-> & _ & _ & d' & Hr & _ & _ & _ & Hc).
  destruct (node_is_map demo_hdr demo_node (int_key 25) demo_hdr_ok demo_node_ok demo_node_sorted (int_key_good 25))
    as (_ & _ & Hi & _).
  destruct (Hi (mkRid 1 2)) as (d2 & Hr2 & _ & _ & _ & Hc2).
  - apply Nat.leb_le. vm_compute. reflexivity.
  - split; unfold in_i32; cbn; lia.
  - rewrite E20 in Hc |- *. rewrite E25 in Hc2.
    split; [vm_compute; reflexivity|]. split; [exists d'; split; [exact Hr|exact Hc]|].
    exists d2. split; [exact Hr2|]. rewrite Hc2.
    replace (contents demo_hdr demo_node !! [25]) with (@None Rid) by (vm_compute; reflexivity).
    reflexivity.
Defined.

End IxNode.
