(* ===== verification/IxShape.v ===== *)
(** * The shape of a B+ tree

    What the pages of an index say, as nodes with lists of keys and of record identifiers; B+ trees of such
    nodes with the range of keys, the leaves and the pages of each; a tree with a hole, which is
    the rest of a tree around one of its subtrees; and how trees are cut and joined.  No
    operation of the program is in this file: it is the specification the index is proved against. *)

From stdpp Require Import sorting.
From S2P Require Import Prelude Common Log IxDefs IxNode.

Module IxShape.
Import IxNode.

Record node := mkNode { n_leaf : bool; n_par : Z; n_keys : list bytes; n_rids : list Rid }.
Definition node_of (h : IxFileHdr) (d : bytes) : node := mkNode (hd_is_leaf d) (hd_parent d) (keys h d) (rids h d).
Definition set_par (z : Z) (x : node) : node := mkNode (n_leaf x) z (n_keys x) (n_rids x).

(** A lower bound of a range, which is in it, and an upper bound, which is not; none is no bound. *)
Definition above (lo : option (list Z)) (r : list Z) : Prop := forall l, lo = Some l -> lex l r <= 0.
Definition under (hi : option (list Z)) (r : list Z) : Prop := forall u, hi = Some u -> lex r u < 0.
Definition inside lo hi (r : list Z) : Prop := above lo r /\ under hi r.
(** The range between two bounds has room for a separator. *)
Definition proper lo hi : Prop := forall l, lo = Some l -> under hi l.

Lemma lex_lt_trans a b c : lex a b < 0 -> lex b c < 0 -> lex a c < 0.
Proof. intros Q1 Q2. eapply lex_trans; [apply Z.lt_le_incl, Q1|apply Z.lt_le_incl, Q2|auto]. Qed.
Lemma lex_le_lt a b c : lex a b <= 0 -> lex b c < 0 -> lex a c < 0.
Proof. intros Q1 Q2. eapply lex_trans; [exact Q1|apply Z.lt_le_incl, Q2|auto]. Qed.
Lemma lex_lt_le a b c : lex a b < 0 -> lex b c <= 0 -> lex a c < 0.
Proof. intros Q1 Q2. eapply lex_trans; [apply Z.lt_le_incl, Q1|exact Q2|auto]. Qed.

Lemma under_lt hi a b : lex a b < 0 -> under hi b -> under hi a.
Proof. intros Q Hu u E. eapply lex_lt_trans; [exact Q|by apply Hu]. Qed.
Lemma under_le hi a b : lex a b <= 0 -> under hi b -> under hi a.
Proof. intros Q Hu u E. eapply lex_le_lt; [exact Q|by apply Hu]. Qed.
Lemma above_lt lo a b : above lo a -> lex a b < 0 -> above lo b.
Proof. intros Ha Q l E. apply Z.lt_le_incl. eapply lex_le_lt; [by apply Ha|exact Q]. Qed.
Lemma proper_under lo hi a : above lo a -> under hi a -> proper lo hi.
Proof. intros Ha Hu l E. by eapply under_le; [apply Ha|]. Qed.

Section trees.
Context (h : IxFileHdr).
#[local] Abbreviation rk := (krank h).

(** *** The children of a node

    [T r lo hi c] is that the child of the pair [r] is right for the range from [lo] to [hi], with
    the data [c].  The first key of a node is its lower bound, if it has one, and is not used otherwise;
    each of the others is the lower bound of its child and the upper bound of the one before. *)
Section kids.
Context {C : Type} (T : Rid -> option (list Z) -> option (list Z) -> C -> Prop).

(** The children before one, with the keys up to its own: it has the bound [lo']. *)
Inductive upto (lo : option (list Z)) : list bytes -> list Rid -> list C -> option (list Z) -> Prop :=
  | upto_start d : (forall l, lo = Some l -> rk d = l /\ good_key h d) -> upto lo [d] [] [] lo
  | upto_snoc ks rs cs lo' r c k :
      upto lo ks rs cs lo' -> proper lo' (Some (rk k)) -> good_key h k -> T r lo' (Some (rk k)) c ->
      upto lo (ks ++ [k]) (rs ++ [r]) (cs ++ [c]) (Some (rk k)).

(** The children after one of upper bound [hi'], with their keys. *)
Inductive rest (hi : option (list Z)) : option (list Z) -> list bytes -> list Rid -> list C -> Prop :=
  | rest_end : rest hi hi [] [] []
  | rest_cons k r c hi1 ks rs cs :
      good_key h k -> proper (Some (rk k)) hi1 -> T r (Some (rk k)) hi1 c -> rest hi hi1 ks rs cs ->
      rest hi (Some (rk k)) (k :: ks) (r :: rs) (c :: cs).

Inductive kids lo hi : list bytes -> list Rid -> list C -> Prop :=
  | kids_intro ks1 ks2 rs1 rs2 cs1 cs2 r c lo' hi' :
      upto lo ks1 rs1 cs1 lo' -> proper lo' hi' -> T r lo' hi' c -> rest hi hi' ks2 rs2 cs2 ->
      kids lo hi (ks1 ++ ks2) (rs1 ++ r :: rs2) (cs1 ++ c :: cs2).

Lemma upto_length lo ks rs cs lo' : upto lo ks rs cs lo' -> length ks = S (length rs) /\ length cs = length rs.
Proof. induction 1 as [|ks rs cs lo' r c k _ [IH1 IH2]]; [done|]. rewrite !length_app. cbn. lia. Qed.
Lemma rest_length hi hi' ks rs cs : rest hi hi' ks rs cs -> length ks = length rs /\ length cs = length rs.
Proof. induction 1 as [|k r c hi1 ks rs cs _ _ _ _ [IH1 IH2]]; [done|]. cbn. lia. Qed.
Lemma kids_length lo hi ks rs cs : kids lo hi ks rs cs -> length ks = length rs /\ length cs = length rs /\ (0 < length rs)%nat.
Proof.
  intros [ks1 ks2 rs1 rs2 cs1 cs2 r c lo' hi' Hu _ _ Hr]. apply upto_length in Hu as [E1 E2]. apply rest_length in Hr as [E3 E4].
  rewrite !length_app. cbn. lia.
Qed.

(** The same children, seen from the next one and from the one before. *)
Lemma kids_next lo hi ks1 ks2 rs1 rs2 cs1 cs2 r c lo' hi' :
  upto lo ks1 rs1 cs1 lo' -> proper lo' hi' -> T r lo' hi' c -> rest hi hi' ks2 rs2 cs2 ->
  (ks2 = [] /\ rs2 = [] /\ cs2 = [] /\ hi' = hi) \/
  exists k r2 c2 ks3 rs3 cs3 hi2, ks2 = k :: ks3 /\ rs2 = r2 :: rs3 /\ cs2 = c2 :: cs3 /\ hi' = Some (rk k) /\
    upto lo (ks1 ++ [k]) (rs1 ++ [r]) (cs1 ++ [c]) (Some (rk k)) /\ proper (Some (rk k)) hi2 /\ T r2 (Some (rk k)) hi2 c2 /\
    rest hi hi2 ks3 rs3 cs3.
Proof.
  intros Hu Hp Ht Hr. destruct Hr as [|k r2 c2 hi1 ks3 rs3 cs3 Hg Hp1 Ht1 Hr]; [by left|]. right.
  exists k, r2, c2, ks3, rs3, cs3, hi1. split_and!; try done. by econstructor.
Qed.

(** Every child has its place. *)
Lemma kids_at lo hi ks rs cs i r : kids lo hi ks rs cs -> rs !! i = Some r ->
  exists ks1 ks2 rs1 rs2 cs1 cs2 c lo' hi', ks = ks1 ++ ks2 /\ rs = rs1 ++ r :: rs2 /\ cs = cs1 ++ c :: cs2 /\ length rs1 = i /\
    upto lo ks1 rs1 cs1 lo' /\ proper lo' hi' /\ T r lo' hi' c /\ rest hi hi' ks2 rs2 cs2.
Proof.
  intros [ks1 ks2 rs1 rs2 cs1 cs2 r0 c lo' hi' Hu Hp Ht Hr] Hi.
  destruct (decide (i < length rs1)%nat) as [Hlt|Hge].
  - revert ks2 rs2 cs2 r0 c hi' Hp Ht Hr Hi. induction Hu as [d|ksA rsA csA lo1 r1 c1 k Hu IH Hp1 Hg1 Ht1]; intros ks2 rs2 cs2 r0 c hi' Hp Ht Hr Hi; [cbn in Hlt; lia|].
    assert (Hr' : rest hi (Some (rk k)) (k :: ks2) (r0 :: rs2) (c :: cs2)) by (by econstructor).
    rewrite <- !app_assoc in *. cbn [app] in *. destruct (decide (i < length rsA)%nat) as [Hl|Hg].
    + destruct (IH Hl _ _ _ _ _ _ Hp1 Ht1 Hr' Hi) as (a1 & a2 & b1 & b2 & d1 & d2 & x & l' & u' & E). exists a1, a2, b1, b2, d1, d2, x, l', u'. exact E.
    + rewrite length_app in Hlt. cbn in Hlt. rewrite lookup_app_r in Hi by lia. replace (i - length rsA)%nat with 0%nat in Hi by lia.
      injection Hi as <-. exists ksA, (k :: ks2), rsA, (r0 :: rs2), csA, (c :: cs2), c1, lo1, (Some (rk k)). split_and!; try done. lia.
  - remember (i - length rs1)%nat as j eqn:Ej. assert (i = length rs1 + j)%nat as -> by lia. clear Ej Hge.
    rewrite lookup_app_r in Hi by lia. replace (length rs1 + j - length rs1)%nat with j in Hi by lia.
    revert ks1 rs1 cs1 lo' r0 c hi' ks2 rs2 cs2 Hu Hp Ht Hr Hi. induction j as [|j IH]; intros.
    + injection Hi as ->. rewrite Nat.add_0_r. by exists ks1, ks2, rs1, rs2, cs1, cs2, c, lo', hi'.
    + cbn in Hi. destruct (kids_next _ _ _ _ _ _ _ _ _ _ _ _ Hu Hp Ht Hr) as [(_ & -> & _)|(k & r2 & c2 & ks3 & rs3 & cs3 & hi2 & -> & -> & -> & -> & Hu' & Hp' & Ht' & Hr')]; [done|].
      destruct (IH _ _ _ _ _ _ _ _ _ _ Hu' Hp' Ht' Hr' Hi) as (a1 & a2 & b1 & b2 & d1 & d2 & x & l' & u' & E1 & E2 & E3 & E4 & E).
      exists a1, a2, b1, b2, d1, d2, x, l', u'. rewrite length_app in E4. cbn in E4. rewrite <- !app_assoc in E1, E2, E3. split_and!; try done; [lia|apply E..].
Qed.

Lemma proper_trans a k b : proper a (Some k) -> proper (Some k) b -> proper a b.
Proof. intros Q1 Q2 l -> u ->. eapply lex_lt_trans; [by apply (Q1 l)|by apply (Q2 k)]. Qed.
Lemma upto_proper lo ks rs cs lo' hi' : upto lo ks rs cs lo' -> proper lo' hi' -> proper lo hi'.
Proof.
  intros Hu. revert hi'. induction Hu as [d|ks rs cs lo' r c k _ IH Hp _ _]; intros hi' Hq; [done|].
  by eapply proper_trans; [apply IH|].
Qed.
Lemma rest_proper hi hi' ks rs cs lo' : rest hi hi' ks rs cs -> proper lo' hi' -> proper lo' hi.
Proof.
  intros Hr. revert lo'. induction Hr as [|k r c hi1 ks rs cs _ Hp _ _ IH]; intros lo' Hq; [done|].
  by eapply proper_trans; [|apply IH].
Qed.

(** Cutting the children before the one at [i], which is not the first. *)
Lemma kids_cut lo hi ks rs cs i : kids lo hi ks rs cs -> (0 < i < length rs)%nat ->
  exists k, ks !! i = Some k /\ good_key h k /\ proper lo (Some (rk k)) /\ proper (Some (rk k)) hi /\
    kids lo (Some (rk k)) (take i ks) (take i rs) (take i cs) /\ kids (Some (rk k)) hi (drop i ks) (drop i rs) (drop i cs).
Proof.
  intros Hk [H0 Hi]. destruct (lookup_lt_is_Some_2 rs i Hi) as [r Hr].
  destruct (kids_at _ _ _ _ _ _ _ Hk Hr) as (ks1 & ks2 & rs1 & rs2 & cs1 & cs2 & c & lo' & hi' & -> & -> & -> & Hl & Hu & Hp & Ht & Hre).
  destruct Hu as [d|ks rs cs lo1 r1 c1 k Hu Hp1 Hg1 Ht1]; [cbn in Hl; lia|].
  destruct (upto_length _ _ _ _ _ Hu) as [E1 E2]. rewrite length_app in Hl. cbn in Hl.
  exists k. rewrite <- !app_assoc. cbn [app]. split_and!.
  - rewrite lookup_app_r by lia. by replace (i - length ks)%nat with 0%nat by lia.
  - done.
  - by eapply upto_proper.
  - by eapply rest_proper.
  - rewrite !take_app_ge by lia. replace (i - length ks)%nat with 0%nat by lia.
    replace (i - length rs)%nat with 1%nat by lia. replace (i - length cs)%nat with 1%nat by lia. cbn [take].
    by apply (kids_intro lo (Some (rk k)) ks [] rs [] cs [] r1 c1 lo1 (Some (rk k))); [..|constructor].
  - rewrite !drop_app_ge by lia. replace (i - length ks)%nat with 0%nat by lia.
    replace (i - length rs)%nat with 1%nat by lia. replace (i - length cs)%nat with 1%nat by lia. cbn [drop].
    apply (kids_intro (Some (rk k)) hi [k] ks2 [] rs2 [] cs2 r c (Some (rk k)) hi'); [constructor; by intros ? [= <-]|done..].
Qed.

(** A child is put after the one with the place, which gives the upper part of its range to it. *)
Lemma kids_add lo hi ks1 ks2 rs1 rs2 cs1 cs2 r c r' c' k lo' hi' :
  upto lo ks1 rs1 cs1 lo' -> rest hi hi' ks2 rs2 cs2 -> good_key h k ->
  proper lo' (Some (rk k)) -> proper (Some (rk k)) hi' -> T r lo' (Some (rk k)) c -> T r' (Some (rk k)) hi' c' ->
  kids lo hi (ks1 ++ k :: ks2) (rs1 ++ r :: r' :: rs2) (cs1 ++ c :: c' :: cs2).
Proof. intros Hu Hr Hg P1 P2 T1 T2. eapply kids_intro; [done..|]. by econstructor. Qed.

(** The place of a child is within the range of all, and the others are outside of it. *)
Lemma upto_above lo ks rs cs lo' x : upto lo ks rs cs lo' -> above lo' x -> above lo x.
Proof.
  intros Hu. revert x. induction Hu as [d|ks rs cs lo' r c k _ IH Hp _ _]; intros x Hx; [done|].
  destruct lo' as [l|]; [|by apply IH]. apply IH. intros ? [= <-]. apply Z.lt_le_incl.
  eapply lex_lt_le; [by apply (Hp l)|by apply Hx].
Qed.
Lemma rest_under hi hi' ks rs cs x : rest hi hi' ks rs cs -> under hi' x -> under hi x.
Proof.
  intros Hr. revert x. induction Hr as [|k r c hi1 ks rs cs _ Hp _ _ IH]; intros x Hx; [done|].
  apply IH. eapply under_lt; [by apply Hx|by apply Hp].
Qed.
Lemma upto_in lo ks rs cs lo' c : upto lo ks rs cs lo' -> c ∈ cs -> exists r l u, r ∈ rs /\ T r l u c /\
  (forall x, above l x -> above lo x) /\ (forall x, under u x -> under lo' x).
Proof.
  induction 1 as [d|ks rs cs lo' r c' k Hu IH Hp Hg Ht]; intros Hc; [by apply elem_of_nil in Hc|].
  apply elem_of_app in Hc as [Hc|Hc%list_elem_of_singleton].
  - destruct (IH Hc) as (r' & l & u & Q0 & Q1 & Q2 & Q3). exists r', l, u. split_and!; try done; [apply elem_of_app; by left|].
    intros x Hx u' [= <-]. destruct lo' as [l'|].
    + eapply lex_lt_trans; [by apply (Q3 x Hx l')|by apply (Hp l')].
    + inversion Hu; subst; by apply elem_of_nil in Hc.
  - subst c'. exists r, lo', (Some (rk k)). split_and!; try done; [apply elem_of_app; right; by apply list_elem_of_singleton|].
    intros x Hx. by eapply upto_above.
Qed.
Lemma rest_in hi hi' ks rs cs c : rest hi hi' ks rs cs -> c ∈ cs -> exists r l u, r ∈ rs /\ T r l u c /\
  (forall x, above l x -> above hi' x) /\ (forall x, under u x -> under hi x).
Proof.
  induction 1 as [|k r c' hi1 ks rs cs Hg Hp Ht Hr IH]; intros Hc; [by apply elem_of_nil in Hc|].
  apply elem_of_cons in Hc as [->|Hc].
  - exists r, (Some (rk k)), hi1. split_and!; try done; [by left|]. intros x Hx. by eapply rest_under.
  - destruct (IH Hc) as (r' & l & u & Q0 & Q1 & Q2 & Q3). exists r', l, u. split_and!; try done; [by right|].
    intros x Hx l' [= <-]. destruct hi1 as [u1|].
    + apply Z.lt_le_incl. eapply lex_lt_le; [by apply (Hp (rk k))|by apply (Q2 x Hx)].
    + inversion Hr; subst; by apply elem_of_nil in Hc.
Qed.
Lemma upto_rid lo ks rs cs lo' r : upto lo ks rs cs lo' -> r ∈ rs -> exists c l u, c ∈ cs /\ T r l u c.
Proof.
  induction 1 as [d|ks rs cs lo' r' c k Hu IH Hp Hg Ht]; intros Hr; [by apply elem_of_nil in Hr|].
  apply elem_of_app in Hr as [Hr|Hr%list_elem_of_singleton].
  - destruct (IH Hr) as (c' & l & u & Hc & Ht'). exists c', l, u. split; [apply elem_of_app; by left|done].
  - subst r. exists c, lo', (Some (rk k)). split; [apply elem_of_app; right; by left|done].
Qed.
Lemma kids_in lo hi ks rs cs c : kids lo hi ks rs cs -> c ∈ cs -> exists r l u, r ∈ rs /\ T r l u c /\
  (forall x, above l x -> above lo x) /\ (forall x, under u x -> under hi x).
Proof.
  intros [ks1 ks2 rs1 rs2 cs1 cs2 r c' lo' hi' Hu Hp Ht Hr] Hc.
  apply elem_of_app in Hc as [Hc|[->|Hc]%elem_of_cons].
  - destruct (upto_in _ _ _ _ _ _ Hu Hc) as (r' & l & u & Q0 & Q1 & Q2 & Q3). exists r', l, u. split_and!; [set_solver|done..|].
    intros x Hx. eapply rest_under; [done|]. destruct lo' as [l'|]; [eapply under_lt; [by apply (Q3 x Hx l')|by apply Hp]|].
    inversion Hu; subst; by apply elem_of_nil in Hc.
  - exists r, lo', hi'. split_and!; [set_solver|done|intros x Hx; by eapply upto_above|intros x Hx; by eapply rest_under].
  - destruct (rest_in _ _ _ _ _ _ Hr Hc) as (r' & l & u & Q0 & Q1 & Q2 & Q3). exists r', l, u. split_and!; [set_solver|done| |done].
    intros x Hx. eapply upto_above; [done|]. intros l' ->. destruct hi' as [u'|].
    + apply Z.lt_le_incl. eapply lex_lt_le; [by apply (Hp l')|by apply (Q2 x Hx)].
    + inversion Hr; subst; by apply elem_of_nil in Hc.
Qed.

(** The child a key belongs to. *)
Lemma place_find lo hi ks1 ks2 rs1 rs2 cs1 cs2 r c lo' hi' k :
  upto lo ks1 rs1 cs1 lo' -> proper lo' hi' -> T r lo' hi' c -> rest hi hi' ks2 rs2 cs2 -> above lo' (rk k) -> under hi (rk k) ->
  exists a1 a2 b1 b2 d1 d2 r0 c0 l u, ks1 ++ ks2 = a1 ++ a2 /\ rs1 ++ r :: rs2 = b1 ++ r0 :: b2 /\ cs1 ++ c :: cs2 = d1 ++ c0 :: d2 /\
    length b1 = (length rs1 + first_gt h k ks2)%nat /\
    upto lo a1 b1 d1 l /\ proper l u /\ T r0 l u c0 /\ rest hi u a2 b2 d2 /\ inside l u (rk k).
Proof.
  intros Hu Hp Ht Hr. revert ks1 rs1 cs1 lo' r c Hu Hp Ht.
  induction Hr as [|k1 r1 c1 hi1 ks rs cs Hg Hp1 Ht1 Hr IH]; intros ks1 rs1 cs1 lo' r c Hu Hp Ht Ha Hb.
  - exists ks1, [], rs1, [], cs1, [], r, c, lo', hi. split_and!; first [done|by constructor|cbn; lia].
  - change (first_gt h k (k1 :: ks)) with (if lex (rk k1) (rk k) <=? 0 then S (first_gt h k ks) else O).
    destruct (Z.leb_spec (lex (rk k1) (rk k)) 0) as [Hle|Hgt].
    + destruct (IH (ks1 ++ [k1]) (rs1 ++ [r]) (cs1 ++ [c]) (Some (rk k1)) r1 c1) as (a1 & a2 & b1 & b2 & d1 & d2 & r0 & c0 & l & u & E1 & E2 & E3 & E4 & E);
        [by econstructor|done|done|by intros ? [= <-]|done|].
      exists a1, a2, b1, b2, d1, d2, r0, c0, l, u. rewrite <- !app_assoc in E1, E2, E3. rewrite length_app in E4. cbn in E4.
      split_and!; try done; [lia|apply E..].
    + exists ks1, (k1 :: ks), rs1, (r1 :: rs), cs1, (c1 :: cs), r, c, lo', (Some (rk k1)).
      split_and!; [done..|cbn; lia|exact Hu|exact Hp|exact Ht|by apply (rest_cons _ _ _ _ hi1)|split; [done|]]. intros ? [= <-]. rewrite lex_opp. lia.
Qed.
Lemma kids_find lo hi ks rs cs k : kids lo hi ks rs cs -> inside lo hi (rk k) ->
  exists a1 a2 b1 b2 d1 d2 r c l u, ks = a1 ++ a2 /\ rs = b1 ++ r :: b2 /\ cs = d1 ++ c :: d2 /\ length b1 = first_gt h k (tail ks) /\
    upto lo a1 b1 d1 l /\ proper l u /\ T r l u c /\ rest hi u a2 b2 d2 /\ inside l u (rk k).
Proof.
  intros Hk [Ha Hb]. pose proof (kids_length _ _ _ _ _ Hk) as (_ & _ & Hl).
  destruct (lookup_lt_is_Some_2 rs 0%nat Hl) as [r Hr].
  destruct (kids_at _ _ _ _ _ _ _ Hk Hr) as (ks1 & ks2 & rs1 & rs2 & cs1 & cs2 & c & lo' & hi' & -> & -> & -> & Hn & Hu & Hp & Ht & Hre).
  destruct (upto_length _ _ _ _ _ Hu) as [L1 L2]. destruct rs1; [|done]. destruct cs1; [|done]. destruct ks1 as [|d [|]]; [done| |done].
  assert (lo' = lo) as ->.
  { remember [d] as ks eqn:Ek in Hu. clear -Hu Ek. destruct Hu as [d'|ks rs cs l r c k Hu]; [done|].
    apply upto_length in Hu as [E _]. destruct ks; [done|]. by destruct ks. }
  destruct (place_find lo hi [d] ks2 [] rs2 [] cs2 r c lo hi' k) as (a1 & a2 & b1 & b2 & d1 & d2 & r0 & c0 & l & u & E1 & E2 & E3 & E4 & E);
    [exact Hu|done..|].
  exists a1, a2, b1, b2, d1, d2, r0, c0, l, u. split_and!; try done; apply E.
Qed.
(** The keys but the first are in order. *)
Lemma upto_tail lo ks rs cs lo' : upto lo ks rs cs lo' ->
  Forall (good_key h) (tail ks) /\ StronglySorted (key_lt h) (tail ks) /\
  forall a, a ∈ tail ks -> exists l, lo' = Some l /\ lex (rk a) l <= 0.
Proof.
  induction 1 as [d|ks rs cs lo' r c k Hu (I1 & I2 & I3) Hp Hg _].
  - split_and!; [constructor..|]. by intros a ?%elem_of_nil.
  - apply upto_length in Hu as [E _]. destruct ks as [|d ks]; [done|]. cbn [app tail] in *.
    assert (Hlt : forall a, a ∈ ks -> lex (rk a) (rk k) < 0).
    { intros a Ha. destruct (I3 a Ha) as (l & -> & Hl). eapply lex_le_lt; [exact Hl|by apply (Hp l)]. }
    split_and!.
    + apply Forall_app. split; [done|]. by constructor.
    + apply StronglySorted_app_2; [|done|by repeat constructor]. intros a b Ha ->%list_elem_of_singleton. by apply Hlt.
    + intros a [Ha|Ha%list_elem_of_singleton]%elem_of_app; exists (rk k); (split; [done|]).
      * by apply Z.lt_le_incl, Hlt.
      * subst a. by rewrite lex_refl.
Qed.
Lemma rest_keys hi hi' ks rs cs : rest hi hi' ks rs cs ->
  Forall (good_key h) ks /\ StronglySorted (key_lt h) ks /\
  forall a, a ∈ ks -> exists u, hi' = Some u /\ lex u (rk a) <= 0.
Proof.
  induction 1 as [|k r c hi1 ks rs cs Hg Hp _ Hr (I1 & I2 & I3)].
  - split_and!; [constructor..|]. by intros a ?%elem_of_nil.
  - assert (Hlt : forall a, a ∈ ks -> lex (rk k) (rk a) < 0).
    { intros a Ha. destruct (I3 a Ha) as (u & -> & Hl). eapply lex_lt_le; [by apply (Hp (rk k))|exact Hl]. }
    split_and!; [by constructor|constructor; [done|by apply Forall_forall]|].
    intros a [->|Ha]%elem_of_cons; exists (rk k); (split; [done|]); [by rewrite lex_refl|by apply Z.lt_le_incl, Hlt].
Qed.
Lemma kids_tail lo hi ks rs cs : kids lo hi ks rs cs ->
  Forall (good_key h) (tail ks) /\ StronglySorted (key_lt h) (tail ks).
Proof.
  intros [ks1 ks2 rs1 rs2 cs1 cs2 r c lo' hi' Hu Hp _ Hr].
  destruct (upto_tail _ _ _ _ _ Hu) as (A1 & A2 & A3), (rest_keys _ _ _ _ _ Hr) as (B1 & B2 & B3).
  apply upto_length in Hu as [E _]. destruct ks1 as [|d ks1]; [done|]. cbn [app tail] in *.
  split; [by apply Forall_app|]. apply StronglySorted_app_2; [|done..].
  intros a b Ha Hb. destruct (A3 a Ha) as (l & -> & Hl), (B3 b Hb) as (u & -> & Hx).
  unfold key_lt. eapply lex_le_lt; [exact Hl|]. eapply lex_lt_le; [by apply (Hp l)|exact Hx].
Qed.
End kids.

Section mono.
Context {C : Type} (T T' : Rid -> option (list Z) -> option (list Z) -> C -> Prop).

Lemma upto_mono lo ks rs cs lo' : (forall r l u c, r ∈ rs -> c ∈ cs -> T r l u c -> T' r l u c) ->
  upto T lo ks rs cs lo' -> upto T' lo ks rs cs lo'.
Proof.
  intros Hm Hu. induction Hu as [d Hd|ks rs cs lo' r c k Hu IH Hp Hg Ht]; [by constructor|].
  apply (upto_snoc T' _ _ _ _ lo'); [apply IH; intros r0 l u c0 Hr0 Hc; apply Hm; apply elem_of_app; by left|done..|apply Hm; [apply elem_of_app; right; by left..|done]].
Qed.
Lemma rest_mono hi hi' ks rs cs : (forall r l u c, r ∈ rs -> c ∈ cs -> T r l u c -> T' r l u c) ->
  rest T hi hi' ks rs cs -> rest T' hi hi' ks rs cs.
Proof.
  intros Hm Hr. induction Hr as [|k r c hi1 ks rs cs Hg Hp Ht Hr IH]; [constructor|].
  econstructor; [done..|apply Hm; [by left|by left|done]|apply IH; intros r0 l u c0 Hr0 Hc; apply Hm; by right].
Qed.
Lemma kids_mono lo hi ks rs cs :
  (forall r l u c, r ∈ rs -> c ∈ cs -> T r l u c -> T' r l u c) -> kids T lo hi ks rs cs -> kids T' lo hi ks rs cs.
Proof.
  intros Hm Hk. destruct Hk as [ks1 ks2 rs1 rs2 cs1 cs2 r c lo' hi' Hu Hp Ht Hr].
  apply (kids_intro T' lo hi _ _ _ _ _ _ _ _ lo' hi'); [|done|apply Hm; [apply elem_of_app; right; by left..|done]|].
  - eapply upto_mono; [|exact Hu]. intros r0 l u c0 Hr0 Hc. apply Hm; apply elem_of_app; by left.
  - eapply rest_mono; [|exact Hr]. intros r0 l u c0 Hr0 Hc. apply Hm; apply elem_of_app; right; by right.
Qed.
End mono.

Definition leaves (cs : list (list Z * list Z)) : list Z := cs ≫= fst.
Definition pages (cs : list (list Z * list Z)) : list Z := cs ≫= snd.
Lemma in_pages cs c q : c ∈ cs -> q ∈ c.2 -> q ∈ pages cs.
Proof. intros Hc Hq. apply list_elem_of_bind. by exists c. Qed.

(** *** Trees

    [tree nd n p par lo hi ls ps]: at page [p], whose parent is [par], is a tree of height [n] with keys
    from [lo] to [hi]; its leaves are [ls], in the order of their keys, and its pages [ps]. *)
Definition child (T : Z -> Z -> option (list Z) -> option (list Z) -> list Z -> list Z -> Prop) (p : Z) (r : Rid)
    (lo hi : option (list Z)) (c : list Z * list Z) : Prop := T (rid_page_no r) p lo hi c.1 c.2.

Record leaf_node (x : node) (lo hi : option (list Z)) : Prop := {
  ln_leaf : n_leaf x = true;
  ln_good : Forall (good_key h) (n_keys x);
  ln_sorted : StronglySorted (key_lt h) (n_keys x);
  ln_inside : Forall (fun k => inside lo hi (rk k)) (n_keys x);
}.
Definition small (x : node) : Prop := Z.of_nat (length (n_keys x)) < btree_order_ h /\ length (n_rids x) = length (n_keys x).

Fixpoint tree (nd : Z -> node) (n : nat) (p par : Z) (lo hi : option (list Z)) (ls ps : list Z) : Prop :=
  n_par (nd p) = par /\ small (nd p) /\
  match n with
  | O => leaf_node (nd p) lo hi /\ ls = [p] /\ ps = [p]
  | S n' => n_leaf (nd p) = false /\ exists cs, ls = leaves cs /\ ps = p :: pages cs /\
      kids (child (tree nd n') p) lo hi (n_keys (nd p)) (n_rids (nd p)) cs
  end.

Lemma tree_root nd n p par lo hi ls ps : tree nd n p par lo hi ls ps -> exists ps', ps = p :: ps'.
Proof. destruct n; cbn [tree]; [intros (_ & _ & _ & _ & ->)|intros (_ & _ & _ & cs & _ & -> & _)]; by eexists. Qed.

(** A tree is a matter of its pages; and of its root, the parent is free. *)
Lemma tree_frame nd nd' n : forall p par lo hi ls ps,
  (forall q, q ∈ ps -> nd' q = nd q) -> tree nd n p par lo hi ls ps -> tree nd' n p par lo hi ls ps.
Proof.
  induction n as [|n IH]; intros p par lo hi ls ps He; cbn [tree].
  - intros (Q1 & Q2 & Q3 & -> & ->). rewrite He by (by left). done.
  - intros (Q1 & Q2 & Q3 & cs & -> & -> & Hk). rewrite He by (by left). split_and!; try done. exists cs. split_and!; try done.
    eapply kids_mono; [|exact Hk]. intros r l u c _ Hc Ht. eapply IH; [|exact Ht].
    intros q Hq. apply He. right. by eapply in_pages.
Qed.
Lemma tree_reparent nd nd' n p par par' lo hi ls ps : NoDup ps ->
  (forall q, q ∈ ps -> q <> p -> nd' q = nd q) -> nd' p = set_par par' (nd p) ->
  tree nd n p par lo hi ls ps -> tree nd' n p par' lo hi ls ps.
Proof.
  intros Hd He Hp. destruct n as [|n]; cbn [tree].
  - intros (Q1 & Q2 & Q3 & -> & ->). rewrite Hp. split_and!; try done. by destruct Q3.
  - intros (Q1 & Q2 & Q3 & cs & -> & -> & Hk). rewrite Hp. split_and!; try done. exists cs. split_and!; try done.
    apply NoDup_cons in Hd as [Hn Hd]. eapply kids_mono; [|exact Hk]. intros r l u c _ Hc Ht. eapply tree_frame; [|exact Ht].
    intros q Hq. pose proof (in_pages _ _ _ Hc Hq) as Hin.
    apply He; [by right|]. by intros ->.
Qed.

(** *** What is stored *)
Definition ents (nd : Z -> node) (ls : list Z) : list (list Z * Rid) := ls ≫= fun p => zip (rk <$> n_keys (nd p)) (n_rids (nd p)).
Definition map_of (nd : Z -> node) (ls : list Z) : gmap (list Z) Rid := list_to_map (ents nd ls).

Lemma ents_app nd a b : ents nd (a ++ b) = ents nd a ++ ents nd b.
Proof. apply bind_app. Qed.
Lemma ents_frame nd nd' ls : (forall q, q ∈ ls -> nd' q = nd q) -> ents nd' ls = ents nd ls.
Proof.
  intros He. induction ls as [|p ls IH]; [done|]. cbn. rewrite He by (by left). f_equal. apply IH. intros q Hq. apply He. by right.
Qed.
Lemma map_of_app nd a b : map_of nd (a ++ b) = map_of nd a ∪ map_of nd b.
Proof. unfold map_of. rewrite ents_app. apply list_to_map_app. Qed.

Lemma ents_one nd p : ents nd [p] = zip (rk <$> n_keys (nd p)) (n_rids (nd p)).
Proof. unfold ents. cbn. by rewrite app_nil_r. Qed.
Lemma leaf_ents nd p : length (n_rids (nd p)) = length (n_keys (nd p)) ->
  (ents nd [p]).*1 = rk <$> n_keys (nd p).
Proof. intros Hl. unfold ents. cbn. rewrite app_nil_r. apply fst_zip. by rewrite length_fmap, Hl. Qed.
Lemma elem_ents nd ls e : e ∈ (ents nd ls).*1 <-> exists p, p ∈ ls /\ e ∈ (ents nd [p]).*1.
Proof.
  induction ls as [|p ls IH]; [split; [by intros ?%elem_of_nil|by intros (? & ?%elem_of_nil & _)]|].
  change (p :: ls) with ([p] ++ ls). rewrite ents_app, fmap_app, elem_of_app, IH. split.
  - intros [He|(q & Hq & He)]; [exists p; split; [by left|done]|exists q; split; [by right|done]].
  - intros (q & [->|Hq]%elem_of_cons & He); [by left|right; by exists q].
Qed.
Lemma elem_leaves nd cs e : e ∈ (ents nd (leaves cs)).*1 <-> exists c, c ∈ cs /\ e ∈ (ents nd c.1).*1.
Proof.
  rewrite elem_ents. split.
  - intros (p & (c & Hp & Hc)%list_elem_of_bind & He). exists c. split; [done|]. apply elem_ents. by exists p.
  - intros (c & Hc & (p & Hp & He)%elem_ents). exists p. split; [|done]. apply list_elem_of_bind. by exists c.
Qed.

Lemma tree_inside nd n : forall p par lo hi ls ps, tree nd n p par lo hi ls ps -> forall e, e ∈ (ents nd ls).*1 -> inside lo hi e.
Proof.
  induction n as [|n IH]; intros p par lo hi ls ps; cbn [tree].
  - intros (_ & [_ Hl] & [_ _ _ Hi] & -> & _) e. rewrite leaf_ents by done. intros (k & -> & Hk)%list_elem_of_fmap.
    by apply (proj1 (Forall_forall _ _) Hi).
  - intros (_ & _ & _ & cs & -> & _ & Hk) e (c & Hc & He)%elem_leaves.
    destruct (kids_in _ _ _ _ _ _ _ Hk Hc) as (r & l & u & _ & Ht & H1 & H2). destruct (IH _ _ _ _ _ _ Ht e He). split; auto.
Qed.

(** *** A tree with a hole

    [hole nd n q p lo hi m root B A O]: in a tree of height [m] at page [root], the rest around a subtree of
    height [n] at page [q], of parent [p] and with keys from [lo] to [hi]: the leaves before and after it, and
    the pages. *)
Inductive hole (nd : Z -> node) (m : nat) (root : Z) : nat -> Z -> Z -> option (list Z) -> option (list Z) -> list Z -> list Z -> list Z -> Prop :=
  | hole_root : hole nd m root m root INVALID_PAGE_ID None None [] [] []
  | hole_down n p par lo hi B A O ks1 ks2 rs1 r rs2 cs1 cs2 lo' hi' :
      hole nd m root (S n) p par lo hi B A O ->
      n_par (nd p) = par -> small (nd p) -> n_leaf (nd p) = false ->
      n_keys (nd p) = ks1 ++ ks2 -> n_rids (nd p) = rs1 ++ r :: rs2 ->
      upto (child (tree nd n) p) lo ks1 rs1 cs1 lo' -> proper lo' hi' -> rest (child (tree nd n) p) hi hi' ks2 rs2 cs2 ->
      hole nd m root n (rid_page_no r) p lo' hi' (B ++ leaves cs1) (leaves cs2 ++ A) (p :: pages cs1 ++ pages cs2 ++ O).

Lemma kids_child_frame nd nd' n p lo hi ks rs cs : (forall q, q ∈ pages cs -> nd' q = nd q) ->
  (upto (child (tree nd n) p) lo ks rs cs hi -> upto (child (tree nd' n) p) lo ks rs cs hi) /\
  (rest (child (tree nd n) p) hi lo ks rs cs -> rest (child (tree nd' n) p) hi lo ks rs cs).
Proof.
  intros He. assert (Ht : forall r l u c, r ∈ rs -> c ∈ cs -> child (tree nd n) p r l u c -> child (tree nd' n) p r l u c).
  { intros r l u c _ Hc Ht. eapply tree_frame; [|exact Ht]. intros q Hq. apply He. by eapply in_pages. }
  split; [by apply upto_mono|by apply rest_mono].
Qed.

Lemma hole_frame nd nd' m root n q p lo hi B A O : (forall x, x ∈ O -> nd' x = nd x) ->
  hole nd m root n q p lo hi B A O -> hole nd' m root n q p lo hi B A O.
Proof.
  intros He Hh. induction Hh as [|n p par lo hi B A O ks1 ks2 rs1 r rs2 cs1 cs2 lo' hi' Hh IH Q1 Q2 Q3 Q4 Q5 Hu Hp Hr]; [constructor|].
  assert (E0 : nd' p = nd p) by (apply He; by left).
  eapply (hole_down nd' m root n p par lo hi); rewrite ?E0; try done.
  - apply IH. intros x Hx. apply He. rewrite elem_of_cons, !elem_of_app. by auto.
  - apply (kids_child_frame nd nd'); [|done]. intros x Hx. apply He. rewrite elem_of_cons, !elem_of_app. by auto.
  - apply (kids_child_frame nd nd'); [|done]. intros x Hx. apply He. rewrite elem_of_cons, !elem_of_app. by auto.
Qed.

Lemma leaves_app a b : leaves (a ++ b) = leaves a ++ leaves b.
Proof. apply bind_app. Qed.
Lemma pages_app a b : pages (a ++ b) = pages a ++ pages b.
Proof. apply bind_app. Qed.

(** The hole is filled. *)
Lemma plug nd m root n q p lo hi B A O ls ps : hole nd m root n q p lo hi B A O -> tree nd n q p lo hi ls ps ->
  exists ps', tree nd m root INVALID_PAGE_ID None None (B ++ ls ++ A) ps' /\ ps' ≡ₚ ps ++ O.
Proof.
  intros Hh. revert ls ps. induction Hh as [|n p par lo hi B A O ks1 ks2 rs1 r rs2 cs1 cs2 lo' hi' Hh IH Q1 Q2 Q3 Q4 Q5 Hu Hp Hr]; intros ls ps Ht.
  - exists ps. rewrite !app_nil_r. by split.
  - destruct (IH (leaves (cs1 ++ (ls, ps) :: cs2)) (p :: pages (cs1 ++ (ls, ps) :: cs2))) as (ps' & Ht' & Hp').
    { cbn [tree]. split_and!; try done. eexists. split_and!; [done..|]. rewrite Q4, Q5. by eapply kids_intro. }
    exists ps'. rewrite leaves_app in Ht'. cbn in Ht'. fold (leaves cs2) in Ht'. rewrite <- !app_assoc in *.
    split; [exact Ht'|]. rewrite Hp', pages_app. cbn. fold (pages cs2). rewrite <- !app_assoc. solve_Permutation.
Qed.

(** One step down: the hole of the child a key belongs to. *)
Lemma descend nd m root n p par lo hi B A O ls ps k :
  hole nd m root (S n) p par lo hi B A O -> tree nd (S n) p par lo hi ls ps -> inside lo hi (rk k) ->
  exists r ls' ps' lo' hi' B' A' O', n_rids (nd p) !! first_gt h k (tail (n_keys (nd p))) = Some r /\
    hole nd m root n (rid_page_no r) p lo' hi' B' A' O' /\ tree nd n (rid_page_no r) p lo' hi' ls' ps' /\
    inside lo' hi' (rk k) /\ B' ++ ls' ++ A' = B ++ ls ++ A /\ ps' ++ O' ≡ₚ ps ++ O /\ p ∈ O'.
Proof.
  intros Hh (Q1 & Q2 & Q3 & cs & -> & -> & Hk) Hi.
  destruct (kids_find _ _ _ _ _ _ _ Hk Hi) as (ks1 & ks2 & rs1 & rs2 & cs1 & cs2 & r & c & l & u & E1 & E2 & -> & E4 & Hu & Hp & Ht & Hr & Hin).
  exists r, c.1, c.2, l, u, (B ++ leaves cs1), (leaves cs2 ++ A), (p :: pages cs1 ++ pages cs2 ++ O). split_and!.
  - rewrite <- E4, E2. apply list_lookup_middle. done.
  - by eapply hole_down.
  - exact Ht.
  - exact Hin.
  - rewrite leaves_app. cbn. fold (leaves cs2). by rewrite <- !app_assoc.
  - rewrite pages_app. cbn. fold (pages cs2). rewrite <- !app_assoc. solve_Permutation.
  - by left.
Qed.

Lemma tree_leaves nd n : forall p par lo hi ls ps q, tree nd n p par lo hi ls ps -> q ∈ ls -> q ∈ ps.
Proof.
  induction n as [|n IH]; intros p par lo hi ls ps q; cbn [tree]; [by intros (_ & _ & _ & -> & ->)|].
  intros (_ & _ & _ & cs & -> & -> & Hk) (c & Hq & Hc)%list_elem_of_bind. right.
  destruct (kids_in _ _ _ _ _ _ _ Hk Hc) as (r & l & u & _ & Ht & _). eapply in_pages; [done|]. by eapply IH.
Qed.
Lemma tree_sublist nd n : forall p par lo hi ls ps, tree nd n p par lo hi ls ps -> ls `sublist_of` ps.
Proof.
  induction n as [|n IH]; intros p par lo hi ls ps; cbn [tree]; [by intros (_ & _ & _ & -> & ->)|].
  intros (_ & _ & _ & cs & -> & -> & Hk). apply sublist_cons.
  assert (Hc : Forall (fun c => c.1 `sublist_of` c.2) cs).
  { apply Forall_forall. intros c Hc. destruct (kids_in _ _ _ _ _ _ _ Hk Hc) as (r & l & u & _ & Ht & _). by eapply IH. }
  clear Hk. induction Hc as [|c cs H1 _ IHc]; [constructor|]. by apply sublist_app.
Qed.
(** The leaves outside of a hole are pages outside of it. *)
Lemma hole_leaves nd m root n q p lo hi B A O x : hole nd m root n q p lo hi B A O -> x ∈ B \/ x ∈ A -> x ∈ O.
Proof.
  intros Hh. induction Hh as [|n p par lo hi B A O ks1 ks2 rs1 r rs2 cs1 cs2 lo' hi' Hh IH Q1 Q2 Q3 Q4 Q5 Hu Hp Hr];
    [by intros [?%elem_of_nil|?%elem_of_nil]|].
  rewrite elem_of_cons, !elem_of_app. intros [[HB|(c & Hx & Hc)%list_elem_of_bind]|[(c & Hx & Hc)%list_elem_of_bind|HA]]; [tauto| | |tauto].
  - destruct (upto_in _ _ _ _ _ _ _ Hu Hc) as (r' & l & u & _ & Ht & _). right. left. eapply in_pages; [done|]. by eapply tree_leaves.
  - destruct (rest_in _ _ _ _ _ _ _ Hr Hc) as (r' & l & u & _ & Ht & _). right. right. left. eapply in_pages; [done|]. by eapply tree_leaves.
Qed.

(** What is stored outside of a hole is outside of its range. *)
Lemma hole_outside nd m root n q p lo hi B A O e : hole nd m root n q p lo hi B A O -> inside lo hi e ->
  e ∉ (ents nd B).*1 /\ e ∉ (ents nd A).*1.
Proof.
  intros Hh. induction Hh as [|n p par lo hi B A O ks1 ks2 rs1 r rs2 cs1 cs2 lo' hi' Hh IH Q1 Q2 Q3 Q4 Q5 Hu Hp Hr]; intros [Ha Hb].
  - by split; intros ?%elem_of_nil.
  - destruct IH as [I1 I2]; [split; [by eapply upto_above|by eapply rest_under]|].
    rewrite !ents_app, !fmap_app, !elem_of_app. split; intros [He|He]; [done| | |done].
    + apply elem_leaves in He as (c & Hc & He). destruct (upto_in _ _ _ _ _ _ _ Hu Hc) as (r' & l & u & _ & Ht & _ & H2).
      destruct (tree_inside _ _ _ _ _ _ _ _ Ht e He) as [_ He2]. specialize (H2 e He2).
      destruct lo' as [l'|]; [specialize (Ha l' eq_refl); specialize (H2 l' eq_refl); rewrite lex_opp in H2; lia|].
      inversion Hu; subst; by apply elem_of_nil in Hc.
    + apply elem_leaves in He as (c & Hc & He). destruct (rest_in _ _ _ _ _ _ _ Hr Hc) as (r' & l & u & _ & Ht & H1 & _).
      destruct (tree_inside _ _ _ _ _ _ _ _ Ht e He) as [He1 _]. specialize (H1 e He1).
      destruct hi' as [u'|]; [specialize (Hb u' eq_refl); specialize (H1 u' eq_refl); rewrite lex_opp in H1; lia|].
      inversion Hr; subst; by apply elem_of_nil in Hc.
Qed.

Lemma map_of_lookup nd B ls A e : e ∉ (ents nd B).*1 -> e ∉ (ents nd A).*1 ->
  map_of nd (B ++ ls ++ A) !! e = map_of nd ls !! e.
Proof.
  intros HB HA. rewrite !map_of_app, lookup_union. unfold map_of at 1. rewrite (not_elem_of_list_to_map_1 _ _ HB).
  rewrite lookup_union. unfold map_of at 2. rewrite (not_elem_of_list_to_map_1 _ _ HA).
  rewrite (right_id_L None union). by rewrite (left_id_L None union).
Qed.
Lemma map_of_insert nd nd' B p A e v : e ∉ (ents nd B).*1 -> e ∉ (ents nd A).*1 ->
  (forall q, q ∈ B ++ A -> nd' q = nd q) -> map_of nd' [p] = <[e := v]> (map_of nd [p]) ->
  map_of nd' (B ++ [p] ++ A) = <[e := v]> (map_of nd (B ++ [p] ++ A)).
Proof.
  intros HB HA He Hp. rewrite !map_of_app, Hp. unfold map_of at 1 3 4 6.
  rewrite !(ents_frame nd nd') by (intros q Hq; apply He, elem_of_app; by auto).
  rewrite <- insert_union_l, <- insert_union_r; [done|]. by apply not_elem_of_list_to_map_1.
Qed.

(** *** Splitting *)

Lemma ents_same nd nd' ls : (forall q, q ∈ ls -> n_keys (nd' q) = n_keys (nd q) /\ n_rids (nd' q) = n_rids (nd q)) ->
  ents nd' ls = ents nd ls.
Proof.
  intros He. induction ls as [|p ls IH]; [done|]. cbn. destruct (He p) as [-> ->]; [by left|]. f_equal.
  apply IH. intros q Hq. apply He. by right.
Qed.

Definition cut (i : nat) (x : node) : node := mkNode (n_leaf x) (n_par x) (take i (n_keys x)) (take i (n_rids x)).
Definition cut_off (i : nat) (x : node) : node := mkNode (n_leaf x) (n_par x) (drop i (n_keys x)) (drop i (n_rids x)).

(** A leaf with [nd p] as its node is split before its [i]-th key. *)
Lemma leaf_split nd nd' p p2 lo hi i k : leaf_node (nd p) lo hi -> length (n_rids (nd p)) = length (n_keys (nd p)) ->
  (0 < i)%nat -> n_keys (nd p) !! i = Some k -> nd' p = cut i (nd p) -> nd' p2 = cut_off i (nd p) ->
  leaf_node (nd' p) lo (Some (rk k)) /\ leaf_node (nd' p2) (Some (rk k)) hi /\ good_key h k /\
  proper lo (Some (rk k)) /\ proper (Some (rk k)) hi /\ ents nd' [p; p2] = ents nd [p].
Proof.
  intros [L1 L2 L3 L4] Hl H0 Hk Ep Ep2. pose proof (proj1 (Forall_lookup _ _) L4 i k Hk) as [Hk1 Hk2].
  rewrite <- (take_drop i (n_keys (nd p))) in L3. apply StronglySorted_app in L3 as (S1 & S2 & S3).
  assert (Hd : drop i (n_keys (nd p)) = k :: drop (S i) (n_keys (nd p))) by (by apply drop_S).
  assert (Hlow : forall a, a ∈ take i (n_keys (nd p)) -> lex (rk a) (rk k) < 0).
  { intros a Ha. apply S1; [done|]. rewrite Hd. by left. }
  assert (Hup : forall a, a ∈ drop i (n_keys (nd p)) -> lex (rk k) (rk a) <= 0).
  { intros a. rewrite Hd in *. intros [->|Ha]%elem_of_cons; [by rewrite lex_refl|]. apply Z.lt_le_incl.
    inversion S3 as [|? ? _ Hf]; subst. by apply (proj1 (Forall_forall _ _) Hf). }
  split_and!.
  - rewrite Ep. split; cbn; [done|by apply Forall_take|done|]. apply Forall_forall. intros a Ha. split; [|by intros ? [= <-]; apply Hlow].
    eapply (proj1 (Forall_forall _ _) (Forall_take _ i _ L4) a Ha).
  - rewrite Ep2. split; cbn; [done|by apply Forall_drop|done|]. apply Forall_forall. intros a Ha. split; [by intros ? [= <-]; apply Hup|].
    eapply (proj1 (Forall_forall _ _) (Forall_drop _ i _ L4) a Ha).
  - by apply (proj1 (Forall_lookup _ _) L2 i).
  - destruct (lookup_lt_is_Some_2 (n_keys (nd p)) 0%nat) as [a Ha]; [apply lookup_lt_Some in Hk; lia|].
    intros l ->. intros u [= <-]. eapply lex_le_lt; [by apply (proj1 (Forall_lookup _ _) L4 0%nat a Ha)|].
    apply Hlow, list_elem_of_lookup. exists 0%nat. by rewrite lookup_take_lt.
  - intros l [= <-]. exact Hk2.
  - change [p; p2] with ([p] ++ [p2]). rewrite ents_app, !ents_one. cbn [cut cut_off n_keys n_rids]. rewrite Ep, Ep2. cbn [cut cut_off n_keys n_rids].
    rewrite fmap_take, fmap_drop.
    rewrite <- zip_with_app by (rewrite !length_take, length_fmap; lia). by rewrite !take_drop.
Qed.

Lemma pages_disjoint cs c c' q : NoDup (pages cs) -> c ∈ cs -> c' ∈ cs -> q ∈ c.2 -> q ∈ c'.2 -> c = c'.
Proof.
  induction cs as [|x cs IH]; intros Hd Hc Hc' Hq Hq'; [by apply elem_of_nil in Hc|].
  cbn in Hd. fold (pages cs) in Hd. apply NoDup_app in Hd as (D1 & D2 & D3).
  apply elem_of_cons in Hc as [->|Hc], Hc' as [->|Hc']; [done|destruct (D2 q Hq); by eapply in_pages|destruct (D2 q Hq'); by eapply in_pages|].
  by apply IH.
Qed.

Lemma kid_of nd n p lo hi ks rs cs q : kids (child (tree nd n) p) lo hi ks rs cs -> q ∈ rid_page_no <$> rs ->
  exists c ps', c ∈ cs /\ c.2 = q :: ps'.
Proof.
  intros Hk (r & -> & (i & Hi)%list_elem_of_lookup)%list_elem_of_fmap.
  destruct (kids_at _ _ _ _ _ _ _ _ Hk Hi) as (ks1 & ks2 & rs1 & rs2 & cs1 & cs2 & c & lo' & hi' & _ & _ & -> & _ & _ & _ & Ht & _).
  destruct (tree_root _ _ _ _ _ _ _ _ Ht) as [ps' E]. exists c, ps'. split; [|done]. apply elem_of_app. right. by left.
Qed.
Lemma kids_leaves nd n p lo hi ks rs cs q : kids (child (tree nd n) p) lo hi ks rs cs -> q ∈ leaves cs -> q ∈ pages cs.
Proof.
  intros Hk (c & Hq & Hc)%list_elem_of_bind. destruct (kids_in _ _ _ _ _ _ _ Hk Hc) as (r & l & u & _ & Ht & _).
  eapply in_pages; [done|]. by eapply tree_leaves.
Qed.

(** An inner node is split before its [i]-th child; the children of the second half change their parent. *)
Lemma inner_split nd nd' n p p2 par lo hi i cs :
  kids (child (tree nd n) p) lo hi (n_keys (nd p)) (n_rids (nd p)) cs -> n_leaf (nd p) = false -> n_par (nd p) = par ->
  Z.of_nat (length (n_keys (nd p))) <= btree_order_ h -> (0 < i < length (n_rids (nd p)))%nat -> NoDup (p :: p2 :: pages cs) ->
  nd' p = cut i (nd p) -> nd' p2 = cut_off i (nd p) ->
  (forall q, q ∈ pages cs -> nd' q = if bool_decide (q ∈ rid_page_no <$> drop i (n_rids (nd p))) then set_par p2 (nd q) else nd q) ->
  exists k, n_keys (nd p) !! i = Some k /\ good_key h k /\ proper lo (Some (rk k)) /\ proper (Some (rk k)) hi /\
    tree nd' (S n) p par lo (Some (rk k)) (leaves (take i cs)) (p :: pages (take i cs)) /\
    tree nd' (S n) p2 par (Some (rk k)) hi (leaves (drop i cs)) (p2 :: pages (drop i cs)) /\
    ents nd' (leaves cs) = ents nd (leaves cs).
Proof.
  intros Hk Hl Hpar Hlen Hi Hd Ep Ep2 Hq.
  destruct (kids_length _ _ _ _ _ _ Hk) as (L1 & L2 & _). apply NoDup_cons in Hd as [Dp Hd]. apply NoDup_cons in Hd as [Dp2 Hd].
  destruct (kids_cut _ _ _ _ _ _ _ Hk Hi) as (k & Ek & Hg & P1 & P2 & K1 & K2).
  assert (Hpg : pages cs = pages (take i cs) ++ pages (drop i cs)) by (by rewrite <- pages_app, take_drop).
  assert (Hdis : forall q, q ∈ pages (take i cs) -> q ∉ rid_page_no <$> drop i (n_rids (nd p))).
  { intros q Hin Hr. destruct (kid_of _ _ _ _ _ _ _ _ _ K2 Hr) as (c & ps' & Hc & Ec). rewrite Hpg in Hd.
    apply NoDup_app in Hd as (_ & Hd & _). apply (Hd q Hin). apply (in_pages _ c); [done|]. rewrite Ec. by left. }
  exists k. split_and!; try done.
  - cbn [tree]. rewrite Ep. cbn [cut n_par n_leaf n_keys n_rids]. split_and!; [done| |done|].
    { split; cbn; rewrite !length_take; lia. }
    eexists. split_and!; [done..|]. eapply kids_mono; [|exact K1]. intros r l u c _ Hc Ht. eapply tree_frame; [|exact Ht].
    intros q Hin. assert (q ∈ pages (take i cs)) as Hin2 by (by eapply in_pages).
    rewrite Hq by (rewrite Hpg; apply elem_of_app; by left). rewrite bool_decide_false; [done|]. by apply Hdis.
  - cbn [tree]. rewrite Ep2. cbn [cut_off n_par n_leaf n_keys n_rids]. split_and!; [done| |done|].
    { split; cbn; rewrite !length_drop; lia. }
    eexists. split_and!; [done..|]. eapply kids_mono; [|exact K2]. intros r l u c Hr Hc Ht.
    destruct (tree_root _ _ _ _ _ _ _ _ Ht) as [ps' Ec].
    assert (Hin : forall q, q ∈ c.2 -> q ∈ pages cs).
    { intros q Hin. rewrite Hpg. apply elem_of_app. right. by eapply in_pages. }
    assert (Hdd : NoDup (pages (drop i cs))) by (rewrite Hpg in Hd; by apply NoDup_app in Hd as (_ & _ & Hd)).
    eapply (tree_reparent nd); [|intros q Hq1 Hq2| |exact Ht].
    + clear -Hdd Hc. induction (drop i cs) as [|x xs IH]; [by apply elem_of_nil in Hc|]. cbn in Hdd. fold (pages xs) in Hdd.
      apply NoDup_app in Hdd as (D1 & _ & D2). apply elem_of_cons in Hc as [->|Hc]; [done|by apply IH].
    + rewrite Hq by (by apply Hin). rewrite bool_decide_false; [done|]. intros Hroot.
      destruct (kid_of _ _ _ _ _ _ _ _ _ K2 Hroot) as (c' & ps2 & Hc' & Ec').
      assert (c' = c) as -> by (apply (pages_disjoint (drop i cs) _ _ q); [done..|rewrite Ec'; by left|done]). congruence.
    + rewrite Hq by (apply Hin; rewrite Ec; by left). rewrite bool_decide_true; [done|]. by apply list_elem_of_fmap_2.
  - apply ents_same. intros q Hin. apply (kids_leaves _ _ _ _ _ _ _ _ _ Hk) in Hin. rewrite Hq by done. by case_bool_decide.
Qed.

(** *** Bounds that move *)

Lemma upto_first {C : Type} (T : Rid -> option (list Z) -> option (list Z) -> C -> Prop) lo ks rs cs lo' : upto T lo ks rs cs lo' ->
  exists d ks', ks = d :: ks' /\ forall l, lo = Some l -> rk d = l /\ good_key h d.
Proof.
  induction 1 as [d Hd|ks rs cs lo' r c k _ (d & ks' & -> & Hd) _ _ _]; [by exists d, []|]. by exists d, (ks' ++ [k]).
Qed.
Lemma upto_nil {C : Type} (T : Rid -> option (list Z) -> option (list Z) -> C -> Prop) lo ks cs lo' : upto T lo ks [] cs lo' ->
  exists d, ks = [d] /\ cs = [] /\ lo' = lo.
Proof.
  intros Hu. inversion Hu as [d Hd|ks0 rs0 cs0 lo1 r c k H1 H2 H3 H4 E1 E2 E3 E4]; subst; [by exists d|]. by destruct rs0.
Qed.

Lemma kids_single {C : Type} (T : Rid -> option (list Z) -> option (list Z) -> C -> Prop) lo hi ks rs cs : kids T lo hi ks rs cs -> length rs = 1%nat ->
  exists r c, rs = [r] /\ cs = [c] /\ T r lo hi c.
Proof.
  intros [ks1 ks2 rs1 rs2 cs1 cs2 r c lo' hi' Hu Hp Ht Hr] Hl. rewrite length_app in Hl. cbn in Hl.
  destruct rs1; [|cbn in Hl; lia]. destruct rs2; [|cbn in Hl; lia]. destruct (upto_nil _ _ _ _ _ Hu) as (d & -> & -> & ->).
  inversion Hr; subst. by exists r, c.
Qed.

(** [T] holds for a child also below a greater upper bound. *)
Definition widens {C : Type} (T : Rid -> option (list Z) -> option (list Z) -> C -> Prop) : Prop :=
  forall r l u u' c, T r l u c -> (forall x, under u x -> under u' x) -> T r l u' c.

Lemma rest_widen {C : Type} (T : Rid -> option (list Z) -> option (list Z) -> C -> Prop) hi hi2 hi' ks rs cs : widens T ->
  (forall x, under hi x -> under hi2 x) -> rest T hi hi' ks rs cs ->
  (ks = [] /\ rs = [] /\ cs = [] /\ hi' = hi) \/ rest T hi2 hi' ks rs cs.
Proof.
  intros Hw Hle. induction 1 as [|k r c hi1 ks rs cs Hg Hp Ht _ IH]; [by left|]. right.
  destruct IH as [(-> & -> & -> & ->)|IH].
  - apply (rest_cons _ _ _ _ _ hi2); [done| |by eapply Hw|constructor]. intros l E. apply Hle. by apply Hp.
  - by apply (rest_cons _ _ _ _ _ hi1).
Qed.
Lemma kids_widen {C : Type} (T : Rid -> option (list Z) -> option (list Z) -> C -> Prop) lo hi hi2 ks rs cs : widens T ->
  (forall x, under hi x -> under hi2 x) -> kids T lo hi ks rs cs -> kids T lo hi2 ks rs cs.
Proof.
  intros Hw Hle [ks1 ks2 rs1 rs2 cs1 cs2 r c lo' hi' Hu Hp Ht Hr].
  destruct (rest_widen _ _ _ _ _ _ _ Hw Hle Hr) as [(-> & -> & -> & ->)|Hr2].
  - apply (kids_intro _ _ _ _ _ _ _ _ _ _ _ lo' hi2); [done| |by eapply Hw|constructor]. intros l E. apply Hle. by apply Hp.
  - by apply (kids_intro _ _ _ _ _ _ _ _ _ _ _ lo' hi').
Qed.
Lemma tree_widen nd n : forall p par lo hi hi2 ls ps, (forall x, under hi x -> under hi2 x) ->
  tree nd n p par lo hi ls ps -> tree nd n p par lo hi2 ls ps.
Proof.
  induction n as [|n IH]; intros p par lo hi hi2 ls ps Hle; cbn [tree].
  - intros (Q1 & Q2 & [L1 L2 L3 L4] & -> & ->). split_and!; try done. split; try done.
    eapply Forall_impl; [exact L4|]. intros k [Ha Hb]. split; [done|]. by apply Hle.
  - intros (Q1 & Q2 & Q3 & cs & -> & -> & Hk). split_and!; try done. exists cs. split_and!; try done.
    eapply kids_widen; [|exact Hle|exact Hk]. intros r l u u' c Ht Hu. by eapply IH.
Qed.
Lemma child_widens nd n p : widens (child (tree nd n) p).
Proof. intros r l u u' c Ht Hu. by eapply tree_widen. Qed.

(** The key of a child that is not the first is raised. *)
Lemma upto_raise {C : Type} (T : Rid -> option (list Z) -> option (list Z) -> C -> Prop) lo ks rs cs lo' k : widens T ->
  upto T lo ks rs cs lo' -> rs <> [] -> good_key h k -> (forall l, lo' = Some l -> lex l (rk k) <= 0) ->
  upto T lo (<[length rs := k]> ks) rs cs (Some (rk k)).
Proof.
  intros Hw Hu Hne Hg Hle. destruct Hu as [d Hd|ks rs cs lo1 r c k1 Hu Hp Hg1 Ht]; [done|].
  destruct (upto_length _ _ _ _ _ _ Hu) as [E _]. rewrite length_app, Nat.add_1_r, <- E.
  rewrite insert_app_r_alt, Nat.sub_diag by done. cbn [list_insert].
  assert (Hun : forall x, under (Some (rk k1)) x -> under (Some (rk k)) x).
  { intros x Hx u [= <-]. eapply lex_lt_le; [by apply Hx|by apply Hle]. }
  apply (upto_snoc _ _ _ _ _ lo1); [done|intros l El; by apply Hun, Hp|done|by eapply Hw].
Qed.

Lemma map_of_delete nd nd' B p A e : e ∉ (ents nd B).*1 -> e ∉ (ents nd A).*1 ->
  (forall q, q ∈ B ++ A -> nd' q = nd q) -> map_of nd' [p] = delete e (map_of nd [p]) ->
  map_of nd' (B ++ [p] ++ A) = delete e (map_of nd (B ++ [p] ++ A)).
Proof.
  intros HB HA He Hp. rewrite !map_of_app, Hp. unfold map_of at 1 3 4 6.
  rewrite !(ents_frame nd nd') by (intros q Hq; apply He, elem_of_app; by auto).
  rewrite !delete_union. rewrite (delete_id (list_to_map (ents nd B))), (delete_id (list_to_map (ents nd A))); [done|by apply not_elem_of_list_to_map_1..].
Qed.

(** Leaves are leaves. *)
Lemma tree_leaf_nodes nd n : forall p par lo hi ls ps q, tree nd n p par lo hi ls ps -> q ∈ ls -> n_leaf (nd q) = true.
Proof.
  induction n as [|n IH]; intros p par lo hi ls ps q; cbn [tree]; [by intros (_ & _ & [] & -> & ->) ->%list_elem_of_singleton|].
  intros (_ & _ & _ & cs & -> & -> & Hk) (c & Hq & Hc)%list_elem_of_bind.
  destruct (kids_in _ _ _ _ _ _ _ Hk Hc) as (r & l & u & _ & Ht & _). by eapply IH.
Qed.

(** The last of the keys is the bound. *)
Lemma upto_last {C : Type} (T : Rid -> option (list Z) -> option (list Z) -> C -> Prop) lo ks rs cs lo' : upto T lo ks rs cs lo' ->
  exists k, ks !! length rs = Some k /\ forall l, lo' = Some l -> rk k = l /\ good_key h k.
Proof.
  intros Hu. destruct Hu as [d Hd|ks rs cs lo1 r c k Hu Hp Hg Ht]; [by exists d|]. exists k.
  destruct (upto_length _ _ _ _ _ _ Hu) as [E _]. rewrite length_app, Nat.add_1_r, <- E. split; [by apply list_lookup_middle|by intros l [= <-]].
Qed.

(** [lo2] is the rank of the first key, and not less than [lo]. *)
Definition raised (lo lo2 : option (list Z)) (ks : list bytes) : Prop :=
  match lo with
  | None => lo2 = None
  | Some l => exists k ks', ks = k :: ks' /\ lo2 = Some (rk k) /\ lex l (rk k) <= 0 /\ good_key h k
  end.

Lemma raised_self {C : Type} (T : Rid -> option (list Z) -> option (list Z) -> C -> Prop) lo ks rs cs lo' ks2 : upto T lo ks rs cs lo' ->
  raised lo lo (ks ++ ks2).
Proof.
  intros Hu. destruct (upto_first _ _ _ _ _ _ Hu) as (d & ks' & -> & Hd). destruct lo as [l0|]; [|done].
  destruct (Hd l0 eq_refl) as [<- Hg]. exists d, (ks' ++ ks2). split_and!; [done..|by rewrite lex_refl|done].
Qed.

(** The key of a child becomes the first key of the child. *)
Lemma upto_set {C : Type} (T : Rid -> option (list Z) -> option (list Z) -> C -> Prop) lo0 ks1 ks2 rs1 cs1 lo lo2 k : widens T ->
  upto T lo0 ks1 rs1 cs1 lo -> raised lo lo2 [k] ->
  exists lo02 ks1', <[length rs1 := k]> (ks1 ++ ks2) = ks1' ++ ks2 /\ upto T lo02 ks1' rs1 cs1 lo2 /\ raised lo0 lo02 (ks1' ++ ks2).
Proof.
  intros Hw Hu Hra. destruct (upto_length _ _ _ _ _ _ Hu) as [El _].
  assert (Hins : <[length rs1 := k]> (ks1 ++ ks2) = <[length rs1 := k]> ks1 ++ ks2) by (apply insert_app_l; lia).
  destruct rs1 as [|r0 rs1].
  - destruct (upto_nil _ _ _ _ _ Hu) as (d & -> & -> & ->). exists lo2, [k]. split_and!; [done| |].
    + constructor. intros l ->. destruct lo0 as [l0|]; [|done]. by destruct Hra as (k' & ks' & [= <- _] & [= ->] & _ & Hg).
    + destruct lo0 as [l0|]; [|done]. destruct Hra as (k' & ks' & [= <- _] & -> & Hle & Hg). by exists k, ks2.
  - assert (exists l, lo = Some l) as [l ->].
    { remember (r0 :: rs1) as rs eqn:E in Hu. destruct Hu; [done|by eexists]. }
    destruct Hra as (k' & ks' & [= <- _] & -> & Hle & Hg). exists lo0, (<[length (r0 :: rs1) := k]> ks1). split_and!; [done| |].
    + eapply upto_raise; [done|exact Hu|done|done|]. by intros ? [= <-].
    + eapply raised_self, upto_raise; [done|exact Hu|done|done|]. by intros ? [= <-].
Qed.

(** *** Joining leaves *)

Lemma ents_two nd a b : length (n_rids (nd a)) = length (n_keys (nd a)) ->
  ents nd [a; b] = zip (rk <$> n_keys (nd a) ++ n_keys (nd b)) (n_rids (nd a) ++ n_rids (nd b)).
Proof.
  intros Hl. change [a; b] with ([a] ++ [b]). rewrite ents_app, !ents_one, fmap_app. symmetry. apply zip_with_app.
  by rewrite length_fmap.
Qed.

(** The leaf with the pairs of two that are next to each other. *)
Definition joined (par : Z) (x y : node) : node := mkNode true par (n_keys x ++ n_keys y) (n_rids x ++ n_rids y).
Lemma leaf_join par x y lo hi k : leaf_node x lo (Some (rk k)) -> leaf_node y (Some (rk k)) hi ->
  proper lo (Some (rk k)) -> proper (Some (rk k)) hi -> leaf_node (joined par x y) lo hi.
Proof.
  intros [X1 X2 X3 X4] [Y1 Y2 Y3 Y4] P1 P2. split; cbn; [done|by apply Forall_app| |].
  - apply StronglySorted_app_2; [|done..]. intros a b Ha Hb.
    destruct (proj1 (Forall_forall _ _) X4 a Ha) as [_ Ha2], (proj1 (Forall_forall _ _) Y4 b Hb) as [Hb1 _].
    eapply lex_lt_le; [by apply Ha2|by apply Hb1].
  - apply Forall_app. split; (eapply Forall_impl; [eassumption|]); intros a [Ha1 Ha2]; split; try done.
    + intros u ->. eapply lex_lt_trans; [by apply Ha2|by apply P2].
    + intros z ->. apply Z.lt_le_incl. eapply lex_lt_le; [by apply P1|by apply Ha1].
Qed.
Lemma leaf_resplit x lo hi i k : leaf_node x lo hi -> length (n_rids x) = length (n_keys x) -> (0 < i)%nat -> n_keys x !! i = Some k ->
  leaf_node (cut i x) lo (Some (rk k)) /\ leaf_node (cut_off i x) (Some (rk k)) hi /\ good_key h k /\
  proper lo (Some (rk k)) /\ proper (Some (rk k)) hi.
Proof.
  intros Hx Hl Hi Hk.
  destruct (leaf_split (fun _ => x) (fun q => if q =? 0 then cut i x else cut_off i x) 0 1 lo hi i k) as (L1 & L2 & L3 & L4 & L5 & _); done.
Qed.

(** *** Two leaves of one parent

    The tree around the children of [P] between those of [cs1] and of [cs2]. *)
Record family (nd : Z -> node) (m : nat) (root P par : Z) (lo hi : option (list Z)) (B A O : list Z)
    (ks1 ks2 : list bytes) (rs1 rs2 : list Rid) (cs1 cs2 : list (list Z * list Z)) (lo' hi' : option (list Z)) : Prop := {
  fm_hole : hole nd m root 1 P par lo hi B A O;
  fm_par : n_par (nd P) = par;
  fm_inner : n_leaf (nd P) = false;
  fm_upto : upto (child (tree nd 0) P) lo ks1 rs1 cs1 lo';
  fm_rest : rest (child (tree nd 0) P) hi hi' ks2 rs2 cs2;
}.
Lemma family_frame nd nd' m root P par lo hi B A O ks1 ks2 rs1 rs2 cs1 cs2 lo' hi' :
  (forall q, q ∈ pages cs1 ++ pages cs2 ++ O -> nd' q = nd q) -> n_par (nd' P) = n_par (nd P) -> n_leaf (nd' P) = n_leaf (nd P) ->
  family nd m root P par lo hi B A O ks1 ks2 rs1 rs2 cs1 cs2 lo' hi' -> family nd' m root P par lo hi B A O ks1 ks2 rs1 rs2 cs1 cs2 lo' hi'.
Proof.
  intros He E1 E2 [F1 F2 F3 F4 F5]. split; [|by rewrite E1|by rewrite E2| |].
  - eapply hole_frame; [|exact F1]. intros q Hq. apply He. rewrite !elem_of_app. auto.
  - apply (kids_child_frame nd); [|exact F4]. intros q Hq. apply He. rewrite !elem_of_app. auto.
  - apply (kids_child_frame nd); [|exact F5]. intros q Hq. apply He. rewrite !elem_of_app. auto.
Qed.

Lemma family_two nd m root P par lo hi B A O ks1 ks2 rs1 rs2 cs1 cs2 lo' hi' k ra rb :
  family nd m root P par lo hi B A O ks1 ks2 rs1 rs2 cs1 cs2 lo' hi' -> small (nd P) ->
  n_keys (nd P) = ks1 ++ k :: ks2 -> n_rids (nd P) = rs1 ++ ra :: rb :: rs2 -> good_key h k ->
  proper lo' (Some (rk k)) -> proper (Some (rk k)) hi' ->
  let a := rid_page_no ra in let b := rid_page_no rb in
  tree nd 0 a P lo' (Some (rk k)) [a] [a] -> tree nd 0 b P (Some (rk k)) hi' [b] [b] ->
  tree nd 1 P par lo hi (leaves cs1 ++ a :: b :: leaves cs2) (P :: pages cs1 ++ a :: b :: pages cs2).
Proof.
  intros [F1 F2 F3 F4 F5] Hs Ek Er Hg P1 P2 a b Ha Hb. cbn [tree]. split_and!; [done..|].
  exists (cs1 ++ ([a], [a]) :: ([b], [b]) :: cs2). split_and!; [by rewrite leaves_app|by rewrite pages_app|].
  rewrite Ek, Er. apply (kids_intro _ _ _ _ _ _ _ _ _ _ ([a], [a]) lo' (Some (rk k))); [done..|].
  by apply (rest_cons _ _ _ _ ([b], [b]) hi').
Qed.
Lemma family_one nd m root P par lo hi B A O ks1 ks2 rs1 rs2 cs1 cs2 lo' hi' ra :
  family nd m root P par lo hi B A O ks1 ks2 rs1 rs2 cs1 cs2 lo' hi' -> small (nd P) ->
  n_keys (nd P) = ks1 ++ ks2 -> n_rids (nd P) = rs1 ++ ra :: rs2 -> proper lo' hi' ->
  let a := rid_page_no ra in tree nd 0 a P lo' hi' [a] [a] ->
  tree nd 1 P par lo hi (leaves cs1 ++ a :: leaves cs2) (P :: pages cs1 ++ a :: pages cs2).
Proof.
  intros [F1 F2 F3 F4 F5] Hs Ek Er P1 a Ha. cbn [tree]. split_and!; [done..|].
  exists (cs1 ++ ([a], [a]) :: cs2). split_and!; [by rewrite leaves_app|by rewrite pages_app|].
  rewrite Ek, Er. by apply (kids_intro _ _ _ _ _ _ _ _ _ _ ([a], [a]) lo' hi').
Qed.

Lemma child_leaf nd p r lo hi c : child (tree nd 0) p r lo hi c -> c = ([rid_page_no r], [rid_page_no r]).
Proof. destruct c as [x y]. unfold child. cbn. by intros (_ & _ & _ & -> & ->). Qed.

(** A leaf whose parent has two children at least has a sibling: the one before it, or, if it is the first, the one after it. *)
Lemma family_of nd m root p P lo1 hi1 B A O : hole nd m root 0 p P lo1 hi1 B A O -> P <> INVALID_PAGE_ID ->
  tree nd 0 p P lo1 hi1 [p] [p] -> (1 < length (n_rids (nd P)))%nat ->
  exists par lo hi B0 A0 O0 ks1 k ks2 rs1 ra rb rs2 cs1 cs2 lo' hi',
    let a := rid_page_no ra in let b := rid_page_no rb in
    family nd m root P par lo hi B0 A0 O0 ks1 ks2 rs1 rs2 cs1 cs2 lo' hi' /\ small (nd P) /\
    n_keys (nd P) = ks1 ++ k :: ks2 /\ n_rids (nd P) = rs1 ++ ra :: rb :: rs2 /\ good_key h k /\
    proper lo' (Some (rk k)) /\ proper (Some (rk k)) hi' /\
    tree nd 0 a P lo' (Some (rk k)) [a] [a] /\ tree nd 0 b P (Some (rk k)) hi' [b] [b] /\
    B ++ p :: A = B0 ++ leaves cs1 ++ a :: b :: leaves cs2 ++ A0 /\ p :: O ≡ₚ P :: pages cs1 ++ a :: b :: pages cs2 ++ O0 /\
    (p = b \/ p = a /\ rs1 = []).
Proof.
  intros Hh HP Ht Hl. inversion Hh as [|n0 P0 par lo hi B0 A0 O0 ks1 ks2 rs1 r rs2 cs1 cs2 lo' hi' Hh0 Q1 Q2 Q3 Q4 Q5 Hu Hp Hr]; subst; [done|].
  set (p := rid_page_no r) in *. destruct Hu as [d Hd|ks rs cs lo'' ra ca k Hu Hp1 Hg Hta].
  - destruct Hr as [|k rb cb hi'' ks rs cs Hg Hp1 Htb Hr]; [by rewrite Q5 in Hl; cbn in Hl; lia|].
    pose proof (child_leaf _ _ _ _ _ _ Htb) as ->.
    exists (n_par (nd P)), lo, hi, B0, A0, O0, [d], k, ks, [], r, rb, rs, [], cs, lo, hi''. intros a b. split_and!; try done.
    + split; try done. by constructor.
    + cbn. rewrite app_nil_r. done.
    + cbn. solve_Permutation.
    + by right.
  - pose proof (child_leaf _ _ _ _ _ _ Hta) as ->.
    exists (n_par (nd P)), lo, hi, B0, A0, O0, ks, k, ks2, rs, ra, r, rs2, cs, cs2, lo'', hi1. intros a b. split_and!; try done.
    + by rewrite Q4, <- app_assoc.
    + by rewrite Q5, <- app_assoc.
    + rewrite leaves_app. cbn. by rewrite <- !app_assoc.
    + rewrite pages_app. cbn. rewrite <- !app_assoc. cbn. solve_Permutation.
    + by left.
Qed.
End trees.
End IxShape.
