(* ===== verification/IxHandle.v ===== *)
(** * Index handles

    The class [IxIndexHandle] of [index/ix_index_handle.h] and [ix_index_handle.cpp]:
    a B+ tree whose nodes are pages of the buffer pool.  A node is the frame of its page, so
    that what the code does through a [Page *] after the page was unpinned is done here
    too.  The context of a call is null or not; what the index uses of it is its
    transaction, [HasTxn].  The class [IxScan] is at the end. *)

From S2P Require Import Prelude Common Posix Replacer Disk Buffer Log Transaction Record IxDefs IxNode.

Module IxIndexHandle.
Section ops.
Context {D R C : Type} `{Disk D} `{Files D} `{Replacer R} `{HasTxn C}.
#[local] Abbreviation pool := (BufferPool.t D R).

(** [root_latch_] is locked by one call at a time and is not part of the state. *)
Record t := mk {
  fd_ : Z;
  file_hdr_ : IxFileHdr;
  bpm : pool;
  ctx : C;
}.

Definition set_hdr (h : IxFileHdr) (s : t) : t := mk (fd_ s) h (bpm s) (ctx s).
Definition set_pool (p : pool) (s : t) : t := mk (fd_ s) (file_hdr_ s) p (ctx s).
Definition set_ctx (c : C) (s : t) : t := mk (fd_ s) (file_hdr_ s) (bpm s) c.
Definition on_pool {A} (m : M pool A) : M t A := zoom bpm set_pool m.
Definition upd_hdr (f : IxFileHdr -> IxFileHdr) : M t unit := modify (fun s => set_hdr (f (file_hdr_ s)) s).
Definition txn : M t Txn.t := gets (fun s => cx_txn (ctx s)).
Definition upd_txn (f : Txn.t -> Txn.t) : M t unit :=
  modify (fun s => set_ctx (cx_set_txn (f (cx_txn (ctx s))) (ctx s)) s).

Definition set_root_page (z : Z) (h : IxFileHdr) : IxFileHdr :=
  mkIxFileHdr (ix_first_free_page_no h) (num_pages_ h) z (col_num_ h) (col_types_ h) (col_lens_ h)
    (col_tot_len_ h) (btree_order_ h) (keys_size_ h) (first_leaf_ h) (last_leaf_ h) (tot_len_ h) (ix_lsn h).
Definition set_num_pages (z : Z) (h : IxFileHdr) : IxFileHdr :=
  mkIxFileHdr (ix_first_free_page_no h) z (root_page_ h) (col_num_ h) (col_types_ h) (col_lens_ h)
    (col_tot_len_ h) (btree_order_ h) (keys_size_ h) (first_leaf_ h) (last_leaf_ h) (tot_len_ h) (ix_lsn h).
Definition set_last_leaf (z : Z) (h : IxFileHdr) : IxFileHdr :=
  mkIxFileHdr (ix_first_free_page_no h) (num_pages_ h) (root_page_ h) (col_num_ h) (col_types_ h) (col_lens_ h)
    (col_tot_len_ h) (btree_order_ h) (keys_size_ h) (first_leaf_ h) z (tot_len_ h) (ix_lsn h).
Definition set_ix_lsn (z : Z) (h : IxFileHdr) : IxFileHdr :=
  mkIxFileHdr (ix_first_free_page_no h) (num_pages_ h) (root_page_ h) (col_num_ h) (col_types_ h) (col_lens_ h)
    (col_tot_len_ h) (btree_order_ h) (keys_size_ h) (first_leaf_ h) (last_leaf_ h) (tot_len_ h) z.

Definition is_empty (h : IxFileHdr) : bool := root_page_ h =? IX_NO_PAGE.

(** *** Nodes *)

(** A method of the node that only reads, and one that changes its page. *)
Definition lift {A} (r : res A) : M t A := match r with Ok a => mret a | Throw e => throw e end.
Definition data_of (node : Z) : M t bytes := on_pool (BufferPool.get_data node).
Definition ask {A} (node : Z) (f : IxFileHdr -> bytes -> res A) : M t A :=
  h ← gets file_hdr_; d ← data_of node; lift (f h d).
Definition read {A} (node : Z) (f : bytes -> A) : M t A := d ← data_of node; mret (f d).
Definition change (node : Z) (f : IxFileHdr -> bytes -> res bytes) : M t unit :=
  h ← gets file_hdr_; d ← data_of node; d' ← lift (f h d); on_pool (BufferPool.put_data node d').
Definition set (node : Z) (f : bytes -> bytes) : M t unit := change node (fun _ d => Ok (f d)).

Definition get_page_no (node : Z) : M t Z := p ← on_pool (BufferPool.page_at node); mret (page_no (BufferPool.id_ p)).
Definition get_page_id (node : Z) : M t PageId := p ← on_pool (BufferPool.page_at node); mret (BufferPool.id_ p).
Definition unpin (node : Z) (is_dirty : bool) : M t unit :=
  p ← get_page_id node; _ ← on_pool (BufferPool.unpin_page p is_dirty); mret tt.

(** A handle on a null page is used at once, which the program does not survive. *)
Definition fetch_node (page_no : Z) : M t Z :=
  if decide (page_no = INVALID_PAGE_ID) then throw (InternalError "IxIndexHandle::fetch_node invalid page_no") else
  f ← gets fd_;
  r ← on_pool (BufferPool.fetch_page (mkPageId f page_no));
  match r with Some node => mret node | None => throw Stuck end.

Definition create_node : M t Z :=
  upd_hdr (fun h => set_num_pages (i32 (num_pages_ h + 1)) h);;
  f ← gets fd_;
  r ← on_pool (BufferPool.new_page f);
  match r with Some (node, _) => mret node | None => throw Stuck end.

(** [context] tells whether the pointer is null. *)
Definition handle_dirty_page (context : bool) (node : Z) : M t unit :=
  if context then upd_txn (Txn.append_index_latch_page_set node) else unpin node true.
Definition release_node_handle (context : bool) (node : Z) : M t unit :=
  if context then upd_txn (Txn.append_index_deleted_page node) else throw Stuck.

(** Walks on the tree go on while there are pages; in a file whose pages are those its header counts, a longer
    one has come to a page twice. *)
Definition pages_fuel : M t nat := h ← gets file_hdr_; mret (S (Z.to_nat (num_pages_ h))).

(** *** Search *)

Fixpoint find_leaf_from (fuel : nat) (key : bytes) (cur : Z) : M t Z :=
  leaf ← read cur hd_is_leaf;
  if leaf : bool then mret cur else
  match fuel with
  | O => throw OutOfFuel
  | S fuel' =>
      child ← ask cur (fun h => IxNode.internal_lookup h key);
      next ← fetch_node child;
      unpin cur false;;
      find_leaf_from fuel' key next
  end.
Definition find_leaf_page (key : bytes) : M t Z :=
  h ← gets file_hdr_;
  root ← fetch_node (root_page_ h);
  n ← pages_fuel;
  find_leaf_from n key root.

(** The values appended to [result]. *)
Definition get_value (key : bytes) : M t (bool * list Rid) :=
  leaf ← find_leaf_page key;
  unpin leaf false;;
  r ← ask leaf (fun h => IxNode.leaf_lookup h key);
  mret (match r with Some rid => (true, [rid]) | None => (false, []) end).

(** *** Upkeep of the links between nodes *)

Definition maintain_child (context : bool) (node child_idx : Z) : M t unit :=
  leaf ← read node hd_is_leaf;
  if leaf : bool then mret tt else
  child_page_no ← ask node (fun h d => Ok (IxNode.value_at h child_idx d));
  child ← fetch_node child_page_no;
  p ← get_page_no node;
  set child (set_parent_page_no p);;
  handle_dirty_page context child.

(** The loop of [maintain_parent]. *)
Fixpoint maintain_from (fuel : nat) (context : bool) (curr : Z) : M t unit :=
  parent_no ← read curr hd_parent;
  if parent_no =? IX_NO_PAGE then mret tt else
  match fuel with
  | O => throw OutOfFuel
  | S fuel' =>
      parent ← fetch_node parent_no;
      p ← get_page_no curr;
      rank ← ask parent (fun h => IxNode.find_child h p);
      h ← gets file_hdr_;
      parent_key ← ask parent (fun h d => Ok (IxNode.get_key h rank d));
      child_first_key ← ask curr (fun h d => Ok (IxNode.get_key h 0 d));
      if memcmp parent_key child_first_key (Z.to_nat (col_tot_len_ h)) =? 0 then
        handle_dirty_page context parent
      else
        change parent (fun h d => Ok (IxNode.set_key h rank child_first_key d));;
        handle_dirty_page context parent;;
        maintain_from fuel' context parent
  end.
Definition maintain_parent (context : bool) (node : Z) : M t unit :=
  n ← pages_fuel; maintain_from n context node.

Definition erase_leaf (context : bool) (leaf : Z) : M t unit :=
  b ← read leaf hd_is_leaf;
  assertM b;;
  prev_no ← read leaf hd_prev_leaf;
  prev ← fetch_node prev_no;
  next_no ← read leaf hd_next_leaf;
  set prev (set_next_leaf next_no);;
  handle_dirty_page context prev;;
  next_no ← read leaf hd_next_leaf;
  next ← fetch_node next_no;
  prev_no ← read leaf hd_prev_leaf;
  set next (set_prev_leaf prev_no);;
  handle_dirty_page context next.

(** *** Insertion *)

Definition split (context : bool) (node : Z) : M t Z :=
  new_node ← create_node;
  d ← data_of node;
  set new_node (set_size 0);;
  set new_node (set_is_leaf (hd_is_leaf d));;
  set new_node (set_parent_page_no (hd_parent d));;
  set new_node (set_next_free (hd_next_free d));;
  (if hd_is_leaf d then
     p ← get_page_no node;
     new_p ← get_page_no new_node;
     set new_node (set_prev_leaf p);;
     set new_node (set_next_leaf (hd_next_leaf d));;
     set node (set_next_leaf new_p);;
     next_no ← read new_node hd_next_leaf;
     next_node ← fetch_node next_no;
     set next_node (set_prev_leaf new_p);;
     handle_dirty_page context next_node
   else mret tt);;
  h ← gets file_hdr_;
  d ← data_of node;
  let idx := Z.quot (hd_num_key d) 2 in
  let num := hd_num_key d - idx in
  change new_node (fun h => IxNode.insert_pairs h 0 (IxNode.get_key h idx d)
    (drop (Z.to_nat (IxNode.rid_off h idx)) d) num);;
  set node (set_size idx);;
  forM (Z.of_nat <$> seq 0 (Z.to_nat num)) (maintain_child context new_node);;
  mret new_node.

(** [key] is the memory at the pointer. *)
Fixpoint insert_into_parent_fuel (fuel : nat) (context : bool) (old_node : Z) (key : bytes) (new_node : Z) : M t unit :=
  match fuel with
  | O => throw OutOfFuel
  | S fuel' =>
      d ← data_of old_node;
      new_p ← get_page_no new_node;
      old_p ← get_page_no old_node;
      if IxNode.is_root_page d then
        new_root ← create_node;
        set new_root (set_size 0);;
        set new_root (set_is_leaf false);;
        set new_root (set_parent_page_no INVALID_PAGE_ID);;
        set new_root (set_next_free IX_NO_PAGE);;
        change new_root (fun h => IxNode.insert_pair h 0 (IxNode.get_key h 0 d) (mkRid old_p (-1)));;
        change new_root (fun h => IxNode.insert_pair h 1 key (mkRid new_p (-1)));;
        new_root_page ← get_page_no new_root;
        upd_hdr (set_root_page new_root_page);;
        set new_node (set_parent_page_no new_root_page);;
        set old_node (set_parent_page_no new_root_page);;
        handle_dirty_page context new_root
      else
        parent_node ← fetch_node (hd_parent d);
        rid_idx ← ask parent_node (fun h => IxNode.find_child h old_p);
        change parent_node (fun h => IxNode.insert_pair h (rid_idx + 1) key (mkRid new_p (-1)));;
        n ← read parent_node hd_num_key;
        h ← gets file_hdr_;
        (if n =? IxNode.get_max_size h then
           new_parent ← split context parent_node;
           first ← ask new_parent (fun h d => Ok (IxNode.get_key h 0 d));
           insert_into_parent_fuel fuel' context parent_node first new_parent;;
           handle_dirty_page context new_parent
         else mret tt);;
        handle_dirty_page context parent_node
  end.
Definition insert_into_parent (context : bool) (old_node : Z) (key : bytes) (new_node : Z) : M t unit :=
  n ← pages_fuel; insert_into_parent_fuel n context old_node key new_node.

(** *** Logging *)

(** The loop over [index_latch_page_set], from its end: the pages put into [rec] and
    those whose LSN is set. *)
Fixpoint drain_latch (fuel : nat) (rec : IndexPagesLogRecord) (done : list PageId) : M t IndexPagesLogRecord :=
  match fuel with
  | O => mret rec
  | S fuel' =>
      x ← txn;
      match last (Txn.index_latch_page_set_ x) with
      | None => mret rec
      | Some page =>
          upd_txn (Txn.set_latch_pages (removelast (Txn.index_latch_page_set_ x)));;
          p ← get_page_id page;
          upd_txn (Txn.add_page_pin p);;
          if bool_decide (p ∈ done) then drain_latch fuel' rec done
          else
            on_pool (BufferPool.upd_page page (BufferPool.set_page_lsn (Txn.prev_lsn_ x)));;
            d ← data_of page;
            drain_latch fuel' (add_page p d rec) (p :: done)
      end
  end.

Fixpoint drain_deleted (fuel : nat) : M t unit :=
  match fuel with
  | O => mret tt
  | S fuel' =>
      x ← txn;
      match last (Txn.index_deleted_page_set_ x) with
      | None => mret tt
      | Some page =>
          upd_txn (Txn.set_deleted_pages (removelast (Txn.index_deleted_page_set_ x)));;
          p ← get_page_id page;
          upd_txn (Txn.add_page_pin p);;
          drain_deleted fuel'
      end
  end.

Definition add_to_log (context : bool) : M t unit :=
  if context then
    x ← txn;
    if (length (Txn.index_deleted_page_set_ x) + length (Txn.index_latch_page_set_ x) =? 0)%nat then mret tt else
    f ← gets fd_;
    idx_name ← on_pool (BufferPool.disk_op (fl_get_file_name f));
    let rec := new_IndexPagesLogRecord (Txn.txn_id_ x) (Txn.prev_lsn_ x) idx_name in
    rec ← drain_latch (length (Txn.index_latch_page_set_ x)) rec [];
    drain_deleted (length (Txn.index_deleted_page_set_ x));;
    upd_hdr (set_ix_lsn (Txn.prev_lsn_ x));;
    h ← gets file_hdr_;
    let '(hdr, r) := hdr_serialize h (replicate (Z.to_nat (tot_len_ h)) 0) in
    lift r;;
    upd_txn (Txn.add_index_log (add_file_hdr hdr (tot_len_ h) rec))
  else mret tt.

Definition insert_entry (key : bytes) (value : Rid) (context : bool) : M t Z :=
  leaf ← find_leaf_page key;
  cur_size ← read leaf hd_num_key;
  r ← ask leaf (fun h => IxNode.insert h key value);
  on_pool (BufferPool.put_data leaf r.1);;
  if r.2 =? cur_size then unpin leaf false;; mret INVALID_PAGE_ID else
  h ← gets file_hdr_;
  (if r.2 =? IxNode.get_max_size h then
     new_node ← split context leaf;
     leaf_no ← get_page_no leaf;
     new_no ← get_page_no new_node;
     h ← gets file_hdr_;
     whenM (leaf_no =? last_leaf_ h) (upd_hdr (set_last_leaf new_no));;
     first ← ask new_node (fun h d => Ok (IxNode.get_key h 0 d));
     insert_into_parent context leaf first new_node;;
     handle_dirty_page context new_node
   else mret tt);;
  handle_dirty_page context leaf;;
  add_to_log context;;
  get_page_no leaf.

(** *** Deletion *)

Definition adjust_root (context : bool) (old_root_node : Z) : M t bool :=
  d ← data_of old_root_node;
  if hd_is_leaf d then
    if hd_num_key d =? 0 then
      release_node_handle context old_root_node;;
      upd_hdr (set_root_page INVALID_PAGE_ID);;
      mret true
    else mret false
  else if hd_num_key d =? 1 then
    child ← ask old_root_node (fun h d => Ok (IxNode.value_at h 0 d));
    new_root ← fetch_node child;
    set new_root (set_parent_page_no INVALID_PAGE_ID);;
    p ← get_page_no new_root;
    upd_hdr (set_root_page p);;
    release_node_handle context old_root_node;;
    handle_dirty_page context new_root;;
    mret true
  else mret false.

Definition redistribute (context : bool) (neighbor_node node parent index : Z) : M t unit :=
  nd ← data_of neighbor_node;
  if negb (index =? 0) then
    let pos := hd_num_key nd - 1 in
    change node (fun h => IxNode.insert_pair h 0 (IxNode.get_key h pos nd) (IxNode.get_rid h pos nd));;
    change neighbor_node (fun h => IxNode.erase_pair h pos);;
    maintain_child context node 0;;
    maintain_parent context node
  else
    change node (fun h d => IxNode.insert_pair h (hd_num_key d) (IxNode.get_key h 0 nd) (IxNode.get_rid h 0 nd) d);;
    change neighbor_node (fun h => IxNode.erase_pair h 0);;
    n ← read node hd_num_key;
    maintain_child context node (n - 1);;
    maintain_parent context neighbor_node.

(** The part of [coalesce] before its last line: the neighbour and the node after the
    swap, for the caller's variables. *)
Definition coalesce (context : bool) (neighbor_node node parent index : Z) : M t (Z * Z) :=
  let '(neighbor_node, node, index) :=
    if index =? 0 then (node, neighbor_node, index + 1) else (neighbor_node, node, index) in
  nd ← data_of node;
  before_num ← read neighbor_node hd_num_key;
  change neighbor_node (fun h => IxNode.insert_pairs h before_num (IxNode.get_key h 0 nd)
    (drop (Z.to_nat (IxNode.rid_off h 0)) nd) (hd_num_key nd));;
  after_num ← read neighbor_node hd_num_key;
  forM ((fun i => before_num + Z.of_nat i) <$> seq 0 (Z.to_nat (after_num - before_num)))
    (maintain_child context neighbor_node);;
  node_no ← get_page_no node;
  h ← gets file_hdr_;
  (if node_no =? last_leaf_ h then p ← get_page_no neighbor_node; upd_hdr (set_last_leaf p) else mret tt);;
  erase_leaf context node;;
  release_node_handle context node;;
  change parent (fun h => IxNode.erase_pair h index);;
  mret (neighbor_node, node).

(** [coalesce] ends with a call of [coalesce_or_redistribute] on the parent. *)
Fixpoint coalesce_or_redistribute_fuel (fuel : nat) (context : bool) (node : Z) : M t bool :=
  match fuel with
  | O => throw OutOfFuel
  | S fuel' =>
      d ← data_of node;
      if IxNode.is_root_page d then adjust_root context node else
      h ← gets file_hdr_;
      if IxNode.get_min_size h <=? hd_num_key d then maintain_parent context node;; mret false else
      parent ← fetch_node (hd_parent d);
      p ← get_page_no node;
      idx ← ask parent (fun h => IxNode.find_child h p);
      brother ← (if negb (idx =? 0) then n ← read node hd_prev_leaf; fetch_node n
                 else n ← read node hd_next_leaf; fetch_node n);
      n ← read node hd_num_key;
      m ← read brother hd_num_key;
      if IxNode.get_min_size h * 2 <=? n + m then
        redistribute context brother node parent idx;;
        handle_dirty_page context parent;;
        handle_dirty_page context brother;;
        mret false
      else
        r ← coalesce context brother node parent idx;
        _ ← coalesce_or_redistribute_fuel fuel' context parent;
        handle_dirty_page context parent;;
        handle_dirty_page context r.1;;
        mret true
  end.
Definition coalesce_or_redistribute (context : bool) (node : Z) : M t bool :=
  n ← pages_fuel; coalesce_or_redistribute_fuel n context node.

Definition delete_entry (key : bytes) (context : bool) : M t bool :=
  leaf ← find_leaf_page key;
  cur_size ← read leaf hd_num_key;
  r ← ask leaf (fun h => IxNode.remove h key);
  on_pool (BufferPool.put_data leaf r.1);;
  if r.2 =? cur_size then unpin leaf false;; mret false else
  _ ← coalesce_or_redistribute context leaf;
  handle_dirty_page context leaf;;
  add_to_log context;;
  mret true.

(** *** Positions *)

Definition get_rid (iid : Iid) : M t Rid :=
  node ← fetch_node (iid_page_no iid);
  n ← read node hd_num_key;
  if n <=? iid_slot_no iid then throw IndexEntryNotFoundError else
  unpin node false;;
  ask node (fun h d => Ok (IxNode.get_rid h (iid_slot_no iid) d)).

Definition lower_bound (key : bytes) : M t Iid :=
  node ← find_leaf_page key;
  key_idx ← ask node (fun h => IxNode.lower_bound h key);
  p ← get_page_no node;
  unpin node false;;
  mret (mkIid p key_idx).

Definition leaf_end : M t Iid :=
  h ← gets file_hdr_;
  node ← fetch_node (last_leaf_ h);
  n ← read node hd_num_key;
  unpin node false;;
  mret (mkIid (last_leaf_ h) n).

Definition leaf_begin : M t Iid := h ← gets file_hdr_; mret (mkIid (first_leaf_ h) 0).

Definition upper_bound (key : bytes) : M t Iid :=
  node ← find_leaf_page key;
  key_idx ← ask node (fun h => IxNode.upper_bound h key);
  n ← read node hd_num_key;
  p ← get_page_no node;
  iid ← (if key_idx =? n then leaf_end else mret (mkIid p key_idx));
  unpin node false;;
  mret iid.

(** [flush]: the buffer is not initialised before the header is put into it. *)
Definition flush (junk : bytes) : M t unit :=
  h ← gets file_hdr_;
  f ← gets fd_;
  let '(data, r) := hdr_serialize h (take (Z.to_nat (tot_len_ h)) junk) in
  lift r;;
  on_pool (BufferPool.disk_op (fl_write f data (Z.to_nat (tot_len_ h))));;
  on_pool (BufferPool.flush_all_pages f).

End ops.
Arguments t D R C : clear implicits.

(** The constructor: the header is read from the file. *)
Definition open_handle {D R} `{Disk D} `{Files D} (f : Z) : M (BufferPool.t D R) IxFileHdr :=
  b ← (fun s => let '(d, (b, r)) := fl_read f page_size (BufferPool.disk_manager_ s) in
                (BufferPool.set_disk d s, match r with Ok _ => Ok b | Throw e => Throw e end));
  h ← (fun s => match hdr_deserialize b with Ok h => (s, Ok h) | Throw e => (s, Throw e) end);
  BufferPool.disk_op (fl_set_fd2pageno f (num_pages_ h));;
  mret h.
End IxIndexHandle.

(** ** [IxScan] *)
Module IxScan.
Section ops.
Context {D R C : Type} `{Disk D} `{Files D} `{Replacer R} `{HasTxn C}.

(** The index handle it is on is the state; [iid_] is where it is and [end_] where it ends. *)
Record t := mk { iid_ : Iid; end_ : Iid }.

Definition is_end (c : t) : bool := bool_decide (iid_ c = end_ c).

(** [next]: the page is not unpinned. *)
Definition next (c : t) : M (IxIndexHandle.t D R C) t :=
  assertM (negb (is_end c));;
  node ← IxIndexHandle.fetch_node (iid_page_no (iid_ c));
  d ← IxIndexHandle.data_of node;
  assertM (hd_is_leaf d);;
  assertM (iid_slot_no (iid_ c) <? hd_num_key d);;
  h ← gets IxIndexHandle.file_hdr_;
  let slot := iid_slot_no (iid_ c) + 1 in
  mret (mk (if negb (iid_page_no (iid_ c) =? last_leaf_ h) && (slot =? hd_num_key d)
            then mkIid (hd_next_leaf d) 0
            else mkIid (iid_page_no (iid_ c)) slot) (end_ c)).

Definition rid (c : t) : M (IxIndexHandle.t D R C) Rid := IxIndexHandle.get_rid (iid_ c).
End ops.
End IxScan.
