(* ===== verification/IxManager.v ===== *)
(** * The index manager

    The class [IxManager] of [index/ix_manager.h]: creating, destroying, opening and
    closing the file of an index. *)

From S2P Require Import Prelude Common Posix Replacer Disk Buffer Log Transaction Record SmMeta IxDefs IxNode IxHandle.

Module IxManager.

(** [get_index_name] for the names of the columns; the other overload takes them from
    the columns. *)
Definition get_index_name (filename : string) (index_cols : list string) : string :=
  foldl (fun s c => s +:+ "_" +:+ c) filename index_cols +:+ ".idx".
Definition get_index_name_cols (filename : string) (index_cols : list ColMeta) : string :=
  get_index_name filename (cm_name <$> index_cols).

(** The header page of the list of leaves and the root, as memory. *)
Definition new_node_page (prev_leaf next_leaf : Z) : bytes :=
  set_next_leaf next_leaf (set_prev_leaf prev_leaf (set_is_leaf true (set_size 0
    (set_parent_page_no IX_NO_PAGE (set_next_free IX_NO_PAGE (replicate page_size 0)))))).

(** [btree_order], computed with [size_t]; a divisor of 0 is an error of the program. *)
Definition order_of (col_tot_len : Z) : res Z :=
  let d := (col_tot_len + Z.of_nat sizeof_Rid) mod 2 ^ 64 in
  if d =? 0 then Throw Stuck
  else Ok (i32 (((PAGE_SIZE - Z.of_nat sizeof_IxPageHdr - Z.of_nat OFFSET_NODE) / d - 1) mod 2 ^ 64)).

Definition tot_len (index_cols : list ColMeta) : Z := foldl (fun n c => i32 (n + cm_len c)) 0 index_cols.

(** The header of a new index. *)
Definition new_hdr (index_cols : list ColMeta) (btree_order : Z) : IxFileHdr :=
  update_tot_len (new_IxFileHdr IX_NO_PAGE IX_INIT_NUM_PAGES IX_INIT_ROOT_PAGE
    (Z.of_nat (length index_cols)) (cm_type <$> index_cols) (cm_len <$> index_cols)
    (tot_len index_cols) btree_order (i32 ((btree_order + 1) * tot_len index_cols))
    IX_INIT_ROOT_PAGE IX_INIT_ROOT_PAGE).

Section ops.
Context {D R : Type} `{Disk D} `{Files D} `{Replacer R}.
#[local] Abbreviation pool := (BufferPool.t D R).

Definition lift {S A} (r : res A) : M S A := match r with Ok a => mret a | Throw e => throw e end.

Definition exists_index (filename : string) (index_cols : list string) : M D bool :=
  fl_is_file (get_index_name filename index_cols).

(** [junk] is the allocated memory the header is put into. *)
Definition create_index (junk : bytes) (filename : string) (index_cols : list ColMeta) : M D unit :=
  let ix_name := get_index_name_cols filename index_cols in
  fl_create_file ix_name;;
  f ← fl_open_file ix_name;
  let col_tot_len := tot_len index_cols in
  if IX_MAX_COL_LEN <? col_tot_len then throw (InvalidColLengthError col_tot_len) else
  btree_order ← lift (order_of col_tot_len);
  assertM (2 <? btree_order);;
  let fhdr := new_hdr index_cols btree_order in
  let '(data, r) := hdr_serialize fhdr (take (Z.to_nat (tot_len_ fhdr)) junk) in
  lift r;;
  fl_write f data (Z.to_nat (tot_len_ fhdr));;
  dk_write_page (mkPageId f IX_LEAF_HEADER_PAGE) (new_node_page IX_INIT_ROOT_PAGE IX_INIT_ROOT_PAGE);;
  dk_write_page (mkPageId f IX_INIT_ROOT_PAGE) (new_node_page IX_LEAF_HEADER_PAGE IX_LEAF_HEADER_PAGE);;
  fl_set_fd2pageno f (IX_INIT_NUM_PAGES - 1);;
  fl_close_file f.

Definition destroy_index (filename : string) (index_cols : list string) : M D unit :=
  fl_destroy_file (get_index_name filename index_cols).

(** The descriptor and the header of the new handle. *)
Definition open_index (filename : string) (index_cols : list string) : M pool (Z * IxFileHdr) :=
  f ← BufferPool.disk_op (fl_open_file (get_index_name filename index_cols));
  h ← IxIndexHandle.open_handle f;
  mret (f, h).

Definition close_index (junk : bytes) (f : Z) (h : IxFileHdr) : M pool unit :=
  let '(data, r) := hdr_serialize h (take (Z.to_nat (tot_len_ h)) junk) in
  lift r;;
  BufferPool.disk_op (fl_write f data (Z.to_nat (tot_len_ h)));;
  BufferPool.flush_all_pages f;;
  BufferPool.disk_op (fl_close_file f).
End ops.

Lemma tot_len_sum l : forall a,
  Forall (fun c => 0 < cm_len c) l -> 0 <= a -> a + Z.of_nat (cols_len (cm_len <$> l)) < 2 ^ 31 ->
  foldl (fun n c => i32 (n + cm_len c)) a l = a + Z.of_nat (cols_len (cm_len <$> l)).
Proof.
  induction l as [|c l IH]; intros a Hp Ha Hs; [cbn; lia|]. inversion Hp as [|? ? Hc Hl]; subst.
  rewrite fmap_cons, IxNode.cols_len_cons in *. cbn [foldl].
  rewrite i32_small by (unfold in_i32; lia). rewrite IH; lia || done.
Qed.

Lemma order_range L : 1 <= L <= 512 ->
  let n := 4068 / (L + 8) - 1 in 6 <= n <= 451 /\ (n + 1) * (L + 8) <= 4068 < (n + 2) * (L + 8).
Proof.
  intros HL n. pose proof (Z.div_mod 4068 (L + 8) ltac:(lia)) as E.
  pose proof (Z.mod_pos_bound 4068 (L + 8) ltac:(lia)) as B. split; [|unfold n; nia].
  assert (7 <= 4068 / (L + 8)) by (apply Z.div_le_lower_bound; lia).
  assert (4068 / (L + 8) < 453) by (apply Z.div_lt_upper_bound; lia). unfold n. lia.
Qed.

(** The header [create_index] makes for columns of positive lengths is well formed:
    for every total length the code allows the order is between 6 and 451, so that the
    assertion that it is more than 2 cannot fail, a node with one pair more than the
    order fits in a page, and no greater order would fit. *)
Theorem new_index_ok index_cols :
  Forall (fun c => 0 < cm_len c) index_cols -> index_cols <> [] ->
  Z.of_nat (cols_len (cm_len <$> index_cols)) < 2 ^ 31 -> tot_len index_cols <= IX_MAX_COL_LEN ->
  exists n, order_of (tot_len index_cols) = Ok n /\ 6 <= n <= 451 /\ IxNode.ix_ok (new_hdr index_cols n) /\
    forall m, 28 + (m + 1) * (tot_len index_cols + 8) <= PAGE_SIZE -> m <= n.
Proof.
  intros Hp Hne Hs Hm. pose proof (tot_len_sum _ 0 Hp ltac:(lia) ltac:(lia)) as Ht. fold (tot_len index_cols) in Ht.
  set (L := tot_len index_cols) in *. unfold IX_MAX_COL_LEN in Hm.
  assert (1 <= L).
  { destruct index_cols as [|c l]; [done|]. inversion Hp; subst. rewrite Ht, fmap_cons, IxNode.cols_len_cons. lia. }
  destruct (order_range L ltac:(lia)) as [Hn Hb]. set (n := 4068 / (L + 8) - 1) in *. exists n.
  split_and!; [|lia|lia| |].
  - unfold order_of. change (Z.of_nat sizeof_Rid) with 8. rewrite (Z.mod_small (L + 8)) by lia.
    rewrite (proj2 (Z.eqb_neq _ _)) by lia. change (PAGE_SIZE - _ - _) with 4068. fold n.
    rewrite Z.mod_small by lia. by rewrite i32_small by (unfold in_i32; lia).
  - split; unfold new_hdr; simpl; fold L; try lia.
    + apply i32_small. unfold in_i32. nia.
    + unfold PAGE_SIZE. lia.
  - intros m Hf. unfold PAGE_SIZE in Hf. nia.
Qed.

Lemma new_index_ok_witness :
  exists n, order_of 24 = Ok n /\ 6 <= n <= 451 /\
    IxNode.ix_ok (new_hdr [mkColMeta "t" "a" TYPE_INT 4 0 false; mkColMeta "t" "b" TYPE_STRING 20 4 false] n).
Proof.
  destruct (new_index_ok [mkColMeta "t" "a" TYPE_INT 4 0 false; mkColMeta "t" "b" TYPE_STRING 20 4 false])
    as (n & Q1 & Q2 & Q3 & _).
  - constructor; [reflexivity|]. constructor; [reflexivity|constructor].
  - discriminate.
  - reflexivity.
  - discriminate.
  - exists n. split; [exact Q1|]. split; [exact Q2|exact Q3].
Defined.
End IxManager.
