(* ===== verification/IxTree.v ===== *)
(** * Search in an index

    What a well-formed B+ tree is, as a relation between the pages of the file and a map
    from keys to record identifiers, and that [find_leaf_page] and [get_value] of
    [ix_index_handle.cpp] look a key up in that map, whatever is evicted on the way. *)

From stdpp Require Import sorting.
From S2P Require Import Prelude Common Posix Replacer Disk Buffer Log Transaction Record IxDefs IxNode IxShape IxHandle.

Module IxTree.
Import IxNode IxShape.

(** The part of the header the nodes depend on, with the rest cleared. *)
Definition layout (h : IxFileHdr) : IxFileHdr := IxIndexHandle.set_num_pages 0 (IxIndexHandle.set_root_page 0
    (IxIndexHandle.set_last_leaf 0 (IxIndexHandle.set_ix_lsn 0 h))).
Definition nodes (h : IxFileHdr) (pg : Z -> bytes) (p : Z) : node := node_of (layout h) (pg p).

(** *** Trees of pages *)
Section tree.
Context (h : IxFileHdr) (pg : Z -> bytes).
#[local] Abbreviation nd := (fun p => node_of h (pg p)).

(** A node sends a key to the child the key belongs to. *)
Lemma child_of d lo hi n p cs k r :
  ix_ok h -> node_ok h d -> good_key h k ->
  kids (layout h) (child (tree (layout h) (nodes h pg) n) p) lo hi (keys h d) (rids h d) cs ->
  rids h d !! first_gt h k (tail (keys h d)) = Some r ->
  IxNode.internal_lookup h k d = Ok (rid_page_no r).
Proof.
  intros Hh Hd Hk Hks Hr. destruct (kids_tail _ _ _ _ _ _ _ Hks) as [Hg Hs].
  unfold IxNode.internal_lookup. rewrite upper_bound_tail by done. set (i := first_gt h k (tail (keys h d))) in *.
  cbv [mbind res_bind]. rewrite (proj2 (Z.eqb_neq _ _)) by lia. f_equal. unfold IxNode.value_at. f_equal.
  replace (Z.of_nat (S i) - 1) with (Z.of_nat i) by lia.
  pose proof (lookup_lt_Some _ _ _ Hr) as Hi. rewrite length_rids in Hi.
  unfold rids in Hr. rewrite list_lookup_fmap, lookup_seq_lt in Hr by done. simpl in Hr. injection Hr as <-.
  unfold get_rid, rid_at, cell. rewrite rid_off_nat by done.
  unfold load_rid, load_i32. rewrite !mem_read_read by (unfold sizeof_Rid; lia). by rewrite !Nat.add_0_r.
Qed.

Lemma leaf_sorted p lo hi : leaf_node h (nd p) lo hi -> sorted h (pg p).
Proof. by intros [_ Hg Hs _]. Qed.
Lemma leaf_contents p : map_of h nd [p] = contents h (pg p).
Proof. unfold map_of, ents. cbn. by rewrite app_nil_r. Qed.
Lemma tree_leaf n p par lo hi ls ps : tree h nd n p par lo hi ls ps -> hd_is_leaf (pg p) = bool_decide (n = O).
Proof. by destruct n; cbn [tree]; [intros (_ & _ & [] & _)|intros (_ & _ & Hl & _)]. Qed.
End tree.

(** The leaves are linked both ways, from the page [a] over [ls] to the page [z]. *)
Fixpoint links (pg : Z -> bytes) (a : Z) (ls : list Z) (z : Z) : Prop :=
  match ls with
  | [] => hd_next_leaf (pg a) = z /\ hd_prev_leaf (pg z) = a
  | b :: ls' => hd_next_leaf (pg a) = b /\ hd_prev_leaf (pg b) = a /\ links pg b ls' z
  end.

Lemma links_app pg a B p A z : links pg a (B ++ p :: A) z <-> links pg a B p /\ links pg p A z.
Proof. revert a. induction B as [|b B IH]; intros a; cbn [app links]; [tauto|]. rewrite IH. tauto. Qed.
Lemma links_ext pg pg' a ls z : (forall q, q ∈ a :: ls -> hd_next_leaf (pg' q) = hd_next_leaf (pg q)) ->
  (forall q, q ∈ ls ++ [z] -> hd_prev_leaf (pg' q) = hd_prev_leaf (pg q)) -> links pg a ls z -> links pg' a ls z.
Proof.
  revert a. induction ls as [|b ls IH]; intros a Hn Hp; cbn [links app] in *; (rewrite Hn by (by left)); (rewrite Hp by (by left)); [done|].
  intros (E1 & E2 & Hl). split_and!; [done..|]. apply IH; [|intros q Hq; apply Hp; by right|done]. intros q Hq. apply Hn. by right.
Qed.
(** The leaf [n] is put after [p], which was linked to [b]. *)
Lemma links_add pg pg' a B p A z n b : links pg a (B ++ p :: A) z -> hd_next_leaf (pg p) = b ->
  NoDup (B ++ p :: A) -> p <> a -> n ∉ a :: B ++ p :: A -> n <> z -> z ∉ B ++ p :: A ->
  hd_next_leaf (pg' p) = n -> hd_prev_leaf (pg' n) = p -> hd_next_leaf (pg' n) = b -> hd_prev_leaf (pg' b) = n ->
  (forall q, q <> p -> q <> n -> hd_next_leaf (pg' q) = hd_next_leaf (pg q)) ->
  (forall q, q <> n -> q <> b -> hd_prev_leaf (pg' q) = hd_prev_leaf (pg q)) ->
  links pg' a (B ++ p :: n :: A) z.
Proof.
  intros [L1 L2]%links_app Eb Hnd Hpa Hna Hnz Hz N1 P1 N2 P2 Fn Fp. apply NoDup_app in Hnd as (D1 & D2 & D3).
  apply NoDup_cons in D3 as [D3 D4]. apply links_app. split.
  - assert (Hb : b ∉ B ++ [p]).
    { destruct A as [|b' A]; destruct L2 as [E _]; rewrite Eb in E; subst b.
      - intros Hc. apply Hz. apply elem_of_app in Hc as [?|?%list_elem_of_singleton]; set_solver.
      - intros Hc. apply elem_of_app in Hc as [Hc|Hc%list_elem_of_singleton]; [apply (D2 _ Hc)|subst b'; apply D3]; set_solver. }
    eapply links_ext; [| |exact L1].
    + intros q Hq. apply Fn; [intros ->; apply elem_of_cons in Hq as [?|Hq]; [done|apply (D2 _ Hq); by left]|intros ->; set_solver].
    + intros q Hq. apply Fp; [intros ->; set_solver|by intros ->].
  - cbn [links]. split_and!; [done..|]. destruct A as [|b' A]; cbn [links] in L2 |- *.
    + destruct L2 as [E _]. rewrite Eb in E. by subst b.
    + destruct L2 as (E & _ & L2). rewrite Eb in E. subst b'. split_and!; [done..|]. apply NoDup_cons in D4 as [D4 _].
      eapply links_ext; [| |exact L2].
      * intros q Hq. apply Fn; [intros ->; by apply D3|intros ->; set_solver].
      * intros q Hq. apply Fp; [intros ->; set_solver|intros ->; set_solver].
Qed.

(** ** The handle *)
Import IxIndexHandle.
Section handle.
Context {D R C : Type} `{DiskLaws D} `{Files D} `{ReplacerLaws R} `{HasTxn C}.
Implicit Types (s : t D R C) (pg : Z -> bytes).
#[local] Abbreviation pool := (BufferPool.t D R).

Definition page_of s (p : Z) : PageId := mkPageId (fd_ s) p.
Definition next_no s : Z := dk_next (BufferPool.disk_manager_ (bpm s)) (fd_ s).

(** The pool shows these pages of the file. *)
Record shows s pg : Prop := {
  sh_pool : BufferPool.wf (bpm s);
  sh_valid p : 0 <= p -> dk_valid (BufferPool.disk_manager_ (bpm s)) (page_of s p);
  sh_view p : 0 <= p < next_no s -> BufferPool.view (bpm s) (page_of s p) = Some (pg p);
}.

(** An index with a tree of height [n], of leaves [ls] and of pages [ps]: the leaves are linked in
    the order of their keys, from and to the page of the leaf header. *)
Record index_at s pg (n : nat) (ls ps : list Z) : Prop := {
  ix_hdr : ix_ok (file_hdr_ s);
  ix_shows : shows s pg;
  ix_tree : tree (layout (file_hdr_ s)) (nodes (file_hdr_ s) pg) n (root_page_ (file_hdr_ s)) INVALID_PAGE_ID None None ls ps;
  ix_nodup : NoDup ps;
  ix_pages p : p ∈ ps -> IX_LEAF_HEADER_PAGE < p < next_no s /\ node_ok (file_hdr_ s) (pg p);
  ix_links : links pg IX_LEAF_HEADER_PAGE ls IX_LEAF_HEADER_PAGE;
  ix_lead : IX_LEAF_HEADER_PAGE < next_no s /\ length (pg IX_LEAF_HEADER_PAGE) = page_size;
  ix_ends : head ls = Some (first_leaf_ (file_hdr_ s)) /\ last ls = Some (last_leaf_ (file_hdr_ s));
}.

(** The map from keys to record identifiers that its leaves hold. *)
Definition index s pg (n : nat) (m : gmap (list Z) Rid) : Prop :=
  exists ls ps, index_at s pg n ls ps /\ m = map_of (layout (file_hdr_ s)) (nodes (file_hdr_ s) pg) ls.

(** Only the pool has changed, and it shows the same pages. *)
Record calm s s' pg : Prop := {
  ca_fd : fd_ s' = fd_ s;
  ca_hdr : file_hdr_ s' = file_hdr_ s;
  ca_ctx : ctx s' = ctx s;
  ca_next : next_no s' = next_no s;
  ca_shows : shows s' pg;
}.

Lemma calm_trans s1 s2 s3 pg : calm s1 s2 pg -> calm s2 s3 pg -> calm s1 s3 pg.
Proof. intros [] []. split; congruence || done. Qed.

Lemma calm_index s s' pg n m : index s pg n m -> calm s s' pg -> index s' pg n m.
Proof.
  intros (ls & ps & [Q1 Q2 Q3 Q4 Q5 Q6 Q7 Q8] & ->) [C1 C2 C3 C4 C5]. exists ls, ps. rewrite C2. split; [|done].
  split; rewrite ?C2, ?C4; done.
Qed.

(** A page that is pinned at a frame, as it was fetched. *)
Record at_node s pg (p f : Z) : Prop := {
  an_file : 0 <= p < next_no s;
  an_held : BufferPool.held (bpm s) (page_of s p) f (pg p);
  an_clean : BufferPool.unpin_clean (bpm s) (page_of s p) f;
}.

Lemma run_pool {A} (m : M pool A) s s' a :
  on_pool m s = (s', Ok a) -> exists pl, m (bpm s) = (pl, Ok a) /\ s' = set_pool pl s.
Proof. unfold on_pool, zoom. destruct (m (bpm s)) as [pl r]. intros [= <- ->]. eauto. Qed.

Lemma run_data s pg p f : at_node s pg p f -> data_of f s = (s, Ok (pg p)).
Proof.
  intros [_ Hh _]. unfold data_of, on_pool, zoom. rewrite (BufferPool.held_get _ _ _ _ Hh). by destruct s.
Qed.

Lemma run_read {A} s pg p f (g : bytes -> A) : at_node s pg p f -> read f g s = (s, Ok (g (pg p))).
Proof. intros Ha. unfold read. by rewrite (bind_ok _ _ _ _ _ (run_data _ _ _ _ Ha)). Qed.

Lemma run_ask {A} s pg p f (g : IxFileHdr -> bytes -> res A) :
  at_node s pg p f -> ask f g s = lift (g (file_hdr_ s) (pg p)) s.
Proof.
  intros Ha. unfold ask. rewrite (bind_ok _ _ s s (file_hdr_ s)) by done.
  by rewrite (bind_ok _ _ _ _ _ (run_data _ _ _ _ Ha)).
Qed.

Lemma run_page_no s pg p f : at_node s pg p f -> get_page_no f s = (s, Ok p).
Proof.
  intros [_ Hh _]. destruct (BufferPool.held_page_at _ _ _ _ Hh) as (q & Hq & Hid & _).
  unfold get_page_no, mbind, M_bind, on_pool, zoom. rewrite Hq. simpl. rewrite Hid. by destruct s.
Qed.

(** How many more pins a page has. *)
Definition one (p q : PageId) : Z := if decide (p = q) then 1 else 0.

Lemma run_fetch s s' pg p f :
  shows s pg -> 0 <= p < next_no s -> fetch_node p s = (s', Ok f) ->
  calm s s' pg /\ at_node s' pg p f /\
  (forall q, BufferPool.pins (bpm s') q = BufferPool.pins (bpm s) q + one (page_of s p) q) /\
  (forall q g, at_node s pg q g -> at_node s' pg q g).
Proof.
  intros [Hw Hv Hs] Hp Hr. unfold fetch_node in Hr. rewrite decide_False in Hr by (unfold INVALID_PAGE_ID; lia).
  rewrite (bind_ok _ _ s s (fd_ s)) in Hr by done. apply bind_inv in Hr as (s1 & o & Hf & Hr).
  apply run_pool in Hf as (pl & Hf & ->). destruct o as [f'|]; [|done].
  unfold mret, M_ret in Hr. injection Hr as <- ->. fold (page_of s p) in Hf.
  assert (Hvp : dk_valid (BufferPool.disk_manager_ (bpm s)) (page_of s p)) by (apply Hv; lia).
  assert (Hlt : page_no (page_of s p) < dk_next (BufferPool.disk_manager_ (bpm s)) (fd (page_of s p))) by apply Hp.
  destruct (BufferPool.fetch_held _ _ _ _ Hw Hvp Hlt Hf) as (x & Hh & Hx & Hpin & Hk & Hu & Hnx).
  specialize (Hx _ (Hs _ Hp)). subst x.
  assert (Hn : next_no (set_pool pl s) = next_no s) by (unfold next_no; simpl; by rewrite Hnx).
  split_and!.
  - split; try done. split; simpl.
    + apply (BufferPool.he_wf _ _ _ _ Hh).
    + intros q Hq. apply (BufferPool.k_valid _ _ _ Hk). by apply Hv.
    + intros q Hq. rewrite Hn in Hq. destruct (decide (q = p)) as [->|Hne]; [apply (BufferPool.he_view _ _ _ _ Hh)|].
      apply (BufferPool.k_view _ _ _ Hk); [unfold page_of; simpl; congruence|apply Hv; lia|by apply Hs].
  - split; [by rewrite Hn|done|done].
  - intros q. unfold one. simpl. case_decide as E; [by subst; rewrite Hpin|].
    rewrite (BufferPool.k_pins _ _ _ Hk) by congruence. lia.
  - intros q g [Qf Qh Qc]. destruct (decide (q = p)) as [->|Hne].
    + pose proof (BufferPool.fetch_held_same _ _ _ _ _ _ Hw Hvp Hlt Hf Qh). subst g. split; [by rewrite Hn|done|done].
    + assert (Hvq : dk_valid (BufferPool.disk_manager_ (bpm s)) (page_of s q)) by (apply Hv; lia).
      destruct (BufferPool.fetch_held_other _ _ _ _ _ _ _ Hw Hvp Hlt Hvq Hf Qh) as (Q1 & _ & Q2);
        [unfold page_of; congruence|]. split; [by rewrite Hn|done|by apply Q2].
Qed.

Lemma run_unpin s pg p f : shows s pg -> at_node s pg p f ->
  exists s', unpin f false s = (s', Ok tt) /\ calm s s' pg /\
    (forall q, BufferPool.pins (bpm s') q = BufferPool.pins (bpm s) q - one (page_of s p) q) /\
    (forall q g, q <> p -> at_node s pg q g -> at_node s' pg q g) /\
    data_of f s' = (s', Ok (pg p)).
Proof.
  intros [Hw Hv Hs] [Hf Hh Hc]. destruct (BufferPool.held_page_at _ _ _ _ Hh) as (pgr & Hq & Hid & _).
  destruct (BufferPool.held_unpin _ _ _ _ false Hh (fun _ => Hc)) as (pl & Hr & Hw' & Hvw & Hp & Hk & Hd).
  exists (set_pool pl s). split_and!.
  - unfold unpin, get_page_id, mbind, M_bind, on_pool, zoom. rewrite Hq. simpl. rewrite Hid. by rewrite Hr.
  - assert (Hn : next_no (set_pool pl s) = next_no s) by (unfold next_no; simpl; by rewrite Hd).
    split; try done. split; simpl; [done| |].
    + intros q Hq0. apply (BufferPool.k_valid _ _ _ Hk). by apply Hv.
    + intros q Hq0. rewrite Hn in Hq0. destruct (decide (q = p)) as [->|Hne]; [done|].
      apply (BufferPool.k_view _ _ _ Hk); [unfold page_of; simpl; congruence|apply Hv; lia|by apply Hs].
  - intros q. unfold one. simpl. case_decide as E; [subst; lia|]. rewrite (BufferPool.k_pins _ _ _ Hk) by congruence. lia.
  - intros q g Hne [Qf Qh Qc].
    assert (Hvq : dk_valid (BufferPool.disk_manager_ (bpm s)) (page_of s q)) by (apply Hv; lia).
    assert (Hne' : page_of s q <> page_of s p) by (unfold page_of; congruence).
    destruct (BufferPool.unpin_held_other _ _ _ _ _ _ _ _ Hr Hh Hw' Hk Hd Hvq Hne' _ Qh) as [Q1 Q2].
    split; [unfold next_no in *; simpl; by rewrite Hd|done|by apply Q2].
  - unfold data_of, on_pool, zoom. simpl. by rewrite (BufferPool.unpin_get _ _ _ _ _ _ Hr Hh Hvw).
Qed.

(** *** The walk to a leaf *)

(** What a walk that stands at page [p], [n] steps above the leaves, knows of the index. *)
Record walk s pg (key : bytes) (m n : nat) (p : Z) (ls0 ps0 : list Z) (par : Z) lo hi (B ls A ps O : list Z) : Prop := {
  wk_hdr : ix_ok (file_hdr_ s);
  wk_hole : hole (layout (file_hdr_ s)) (nodes (file_hdr_ s) pg) m (root_page_ (file_hdr_ s)) n p par lo hi B A O;
  wk_tree : tree (layout (file_hdr_ s)) (nodes (file_hdr_ s) pg) n p par lo hi ls ps;
  wk_inside : inside lo hi (krank (file_hdr_ s) key);
  wk_leaves : B ++ ls ++ A = ls0;
  wk_perm : ps ++ O ≡ₚ ps0;
  wk_nodup : NoDup ps0;
  wk_pages q : q ∈ ps0 -> IX_LEAF_HEADER_PAGE < q < next_no s /\ node_ok (file_hdr_ s) (pg q);
}.
Definition at_walk s pg key m n p ls0 ps0 : Prop :=
  exists par lo hi B ls A ps O, walk s pg key m n p ls0 ps0 par lo hi B ls A ps O.

Lemma walk_start s pg key n ls ps : index_at s pg n ls ps -> at_walk s pg key n n (root_page_ (file_hdr_ s)) ls ps.
Proof.
  intros [Q1 Q2 Q3 Q4 Q5 Q6 Q7 Q8]. exists INVALID_PAGE_ID, None, None, [], ls, [], ps, [].
  split; try done; [constructor|by rewrite !app_nil_r..].
Qed.
Lemma walk_page s pg key m n p ls0 ps0 : at_walk s pg key m n p ls0 ps0 ->
  p ∈ ps0 /\ 0 <= p < next_no s /\ node_ok (file_hdr_ s) (pg p) /\ hd_is_leaf (pg p) = bool_decide (n = O).
Proof.
  intros (par & lo & hi & B & ls & A & ps & O & [Q1 Q2 Q3 Q4 Q5 Q6 Q7 Q8]).
  destruct (tree_root _ _ _ _ _ _ _ _ _ Q3) as [ps' ->].
  assert (Hp : p ∈ ps0) by (rewrite <- Q6; by left). destruct (Q8 p Hp) as [Hr Hok]. unfold IX_LEAF_HEADER_PAGE in Hr.
  split_and!; [done|lia|lia|done|]. by apply (tree_leaf (layout (file_hdr_ s)) pg) in Q3.
Qed.
Lemma walk_calm s s' pg key m n p ls0 ps0 : at_walk s pg key m n p ls0 ps0 -> calm s s' pg -> at_walk s' pg key m n p ls0 ps0.
Proof.
  intros (par & lo & hi & B & ls & A & ps & O & [Q1 Q2 Q3 Q4 Q5 Q6 Q7 Q8]) [C1 C2 C3 C4 C5].
  exists par, lo, hi, B, ls, A, ps, O. split; rewrite ?C2, ?C4; done.
Qed.
Lemma layout_ok h : ix_ok h -> ix_ok (layout h).
Proof. by intros []. Qed.

Lemma walk_down s pg key m n p ls0 ps0 : at_walk s pg key m (S n) p ls0 ps0 -> good_key (file_hdr_ s) key ->
  exists c, IxNode.internal_lookup (file_hdr_ s) key (pg p) = Ok c /\ c <> p /\ at_walk s pg key m n c ls0 ps0.
Proof.
  intros Hw Hk. pose proof (walk_page _ _ _ _ _ _ _ _ Hw) as (_ & _ & Hok & _).
  destruct Hw as (par & lo & hi & B & ls & A & ps & O & [Q1 Q2 Q3 Q4 Q5 Q6 Q7 Q8]).
  destruct (descend _ _ _ _ _ _ _ _ _ _ _ _ _ _ key Q2 Q3 Q4)
    as (r & ls' & ps' & lo' & hi' & B' & A' & O' & Hr & Hh' & Ht' & Hi' & El & Ep & Hin).
  exists (rid_page_no r). split_and!.
  - destruct Q3 as (_ & _ & _ & cs & _ & _ & Hks). exact (child_of (file_hdr_ s) pg (pg p) lo hi n p cs key r Q1 Hok Hk Hks Hr).
  - intros E. destruct (tree_root _ _ _ _ _ _ _ _ _ Ht') as [ps2 ->]. rewrite <- Q6, <- Ep in Q7.
    apply NoDup_app in Q7 as (_ & Q7 & _). apply (Q7 (rid_page_no r)); [by left|]. by rewrite E.
  - exists p, lo', hi', B', ls', A', ps', O'. split; try done; [by rewrite El|by rewrite Ep].
Qed.

(** One step down. *)
Lemma step_down s s' pg key m n p ls0 ps0 cur B (k : Z -> M (t D R C) B) r :
  shows s pg -> good_key (file_hdr_ s) key -> at_walk s pg key m (S n) p ls0 ps0 -> at_node s pg p cur ->
  (child ← ask cur (fun h => IxNode.internal_lookup h key);
   next ← fetch_node child;
   unpin cur false;;
   k next) s = (s', r) ->
  (exists e, r = Throw e) \/
  exists c next s1, k next s1 = (s', r) /\ calm s s1 pg /\ at_node s1 pg c next /\ at_walk s1 pg key m n c ls0 ps0 /\
    forall q, BufferPool.pins (bpm s1) q + one (page_of s p) q = BufferPool.pins (bpm s) q + one (page_of s c) q.
Proof.
  intros Hs Hk Hw Ha Hr. destruct (walk_down _ _ _ _ _ _ _ _ Hw Hk) as (c & Hc & Hne & Hwc).
  unfold mbind at 1, M_bind at 1 in Hr. rewrite (run_ask _ _ _ _ _ Ha), Hc in Hr. cbn [lift mret M_ret] in Hr.
  destruct (walk_page _ _ _ _ _ _ _ _ Hwc) as (_ & Hcf & _).
  unfold mbind at 1, M_bind at 1 in Hr. destruct (fetch_node c s) as [s1 [next|e]] eqn:Hf.
  2: { left. exists e. by injection Hr as _ <-. }
  right. destruct (run_fetch _ _ _ _ _ Hs Hcf Hf) as (Hca & Hn & Hp & Hkeep).
  destruct (run_unpin s1 pg p cur (ca_shows _ _ _ Hca) (Hkeep _ _ Ha)) as (s2 & Hu & Hca2 & Hp2 & Hkeep2 & _).
  rewrite (bind_ok _ _ _ _ _ Hu) in Hr. pose proof (calm_trans _ _ _ _ Hca Hca2) as Hca3.
  exists c, next, s2. split_and!; [exact Hr|done|by apply Hkeep2|by eapply walk_calm|].
  intros q. rewrite Hp2, Hp. assert (page_of s1 p = page_of s p) as -> by (unfold page_of; by rewrite (ca_fd _ _ _ Hca)). lia.
Qed.

Lemma find_leaf_ok pg key m n : forall s fuel p ls0 ps0 cur s' leaf,
  shows s pg -> good_key (file_hdr_ s) key -> at_walk s pg key m n p ls0 ps0 -> at_node s pg p cur ->
  find_leaf_from fuel key cur s = (s', Ok leaf) ->
  exists p', calm s s' pg /\ at_node s' pg p' leaf /\ at_walk s' pg key m 0 p' ls0 ps0 /\
    forall q, BufferPool.pins (bpm s') q + one (page_of s p) q = BufferPool.pins (bpm s) q + one (page_of s p') q.
Proof.
  induction n as [|n IH]; intros s fuel p ls0 ps0 cur s' leaf Hs Hk Hw Ha Hr;
    pose proof (walk_page _ _ _ _ _ _ _ _ Hw) as (_ & _ & _ & Hl).
  - assert (E : find_leaf_from fuel key cur s = (s, Ok cur)).
    { destruct fuel; simpl; rewrite (bind_ok _ _ _ _ _ (run_read _ _ _ _ hd_is_leaf Ha)), Hl; done. }
    rewrite E in Hr. injection Hr as <- <-. exists p. by split_and!.
  - rewrite bool_decide_false in Hl by done.
    destruct fuel as [|fuel]; simpl in Hr; rewrite (bind_ok _ _ _ _ _ (run_read _ _ _ _ hd_is_leaf Ha)), Hl in Hr; [done|].
    destruct (step_down _ _ _ _ _ _ _ _ _ _ _ _ _ Hs Hk Hw Ha Hr) as [[e ?]|(c & next & s1 & Hr1 & Hca & Hn & Hwc & Hp)];
      [done|].
    pose proof Hca as [C1 C2 C3 C4 C5]. rewrite <- C2 in Hk.
    destruct (IH _ _ _ _ _ _ _ _ C5 Hk Hwc Hn Hr1) as (p' & Hca' & Hn' & Hw' & Hp').
    exists p'. split_and!; [by eapply calm_trans|done|done|].
    intros q. specialize (Hp q). specialize (Hp' q). unfold page_of in *. rewrite C1 in Hp'. lia.
Qed.

(** Fuel for the height is enough. *)
Lemma find_leaf_fuel pg key m n : forall s fuel fuel' p ls0 ps0 cur,
  shows s pg -> good_key (file_hdr_ s) key -> at_walk s pg key m n p ls0 ps0 -> at_node s pg p cur ->
  (n <= fuel)%nat -> (n <= fuel')%nat -> find_leaf_from fuel key cur s = find_leaf_from fuel' key cur s.
Proof.
  induction n as [|n IH]; intros s fuel fuel' p ls0 ps0 cur Hs Hk Hw Ha Hf Hf';
    pose proof (walk_page _ _ _ _ _ _ _ _ Hw) as (_ & _ & _ & Hl).
  - assert (E : forall fu, find_leaf_from fu key cur s = (s, Ok cur)).
    { intros fu. destruct fu; simpl; rewrite (bind_ok _ _ _ _ _ (run_read _ _ _ _ hd_is_leaf Ha)), Hl; done. }
    by rewrite !E.
  - rewrite bool_decide_false in Hl by done. destruct fuel as [|fuel]; [lia|]. destruct fuel' as [|fuel']; [lia|]. simpl.
    rewrite !(bind_ok _ _ _ _ _ (run_read _ _ _ _ hd_is_leaf Ha)), Hl.
    match goal with |- ?a = ?b => destruct a as [s1 r1] eqn:E1; destruct b as [s2 r2] eqn:E2 end.
    (* the two runs make the same step *)
    revert E1 E2. destruct (walk_down _ _ _ _ _ _ _ _ Hw Hk) as (c & Hc & Hne & Hwc).
    unfold mbind at 1 4, M_bind at 1 4. rewrite (run_ask _ _ _ _ _ Ha), Hc. cbn [lift mret M_ret].
    destruct (walk_page _ _ _ _ _ _ _ _ Hwc) as (_ & Hcf & _).
    unfold mbind at 1 3, M_bind at 1 3. destruct (fetch_node c s) as [s3 [next|e]] eqn:Hfe; [|congruence].
    destruct (run_fetch _ _ _ _ _ Hs Hcf Hfe) as (Hca & Hn & _ & Hkeep).
    destruct (run_unpin s3 pg p cur (ca_shows _ _ _ Hca) (Hkeep _ _ Ha)) as (s4 & Hu & Hca2 & _ & Hkeep2 & _).
    rewrite !(bind_ok _ _ _ _ _ Hu). pose proof (calm_trans _ _ _ _ Hca Hca2) as Hca3.
    intros E1 E2. rewrite <- E1, <- E2. eapply (IH s4); [apply Hca3| |by eapply walk_calm|by apply Hkeep2|lia|lia].
    by rewrite (ca_hdr _ _ _ Hca3).
Qed.

Lemma find_leaf_page_ok s s' pg n ls ps key leaf :
  index_at s pg n ls ps -> good_key (file_hdr_ s) key -> find_leaf_page key s = (s', Ok leaf) ->
  exists p', calm s s' pg /\ at_node s' pg p' leaf /\ at_walk s' pg key n 0 p' ls ps /\
    forall q, BufferPool.pins (bpm s') q = BufferPool.pins (bpm s) q + one (page_of s p') q.
Proof.
  intros Hi Hk Hr. unfold find_leaf_page in Hr. rewrite (bind_ok _ _ s s (file_hdr_ s)) in Hr by done.
  minv. pose proof (walk_start _ _ key _ _ _ Hi) as Hw. destruct (walk_page _ _ _ _ _ _ _ _ Hw) as (_ & Hf & _).
  destruct (run_fetch _ _ _ _ _ (ix_shows _ _ _ _ _ Hi) Hf Hm) as (Hca & Hn & Hp & _).
  unfold pages_fuel in Hm0. rewrite (bind_ok _ _ s0 s0 (file_hdr_ s0)) in Hm0 by done.
  unfold mret, M_ret in Hm0. injection Hm0 as <- <-. pose proof Hca as [C1 C2 C3 C4 C5]. rewrite <- C2 in Hk.
  destruct (find_leaf_ok _ _ _ _ _ _ _ _ _ _ _ _ C5 Hk (walk_calm _ _ _ _ _ _ _ _ _ Hw Hca) Hn Hr) as (p' & Hca' & Hn' & Hw' & Hp').
  exists p'. split_and!; [by eapply calm_trans|done|done|].
  intros q. specialize (Hp q). specialize (Hp' q). unfold page_of in *. rewrite C1 in Hp'. lia.
Qed.

(** The leaf at the end of a walk has the key if any leaf has it. *)
Lemma walk_end s pg key m p ls ps : at_walk s pg key m 0 p ls ps ->
  map_of (layout (file_hdr_ s)) (nodes (file_hdr_ s) pg) ls !! krank (file_hdr_ s) key =
    contents (file_hdr_ s) (pg p) !! krank (file_hdr_ s) key /\
  node_ok (file_hdr_ s) (pg p) /\ sorted (file_hdr_ s) (pg p).
Proof.
  intros Hw. pose proof (walk_page _ _ _ _ _ _ _ _ Hw) as (_ & _ & Hok & _).
  destruct Hw as (par & lo & hi & B & ls1 & A & ps1 & O & [Q1 Q2 Q3 Q4 Q5 Q6 Q7 Q8]).
  destruct Q3 as (_ & _ & Hl & -> & _). destruct (hole_outside _ _ _ _ _ _ _ _ _ _ _ _ _ Q2 Q4) as [O1 O2].
  split_and!; [|done|by destruct (leaf_sorted (layout (file_hdr_ s)) pg _ _ _ Hl)].
  rewrite <- Q5. etrans; [apply (map_of_lookup (layout (file_hdr_ s)) (nodes (file_hdr_ s) pg)); [exact O1|exact O2]|]. by rewrite (leaf_contents (layout (file_hdr_ s)) pg).
Qed.

Lemma get_value_ok s s' pg n m key r :
  index s pg n m -> good_key (file_hdr_ s) key -> get_value key s = (s', Ok r) ->
  r = match m !! krank (file_hdr_ s) key with Some rid => (true, [rid]) | None => (false, []) end /\
  index s' pg n m /\ file_hdr_ s' = file_hdr_ s /\ ctx s' = ctx s /\
  forall q, BufferPool.pins (bpm s') q = BufferPool.pins (bpm s) q.
Proof.
  intros Hi Hk Hr. unfold get_value in Hr. minv. pose proof Hi as (ls & ps & Hix & Em).
  destruct (find_leaf_page_ok _ _ _ _ _ _ _ _ Hix Hk Hm) as (p' & Hca & Ha & Hw & Hp).
  destruct (run_unpin _ _ _ _ (ca_shows _ _ _ Hca) Ha) as (st & Hu & Hca2 & Hp2 & _ & Hd).
  rewrite Hu in Hm0. injection Hm0 as <- <-. pose proof (calm_trans _ _ _ _ Hca Hca2) as Hc.
  unfold ask in Hm1. rewrite (bind_ok _ _ st st (file_hdr_ st)) in Hm1 by done.
  rewrite (bind_ok _ _ _ _ _ Hd) in Hm1. rewrite (ca_hdr _ _ _ Hc) in Hm1.
  destruct (walk_end _ _ _ _ _ _ _ Hw) as (Hmk & Hno & Hso). rewrite (ca_hdr _ _ _ Hca) in Hmk, Hno, Hso.
  rewrite (leaf_lookup_contents _ (ix_hdr _ _ _ _ _ Hix) _ _ Hno Hso Hk) in Hm1. cbn [lift mret M_ret] in Hm1.
  injection Hm1 as <- <-. unfold mret, M_ret in Hr. injection Hr as <- <-. rewrite <- Hmk, <- Em.
  split_and!; [by destruct (_ !! _)|by eapply calm_index|apply (ca_hdr _ _ _ Hc)|apply (ca_ctx _ _ _ Hc)|].
  intros q. rewrite Hp2, Hp. unfold page_of. rewrite (ca_fd _ _ _ Hca). lia.
Qed.

(** C20: on a well-formed tree of any height, [get_value] returns the value the map of the
    tree has for the key and nothing when it has none, whatever the pool evicts and reads on
    the way; the index is unchanged and every pin is given back. *)
Theorem get_value_lookup s s' pg n m key r :
  index s pg n m -> good_key (file_hdr_ s) key -> get_value key s = (s', Ok r) ->
  r = match m !! krank (file_hdr_ s) key with Some rid => (true, [rid]) | None => (false, []) end /\
  index s' pg n m /\ file_hdr_ s' = file_hdr_ s /\ ctx s' = ctx s /\
  forall q, BufferPool.pins (bpm s') q = BufferPool.pins (bpm s) q.
Proof. apply get_value_ok. Qed.

(** The walk of [find_leaf_page] ends: on a well-formed tree it takes no more turns than
    the tree is high, so that any more fuel gives the same result. *)
Theorem find_leaf_terminates s s1 pg n m key root fuel :
  index s pg n m -> good_key (file_hdr_ s) key -> fetch_node (root_page_ (file_hdr_ s)) s = (s1, Ok root) ->
  (n <= fuel)%nat -> find_leaf_from fuel key root s1 = find_leaf_from n key root s1.
Proof.
  intros (ls & ps & Hi & _) Hk Hr Hf. pose proof (walk_start _ _ key _ _ _ Hi) as Hw.
  destruct (walk_page _ _ _ _ _ _ _ _ Hw) as (_ & Hfi & _).
  destruct (run_fetch _ _ _ _ _ (ix_shows _ _ _ _ _ Hi) Hfi Hr) as (Hca & Hn & _). rewrite <- (ca_hdr _ _ _ Hca) in Hk.
  eapply find_leaf_fuel; [apply Hca|done|by eapply walk_calm|exact Hn|done|done].
Qed.
End handle.

(** ** A tree of two leaves, of an index of order 3

    The pages are put into a file of three pages through the pool: the leaves are pages 2 and
    3, and the root is page 4. *)
#[local] Abbreviation D0 := (DiskManager.t MemFs.t).
Definition tree_hdr : IxFileHdr :=
  set_last_leaf 3 (update_tot_len (new_IxFileHdr (-1) 5 4 1 [TYPE_INT] [4] 4 3 (4 * 4) 2 2)).
Definition ok_or (r : res bytes) : bytes := match r with Ok d => d | Throw _ => [] end.
Definition new_leaf (par prev next : Z) : bytes :=
  set_next_leaf next (set_prev_leaf prev (set_is_leaf true (set_parent_page_no par (replicate page_size 0)))).
Definition pairs_in (h : IxFileHdr) (l : list Z) (d : bytes) : bytes :=
  ok_or (foldl (fun r z => d ← r; p ← insert h (int_key z) (mkRid z (z + 1)) d; Ok p.1) (Ok d) l).
Definition leaf_a : bytes := pairs_in tree_hdr [10; 20] (new_leaf 4 1 3).
Definition leaf_b : bytes := pairs_in tree_hdr [30; 40] (new_leaf 4 2 1).
Definition root_ab : bytes :=
  ok_or (d ← insert_pair tree_hdr 0 (int_key 10) (mkRid 2 (-1)) (set_is_leaf false demo_empty);
         insert_pair tree_hdr 1 (int_key 30) (mkRid 3 (-1)) d).
Definition lead : bytes := new_leaf (-1) 3 2.

Definition tree_ops : list BufferPool.op :=
  let page i := mkPageId 2 i in
  [ BufferPool.Fetch (page 1); BufferPool.Put (page 1) lead; BufferPool.Unpin (page 1) true;
    BufferPool.Fetch (page 2); BufferPool.Put (page 2) leaf_a; BufferPool.Unpin (page 2) true;
    BufferPool.New 2; BufferPool.Put (page 3) leaf_b; BufferPool.Unpin (page 3) true;
    BufferPool.New 2; BufferPool.Put (page 4) root_ab; BufferPool.Unpin (page 4) true ].
Definition tree_pool (frames : nat) : BufferPool.pool := (BufferPool.run tree_ops (BufferPool.demo frames)).1.
Definition tree_ctx : Context.t D0 :=
  Context.make LockManager.make (LogManager.make 100 0 (DiskManager.make DiskManager.demo_fs)) LockManager.t0 [] 0.
Definition tree_of (frames : nat) : IxIndexHandle.t D0 LRUReplacer.t (Context.t D0) := mk 2 tree_hdr (tree_pool frames) tree_ctx.
Definition tree_pg (p : Z) : bytes := if p =? 1 then lead else if p =? 2 then leaf_a else if p =? 3 then leaf_b
  else if p =? 4 then root_ab else default [] (BufferPool.view (tree_pool 2) (mkPageId 2 0)).

(** As many frames as the search needs. *)
Definition tree_demo : IxIndexHandle.t D0 LRUReplacer.t (Context.t D0) := tree_of 2.
Definition tree_map : gmap (list Z) Rid :=
  {[ [10] := mkRid 10 11; [20] := mkRid 20 21; [30] := mkRid 30 31; [40] := mkRid 40 41 ]}.

(** A run that is legal, and does not fail, gives a well-formed pool. *)
Lemma run_wf ops n : BufferPool.legal_run ops (BufferPool.demo n) ->
  match (BufferPool.run ops (BufferPool.demo n)).2 with Ok _ => true | _ => false end = true ->
  BufferPool.wf (BufferPool.run ops (BufferPool.demo n)).1.
Proof.
  intros Hl He. destruct (BufferPool.run ops (BufferPool.demo n)) as [s' [es|e]] eqn:E; [|done].
  by destruct (BufferPool.run_ok _ _ _ _ (BufferPool.view (BufferPool.demo n)) (BufferPool.pool_demo_wf n) Hl E (fun q x _ H => H)).
Qed.

Ltac legal := repeat (apply BufferPool.legal_run_cons;
  [lazymatch goal with
   | |- BufferPool.legal _ (BufferPool.Put _ _) => cbn [BufferPool.legal]; split; vm_compute; reflexivity
   | |- _ => BufferPool.legal_step
   end|]); exact I.

Lemma tree_2_wf : BufferPool.wf (tree_pool 2).
Proof. apply run_wf; [unfold tree_ops; legal|vm_compute; reflexivity]. Qed.

Ltac views := intros p Hp; split; [eexists; vm_compute; reflexivity|exact Hp].
Ltac five p := let Hc := fresh in
  assert (p = 0 \/ p = 1 \/ p = 2 \/ p = 3 \/ p = 4) as Hc by lia; destruct Hc as [->|[->|[->|[->| ->]]]].

Lemma tree_2_next : next_no (tree_of 2) = 5.
Proof. vm_compute. reflexivity. Qed.
Lemma tree_2_shows : shows (tree_of 2) tree_pg.
Proof.
  split; [exact tree_2_wf|views|]. rewrite tree_2_next. intros p Hp. five p; vm_compute; reflexivity.
Qed.

Lemma leaf_ints p l lo hi : n_leaf (nodes tree_hdr tree_pg p) = true -> n_keys (nodes tree_hdr tree_pg p) = int_key <$> l ->
  StronglySorted (key_lt tree_hdr) (int_key <$> l) -> Forall (fun z => inside lo hi [z]) l ->
  Forall (fun z => krank tree_hdr (int_key z) = [z]) l ->
  leaf_node (layout tree_hdr) (nodes tree_hdr tree_pg p) lo hi.
Proof.
  intros Hl Hk Hs Hi Hr. split; rewrite ?Hk; [done|apply Forall_fmap, Forall_true, int_key_good|exact Hs|].
  apply Forall_fmap. eapply Forall_impl; [exact (proj2 (Forall_and _ _) (conj Hi Hr))|]. intros z [Hz E].
  change (inside lo hi (krank tree_hdr (int_key z))). by rewrite E.
Qed.
Lemma inside_ints lo hi z : match lo with Some [a] => a <=? z | None => true | _ => false end = true ->
  match hi with Some [b] => z <? b | None => true | _ => false end = true -> inside lo hi [z].
Proof.
  intros Hlo Hhi. split; intros l ->; destruct l as [|a [|]]; try done; cbn [lex].
  - apply Z.leb_le in Hlo. destruct (Z.ltb_spec a z), (Z.ltb_spec z a); lia.
  - apply Z.ltb_lt in Hhi. destruct (Z.ltb_spec z a), (Z.ltb_spec a z); lia.
Qed.

Lemma tree_is_tree : tree (layout tree_hdr) (nodes tree_hdr tree_pg) 1 4 INVALID_PAGE_ID None None [2; 3] [4; 2; 3].
Proof.
  assert (Hk : krank (layout tree_hdr) (int_key 30) = [30]) by reflexivity.
  cbn [tree]. split_and!; [vm_compute; reflexivity|split; vm_compute; reflexivity|vm_compute; reflexivity|].
  exists [([2], [2]); ([3], [3])]. split_and!; [reflexivity..|].
  assert (n_keys (nodes tree_hdr tree_pg 4) = [int_key 10] ++ [int_key 30]) as -> by (vm_compute; reflexivity).
  assert (n_rids (nodes tree_hdr tree_pg 4) = [] ++ mkRid 2 (-1) :: [mkRid 3 (-1)]) as -> by (vm_compute; reflexivity).
  assert (H3 : StronglySorted (key_lt tree_hdr) (int_key <$> [10; 20])) by repeat constructor.
  assert (H4 : StronglySorted (key_lt tree_hdr) (int_key <$> [30; 40])) by repeat constructor.
  apply (kids_intro _ _ None None [int_key 10] [int_key 30] [] [mkRid 3 (-1)] [] [([3], [3])] (mkRid 2 (-1)) ([2], [2]) None (Some [30])).
  - constructor. intros l [=].
  - intros l [=].
  - split; [vm_compute; reflexivity|]. split; [split; vm_compute; reflexivity|]. split; [|done].
    apply (leaf_ints 2 [10; 20]); [vm_compute; reflexivity..|exact H3| |by repeat constructor].
    by constructor; [apply inside_ints|constructor; [apply inside_ints|constructor]].
  - rewrite <- Hk. apply (rest_cons _ _ None (int_key 30) (mkRid 3 (-1)) ([3], [3]) None); [exact (int_key_good 30)|by intros l _ u [=]| |constructor].
    split; [vm_compute; reflexivity|]. split; [split; vm_compute; reflexivity|]. split; [|done]. rewrite Hk.
    apply (leaf_ints 3 [30; 40]); [vm_compute; reflexivity..|exact H4| |by repeat constructor].
    by constructor; [apply inside_ints|constructor; [apply inside_ints|constructor]].
Qed.

Lemma tree_at (s : IxIndexHandle.t D0 LRUReplacer.t (Context.t D0)) : file_hdr_ s = tree_hdr -> shows s tree_pg -> next_no s = 5 -> index s tree_pg 1 tree_map.
Proof.
  intros Eh Hs En. exists [2; 3], [4; 2; 3]. rewrite Eh. split; [|vm_compute; reflexivity].
  split; rewrite ?Eh, ?En.
  - by split.
  - exact Hs.
  - exact tree_is_tree.
  - apply (bool_decide_unpack _). vm_compute. exact I.
  - intros p. rewrite !elem_of_cons, elem_of_nil. unfold IX_LEAF_HEADER_PAGE.
    intros [->|[->|[->|[]]]]; (split; [lia|split; [vm_compute; reflexivity|vm_compute; split; discriminate]]).
  - repeat split.
  - split; [done|vm_compute; reflexivity].
  - by split.
Qed.
Lemma tree_index : index tree_demo tree_pg 1 tree_map.
Proof. exact (tree_at tree_demo eq_refl tree_2_shows tree_2_next). Qed.

Lemma get_value_lookup_witness :
  match get_value (int_key 30) tree_demo, get_value (int_key 25) tree_demo with
  | (s1, Ok r1), (_, Ok r2) => r1 = (true, [mkRid 30 31]) /\ r2 = (false, []) /\ index s1 tree_pg 1 tree_map
  | _, _ => False
  end.
Proof.
  destruct (get_value (int_key 30) tree_demo) as [s1 [r1|e]] eqn:E1.
  2: { apply (f_equal (fun r => match r.2 with Ok _ => true | _ => false end)) in E1. cbn [snd] in E1. vm_compute in E1. discriminate E1. }
  destruct (get_value (int_key 25) tree_demo) as [s2 [r2|e]] eqn:E2.
  2: { apply (f_equal (fun r => match r.2 with Ok _ => true | _ => false end)) in E2. cbn [snd] in E2. vm_compute in E2. discriminate E2. }
  destruct (get_value_lookup _ _ _ _ _ _ _ tree_index (int_key_good 30) E1) as (-> & Hi & _).
  destruct (get_value_lookup _ _ _ _ _ _ _ tree_index (int_key_good 25) E2) as (-> & _).
  split; [vm_compute; reflexivity|]. split; [vm_compute; reflexivity|exact Hi].
Defined.

Lemma find_leaf_terminates_witness :
  match fetch_node (root_page_ (file_hdr_ tree_demo)) tree_demo with
  | (s1, Ok root) => find_leaf_from 6 (int_key 30) root s1 = find_leaf_from 1 (int_key 30) root s1
  | _ => False
  end.
Proof.
  destruct (fetch_node (root_page_ (file_hdr_ tree_demo)) tree_demo) as [s1 [root|e]] eqn:E.
  - apply (find_leaf_terminates tree_demo s1 tree_pg 1 tree_map (int_key 30) root 6 tree_index (int_key_good 30) E).
    repeat constructor.
  - apply (f_equal (fun r => match r.2 with Ok _ => true | _ => false end)) in E. cbn [snd] in E. vm_compute in E. discriminate E.
Defined.

(** Where the positions of a range are wrong.  For a key between the last key of a leaf
    and the first of the next one, [lower_bound] returns the position after the last pair of
    the leaf, from which a scan cannot read ([IndexEntryNotFoundError]) although greater keys
    follow; and for the last key of any leaf, [upper_bound] returns the end of the last leaf of
    the index instead of the position of the next key. *)
Theorem range_positions_wrong :
  (lower_bound (int_key 25) tree_demo).2 = Ok (mkIid 2 2) /\
  IxScan.is_end (IxScan.mk (mkIid 2 2) (mkIid 3 2)) = false /\
  (IxScan.rid (IxScan.mk (mkIid 2 2) (mkIid 3 2)) tree_demo).2 = Throw IndexEntryNotFoundError /\
  (get_value (int_key 30) tree_demo).2 = Ok (true, [mkRid 30 31]) /\
  (upper_bound (int_key 20) tree_demo).2 = Ok (mkIid 3 2) /\
  (leaf_end tree_demo).2 = Ok (mkIid 3 2) /\
  (get_rid (mkIid 3 0) tree_demo).2 = Ok (mkRid 30 31).
Proof. split_and!; vm_compute; reflexivity. Qed.

(** *** An index with one key *)
Definition one_ops : list BufferPool.op :=
  let page := mkPageId 2 2 in
  [ BufferPool.Fetch page; BufferPool.Put page (ok_or (demo_inserts [10] demo_empty)); BufferPool.Unpin page true ].
Definition one_demo : IxIndexHandle.t D0 LRUReplacer.t (Context.t D0) :=
  mk 2 demo_hdr (BufferPool.run one_ops (BufferPool.demo 2)).1 tree_ctx.
Definition emptied : IxIndexHandle.t D0 LRUReplacer.t (Context.t D0) := (delete_entry (int_key 10) true one_demo).1.

Lemma no_root {D R C : Type} `{Disk D} `{Replacer R} `{HasTxn C} (s : IxIndexHandle.t D R C) key :
  is_empty (file_hdr_ s) = true ->
  find_leaf_page key s = (s, Throw (InternalError "IxIndexHandle::fetch_node invalid page_no")).
Proof.
  unfold is_empty. intros E%Z.eqb_eq. unfold find_leaf_page. rewrite (bind_ok _ _ s s (file_hdr_ s)) by done.
  apply bind_throw. unfold fetch_node. by rewrite decide_True.
Qed.

(** An index does not survive the deletion of its last key: the page of the root becomes
    -1, and from then on every search, insertion and deletion is an [InternalError], before
    anything is changed. *)
Theorem emptied_index_unusable {D R C : Type} `{Disk D} `{Files D} `{Replacer R} `{HasTxn C}
    (s : IxIndexHandle.t D R C) key value context :
  is_empty (file_hdr_ s) = true ->
  let e := InternalError "IxIndexHandle::fetch_node invalid page_no" in
  get_value key s = (s, Throw e) /\ insert_entry key value context s = (s, Throw e) /\
  delete_entry key context s = (s, Throw e) /\ lower_bound key s = (s, Throw e) /\ upper_bound key s = (s, Throw e) /\
  (delete_entry (int_key 10) true one_demo).2 = Ok true /\ is_empty (file_hdr_ emptied) = true.
Proof.
  intros E e. pose proof (no_root s key E) as Hn. fold e in Hn.
  unfold get_value, insert_entry, delete_entry, lower_bound, upper_bound.
  rewrite !(bind_throw _ _ _ _ _ Hn). split_and!; try done; vm_compute; reflexivity.
Qed.

Lemma emptied_index_unusable_witness :
  insert_entry (int_key 10) (mkRid 1 1) true emptied =
    (emptied, Throw (InternalError "IxIndexHandle::fetch_node invalid page_no")).
Proof.
  apply (emptied_index_unusable emptied (int_key 10) (mkRid 1 1) true). vm_compute. reflexivity.
Defined.
End IxTree.
