(* ===== verification/IxInsert.v ===== *)
(** * Insertion into an index

    [insert_entry] of [ix_index_handle.cpp] on a well-formed B+ tree: the leaf of the key, the
    split of a full node and the insertion of the new node into its parent, up to a new root.
    The tree is the relation of IxShape.v between the pages the pool shows; every pin taken on
    the way is given back. *)

From stdpp Require Import sorting functions.
From S2P Require Import Prelude Common Posix Replacer Disk Buffer Log Transaction Record IxDefs IxNode IxShape IxHandle IxTree.

Module IxInsert.
Import IxNode IxShape IxIndexHandle IxTree.

(** ** The page of a node *)
Section pages.
Context (h : IxFileHdr) (Hh : ix_ok h).

Lemma same_keys d d' : hd_num_key d' = hd_num_key d ->
  (forall o j, (28 <= o)%nat -> mem_read d' o j = mem_read d o j) ->
  keys h d' = keys h d /\ rids h d' = rids h d.
Proof.
  intros En Hr. unfold keys, rids, size. rewrite En. split; apply list_fmap_ext; intros i x _.
  - unfold key_at, cell. apply Hr. change keys_off with 28%nat. lia.
  - unfold rid_at, cell. rewrite Hr; [done|]. change keys_off with 28%nat. lia.
Qed.

(** The node a page holds, and the leaves it is linked to. *)
Record is_page (d : bytes) (x : node) (a b : Z) : Prop := {
  ip_node : node_of h d = x;
  ip_prev : hd_prev_leaf d = a;
  ip_next : hd_next_leaf d = b;
  ip_ok : node_ok h d;
}.
Lemma is_page_of d : node_ok h d -> is_page d (node_of h d) (hd_prev_leaf d) (hd_next_leaf d).
Proof. by split. Qed.

Lemma set_read o z d o' j : (o' + j <= o \/ o + 4 <= o')%nat -> mem_read (store_32 d o z) o' j = mem_read d o' j.
Proof. intros Ho. unfold store_32. apply mem_read_write_disjoint. rewrite length_le_encode. lia. Qed.

(** Storing a field of the header other than the size leaves the pairs. *)
Lemma set_field o z d : length d = page_size -> (o + 4 <= OFFSET_NODE + 8 \/ OFFSET_NODE + 16 <= o)%nat -> (o + 4 <= 28)%nat ->
  let d' := store_32 d o z in
  length d' = page_size /\ hd_num_key d' = hd_num_key d /\ hd_is_leaf d' = hd_is_leaf d /\
  keys h d' = keys h d /\ rids h d' = rids h d.
Proof.
  intros Hl Ho Ho' d'. assert (En : hd_num_key d' = hd_num_key d).
  { unfold hd_num_key, d'. apply load_store_i32_ne. lia. }
  split_and!; [unfold d'; by rewrite length_store_32|done| | |].
  - unfold hd_is_leaf, d'. by rewrite set_read by lia.
  - apply same_keys; [done|]. intros o' j Hj. apply set_read. lia.
  - apply same_keys; [done|]. intros o' j Hj. apply set_read. lia.
Qed.

Ltac field_page := let E1 := fresh "E1" in let E2 := fresh "E2" in let E3 := fresh "E3" in let E4 := fresh "E4" in let E5 := fresh "E5" in
  intros [<- <- <- [Hl Hs]]; intros; unfold OFFSET_NODE in *;
  match goal with |- is_page ?d' _ _ _ => unfold set_parent_page_no, set_next_free, set_prev_leaf, set_next_leaf, OFFSET_NODE end;
  match goal with |- is_page (store_32 ?d ?o ?z) _ _ _ =>
    destruct (set_field o z d Hl) as (E1 & E2 & E3 & E4 & E5); [unfold OFFSET_NODE; lia|lia|] end;
  split; [unfold node_of, set_par; cbn [n_leaf n_par n_keys n_rids]; rewrite E3, E4, E5; f_equal
         | | |split; [done|by rewrite E2]];
  unfold hd_parent, hd_prev_leaf, hd_next_leaf, OFFSET_NODE;
  first [apply load_store_i32_ne; lia|by apply load_store_i32; [lia|]].

Lemma page_set_parent d x a b z : is_page d x a b -> in_i32 z -> is_page (set_parent_page_no z d) (set_par z x) a b.
Proof. pose proof page_size_Z. unfold PAGE_SIZE in *. field_page. Qed.
Lemma page_set_next_free d x a b z : is_page d x a b -> is_page (set_next_free z d) x a b.
Proof. pose proof page_size_Z. unfold PAGE_SIZE in *. field_page. Qed.
Lemma page_set_prev d x a b z : is_page d x a b -> in_i32 z -> is_page (set_prev_leaf z d) x z b.
Proof. pose proof page_size_Z. unfold PAGE_SIZE in *. field_page. Qed.
Lemma page_set_next d x a b z : is_page d x a b -> in_i32 z -> is_page (set_next_leaf z d) x a z.
Proof. pose proof page_size_Z. unfold PAGE_SIZE in *. field_page. Qed.
Lemma page_set_is_leaf d x a b l : is_page d x a b -> is_page (set_is_leaf l d) (mkNode l (n_par x) (n_keys x) (n_rids x)) a b.
Proof.
  pose proof page_size_Z as Hps. unfold PAGE_SIZE in *. intros [<- <- <- [Hl Hs]]. set (d' := set_is_leaf l d).
  assert (Hr : forall o j, (o + j <= 16 \/ 17 <= o)%nat -> mem_read d' o j = mem_read d o j).
  { intros o j Ho. unfold d', set_is_leaf. apply mem_read_write_disjoint. unfold OFFSET_NODE. cbn. lia. }
  assert (En : hd_num_key d' = hd_num_key d) by (unfold hd_num_key, load_i32, OFFSET_NODE; by rewrite Hr by lia).
  destruct (same_keys d d' En) as [E1 E2]; [intros o j Ho; apply Hr; lia|].
  split; [|unfold hd_prev_leaf, load_i32, OFFSET_NODE; by rewrite Hr by lia|unfold hd_next_leaf, load_i32, OFFSET_NODE; by rewrite Hr by lia|].
  - unfold node_of. rewrite E1, E2. cbn [n_leaf n_par n_keys n_rids]. f_equal.
    + unfold hd_is_leaf, d', set_is_leaf. rewrite mem_read_write_same by (unfold OFFSET_NODE; cbn; lia). by destruct l.
    + unfold hd_parent, load_i32, OFFSET_NODE. by rewrite Hr by lia.
  - split; [unfold d', set_is_leaf; by rewrite length_mem_write|by rewrite En].
Qed.

Lemma page_set_size d x a b i : length d = page_size -> x = node_of h d -> a = hd_prev_leaf d -> b = hd_next_leaf d ->
  (Z.of_nat i <= hd_num_key d \/ i = 0%nat) -> Z.of_nat i <= btree_order_ h + 1 ->
  is_page (set_size (Z.of_nat i) d) (cut i x) a b.
Proof.
  pose proof page_size_Z as Hps. pose proof (order_small _ Hh) as Ho. unfold PAGE_SIZE in *. intros Hl -> -> -> Hi Hb.
  set (d' := set_size (Z.of_nat i) d).
  assert (Hr : forall o j, (o + j <= 12 \/ 16 <= o)%nat -> mem_read d' o j = mem_read d o j) by apply set_size_read.
  assert (En : hd_num_key d' = Z.of_nat i) by (apply hd_num_key_set; [lia|unfold in_i32; lia]).
  assert (Hcut : forall {A} (f : nat -> A), f <$> seq 0 i = take i (f <$> seq 0 (size d))).
  { intros A f. rewrite <- fmap_take. f_equal. destruct Hi as [Hi| ->]; [|done].
    rewrite take_seq. f_equal. unfold size. lia. }
  split.
  - unfold node_of, cut. cbn [n_leaf n_par n_keys n_rids]. f_equal.
    + unfold hd_is_leaf, OFFSET_NODE. by rewrite Hr by lia.
    + unfold hd_parent, load_i32, OFFSET_NODE. by rewrite Hr by lia.
    + unfold keys at 2. rewrite <- Hcut. unfold keys, size. rewrite En, Nat2Z.id. apply list_fmap_ext.
      intros j y _. unfold key_at, cell. apply Hr. change keys_off with 28%nat. lia.
    + unfold rids at 2. rewrite <- Hcut. unfold rids, size. rewrite En, Nat2Z.id. apply list_fmap_ext.
      intros j y _. unfold rid_at, cell. rewrite Hr; [done|]. change keys_off with 28%nat. lia.
  - unfold hd_prev_leaf, load_i32, OFFSET_NODE. by rewrite Hr by lia.
  - unfold hd_next_leaf, load_i32, OFFSET_NODE. by rewrite Hr by lia.
  - split; [unfold d', set_size; by rewrite length_store_32|]. rewrite En. lia.
Qed.
Lemma page_cut d x a b i : is_page d x a b -> (i <= length (n_keys x))%nat -> is_page (set_size (Z.of_nat i) d) (cut i x) a b.
Proof.
  intros [<- <- <- [Hl Hs]] Hi. cbn in Hi. rewrite length_keys in Hi. unfold size in Hi. apply page_set_size; try done; [left; lia|lia].
Qed.

(** [n] pairs of other memory are inserted at [p]. *)
Lemma page_insert d x a b p n key rid ks rs : is_page d x a b -> (p <= length (n_keys x))%nat ->
  (length (n_keys x) + n <= Z.to_nat (btree_order_ h) + 1)%nat -> (n * klen h <= length key)%nat -> (n * sizeof_Rid <= length rid)%nat ->
  (fun i => mem_read key (i * klen h) (klen h)) <$> seq 0 n = ks -> (fun i => load_rid rid (i * sizeof_Rid)) <$> seq 0 n = rs ->
  exists d', insert_pairs h (Z.of_nat p) key rid (Z.of_nat n) d = Ok d' /\
    is_page d' (mkNode (n_leaf x) (n_par x) (take p (n_keys x) ++ ks ++ drop p (n_keys x))
                                            (take p (n_rids x) ++ rs ++ drop p (n_rids x))) a b.
Proof.
  intros [<- <- <- Hok] Hp Hn Hk Hr <- <-. cbn [node_of n_leaf n_par n_keys n_rids] in *. rewrite length_keys in Hp, Hn.
  destruct (insert_pairs_ok h Hh p n key rid d Hok Hp Hn Hk Hr) as (d' & E & Hok' & _ & (S1 & S2 & S3 & S4 & S5) & Ek & Er).
  exists d'. split; [done|]. split; [|congruence|congruence|done]. unfold node_of. by rewrite S2, S3, Ek, Er.
Qed.

(** The memory of a node from its [i]-th pair on. *)
Lemma page_num d x a b : is_page d x a b -> hd_num_key d = Z.of_nat (length (n_keys x)) /\ length (n_rids x) = length (n_keys x) /\
  Z.of_nat (length (n_keys x)) <= btree_order_ h + 1.
Proof. intros [<- _ _ [_ Hs]]. cbn. rewrite length_keys, length_rids. unfold size. lia. Qed.

Lemma block_keys d x a b i : is_page d x a b -> (i <= length (n_keys x))%nat ->
  let n := (length (n_keys x) - i)%nat in let m := get_key h (Z.of_nat i) d in
  (n * klen h <= length m)%nat /\ (fun j => mem_read m (j * klen h) (klen h)) <$> seq 0 n = drop i (n_keys x).
Proof.
  intros Hx Hi n m. destruct (page_num _ _ _ _ Hx) as (_ & _ & Hn). destruct Hx as [<- _ _ [Hl Hs]]. cbn in *.
  rewrite length_keys in Hi, Hn. unfold n. rewrite length_keys. clear n. unfold m, get_key. rewrite key_off_nat by done.
  pose proof (keys_end _ Hh) as He. pose proof (rids_end _ Hh) as Hr. split.
  - rewrite length_drop, Hl. nia.
  - unfold keys. rewrite <- fmap_drop, drop_seq, Nat.add_0_l. unfold size in *. apply list_eq. intros j.
    rewrite !list_lookup_fmap. destruct (decide (j < Z.to_nat (hd_num_key d) - i)%nat) as [Hj|Hj];
      [|by rewrite !lookup_seq_ge by lia].
    rewrite !lookup_seq_lt by lia. cbn [fmap option_fmap option_map]. f_equal. unfold key_at, cell, mem_read. rewrite drop_drop. f_equal. f_equal. lia.
Qed.
Lemma block_rids d x a b i : is_page d x a b -> (i <= length (n_keys x))%nat ->
  let n := (length (n_keys x) - i)%nat in let m := drop (Z.to_nat (rid_off h (Z.of_nat i))) d in
  (n * sizeof_Rid <= length m)%nat /\ (fun j => load_rid m (j * sizeof_Rid)) <$> seq 0 n = drop i (n_rids x).
Proof.
  intros Hx Hi n m. destruct (page_num _ _ _ _ Hx) as (_ & _ & Hn). destruct Hx as [<- _ _ [Hl Hs]]. cbn in *.
  rewrite length_keys in Hi, Hn. unfold n. rewrite length_keys. clear n. unfold m. rewrite rid_off_nat by done.
  pose proof (rids_end _ Hh) as Hr. split.
  - rewrite length_drop, Hl. nia.
  - unfold rids. rewrite <- fmap_drop, drop_seq, Nat.add_0_l. unfold size in *. apply list_eq. intros j.
    rewrite !list_lookup_fmap. destruct (decide (j < Z.to_nat (hd_num_key d) - i)%nat) as [Hj|Hj];
      [|by rewrite !lookup_seq_ge by lia].
    rewrite !lookup_seq_lt by lia. cbn [fmap option_fmap option_map]. f_equal. unfold rid_at, cell, load_rid, load_i32.
    rewrite !mem_read_read by (unfold sizeof_Rid; lia). unfold mem_read. rewrite !drop_drop.
    f_equal; do 4 f_equal; unfold sizeof_Rid; lia.
Qed.
End pages.
(** ** Pinned pages

    The state of a handle while pages are pinned: the header, the number of pages, what the pool
    shows, and the pages held, each at its frame, as often as the list says; [base] counts the
    pins of others. *)
Section holds.
Context {D R C : Type} `{DiskLaws D} `{Files D} `{ReplacerLaws R} `{HasTxn C}.
Context (fl : Z) (c : C) (base : PageId -> Z) (Hbase : forall q, 0 <= base q).
Implicit Types (s : t D R C) (pg : Z -> bytes) (l : list (Z * Z)).
#[local] Abbreviation at_ p := (mkPageId fl p).

Definition pinned l (q : PageId) : Z := Z.of_nat (length (filter (fun x => at_ x.1 = q) l)).

Record holds (h : IxFileHdr) (n : Z) pg l s : Prop := {
  ow_fd : fd_ s = fl;
  ow_hdr : file_hdr_ s = h;
  ow_ctx : ctx s = c;
  ow_next : next_no s = n;
  ow_shows : shows s pg;
  ow_held p f : (p, f) ∈ l -> 0 <= p < n /\ BufferPool.held (bpm s) (at_ p) f (pg p);
  ow_pins q : BufferPool.pins (bpm s) q = base q + pinned l q;
}.

Lemma pinned_cons p f l q : pinned ((p, f) :: l) q = one (at_ p) q + pinned l q.
Proof. unfold pinned, one. rewrite filter_cons. cbn [fst]. case_decide; cbn [length]; lia. Qed.
Lemma pinned_perm l l' q : l ≡ₚ l' -> pinned l q = pinned l' q.
Proof. intros Hp. unfold pinned. by rewrite Hp. Qed.
Lemma pinned_in p f l : (p, f) ∈ l -> 1 <= pinned l (at_ p).
Proof.
  intros Hin. unfold pinned. assert ((p, f) ∈ filter (fun x => at_ x.1 = at_ p) l) as Hf by (by apply list_elem_of_filter).
  destruct (filter _ l); [by apply elem_of_nil in Hf|]. cbn [length]. lia.
Qed.
Lemma pinned_nonneg l q : 0 <= pinned l q.
Proof. unfold pinned. lia. Qed.
Lemma holds_perm h n pg l l' s : l ≡ₚ l' -> holds h n pg l s -> holds h n pg l' s.
Proof.
  intros Hp [Q1 Q2 Q3 Q4 Q5 Q6 Q7]. split; try done.
  - intros p f Hin. apply Q6. by rewrite Hp.
  - intros q. rewrite Q7. f_equal. by apply pinned_perm.
Qed.

Section rules.
Context (h : IxFileHdr) (n : Z) (pg : Z -> bytes) (l : list (Z * Z)) (s : t D R C) (Ho : holds h n pg l s).

Lemma at_page p : page_of s p = at_ p.
Proof. unfold page_of. by rewrite (ow_fd _ _ _ _ _ Ho). Qed.

Lemma holds_data p f : (p, f) ∈ l -> data_of f s = (s, Ok (pg p)).
Proof.
  intros Hin. destruct (ow_held _ _ _ _ _ Ho p f Hin) as [_ Hh].
  unfold data_of, on_pool, zoom. rewrite (BufferPool.held_get _ _ _ _ Hh). by destruct s.
Qed.
Lemma holds_read {A} p f (g : bytes -> A) : (p, f) ∈ l -> read f g s = (s, Ok (g (pg p))).
Proof. intros Hin. unfold read. by rewrite (bind_ok _ _ _ _ _ (holds_data p f Hin)). Qed.
Lemma holds_ask {A} p f (g : IxFileHdr -> bytes -> res A) a : (p, f) ∈ l -> g h (pg p) = Ok a -> ask f g s = (s, Ok a).
Proof.
  intros Hin E. unfold ask. rewrite (bind_ok _ _ s s (file_hdr_ s)) by done.
  rewrite (bind_ok _ _ _ _ _ (holds_data p f Hin)), (ow_hdr _ _ _ _ _ Ho), E. done.
Qed.
Lemma holds_page_no p f : (p, f) ∈ l -> get_page_no f s = (s, Ok p).
Proof.
  intros Hin. destruct (ow_held _ _ _ _ _ Ho p f Hin) as [_ Hh].
  destruct (BufferPool.held_page_at _ _ _ _ Hh) as (q & Hq & Hid & _).
  unfold get_page_no, mbind, M_bind, on_pool, zoom. rewrite Hq. simpl. rewrite Hid. by destruct s.
Qed.
Lemma holds_hdr_of : gets file_hdr_ s = (s, Ok h).
Proof. unfold gets. by rewrite (ow_hdr _ _ _ _ _ Ho). Qed.
Lemma holds_upd_hdr g s' u : upd_hdr g s = (s', Ok u) -> holds (g h) n pg l s'.
Proof.
  unfold upd_hdr, modify. intros [= <- _]. destruct Ho as [Q1 Q2 Q3 Q4 Q5 Q6 Q7]. split; try done; [by cbn; rewrite Q2|].
  by destruct Q5.
Qed.

(** What holds of the pool after it changed one page. *)
Lemma holds_step pl pg' l' (p : Z) n' :
  BufferPool.keeps (fun q => q = at_ p) (bpm s) pl -> BufferPool.wf pl ->
  dk_next (BufferPool.disk_manager_ pl) fl = n' -> n <= n' -> (n' <= n \/ n' = n + 1 /\ p = n) ->
  (forall q, q <> p -> pg' q = pg q) -> BufferPool.view pl (at_ p) = Some (pg' p) ->
  (forall q f, (q, f) ∈ l' -> q <> p -> (q, f) ∈ l) ->
  (forall f, (p, f) ∈ l' -> 0 <= p < n' /\ BufferPool.held pl (at_ p) f (pg' p)) ->
  (forall q, BufferPool.pins pl q = base q + pinned l' q) ->
  holds h n' pg' l' (set_pool pl s).
Proof.
  intros Hk Hw Hn Hle Hnew Hpg Hv Hl Hp Hpins. pose proof Ho as [Q1 Q2 Q3 Q4 [S1 S2 S3] Q6 Q7].
  assert (En : next_no (set_pool pl s) = n') by (unfold next_no; cbn; by rewrite Q1).
  split; try done.
  - split; [done| |].
    + intros q Hq. change (page_of (set_pool pl s) q) with (page_of s q). apply (BufferPool.k_valid _ _ _ Hk). by apply S2.
    + intros q Hq. rewrite En in Hq. change (page_of (set_pool pl s) q) with (page_of s q). rewrite at_page.
      destruct (decide (q = p)) as [->|Hne]; [done|]. rewrite Hpg by done.
      apply (BufferPool.k_view _ _ _ Hk); [congruence|rewrite <- at_page; apply S2; lia|rewrite <- at_page; apply S3; lia].
  - intros q f Hin. destruct (decide (q = p)) as [->|Hne]; [by apply Hp|].
    destruct (Q6 q f (Hl q f Hin Hne)) as [Hr [W1 W2 W3 W4]]. split; [lia|]. rewrite Hpg by done.
    assert (Hq : at_ q <> at_ p) by congruence. split; [done| | |].
    + by rewrite (BufferPool.k_frame _ _ _ Hk) by done.
    + by rewrite (BufferPool.k_pins _ _ _ Hk) by done.
    + apply (BufferPool.k_view _ _ _ Hk); [done|rewrite <- at_page; apply S2; lia|done].
Qed.

End rules.

Section calls.
Context (h : IxFileHdr) (n : Z) (pg : Z -> bytes) (l : list (Z * Z)) (s : t D R C) (Ho : holds h n pg l s).
#[local] Abbreviation at_page := (at_page h n pg l s Ho).

Lemma holds_fetch p s' f : 0 <= p < n -> fetch_node p s = (s', Ok f) -> holds h n pg ((p, f) :: l) s'.
Proof.
  intros Hp Hr. unfold fetch_node in Hr. rewrite decide_False in Hr by (unfold INVALID_PAGE_ID; lia).
  rewrite (bind_ok _ _ s s (fd_ s)) in Hr by done. apply bind_inv in Hr as (s1 & o & Hf & Hr).
  apply run_pool in Hf as (pl & Hf & ->). destruct o as [f'|]; [|done]. unfold mret, M_ret in Hr. injection Hr as <- ->.
  pose proof Ho as [Q1 Q2 Q3 Q4 [S1 S2 S3] Q6 Q7]. rewrite Q1 in Hf.
  assert (Hvp : dk_valid (BufferPool.disk_manager_ (bpm s)) (at_ p)) by (rewrite <- at_page; apply S2; lia).
  assert (Hlt : page_no (at_ p) < dk_next (BufferPool.disk_manager_ (bpm s)) (fd (at_ p))) by (cbn; unfold next_no in Q4; rewrite Q1 in Q4; lia).
  destruct (BufferPool.fetch_held _ _ _ _ S1 Hvp Hlt Hf) as (x & Hh & Hx & Hpin & Hk & _ & Hnx).
  rewrite <- at_page in Hx. rewrite (Hx _ (S3 p ltac:(lia))) in Hh.
  apply (holds_step _ _ _ _ _ Ho pl pg ((p, f) :: l) p n); try done.
  - apply Hh.
  - rewrite Hnx. unfold next_no in Q4. by rewrite Q1 in Q4.
  - lia.
  - apply Hh.
  - intros q g Hin Hne. apply elem_of_cons in Hin as [[= -> _]|Hin]; done.
  - intros g Hin. split; [lia|]. apply elem_of_cons in Hin as [[= ->]|Hin]; [done|].
    destruct (Q6 p g Hin) as [_ Hg]. by rewrite <- (BufferPool.fetch_held_same _ _ _ _ _ _ S1 Hvp Hlt Hf Hg).
  - intros q. rewrite pinned_cons. unfold one. case_decide as E; [subst q; rewrite Hpin, Q7; lia|].
    rewrite (BufferPool.k_pins _ _ _ Hk) by congruence. rewrite Q7. lia.
Qed.

Lemma holds_create s' f : 0 <= n < 2 ^ 31 - 1 -> create_node s = (s', Ok f) ->
  exists pg', holds (set_num_pages (i32 (num_pages_ h + 1)) h) (n + 1) pg' ((n, f) :: l) s' /\
    length (pg' n) = page_size /\ forall q, q <> n -> pg' q = pg q.
Proof.
  intros Hn Hr. unfold create_node in Hr. apply bind_inv in Hr as (s0 & [] & Hu & Hr).
  pose proof (holds_upd_hdr _ _ _ _ _ Ho _ _ _ Hu) as Ho0. unfold upd_hdr, modify in Hu. injection Hu as <-.
  rewrite (bind_ok _ _ _ _ fl) in Hr by (unfold gets; cbn; by rewrite (ow_fd _ _ _ _ _ Ho)).
  apply bind_inv in Hr as (s1 & o & Hf & Hr). apply run_pool in Hf as (pl & Hf & ->). cbn in Hf.
  destruct o as [[f' pid]|]; [|done]. unfold mret, M_ret in Hr. injection Hr as <- ->.
  pose proof Ho as [Q1 Q2 Q3 Q4 [S1 S2 S3] Q6 Q7]. unfold next_no in Q4. rewrite Q1 in Q4.
  assert (Hvp : dk_valid (BufferPool.disk_manager_ (bpm s)) (at_ n)) by (rewrite <- at_page; apply S2; lia).
  destruct (BufferPool.new_held (bpm s) pl fl f pid S1) as (-> & Hh & Hp1 & Hp0 & Hk & Hnx); [lia|by rewrite Q4|exact Hf|].
  rewrite Q4 in Hh, Hp1, Hp0, Hk, Hnx. pose proof (pinned_nonneg l (at_ n)) as Hnn. pose proof (Hbase (at_ n)) as Hb.
  pose proof (Q7 (at_ n)) as Hz. rewrite Hp0 in Hz. exists (<[n := BufferPool.fresh_page]> pg). split_and!.
  - apply (holds_step _ _ _ _ _ Ho0 pl _ _ n (n + 1)); try done.
    + apply Hh.
    + lia.
    + by right.
    + intros q Hq. by rewrite fn_lookup_insert_ne.
    + rewrite fn_lookup_insert. apply Hh.
    + intros q g [[= -> ->]|Hin]%elem_of_cons; done.
    + intros g [[= ->]|Hin]%elem_of_cons; [split; [lia|by rewrite fn_lookup_insert]|]. destruct (Q6 n g Hin). lia.
    + intros q. rewrite pinned_cons. unfold one. case_decide as E; [subst q; rewrite Hp1; lia|].
      rewrite (BufferPool.k_pins _ _ _ Hk) by congruence. rewrite Q7. lia.
  - rewrite fn_lookup_insert. unfold BufferPool.fresh_page. rewrite length_store_32. unfold BufferPool.zero_page. by rewrite length_replicate.
  - intros q Hq. by rewrite fn_lookup_insert_ne.
Qed.

Lemma holds_change p f g s' u : (p, f) ∈ l -> change f g s = (s', Ok u) ->
  exists d, g h (pg p) = Ok d /\ (length d = page_size -> exists pg', holds h n pg' l s' /\ pg' p = d /\ forall q, q <> p -> pg' q = pg q).
Proof.
  intros Hin Hr. unfold change in Hr. rewrite (bind_ok _ _ _ _ _ (holds_hdr_of _ _ _ _ _ Ho)), (bind_ok _ _ _ _ _ (holds_data _ _ _ _ _ Ho p f Hin)) in Hr.
  destruct (g h (pg p)) as [d|e]; [|done]. exists d. split; [done|]. intros Hl. rewrite (bind_ok _ _ s s d) in Hr by done.
  apply run_pool in Hr as (pl & Hf & ->). destruct (ow_held _ _ _ _ _ Ho p f Hin) as [Hp Hh].
  destruct (BufferPool.held_put _ _ _ _ d Hh Hl) as (pl' & Hr' & Hh' & Hpin & Hk & Hd). rewrite Hf in Hr'. injection Hr' as <- _.
  exists (<[p := d]> pg). rewrite fn_lookup_insert. split_and!; [|done|intros q Hq; by rewrite fn_lookup_insert_ne].
  pose proof Ho as [Q1 Q2 Q3 Q4 [S1 S2 S3] Q6 Q7]. unfold next_no in Q4. rewrite Q1 in Q4. apply (holds_step _ _ _ _ _ Ho pl _ l p n); try done.
  - apply Hh'.
  - by rewrite Hd.
  - lia.
  - intros q Hq. by rewrite fn_lookup_insert_ne.
  - rewrite fn_lookup_insert. apply Hh'.
  - intros g' Hin'. split; [lia|]. rewrite fn_lookup_insert.
    destruct (Q6 p g' Hin') as [_ [_ Ht _ _]], Hh as [_ Ht2 _ _]. by rewrite Ht2 in Ht; injection Ht as <-.
  - intros q. destruct (decide (q = at_ p)) as [->|Hne]; [by rewrite Hpin|]. by rewrite (BufferPool.k_pins _ _ _ Hk).
Qed.

Lemma holds_unpin p f l' s' u : l ≡ₚ (p, f) :: l' -> unpin f true s = (s', Ok u) ->
  holds h n pg l' s' /\ get_page_no f s' = (s', Ok p).
Proof.
  intros Hl Hr. assert (Hin : (p, f) ∈ l) by (rewrite Hl; by left). destruct (ow_held _ _ _ _ _ Ho p f Hin) as [Hp Hh].
  destruct (BufferPool.held_page_at _ _ _ _ Hh) as (pgr & Hq & Hid & _).
  destruct (BufferPool.held_unpin _ _ _ _ true Hh ltac:(done)) as (pl & Hu & Hw & Hv & Hpin & Hk & Hd).
  assert (E : unpin f true s = (set_pool pl s, Ok tt)).
  { unfold unpin, get_page_id, mbind, M_bind, on_pool, zoom. rewrite Hq. simpl. rewrite Hid. by rewrite Hu. }
  rewrite E in Hr. injection Hr as <- _. clear E. pose proof Ho as [Q1 Q2 Q3 Q4 [S1 S2 S3] Q6 Q7].
  unfold next_no in Q4. rewrite Q1 in Q4.
  assert (Hpins : forall q, BufferPool.pins pl q = base q + pinned l' q).
  { intros q. pose proof (Q7 q) as E. rewrite (pinned_perm _ _ _ Hl), pinned_cons in E. unfold one in E.
    case_decide as Eq; [subst q; lia|]. rewrite (BufferPool.k_pins _ _ _ Hk) by congruence. lia. }
  assert (Ht : BufferPool.page_table_ pl !! at_ p = Some f).
  { destruct (BufferPool.held_frame _ _ _ _ Hh) as (pgf & Hf & Hidf & Hx & Hpos & Hpn & _).
    destruct (BufferPool.unpin_ok (bpm s) (at_ p) true f pgf S1 (BufferPool.he_table _ _ _ _ Hh) Hf Hpos ltac:(done))
      as (pl2 & Hu2 & _ & _ & _ & _ & Et & _). rewrite Hu in Hu2. injection Hu2 as <-. rewrite Et. apply Hh. }
  split.
  - apply (holds_step _ _ _ _ _ Ho pl pg l' p n); try done; [by rewrite Hd|lia|by intros q g Hg _; rewrite Hl; right|].
    intros g Hg. split; [lia|]. destruct (Q6 p g ltac:(rewrite Hl; by right)) as [_ Hh2].
    pose proof (BufferPool.he_table _ _ _ _ Hh2) as Ht2. rewrite (BufferPool.he_table _ _ _ _ Hh) in Ht2. injection Ht2 as <-.
    split; [done|done| |done]. rewrite Hpins. pose proof (pinned_in p f l' Hg). pose proof (Hbase (at_ p)). lia.
  - destruct (BufferPool.wf_resident _ _ _ _ Hw Ht) as (pgf & Hf & Hidf & _).
    unfold get_page_no, mbind, M_bind, on_pool, zoom. cbn. rewrite (BufferPool.page_at_run _ _ _ Hf). cbn. by rewrite Hidf.
Qed.
Lemma holds_put p f d s' u : (p, f) ∈ l -> on_pool (BufferPool.put_data f d) s = (s', Ok u) -> length d = page_size ->
  exists pg', holds h n pg' l s' /\ pg' p = d /\ forall q, q <> p -> pg' q = pg q.
Proof.
  intros Hin Hr Hl. destruct (holds_change p f (fun _ _ => Ok d) s' u Hin) as (d' & [= <-] & Hk); [|by apply Hk].
  unfold change. by rewrite (bind_ok _ _ _ _ _ (holds_hdr_of _ _ _ _ _ Ho)), (bind_ok _ _ _ _ _ (holds_data _ _ _ _ _ Ho p f Hin)), (bind_ok _ _ s s d).
Qed.
End calls.
End holds.

(** ** What a call holds

    With a context, a page that was changed stays pinned and goes to the set of the transaction;
    without one it is unpinned.  [owns] is about the pages still in use, in both cases. *)
Section owns.
Context {D R C : Type} `{DiskLaws D} `{Files D} `{ReplacerLaws R} `{TxnLens C}.
Context (fl : Z) (base : PageId -> Z) (Hbase : forall q, 0 <= base q) (cx : bool) (c0 : C).
Implicit Types (s : t D R C) (pg : Z -> bytes) (l : list (Z * Z)).

Definition with_latch (la : list Z) : C := cx_set_txn (Txn.set_latch_pages la (cx_txn c0)) c0.
Definition owns (h : IxFileHdr) (n : Z) pg l s : Prop := exists la c, holds fl c base h n pg (l ++ la) s /\
  if cx then c = with_latch la.*2 else c = c0 /\ la = [].

Section calls.
Context (h : IxFileHdr) (n : Z) (pg : Z -> bytes) (l : list (Z * Z)) (s : t D R C) (Ho : owns h n pg l s).

Lemma owns_data p f : (p, f) ∈ l -> data_of f s = (s, Ok (pg p)).
Proof. destruct Ho as (la & c & Hh & _). intros Hin. eapply holds_data; [exact Hh|]. by apply elem_of_app; left. Qed.
Lemma owns_read {A} p f (g : bytes -> A) : (p, f) ∈ l -> read f g s = (s, Ok (g (pg p))).
Proof. destruct Ho as (la & c & Hh & _). intros Hin. eapply holds_read; [exact Hh|]. by apply elem_of_app; left. Qed.
Lemma owns_ask {A} p f (g : IxFileHdr -> bytes -> res A) a : (p, f) ∈ l -> g h (pg p) = Ok a -> ask f g s = (s, Ok a).
Proof. destruct Ho as (la & c & Hh & _). intros Hin. eapply holds_ask; [exact Hh|]. by apply elem_of_app; left. Qed.
Lemma owns_page_no p f : (p, f) ∈ l -> get_page_no f s = (s, Ok p).
Proof. destruct Ho as (la & c & Hh & _). intros Hin. eapply holds_page_no; [exact Hh|]. by apply elem_of_app; left. Qed.
Lemma owns_hdr_of : gets file_hdr_ s = (s, Ok h).
Proof. destruct Ho as (la & c & Hh & _). by eapply holds_hdr_of. Qed.
Lemma owns_range p f : (p, f) ∈ l -> 0 <= p < n.
Proof. destruct Ho as (la & c & Hh & _). intros Hin. apply (ow_held _ _ _ _ _ _ _ _ Hh p f). by apply elem_of_app; left. Qed.
Lemma owns_upd_hdr g s' u : upd_hdr g s = (s', Ok u) -> owns (g h) n pg l s'.
Proof. destruct Ho as (la & c & Hh & Hc). intros Hr. exists la, c. split; [by eapply holds_upd_hdr|done]. Qed.
Lemma owns_fetch p s' f : 0 <= p < n -> fetch_node p s = (s', Ok f) -> owns h n pg ((p, f) :: l) s'.
Proof. destruct Ho as (la & c & Hh & Hc). intros Hp Hr. exists la, c. split; [|done]. by apply (holds_fetch _ _ _ _ _ _ _ _ Hh). Qed.
Lemma owns_create s' f : 0 <= n < 2 ^ 31 - 1 -> create_node s = (s', Ok f) ->
  exists pg', owns (set_num_pages (i32 (num_pages_ h + 1)) h) (n + 1) pg' ((n, f) :: l) s' /\
    length (pg' n) = page_size /\ forall q, q <> n -> pg' q = pg q.
Proof.
  destruct Ho as (la & c & Hh & Hc). intros Hn Hr. destruct (holds_create _ _ _ Hbase _ _ _ _ _ Hh _ _ Hn Hr) as (pg' & Hh' & E).
  exists pg'. split; [|exact E]. by exists la, c.
Qed.
Lemma owns_change p f g s' u : (p, f) ∈ l -> change f g s = (s', Ok u) ->
  exists d, g h (pg p) = Ok d /\ (length d = page_size -> exists pg', owns h n pg' l s' /\ pg' p = d /\ forall q, q <> p -> pg' q = pg q).
Proof.
  destruct Ho as (la & c & Hh & Hc). intros Hin Hr.
  destruct (holds_change _ _ _ _ _ _ _ _ Hh p f g s' u) as (d & E & Hk); [by apply elem_of_app; left|done|].
  exists d. split; [done|]. intros Hl. destruct (Hk Hl) as (pg' & Hh' & E'). exists pg'. split; [by exists la, c|done].
Qed.
Lemma owns_put p f d s' u : (p, f) ∈ l -> on_pool (BufferPool.put_data f d) s = (s', Ok u) -> length d = page_size ->
  exists pg', owns h n pg' l s' /\ pg' p = d /\ forall q, q <> p -> pg' q = pg q.
Proof.
  destruct Ho as (la & c & Hh & Hc). intros Hin Hr Hl.
  destruct (holds_put _ _ _ _ _ _ _ _ Hh p f d s' u) as (pg' & Hh' & E); [by apply elem_of_app; left|done|done|].
  exists pg'. split; [by exists la, c|done].
Qed.

(** The node is not in use any more. *)
Lemma owns_dirty p f l' s' u : l ≡ₚ (p, f) :: l' -> handle_dirty_page cx f s = (s', Ok u) ->
  owns h n pg l' s' /\ get_page_no f s' = (s', Ok p).
Proof.
  destruct Ho as (la & c & Hh & Hc). intros Hl Hr. unfold handle_dirty_page in Hr. unfold owns. destruct cx.
  - assert (Hh' : holds fl (with_latch (la ++ [(p, f)]).*2) base h n pg (l' ++ la ++ [(p, f)]) s').
    { apply (holds_perm _ _ _ _ _ _ (l ++ la)); [rewrite Hl; solve_Permutation|].
      unfold upd_txn, modify in Hr. injection Hr as <- _. destruct Hh as [Q1 Q2 Q3 Q4 [S1 S2 S3] Q6 Q7].
      split; try done. cbn. rewrite Q3, Hc. unfold with_latch. rewrite lens_get_set, lens_set_set. f_equal.
      unfold Txn.append_index_latch_page_set. cbn. by rewrite fmap_app. }
    split; [by exists (la ++ [(p, f)]), (with_latch (la ++ [(p, f)]).*2)|].
    eapply holds_page_no; [exact Hh'|]. rewrite !elem_of_app, list_elem_of_singleton. tauto.
  - destruct Hc as [-> ->]. rewrite app_nil_r in Hh.
    destruct (holds_unpin _ _ _ Hbase _ _ _ _ _ Hh p f l' s' u Hl Hr) as [Hh' Hno]. split; [|done]. exists [], c0. by rewrite app_nil_r.
Qed.
End calls.

(** *** Changing the page of a node *)
#[local] Abbreviation page h := (is_page (layout h)).

Lemma owns_page h n pg l s p f g s' u x x' a b a' b' : owns h n pg l s -> (p, f) ∈ l -> page h (pg p) x a b ->
  change f g s = (s', Ok u) -> (forall d, page h d x a b -> exists d', g h d = Ok d' /\ page h d' x' a' b') ->
  exists pg', owns h n pg' l s' /\ page h (pg' p) x' a' b' /\ forall q, q <> p -> pg' q = pg q.
Proof.
  intros Ho Hin Hx Hr Hg. destruct (Hg _ Hx) as (d' & E & Hd').
  destruct (owns_change _ _ _ _ _ Ho _ _ _ _ _ Hin Hr) as (d & E' & Hk). rewrite E in E'. injection E' as <-.
  destruct Hk as (pg' & Ho' & Ep & Hpg); [by destruct Hd' as [_ _ _ []]|]. exists pg'. by rewrite Ep.
Qed.
Lemma owns_set h n pg l s p f g s' u x x' a b a' b' : owns h n pg l s -> (p, f) ∈ l -> page h (pg p) x a b ->
  set f g s = (s', Ok u) -> (forall d, page h d x a b -> page h (g d) x' a' b') ->
  exists pg', owns h n pg' l s' /\ page h (pg' p) x' a' b' /\ forall q, q <> p -> pg' q = pg q.
Proof. intros Ho Hin Hx Hr Hg. eapply owns_page; [done..|]. intros d Hd. eexists. split; [reflexivity|by apply Hg]. Qed.

(** A new node. *)
Lemma empty_node h n pg l s f lf par nf s0 s1 s2 s3 s4 u1 u2 u3 u4 :
  owns h n pg l s -> ix_ok (layout h) -> 0 <= n < 2 ^ 31 - 1 -> in_i32 par ->
  create_node s = (s0, Ok f) -> set f (set_size 0) s0 = (s1, Ok u1) -> set f (set_is_leaf lf) s1 = (s2, Ok u2) ->
  set f (set_parent_page_no par) s2 = (s3, Ok u3) -> set f (set_next_free nf) s3 = (s4, Ok u4) ->
  exists pg' a b, owns (set_num_pages (i32 (num_pages_ h + 1)) h) (n + 1) pg' ((n, f) :: l) s4 /\
    page h (pg' n) (mkNode lf par [] []) a b /\ forall q, q <> n -> pg' q = pg q.
Proof.
  intros Ho Hh Hn Hpar Hc H1' H2' H3' H4'. destruct (owns_create _ _ _ _ _ Ho _ _ Hn Hc) as (pg1 & Ho1 & Hl1 & E1).
  assert (Hin : (n, f) ∈ (n, f) :: l) by (by left).
  destruct (owns_change _ _ _ _ _ Ho1 _ _ _ _ _ Hin H1') as (d & [= <-] & Hk).
  destruct Hk as (pg2 & Ho2 & Ep & E2); [unfold set_size; by rewrite length_store_32|].
  assert (Hx : page h (pg2 n) (cut 0 (node_of (layout h) (pg1 n))) (hd_prev_leaf (pg1 n)) (hd_next_leaf (pg1 n))).
  { rewrite Ep. apply (page_set_size (layout h) Hh _ _ _ _ 0); try done; [by right|]. pose proof (xo_order _ Hh). lia. }
  destruct (owns_set _ _ _ _ _ _ _ _ _ _ _ _ _ _ _ _ Ho2 Hin Hx H2' (fun d Hd => page_set_is_leaf _ d _ _ _ lf Hd)) as (pg3 & Ho3 & Hx3 & E3).
  destruct (owns_set _ _ _ _ _ _ _ _ _ _ _ _ _ _ _ _ Ho3 Hin Hx3 H3' (fun d Hd => page_set_parent _ d _ _ _ par Hd Hpar)) as (pg4 & Ho4 & Hx4 & E4).
  destruct (owns_set _ _ _ _ _ _ _ _ _ _ _ _ _ _ _ _ Ho4 Hin Hx4 H4' (fun d Hd => page_set_next_free _ d _ _ _ nf Hd)) as (pg5 & Ho5 & Hx5 & E5).
  exists pg5, (hd_prev_leaf (pg1 n)), (hd_next_leaf (pg1 n)). split_and!; [done|exact Hx5|].
  intros q Hq. by rewrite E5, E4, E3, E2, E1.
Qed.

(** *** [maintain_child] *)
Lemma page_value h d x a b i r : ix_ok (layout h) -> page h d x a b -> n_rids x !! i = Some r ->
  IxNode.value_at h (Z.of_nat i) d = rid_page_no r.
Proof.
  intros Hh [<- _ _ _] Hr. cbn in Hr. pose proof (lookup_lt_Some _ _ _ Hr) as Hi. rewrite length_rids in Hi.
  unfold rids in Hr. rewrite list_lookup_fmap, lookup_seq_lt in Hr by done. cbn [fmap option_fmap option_map] in Hr. injection Hr as <-.
  unfold IxNode.value_at, IxNode.get_rid, rid_at, cell. pose proof (rid_off_nat _ Hh i) as E. change (rid_off (layout h)) with (rid_off h) in E.
  rewrite E. unfold load_rid, load_i32. rewrite !mem_read_read by (unfold sizeof_Rid; lia). by rewrite !Nat.add_0_r.
Qed.

Lemma maintain_one h n pg l s s' u p f x a b i r y a2 b2 : owns h n pg l s -> ix_ok (layout h) -> (p, f) ∈ l -> in_i32 p ->
  page h (pg p) x a b -> n_leaf x = false -> n_rids x !! i = Some r -> 0 <= rid_page_no r < n ->
  page h (pg (rid_page_no r)) y a2 b2 -> maintain_child cx f (Z.of_nat i) s = (s', Ok u) ->
  exists pg', owns h n pg' l s' /\ page h (pg' (rid_page_no r)) (set_par p y) a2 b2 /\ forall q, q <> rid_page_no r -> pg' q = pg q.
Proof.
  intros Ho Hh Hin Hp Hx Hl Hi Hr Hy Hm. unfold maintain_child in Hm.
  rewrite (bind_ok _ _ _ _ _ (owns_read _ _ _ _ _ Ho p f hd_is_leaf Hin)) in Hm.
  assert (El : hd_is_leaf (pg p) = false) by (by destruct Hx as [<- _ _ _]). rewrite El in Hm.
  rewrite (bind_ok _ _ _ _ _ (owns_ask _ _ _ _ _ Ho p f _ _ Hin (f_equal Ok (page_value _ _ _ _ _ _ _ Hh Hx Hi)))) in Hm.
  apply bind_inv in Hm as (s1 & cf & Hf & Hm). pose proof (owns_fetch _ _ _ _ _ Ho _ _ _ Hr Hf) as Ho1.
  rewrite (bind_ok _ _ _ _ _ (owns_page_no _ _ _ _ _ Ho1 p f ltac:(by right))) in Hm.
  apply bind_inv in Hm as (s2 & [] & Hset & Hm).
  destruct (owns_set _ _ _ _ _ _ _ _ _ _ _ _ _ _ _ _ Ho1 (list_elem_of_here _ _) Hy Hset (fun d Hd => page_set_parent _ d _ _ _ p Hd Hp)) as (pg' & Ho2 & Hy' & E).
  exists pg'. split_and!; [|exact Hy'|exact E]. by destruct (owns_dirty _ _ _ _ _ Ho2 (rid_page_no r) cf l s' u ltac:(done) Hm).
Qed.

Lemma maintain_leaf h n pg l s p f x a b js : owns h n pg l s -> (p, f) ∈ l -> page h (pg p) x a b -> n_leaf x = true ->
  forM js (maintain_child cx f) s = (s, Ok tt).
Proof.
  intros Ho Hin Hx Hl. induction js as [|j js IH]; [done|]. cbn [forM].
  rewrite (bind_ok _ _ s s tt); [done|]. unfold maintain_child. rewrite (bind_ok _ _ _ _ _ (owns_read _ _ _ _ _ Ho p f hd_is_leaf Hin)).
  assert (hd_is_leaf (pg p) = true) as -> by (by destruct Hx as [<- _ _ _]). done.
Qed.

Lemma maintain_all h n l p f x a b g js : ix_ok (layout h) -> (p, f) ∈ l -> in_i32 p -> n_leaf x = false ->
  (forall j, j ∈ js -> g j <> p /\ 0 <= g j < n /\ exists r, n_rids x !! j = Some r /\ rid_page_no r = g j) ->
  forall pg s s' u, owns h n pg l s -> page h (pg p) x a b -> (forall j, j ∈ js -> exists y a b, page h (pg (g j)) y a b) ->
  forM (Z.of_nat <$> js) (maintain_child cx f) s = (s', Ok u) ->
  exists pg', owns h n pg' l s' /\ (forall q, q ∉ g <$> js -> pg' q = pg q) /\
    forall q y a b, q ∈ g <$> js -> page h (pg q) y a b -> page h (pg' q) (set_par p y) a b.
Proof.
  intros Hh Hin Hp Hl. induction js as [|j js IH]; intros Hg pg s s' u Ho Hx Hc Hr.
  - unfold forM in Hr. injection Hr as <- _. exists pg. split_and!; [done..|]. by intros q y a' b' ?%elem_of_nil.
  - cbn [forM fmap list_fmap] in Hr. apply bind_inv in Hr as (s1 & [] & H1' & Hr).
    destruct (Hg j ltac:(by left)) as (Hne & Hrg & r & Hr1 & Er). destruct (Hc j ltac:(by left)) as (y & a2 & b2 & Hy).
    rewrite <- Er in Hy, Hrg.
    destruct (maintain_one _ _ _ _ _ _ _ _ _ _ _ _ _ _ _ _ _ Ho Hh Hin Hp Hx Hl Hr1 Hrg Hy H1') as (pg1 & Ho1 & Hy1 & E1).
    rewrite Er in Hy, Hy1, E1. assert (Hpage : forall q y a b, page h (pg q) y a b -> exists y a b, page h (pg1 q) y a b).
    { intros q y' a' b' Hq. destruct (decide (q = g j)) as [->|Hq']; [eauto|]. rewrite E1 by done. eauto. }
    destruct (IH) with (pg := pg1) (s := s1) (s' := s') (u := u) as (pg' & Ho' & E' & P'); try done.
    { intros j' Hj'. apply Hg. by right. }
    { by rewrite E1. }
    { intros j' Hj'. destruct (Hc j' ltac:(by right)) as (y' & a' & b' & Hy'). eauto. }
    exists pg'. split_and!; [done| |].
    + intros q Hq. rewrite fmap_cons, not_elem_of_cons in Hq. destruct Hq as [Hq1 Hq2]. by rewrite E', E1.
    + intros q y' a' b' Hq Hy'. rewrite fmap_cons, elem_of_cons in Hq.
      destruct (decide (q ∈ g <$> js)) as [Hq'|Hq'].
      * destruct (decide (q = g j)) as [->|Hne'].
        -- assert (Hy2 : page h (pg1 (g j)) (set_par p y') a' b').
           { destruct Hy as [<- <- <- _], Hy' as [<- <- <- _]. exact Hy1. }
           exact (P' _ _ _ _ Hq' Hy2).
        -- apply P'; [done|]. by rewrite E1.
      * destruct Hq as [->|Hq]; [|done]. rewrite E' by done. destruct Hy as [<- <- <- _], Hy' as [<- <- <- _]. exact Hy1.
Qed.

(** *** [split] *)
Lemma page_i32 h d x a b : page h d x a b -> in_i32 (n_par x) /\ in_i32 a /\ in_i32 b.
Proof. intros [<- <- <- _]. split_and!; apply i32_range. Qed.

(** The second half of the pairs goes to the new node, and the children in it get their new parent. *)
Lemma split_tail h n pg l s s' p f x a b p2 f2 a2 b2 f3 : owns h n pg l s -> ix_ok (layout h) -> (p, f) ∈ l -> (p2, f2) ∈ l ->
  p <> p2 -> in_i32 p2 -> page h (pg p) x a b -> page h (pg p2) (mkNode (n_leaf x) (n_par x) [] []) a2 b2 ->
  let i := Nat.div2 (length (n_keys x)) in
  let cs := if n_leaf x then [] else rid_page_no <$> drop i (n_rids x) in
  (forall q, q ∈ cs -> q <> p /\ q <> p2 /\ 0 <= q < n /\ exists y a b, page h (pg q) y a b) ->
  (h ← gets file_hdr_;
   d ← data_of f;
   let idx := Z.quot (hd_num_key d) 2 in
   let num := hd_num_key d - idx in
   change f2 (fun h => IxNode.insert_pairs h 0 (IxNode.get_key h idx d)
     (drop (Z.to_nat (IxNode.rid_off h idx)) d) num);;
   set f (set_size idx);;
   forM (Z.of_nat <$> seq 0 (Z.to_nat num)) (maintain_child cx f2);;
   mret f2) s = (s', Ok f3) ->
  f3 = f2 /\ exists pg', owns h n pg' l s' /\ page h (pg' p) (cut i x) a b /\ page h (pg' p2) (cut_off i x) a2 b2 /\
    (forall q, q <> p -> q <> p2 -> q ∉ cs -> pg' q = pg q) /\
    (forall q y a b, q ∈ cs -> page h (pg q) y a b -> page h (pg' q) (set_par p2 y) a b).
Proof.
  intros Ho Hh Hin Hin2 Hne Hp2 Hx Hx2 i cs Hcs Hr.
  rewrite (bind_ok _ _ _ _ _ (owns_hdr_of _ _ _ _ _ Ho)), (bind_ok _ _ _ _ _ (owns_data _ _ _ _ _ Ho p f Hin)) in Hr.
  destruct (page_num _ _ _ _ _ Hx) as (En & El & Hlen). set (m := length (n_keys x)) in *.
  assert (Ei : Z.quot (hd_num_key (pg p)) 2 = Z.of_nat i).
  { rewrite En, Z.quot_div_nonneg by lia. unfold i. by rewrite Nat.div2_div, Nat2Z.inj_div. }
  assert (Hi : (i <= m)%nat) by (unfold i; rewrite Nat.div2_div; apply Nat.div_le_upper_bound; lia).
  cbv zeta in Hr. rewrite Ei, En in Hr. replace (Z.of_nat m - Z.of_nat i) with (Z.of_nat (m - i)) in Hr by lia. rewrite Nat2Z.id in Hr.
  apply bind_inv in Hr as (s1 & [] & H1' & Hr). apply bind_inv in Hr as (s2 & [] & H2' & Hr).
  apply bind_inv in Hr as (s3 & [] & H3' & Hr). injection Hr as <- <-. split; [done|].
  destruct (block_keys _ Hh _ _ _ _ i Hx Hi) as [K1 K2], (block_rids _ Hh _ _ _ _ i Hx Hi) as [R1 R2].
  destruct (owns_page _ _ _ _ _ _ _ _ _ _ _ (cut_off i x) _ _ a2 b2 Ho Hin2 Hx2 H1') as (pg1 & Ho1 & Hy1 & E1).
  { intros d Hd. destruct (page_insert _ Hh d _ _ _ 0 (m - i) _ _ _ _ Hd (Nat.le_0_l _) ltac:(cbn [n_keys length]; lia) K1 R1 K2 R2) as (d' & E & Hd').
    exists d'. split; [exact E|]. cbn [n_leaf n_par n_keys n_rids take drop app] in Hd'. by rewrite !app_nil_r in Hd'. }
  assert (Hx1 : page h (pg1 p) x a b) by (by rewrite E1).
  destruct (owns_set _ _ _ _ _ _ _ _ _ _ _ _ _ _ _ _ Ho1 Hin Hx1 H2' (fun d Hd => page_cut _ Hh d _ _ _ i Hd Hi)) as (pg2 & Ho2 & Hy2 & E2).
  assert (Hz2 : page h (pg2 p2) (cut_off i x) a2 b2) by (by rewrite E2).
  destruct (n_leaf x) eqn:Elf.
  - rewrite (maintain_leaf _ _ _ _ _ p2 f2 (cut_off i x) a2 b2 _ Ho2 Hin2 Hz2 Elf) in H3'. injection H3' as <-.
    exists pg2. split_and!; [done..| |by intros q y a' b' ?%elem_of_nil]. intros q Hq1 Hq2 _. by rewrite E2, E1.
  - set (g := fun j => default 0 (rid_page_no <$> (drop i (n_rids x) !! j))).
    assert (Eg : g <$> seq 0 (m - i) = cs).
    { unfold cs. apply list_eq. intros j. rewrite !list_lookup_fmap. destruct (decide (j < m - i)%nat) as [Hj|Hj].
      - rewrite lookup_seq_lt by lia. cbn [fmap option_fmap option_map]. unfold g. rewrite Nat.add_0_l.
        destruct (lookup_lt_is_Some_2 (drop i (n_rids x)) j) as [r ->]; [rewrite length_drop; lia|done].
      - by rewrite !lookup_ge_None_2 by (rewrite ?length_seq, ?length_drop; lia). }
    assert (Hjs : forall j, j ∈ seq 0 (m - i) -> g j ∈ cs) by (intros j Hj; rewrite <- Eg; by apply list_elem_of_fmap_2).
    destruct (maintain_all h n l p2 f2 (cut_off i x) a2 b2 g (seq 0 (m - i)) Hh Hin2 Hp2 Elf) with (pg := pg2) (s := s2) (s' := s3) (u := tt)
      as (pg' & Ho' & E' & P'); try done.
    + intros j Hj. destruct (Hcs _ (Hjs j Hj)) as (_ & Q2 & Q3 & _). split; [done|]. split; [done|].
      apply elem_of_seq in Hj. destruct (lookup_lt_is_Some_2 (drop i (n_rids x)) j) as [r Er]; [rewrite length_drop; lia|].
      exists r. split; [exact Er|]. unfold g. by rewrite Er.
    + intros j Hj. destruct (Hcs _ (Hjs j Hj)) as (Q1 & Q2 & Q3 & Q4). by rewrite E2, E1.
    + rewrite Eg in *. assert (Hnp : p ∉ cs /\ p2 ∉ cs) by (split; intros Hc; destruct (Hcs _ Hc) as (? & ? & _); done). destruct Hnp as [Hn1 Hn2].
      exists pg'. split_and!; [done|by rewrite E'|by rewrite E'| |].
      * intros q Hq1 Hq2 Hq3. by rewrite E', E2, E1.
      * intros q y a' b' Hq Hy. destruct (Hcs _ Hq) as (Q1 & Q2 & _). apply P'; [done|]. by rewrite E2, E1.
Qed.

Lemma split_inner h n pg l s s' p f x a b f2 : owns h n pg l s -> ix_ok (layout h) -> (p, f) ∈ l -> 0 <= n < 2 ^ 31 - 1 ->
  page h (pg p) x a b -> n_leaf x = false ->
  let i := Nat.div2 (length (n_keys x)) in
  let cs := rid_page_no <$> drop i (n_rids x) in
  (forall q, q ∈ cs -> q <> p /\ 0 <= q < n /\ exists y a b, page h (pg q) y a b) ->
  split cx f s = (s', Ok f2) ->
  exists pg' a2 b2, owns (set_num_pages (i32 (num_pages_ h + 1)) h) (n + 1) pg' ((n, f2) :: l) s' /\
    page h (pg' p) (cut i x) a b /\ page h (pg' n) (cut_off i x) a2 b2 /\
    (forall q, q <> p -> q <> n -> q ∉ cs -> pg' q = pg q) /\
    (forall q y a b, q ∈ cs -> page h (pg q) y a b -> page h (pg' q) (set_par n y) a b).
Proof.
  intros Ho Hh Hin Hn Hx Hl i cs Hcs Hr. unfold split in Hr. apply bind_inv in Hr as (s0 & f3 & Hc & Hr).
  pose proof (owns_range _ _ _ _ _ Ho _ _ Hin) as Hpn.
  assert (Hin1 : (p, f) ∈ (n, f3) :: l) by (by right). assert (Hin2 : (n, f3) ∈ (n, f3) :: l) by (by left).
  destruct (owns_create _ _ _ _ _ Ho _ _ Hn Hc) as (pg0 & Ho0 & _ & E0).
  rewrite (bind_ok _ _ _ _ _ (owns_data _ _ _ _ _ Ho0 p f Hin1)), E0 in Hr by lia. clear Ho0 E0 pg0.
  assert (Ep : hd_parent (pg p) = n_par x /\ hd_is_leaf (pg p) = n_leaf x) by (by destruct Hx as [<- _ _ _]). destruct Ep as [Ep Elf].
  rewrite Ep, Elf, Hl in Hr. apply bind_inv in Hr as (s1 & [] & H1' & Hr). apply bind_inv in Hr as (s2 & [] & H2' & Hr).
  apply bind_inv in Hr as (s3 & [] & H3' & Hr). apply bind_inv in Hr as (s4 & [] & H4' & Hr).
  rewrite (bind_ok _ _ s4 s4 tt) in Hr by done.
  destruct (empty_node _ _ _ _ _ _ _ _ _ _ _ _ _ _ _ _ _ _ Ho Hh Hn (proj1 (page_i32 _ _ _ _ _ Hx)) Hc H1' H2' H3' H4')
    as (pg1 & a2 & b2 & Ho1 & Hy1 & E1).
  destruct (split_tail _ _ pg1 _ _ s' p f x a b n f3 a2 b2 f2 Ho1 Hh Hin1 Hin2) as (-> & pg' & Ho' & P1 & P2 & P3 & P4);
    [lia|unfold in_i32; lia|rewrite E1 by lia; exact Hx|rewrite Hl; exact Hy1| |exact Hr|].
  - fold i. rewrite Hl. intros q Hq. destruct (Hcs q Hq) as (Q1 & Q2 & Q3). rewrite E1 by lia. split_and!; [done|lia..|exact Q3].
  - fold i in P3, P4. rewrite Hl in P3, P4. fold cs in P3, P4. exists pg', a2, b2. split_and!; try done.
    + intros q Hq1 Hq2 Hq3. by rewrite P3, E1.
    + intros q y a' b' Hq Hy. apply P4; [done|]. destruct (Hcs q Hq) as (Q1 & Q2 & Q3). rewrite E1 by lia. exact Hy.
Qed.

Lemma split_leaf h n pg l s s' p f x a b f2 : owns h n pg l s -> ix_ok (layout h) -> (p, f) ∈ l -> 0 <= n < 2 ^ 31 - 1 ->
  page h (pg p) x a b -> n_leaf x = true -> b <> p -> 0 <= b < n -> length (pg b) = page_size ->
  let i := Nat.div2 (length (n_keys x)) in
  split cx f s = (s', Ok f2) ->
  exists pg', owns (set_num_pages (i32 (num_pages_ h + 1)) h) (n + 1) pg' ((n, f2) :: l) s' /\
    page h (pg' p) (cut i x) a n /\ page h (pg' n) (cut_off i x) p b /\ pg' b = set_prev_leaf n (pg b) /\
    (forall q, q <> p -> q <> n -> q <> b -> pg' q = pg q).
Proof.
  intros Ho Hh Hin Hn Hx Hl Hbp Hbn Hbl i Hr. unfold split in Hr. apply bind_inv in Hr as (s0 & f3 & Hc & Hr).
  pose proof (owns_range _ _ _ _ _ Ho _ _ Hin) as Hpn.
  assert (Hin1 : (p, f) ∈ (n, f3) :: l) by (by right). assert (Hin2 : (n, f3) ∈ (n, f3) :: l) by (by left).
  assert (Hpi : in_i32 p) by (unfold in_i32; lia). assert (Hni : in_i32 n) by (unfold in_i32; lia).
  destruct (owns_create _ _ _ _ _ Ho _ _ Hn Hc) as (pg0 & Ho0 & _ & E0).
  rewrite (bind_ok _ _ _ _ _ (owns_data _ _ _ _ _ Ho0 p f Hin1)), E0 in Hr by lia. clear Ho0 E0 pg0.
  assert (Ep : hd_parent (pg p) = n_par x /\ hd_is_leaf (pg p) = n_leaf x /\ hd_next_leaf (pg p) = b)
    by (destruct Hx as [<- _ <- _]; done). destruct Ep as (Ep & Elf & Eb).
  rewrite Ep, Elf, Hl, Eb in Hr. apply bind_inv in Hr as (s1 & [] & H1' & Hr). apply bind_inv in Hr as (s2 & [] & H2' & Hr).
  apply bind_inv in Hr as (s3 & [] & H3' & Hr). apply bind_inv in Hr as (s4 & [] & H4' & Hr).
  destruct (empty_node _ _ _ _ _ _ _ _ _ _ _ _ _ _ _ _ _ _ Ho Hh Hn (proj1 (page_i32 _ _ _ _ _ Hx)) Hc H1' H2' H3' H4')
    as (pg1 & a2 & b2 & Ho1 & Hy1 & E1).
  apply bind_inv in Hr as (s5 & [] & Hm & Hr).
  rewrite (bind_ok _ _ _ _ _ (owns_page_no _ _ _ _ _ Ho1 p f Hin1)), (bind_ok _ _ _ _ _ (owns_page_no _ _ _ _ _ Ho1 n f3 Hin2)) in Hm.
  apply bind_inv in Hm as (s6 & [] & H5' & Hm). apply bind_inv in Hm as (s7 & [] & H6' & Hm). apply bind_inv in Hm as (s8 & [] & H7' & Hm).
  pose proof (proj2 (proj2 (page_i32 _ _ _ _ _ Hx))) as Hbi.
  destruct (owns_set _ _ _ _ _ _ _ _ _ _ _ _ _ _ _ _ Ho1 Hin2 Hy1 H5' (fun d Hd => page_set_prev _ d _ _ _ p Hd Hpi)) as (pg2 & Ho2 & Hy2 & E2).
  destruct (owns_set _ _ _ _ _ _ _ _ _ _ _ _ _ _ _ _ Ho2 Hin2 Hy2 H6' (fun d Hd => page_set_next _ d _ _ _ b Hd Hbi)) as (pg3 & Ho3 & Hy3 & E3).
  assert (Hx3 : page h (pg3 p) x a b) by (rewrite E3, E2, E1 by lia; exact Hx).
  destruct (owns_set _ _ _ _ _ _ _ _ _ _ _ _ _ _ _ _ Ho3 Hin1 Hx3 H7' (fun d Hd => page_set_next _ d _ _ _ n Hd Hni)) as (pg4 & Ho4 & Hx4 & E4).
  assert (Hy4 : page h (pg4 n) (mkNode true (n_par x) [] []) p b) by (rewrite E4 by lia; exact Hy3).
  rewrite (bind_ok _ _ _ _ _ (owns_read _ _ _ _ _ Ho4 n f3 hd_next_leaf Hin2)), (ip_next _ _ _ _ _ Hy4) in Hm.
  apply bind_inv in Hm as (s9 & fb & Hf & Hm). apply bind_inv in Hm as (s10 & [] & H8' & Hm).
  pose proof (owns_fetch _ _ _ _ _ Ho4 b s9 fb ltac:(lia) Hf) as Ho5.
  destruct (owns_change _ _ _ _ _ Ho5 b fb _ _ _ (list_elem_of_here _ _) H8') as (d & [= <-] & Hk).
  assert (Eb4 : pg4 b = pg b) by (rewrite E4, E3, E2, E1 by lia; done). rewrite Eb4 in Hk.
  destruct Hk as (pg6 & Ho6 & Ep6 & E6); [unfold set_prev_leaf; by rewrite length_store_32|].
  destruct (owns_dirty _ _ _ _ _ Ho6 b fb ((n, f3) :: l) s5 tt ltac:(done) Hm) as [Ho7 _].
  destruct (split_tail _ _ pg6 _ _ s' p f x a n n f3 p b f2 Ho7 Hh Hin1 Hin2) as (-> & pg' & Ho' & P1 & P2 & P3 & P4);
    [lia|done|rewrite E6 by lia; exact Hx4|rewrite Hl, E6 by lia; exact Hy4| |exact Hr|].
  - rewrite Hl. by intros q ?%elem_of_nil.
  - fold i in P3, P4. rewrite Hl in P3, P4. exists pg'. split_and!; try done.
    + rewrite P3; [done|lia..|by intros ?%elem_of_nil].
    + intros q Hq1 Hq2 Hq3. rewrite P3, E6, E4, E3, E2, E1; done || by intros ?%elem_of_nil.
Qed.

(** *** Insertion into a node *)
Lemma page_pair h d x a b i key rid : ix_ok (layout h) -> page h d x a b -> (i <= length (n_keys x))%nat ->
  Z.of_nat (length (n_keys x)) <= btree_order_ h -> (klen h <= length key)%nat -> rid_ok rid ->
  exists d', IxNode.insert_pair h (Z.of_nat i) key rid d = Ok d' /\
    page h d' (mkNode (n_leaf x) (n_par x) (take i (n_keys x) ++ take (klen h) key :: drop i (n_keys x))
                                           (take i (n_rids x) ++ rid :: drop i (n_rids x))) a b.
Proof.
  intros Hh Hx Hi Hn Hk Hr. pose proof (xo_order _ Hh) as Ho. change (btree_order_ (layout h)) with (btree_order_ h) in Ho.
  apply (page_insert _ Hh d x a b i 1 key (rid_bytes rid) [take (klen h) key] [rid]); try done.
  - change (btree_order_ (layout h)) with (btree_order_ h). lia.
  - change (klen (layout h)) with (klen h). lia.
  - cbn [seq fmap list_fmap]. by rewrite (load_rid_bytes _ _ rid).
Qed.

Lemma key_memory h d x a b : ix_ok (layout h) -> page h d x a b -> (klen h <= length (IxNode.get_key h 0 d))%nat.
Proof.
  intros Hh [_ _ _ [Hl _]]. unfold IxNode.get_key. rewrite (key_off_nat _ Hh 0 : Z.to_nat (key_off h 0) = _), length_drop, Hl.
  pose proof (rids_end _ Hh) as Hr. pose proof (keys_end _ Hh) as He. change (klen (layout h)) with (klen h) in *. lia.
Qed.
Lemma first_key h d x a b k ks : ix_ok (layout h) -> page h d x a b -> n_keys x = k :: ks ->
  take (klen h) (IxNode.get_key h 0 d) = k.
Proof.
  intros Hh Hx E. destruct (block_keys _ Hh _ _ _ _ 0 Hx (Nat.le_0_l _)) as [_ Hb]. rewrite E in Hb. cbn [length Nat.sub seq fmap list_fmap drop] in Hb.
  by injection Hb.
Qed.

Lemma find_child_at h d x a b rs1 r rs2 : ix_ok (layout h) -> page h d x a b -> n_rids x = rs1 ++ r :: rs2 ->
  rid_page_no r ∉ rid_page_no <$> rs1 -> IxNode.find_child h (rid_page_no r) d = Ok (Z.of_nat (length rs1)).
Proof.
  intros Hh Hx E Hn. destruct (page_num _ _ _ _ _ Hx) as (En & El & _). rewrite E, length_app in El. cbn [length] in El.
  assert (Hf : forall k j, (j + k = length rs1)%nat -> forall fuel, (k < fuel)%nat ->
    IxNode.find_from fuel h d (rid_page_no r) (Z.of_nat j) = Z.of_nat (length rs1)).
  { induction k as [|k IH]; intros j Hj fuel Hfu; (destruct fuel as [|fuel]; [lia|]); cbn [IxNode.find_from];
      rewrite (proj2 (Z.ltb_lt (Z.of_nat j) _)) by lia.
    - assert (j = length rs1) as -> by lia.
      rewrite (page_value h d x a b (length rs1) r Hh Hx) by (rewrite E; by apply list_lookup_middle). by rewrite Z.eqb_refl.
    - destruct (lookup_lt_is_Some_2 rs1 j ltac:(lia)) as [r' Hr'].
      rewrite (page_value h d x a b j r' Hh Hx) by (rewrite E; by apply lookup_app_l_Some).
      rewrite (proj2 (Z.eqb_neq _ _)); [|intros Er; apply Hn; rewrite <- Er; apply list_elem_of_fmap_2, list_elem_of_lookup; by exists j].
      replace (Z.of_nat j + 1) with (Z.of_nat (S j)) by lia. apply IH; lia. }
  unfold IxNode.find_child. rewrite (Hf (length rs1) 0%nat eq_refl) by (rewrite En; lia). by rewrite (proj2 (Z.ltb_lt _ _)) by lia.
Qed.

(** Two pages that hold the same node but for its parent. *)
Record like (h : IxFileHdr) (d d' : bytes) : Prop := {
  lk_ok : node_ok h d';
  lk_node : set_par 0 (node_of h d') = set_par 0 (node_of h d);
  lk_prev : hd_prev_leaf d' = hd_prev_leaf d;
  lk_next : hd_next_leaf d' = hd_next_leaf d;
}.
Lemma like_refl h d : node_ok h d -> like h d d.
Proof. by split. Qed.
Lemma like_trans h d1 d2 d3 : like h d1 d2 -> like h d2 d3 -> like h d1 d3.
Proof. intros [] []. split; congruence || done. Qed.
Lemma like_par h d d' x a b z : is_page h d x a b -> is_page h d' (set_par z x) a b -> like h d d'.
Proof. intros [<- <- <- _] [E1 E2 E3 Hok]. split; [done|by rewrite E1|done..]. Qed.

(** *** [insert_into_parent]

    What it comes to: a tree of the same leaves whose pages are the old ones and new ones. *)
Definition grown (h : IxFileHdr) (n : Z) pg l (m k : nat) (ls ps : list Z) s' : Prop :=
  exists h' n' pg' m' ps', owns h' n' pg' l s' /\ layout h' = layout h /\
    first_leaf_ h' = first_leaf_ h /\ last_leaf_ h' = last_leaf_ h /\
    tree (layout h) (nodes h pg') m' (root_page_ h') INVALID_PAGE_ID None None ls ps' /\
    (m' = m \/ m' = S m) /\ n <= n' <= n + Z.of_nat (m - k) + 1 /\ NoDup ps' /\
    (forall q, q ∈ ps' -> IX_LEAF_HEADER_PAGE < q < n' /\ node_ok (layout h) (pg' q)) /\
    (forall q, q ∈ ls -> like (layout h) (pg q) (pg' q)) /\
    (forall q, q < n -> q ∉ ps -> pg' q = pg q).

Lemma small_rid q : IX_LEAF_HEADER_PAGE < q < 2 ^ 31 -> rid_ok (mkRid q (-1)).
Proof. unfold IX_LEAF_HEADER_PAGE, rid_ok, in_i32. cbn [rid_page_no rid_slot_no]. lia. Qed.

(** The tree gets a new root. *)
Lemma new_root_ok h n pg l s s' m p p2 f f2 key k ls1 ps1 ls2 ps2 u :
  owns h n pg l s -> ix_ok (layout h) -> (p, f) ∈ l -> (p2, f2) ∈ l -> IX_LEAF_HEADER_PAGE < n < 2 ^ 31 - 1 ->
  tree (layout h) (nodes h pg) m p INVALID_PAGE_ID None (Some (krank (layout h) k)) ls1 ps1 ->
  tree (layout h) (nodes h pg) m p2 INVALID_PAGE_ID (Some (krank (layout h) k)) None ls2 ps2 ->
  good_key (layout h) k -> take (klen h) key = k -> (klen h <= length key)%nat -> NoDup (ps1 ++ ps2) ->
  (forall q, q ∈ ps1 ++ ps2 -> IX_LEAF_HEADER_PAGE < q < n /\ node_ok (layout h) (pg q)) ->
  (new_root ← create_node;
   set new_root (set_size 0);;
   set new_root (set_is_leaf false);;
   set new_root (set_parent_page_no INVALID_PAGE_ID);;
   set new_root (set_next_free IX_NO_PAGE);;
   change new_root (fun h => IxNode.insert_pair h 0 (IxNode.get_key h 0 (pg p)) (mkRid p (-1)));;
   change new_root (fun h => IxNode.insert_pair h 1 key (mkRid p2 (-1)));;
   new_root_page ← get_page_no new_root;
   upd_hdr (set_root_page new_root_page);;
   set f2 (set_parent_page_no new_root_page);;
   set f (set_parent_page_no new_root_page);;
   handle_dirty_page cx new_root) s = (s', Ok u) ->
  grown h n pg l m m (ls1 ++ ls2) (ps1 ++ ps2) s'.
Proof.
  intros Ho Hh Hin Hin2 Hn Ht1 Ht2 Hg Hk Hkl Hnd Hps Hr.
  destruct (tree_root _ _ _ _ _ _ _ _ _ Ht1) as [ps1' E1]. destruct (tree_root _ _ _ _ _ _ _ _ _ Ht2) as [ps2' E2].
  assert (Hp : p ∈ ps1 ++ ps2) by (rewrite E1; by left).
  assert (Hp2 : p2 ∈ ps1 ++ ps2) by (rewrite E2; apply elem_of_app; right; by left).
  destruct (Hps p Hp) as [Hpn Hpok], (Hps p2 Hp2) as [Hpn2 Hpok2].
  apply NoDup_app in Hnd as (Hd1 & Hd12 & Hd2).
  assert (Hpp2 : p2 ∉ ps1) by (intros Hc; apply (Hd12 _ Hc); rewrite E2; by left).
  assert (Hp2p : p ∉ ps2) by (apply Hd12; rewrite E1; by left).
  assert (Hnew : in_i32 n /\ in_i32 INVALID_PAGE_ID) by (unfold in_i32, INVALID_PAGE_ID, IX_LEAF_HEADER_PAGE in *; lia). destruct Hnew as [Hni Hii].
  apply bind_inv in Hr as (s0 & f3 & Hc & Hr). apply bind_inv in Hr as (s1 & [] & H1' & Hr). apply bind_inv in Hr as (s2 & [] & H2' & Hr).
  apply bind_inv in Hr as (s3 & [] & H3' & Hr). apply bind_inv in Hr as (s4 & [] & H4' & Hr). apply bind_inv in Hr as (s5 & [] & H5' & Hr).
  apply bind_inv in Hr as (s6 & [] & H6' & Hr).
  destruct (empty_node _ _ _ _ _ _ _ _ _ _ _ _ _ _ _ _ _ _ Ho Hh ltac:(unfold IX_LEAF_HEADER_PAGE in Hn; lia) Hii Hc H1' H2' H3' H4') as (pg1 & a & b & Ho1 & Hx1 & F1).
  assert (Hin3 : (n, f3) ∈ (n, f3) :: l) by (by left).
  pose proof (xo_order _ Hh) as Hord. change (btree_order_ (layout h)) with (btree_order_ h) in Hord.
  destruct (owns_page _ _ _ _ _ _ _ _ _ _ _ (mkNode false INVALID_PAGE_ID [take (klen h) (IxNode.get_key h 0 (pg p))] [mkRid p (-1)]) _ _ a b Ho1 Hin3 Hx1 H5') as (pg2 & Ho2 & Hx2 & F2).
  { intros d Hd. refine (page_pair _ d _ _ _ 0 _ _ Hh Hd _ _ _ _); [cbn; lia|cbn; lia|by eapply (key_memory h); [|apply is_page_of]|apply small_rid; lia]. }
  destruct (owns_page _ _ _ _ _ _ _ _ _ _ _ (mkNode false INVALID_PAGE_ID [take (klen h) (IxNode.get_key h 0 (pg p)); k] [mkRid p (-1); mkRid p2 (-1)]) _ _ a b Ho2 Hin3 Hx2 H6') as (pg3 & Ho3 & Hx3 & F3).
  { intros d Hd. rewrite <- Hk. refine (page_pair _ d _ _ _ 1 _ _ Hh Hd _ _ _ _); [cbn; lia|cbn; lia|done|apply small_rid; lia]. }
  rewrite (bind_ok _ _ _ _ _ (owns_page_no _ _ _ _ _ Ho3 n f3 Hin3)) in Hr.
  apply bind_inv in Hr as (s7 & [] & H7' & Hr). pose proof (owns_upd_hdr _ _ _ _ _ Ho3 _ _ _ H7') as Ho4.
  apply bind_inv in Hr as (s8 & [] & H8' & Hr). apply bind_inv in Hr as (s9 & [] & H9' & Hr).
  assert (Hy2 : page h (pg3 p2) (node_of (layout h) (pg p2)) (hd_prev_leaf (pg p2)) (hd_next_leaf (pg p2))).
  { rewrite F3, F2, F1 by lia. by apply is_page_of. }
  destruct (owns_set _ _ _ _ _ _ _ _ _ _ _ _ _ _ _ _ Ho4 (list_elem_of_further _ _ _ Hin2) Hy2 H8' (fun d Hd => page_set_parent _ d _ _ _ n Hd Hni)) as (pg4 & Ho5 & Hy4 & F4).
  assert (Hne : p <> p2) by (intros ->; apply Hpp2; rewrite E1; by left).
  assert (Hx : page h (pg4 p) (node_of (layout h) (pg p)) (hd_prev_leaf (pg p)) (hd_next_leaf (pg p))).
  { rewrite F4, F3, F2, F1 by lia. by apply is_page_of. }
  destruct (owns_set _ _ _ _ _ _ _ _ _ _ _ _ _ _ _ _ Ho5 (list_elem_of_further _ _ _ Hin) Hx H9' (fun d Hd => page_set_parent _ d _ _ _ n Hd Hni)) as (pg5 & Ho6 & Hx5 & F5).
  assert (F : forall q, q <> n -> q <> p -> q <> p2 -> pg5 q = pg q) by (intros q Q1 Q2 Q3; by rewrite F5, F4, F3, F2, F1).
  assert (Hz : page h (pg5 p2) (set_par n (node_of (layout h) (pg p2))) (hd_prev_leaf (pg p2)) (hd_next_leaf (pg p2))) by (by rewrite F5).
  destruct (owns_dirty _ _ _ _ _ Ho6 n f3 l s' u ltac:(done) Hr) as [Ho7 _].
  assert (Hxn : page h (pg5 n) (mkNode false INVALID_PAGE_ID [take (klen h) (IxNode.get_key h 0 (pg p)); k] [mkRid p (-1); mkRid p2 (-1)]) a b)
    by (rewrite F5, F4 by lia; exact Hx3).
  assert (Hlike : forall q, q ∈ ps1 ++ ps2 -> like (layout h) (pg q) (pg5 q)).
  { intros q Hq. destruct (Hps q Hq) as [Hqn Hqok]. destruct (decide (q = p)) as [->|Hqp]; [by eapply like_par; [apply is_page_of|exact Hx5]|].
    destruct (decide (q = p2)) as [->|Hqp2]; [by eapply like_par; [apply is_page_of|exact Hz]|]. rewrite F by lia. by apply like_refl. }
  exists (set_root_page n (set_num_pages (i32 (num_pages_ h + 1)) h)), (n + 1), pg5, (S m), (n :: ps1 ++ ps2). split_and!; try done.
  - change (root_page_ _) with n. cbn [tree]. unfold nodes at 1 2 3 4 5 6. rewrite (ip_node _ _ _ _ _ Hxn). cbn [n_par n_leaf n_keys n_rids].
    split; [done|]. split; [split; [cbn; lia|done]|]. split; [done|]. exists [(ls1, ps1); (ls2, ps2)].
    split; [cbn; by rewrite app_nil_r|]. split; [cbn; by rewrite app_nil_r|].
    apply (kids_intro _ _ None None [take (klen h) (IxNode.get_key h 0 (pg p))] [k] [] [mkRid p2 (-1)] [] [(ls2, ps2)] (mkRid p (-1)) (ls1, ps1) None (Some (krank (layout h) k))).
    + constructor. intros l0 [=].
    + by intros ? [=].
    + eapply (tree_reparent _ (nodes h pg)); [exact Hd1| |exact (ip_node _ _ _ _ _ Hx5)|exact Ht1]. intros q Hq Hqp. unfold nodes. rewrite F; [done| |done|by intros ->].
      destruct (Hps q ltac:(apply elem_of_app; by left)). lia.
    + apply (rest_cons _ _ None k (mkRid p2 (-1)) (ls2, ps2) None); [exact Hg|by intros ? _ ? [=]| |constructor].
      eapply (tree_reparent _ (nodes h pg)); [exact Hd2| |exact (ip_node _ _ _ _ _ Hz)|exact Ht2]. intros q Hq Hqp. unfold nodes. rewrite F; [done| |by intros ->|done].
      destruct (Hps q ltac:(apply elem_of_app; by right)). lia.
  - by right.
  - lia.
  - lia.
  - apply NoDup_cons. split; [intros Hc'; destruct (Hps n Hc'); lia|]. by apply NoDup_app.
  - intros q [->|Hq]%elem_of_cons; [split; [lia|apply Hxn]|]. destruct (Hps _ Hq). split; [lia|].
    by apply (lk_ok _ _ _ (Hlike _ Hq)).
  - intros q Hq. apply Hlike. apply elem_of_app in Hq as [Hq|Hq]; apply elem_of_app; [left|right]; by eapply tree_leaves.
  - intros q Hq Hnq. apply F; [lia|by intros ->|by intros ->].
Qed.

(** The node that was split, at page [p], and its new half, at [p2], stand in the place of the hole,
    one below and one from the key [k] on. *)
Record ready (h : IxFileHdr) (n : Z) pg l s (m k : nat) (p par : Z) lo hi (B A O : list Z) (p2 f f2 : Z) (key kk : bytes)
    (ls1 ps1 ls2 ps2 : list Z) : Prop := {
  rd_owns : owns h n pg l s;
  rd_hdr : ix_ok (layout h);
  rd_old : (p, f) ∈ l;
  rd_new : (p2, f2) ∈ l;
  rd_hole : hole (layout h) (nodes h pg) m (root_page_ h) k p par lo hi B A O;
  rd_tree1 : tree (layout h) (nodes h pg) k p par lo (Some (krank (layout h) kk)) ls1 ps1;
  rd_tree2 : tree (layout h) (nodes h pg) k p2 par (Some (krank (layout h) kk)) hi ls2 ps2;
  rd_good : good_key (layout h) kk;
  rd_key : take (klen h) key = kk /\ (klen h <= length key)%nat;
  rd_proper : proper lo (Some (krank (layout h) kk)) /\ proper (Some (krank (layout h) kk)) hi;
  rd_nodup : NoDup (ps1 ++ ps2 ++ O);
  rd_pages q : q ∈ ps1 ++ ps2 ++ O -> IX_LEAF_HEADER_PAGE < q < n /\ node_ok (layout h) (pg q);
  rd_room : (k <= m)%nat /\ n + Z.of_nat (m - k) + 1 <= 2 ^ 31 - 1 /\ IX_LEAF_HEADER_PAGE < n;
}.

Lemma parent_kids L nd nd1 k pp lo0 hi0 lo hi ks1 ks2 rs1 rs2 cs1 cs2 r p2 kk ls1 ps1 ls2 ps2 :
  upto L (child (tree L nd k) pp) lo0 ks1 rs1 cs1 lo -> rest L (child (tree L nd k) pp) hi0 hi ks2 rs2 cs2 ->
  tree L nd k (rid_page_no r) pp lo (Some (krank L kk)) ls1 ps1 -> tree L nd k p2 pp (Some (krank L kk)) hi ls2 ps2 ->
  good_key L kk -> proper lo (Some (krank L kk)) -> proper (Some (krank L kk)) hi ->
  let cs := cs1 ++ (ls1, ps1) :: (ls2, ps2) :: cs2 in
  (forall q, q ∈ pages cs -> nd1 q = nd q) ->
  kids L (child (tree L nd1 k) pp) lo0 hi0 (ks1 ++ kk :: ks2) (rs1 ++ r :: mkRid p2 (-1) :: rs2) cs.
Proof.
  intros Hu Hr H1' H2' Hg P1 P2 cs He. apply (kids_mono L (child (tree L nd k) pp)).
  - intros r' l' u' c' _ Hc Ht. eapply tree_frame; [|exact Ht]. intros q Hq. apply He. by eapply in_pages.
  - by eapply kids_add.
Qed.

(** The parent has room: the tree keeps its height. *)
Lemma grown_here h n pg l s pg1 m k0 k pp par0 lo0 hi0 B0 A0 O0 cs ps x a b :
  owns h n pg1 l s -> hole (layout h) (nodes h pg) m (root_page_ h) (S k) pp par0 lo0 hi0 B0 A0 O0 ->
  page h (pg1 pp) x a b -> n_par x = par0 -> small (layout h) x -> n_leaf x = false ->
  kids (layout h) (child (tree (layout h) (nodes h pg1) k) pp) lo0 hi0 (n_keys x) (n_rids x) cs ->
  ps ≡ₚ pp :: pages cs ++ O0 -> NoDup ps -> (forall q, q ∈ ps -> IX_LEAF_HEADER_PAGE < q < n /\ node_ok (layout h) (pg q)) ->
  (forall q, q <> pp -> pg1 q = pg q) -> (k0 <= m)%nat ->
  grown h n pg l m k0 (B0 ++ leaves cs ++ A0) ps s.
Proof.
  intros Ho Hhole Hx Hpar Hsm Hl Hk Hps Hnd Hpg F Hk0. pose proof Hnd as Hnd'. rewrite Hps in Hnd'.
  apply NoDup_cons in Hnd' as [Hpp Hnd']. rewrite elem_of_app in Hpp.
  assert (Ht : tree (layout h) (nodes h pg1) (S k) pp par0 lo0 hi0 (leaves cs) (pp :: pages cs)).
  { cbn [tree]. unfold nodes at 1 2 3. rewrite (ip_node _ _ _ _ _ Hx). split_and!; try done. exists cs. split_and!; try done.
    unfold nodes at 2 3. by rewrite (ip_node _ _ _ _ _ Hx). }
  destruct (plug (layout h) (nodes h pg1) m (root_page_ h) (S k) pp par0 lo0 hi0 B0 A0 O0 (leaves cs) (pp :: pages cs)) as (ps' & Ht' & Hps').
  { eapply hole_frame; [|exact Hhole]. intros q Hq. unfold nodes. rewrite F; [done|]. intros ->. tauto. }
  { exact Ht. }
  assert (Hps2 : ps' ≡ₚ ps) by (by rewrite Hps', Hps).
  assert (Hok : forall q, q ∈ ps -> node_ok (layout h) (pg1 q)).
  { intros q Hq. destruct (decide (q = pp)) as [->|Hne]; [apply Hx|]. rewrite F by done. by apply Hpg. }
  exists h, n, pg1, m, ps'. split_and!; try done.
  - by left.
  - lia.
  - by rewrite Hps2.
  - intros q Hq. rewrite Hps2 in Hq. split; [by apply Hpg|by apply Hok].
  - intros q Hq. assert (Hin : q ∈ pages cs ++ O0).
    { rewrite !elem_of_app in Hq. rewrite elem_of_app. destruct Hq as [Hq|[Hq|Hq]].
      - right. eapply hole_leaves; [exact Hhole|by left].
      - left. by eapply kids_leaves.
      - right. eapply hole_leaves; [exact Hhole|by right]. }
    rewrite F; [apply like_refl, Hpg; rewrite Hps; by right|]. intros ->. apply Hpp. by apply elem_of_app.
  - intros q Hq Hnq. apply F. intros ->. apply Hnq. rewrite Hps. by left.
Qed.

(** The parent is full: it is split, and its new half is to be inserted in its turn. *)
Lemma split_up h n pg l s s' m k pp fp f3 par0 lo0 hi0 B0 A0 O0 cs ps x a b :
  owns h n pg l s -> ix_ok (layout h) -> (pp, fp) ∈ l ->
  hole (layout h) (nodes h pg) m (root_page_ h) (S k) pp par0 lo0 hi0 B0 A0 O0 ->
  page h (pg pp) x a b -> n_par x = par0 -> n_leaf x = false -> Z.of_nat (length (n_keys x)) = btree_order_ h ->
  kids (layout h) (child (tree (layout h) (nodes h pg) k) pp) lo0 hi0 (n_keys x) (n_rids x) cs ->
  ps ≡ₚ pp :: pages cs ++ O0 -> NoDup ps -> (forall q, q ∈ ps -> IX_LEAF_HEADER_PAGE < q < n /\ node_ok (layout h) (pg q)) ->
  (S k <= m)%nat -> n + Z.of_nat (m - k) + 1 <= 2 ^ 31 - 1 -> split cx fp s = (s', Ok f3) ->
  let h1 := set_num_pages (i32 (num_pages_ h + 1)) h in
  exists pg2 kk cs1 cs2, cs = cs1 ++ cs2 /\
    ready h1 (n + 1) pg2 ((n, f3) :: l) s' m (S k) pp par0 lo0 hi0 B0 A0 O0 n fp f3 (IxNode.get_key h1 0 (pg2 n)) kk
      (leaves cs1) (pp :: pages cs1) (leaves cs2) (n :: pages cs2) /\
    (forall q, q ∈ pages cs -> like (layout h) (pg q) (pg2 q)) /\
    (forall q, q <> pp -> q <> n -> q ∉ pages cs -> pg2 q = pg q).
Proof.
  intros Ho Hh Hin Hhole Hx Hpar Hl Hlen Hk Hps Hnd Hpg Hkm Hroom Hr h1.
  pose proof Hnd as Hnd'. rewrite Hps in Hnd'. apply NoDup_cons in Hnd' as [Hpp Hnd']. rewrite elem_of_app in Hpp.
  assert (Hppn : pp ∈ ps) by (rewrite Hps; by left). pose proof (proj1 (Hpg _ Hppn)) as Hppr. unfold IX_LEAF_HEADER_PAGE in Hppr.
  assert (Hcsps : forall q, q ∈ pages cs -> q ∈ ps) by (intros q Hq; rewrite Hps; right; apply elem_of_app; by left).
  assert (HOps : forall q, q ∈ O0 -> q ∈ ps) by (intros q Hq; rewrite Hps; right; apply elem_of_app; by right).
  pose proof (xo_order _ Hh) as Hord. change (btree_order_ (layout h)) with (btree_order_ h) in Hord.
  destruct (kids_length _ _ _ _ _ _ _ Hk) as (Lk & Lc & _). set (i := Nat.div2 (length (n_keys x))).
  assert (Hi : (0 < i < length (n_rids x))%nat).
  { unfold i. rewrite Nat.div2_div, <- Lk. split; [apply Nat.div_str_pos; lia|apply Nat.div_lt; lia]. }
  assert (Hch : forall q, q ∈ rid_page_no <$> drop i (n_rids x) -> q ∈ pages cs).
  { intros q (r & -> & Hr')%list_elem_of_fmap. destruct (kid_of _ _ _ _ _ _ _ _ _ (rid_page_no r) Hk) as (cc & ps' & Hc & Ec).
    - apply list_elem_of_fmap_2. rewrite <- (take_drop i (n_rids x)). apply elem_of_app. by right.
    - eapply in_pages; [exact Hc|]. rewrite Ec. by left. }
  assert (Hn0 : 0 <= n < 2 ^ 31 - 1) by lia.
  destruct (split_inner _ _ _ _ _ s' _ _ _ _ _ f3 Ho Hh Hin Hn0 Hx Hl) as (pg2 & a2 & b2 & Ho2 & Hx2 & Hy2 & F2 & P2); [|exact Hr|].
  { intros q Hq. fold i in Hq. pose proof (Hch q Hq) as Hqc. destruct (Hpg q (Hcsps q Hqc)) as [Hqn Hqok]. unfold IX_LEAF_HEADER_PAGE in Hqn.
    split; [intros ->; tauto|]. split; [lia|]. eexists _, _, _. by apply is_page_of. }
  fold i in Hx2, Hy2, F2, P2.
  assert (Hn : forall q, q ∈ ps -> q <> n) by (intros q Hq ->; destruct (Hpg n Hq); lia).
  assert (Hnd2 : NoDup (pp :: n :: pages cs)).
  { apply NoDup_app in Hnd' as (Hdc & _ & _). apply NoDup_cons. rewrite not_elem_of_cons. split; [split; [by apply Hn|tauto]|].
    apply NoDup_cons. split; [|done]. intros Hc. by apply (Hn n (Hcsps _ Hc)). }
  assert (Hnode : forall q, q ∈ pages cs -> nodes h pg2 q =
    if bool_decide (q ∈ rid_page_no <$> drop i (n_rids x)) then set_par n (nodes h pg q) else nodes h pg q).
  { intros q Hq. case_bool_decide as Hb.
    - apply (ip_node _ _ _ _ _ (P2 q _ _ _ Hb (is_page_of _ _ (proj2 (Hpg q (Hcsps q Hq)))))).
    - unfold nodes. rewrite F2; [done|intros ->; tauto|by apply Hn, Hcsps|done]. }
  assert (Hlike : forall q, q ∈ pages cs -> like (layout h) (pg q) (pg2 q)).
  { intros q Hq. pose proof (is_page_of _ _ (proj2 (Hpg q (Hcsps q Hq)))) as Hpq.
    destruct (decide (q ∈ rid_page_no <$> drop i (n_rids x))) as [Hb|Hb]; [eapply like_par; [exact Hpq|by apply P2]|].
    rewrite F2; [by apply like_refl, Hpq|intros ->; tauto|by apply Hn, Hcsps|done]. }
  assert (Ex : nodes h pg pp = x) by apply (ip_node _ _ _ _ _ Hx).
  destruct (inner_split (layout h) (nodes h pg) (nodes h pg2) k pp n par0 lo0 hi0 i cs) as (kk & Ekk & Hg & Pr1 & Pr2 & T1 & T2 & _).
  { by rewrite Ex. } { by rewrite Ex. } { by rewrite Ex. } { rewrite Ex. change (btree_order_ (layout h)) with (btree_order_ h). lia. }
  { by rewrite Ex. } { exact Hnd2. } { rewrite Ex. apply (ip_node _ _ _ _ _ Hx2). } { rewrite Ex. apply (ip_node _ _ _ _ _ Hy2). }
  { intros q Hq. rewrite Ex. by apply Hnode. }
  rewrite Ex in Ekk. exists pg2, kk, (take i cs), (drop i cs). split_and!; [by rewrite take_drop| |exact Hlike|].
  2: { intros q Q1 Q2 Q3. apply F2; [done|done|]. intros Hc. by apply Q3, Hch. }
  assert (Hperm : (pp :: pages (take i cs)) ++ (n :: pages (drop i cs)) ++ O0 ≡ₚ n :: ps).
  { rewrite Hps. rewrite <- (take_drop i cs) at 3. rewrite pages_app. cbn. rewrite <- !app_assoc. solve_Permutation. }
  split; try done.
  - right. exact Hin.
  - by left.
  - eapply hole_frame; [|exact Hhole]. intros q Hq. change (nodes h pg2 q = nodes h pg q). unfold nodes. rewrite F2; [done|intros ->; tauto|by apply Hn, HOps|].
    intros Hc. apply NoDup_app in Hnd' as (_ & Hd & _). by apply (Hd q (Hch q Hc)).
  - assert (Ed : n_keys (cut_off i x) = kk :: drop (S i) (n_keys x)) by (cbn; by apply drop_S).
    split; [exact (first_key h _ _ _ _ _ _ Hh Hy2 Ed)|exact (key_memory h _ _ _ _ Hh Hy2)].
  - rewrite Hperm. apply NoDup_cons. split; [intros Hc; by apply (Hn n Hc)|done].
  - intros q Hq. rewrite Hperm in Hq. apply elem_of_cons in Hq as [->|Hq].
    + split; [unfold IX_LEAF_HEADER_PAGE; lia|apply Hy2].
    + destruct (Hpg q Hq) as [Hqn Hqok]. split; [lia|]. destruct (decide (q = pp)) as [->|Hne]; [apply Hx2|].
      rewrite Hps in Hq. apply elem_of_cons in Hq as [->|Hq]; [done|]. apply elem_of_app in Hq as [Hq|Hq].
      * apply (lk_ok _ _ _ (Hlike q Hq)).
      * rewrite F2; [exact Hqok|done|by apply Hn, HOps|]. intros Hc. apply NoDup_app in Hnd' as (_ & Hd & _). by apply (Hd q (Hch q Hc)).
  - unfold IX_LEAF_HEADER_PAGE. lia.
Qed.

Lemma bind_bind {S0 A B E} (x : M S0 A) (k : A -> M S0 B) (k2 : B -> M S0 E) z z' y : x z = (z', Ok y) ->
  ((x ≫= k) ≫= k2) z = (k y ≫= k2) z'.
Proof. intros E0. unfold mbind, M_bind. by rewrite E0. Qed.

(** What the insertion into the parent changes on its page. *)
Lemma parent_page h d k kk key par0 ks1 ks2 rs1 r rs2 p2 x a b : ix_ok (layout h) -> page h d x a b ->
  x = mkNode false par0 (ks1 ++ ks2) (rs1 ++ r :: rs2) -> small (layout h) x -> length ks1 = S (length rs1) ->
  take (klen h) key = kk -> (klen h <= length key)%nat -> IX_LEAF_HEADER_PAGE < p2 < 2 ^ 31 -> k = S (length rs1) ->
  exists d', IxNode.insert_pair h (Z.of_nat k) key (mkRid p2 (-1)) d = Ok d' /\
    page h d' (mkNode false par0 (ks1 ++ kk :: ks2) (rs1 ++ r :: mkRid p2 (-1) :: rs2)) a b.
Proof.
  intros Hh Hd -> [Hs _] Lu Hkey Hkl Hp2 ->. cbn [n_keys] in Hs. change (btree_order_ (layout h)) with (btree_order_ h) in Hs.
  destruct (page_pair h d _ _ _ (S (length rs1)) key (mkRid p2 (-1)) Hh Hd) as (d' & E & Hd');
    [cbn; rewrite length_app; lia|cbn [n_keys]; lia|done|by apply small_rid|].
  exists d'. split; [exact E|]. cbn [n_leaf n_par n_keys n_rids] in Hd'. rewrite Hkey in Hd'. rewrite <- Lu in Hd' at 1 2.
  rewrite take_app_length, drop_app_length in Hd'.
  rewrite (cons_middle r), (app_assoc rs1) in Hd'. rewrite take_app_length', drop_app_length' in Hd' by (rewrite length_app; cbn; lia).
  by rewrite <- app_assoc in Hd'.
Qed.

(** The result of the insertion one level up is the one of the whole. *)
Lemma grown_up h h1 n pg pg2 l l' s s' m k ls ps pp cs cs1 cs2 B0 A0 O0 par0 lo0 hi0 x kk n2 :
  (S k <= m)%nat -> layout h1 = layout h -> first_leaf_ h1 = first_leaf_ h -> last_leaf_ h1 = last_leaf_ h ->
  hole (layout h) (nodes h pg) m (root_page_ h) (S k) pp par0 lo0 hi0 B0 A0 O0 ->
  kids (layout h) (child (tree (layout h) x k) pp) lo0 hi0 kk n2 cs -> cs = cs1 ++ cs2 ->
  ls = B0 ++ leaves cs ++ A0 -> ps ≡ₚ pp :: pages cs ++ O0 -> NoDup ps ->
  (forall q, q ∈ ps -> IX_LEAF_HEADER_PAGE < q < n /\ node_ok (layout h) (pg q)) ->
  (forall q, q ∈ pages cs -> like (layout h) (pg q) (pg2 q)) ->
  (forall q, q <> pp -> q <> n -> q ∉ pages cs -> pg2 q = pg q) ->
  grown h1 (n + 1) pg2 l' m (S k) (B0 ++ leaves cs1 ++ leaves cs2 ++ A0) ((pp :: pages cs1) ++ (n :: pages cs2) ++ O0) s ->
  (forall h' n' pg', owns h' n' pg' l' s -> owns h' n' pg' l s') ->
  grown h n pg l m k ls ps s'.
Proof.
  intros Hkm EL Ef El Hhole Hk Ecs -> Hps Hnd Hpg Hl2 F2 (h' & n' & pg' & m' & ps' & Ho' & G1 & G2 & G3 & G4 & G5 & G6 & G7 & G8 & G9 & G10) Hun.
  pose proof Hnd as Hnd'. rewrite Hps in Hnd'. apply NoDup_cons in Hnd' as [Hp0c _].
  assert (EN : nodes h1 pg' = nodes h pg') by (unfold nodes; by rewrite EL).
  assert (Eleaves : leaves cs1 ++ leaves cs2 ++ A0 = leaves cs ++ A0) by (rewrite Ecs, leaves_app; by rewrite <- app_assoc).
  rewrite EL in G1, G4, G8, G9. rewrite EN in G4. rewrite Eleaves in G4, G9.
  exists h', n', pg', m', ps'. split_and!; try done.
  - by apply Hun.
  - by rewrite G2.
  - by rewrite G3.
  - lia.
  - lia.
  - intros q Hq. eapply (like_trans _ _ (pg2 q)); [|by apply G9].
    assert (Hin' : q ∈ pages cs ++ O0).
    { rewrite !elem_of_app in Hq. rewrite elem_of_app. destruct Hq as [Hq|[Hq|Hq]].
      - right. eapply hole_leaves; [exact Hhole|by left].
      - left. by eapply kids_leaves.
      - right. eapply hole_leaves; [exact Hhole|by right]. }
    assert (Hqps : q ∈ ps) by (rewrite Hps; by right). assert (Hq0 : q <> pp) by (intros ->; by apply Hp0c).
    destruct (decide (q ∈ pages cs)) as [Hc|Hc]; [by apply Hl2|]. rewrite F2; [by apply like_refl, Hpg|done| |done].
    intros ->. destruct (Hpg n Hqps). lia.
  - intros q Hq Hnq. assert (Hnq' : q <> pp /\ q ∉ pages cs /\ q ∉ O0) by (rewrite Hps, elem_of_cons, elem_of_app in Hnq; tauto).
    destruct Hnq' as (N1 & N2 & N3). rewrite G10; [rewrite F2 by (done || lia); done|lia|].
    rewrite Ecs, pages_app, elem_of_app in N2. rewrite elem_of_app, !elem_of_cons, elem_of_app, elem_of_cons. intros [[?|?]|[[?|?]|?]]; try tauto; lia.
Qed.
Lemma grown_pages h n pg pg1 pp l m k ls ps s : (forall q, q <> pp -> pg1 q = pg q) -> pp ∈ ps -> pp ∉ ls ->
  grown h n pg1 l m k ls ps s -> grown h n pg l m k ls ps s.
Proof.
  intros F Hin Hnin (h' & n' & pg' & m' & ps' & G0 & G1 & G2 & G3 & G4 & G5 & G6 & G7 & G8 & G9 & G10).
  exists h', n', pg', m', ps'. split_and!; try done; [lia|lia|..].
  - intros q Hq. rewrite <- F; [by apply G9|]. by intros ->.
  - intros q Hq Hnq. rewrite <- F; [by apply G10|]. by intros ->.
Qed.

(** One turn of the loop: it ends, for any fuel, or the rest starts where the new half of the parent
    is to be inserted. *)
Definition turn fuel fuel' h n pg l s (m k : nat) (f f2 : Z) (key : bytes) (ls ps : list Z) : Prop :=
  (exists s' r, insert_into_parent_fuel (S fuel) cx f key f2 s = (s', r) /\
    insert_into_parent_fuel (S fuel') cx f key f2 s = (s', r) /\
    forall u, r = Ok u -> grown h n pg l m k ls ps s') \/
  (exists s1 h1 n1 pg1 l1 pp par0 lo0 hi0 B0 A0 O0 q g g2 key1 kk1 la pa lb pb,
    ready h1 n1 pg1 l1 s1 m (S k) pp par0 lo0 hi0 B0 A0 O0 q g g2 key1 kk1 la pa lb pb /\
    insert_into_parent_fuel (S fuel) cx f key f2 s =
      ((insert_into_parent_fuel fuel cx g key1 g2;; handle_dirty_page cx g2);; handle_dirty_page cx g) s1 /\
    insert_into_parent_fuel (S fuel') cx f key f2 s =
      ((insert_into_parent_fuel fuel' cx g key1 g2;; handle_dirty_page cx g2);; handle_dirty_page cx g) s1 /\
    forall s2 s3 s' u2 u, grown h1 n1 pg1 l1 m (S k) (B0 ++ la ++ lb ++ A0) (pa ++ pb ++ O0) s2 ->
      handle_dirty_page cx g2 s2 = (s3, Ok u2) -> handle_dirty_page cx g s3 = (s', Ok u) -> grown h n pg l m k ls ps s').

Lemma turn_root fuel fuel' h n pg l s m p p2 f f2 key kk ls1 ps1 ls2 ps2 :
  ready h n pg l s m m p INVALID_PAGE_ID None None [] [] [] p2 f f2 key kk ls1 ps1 ls2 ps2 ->
  turn fuel fuel' h n pg l s m m f f2 key (ls1 ++ ls2) (ps1 ++ ps2).
Proof.
  intros [Ho Hh Hin Hin2 _ Ht1 Ht2 Hg [Hkey Hkl] _ Hnd Hpg (_ & Hroom & Hn1)]. left. rewrite !app_nil_r in Hnd, Hpg.
  assert (Er : IxNode.is_root_page (pg p) = true) by (unfold IxNode.is_root_page; destruct m; by rewrite (proj1 Ht1 : hd_parent (pg p) = _)).
  cbn [insert_into_parent_fuel].
  rewrite !(bind_ok _ _ _ _ _ (owns_data _ _ _ _ _ Ho p f Hin)), !(bind_ok _ _ _ _ _ (owns_page_no _ _ _ _ _ Ho p2 f2 Hin2)),
    !(bind_ok _ _ _ _ _ (owns_page_no _ _ _ _ _ Ho p f Hin)), Er.
  match goal with |- exists s' r, ?c = _ /\ _ => destruct c as [s' [u|e]] eqn:Hr end; [|by exists s', (Throw e)].
  exists s', (Ok u). split_and!; [done..|]. intros _ _.
  apply (new_root_ok h n pg l s s' m p p2 f f2 key kk ls1 ps1 ls2 ps2 u); try done. lia.
Qed.

(** A step that both runs make. *)
Ltac both E EX EY := rewrite (bind_ok _ _ _ _ _ E) in EX; rewrite (bind_ok _ _ _ _ _ E) in EY.

Lemma turn_inner fuel fuel' h n pg l s m k p0 par0 lo0 hi0 B0 A0 O0 ks1 ks2 rs1 r rs2 cs1 cs2 lo hi p2 f f2 key kk ls1 ps1 ls2 ps2 :
  let B := B0 ++ leaves cs1 in let A := leaves cs2 ++ A0 in let O := p0 :: pages cs1 ++ pages cs2 ++ O0 in
  ready h n pg l s m k (rid_page_no r) p0 lo hi B A O p2 f f2 key kk ls1 ps1 ls2 ps2 ->
  hole (layout h) (nodes h pg) m (root_page_ h) (S k) p0 par0 lo0 hi0 B0 A0 O0 ->
  nodes h pg p0 = mkNode false par0 (ks1 ++ ks2) (rs1 ++ r :: rs2) -> small (layout h) (nodes h pg p0) ->
  upto (layout h) (child (tree (layout h) (nodes h pg) k) p0) lo0 ks1 rs1 cs1 lo ->
  rest (layout h) (child (tree (layout h) (nodes h pg) k) p0) hi0 hi ks2 rs2 cs2 ->
  turn fuel fuel' h n pg l s m k f f2 key (B ++ ls1 ++ ls2 ++ A) (ps1 ++ ps2 ++ O).
Proof.
  intros B A O [Ho Hh Hin Hin2 _ Ht1 Ht2 Hg [Hkey Hkl] [Pr1 Pr2] Hnd Hpg (Hkm & Hroom & Hn1)] Hhole Ex0 Hsm Hu Hre.
  set (p := rid_page_no r) in *. set (ps := ps1 ++ ps2 ++ O) in *. set (cs := cs1 ++ (ls1, ps1) :: (ls2, ps2) :: cs2).
  assert (Hps : ps ≡ₚ p0 :: pages cs ++ O0).
  { unfold ps, O, cs. rewrite pages_app. cbn. fold (pages cs2). rewrite <- !app_assoc. solve_Permutation. }
  assert (El : B ++ ls1 ++ ls2 ++ A = B0 ++ leaves cs ++ A0).
  { unfold B, A, cs. rewrite leaves_app. cbn. fold (leaves cs2). by rewrite <- !app_assoc. }
  assert (Hp0 : p0 ∈ ps) by (rewrite Hps; by left). destruct (Hpg p0 Hp0) as [Hp0n Hp0ok].
  pose proof Hnd as Hnd'. rewrite Hps in Hnd'. apply NoDup_cons in Hnd' as [Hp0c Hnd'].
  pose proof (is_page_of _ _ Hp0ok) as Hx. change (node_of (layout h) (pg p0)) with (nodes h pg p0) in Hx.
  assert (Hidx : IxNode.find_child h p (pg p0) = Ok (Z.of_nat (length rs1))).
  { apply (find_child_at h _ _ _ _ rs1 r rs2 Hh Hx); [by rewrite Ex0|]. intros (r' & Er & Hr')%list_elem_of_fmap.
    destruct (upto_rid _ _ _ _ _ _ _ _ Hu Hr') as (c' & l' & u' & Hc' & Ht'). destruct (tree_root _ _ _ _ _ _ _ _ _ Ht') as [ps' Ec].
    destruct (tree_root _ _ _ _ _ _ _ _ _ Ht1) as [ps1' E1]. apply NoDup_app in Hnd' as (Hdc & _ & _).
    unfold cs in Hdc. rewrite pages_app in Hdc. apply NoDup_app in Hdc as (_ & Hdc & _).
    apply (Hdc p); [eapply in_pages; [exact Hc'|]; unfold p; rewrite Ec, Er; by left|]. cbn. rewrite E1. by left. }
  destruct (upto_length _ _ _ _ _ _ _ Hu) as [Lu _].
  assert (Hp2 : p2 ∈ ps). { destruct (tree_root _ _ _ _ _ _ _ _ _ Ht2) as [ps2' E2]. unfold ps. rewrite E2. apply elem_of_app. right. by left. }
  unfold turn. remember (insert_into_parent_fuel (S fuel) cx f key f2 s) as X eqn:EX. remember (insert_into_parent_fuel (S fuel') cx f key f2 s) as Y eqn:EY.
  cbn [insert_into_parent_fuel] in EX, EY.
  assert (Hpar : hd_parent (pg p) = p0) by (destruct k; apply Ht1).
  assert (Er : IxNode.is_root_page (pg p) = false).
  { unfold IxNode.is_root_page. rewrite Hpar. apply Z.eqb_neq. unfold INVALID_PAGE_ID, IX_LEAF_HEADER_PAGE in *. lia. }
  both (owns_data _ _ _ _ _ Ho p f Hin) EX EY. both (owns_page_no _ _ _ _ _ Ho p2 f2 Hin2) EX EY.
  both (owns_page_no _ _ _ _ _ Ho p f Hin) EX EY. rewrite Er, Hpar in EX, EY.
  destruct (fetch_node p0 s) as [s1 [fp|e]] eqn:Hf;
    [|left; exists s1, (Throw e); rewrite (bind_throw _ _ _ _ _ Hf) in EX; by rewrite (bind_throw _ _ _ _ _ Hf) in EY].
  both Hf EX EY.
  pose proof (owns_fetch _ _ _ _ _ Ho p0 s1 fp ltac:(unfold IX_LEAF_HEADER_PAGE in Hp0n; lia) Hf) as Ho1.
  assert (Hinp : (p0, fp) ∈ (p0, fp) :: l) by (by left).
  both (owns_ask _ _ _ _ _ Ho1 p0 fp (fun h => IxNode.find_child h p) _ Hinp Hidx) EX EY.
  replace (Z.of_nat (length rs1) + 1) with (Z.of_nat (S (length rs1))) in EX, EY by lia.
  match type of EX with _ = (?c ≫= _) s1 => destruct (c s1) as [s2 [u1|e]] eqn:Hch end;
    [|left; exists s2, (Throw e); rewrite (bind_throw _ _ _ _ _ Hch) in EX; by rewrite (bind_throw _ _ _ _ _ Hch) in EY].
  both Hch EX EY.
  set (x := mkNode false par0 (ks1 ++ kk :: ks2) (rs1 ++ r :: mkRid p2 (-1) :: rs2)).
  destruct (owns_page _ _ _ _ _ _ _ _ _ _ _ x _ _ (hd_prev_leaf (pg p0)) (hd_next_leaf (pg p0)) Ho1 Hinp Hx Hch) as (pg1 & Ho2 & Hx1 & F1).
  { intros d Hd. destruct (Hpg p2 Hp2). eapply (parent_page h d _ kk); try done. lia. }
  assert (Hk : kids (layout h) (child (tree (layout h) (nodes h pg1) k) p0) lo0 hi0 (n_keys x) (n_rids x) cs).
  { eapply parent_kids; try done. intros q Hq. change (nodes h pg1 q = nodes h pg q). unfold nodes. rewrite F1; [done|].
    intros ->. apply Hp0c, elem_of_app. by left. }
  assert (Hpg1 : forall q, q ∈ ps -> IX_LEAF_HEADER_PAGE < q < n /\ node_ok (layout h) (pg1 q)).
  { intros q Hq. destruct (Hpg q Hq) as [Hqn Hqok]. split; [done|]. destruct (decide (q = p0)) as [->|Hne]; [apply Hx1|]. by rewrite F1. }
  both (owns_read _ _ _ _ _ Ho2 p0 fp hd_num_key Hinp) EX EY. both (owns_hdr_of _ _ _ _ _ Ho2) EX EY.
  rewrite (proj1 (page_num _ _ _ _ _ Hx1)) in EX, EY. unfold IxNode.get_max_size in EX, EY.
  assert (Lx : (length (n_keys x) = S (length (n_keys (nodes h pg p0))))%nat) by (rewrite Ex0; cbn; rewrite !length_app; cbn; lia).
  destruct Hsm as [Q2 Q2']. change (btree_order_ (layout h)) with (btree_order_ h) in Q2. rewrite El.
  destruct (Z.eqb_spec (Z.of_nat (length (n_keys x))) (btree_order_ h)) as [Emax|Emax].
  2: { left. rewrite (bind_ok _ _ s2 s2 tt) in EX by done. rewrite (bind_ok _ _ s2 s2 tt) in EY by done.
    destruct (handle_dirty_page cx fp s2) as [s' [u|e]] eqn:Hr; [|by exists s', (Throw e)].
    exists s', (Ok u). split_and!; [done..|]. intros _ _.
    destruct (owns_dirty _ _ _ _ _ Ho2 p0 fp l s' u ltac:(done) Hr) as [Ho3 _].
    apply (grown_here h n pg l s' pg1 m k k p0 par0 lo0 hi0 B0 A0 O0 cs ps x (hd_prev_leaf (pg p0)) (hd_next_leaf (pg p0))); try done. split.
    - change (btree_order_ (layout h)) with (btree_order_ h). lia.
    - apply (proj1 (proj2 (page_num _ _ _ _ _ Hx1))). }
  destruct (split cx fp s2) as [s4 [f3|e]] eqn:Hsp.
  2: { left. exists s4, (Throw e). match type of EX with _ = ((_ ≫= ?k1) ≫= _) _ => pose proof (bind_throw _ k1 _ _ _ Hsp) as Hb end.
    rewrite (bind_throw _ _ _ _ _ Hb) in EX. clear Hb.
    match type of EY with _ = ((_ ≫= ?k1) ≫= _) _ => pose proof (bind_throw _ k1 _ _ _ Hsp) as Hb end.
    rewrite (bind_throw _ _ _ _ _ Hb) in EY. done. }
  rewrite (bind_bind _ _ _ _ _ _ Hsp) in EX. rewrite (bind_bind _ _ _ _ _ _ Hsp) in EY.
  assert (Hhole1 : hole (layout h) (nodes h pg1) m (root_page_ h) (S k) p0 par0 lo0 hi0 B0 A0 O0).
  { eapply hole_frame; [|exact Hhole]. intros q Hq. change (nodes h pg1 q = nodes h pg q). unfold nodes. rewrite F1; [done|].
    intros ->. apply Hp0c, elem_of_app. by right. }
  assert (Hkm' : (S k <= m)%nat) by (clear -Hhole; remember (S k) as k' eqn:E; clear E; induction Hhole; lia).
  destruct (split_up _ _ _ _ _ _ _ _ _ _ _ _ _ _ _ _ _ _ _ _ _ _ Ho2 Hh Hinp Hhole1 Hx1 eq_refl eq_refl Emax Hk Hps Hnd Hpg1 Hkm' Hroom Hsp)
    as (pg2 & kk2 & csa & csb & Ecs & Hrd & Hl2 & F2).
  pose proof (bind_bind _ (fun first => insert_into_parent_fuel fuel cx fp first f3;; handle_dirty_page cx f3)
    (fun _ => handle_dirty_page cx fp) _ _ _
    (owns_ask _ _ _ _ _ (rd_owns _ _ _ _ _ _ _ _ _ _ _ _ _ _ _ _ _ _ _ _ _ _ _ Hrd) n f3 (fun h d => Ok (IxNode.get_key h 0 d)) _ (list_elem_of_here _ _) eq_refl)) as B1.
  pose proof (bind_bind _ (fun first => insert_into_parent_fuel fuel' cx fp first f3;; handle_dirty_page cx f3)
    (fun _ => handle_dirty_page cx fp) _ _ _
    (owns_ask _ _ _ _ _ (rd_owns _ _ _ _ _ _ _ _ _ _ _ _ _ _ _ _ _ _ _ _ _ _ _ Hrd) n f3 (fun h d => Ok (IxNode.get_key h 0 d)) _ (list_elem_of_here _ _) eq_refl)) as B2.
  right. do 21 eexists. split; [exact Hrd|]. split; [by rewrite EX|]. split; [by rewrite EY|].
  intros s5 s6 s' u2 u Hgr H5' H6'.
  eapply (grown_pages h n pg pg1 p0); [done|done| |].
  { rewrite !elem_of_app. intros Hc. apply Hp0c. rewrite elem_of_app. destruct Hc as [Hc|[Hc|Hc]].
    - right. eapply hole_leaves; [exact Hhole|by left].
    - left. by eapply kids_leaves.
    - right. eapply hole_leaves; [exact Hhole|by right]. }
  eapply (grown_up h (set_num_pages (i32 (num_pages_ h + 1)) h) n pg1 pg2 l ((n, f3) :: (p0, fp) :: l) s5 s'); try done.
  intros h' n' pg' Ho'. destruct (owns_dirty _ _ _ _ _ Ho' n f3 ((p0, fp) :: l) s6 _ ltac:(done) H5') as [Ho3 _].
  by destruct (owns_dirty _ _ _ _ _ Ho3 p0 fp l s' u ltac:(done) H6') as [Ho4 _].
Qed.

Lemma turn_ok fuel fuel' h n pg l s m k p par lo hi B A O p2 f f2 key kk ls1 ps1 ls2 ps2 :
  ready h n pg l s m k p par lo hi B A O p2 f f2 key kk ls1 ps1 ls2 ps2 ->
  turn fuel fuel' h n pg l s m k f f2 key (B ++ ls1 ++ ls2 ++ A) (ps1 ++ ps2 ++ O).
Proof.
  intros Hr. pose proof (rd_hole _ _ _ _ _ _ _ _ _ _ _ _ _ _ _ _ _ _ _ _ _ _ _ Hr) as Hhole.
  destruct Hhole as [|k p0 par0 lo0 hi0 B0 A0 O0 ks1 ks2 rs1 r rs2 cs1 cs2 lo' hi' Hhole Q1 Q2 Q3 Q4 Q5 Hu Hp Hre].
  - rewrite !app_nil_r. exact (turn_root fuel fuel' _ _ _ _ _ _ _ _ _ _ _ _ _ _ _ _ Hr).
  - eapply turn_inner; try done. destruct (nodes h pg p0) as [lf par ks rs]. cbn in *. by subst.
Qed.

Lemma insert_parent_ok fuel : forall h n pg l s s' m k p par lo hi B A O p2 f f2 key kk ls1 ps1 ls2 ps2 u,
  ready h n pg l s m k p par lo hi B A O p2 f f2 key kk ls1 ps1 ls2 ps2 ->
  insert_into_parent_fuel fuel cx f key f2 s = (s', Ok u) ->
  grown h n pg l m k (B ++ ls1 ++ ls2 ++ A) (ps1 ++ ps2 ++ O) s'.
Proof.
  induction fuel as [|fuel IH]; intros * Hrd Hr; [done|].
  destruct (turn_ok fuel fuel _ _ _ _ _ _ _ _ _ _ _ _ _ _ _ _ _ _ _ _ _ _ _ Hrd)
    as [(s1 & r1 & E1 & _ & Hg)|(s1 & h1 & n1 & pg1 & l1 & pp & par0 & lo0 & hi0 & B0 & A0 & O0 & q & g & g2 & key1 & kk1 & la & pa & lb & pb & Hrd1 & E1 & _ & Hup)];
    rewrite E1 in Hr.
  - injection Hr as -> ->. by eapply Hg.
  - apply bind_inv in Hr as (s3 & u3 & Hr & Hu). apply bind_inv in Hr as (s2 & u2 & Hr & Hu2). by eapply Hup; [eapply IH| |].
Qed.

(** The fuel is enough when it is more than the levels that are left: any more gives the same result. *)
Lemma insert_parent_fuel fuel : forall fuel' h n pg l s m k p par lo hi B A O p2 f f2 key kk ls1 ps1 ls2 ps2,
  ready h n pg l s m k p par lo hi B A O p2 f f2 key kk ls1 ps1 ls2 ps2 -> (m - k < fuel)%nat -> (m - k < fuel')%nat ->
  insert_into_parent_fuel fuel cx f key f2 s = insert_into_parent_fuel fuel' cx f key f2 s.
Proof.
  induction fuel as [|fuel IH]; intros fuel' * Hrd Hf Hf'; [lia|]. destruct fuel' as [|fuel']; [lia|].
  destruct (turn_ok fuel fuel' _ _ _ _ _ _ _ _ _ _ _ _ _ _ _ _ _ _ _ _ _ _ _ Hrd)
    as [(s1 & r1 & -> & -> & _)|(s1 & h1 & n1 & pg1 & l1 & pp & par0 & lo0 & hi0 & B0 & A0 & O0 & q & g & g2 & key1 & kk1 & la & pa & lb & pb & Hrd1 & -> & -> & _)];
    [done|].
  unfold mbind, M_bind. rewrite (IH fuel' _ _ _ _ _ _ _ _ _ _ _ _ _ _ _ _ _ _ _ _ _ _ _ Hrd1); [done|..];
    destruct (rd_room _ _ _ _ _ _ _ _ _ _ _ _ _ _ _ _ _ _ _ _ _ _ _ Hrd1) as [Q _]; lia.
Qed.

(** *** [insert_entry] *)
Lemma pins_nonneg (pl : BufferPool.t D R) q : BufferPool.wf pl -> 0 <= BufferPool.pins pl q.
Proof.
  intros Hw. unfold BufferPool.pins. destruct (BufferPool.page_table_ pl !! q) as [f|] eqn:E; [|lia].
  destruct (BufferPool.wf_resident _ _ _ _ Hw E) as (pgf & -> & _ & Hok & _). apply (BufferPool.fo_pin _ _ _ Hok).
Qed.

Lemma leaf_insert h d x a b lo hi key v : ix_ok h -> page h d x a b -> leaf_node (layout h) x lo hi -> small (layout h) x ->
  good_key h key -> inside lo hi (krank h key) -> rid_ok v ->
  exists d', IxNode.insert h key v d = Ok (d', hd_num_key d') /\
    match contents h d !! krank h key with
    | Some _ => d' = d
    | None => exists x', page h d' x' a b /\ leaf_node (layout h) x' lo hi /\ n_par x' = n_par x /\
        length (n_keys x') = S (length (n_keys x)) /\ contents h d' = <[krank h key := v]> (contents h d)
    end.
Proof.
  intros Hh [<- <- <- [Hl Hs]] Hlf [Hsm _] Hk Hin Hv. cbn in Hsm. rewrite length_keys in Hsm. change (btree_order_ (layout h)) with (btree_order_ h) in *.
  assert (Hso : sorted h d) by (by destruct Hlf).
  assert (Hok : node_ok h d) by (by split).
  destruct (insert_contents h Hh d key Hok Hso Hk v ltac:(lia) Hv) as (d' & E & [Hl' Hs'] & Hso' & (_ & S2 & S3 & S4 & S5) & Hc & Hsame).
  exists d'. split; [exact E|]. destruct (contents h d !! krank h key) as [r|] eqn:Er; [by apply Hsame|].
  exists (node_of (layout h) d'). split; [by split|].
  assert (Hok' : node_ok h d') by (by split).
  assert (Z1 : hd_num_key d = Z.of_nat (base.size (contents h d))) by (by eapply contents_size).
  assert (Z2 : hd_num_key d' = Z.of_nat (base.size (contents h d'))) by (by eapply contents_size).
  rewrite Hc, map_size_insert_None in Z2 by done. split_and!; [|done| |done].
  - split; [cbn; rewrite S3; apply Hlf|apply Hso'..|]. apply Forall_forall. intros k' (i & Hi)%list_elem_of_lookup.
    cbn in Hi. destruct (lookup_lt_is_Some_2 (rids h d') i) as [r' Hr']; [apply lookup_lt_Some in Hi; by rewrite length_rids, <- (length_keys h d')|].
    assert (Hck : contents h d' !! krank h k' = Some r').
    { unfold contents. eapply assoc_lookup; [by rewrite length_keys, length_rids|apply sorted_NoDup, Hso'|exact Hi|exact Hr']. }
    rewrite Hc in Hck. change (krank (layout h)) with (krank h). apply lookup_insert_Some in Hck as [[<- _]|[_ Hck]]; [done|].
    assert (Hek : krank h k' ∈ krank h <$> keys h d).
    { apply elem_of_list_to_map_2 in Hck. apply elem_of_zip_l in Hck. done. }
    apply list_elem_of_fmap in Hek as (k2 & Ek & Hk2). rewrite Ek. destruct Hlf as [_ _ _ Hi2].
    exact (proj1 (Forall_forall _ _) Hi2 k2 Hk2).
  - cbn. rewrite !length_keys. unfold size. change (hd_num_key d' = Z.of_nat (S (base.size (contents h d)))) in Z2. lia.
Qed.
End owns.

(** ** The whole index *)
Section entry.
Context {D R C : Type} `{DiskLaws D} `{!Files D} `{!FileNames D} `{ReplacerLaws R} `{TxnLens C}.
Implicit Types (s : t D R C) (pg : Z -> bytes).

#[local] Abbreviation page h := (is_page (layout h)).

(** Writing to a page what is on it does nothing. *)
Lemma put_same s pg p f : at_node s pg p f -> on_pool (BufferPool.put_data f (pg p)) s = (s, Ok tt).
Proof.
  intros [_ Hh _]. destruct (BufferPool.held_frame _ _ _ _ Hh) as (q & Hf & _ & Hx & _).
  unfold on_pool, zoom, BufferPool.put_data. rewrite (bind_ok _ _ _ _ _ (BufferPool.page_at_run _ _ _ Hf)).
  unfold BufferPool.upd_page, modify. do 2 f_equal. destruct s as [fd hd [pgs tb fr dk rp] cxt]. cbn in *. unfold set_pool, BufferPool.set_pages. cbn.
  do 2 f_equal. unfold BufferPool.frame in Hf. unfold BufferPool.upd_frame. case_decide; [|done]. cbn in Hf.
  apply list_eq. intros i. destruct (decide (i = Z.to_nat f)) as [->|Hne]; [|by rewrite list_lookup_alter_ne].
  rewrite list_lookup_alter_eq, Hf. cbn. rewrite <- Hx. by destruct q.
Qed.

(** The transaction has no pages of another call. *)
Definition idle (cx : bool) (c : C) : Prop := cx = true ->
  Txn.index_latch_page_set_ (cx_txn c) = [] /\ Txn.index_deleted_page_set_ (cx_txn c) = [].

(** A leaf is held after the search. *)
Lemma owns_leaf s s1 pg p f cx : calm s s1 pg -> at_node s1 pg p f -> idle cx (ctx s) ->
  (forall q, BufferPool.pins (bpm s1) q = BufferPool.pins (bpm s) q + one (page_of s p) q) ->
  owns (fd_ s) (BufferPool.pins (bpm s)) cx (ctx s) (file_hdr_ s) (next_no s) pg [(p, f)] s1.
Proof.
  intros [C1 C2 C3 C4 C5] [A1 A2 A3] Hid Hp. exists [], (ctx s). split.
  - split; try done.
    + intros q g [= -> ->]%list_elem_of_singleton. unfold page_of in A2. rewrite C1 in A2. rewrite C4 in A1. done.
    + intros q. cbn [app]. rewrite Hp, pinned_cons. unfold pinned. cbn. unfold page_of. lia.
  - destruct cx; [|done]. destruct (Hid eq_refl) as [E _]. unfold with_latch. cbn. rewrite <- E.
    replace (Txn.set_latch_pages _ _) with (cx_txn (ctx s)) by (by destruct (cx_txn (ctx s))). by rewrite lens_set_get.
Qed.

(** *** [add_to_log] *)
Section log.
Context (fl : Z) (base : PageId -> Z).

(** A page as it was, or with another LSN. *)
Definition stamped (d d' : bytes) : Prop := d' = d \/ exists z, d' = store_32 d BufferPool.OFFSET_LSN z.
Lemma stamped_refl d : stamped d d.
Proof. by left. Qed.
Lemma stamped_page h d d' x a b : stamped d d' -> is_page h d x a b -> is_page h d' x a b.
Proof.
  intros [->|[z ->]]; [done|]. intros [<- <- <- [Hl Hs]]. unfold BufferPool.OFFSET_LSN.
  destruct (set_field h 0 z d Hl) as (E1 & E2 & E3 & E4 & E5); [unfold OFFSET_NODE; lia|lia|].
  split; [unfold node_of; rewrite E3, E4, E5; f_equal| | |split; [done|by rewrite E2]];
    unfold hd_parent, hd_prev_leaf, hd_next_leaf; apply load_store_i32_ne; unfold OFFSET_NODE; lia.
Qed.
Lemma stamped_links d d' : stamped d d' -> length d' = length d /\ hd_prev_leaf d' = hd_prev_leaf d /\ hd_next_leaf d' = hd_next_leaf d.
Proof.
  intros [->|[z ->]]; [done|]. unfold BufferPool.OFFSET_LSN. rewrite length_store_32. split; [done|].
  unfold hd_prev_leaf, hd_next_leaf. split; apply load_store_i32_ne; unfold OFFSET_NODE; lia.
Qed.

Lemma holds_stamp c h n pg l s p f z s' u : holds fl c base h n pg l s -> (p, f) ∈ l ->
  on_pool (BufferPool.upd_page f (BufferPool.set_page_lsn z)) s = (s', Ok u) ->
  (exists pg', holds fl c base h n pg' l s' /\ forall q, stamped (pg q) (pg' q)) /\
  forall g q, get_page_no g s = (s, Ok q) -> get_page_no g s' = (s', Ok q).
Proof.
  intros Hh Hin Hr. destruct (ow_held _ _ _ _ _ _ _ _ Hh p f Hin) as [_ Hd].
  destruct (BufferPool.held_frame _ _ _ _ Hd) as (pf & Hf & Hid & Hx & _ & _ & Hl). split.
  - destruct (holds_put fl c base h n pg l s Hh p f (store_32 (pg p) BufferPool.OFFSET_LSN z) s' u Hin) as (pg' & Hh' & Ep & F).
    + rewrite <- Hr. unfold on_pool, zoom, BufferPool.put_data. rewrite (bind_ok _ _ _ _ _ (BufferPool.page_at_run _ _ _ Hf)).
      unfold BufferPool.upd_page, modify. do 3 f_equal. apply (BufferPool.upd_frame_ext f _ _ pf); [exact Hf|].
      unfold BufferPool.set_page_lsn. by rewrite Hx.
    + by rewrite length_store_32.
    + exists pg'. split; [done|]. intros q. destruct (decide (q = p)) as [->|Hne]; [right; by exists z|left; by apply F].
  - intros g q Hg. unfold on_pool, zoom, BufferPool.upd_page, modify in Hr. injection Hr as <- _.
    unfold get_page_no, mbind, M_bind, on_pool, zoom, BufferPool.page_at in Hg |- *. cbn.
    set (pl := bpm s) in *. destruct (decide (g = f)) as [->|Hne].
    + rewrite (BufferPool.frame_upd_eq pl f _ pf Hf). rewrite Hf in Hg. cbn in Hg |- *. apply (f_equal snd) in Hg. by injection Hg as <-.
    + rewrite BufferPool.frame_upd_ne by done. destruct (BufferPool.frame pl g) as [pg0|]; [|done]. cbn in Hg |- *. apply (f_equal snd) in Hg. by injection Hg as <-.
Qed.

(** What a step of the log keeps. *)
Definition same_frames s s' : Prop := forall g q, get_page_no g s = (s, Ok q) -> get_page_no g s' = (s', Ok q).
Lemma same_pool s s' : bpm s' = bpm s -> same_frames s s'.
Proof.
  intros E g q. unfold get_page_no, mbind, M_bind, on_pool, zoom. rewrite E.
  destruct (BufferPool.page_at g (bpm s)) as [pl [v|e]]; [|done]. intros [= E1 <-].
  assert (pl = bpm s) as -> by (by rewrite <- E1). rewrite <- E. by destruct s'.
Qed.
(** Pages stamped once more are stamped. *)
Definition stamp_all (pg pg' : Z -> bytes) : Prop := forall q,
  (forall h x a b, is_page h (pg q) x a b -> is_page h (pg' q) x a b) /\
  length (pg' q) = length (pg q) /\ hd_prev_leaf (pg' q) = hd_prev_leaf (pg q) /\ hd_next_leaf (pg' q) = hd_next_leaf (pg q).
Lemma stamp_refl pg : stamp_all pg pg.
Proof. by split. Qed.
Lemma stamp_trans pg1 pg2 pg3 : stamp_all pg1 pg2 -> stamp_all pg2 pg3 -> stamp_all pg1 pg3.
Proof.
  intros H1' H2' q. destruct (H1' q) as (A1 & A2 & A3 & A4), (H2' q) as (B1 & B2 & B3 & B4).
  split_and!; [by eauto|congruence..].
Qed.
Lemma stamp_of pg pg' : (forall q, stamped (pg q) (pg' q)) -> stamp_all pg pg'.
Proof. intros Hs q. split; [intros h x a b; by apply stamped_page|by apply stamped_links]. Qed.

Lemma txn_run s : txn s = (s, Ok (cx_txn (ctx s))).
Proof. done. Qed.
Lemma holds_ctx c c' h n pg l s : holds fl c base h n pg l s -> holds fl c' base h n pg l (set_ctx c' s).
Proof. intros [Q1 Q2 Q3 Q4 [S1 S2 S3] Q6 Q7]. by split. Qed.

Lemma holds_txn c h n pg l s g : holds fl c base h n pg l s -> upd_txn g s = (set_ctx (cx_set_txn (g (cx_txn c)) c) s, Ok tt).
Proof. intros Hh. unfold upd_txn, modify. by rewrite (ow_ctx _ _ _ _ _ _ _ _ Hh). Qed.

Lemma drain_latch_ok done0 rec lb la : forall c h n pg s s' rec', holds fl c base h n pg (la ++ lb) s ->
  Txn.index_latch_page_set_ (cx_txn c) = la.*2 -> drain_latch (length la) rec done0 s = (s', Ok rec') ->
  exists pg', holds fl (cx_set_txn (foldr Txn.add_page_pin (Txn.set_latch_pages [] (cx_txn c)) ((fun p => mkPageId fl p) <$> la.*1)) c)
      base h n pg' (la ++ lb) s' /\ stamp_all pg pg' /\ same_frames s s'.
Proof.
  revert done0 rec lb. induction la as [|[p f] la IH] using rev_ind; intros done0 rec lb c h n pg s s' rec' Hh Hl Hr.
  - cbn [length drain_latch] in Hr. injection Hr as <- _. exists pg. split; [|split; [apply stamp_refl|by intros ???]]. cbn.
    replace (Txn.set_latch_pages [] (cx_txn c)) with (cx_txn c) by (destruct (cx_txn c); cbn in *; by subst). by rewrite lens_set_get.
  - rewrite length_app, Nat.add_1_r in Hr. cbn [drain_latch] in Hr. rewrite (bind_ok _ _ _ _ _ (txn_run s)), (ow_ctx _ _ _ _ _ _ _ _ Hh) in Hr.
    rewrite Hl, fmap_app in Hr. cbn [fmap list_fmap] in Hr. rewrite last_snoc, removelast_last in Hr. cbn [snd] in Hr.
    set (x := cx_txn c) in *.
    rewrite (bind_ok _ _ _ _ _ (holds_txn _ _ _ _ _ _ _ Hh)) in Hr.
    pose proof (holds_ctx c (cx_set_txn (Txn.set_latch_pages la.*2 x) c) _ _ _ _ _ Hh) as Hh1. set (s1 := set_ctx _ s) in *.
    assert (Hin : (p, f) ∈ (la ++ [(p, f)]) ++ lb) by (rewrite !elem_of_app; left; right; by left).
    assert (Hid : get_page_id f s1 = (s1, Ok (mkPageId fl p))).
    { destruct (ow_held _ _ _ _ _ _ _ _ Hh1 p f Hin) as [_ Hd]. destruct (BufferPool.held_page_at _ _ _ _ Hd) as (q & Hq & Hqid & _).
      unfold get_page_id, mbind, M_bind, on_pool, zoom. rewrite Hq. cbn. by rewrite Hqid. }
    rewrite (bind_ok _ _ _ _ _ Hid) in Hr. clear Hid. unfold upd_txn in Hr at 1.
    set (c2 := cx_set_txn (Txn.add_page_pin (mkPageId fl p) (Txn.set_latch_pages la.*2 x)) c).
    rewrite (bind_ok _ _ s1 (set_ctx c2 s) tt) in Hr by (unfold modify, s1, c2; cbn; by rewrite lens_get_set, lens_set_set).
    pose proof (holds_ctx c c2 _ _ _ _ _ Hh) as Hh2. set (s2 := set_ctx c2 s) in *.
    rewrite <- app_assoc in Hh2. cbn [app] in Hh2.
    assert (Hl2 : Txn.index_latch_page_set_ (cx_txn c2) = la.*2) by (unfold c2; by rewrite lens_get_set).
    assert (Ec : cx_set_txn (foldr Txn.add_page_pin (Txn.set_latch_pages [] (cx_txn c2)) ((fun p => mkPageId fl p) <$> la.*1)) c2 =
      cx_set_txn (foldr Txn.add_page_pin (Txn.set_latch_pages [] x) ((fun p => mkPageId fl p) <$> (la ++ [(p, f)]).*1)) c).
    { unfold c2. rewrite lens_get_set, lens_set_set, !fmap_app, foldr_app. reflexivity. }
    assert (Hfr : same_frames s s2) by (by apply same_pool).
    rewrite <- app_assoc. cbn [app]. rewrite <- Ec. case_bool_decide.
    + destruct (IH _ _ _ _ _ _ _ _ _ _ Hh2 Hl2 Hr) as (pg' & Hh' & Hst & Hf'). exists pg'. split_and!; [exact Hh'|exact Hst|].
      intros g q Hg. by apply Hf', Hfr.
    + apply bind_inv in Hr as (s3 & [] & Hup & Hr).
      destruct (holds_stamp _ _ _ _ _ _ p f _ _ _ Hh2 ltac:(apply elem_of_app; right; by left) Hup) as ((pg1 & Hh3 & Hst1) & Hf3).
      rewrite (bind_ok _ _ _ _ _ (holds_data _ _ _ _ _ _ _ _ Hh3 p f ltac:(apply elem_of_app; right; by left))) in Hr.
      destruct (IH _ _ _ _ _ _ _ _ _ _ Hh3 Hl2 Hr) as (pg' & Hh' & Hst & Hf'). exists pg'. split_and!; [exact Hh'| |].
      * eapply stamp_trans; [by apply stamp_of|exact Hst].
      * intros g q Hg. by apply Hf', Hf3, Hfr.
Qed.

Lemma drain_done s s' rec rec' done0 n : Txn.index_latch_page_set_ (cx_txn (ctx s)) = [] ->
  drain_latch n rec done0 s = (s', Ok rec') -> s' = s.
Proof. intros E. destruct n as [|n]; cbn [drain_latch]; [by intros [= <- _]|]. rewrite (bind_ok _ _ _ _ _ (txn_run s)), E. by intros [= <- _]. Qed.

(** What the log takes of a transaction: the pages that are still pinned, counted, and one record. *)
Definition paid (cx : bool) (pages : list PageId) (c c' : C) : Prop :=
  pages = [] /\ c' = c \/
  cx = true /\ exists rec, c' = cx_set_txn (Txn.add_index_log rec (foldr Txn.add_page_pin (cx_txn c) pages)) c.

Lemma name_keeps f s s' v : on_pool (BufferPool.disk_op (fl_get_file_name f)) s = (s', Ok v) -> s' = s.
Proof.
  pose proof (fl_name_keeps f (BufferPool.disk_manager_ (bpm s))) as E.
  unfold on_pool, BufferPool.disk_op, zoom. destruct (fl_get_file_name f _) as [d [n|e]] eqn:Ed; [|discriminate].
  cbn in E. subst d. intros [= <- _]. by destruct s as [? ? [] ?].
Qed.
Lemma holds_lsn c h n pg l s z : holds fl c base h n pg l s -> upd_hdr (set_ix_lsn z) s = (set_hdr (set_ix_lsn z h) s, Ok tt) /\
  holds fl c base (set_ix_lsn z h) n pg l (set_hdr (set_ix_lsn z h) s).
Proof.
  intros Hh. assert (E : upd_hdr (set_ix_lsn z) s = (set_hdr (set_ix_lsn z h) s, Ok tt)) by (unfold upd_hdr, modify; by rewrite (ow_hdr _ _ _ _ _ _ _ _ Hh)).
  split; [done|]. by eapply holds_upd_hdr.
Qed.

Lemma add_log_ok cx c0 h n pg s s' u : owns fl base cx c0 h n pg [] s -> idle cx c0 -> add_to_log cx s = (s', Ok u) ->
  exists la c' h' pg', holds fl c' base h' n pg' la s' /\ (h' = h \/ exists z, h' = set_ix_lsn z h) /\
    stamp_all pg pg' /\ same_frames s s' /\ paid cx (mkPageId fl <$> la.*1) c0 c'.
Proof.
  intros (la & c & Hh & Hc) Hid Hr. cbn [app] in Hh. unfold add_to_log in Hr. destruct cx.
  2: { injection Hr as <- _. destruct Hc as [-> ->]. exists [], c0, h, pg. split_and!; [done|by left|apply stamp_refl|by intros ???|by left]. }
  destruct (Hid eq_refl) as [I1 I2]. rewrite (bind_ok _ _ _ _ _ (txn_run s)), (ow_ctx _ _ _ _ _ _ _ _ Hh) in Hr.
  assert (Ex : cx_txn c = Txn.set_latch_pages la.*2 (cx_txn c0)) by (rewrite Hc; apply lens_get_set).
  rewrite Ex in Hr. cbn [Txn.index_deleted_page_set_ Txn.index_latch_page_set_ Txn.set_latch_pages] in Hr.
  rewrite I2 in Hr. cbn [length Nat.add drain_deleted] in Hr. rewrite length_fmap in Hr.
  destruct la as [|pf la0] eqn:Ela; cbn [length Nat.eqb] in Hr.
  { injection Hr as <- _. exists [], c0, h, pg. assert (c = c0) as ->.
    { rewrite Hc. unfold with_latch. cbn [fmap list_fmap]. rewrite <- I1. replace (Txn.set_latch_pages _ _) with (cx_txn c0) by (by destruct (cx_txn c0)). apply lens_set_get. }
    split_and!; [done|by left|apply stamp_refl|by intros ???|by left]. }
  rewrite <- Ela in *. replace (S (length la0)) with (length la) in Hr by (by rewrite Ela). clear Ela pf la0.
  rewrite (bind_ok _ _ s s fl) in Hr by (unfold gets; by rewrite (ow_fd _ _ _ _ _ _ _ _ Hh)).
  apply bind_inv in Hr as (s1 & nm & Hnm & Hr). apply name_keeps in Hnm as ->.
  apply bind_inv in Hr as (s1 & rec & Hd & Hr).
  destruct (drain_latch_ok _ _ [] la _ _ _ _ _ _ _ (eq_ind_r (fun l => holds fl c base h n pg l s) Hh (app_nil_r la)) ltac:(by rewrite Ex) Hd)
    as (pg' & Hh1 & Hst & Hsf). rewrite app_nil_r in Hh1. rewrite (bind_ok _ _ s1 s1 tt) in Hr by done.
  destruct (holds_lsn _ _ _ _ _ _ (Txn.prev_lsn_ (cx_txn c0)) Hh1) as [Eu Hh2]. rewrite (bind_ok _ _ _ _ _ Eu) in Hr. clear Eu.
  rewrite (bind_ok _ _ _ _ _ (holds_hdr_of _ _ _ _ _ _ _ _ Hh2)) in Hr.
  set (h' := set_ix_lsn _ h) in *. destruct (hdr_serialize h' _) as [hdr [v|e]]; [|discriminate].
  set (c1 := cx_set_txn _ _) in *.
  assert (Ec : c1 = cx_set_txn (foldr Txn.add_page_pin (cx_txn c0) (mkPageId fl <$> la.*1)) c0).
  { unfold c1. rewrite Ex, Hc. unfold with_latch. rewrite lens_set_set. do 2 f_equal. rewrite <- I1. by destruct (cx_txn c0). }
  set (rec' := add_file_hdr hdr _ rec) in *.
  exists la, (cx_set_txn (Txn.add_index_log rec' (cx_txn c1)) c1), h', pg'.
  rewrite (bind_ok _ _ (set_hdr h' s1) (set_hdr h' s1) v) in Hr by done.
  rewrite (holds_txn _ _ _ _ _ _ _ Hh2) in Hr. injection Hr as <- _.
  split_and!; [by apply (holds_ctx c1)|right; by eexists|exact Hst|intros g q Hg; by apply (same_pool s1), Hsf|].
  right. split; [done|]. exists rec'. rewrite Ec, lens_get_set. by rewrite lens_set_set.
Qed.
End log.

(** *** The tree at the end *)

(** An index by its header and its pages. *)
Record built (h : IxFileHdr) (pg : Z -> bytes) (n : Z) (ht : nat) (ls ps : list Z) : Prop := {
  bt_hdr : ix_ok h;
  bt_tree : tree (layout h) (nodes h pg) ht (root_page_ h) INVALID_PAGE_ID None None ls ps;
  bt_nodup : NoDup ps;
  bt_pages q : q ∈ ps -> IX_LEAF_HEADER_PAGE < q < n /\ node_ok (layout h) (pg q);
  bt_links : links pg IX_LEAF_HEADER_PAGE ls IX_LEAF_HEADER_PAGE;
  bt_lead : IX_LEAF_HEADER_PAGE < n /\ length (pg IX_LEAF_HEADER_PAGE) = page_size;
  bt_ends : head ls = Some (first_leaf_ h) /\ last ls = Some (last_leaf_ h);
}.
Lemma built_index fl c base h n pg l s ht ls ps : holds fl c base h n pg l s -> built h pg n ht ls ps ->
  index s pg ht (map_of (layout h) (nodes h pg) ls).
Proof.
  intros [Q1 Q2 Q3 Q4 Q5 Q6 Q7] [B1 B2 B3 B4 B5 B6 B7]. exists ls, ps. rewrite Q2. split; [|done].
  split; rewrite ?Q2; try done; [|by rewrite Q4].
  intros q Hq. rewrite Q4. destruct (B4 q Hq) as [? []]. by split.
Qed.
Lemma built_stamp h pg pg' n ht ls ps : built h pg n ht ls ps -> stamp_all pg pg' ->
  built h pg' n ht ls ps /\ map_of (layout h) (nodes h pg') ls = map_of (layout h) (nodes h pg) ls.
Proof.
  intros [B1 B2 B3 B4 B5 [B6 B6'] B7] Hst.
  assert (E : forall q, q ∈ ps -> is_page (layout h) (pg' q) (nodes h pg q) (hd_prev_leaf (pg q)) (hd_next_leaf (pg q))).
  { intros q Hq. apply (Hst q). apply is_page_of, B4, Hq. }
  assert (Hn : forall q, q ∈ ps -> nodes h pg' q = nodes h pg q) by (intros q Hq; apply (ip_node _ _ _ _ _ (E q Hq))).
  split; [split|]; try done.
  - by eapply tree_frame.
  - intros q Hq. split; [by apply B4|]. apply (ip_ok _ _ _ _ _ (E q Hq)).
  - eapply links_ext; [| |exact B5]; intros q _; apply (Hst q).
  - split; [done|]. destruct (Hst IX_LEAF_HEADER_PAGE) as (_ & -> & _). done.
  - unfold map_of. f_equal. apply ents_frame. intros q Hq. apply Hn. by eapply tree_leaves.
Qed.
Lemma built_lsn h h' pg n ht ls ps : h' = h \/ (exists z, h' = set_ix_lsn z h) -> built h pg n ht ls ps -> built h' pg n ht ls ps.
Proof. intros [->|[z ->]] Hb; [done|]. destruct Hb as [[] B2 B3 B4 B5 B6 B7]. by split. Qed.

(** The map of the leaves after a key was added to one. *)
Lemma entry_map h pg pg1 B p A key v : (forall q, q <> p -> pg1 q = pg q) -> p ∉ B ++ A ->
  krank h key ∉ (ents (layout h) (nodes h pg) B).*1 -> krank h key ∉ (ents (layout h) (nodes h pg) A).*1 ->
  contents h (pg1 p) = <[krank h key := v]> (contents h (pg p)) ->
  map_of (layout h) (nodes h pg1) (B ++ [p] ++ A) = <[krank h key := v]> (map_of (layout h) (nodes h pg) (B ++ [p] ++ A)).
Proof.
  intros F Hp HB HA Hc. apply map_of_insert; [done|done| |].
  - intros q Hq. unfold nodes. rewrite F; [done|]. by intros ->.
  - etrans; [exact (leaf_contents (layout h) pg1 p)|]. rewrite (leaf_contents (layout h) pg p : map_of (layout h) (nodes h pg) [p] = _). exact Hc.
Qed.

Lemma last_of {A} (l : list A) x y r : last (l ++ x :: y :: r) = last (l ++ y :: r).
Proof. rewrite !last_app. cbn. by destruct r. Qed.
Lemma head_of {A} (l : list A) x r r' : head (l ++ x :: r) = head (l ++ x :: r').
Proof. by destruct l. Qed.

(** The leaf has room. *)
Lemma entry_fits h n pg pg1 ht B p A O par lo hi x a b key v : ix_ok h ->
  hole (layout h) (nodes h pg) ht (root_page_ h) 0 p par lo hi B A O ->
  page h (pg p) (nodes h pg p) a b -> page h (pg1 p) x a b -> (forall q, q <> p -> pg1 q = pg q) ->
  leaf_node (layout h) x lo hi -> n_par x = par -> small (layout h) x -> inside lo hi (krank h key) ->
  contents h (pg1 p) = <[krank h key := v]> (contents h (pg p)) ->
  NoDup (p :: O) -> (forall q, q ∈ p :: O -> IX_LEAF_HEADER_PAGE < q < n /\ node_ok (layout h) (pg q)) ->
  links pg IX_LEAF_HEADER_PAGE (B ++ [p] ++ A) IX_LEAF_HEADER_PAGE -> IX_LEAF_HEADER_PAGE < n ->
  length (pg IX_LEAF_HEADER_PAGE) = page_size ->
  head (B ++ [p] ++ A) = Some (first_leaf_ h) -> last (B ++ [p] ++ A) = Some (last_leaf_ h) ->
  (exists ps, built h pg1 n ht (B ++ [p] ++ A) ps) /\
  map_of (layout h) (nodes h pg1) (B ++ [p] ++ A) = <[krank h key := v]> (map_of (layout h) (nodes h pg) (B ++ [p] ++ A)).
Proof.
  intros Hh Hhole Hx Hx1 F Hlf Hpar Hsm Hin Hc Hnd Hps Hli Hn Hlead Hfi Hla.
  apply NoDup_cons in Hnd as [HpO HO].
  assert (HpBA : p ∉ B ++ A).
  { intros Hp. apply HpO. eapply hole_leaves; [exact Hhole|]. by apply elem_of_app in Hp as [?|?]; [left|right]. }
  destruct (hole_outside _ _ _ _ _ _ _ _ _ _ _ _ _ Hhole Hin) as [O1 O2].
  destruct (plug (layout h) (nodes h pg1) ht (root_page_ h) 0 p par lo hi B A O [p] [p]) as (ps' & Ht & Hp').
  { eapply hole_frame; [|exact Hhole]. intros q Hq. unfold nodes. rewrite F; [done|]. by intros ->. }
  { cbn [tree]. unfold nodes. rewrite (ip_node _ _ _ _ _ Hx1). by split_and!. }
  split; [|by apply (entry_map h pg pg1)]. exists ps'. split; try done.
  - rewrite Hp'. cbn. by apply NoDup_cons.
  - intros q Hq. rewrite Hp' in Hq. cbn in Hq. destruct (Hps q Hq) as [R1 R2]. split; [done|].
    destruct (decide (q = p)) as [->|Hne]; [apply Hx1|by rewrite F].
  - eapply links_ext; [| |exact Hli].
    + intros q _. destruct (decide (q = p)) as [->|Hne]; [|by rewrite F]. by destruct Hx as [_ _ <- _], Hx1 as [_ _ <- _].
    + intros q _. destruct (decide (q = p)) as [->|Hne]; [|by rewrite F]. by destruct Hx as [_ <- _ _], Hx1 as [_ <- _ _].
  - rewrite F; [done|]. intros E. destruct (Hps p ltac:(by left)) as [Hr _]. rewrite <- E in Hr. lia.
Qed.
(** The leaf is full: it is split, and the new leaf is put into its parent. *)
Lemma entry_splits fl c base cx h n pg s s1 s2 ht B p A O par lo hi x a b f u1 u2 : (forall q, 0 <= base q) -> ix_ok h ->
  owns fl base cx c h n pg [(p, f)] s -> hole (layout h) (nodes h pg) ht (root_page_ h) 0 p par lo hi B A O ->
  page h (pg p) x a b -> leaf_node (layout h) x lo hi -> n_par x = par -> Z.of_nat (length (n_keys x)) = btree_order_ h ->
  NoDup (p :: O) -> NoDup (B ++ [p] ++ A) -> (forall q, q ∈ p :: O -> IX_LEAF_HEADER_PAGE < q < n /\ node_ok (layout h) (pg q)) ->
  links pg IX_LEAF_HEADER_PAGE (B ++ [p] ++ A) IX_LEAF_HEADER_PAGE -> n + Z.of_nat ht + 2 <= 2 ^ 31 - 1 ->
  length (pg IX_LEAF_HEADER_PAGE) = page_size ->
  head (B ++ [p] ++ A) = Some (first_leaf_ h) -> last (B ++ [p] ++ A) = Some (last_leaf_ h) ->
  (new_node ← split cx f;
   leaf_no ← get_page_no f;
   new_no ← get_page_no new_node;
   h ← gets file_hdr_;
   whenM (leaf_no =? last_leaf_ h) (upd_hdr (set_last_leaf new_no));;
   first ← ask new_node (fun h d => Ok (IxNode.get_key h 0 d));
   insert_into_parent cx f first new_node;;
   handle_dirty_page cx new_node) s = (s1, Ok u1) ->
  handle_dirty_page cx f s1 = (s2, Ok u2) ->
  exists h' n' pg' ht', owns fl base cx c h' n' pg' [] s2 /\ get_page_no f s2 = (s2, Ok p) /\ layout h' = layout h /\
    (ht' = ht \/ ht' = S ht) /\ exists ls ps, built h' pg' n' ht' ls ps /\
      map_of (layout h) (nodes h pg') ls = map_of (layout h) (nodes h pg) (B ++ [p] ++ A).
Proof.
  intros Hbase Hh Ho Hhole Hx Hlf Hpar Hlen Hnd Hndl Hps Hli Hroom Hlead Hfi Hla Hr Hr2.
  pose proof (layout_ok _ Hh) as HL. apply NoDup_cons in Hnd as [HpO HO].
  destruct (Hps p ltac:(by left)) as [Hpn _]. unfold IX_LEAF_HEADER_PAGE in Hpn.
  assert (HBA : forall q, q ∈ B ++ A -> q ∈ O).
  { intros q Hq. eapply hole_leaves; [exact Hhole|]. by apply elem_of_app in Hq as [?|?]; [left|right]. }
  pose proof Hx as [_ _ Eb _].
  (* the leaf after this one *)
  assert (Hb : b ∈ A \/ b = IX_LEAF_HEADER_PAGE).
  { apply links_app in Hli as [_ Hli]. destruct A as [|b' A]; destruct Hli as [E _]; rewrite Eb in E; subst b; [by right|left; by left]. }
  assert (Hbn : 0 <= b < n /\ b <> p /\ length (pg b) = page_size).
  { destruct Hb as [Hb| ->]; [|unfold IX_LEAF_HEADER_PAGE in *; split; [lia|]; split; [lia|done]].
    assert (HbO : b ∈ O) by (apply HBA, elem_of_app; by right). destruct (Hps b ltac:(by right)) as [Hr1 [Hr2' _]]. unfold IX_LEAF_HEADER_PAGE in Hr1.
    split; [lia|]. split; [by intros ->|done]. }
  destruct Hbn as (Hbn & Hbp & Hbl).
  apply bind_inv in Hr as (s3 & f2 & Hsp & Hr).
  destruct (split_leaf fl base Hbase cx c h n pg _ s s3 p f x a b f2 Ho HL (list_elem_of_here _ _) ltac:(lia) Hx (ln_leaf _ _ _ _ Hlf) Hbp Hbn Hbl Hsp)
    as (pg2 & Ho2 & Hx2 & Hy2 & Eb2 & F2). set (i := Nat.div2 (length (n_keys x))) in *. set (h1 := set_num_pages (i32 (num_pages_ h + 1)) h) in *.
  rewrite (bind_ok _ _ _ _ _ (owns_page_no _ _ _ _ _ _ _ _ _ Ho2 p f ltac:(right; by left))),
    (bind_ok _ _ _ _ _ (owns_page_no _ _ _ _ _ _ _ _ _ Ho2 n f2 (list_elem_of_here _ _))), (bind_ok _ _ _ _ _ (owns_hdr_of _ _ _ _ _ _ _ _ _ Ho2)) in Hr.
  apply bind_inv in Hr as (s4 & [] & Hw & Hr).
  set (h2 := if p =? last_leaf_ h then set_last_leaf n h1 else h1).
  assert (Ho3 : owns fl base cx c h2 (n + 1) pg2 [(n, f2); (p, f)] s4).
  { unfold h2. change (last_leaf_ h1) with (last_leaf_ h) in Hw. destruct (p =? last_leaf_ h); unfold whenM in Hw.
    - exact (owns_upd_hdr _ _ _ _ _ _ _ _ _ Ho2 _ _ _ Hw).
    - unfold mret, M_ret in Hw. by injection Hw as <-. }
  assert (EL : layout h2 = layout h) by (unfold h2; by destruct (p =? last_leaf_ h)).
  assert (Ek : forall d, IxNode.get_key h2 0 d = IxNode.get_key h 0 d) by (intros d; unfold h2; by destruct (p =? last_leaf_ h)).
  rewrite (bind_ok _ _ _ _ _ (owns_ask _ _ _ _ _ _ _ _ _ Ho3 n f2 _ _ (list_elem_of_here _ _) (f_equal Ok (Ek (pg2 n))))) in Hr.
  apply bind_inv in Hr as (s5 & [] & Hip & Hr). unfold insert_into_parent in Hip. apply bind_inv in Hip as (s6 & fuel & Hfu & Hip).
  assert (s6 = s4) as -> by (unfold pages_fuel in Hfu; rewrite (bind_ok _ _ s4 s4 (file_hdr_ s4)) in Hfu by done; by injection Hfu as <- _).
  (* the halves *)
  pose proof (xo_order _ Hh) as Hord. destruct (page_num _ _ _ _ _ Hx) as (_ & Lr & _).
  assert (Hi : (0 < i < length (n_keys x))%nat) by (unfold i; rewrite Nat.div2_div; split; [apply Nat.div_str_pos; lia|apply Nat.div_lt; lia]).
  destruct (lookup_lt_is_Some_2 (n_keys x) i ltac:(lia)) as [kk Hkk].
  assert (Ex : nodes h pg p = x) by apply (ip_node _ _ _ _ _ Hx).
  destruct (leaf_split (layout h) (nodes h pg) (nodes h pg2) p n lo hi i kk) as (L1 & L2 & Hg & Pr1 & Pr2 & Een);
    [by rewrite Ex|by rewrite Ex|lia|by rewrite Ex|rewrite Ex; apply (ip_node _ _ _ _ _ Hx2)|rewrite Ex; apply (ip_node _ _ _ _ _ Hy2)|].
  assert (HnO : n ∉ O) by (intros Hc; destruct (Hps n ltac:(by right)); lia).
  assert (HOk : forall q, q ∈ O -> nodes h pg2 q = nodes h pg q /\ node_ok (layout h) (pg2 q)).
  { intros q Hq. destruct (Hps q ltac:(by right)) as [Hqn Hqok].
    assert (Hqp : q <> p) by (intros ->; done). assert (Hqn' : q <> n) by (intros ->; done).
    destruct (decide (q = b)) as [->|Hqb]; [|unfold nodes; rewrite F2 by done; by split].
    unfold nodes. rewrite Eb2. destruct (page_set_prev _ _ _ _ _ n (is_page_of _ _ Hqok)) as [Z1 _ _ Z4]; [unfold in_i32; lia|by split]. }
  assert (Hrd : ready fl base cx c h2 (n + 1) pg2 [(n, f2); (p, f)] s4 ht 0 p par lo hi B A O n f f2 (IxNode.get_key h 0 (pg2 n)) kk [p] [p] [n] [n]).
  { split; rewrite ?EL; try done.
    - right. by left.
    - by left.
    - unfold nodes. rewrite EL. assert (root_page_ h2 = root_page_ h) as -> by (unfold h2; by destruct (p =? last_leaf_ h)).
      eapply hole_frame; [|exact Hhole]. intros q Hq. by apply (HOk q Hq).
    - unfold nodes. rewrite EL. cbn [tree]. rewrite (ip_node _ _ _ _ _ Hx2). cbn [cut n_par n_keys n_rids].
      split; [done|]. split; [split; cbn; rewrite !length_take; change (btree_order_ (layout h)) with (btree_order_ h); lia|]. split; [|done].
      rewrite <- (ip_node _ _ _ _ _ Hx2). exact L1.
    - unfold nodes. rewrite EL. cbn [tree]. rewrite (ip_node _ _ _ _ _ Hy2). cbn [cut_off n_par n_keys n_rids].
      split; [done|]. split; [split; cbn; rewrite !length_drop; change (btree_order_ (layout h)) with (btree_order_ h); lia|]. split; [|done].
      rewrite <- (ip_node _ _ _ _ _ Hy2). exact L2.
    - assert (klen h2 = klen h) as -> by (unfold h2; by destruct (p =? last_leaf_ h)).
      assert (Ed : n_keys (cut_off i x) = kk :: drop (S i) (n_keys x)) by (cbn; by apply drop_S).
      split; [exact (first_key h _ _ _ _ _ _ HL Hy2 Ed)|exact (key_memory h _ _ _ _ HL Hy2)].
    - cbn. apply NoDup_cons. rewrite elem_of_cons. split; [intros [->|?]; [lia|done]|]. by apply NoDup_cons.
    - intros q Hq. cbn in Hq. apply elem_of_cons in Hq as [->|[->|Hq]%elem_of_cons].
      + split; [unfold IX_LEAF_HEADER_PAGE; lia|apply Hx2].
      + split; [unfold IX_LEAF_HEADER_PAGE; lia|apply Hy2].
      + destruct (Hps q ltac:(by right)). split; [lia|by apply HOk].
    - unfold IX_LEAF_HEADER_PAGE. lia. }
  destruct (insert_parent_ok fl base Hbase cx c _ _ _ _ _ _ _ _ _ _ _ _ _ _ _ _ _ _ _ _ _ _ _ _ _ _ Hrd Hip)
    as (h' & n' & pg' & ht' & ps' & Ho' & G1 & G2 & G3 & G4 & G5 & G6 & G7 & G8 & G9 & G10).
  assert (EN : nodes h2 pg' = nodes h pg') by (unfold nodes; by rewrite EL).
  rewrite EL in G1, G4, G8, G9. rewrite EN in G4. cbn [app] in G4, G9, G10.
  destruct (owns_dirty _ _ Hbase _ _ _ _ _ _ _ Ho' n f2 [(p, f)] s1 u1 ltac:(done) Hr) as [Ho4 _].
  destruct (owns_dirty _ _ Hbase _ _ _ _ _ _ _ Ho4 p f [] s2 u2 ltac:(done) Hr2) as [Ho5 Hpno].
  exists h', n', pg', ht'. split_and!; try done.
  assert (HnB : n ∉ B ++ [p] ++ A).
  { rewrite !elem_of_app. intros [Hc|[->%list_elem_of_singleton|Hc]]; [|lia|]; apply HnO, HBA, elem_of_app; tauto. }
  assert (Hl1 : IX_LEAF_HEADER_PAGE ∉ B ++ [p] ++ A).
  { rewrite !elem_of_app. unfold IX_LEAF_HEADER_PAGE. intros Hc.
    assert (Hc' : 1 ∈ p :: O) by (destruct Hc as [Hc|[->%list_elem_of_singleton|Hc]]; [right|by left|right]; apply HBA, elem_of_app; tauto).
    destruct (Hps 1 Hc') as [Hc1 _]. unfold IX_LEAF_HEADER_PAGE in Hc1. lia. }
  assert (Elead : pg' IX_LEAF_HEADER_PAGE = pg2 IX_LEAF_HEADER_PAGE).
  { apply G10; [unfold IX_LEAF_HEADER_PAGE; lia|]. rewrite !elem_of_cons. intros [E|[E|Hc]]; [unfold IX_LEAF_HEADER_PAGE in E; lia..|].
    destruct (Hps _ ltac:(by right)) as [Hc1 _]. unfold IX_LEAF_HEADER_PAGE in Hc1 at 2; unfold IX_LEAF_HEADER_PAGE in Hc1; lia. }
  assert (Emap : map_of (layout h) (nodes h pg) (B ++ [p] ++ A) = map_of (layout h) (nodes h pg') (B ++ p :: n :: A)).
  { unfold map_of. f_equal. change (B ++ p :: n :: A) with (B ++ [p; n] ++ A) in *.
    rewrite (ents_same (layout h) (nodes h pg2) (nodes h pg')).
    2: { intros q Hq. pose proof (lk_node _ _ _ (G9 q Hq)) as E. unfold nodes. apply (f_equal (fun y => (n_keys y, n_rids y))) in E. cbn in E. cbn. by injection E. }
    rewrite !ents_app, Een. f_equal; [|f_equal]; symmetry; apply ents_frame; intros q Hq; apply HOk, HBA, elem_of_app; tauto. }
  rewrite Emap. exists (B ++ p :: n :: A), ps'. split; [|done].
  assert (EN' : nodes h' pg' = nodes h pg') by (unfold nodes; by rewrite G1).
  assert (Hh' : ix_ok h') by (pose proof (layout_ok _ Hh) as HL'; rewrite <- G1 in HL'; by destruct HL').
  split; rewrite ?EN', ?G1; try done.
  - eapply (links_ext pg2).
    + intros q [->|Hq]%elem_of_cons; [by rewrite Elead|by apply lk_next with (layout h), G9].
    + intros q [Hq| ->%list_elem_of_singleton]%elem_of_app; [by apply lk_prev with (layout h), G9|by rewrite Elead].
    + assert (Fn : forall z d, hd_next_leaf (set_prev_leaf z d) = hd_next_leaf d).
      { intros z d. unfold hd_next_leaf, set_prev_leaf. apply load_store_i32_ne. unfold OFFSET_NODE. lia. }
      eapply (links_add pg pg2 _ B p A _ n b); try done.
      * unfold IX_LEAF_HEADER_PAGE. lia.
      * rewrite elem_of_cons. intros [E|Hc]; [unfold IX_LEAF_HEADER_PAGE in E; lia|done].
      * unfold IX_LEAF_HEADER_PAGE. lia.
      * apply Hx2.
      * apply Hy2.
      * apply Hy2.
      * rewrite Eb2. pose proof page_size_Z as Hpz. unfold PAGE_SIZE in Hpz. apply load_store_i32; [unfold OFFSET_NODE; lia|unfold in_i32; lia].
      * intros q Q1 Q2. destruct (decide (q = b)) as [->|Q3]; [by rewrite Eb2, Fn|by rewrite F2].
      * intros q Q1 Q2. destruct (decide (q = p)) as [->|Q3]; [by destruct Hx as [_ <- _ _], Hx2 as [_ <- _ _]|by rewrite F2].
  - split; [unfold IX_LEAF_HEADER_PAGE; lia|]. rewrite Elead. destruct (decide (b = IX_LEAF_HEADER_PAGE)) as [E|E].
    + rewrite <- E, Eb2. unfold set_prev_leaf. by rewrite length_store_32.
    + rewrite F2; [done|unfold IX_LEAF_HEADER_PAGE; lia..|done].
  - split.
    { rewrite G2. assert (first_leaf_ h2 = first_leaf_ h) as -> by (unfold h2; by destruct (p =? last_leaf_ h)).
      rewrite <- Hfi. apply head_of. }
    rewrite G3. unfold h2. destruct A as [|a0 A] using rev_ind; cbn [app] in *.
    + rewrite last_app in Hla. cbn in Hla. injection Hla as <-. rewrite Z.eqb_refl, last_app. done.
    + clear IHA. change (B ++ p :: A ++ [a0]) with (B ++ [p] ++ A ++ [a0]) in *. change (B ++ p :: n :: A ++ [a0]) with (B ++ [p; n] ++ A ++ [a0]).
      rewrite !app_assoc, last_snoc in Hla. rewrite !app_assoc, last_snoc. injection Hla as Hla. rewrite (proj2 (Z.eqb_neq _ _)); [by rewrite Hla|].
      rewrite <- Hla. intros ->. apply HpO, HBA. rewrite !elem_of_app, list_elem_of_singleton. tauto.
Qed.
(** *** [insert_entry] *)

(** How often a page is in a list. *)
Definition times (q : PageId) (l : list PageId) : Z := Z.of_nat (length (filter (fun x => x = q) l)).
Lemma pinned_times fl (la : list (Z * Z)) q : pinned fl la q = times q (mkPageId fl <$> la.*1).
Proof.
  unfold pinned, times. f_equal. induction la as [|[p f] la IH]; [done|]. cbn [fmap list_fmap fst]. rewrite !filter_cons. cbn [fst].
  case_decide; cbn [length]; by rewrite IH.
Qed.

(** The end of an insertion: the tree is built and the leaf is the last page in use. *)
Lemma log_tail fl base cx c0 h n pg f p ht ls ps s s' r : owns fl base cx c0 h n pg [] s -> idle cx c0 -> built h pg n ht ls ps ->
  get_page_no f s = (s, Ok p) -> (add_to_log cx;; get_page_no f) s = (s', Ok r) ->
  r = p /\ exists pg' pages, index s' pg' ht (map_of (layout h) (nodes h pg) ls) /\ fd_ s' = fl /\
    layout (file_hdr_ s') = layout h /\ paid cx pages c0 (ctx s') /\ forall q, BufferPool.pins (bpm s') q = base q + times q pages.
Proof.
  intros Ho Hid Hb Hp Hr. apply bind_inv in Hr as (s1 & [] & Hlog & Hr).
  destruct (add_log_ok _ _ _ _ _ _ _ _ _ _ Ho Hid Hlog) as (la & c' & h' & pg' & Hh & Hh' & Hst & Hf & Hpaid).
  rewrite (Hf _ _ Hp) in Hr. injection Hr as <- <-. split; [done|].
  destruct (built_stamp _ _ _ _ _ _ _ Hb Hst) as [Hb1 <-].
  assert (EL : layout h' = layout h) by (by destruct Hh' as [->|[z ->]]).
  pose proof (built_index _ _ _ _ _ _ _ _ _ _ _ Hh (built_lsn _ _ _ _ _ _ _ Hh' Hb1)) as Hi.
  destruct Hh as [Q1 Q2 Q3 Q4 Q5 Q6 Q7]. exists pg', (mkPageId fl <$> la.*1). subst fl.
  split_and!; [|done|by rewrite Q2|by rewrite Q3|intros q; by rewrite Q7, pinned_times].
  unfold nodes in Hi. by rewrite EL in Hi.
Qed.

Lemma insert_entry_ok s s' pg n m key value r cx :
  index s pg n m -> good_key (file_hdr_ s) key -> rid_ok value -> next_no s + Z.of_nat n + 2 <= 2 ^ 31 - 1 ->
  idle cx (ctx s) -> insert_entry key value cx s = (s', Ok r) ->
  exists pg' n' pages, (n' = n \/ n' = S n) /\
    index s' pg' n' (match m !! krank (file_hdr_ s) key with Some _ => m | None => <[krank (file_hdr_ s) key := value]> m end) /\
    (r = INVALID_PAGE_ID <-> is_Some (m !! krank (file_hdr_ s) key)) /\
    fd_ s' = fd_ s /\ layout (file_hdr_ s') = layout (file_hdr_ s) /\ paid cx pages (ctx s) (ctx s') /\
    forall q, BufferPool.pins (bpm s') q = BufferPool.pins (bpm s) q + times q pages.
Proof.
  intros Hi Hk Hv Hroom Hid Hr. pose proof Hi as (ls & ps & Hix & Em). unfold insert_entry in Hr.
  apply bind_inv in Hr as (s1 & leaf & Hfl & Hr).
  destruct (find_leaf_page_ok _ _ _ _ _ _ _ _ Hix Hk Hfl) as (p & Hca & Ha & Hw & Hp).
  pose proof (owns_leaf _ _ _ _ _ cx Hca Ha Hid Hp) as Ho. pose proof Hca as [C1 C2 C3 C4 C5].
  destruct (walk_end _ _ _ _ _ _ _ Hw) as (Hmk & _ & _). destruct (walk_page _ _ _ _ _ _ _ _ Hw) as (_ & Hpn & _).
  destruct Hw as (par & lo & hi & B & ls1 & A & ps1 & O & [W1 W2 W3 W4 W5 W6 W7 W8]).
  rewrite C2, C4 in *. set (h := file_hdr_ s) in *. set (nn := next_no s) in *. rewrite <- Em in Hmk. rewrite Hmk.
  destruct W3 as (Hpar & Hsm & Hlf & -> & ->). cbn [app] in W6.
  assert (Hbase : forall q, 0 <= BufferPool.pins (bpm s) q) by (intros q; apply pins_nonneg, Hix).
  assert (Hpok : node_ok (layout h) (pg p)) by (destruct (W8 p ltac:(rewrite <- W6; by left)) as [_ []]; by split).
  pose proof (is_page_of _ _ Hpok) as Hx. change (node_of (layout h) (pg p)) with (nodes h pg p) in Hx.
  assert (Hin : (p, leaf) ∈ [(p, leaf)]) by (by left).
  destruct (leaf_insert h _ _ _ _ lo hi key value W1 Hx Hlf Hsm Hk W4 Hv) as (d' & Ed & Hd).
  rewrite (bind_ok _ _ _ _ _ (owns_read _ _ _ _ _ _ _ _ _ Ho p leaf hd_num_key Hin)), (bind_ok _ _ _ _ _ (owns_ask _ _ _ _ _ _ _ _ _ Ho p leaf _ _ Hin Ed)) in Hr.
  cbn [fst snd] in Hr. destruct (contents h (pg p) !! krank h key) as [v|] eqn:Ec.
  - (* the key is there *)
    subst d'. rewrite (bind_ok _ _ _ _ _ (put_same _ _ _ _ Ha)), Z.eqb_refl in Hr.
    destruct (run_unpin _ _ _ _ C5 Ha) as (s2 & Hu & Hca2 & Hp2 & _). rewrite (bind_ok _ _ _ _ _ Hu) in Hr. injection Hr as <- <-.
    pose proof (calm_trans _ _ _ _ Hca Hca2) as Hc. exists pg, n, []. split; [by left|]. split; [by eapply calm_index|].
    split; [done|]. split_and!; [apply (ca_fd _ _ _ Hc)|by rewrite (ca_hdr _ _ _ Hc)|left; by rewrite (ca_ctx _ _ _ Hc)|].
    intros q. rewrite Hp2, Hp. unfold page_of, times. cbn. rewrite C1. lia.
  - (* the key is new *)
    destruct Hd as (x & Hx1 & Hlf1 & Hpar1 & Hlen & Hc1). apply bind_inv in Hr as (s2 & [] & Hput & Hr).
    destruct (owns_put _ _ _ _ _ _ _ _ _ Ho p leaf d' s2 tt Hin Hput) as (pg1 & Ho1 & Ep & F1); [apply Hx1|].
    rewrite <- Ep in Hx1, Hc1. rewrite (proj1 (page_num _ _ _ _ _ Hx)) in Hr.
    assert (Hn1 : hd_num_key d' = Z.of_nat (length (n_keys x))) by (rewrite <- Ep; apply (page_num _ _ _ _ _ Hx1)).
    rewrite Hn1, Hlen, (proj2 (Z.eqb_neq _ _)) in Hr by lia. rewrite (bind_ok _ _ _ _ _ (owns_hdr_of _ _ _ _ _ _ _ _ _ Ho1)) in Hr.
    assert (Hnd : NoDup (p :: O)) by (by rewrite W6).
    assert (Hps : forall q, q ∈ p :: O -> IX_LEAF_HEADER_PAGE < q < nn /\ node_ok (layout h) (pg q)).
    { intros q Hq. rewrite W6 in Hq. destruct (W8 q Hq) as [Hqn Hqok]. split; [done|]. by destruct Hqok. }
    pose proof (ix_links _ _ _ _ _ Hix) as Hli. pose proof (ix_lead _ _ _ _ _ Hix) as [Hl1 Hl2]. pose proof (ix_ends _ _ _ _ _ Hix) as [He1 He2].
    fold h in He1, He2. fold nn in Hl1. rewrite <- W5 in *.
    assert (Hne : r <> INVALID_PAGE_ID -> (r = INVALID_PAGE_ID <-> is_Some (@None Rid))) by (intros Q; split; [done|by intros [? ?]]).
    destruct Hsm as [Hsm Hsm2]. change (btree_order_ (layout h)) with (btree_order_ h) in Hsm. unfold IxNode.get_max_size in Hr.
    apply bind_inv in Hr as (s3 & [] & Hmid & Hr). apply bind_inv in Hr as (s4 & [] & Hu & Hr).
    assert (Hpp : p <> INVALID_PAGE_ID) by (unfold INVALID_PAGE_ID; lia).
    rewrite <- Hlen in Hmid. destruct (Z.eqb_spec (Z.of_nat (length (n_keys x))) (btree_order_ h)) as [Emax|Emax].
    + destruct (entry_splits (fd_ s) (ctx s) (BufferPool.pins (bpm s)) cx h nn pg1 s2 s3 s4 n B p A O par lo hi x (hd_prev_leaf (pg p)) (hd_next_leaf (pg p)) leaf tt tt)
        as (h' & n' & pg' & ht' & Ho' & Hpno & EL & Eht & ls' & ps' & Hb & Emap); try done.
      * eapply hole_frame; [|exact W2]. intros q Hq. unfold nodes. rewrite F1; [done|]. intros ->. by apply NoDup_cons in Hnd as [? _].
      * by rewrite Hpar1.
      * eapply sublist_NoDup; [apply (ix_nodup _ _ _ _ _ Hix)|]. exact (tree_sublist _ _ _ _ _ _ _ _ _ (ix_tree _ _ _ _ _ Hix)).
      * intros q Hq. destruct (Hps q Hq) as [Q1 Q2]. split; [done|]. destruct (decide (q = p)) as [->|Hq']; [apply Hx1|by rewrite F1].
      * eapply links_ext; [| |exact Hli].
        -- intros q _. destruct (decide (q = p)) as [->|Hq]; [|by rewrite F1]. by rewrite (ip_next _ _ _ _ _ Hx1).
        -- intros q _. destruct (decide (q = p)) as [->|Hq]; [|by rewrite F1]. by rewrite (ip_prev _ _ _ _ _ Hx1).
      * rewrite F1; [done|]. intros E. destruct (Hps p ltac:(by left)) as [Q _]. rewrite <- E in Q. lia.
      * destruct (hole_outside _ _ _ _ _ _ _ _ _ _ _ _ _ W2 W4) as [O1 O2].
        rewrite (entry_map h pg pg1 B p A key value F1) in Emap; [|intros Hc; apply NoDup_cons in Hnd as [Hnd _]; apply Hnd; eapply hole_leaves; [exact W2|by apply elem_of_app in Hc]|exact O1|exact O2|exact Hc1].
        destruct (log_tail _ _ _ _ _ _ _ _ _ _ _ _ _ _ _ Ho' Hid Hb Hpno Hr) as (-> & pg2 & pages & T1 & T2 & T3 & T4 & T5).
        unfold nodes in T1, Emap. rewrite EL in T1. rewrite Emap in T1. exists pg2, ht', pages.
        rewrite Em. split_and!; [exact Eht|exact T1|by apply Hne|done|by rewrite T3|done|done].
    + unfold mret, M_ret in Hmid. injection Hmid as <-.
      destruct (owns_dirty _ _ Hbase _ _ _ _ _ _ _ Ho1 p leaf [] s4 tt ltac:(done) Hu) as [Ho2 Hpno].
      destruct (entry_fits h nn pg pg1 n B p A O par lo hi x (hd_prev_leaf (pg p)) (hd_next_leaf (pg p)) key value) as [(ps' & Hb) Emap]; try done.
      * by rewrite Hpar1.
      * split; [change (btree_order_ (layout h)) with (btree_order_ h); lia|apply (page_num _ _ _ _ _ Hx1)].
      * destruct (log_tail _ _ _ _ _ _ _ _ _ _ _ _ _ _ _ Ho2 Hid Hb Hpno Hr) as (-> & pg2 & pages & T1 & T2 & T3 & T4 & T5).
        rewrite Emap in T1. exists pg2, n, pages. rewrite Em. split_and!; [by left|exact T1|by apply Hne|done..].
Qed.
(** C3: [insert_entry], with a transaction or without one, on a well-formed index of any height: if
    it returns, the index is well formed and its map is the old one with the key added, or the old
    one when the key was there, which is when the call returns INVALID_PAGE_ID.  The height stays or,
    when the splits reach the root, grows by one; leaves stay linked in the order of their keys.
    Every pin that is not given back is counted in the transaction, which gets one record of the
    pages for the log. *)
Theorem insert_entry_adds s s' pg n m key value r cx :
  index s pg n m -> good_key (file_hdr_ s) key -> rid_ok value -> next_no s + Z.of_nat n + 2 <= 2 ^ 31 - 1 ->
  idle cx (ctx s) -> insert_entry key value cx s = (s', Ok r) ->
  exists pg' n' pages, (n' = n \/ n' = S n) /\
    index s' pg' n' (match m !! krank (file_hdr_ s) key with Some _ => m | None => <[krank (file_hdr_ s) key := value]> m end) /\
    (r = INVALID_PAGE_ID <-> is_Some (m !! krank (file_hdr_ s) key)) /\
    fd_ s' = fd_ s /\ layout (file_hdr_ s') = layout (file_hdr_ s) /\ paid cx pages (ctx s) (ctx s') /\
    forall q, BufferPool.pins (bpm s') q = BufferPool.pins (bpm s) q + times q pages.
Proof. apply insert_entry_ok. Qed.
End entry.

(** ** A split up to the root

    The tree of IxTree.v over a pool of eight frames: its leaves and its root hold two pairs and
    split when they have three. *)
Lemma tree_8_wf : BufferPool.wf (tree_pool 8).
Proof. apply run_wf; [unfold tree_ops; legal|vm_compute; reflexivity]. Qed.
Lemma tree_8_next : next_no (tree_of 8) = 5.
Proof. vm_compute. reflexivity. Qed.
Lemma tree_8_shows : shows (tree_of 8) tree_pg.
Proof. split; [exact tree_8_wf|views|]. rewrite tree_8_next. intros p Hp. five p; vm_compute; reflexivity. Qed.
Lemma tree_8_index : index (tree_of 8) tree_pg 1 tree_map.
Proof. exact (tree_at (tree_of 8) eq_refl tree_8_shows tree_8_next). Qed.

Lemma insert_entry_adds_witness :
  match insert_entry (int_key 25) (mkRid 25 26) true (tree_of 8) with
  | (s', Ok r) => r <> INVALID_PAGE_ID /\ root_page_ (file_hdr_ s') = 7 /\ last_leaf_ (file_hdr_ s') = 3 /\
      length (Txn.log_records (cx_txn (ctx s'))) = 1%nat /\
      exists pg' n', (n' = 1%nat \/ n' = 2%nat) /\ index s' pg' n' (<[[25] := mkRid 25 26]> tree_map)
  | _ => False
  end.
Proof.
  destruct (insert_entry (int_key 25) (mkRid 25 26) true (tree_of 8)) as [s' [r|e]] eqn:E.
  2: { apply (f_equal (fun r => match r.2 with Ok _ => true | _ => false end)) in E. cbn [snd] in E. vm_compute in E. discriminate E. }
  assert (Hm : tree_map !! [25] = None) by (vm_compute; reflexivity).
  destruct (insert_entry_adds (tree_of 8) s' tree_pg 1 tree_map (int_key 25) (mkRid 25 26) r true tree_8_index (int_key_good 25))
    as (pg' & n' & pages & Hn & Hi & Hr & _).
  - split; unfold in_i32; cbn; lia.
  - rewrite tree_8_next. lia.
  - intros _. split; reflexivity.
  - exact E.
  - change (krank (file_hdr_ (tree_of 8)) (int_key 25)) with [25] in Hi, Hr. rewrite Hm in Hi, Hr.
    split; [intros Q; destruct (proj1 Hr Q) as [? [=]]|].
    split; [apply (f_equal (fun r => root_page_ (file_hdr_ r.1))) in E; cbn [fst] in E; rewrite <- E; vm_compute; reflexivity|].
    split; [apply (f_equal (fun r => last_leaf_ (file_hdr_ r.1))) in E; cbn [fst] in E; rewrite <- E; vm_compute; reflexivity|].
    split; [apply (f_equal (fun r => length (Txn.log_records (cx_txn (ctx r.1))))) in E; cbn [fst] in E; rewrite <- E; vm_compute; reflexivity|].
    exists pg', n'. split; [exact Hn|exact Hi].
Defined.
End IxInsert.
