(* ===== verification/SmManager.v ===== *)
(** * The system manager

    The class [SmManager] of [system/sm_manager.h] and [sm_manager.cpp]: the metadata
    of the open database, the handles of its tables and indexes, the statements that
    define tables and indexes, and the operations a rollback is made of.  The calls of
    [stat], [system], [chdir] and of file streams are the class [Shell]. *)

From S2P Require Import Prelude Common Posix Replacer Disk Buffer RmDefs Log Transaction Record SmMeta IxDefs IxNode IxHandle IxManager.

(** What the code uses of the operating system, outside the disk manager.
    [sh_write_file] is what an [ofstream] opened on the file leaves in it;
    [sh_read_file] is [None] when an [ifstream] cannot be opened. *)
Class Shell (D : Type) := {
  sh_is_dir : string -> M D bool;
  sh_system : string -> M D Z;
  sh_chdir : string -> M D Z;
  sh_read_file : string -> M D (option string);
  sh_write_file : string -> string -> M D unit;
}.

Record ColDef := mkColDef { cd_name : string; cd_type : ColType; cd_len : Z }.

Module SmManager.

(** ** Columns and keys *)

(** The columns of a new table, one after the other from [curr_offset] on, and the
    size of its records. *)
Fixpoint make_cols (tab_name : string) (col_defs : list ColDef) (curr_offset : Z) : list ColMeta * Z :=
  match col_defs with
  | [] => ([], curr_offset)
  | d :: ds =>
      let '(cols, size) := make_cols tab_name ds (i32 (curr_offset + cd_len d)) in
      (mkColMeta tab_name (cd_name d) (cd_type d) (cd_len d) curr_offset false :: cols, size)
  end.

(** [tab.get_col(name)->index = b]. *)
Definition set_index (b : bool) (c : ColMeta) : ColMeta :=
  mkColMeta (cm_tab_name c) (cm_name c) (cm_type c) (cm_len c) (cm_offset c) b.
Definition set_col_index (name : string) (b : bool) (t : TabMeta) : res TabMeta :=
  match find_col (tm_cols t) name with
  | Some i => Ok (mkTabMeta (tm_name t) (alter (set_index b) i (tm_cols t)) (tm_indexes t))
  | None => Throw (ColumnNotFoundError name)
  end.
Definition set_indexes (l : list IndexMeta) (t : TabMeta) : TabMeta := mkTabMeta (tm_name t) (tm_cols t) l.

(** The column of an index on one column is marked. *)
Definition flag_single (col_names : list string) (b : bool) (t : TabMeta) : res TabMeta :=
  match col_names with [n] => set_col_index n b t | _ => Ok t end.

(** The columns of an index, from their names. *)
Fixpoint get_cols (t : TabMeta) (col_names : list string) : res (list ColMeta) :=
  match col_names with
  | [] => Ok []
  | n :: ns => c ← get_col t n; cs ← get_cols t ns; Ok (c :: cs)
  end.

(** The loop of [memmove]s that puts the columns of a record one after the other in
    the [len] zeroed bytes of a key; memory outside the record or the key is not
    followed. *)
Fixpoint fill_key (key : bytes) (key_offset : Z) (data : bytes) (cols : list ColMeta) : res bytes :=
  match cols with
  | [] => Ok key
  | c :: cs =>
      if (0 <=? cm_len c) && (0 <=? cm_offset c) && (cm_offset c + cm_len c <=? Z.of_nat (length data)) &&
         (0 <=? key_offset) && (key_offset + cm_len c <=? Z.of_nat (length key))
      then fill_key (mem_write key (Z.to_nat key_offset)
                       (mem_read data (Z.to_nat (cm_offset c)) (Z.to_nat (cm_len c))))
                    (i32 (key_offset + cm_len c)) data cs
      else Throw Stuck
  end.
Definition make_key (len : Z) (data : bytes) (cols : list ColMeta) : res bytes :=
  if len <? 0 then Throw Stuck else fill_key (replicate (Z.to_nat len) 0) 0 data cols.

(** [std::strcmp(a, b) == 0] on two arrays; reading past the end of one is not
    followed. *)
Fixpoint strcmp_eq (a b : bytes) : res bool :=
  match a, b with
  | x :: a', y :: b' => if x =? y then if x =? 0 then Ok true else strcmp_eq a' b' else Ok false
  | _, _ => Throw Stuck
  end.

Section ops.
Context {D R C : Type} `{Disk D} `{Files D} `{Shell D} `{Replacer R}.
Context `{TxnContext C} `{HasTxn C} `{StmtContext C}.
#[local] Abbreviation pool := (BufferPool.t D R).
(** What is in memory that is allocated and not initialised. *)
Context (junk : bytes) (junk_rid : Rid).

(** The manager, with the pool its four managers share and the context of the
    statement.  A handle is its descriptor and its header. *)
Record t := mk {
  db_ : DbMeta;
  fhs_ : gmap string (Z * RmFileHdr);
  ihs_ : gmap string (Z * IxFileHdr);
  bpm : pool;
  ctx : C;
}.

Definition set_db (d : DbMeta) (s : t) : t := mk d (fhs_ s) (ihs_ s) (bpm s) (ctx s).
Definition set_fhs (m : gmap string (Z * RmFileHdr)) (s : t) : t := mk (db_ s) m (ihs_ s) (bpm s) (ctx s).
Definition set_ihs (m : gmap string (Z * IxFileHdr)) (s : t) : t := mk (db_ s) (fhs_ s) m (bpm s) (ctx s).
Definition set_pool (p : pool) (s : t) : t := mk (db_ s) (fhs_ s) (ihs_ s) p (ctx s).
Definition set_ctx (c : C) (s : t) : t := mk (db_ s) (fhs_ s) (ihs_ s) (bpm s) c.
Definition on_pool {A} (m : M pool A) : M t A := zoom bpm set_pool m.
Definition on_disk {A} (m : M D A) : M t A := on_pool (BufferPool.disk_op m).
Definition on_ctx {A} (m : M C A) : M t A := zoom ctx set_ctx m.
Definition lift {A} (r : res A) : M t A := match r with Ok a => mret a | Throw e => throw e end.
Definition upd_db (f : DbMeta -> DbMeta) : M t unit := modify (fun s => set_db (f (db_ s)) s).
Definition upd_txn (f : Txn.t -> Txn.t) : M t unit :=
  modify (fun s => set_ctx (cx_set_txn (f (cx_txn (ctx s))) (ctx s)) s).

(** [fhs_.at(name)->...] and [ihs_.at(name)->...]: an operation on the handle. *)
Definition on_table {A} (name : string) (m : M (RmFileHandle.t D R C) A) : M t A := fun s =>
  match fhs_ s !! name with
  | None => (s, Throw OutOfRange)
  | Some (f, h) =>
      let '(x, r) := m (RmFileHandle.mk f h (bpm s) (ctx s)) in
      (mk (db_ s) (<[name := (RmFileHandle.fd_ x, RmFileHandle.file_hdr_ x)]> (fhs_ s)) (ihs_ s)
          (RmFileHandle.bpm x) (RmFileHandle.ctx x), r)
  end.
(** On a handle that is a local variable. *)
Definition on_local {A} (ih : Z * IxFileHdr) (m : M (IxIndexHandle.t D R C) A) : M t ((Z * IxFileHdr) * A) := fun s =>
  let '(x, r) := m (IxIndexHandle.mk ih.1 ih.2 (bpm s) (ctx s)) in
  (mk (db_ s) (fhs_ s) (ihs_ s) (IxIndexHandle.bpm x) (IxIndexHandle.ctx x),
   match r with
   | Ok a => Ok ((IxIndexHandle.fd_ x, IxIndexHandle.file_hdr_ x), a)
   | Throw e => Throw e
   end).
Definition on_index {A} (name : string) (m : M (IxIndexHandle.t D R C) A) : M t A := fun s =>
  match ihs_ s !! name with
  | None => (s, Throw OutOfRange)
  | Some (f, h) =>
      let '(x, r) := m (IxIndexHandle.mk f h (bpm s) (ctx s)) in
      (mk (db_ s) (fhs_ s) (<[name := (IxIndexHandle.fd_ x, IxIndexHandle.file_hdr_ x)]> (ihs_ s))
          (IxIndexHandle.bpm x) (IxIndexHandle.ctx x), r)
  end.
Definition find_table (name : string) : M t (Z * RmFileHdr) :=
  s ← get; match fhs_ s !! name with Some x => mret x | None => throw OutOfRange end.
Definition find_index (name : string) : M t (Z * IxFileHdr) :=
  s ← get; match ihs_ s !! name with Some x => mret x | None => throw OutOfRange end.
Definition index_name (tab_name : string) (cols : list ColMeta) : string :=
  IxManager.get_index_name_cols tab_name cols.

(** ** Databases *)

Definition is_dir (db_name : string) : M t bool := on_disk (sh_is_dir db_name).
Definition chdir (d : string) : M t unit :=
  r ← on_disk (sh_chdir d); if r <? 0 then throw UnixError else mret tt.
Definition system (cmd : string) : M t unit :=
  r ← on_disk (sh_system cmd); if r <? 0 then throw UnixError else mret tt.

Definition create_db (name : string) : M t unit :=
  b ← is_dir name;
  if b : bool then throw (DatabaseExistsError name) else
  system ("mkdir " +:+ name);;
  chdir name;;
  on_disk (sh_write_file DB_META_NAME (DbMeta_out (mkDbMeta name ∅)));;
  on_disk (fl_create_file LOG_FILE_NAME);;
  chdir "..".

Definition drop_db (name : string) : M t unit :=
  b ← is_dir name;
  if negb b then throw (DatabaseNotFoundError name) else
  system ("rm -r " +:+ name).

(** [fhs_.emplace(name, open_file(name))]: the file is opened even if there is a
    handle already, which stays. *)
Definition emplace_table (name : string) : M t unit :=
  x ← on_pool (RmManager.open_file name);
  modify (fun s => match fhs_ s !! name with
                   | Some _ => s
                   | None => set_fhs (<[name := x]> (fhs_ s)) s
                   end).
Definition open_indexes (tab_name : string) (l : list IndexMeta) : M t unit :=
  forM l (fun index =>
    let name := index_name tab_name (im_cols index) in
    s ← get;
    assertM (bool_decide (ihs_ s !! name = None));;
    ih ← on_pool (IxManager.open_index tab_name (cm_name <$> im_cols index));
    modify (fun s => set_ihs (<[name := ih]> (ihs_ s)) s)).

(** The text is read into [db_]: its name is replaced, its tables are added. *)
Definition read_meta : M t unit :=
  x ← on_disk (sh_read_file DB_META_NAME);
  match x ≫= read_DbMeta with
  | None => throw Stuck
  | Some (d, _) => upd_db (fun d0 => mkDbMeta (db_name d) (db_tabs d ∪ db_tabs d0))
  end.
Definition open_db (name : string) : M t unit :=
  b ← is_dir name;
  if negb b then throw (DatabaseNotFoundError name) else
  chdir name;;
  read_meta;;
  s ← get;
  forM (entries (db_ s)) (fun e =>
    emplace_table (tm_name e.2);; open_indexes (tm_name e.2) (tm_indexes e.2)).

Definition flush_meta : M t unit :=
  s ← get; on_disk (sh_write_file DB_META_NAME (DbMeta_out (db_ s))).

(** The hash maps are iterated in an order the code does not fix; here it is that of
    [map_to_list]. *)
Definition close_db : M t unit :=
  flush_meta;;
  upd_db (fun _ => mkDbMeta "" ∅);;
  s ← get;
  forM (map_to_list (fhs_ s)) (fun e => on_pool (RmManager.close_file e.2.1 e.2.2));;
  modify (set_fhs ∅);;
  forM (map_to_list (ihs_ s)) (fun e => on_pool (IxManager.close_index junk e.2.1 e.2.2));;
  modify (set_ihs ∅);;
  chdir "..".

(** ** Tables *)

(** [context->lock_mgr_->lock_exclusive_on_table]. *)
Definition lock_table (tab_name : string) : M t unit :=
  x ← find_table tab_name;
  b ← on_ctx (cx_lock_exclusive_on_table x.1);
  if b : bool then mret tt
  else c ← gets ctx; throw (TransactionAbortException (cx_txn_id c) DEADLOCK_PREVENTION).

Definition create_table (tab_name : string) (col_defs : list ColDef) : M t unit :=
  s ← get;
  if is_table (db_ s) tab_name then throw (TableExistsError tab_name) else
  let '(cols, record_size) := make_cols tab_name col_defs 0 in
  on_pool (RmManager.create_file tab_name record_size);;
  upd_db (SetTabMeta tab_name (mkTabMeta tab_name cols []));;
  x ← on_pool (RmManager.open_file tab_name);
  modify (fun s => set_fhs (<[tab_name := x]> (fhs_ s)) s);;
  emplace_table tab_name;;
  flush_meta.

(** The context must not be null.  The metadata file is not written. *)
Definition drop_table (tab_name : string) : M t unit :=
  s ← get;
  if negb (is_table (db_ s) tab_name) then throw (TableNotFoundError tab_name) else
  lock_table tab_name;;
  tab ← lift (get_table (db_ s) tab_name);
  x ← find_table tab_name;
  on_pool (RmManager.close_file x.1 x.2);;
  on_pool (RmManager.destroy_file tab_name);;
  forM (tm_indexes tab) (fun index =>
    ih ← find_index (index_name (tm_name tab) (im_cols index));
    on_pool (IxManager.close_index junk ih.1 ih.2);;
    on_disk (IxManager.destroy_index tab_name (cm_name <$> im_cols index));;
    modify (fun s => set_ihs (delete (index_name tab_name (im_cols index)) (ihs_ s)) s));;
  upd_db (SetTabMeta tab_name tab);;
  upd_db (fun d => mkDbMeta (db_name d) (delete tab_name (db_tabs d)));;
  modify (fun s => set_fhs (delete tab_name (fhs_ s)) s).

(** ** Indexes

    [context] tells whether the pointer is null. *)

(** The loop over the records of the table, whose keys go into the new index. *)
Fixpoint index_records (fuel : nat) (tab_name : string) (cols : list ColMeta) (len : Z) (context : bool)
    (ih : Z * IxFileHdr) (rid : Rid) : M t (Z * IxFileHdr) :=
  if RmScan.is_end rid then mret ih else
  match fuel with
  | O => throw OutOfFuel
  | S fuel' =>
      rec ← on_table tab_name (RmFileHandle.get_record rid context);
      key ← lift (make_key len (default [] (rec_data rec)) cols);
      r ← on_local ih (IxIndexHandle.insert_entry key rid context);
      rid' ← on_table tab_name (RmScan.next rid);
      index_records fuel' tab_name cols len context r.1 rid'
  end.

(** The record of the change, in the log and in the write set. *)
Definition log_index (make : Z -> Z -> string -> list string -> IndexLogRecord) (wtype : WType.t)
    (tab_name : string) (col_names : list string) : M t unit :=
  c ← gets ctx;
  lsn ← on_ctx (cx_add_log (LIndex (make (cx_txn_id c) (cx_prev_lsn c) tab_name col_names)));
  modify (fun s => set_ctx (cx_set_prev_lsn lsn (ctx s)) s);;
  upd_txn (Txn.append_write_record (WriteRecord.index junk_rid wtype tab_name col_names lsn)).

Definition create_index (tab_name : string) (col_names : list string) (context : bool) : M t unit :=
  d ← gets db_;
  tab ← lift (get_table d tab_name);
  whenM context (lock_table tab_name);;
  b ← lift (is_index tab col_names);
  if b : bool then throw (IndexExistsError tab_name col_names) else
  cols ← lift (get_cols tab col_names);
  let len := IxManager.tot_len cols in
  on_disk (IxManager.create_index junk tab_name cols);;
  ih ← on_pool (IxManager.open_index tab_name (cm_name <$> cols));
  x ← find_table tab_name;
  if len <? 0 then throw Stuck else
  rid ← on_table tab_name RmScan.start;
  ih ← index_records (Z.to_nat (num_pages x.2 * num_records_per_page x.2)) tab_name cols len context ih rid;
  r ← on_local ih (IxIndexHandle.flush junk);
  let idx_meta := mkIndexMeta tab_name len (i32 (Z.of_nat (length col_names))) cols in
  let tab := set_indexes (tm_indexes tab ++ [idx_meta]) tab in
  tab ← lift (flag_single col_names true tab);
  upd_db (SetTabMeta tab_name tab);;
  flush_meta;;
  s ← get;
  assertM (bool_decide (ihs_ s !! index_name tab_name cols = None));;
  modify (fun s => set_ihs (<[index_name tab_name cols := r.1]> (ihs_ s)) s);;
  whenM context (log_index CreateIndexLogRecord WType.CREATE_INDEX tab_name col_names).

(** [db_.tabs_[tab_name]]: a table that is not there is added, empty. *)
Definition tab_at (tab_name : string) : M t TabMeta :=
  d ← gets db_;
  match db_tabs d !! tab_name with
  | Some tab => mret tab
  | None => upd_db (SetTabMeta tab_name (mkTabMeta "" [] []));; mret (mkTabMeta "" [] [])
  end.

Definition drop_index_cols (tab_name : string) (cols : list ColMeta) (context : bool) : M t unit :=
  whenM context (lock_table tab_name);;
  tab ← tab_at tab_name;
  let col_names := cm_name <$> cols in
  b ← lift (is_index tab col_names);
  if negb b then throw (IndexNotFoundError tab_name col_names) else
  let name := index_name tab_name cols in
  ih ← find_index name;
  on_pool (IxManager.close_index junk ih.1 ih.2);;
  on_disk (IxManager.destroy_index tab_name col_names);;
  modify (fun s => set_ihs (delete name (ihs_ s)) s);;
  index ← lift (get_index_meta tab col_names);
  let tab := set_indexes (delete index.1 (tm_indexes tab)) tab in
  upd_db (SetTabMeta tab_name tab);;
  tab ← lift (flag_single col_names false tab);
  upd_db (SetTabMeta tab_name tab);;
  flush_meta;;
  whenM context (log_index DropIndexLogRecord WType.DROP_INDEX tab_name col_names).

Definition drop_index (tab_name : string) (col_names : list string) (context : bool) : M t unit :=
  tab ← tab_at tab_name;
  cols ← lift (get_cols tab col_names);
  drop_index_cols tab_name cols context.

(** ** Rollback *)

Definition rollback_insert (tab_name : string) (rid : Rid) (context : bool) : M t unit :=
  d ← gets db_;
  tab ← lift (get_table d tab_name);
  rec ← on_table tab_name (RmFileHandle.get_record rid context);
  forM (tm_indexes tab) (fun index =>
    key ← lift (make_key (im_col_tot_len index) (default [] (rec_data rec)) (im_cols index));
    _ ← on_index (index_name tab_name (im_cols index)) (IxIndexHandle.delete_entry key context);
    mret tt);;
  whenM context (on_ctx cx_add_idx_log);;
  on_table tab_name (RmFileHandle.delete_record rid context).

Definition rollback_delete (tab_name : string) (record : RmRecord) (context : bool) : M t unit :=
  d ← gets db_;
  tab ← lift (get_table d tab_name);
  new_rid ← on_table tab_name (RmFileHandle.insert_record (default [] (rec_data record)) context);
  forM (tm_indexes tab) (fun index =>
    key ← lift (make_key (im_col_tot_len index) (default [] (rec_data record)) (im_cols index));
    _ ← on_index (index_name tab_name (im_cols index)) (IxIndexHandle.insert_entry key new_rid context);
    mret tt);;
  whenM context (on_ctx cx_add_idx_log).

Definition rollback_update (tab_name : string) (rid : Rid) (record : RmRecord) (context : bool) : M t unit :=
  d ← gets db_;
  tab ← lift (get_table d tab_name);
  rec ← on_table tab_name (RmFileHandle.get_record rid context);
  forM (tm_indexes tab) (fun index =>
    old_key ← lift (make_key (im_col_tot_len index) (default [] (rec_data rec)) (im_cols index));
    new_key ← lift (make_key (im_col_tot_len index) (default [] (rec_data record)) (im_cols index));
    same ← lift (strcmp_eq old_key new_key);
    if same : bool then mret tt else
    _ ← on_index (index_name tab_name (im_cols index)) (IxIndexHandle.delete_entry old_key context);
    _ ← on_index (index_name tab_name (im_cols index)) (IxIndexHandle.insert_entry new_key rid context);
    mret tt);;
  whenM context (on_ctx cx_add_idx_log);;
  on_table tab_name (RmFileHandle.update_record rid (default [] (rec_data record)) context).

Definition rollback_create_index (tab_name : string) (col_names : list string) (context : bool) : M t unit :=
  drop_index tab_name col_names context.
Definition rollback_drop_index (tab_name : string) (col_names : list string) (context : bool) : M t unit :=
  create_index tab_name col_names context.
End ops.
Arguments t D R C : clear implicits.

(** ** The layout of records and keys *)

(** The bytes of a column in a record, and a column that is inside the record. *)
Definition slice (data : bytes) (c : ColMeta) : bytes :=
  mem_read data (Z.to_nat (cm_offset c)) (Z.to_nat (cm_len c)).
Definition in_record (size : Z) (c : ColMeta) : Prop :=
  0 <= cm_len c /\ 0 <= cm_offset c /\ cm_offset c + cm_len c <= size.
Definition lens (cols : list ColMeta) : nat := cols_len (cm_len <$> cols).
Definition defs_len (l : list ColDef) : nat := cols_len (cd_len <$> l).

Lemma lens_cons c cs : lens (c :: cs) = (Z.to_nat (cm_len c) + lens cs)%nat.
Proof. apply IxNode.cols_len_cons. Qed.
Lemma defs_len_cons d ds : defs_len (d :: ds) = (Z.to_nat (cd_len d) + defs_len ds)%nat.
Proof. apply IxNode.cols_len_cons. Qed.

Lemma length_slices data cs : Forall (in_record (Z.of_nat (length data))) cs ->
  length (concat (slice data <$> cs)) = lens cs.
Proof.
  induction 1 as [|c cs (Q1 & Q2 & Q3) _ IH]; [done|].
  rewrite fmap_cons, lens_cons. cbn [concat]. rewrite length_app, IH.
  unfold slice. rewrite length_mem_read. lia.
Qed.

Lemma fill_key_ok data cs : Forall (in_record (Z.of_nat (length data))) cs -> forall key o,
  (o + lens cs <= length key)%nat -> Z.of_nat (length key) < 2 ^ 31 ->
  fill_key key (Z.of_nat o) data cs = Ok (mem_write key o (concat (slice data <$> cs))).
Proof.
  induction 1 as [|c cs (Q1 & Q2 & Q3) Hcs IH]; intros key o Hl Hk; [by rewrite mem_write_nil|].
  rewrite lens_cons in Hl. cbn [fill_key]. rewrite !andb_true_intro by (rewrite ?Z.leb_le; repeat split; lia).
  rewrite Nat2Z.id. fold (slice data c). rewrite i32_small by (unfold in_i32; lia).
  replace (Z.of_nat o + cm_len c) with (Z.of_nat (o + Z.to_nat (cm_len c))) by lia.
  rewrite IH by (rewrite length_mem_write; lia). f_equal. rewrite fmap_cons. cbn [concat].
  assert (El : length (slice data c) = Z.to_nat (cm_len c)) by (unfold slice; rewrite length_mem_read; lia).
  rewrite <- El. apply mem_write_app. rewrite length_slices by done. lia.
Qed.

Lemma tot_lens cs : forall a, Forall (fun c => 0 <= cm_len c) cs -> 0 <= a -> a + Z.of_nat (lens cs) < 2 ^ 31 ->
  foldl (fun n c => i32 (n + cm_len c)) a cs = a + Z.of_nat (lens cs).
Proof.
  induction cs as [|c cs IH]; intros a Hp Ha Hs; [cbn; lia|]. inversion Hp as [|? ? Hc Hl]; subst.
  rewrite lens_cons in *. cbn [foldl]. rewrite i32_small by (unfold in_i32; lia). rewrite IH; lia || done.
Qed.

Lemma make_key_ok data cs : Forall (in_record (Z.of_nat (length data))) cs -> Z.of_nat (lens cs) < 2 ^ 31 ->
  make_key (IxManager.tot_len cs) data cs = Ok (concat (slice data <$> cs)) /\
  Z.of_nat (length (concat (slice data <$> cs))) = IxManager.tot_len cs.
Proof.
  intros Hc Hl. rewrite length_slices by done. unfold IxManager.tot_len.
  rewrite tot_lens by (lia || (eapply Forall_impl; [exact Hc|]; by intros ? (? & _))). split; [|lia].
  unfold make_key. rewrite (proj2 (Z.ltb_ge _ _)) by lia. rewrite Z.add_0_l, Nat2Z.id.
  rewrite (fill_key_ok data cs Hc _ 0) by (rewrite ?length_replicate; lia). f_equal.
  unfold mem_write. rewrite length_replicate, length_slices by done. cbn [take app].
  rewrite drop_ge by (rewrite length_replicate; lia). rewrite app_nil_r. change (take 0 _ ++ ?l) with l. apply take_ge.
  rewrite length_slices by done. lia.
Qed.

(** The columns of a new table tile its records. *)
Lemma make_cols_ok tab_name defs : Forall (fun d => 0 <= cd_len d) defs -> forall o cols size,
  make_cols tab_name defs (Z.of_nat o) = (cols, size) -> Z.of_nat (o + defs_len defs) < 2 ^ 31 ->
  size = Z.of_nat (o + defs_len defs) /\ lens cols = defs_len defs /\
  Forall (in_record size) cols /\ cm_name <$> cols = cd_name <$> defs /\
  forall data, Z.of_nat (length data) = size -> concat (slice data <$> cols) = drop o data.
Proof.
  induction 1 as [|d ds Hd _ IH]; intros o cols size Hm Hs.
  - simplify_eq/=. change (defs_len []) with 0%nat. split_and!; [lia|done|constructor|done|].
    intros data Hl. rewrite drop_ge by lia. done.
  - rewrite defs_len_cons in *. cbn [make_cols] in Hm. rewrite i32_small in Hm by (unfold in_i32; lia).
    replace (Z.of_nat o + cd_len d) with (Z.of_nat (o + Z.to_nat (cd_len d))) in Hm by lia.
    destruct (make_cols tab_name ds _) as [cs sz] eqn:E. injection Hm as <- <-.
    destruct (IH _ _ _ E ltac:(lia)) as (-> & Q2 & Q3 & Q4 & Q5). rewrite lens_cons, !fmap_cons. cbn [cm_len cm_name].
    split_and!; [lia|lia| |by rewrite Q4|].
    + constructor; [|done]. split_and!; cbn [cm_len cm_offset]; lia.
    + intros data Hl. rewrite fmap_cons. cbn [concat]. rewrite Q5 by lia. unfold slice. cbn [cm_len cm_offset]. rewrite Nat2Z.id.
      unfold mem_read. rewrite <- (take_drop (Z.to_nat (cd_len d)) (drop o data)) at 2. f_equal.
      by rewrite drop_drop.
Qed.

Lemma in_record_subset size cols cs : Forall (in_record size) cols -> cs ⊆ cols -> Forall (in_record size) cs.
Proof. rewrite !Forall_forall. set_solver. Qed.

(** C22: in a table whose columns have lengths that are not negative, and less than
    2^31 bytes together, the columns tile the record: a record of the size
    [create_table] gives the file is the concatenation of its columns.  The key of an
    index on any of the columns is made without touching memory outside the record or
    the key, and is the concatenation of the bytes of these columns. *)
Theorem index_key_ok tab_name defs cols size data ics :
  Forall (fun d => 0 <= cd_len d) defs -> Z.of_nat (defs_len defs) < 2 ^ 31 ->
  make_cols tab_name defs 0 = (cols, size) -> Z.of_nat (length data) = size ->
  ics ⊆ cols -> Z.of_nat (lens ics) < 2 ^ 31 ->
  concat (slice data <$> cols) = data /\ size = Z.of_nat (defs_len defs) /\
  make_key (IxManager.tot_len ics) data ics = Ok (concat (slice data <$> ics)) /\
  Z.of_nat (length (concat (slice data <$> ics))) = IxManager.tot_len ics.
Proof.
  intros Hd Hs Hm Hl Hsub Hi. destruct (make_cols_ok tab_name defs Hd 0 cols size Hm Hs) as (Q1 & _ & Q3 & _ & Q5).
  split_and!; [by apply Q5|done|..]; apply make_key_ok; try done; rewrite Hl; by eapply in_record_subset.
Qed.

(** ** What the operations leave alone *)
Section laws.
Context {D R C : Type} `{Disk D} `{Files D} `{Shell D} `{Replacer R}.
Context `{TxnContext C} `{HasTxn C} `{StmtContext C}.
Context (junk : bytes) (junk_rid : Rid).
#[local] Abbreviation t := (t D R C).
Implicit Types s : t.

(** An operation that changes neither the metadata nor the handles of indexes. *)
Definition quiet {A} (m : M t A) : Prop := forall s, db_ (m s).1 = db_ s /\ ihs_ (m s).1 = ihs_ s.

Lemma quiet_run {A} (m : M t A) s s' r : quiet m -> m s = (s', r) -> db_ s' = db_ s /\ ihs_ s' = ihs_ s.
Proof. intros Hq Hr. specialize (Hq s). by rewrite Hr in Hq. Qed.

Lemma quiet_ret {A} (a : A) : quiet (mret a).
Proof. by intros s. Qed.
Lemma quiet_throw {A} e : quiet (throw (A := A) e).
Proof. by intros s. Qed.
Lemma quiet_get : quiet get.
Proof. by intros s. Qed.
Lemma quiet_gets {A} (f : t -> A) : quiet (gets f).
Proof. by intros s. Qed.
Lemma quiet_bind {A B} (m : M t A) (k : A -> M t B) : quiet m -> (forall a, quiet (k a)) -> quiet (m ≫= k).
Proof.
  intros Hm Hk s. unfold mbind, M_bind. pose proof (Hm s) as [E1 E2]. destruct (m s) as [s1 [a|e]]; [|done].
  destruct (Hk a s1) as [E3 E4]. simpl in *. by rewrite E3, E4.
Qed.
Lemma quiet_pool {A} (m : M (BufferPool.t D R) A) : quiet (on_pool m).
Proof. intros s. unfold on_pool, zoom. by destruct (m (bpm s)). Qed.
Lemma quiet_disk {A} (m : M D A) : quiet (on_disk m).
Proof. apply quiet_pool. Qed.
Lemma quiet_ctx {A} (m : M C A) : quiet (on_ctx m).
Proof. intros s. unfold on_ctx, zoom. by destruct (m (ctx s)). Qed.
Lemma quiet_set_ctx (f : t -> C) : quiet (modify (fun s => set_ctx (f s) s)).
Proof. by intros s. Qed.
Lemma quiet_lift {A} (r : res A) : quiet (lift r).
Proof. by destruct r. Qed.
Lemma quiet_when b (m : M t unit) : quiet m -> quiet (whenM b m).
Proof. intros Hm. destruct b; [done|apply quiet_ret]. Qed.
Lemma quiet_table {A} name (m : M (RmFileHandle.t D R C) A) : quiet (on_table name m).
Proof. intros s. unfold on_table. destruct (fhs_ s !! name) as [[f h]|]; [|done]. by destruct (m _). Qed.
Lemma quiet_local {A} ih (m : M (IxIndexHandle.t D R C) A) : quiet (on_local ih m).
Proof. intros s. unfold on_local. by destruct (m _). Qed.
Lemma quiet_find_table name : quiet (find_table name).
Proof. intros s. unfold find_table. msimpl. by destruct (fhs_ s !! name). Qed.
Lemma quiet_find_index name : quiet (find_index name).
Proof. intros s. unfold find_index. msimpl. by destruct (ihs_ s !! name). Qed.
Lemma quiet_assert b : quiet (assertM b).
Proof. by destruct b. Qed.

Create HintDb quiet.
#[local] Hint Resolve quiet_ret quiet_throw quiet_get quiet_gets quiet_pool quiet_disk quiet_ctx quiet_set_ctx
  quiet_lift quiet_when quiet_table quiet_local quiet_find_table quiet_find_index quiet_assert : quiet.
#[local] Hint Extern 3 (quiet (_ ≫= _)) => apply quiet_bind; [|intros ?] : quiet.
#[local] Hint Extern 3 (quiet (if ?b then _ else _)) => destruct b : quiet.

Lemma quiet_lock_table name : quiet (lock_table name).
Proof. unfold lock_table. auto 10 with quiet. Qed.
Lemma quiet_flush_meta : quiet flush_meta.
Proof. unfold flush_meta. auto with quiet. Qed.
Lemma quiet_log_index make ty tab cols : quiet (log_index junk_rid make ty tab cols).
Proof. unfold log_index, upd_txn. auto 10 with quiet. Qed.
Lemma quiet_index_records fuel : forall tab cols len context ih rid,
  quiet (index_records fuel tab cols len context ih rid).
Proof. induction fuel as [|n IH]; intros; simpl; auto 20 with quiet. Qed.
#[local] Hint Resolve quiet_lock_table quiet_flush_meta quiet_log_index quiet_index_records : quiet.

(** ** Names of columns *)

Lemma find_col_name l n i c : find_col l n = Some i -> l !! i = Some c -> cm_name c = n.
Proof.
  revert i. induction l as [|x l IH]; intros i Hf Hl; [done|]. simpl in Hf. case_bool_decide as E.
  - simplify_eq/=. done.
  - destruct (find_col l n) as [j|] eqn:Ej; [|done]. simplify_eq/=. by eapply IH.
Qed.

Lemma get_cols_names tab ns cs : get_cols tab ns = Ok cs -> cm_name <$> cs = ns.
Proof.
  revert cs. induction ns as [|n ns IH]; intros cs Hc; simpl in Hc; cbv [mbind res_bind] in Hc; [by simplify_eq|].
  unfold get_col in Hc. destruct (find_col (tm_cols tab) n) as [i|] eqn:Ei; [|done].
  destruct (tm_cols tab !! i) as [c|] eqn:Ec; [|done]. destruct (get_cols tab ns) as [cs'|]; [|done].
  simplify_eq. rewrite fmap_cons, (IH _ eq_refl). f_equal. by eapply find_col_name.
Qed.

Lemma find_col_set l i b n : find_col (alter (set_index b) i l) n = find_col l n.
Proof.
  revert i. induction l as [|x l IH]; intros [|i]; try done.
  change (alter (set_index b) (S i) (x :: l)) with (x :: alter (set_index b) i l).
  cbn [find_col]. by rewrite IH.
Qed.

Lemma names_match_self cs : names_match cs (cm_name <$> cs) = Ok true.
Proof. induction cs as [|c cs IH]; [done|]. rewrite fmap_cons. simpl. by rewrite bool_decide_true. Qed.

Lemma find_index_last l m ns cs :
  SmMeta.find_index l ns = Ok None -> im_cols m = cs -> cm_name <$> cs = ns -> same_num m ns = true ->
  SmMeta.find_index (l ++ [m]) ns = Ok (Some (length l)).
Proof.
  intros Hl <- <- Hn. induction l as [|i l IH]; simpl in *; cbv [mbind res_bind] in *.
  - by rewrite Hn, names_match_self.
  - destruct (if same_num i _ then _ else _) as [[]|] ; [done| |done].
    destruct (SmMeta.find_index l _) as [[]|]; [done| |done]. by rewrite IH.
Qed.

(** ** Creating and dropping an index *)

Lemma lift_inv {A} (r : res A) s s' a : lift r s = (s', Ok a) -> s' = s /\ r = Ok a.
Proof. destruct r; simpl; [by intros [= -> ->]|done]. Qed.

Lemma gets_inv {A} (f : t -> A) s s' a : gets f s = (s', Ok a) -> s' = s /\ f s = a.
Proof. by intros [= -> ->]. Qed.

Lemma modify_inv (f : t -> t) s s' u : modify f s = (s', Ok u) -> s' = f s.
Proof. by intros [= ->]. Qed.

Lemma assert_inv b s s' u : assertM b s = (s', Ok u) -> s' = s /\ b = true.
Proof. destruct b; [by intros [= ->]|done]. Qed.

Lemma find_index_inv name s s' x : find_index name s = (s', Ok x) -> s' = s /\ ihs_ s !! name = Some x.
Proof. unfold find_index. msimpl. destruct (ihs_ s !! name); [by intros [= -> ->]|done]. Qed.

Lemma TabMeta_copy_id tab : TabMeta_copy tab = tab.
Proof. by destruct tab. Qed.

Lemma tab_at_inv name s s' x :
  tab_at name s = (s', Ok x) ->
  forall tab, db_tabs (db_ s) !! name = Some tab -> x = tab /\ db_ s' = db_ s /\ ihs_ s' = ihs_ s.
Proof. intros Hr tab Ht. unfold tab_at in Hr. msimpl. rewrite Ht in Hr. by simplify_eq. Qed.

(** Run the steps backwards: what each one says, or that it is quiet. *)
#[local] Ltac sm_step :=
  match goal with
  | Q : lift _ _ = (_, Ok _) |- _ => apply lift_inv in Q as [-> Q]
  | Q : gets _ _ = (_, Ok _) |- _ => apply gets_inv in Q as [-> <-]
  | Q : get _ = (_, Ok _) |- _ => injection Q as -> ->
  | Q : mret _ _ = (_, Ok _) |- _ => injection Q as -> ->
  | Q : assertM _ _ = (_, Ok _) |- _ => apply assert_inv in Q as [-> Q%bool_decide_eq_true]
  | Q : find_index _ _ = (_, Ok _) |- _ => apply find_index_inv in Q as [-> Q]
  | Q : modify _ _ = (_, Ok _) |- _ => apply modify_inv in Q as ->
  | Q : upd_db _ _ = (_, Ok _) |- _ => apply modify_inv in Q as ->
  | Q : ?m _ = (_, Ok _) |- _ =>
      let Q' := fresh in assert (Q' : quiet m) by auto with quiet;
      let E1 := fresh "Ed" in let E2 := fresh "Ei" in
      apply (quiet_run _ _ _ _ Q') in Q as [E1 E2]; clear Q'
  end.

(** A branch that throws was not taken. *)
#[local] Ltac sm_branch :=
  match goal with
  | Q : (if ?b then throw _ else _) _ = (_, Ok _) |- _ =>
      let E := fresh "Eb" in destruct b eqn:E; [discriminate Q|]
  end.
#[local] Ltac sm_run := repeat (minv; first [sm_branch | sm_step]).

Lemma create_index_effect tab_name names context s s1 u :
  create_index junk junk_rid tab_name names context s = (s1, Ok u) ->
  exists tab cols m tab' h,
    db_tabs (db_ s) !! tab_name = Some tab /\ is_index tab names = Ok false /\ get_cols tab names = Ok cols /\
    m = mkIndexMeta tab_name (IxManager.tot_len cols) (i32 (Z.of_nat (length names))) cols /\
    flag_single names true (set_indexes (tm_indexes tab ++ [m]) tab) = Ok tab' /\
    db_ s1 = SetTabMeta tab_name tab' (db_ s) /\
    ihs_ s !! index_name tab_name cols = None /\ ihs_ s1 = <[index_name tab_name cols := h]> (ihs_ s).
Proof.
  unfold create_index. intros Hr. cbv zeta in Hr. sm_run. cbn in *. subst.
  unfold get_table in *. destruct (db_tabs (db_ s) !! tab_name) as [tab|] eqn:Et; [|discriminate Hm0].
  injection Hm0 as <-. rewrite TabMeta_copy_id in *. eexists tab, _, _, _, _.
  split_and!; try done; try congruence. rewrite Ei. f_equal. congruence.
Qed.

Lemma drop_index_effect tab_name names context s s1 u tab :
  drop_index junk junk_rid tab_name names context s = (s1, Ok u) -> db_tabs (db_ s) !! tab_name = Some tab ->
  exists cols i m tab',
    get_cols tab names = Ok cols /\ get_index_meta tab names = Ok (i, m) /\
    flag_single names false (set_indexes (delete i (tm_indexes tab)) tab) = Ok tab' /\
    db_ s1 = SetTabMeta tab_name tab' (db_ s) /\ ihs_ s1 = delete (index_name tab_name cols) (ihs_ s).
Proof.
  intros Hr Ht. unfold drop_index, drop_index_cols in Hr. cbv zeta in Hr. sm_run. cbn in *. subst.
  repeat match goal with
  | Q : tab_at _ ?st = _ |- _ =>
      let E := fresh in assert (E : db_tabs (db_ st) !! tab_name = Some tab) by congruence;
      destruct (tab_at_inv _ _ _ _ Q _ E) as (-> & ? & ?); clear Q E
  end. cbn in *.
  rewrite (get_cols_names _ _ _ Hm0) in *. destruct a8 as [i m]. exists a0, i, m, a10.
  assert (db_ s8 = db_ s) as E by congruence. rewrite E in *.
  split_and!; try done; [|congruence].
  rewrite Ed, Ed0. unfold SetTabMeta. simpl. by rewrite insert_insert_eq.
Qed.

Lemma set_flag_back (l : list ColMeta) i c : l !! i = Some c -> cm_index c = false ->
  alter (set_index false) i (alter (set_index true) i l) = l.
Proof.
  intros Hc Hf. apply list_eq. intros j.
  destruct (decide (i = j)) as [<-|Hne]; [|by rewrite !list_lookup_alter_ne].
  rewrite !list_lookup_alter_eq, Hc. destruct c. simpl in *. by subst.
Qed.

Lemma delete_last {A} (l : list A) x : delete (length l) (l ++ [x]) = l.
Proof. induction l as [|y l IH]; [done|]. simpl. f_equal. exact IH. Qed.

Lemma flag_indexes names b tab tab' : flag_single names b tab = Ok tab' -> tm_indexes tab' = tm_indexes tab.
Proof.
  destruct names as [|n [|]]; simpl; try (by intros [= <-]). unfold set_col_index.
  destruct (find_col (tm_cols tab) n); [by intros [= <-]|done].
Qed.

(** The columns of an index that are not marked yet. *)
Definition unmarked (names : list string) (tab : TabMeta) : Prop :=
  forall n c, names = [n] -> get_col tab n = Ok c -> cm_index c = false.

Lemma flag_back names l tab t1 t2 :
  flag_single names true (set_indexes l tab) = Ok t1 -> unmarked names tab ->
  flag_single names false (set_indexes (tm_indexes tab) t1) = Ok t2 -> t2 = tab.
Proof.
  destruct names as [|n [|n' names]]; simpl; try (intros [= <-] _ [= <-]; by destruct tab).
  unfold set_col_index. cbn [set_indexes tm_cols tm_name tm_indexes].
  destruct (find_col (tm_cols tab) n) as [i|] eqn:E; [|done]. intros [= <-] Hu. cbn [tm_cols tm_name tm_indexes].
  rewrite find_col_set, E. intros [= <-].
  assert (exists c, tm_cols tab !! i = Some c) as [c Hc].
  { clear Hu. revert i E. induction (tm_cols tab) as [|x cols IH]; intros i E; [done|]. simpl in E.
    case_bool_decide; [simplify_eq; by exists x|]. destruct (find_col cols n) as [j|]; [|done].
    simplify_eq/=. by apply IH. }
  rewrite (set_flag_back _ _ c Hc); [by destruct tab|]. apply (Hu n c); [done|].
  unfold get_col. by rewrite E, Hc.
Qed.

Lemma create_drop_restores tab_name names c c' s s1 s2 u1 u2 :
  create_index junk junk_rid tab_name names c s = (s1, Ok u1) ->
  drop_index junk junk_rid tab_name names c' s1 = (s2, Ok u2) ->
  Z.of_nat (length names) < 2 ^ 31 ->
  (forall tab, db_tabs (db_ s) !! tab_name = Some tab -> unmarked names tab) ->
  (exists t1, db_tabs (db_ s1) !! tab_name = Some t1 /\ is_index t1 names = Ok true) /\
  db_ s2 = db_ s /\ ihs_ s2 = ihs_ s.
Proof.
  intros Hc Hd Hlen Hu. apply create_index_effect in Hc as (tab & cols & m & t1 & h & Ht & Hni & Hcols & Hm & Hf & Ed & Hn & Ei).
  specialize (Hu _ Ht).
  assert (Ht1 : db_tabs (db_ s1) !! tab_name = Some t1) by (rewrite Ed; apply lookup_insert_eq).
  destruct (drop_index_effect _ _ _ _ _ _ _ Hd Ht1) as (cols' & i & m' & t2 & Hcols' & Hmeta & Hf' & Ed' & Ei').
  apply get_cols_names in Hcols as En, Hcols' as En'.
  pose proof (flag_indexes _ _ _ _ Hf) as Ex. cbn in Ex.
  assert (Hfi : SmMeta.find_index (tm_indexes t1) names = Ok (Some (length (tm_indexes tab)))).
  { rewrite Ex. apply (find_index_last _ _ _ cols).
    - unfold is_index in Hni. cbv [mbind res_bind] in Hni. by destruct (SmMeta.find_index _ _) as [[]|].
    - by subst m.
    - done.
    - subst m. unfold same_num. cbn [im_col_num]. rewrite i32_small by (unfold in_i32; lia).
      rewrite Z.mod_small by lia. apply Z.eqb_refl. }
  unfold get_index_meta in Hmeta. cbv [mbind res_bind] in Hmeta. rewrite Hfi in Hmeta.
  destruct (tm_indexes t1 !! length (tm_indexes tab)) as [m0|] eqn:E0; [|done]. injection Hmeta as <- <-.
  rewrite Ex, delete_last in Hf'. rewrite (flag_back _ _ _ _ _ Hf Hu Hf') in Ed'. split_and!.
  - exists t1. split; [done|]. unfold is_index. cbv [mbind res_bind]. by rewrite Hfi.
  - rewrite Ed', Ed. unfold SetTabMeta. simpl. rewrite insert_insert_eq, insert_id by done. by destruct (db_ s).
  - rewrite Ei', Ei. unfold index_name, IxManager.get_index_name_cols. rewrite En, En'.
    unfold index_name, IxManager.get_index_name_cols in Hn. rewrite En in Hn. by apply delete_insert_id.
Qed.

(** ** Comparing keys with [strcmp] *)

Lemma strcmp_prefix p x y : Forall (fun z => z <> 0) p -> strcmp_eq (p ++ 0 :: x) (p ++ 0 :: y) = Ok true.
Proof.
  induction 1 as [|z p Hz _ IH]; [done|]. simpl. by rewrite Z.eqb_refl, (proj2 (Z.eqb_neq _ _) Hz).
Qed.

(** What the keys of two records are, to [strcmp]. *)
Definition same_c_string (rec record : RmRecord) (index : IndexMeta) : Prop :=
  exists p x y, Forall (fun z => z <> 0) p /\
    make_key (im_col_tot_len index) (default [] (rec_data rec)) (im_cols index) = Ok (p ++ 0 :: x) /\
    make_key (im_col_tot_len index) (default [] (rec_data record)) (im_cols index) = Ok (p ++ 0 :: y).

Lemma forM_skip {A} (l : list A) (f : A -> M t unit) s :
  Forall (fun x => f x s = (s, Ok tt)) l -> forM l f s = (s, Ok tt).
Proof. induction 1 as [|x l Hx _ IH]; [done|]. simpl. by rewrite (bind_ok _ _ _ _ _ Hx). Qed.

(** ** Properties *)

(** C21: creating an index and dropping it again, when both return normally, restores the
    metadata of the database, the marks on the columns included, and the map of open
    indexes; in between the table has the index. *)
Theorem create_drop_index tab_name names c c' s s1 s2 :
  create_index junk junk_rid tab_name names c s = (s1, Ok tt) ->
  drop_index junk junk_rid tab_name names c' s1 = (s2, Ok tt) ->
  Z.of_nat (length names) < 2 ^ 31 ->
  (forall tab, db_tabs (db_ s) !! tab_name = Some tab -> unmarked names tab) ->
  (exists t1, db_tabs (db_ s1) !! tab_name = Some t1 /\ is_index t1 names = Ok true) /\
  db_ s2 = db_ s /\ ihs_ s2 = ihs_ s.
Proof. apply create_drop_restores. Qed.

(** Rolling back an update compares the keys of the old and the new record with
    [strcmp], which stops at a zero byte: an index whose two keys agree up to a zero
    byte is left as it is, though the keys may differ after it; if all indexes of the
    table are such, only the record is put back. *)
Theorem rollback_update_skips tab_name rid record context s tab :
  db_tabs (db_ s) !! tab_name = Some tab ->
  (forall s1 rec, on_table tab_name (RmFileHandle.get_record rid context) s = (s1, Ok rec) ->
     Forall (same_c_string rec record) (tm_indexes tab)) ->
  rollback_update tab_name rid record context s =
    (_ ← on_table tab_name (RmFileHandle.get_record rid context);
     whenM context (on_ctx cx_add_idx_log);;
     on_table tab_name (RmFileHandle.update_record rid (default [] (rec_data record)) context)) s.
Proof.
  intros Ht Hsame. unfold rollback_update. rewrite (bind_ok _ _ s s (db_ s)) by done.
  rewrite (bind_ok _ _ s s (TabMeta_copy tab)) by (unfold get_table; by rewrite Ht).
  apply bind_same. intros s1 rec E.
  rewrite (bind_ok _ _ s1 s1 tt); [done|]. apply forM_skip. cbn [TabMeta_copy tm_indexes].
  eapply Forall_impl; [exact (Hsame _ _ E)|]. intros index (p & x & y & Hp & E1 & E2). cbn beta.
  by rewrite E1, (bind_ok _ _ s1 s1 _ eq_refl), E2, (bind_ok _ _ s1 s1 _ eq_refl), strcmp_prefix.
Qed.
End laws.

(** ** An example, over the in-memory file system *)

#[export] Instance demo_Shell : Shell (DiskManager.t MemFs.t) := {
  sh_is_dir p d := (d, Ok (bool_decide (p ∈ MemFs.dirs (DiskManager.os d))));
  sh_system _ d := (d, Ok 0);
  sh_chdir _ d := (d, Ok 0);
  sh_read_file p d :=
    (d, Ok (i ← MemFs.path (DiskManager.os d) p; Some (bytes_str (MemFs.data (DiskManager.os d) i))));
  sh_write_file p text d :=
    let o := DiskManager.os d in
    let i := match MemFs.path o p with Some i => i | None => MemFs.new_ino o end in
    (DiskManager.set_os (MemFs.mk (<[i := str_bytes text]> (MemFs.inodes o)) (<[p := i]> (MemFs.names o))
                           (MemFs.dirs o) (MemFs.fds o)) d, Ok tt);
}.

Definition demo_buffer : Z := 30000.
#[local] Abbreviation demo_t := (t (DiskManager.t MemFs.t) LRUReplacer.t (Context.t (DiskManager.t MemFs.t))).
#[export] Instance demo_TxnContext : TxnContext (Context.t (DiskManager.t MemFs.t)) := Context.context_TxnContext demo_buffer.
#[export] Instance demo_StmtContext : StmtContext (Context.t (DiskManager.t MemFs.t)) := Context.context_StmtContext demo_buffer.

Definition demo_disk : DiskManager.t MemFs.t := DiskManager.make MemFs.empty.
Definition demo_ctx : Context.t (DiskManager.t MemFs.t) :=
  Context.make LockManager.make (LogManager.make demo_buffer 0 DiskManager.demo) LockManager.t0 [] 0.
Definition demo_start : demo_t :=
  mk (mkDbMeta "db" ∅) ∅ ∅ (BufferPool.make 6 (fun _ => 0) demo_disk (LRUReplacer.make 6)) demo_ctx.

(** A table of an integer and a string, with one record. *)
Definition demo_row (n : Z) : bytes := le_encode 4 n ++ [97; 98; 99; 0].
Definition demo_setup : M demo_t unit :=
  create_table "t" [mkColDef "a" TYPE_INT 4; mkColDef "b" TYPE_STRING 4];;
  _ ← on_table "t" (RmFileHandle.insert_record (demo_row 256) false);
  mret tt.
Definition demo : demo_t := (demo_setup demo_start).1.
Definition demo_junk : bytes := replicate 4096 170.

Lemma index_key_ok_witness :
  let data := demo_row 256 in
  let ics := [mkColMeta "t" "b" TYPE_STRING 4 4 false; mkColMeta "t" "a" TYPE_INT 4 0 false] in
  make_key 8 data ics = Ok [97; 98; 99; 0; 0; 1; 0; 0] /\ IxManager.tot_len ics = 8.
Proof.
  destruct (index_key_ok "t" [mkColDef "a" TYPE_INT 4; mkColDef "b" TYPE_STRING 4]
    [mkColMeta "t" "a" TYPE_INT 4 0 false; mkColMeta "t" "b" TYPE_STRING 4 4 false] 8 (demo_row 256)
    [mkColMeta "t" "b" TYPE_STRING 4 4 false; mkColMeta "t" "a" TYPE_INT 4 0 false])
    as (_ & _ & Q & _).
  - constructor; [discriminate|]. constructor; [discriminate|constructor].
  - vm_compute. reflexivity.
  - vm_compute. reflexivity.
  - vm_compute. reflexivity.
  - intros x Hx. set_solver.
  - vm_compute. reflexivity.
  - split; [exact Q|vm_compute; reflexivity].
Defined.

Lemma create_drop_index_witness :
  match create_index demo_junk (mkRid 0 0) "t" ["a"] true demo with
  | (s1, Ok _) =>
      match drop_index demo_junk (mkRid 0 0) "t" ["a"] true s1 with
      | (s2, Ok _) => db_ s2 = db_ demo /\ ihs_ s2 = ∅
      | _ => False
      end
  | _ => False
  end.
Proof.
  destruct (create_index demo_junk (mkRid 0 0) "t" ["a"] true demo) as [s1 [[]|e]] eqn:E1.
  - destruct (drop_index demo_junk (mkRid 0 0) "t" ["a"] true s1) as [s2 [[]|e]] eqn:E2.
    + destruct (create_drop_index demo_junk (mkRid 0 0) "t" ["a"] true true demo s1 s2 E1 E2) as (_ & Q1 & Q2).
      * reflexivity.
      * intros tab Ht n c Hn Hc. injection Hn as <-. clear E1 E2.
        assert (E : db_tabs (db_ demo) !! "t" = Some (mkTabMeta "t"
          [mkColMeta "t" "a" TYPE_INT 4 0 false; mkColMeta "t" "b" TYPE_STRING 4 4 false] []))
          by (vm_compute; reflexivity).
        rewrite E in Ht. injection Ht as <-. cbv in Hc. injection Hc as <-. reflexivity.
      * split; [exact Q1|]. rewrite Q2. vm_compute. reflexivity.
    + exfalso. assert (E : (drop_index demo_junk (mkRid 0 0) "t" ["a"] true
        (create_index demo_junk (mkRid 0 0) "t" ["a"] true demo).1).2 = Ok tt) by (vm_compute; reflexivity).
      rewrite E1 in E. cbn [fst] in E. rewrite E2 in E. discriminate E.
  - apply (f_equal (fun r => match r.2 with Ok _ => true | _ => false end)) in E1.
    cbn [snd] in E1. vm_compute in E1. discriminate E1.
Defined.

(** The table with an index on its first column, whose record, with 256 there, was
    updated from one with 512. *)
Definition demo_indexed : demo_t := (create_index demo_junk (mkRid 0 0) "t" ["a"] false demo).1.
Definition demo_old : RmRecord := RmRecord_new 8 (demo_row 512).
Definition demo_rid : Rid := mkRid 1 0.
Definition demo_rolled : demo_t * res unit := rollback_update "t" demo_rid demo_old false demo_indexed.

Lemma demo_get : (on_table "t" (RmFileHandle.get_record demo_rid false) demo_indexed).2 =
  Ok (RmRecord_new 8 (demo_row 256)).
Proof. vm_compute. reflexivity. Qed.

(** The index still has the key 256 and not 512, and the record has 512. *)
Lemma rollback_update_skips_witness :
  demo_rolled.2 = Ok tt /\
  (on_index "t_a.idx" (IxIndexHandle.get_value (le_encode 4 256)) demo_rolled.1).2 = Ok (true, [demo_rid]) /\
  (on_index "t_a.idx" (IxIndexHandle.get_value (le_encode 4 512)) demo_rolled.1).2 = Ok (false, []) /\
  (on_table "t" (RmFileHandle.get_record demo_rid false) demo_rolled.1).2 = Ok demo_old.
Proof.
  unfold demo_rolled.
  rewrite (rollback_update_skips "t" demo_rid demo_old false demo_indexed
    (mkTabMeta "t" [mkColMeta "t" "a" TYPE_INT 4 0 true; mkColMeta "t" "b" TYPE_STRING 4 4 false]
       [mkIndexMeta "t" 4 1 [mkColMeta "t" "a" TYPE_INT 4 0 false]])).
  - vm_compute. auto.
  - vm_compute. reflexivity.
  - intros s1 rec E. apply (f_equal snd) in E. cbn [snd] in E. rewrite demo_get in E. injection E as <-.
    constructor; [|constructor]. exists [], [1; 0; 0], [2; 0; 0].
    split; [constructor|]. split; vm_compute; reflexivity.
Defined.
End SmManager.
