(* ===== verification/TransactionManager.v ===== *)
(** * The transaction manager

    The class [TransactionManager] of [transaction/transaction_manager.h] and
    [transaction_manager.cpp]: beginning, committing and aborting a transaction. *)

From S2P Require Import Prelude Common Posix Replacer Disk Buffer RmDefs Log Transaction Record SmMeta IxDefs IxNode IxHandle IxManager SmManager.

Inductive ConcurrencyMode := TWO_PHASE_LOCKING | BASIC_TO.

Module TransactionManager.

Section ops.
Context {D R C : Type} `{Disk D} `{Files D} `{Shell D} `{Replacer R}.
Context `{TxnContext C} `{HasTxn C} `{StmtContext C}.
Context (junk : bytes) (junk_rid : Rid).
#[local] Abbreviation sm := (SmManager.t D R C).

(** The manager.  [txn_map] maps an identifier to the pointer of the transaction that
    has it, and is kept as the set of the identifiers.  The transaction, the lock
    manager and the log manager a call is given are those of the context of [sm_]. *)
Record t := mk {
  concurrency_mode_ : ConcurrencyMode;
  next_txn_id_ : Z;
  next_timestamp_ : Z;
  txn_map : gset Z;
  sm_ : sm;
}.

(** The constructor. *)
Definition make (s : sm) (concurrency_mode : ConcurrencyMode) : t := mk concurrency_mode 0 0 ∅ s.

Definition set_sm (x : sm) (s : t) : t := mk (concurrency_mode_ s) (next_txn_id_ s) (next_timestamp_ s) (txn_map s) x.
Definition set_map (m : gset Z) (s : t) : t := mk (concurrency_mode_ s) (next_txn_id_ s) (next_timestamp_ s) m (sm_ s).
Definition set_next (n : Z) (s : t) : t := mk (concurrency_mode_ s) n (next_timestamp_ s) (txn_map s) (sm_ s).
Definition set_concurrency_mode (m : ConcurrencyMode) (s : t) : t :=
  mk m (next_txn_id_ s) (next_timestamp_ s) (txn_map s) (sm_ s).
Definition on_sm {A} (m : M sm A) : M t A := zoom sm_ set_sm m.
Definition on_ctx {A} (m : M C A) : M t A := on_sm (SmManager.on_ctx m).
Definition on_pool {A} (m : M (BufferPool.t D R) A) : M t A := on_sm (SmManager.on_pool m).
Definition txn : M t Txn.t := gets (fun s => cx_txn (SmManager.ctx (sm_ s))).
Definition set_txn (x : Txn.t) : M t unit :=
  modify (fun s => set_sm (SmManager.set_ctx (cx_set_txn x (SmManager.ctx (sm_ s))) (sm_ s)) s).
Definition upd_txn (f : Txn.t -> Txn.t) : M t unit := x ← txn; set_txn (f x).

(** A record of the log; its LSN becomes the last of the transaction when [chain]. *)
Definition add_log (chain : bool) (make : Z -> Z -> log_record) : M t unit :=
  x ← txn;
  lsn ← on_ctx (cx_add_log (make (Txn.txn_id_ x) (Txn.prev_lsn_ x)));
  whenM chain (upd_txn (Txn.set_prev_lsn lsn)).

(** [get_transaction]: whether there is one, as all that is known of the pointer; the
    thread it belongs to is not modelled. *)
Definition get_transaction (txn_id : Z) : M t bool :=
  if decide (txn_id = INVALID_TXN_ID) then mret false else
  s ← get; assertM (bool_decide (txn_id ∈ txn_map s));; mret true.

(** [is_null] tells that no transaction is given. *)
Definition begin (junk_mode : bool) (junk_ts : Z) (is_null : bool) : M t Z :=
  (if is_null : bool then
     s ← get;
     set_txn (Txn.set_state DEFAULT (Txn.make junk_mode junk_ts (next_txn_id_ s) SERIALIZABLE));;
     modify (set_next (i32 (next_txn_id_ s + 1)))
   else mret tt);;
  add_log true (fun id prev => LBase (BeginLogRecord id prev));;
  x ← txn;
  modify (fun s => set_map ({[Txn.txn_id_ x]} ∪ txn_map s) s);;
  mret (Txn.txn_id_ x).

Definition add_idx_log : M t unit := on_ctx cx_add_idx_log.

(** The loop [while (pin_count-- && unpin_page(page_id, true))]; counts start at 1. *)
Fixpoint unpin_times (n : nat) (page_id : PageId) : M t unit :=
  match n with
  | O => mret tt
  | S n' => b ← on_pool (BufferPool.unpin_page page_id true); if b : bool then unpin_times n' page_id else mret tt
  end.
(** The pages come in the order of [map_to_list]; the map of the code orders them with
    [PageId::operator<]. *)
Definition unpin_pages : M t unit :=
  x ← txn;
  forM (map_to_list (Txn.page_pins_ x)) (fun pair =>
    (if pair.2 <? 0 then throw Stuck else unpin_times (Z.to_nat pair.2) pair.1);;
    _ ← on_pool (BufferPool.flush_page pair.1);
    mret tt);;
  upd_txn Txn.clear_page_pins.

(** The locks are released in the order of [elements]; the code does not fix it. *)
Definition release_locks : M t unit :=
  x ← txn;
  forM (elements (Txn.lock_set_ x)) (fun i => _ ← on_ctx (cx_unlock i); mret tt);;
  upd_txn (Txn.set_lock_set ∅).

Definition commit (is_null : bool) : M t unit :=
  if is_null then mret tt else
  add_idx_log;;
  add_log true (fun id prev => LBase (CommitLogRecord id prev));;
  add_log false (fun id prev => LBase (EndLogRecord id prev));;
  on_ctx cx_flush_log;;
  unpin_pages;;
  upd_txn (Txn.set_write_set []);;
  release_locks;;
  upd_txn (Txn.set_state COMMITTED).

Definition add_undo_log (undo_next : Z) : M t unit :=
  add_log true (fun id prev => LUndoNext (new_UndoNextLogRecord id prev undo_next)).

(** The index [std::lower_bound] gives in an ordered list. *)
Fixpoint lower_bound (l : list Z) (x : Z) : nat :=
  match l with
  | [] => O
  | y :: l' => if y <? x then S (lower_bound l' x) else O
  end.

Definition rollback (item : WriteRecord.t) : M sm unit :=
  match WriteRecord.wtype_ item with
  | WType.INSERT_TUPLE => SmManager.rollback_insert (WriteRecord.tab_name_ item) (WriteRecord.rid_ item) true
  | WType.UPDATE_TUPLE =>
      SmManager.rollback_update (WriteRecord.tab_name_ item) (WriteRecord.rid_ item) (WriteRecord.record_ item) true
  | WType.DELETE_TUPLE => SmManager.rollback_delete (WriteRecord.tab_name_ item) (WriteRecord.record_ item) true
  | WType.CREATE_INDEX =>
      SmManager.rollback_create_index junk junk_rid (WriteRecord.tab_name_ item) (WriteRecord.col_names_ item) true
  | WType.DROP_INDEX =>
      SmManager.rollback_drop_index junk junk_rid (WriteRecord.tab_name_ item) (WriteRecord.col_names_ item) true
  end.

(** The loop over the write set, from its end.  What is rolled back may add to it:
    the loop need not end, and [fuel] is a parameter. *)
Fixpoint abort_loop (fuel : nat) (lsns : list Z) : M t unit :=
  x ← txn;
  match last (Txn.write_set_ x) with
  | None => mret tt
  | Some item =>
      match fuel with
      | O => throw OutOfFuel
      | S fuel' =>
          upd_txn (Txn.set_write_set (removelast (Txn.write_set_ x)));;
          on_sm (rollback item);;
          let idx := lower_bound lsns (WriteRecord.lsn_ item) in
          let undo_next := match idx with O => -1 | S i => default 0 (lsns !! i) end in
          add_undo_log undo_next;;
          add_idx_log;;
          abort_loop fuel' lsns
      end
  end.

(** The warning about the order of the write set is left out. *)
Definition abort (fuel : nat) (is_null : bool) : M t unit :=
  if is_null then throw (InternalError "TransactionManager::abort transaction point is nullptr") else
  add_idx_log;;
  add_log true (fun id prev => LBase (AbortLogRecord id prev));;
  on_ctx cx_flush_log;;
  x ← txn;
  abort_loop fuel (WriteRecord.lsn_ <$> Txn.write_set_ x);;
  add_log false (fun id prev => LBase (EndLogRecord id prev));;
  on_ctx cx_flush_log;;
  unpin_pages;;
  release_locks;;
  upd_txn (Txn.set_state ABORTED).
End ops.
Arguments t D R C : clear implicits.

(** ** Rolling back the creation of an index *)
Section laws.
Context {D R C : Type} `{Disk D} `{Files D} `{Shell D} `{Replacer R} `{TxnLaws C}.
Context (junk : bytes) (junk_rid : Rid).
#[local] Abbreviation t := (t D R C).
Implicit Types s : t.

Definition sm_writes (x : SmManager.t D R C) : list WriteRecord.t := Txn.write_set_ (cx_txn (SmManager.ctx x)).
Definition writes s : list WriteRecord.t := sm_writes (sm_ s).
Definition on_index (w : WriteRecord.t) : Prop :=
  WriteRecord.wtype_ w = WType.CREATE_INDEX \/ WriteRecord.wtype_ w = WType.DROP_INDEX.

(** The creation or the removal of an index ends the write set. *)
Definition index_last (l : list WriteRecord.t) : Prop := exists w, last l = Some w /\ on_index w.

Lemma log_index_last make ty tab cols x x' u : ty = WType.CREATE_INDEX \/ ty = WType.DROP_INDEX ->
  SmManager.log_index junk_rid make ty tab cols x = (x', Ok u) -> index_last (sm_writes x').
Proof.
  intros Hty Hr. unfold SmManager.log_index, SmManager.upd_txn in Hr. minv.
  injection Hr as <- _. unfold sm_writes. cbn [SmManager.ctx SmManager.set_ctx]. rewrite cx_txn_set.
  eexists. cbn [Txn.append_write_record Txn.set_write_set Txn.write_set_]. rewrite last_snoc. by split.
Qed.

(** A branch that throws was not taken. *)
#[local] Ltac taken :=
  match goal with
  | Q : (if ?b then throw _ else _) _ = (_, Ok _) |- _ => destruct b; [discriminate Q|]
  end.

Lemma create_index_last tab cols x x' u :
  SmManager.create_index junk junk_rid tab cols true x = (x', Ok u) -> index_last (sm_writes x').
Proof.
  unfold SmManager.create_index. intros Hr. cbv zeta in Hr. repeat (minv; try taken).
  cbn [whenM] in Hr. eapply log_index_last; [|exact Hr]. by left.
Qed.

Lemma drop_index_last tab cols x x' u :
  SmManager.drop_index junk junk_rid tab cols true x = (x', Ok u) -> index_last (sm_writes x').
Proof.
  unfold SmManager.drop_index, SmManager.drop_index_cols. intros Hr. cbv zeta in Hr. repeat (minv; try taken).
  cbn [whenM] in Hr. eapply log_index_last; [|exact Hr]. by right.
Qed.

Lemma rollback_index_last w s s' u : on_index w ->
  on_sm (rollback junk junk_rid w) s = (s', Ok u) -> index_last (writes s').
Proof.
  intros Hw Hr. unfold on_sm, zoom in Hr. destruct (rollback junk junk_rid w (sm_ s)) as [x r] eqn:E.
  injection Hr as <- ->. unfold writes. cbn [sm_ set_sm]. unfold rollback in E.
  destruct Hw as [Hw|Hw]; rewrite Hw in E; [by eapply drop_index_last|by eapply create_index_last].
Qed.

Lemma on_ctx_writes {A} (m : M C A) s s' r :
  (forall c, Txn.write_set_ (cx_txn (m c).1) = Txn.write_set_ (cx_txn c)) -> on_ctx m s = (s', r) -> writes s' = writes s.
Proof.
  intros Hm Hr. unfold on_ctx, on_sm, SmManager.on_ctx, zoom in Hr. specialize (Hm (SmManager.ctx (sm_ s))).
  destruct (m (SmManager.ctx (sm_ s))) as [c a]. by injection Hr as <- _.
Qed.

Lemma upd_txn_writes (f : Txn.t -> Txn.t) s s' u : upd_txn f s = (s', Ok u) ->
  writes s' = Txn.write_set_ (f (cx_txn (SmManager.ctx (sm_ s)))).
Proof.
  intros Hr. unfold upd_txn, txn, set_txn in Hr. msimpl. injection Hr as <- _.
  unfold writes, sm_writes. cbn. by rewrite cx_txn_set.
Qed.

Lemma add_log_writes chain make s s' u : add_log chain make s = (s', Ok u) -> writes s' = writes s.
Proof.
  unfold add_log. intros Hr. minv. injection Hm as <- <-.
  apply (on_ctx_writes _ _ _ _ (cx_log_writes _)) in Hm0 as E. destruct chain; cbn [whenM] in Hr.
  - apply upd_txn_writes in Hr. rewrite Hr. exact E.
  - by injection Hr as <- _.
Qed.

Lemma abort_loop_last fuel lsns : forall s s' u, index_last (writes s) ->
  abort_loop junk junk_rid fuel lsns s <> (s', Ok u).
Proof.
  induction fuel as [|n IH]; intros s s' u (w & Hw & Hi) Hr; cbn [abort_loop] in Hr;
    apply bind_inv in Hr as (s1 & x & Hx & Hr); injection Hx as <- <-;
    unfold writes, sm_writes in Hw; rewrite Hw in Hr; [discriminate Hr|].
  cbv zeta in Hr. minv. unfold add_undo_log, add_idx_log in *.
  apply (rollback_index_last _ _ _ _ Hi) in Hm0. apply add_log_writes in Hm1 as E1.
  apply (on_ctx_writes _ _ _ _ cx_idx_writes) in Hm2 as E2.
  eapply IH; [|exact Hr]. by rewrite E2, E1.
Qed.

(** Aborting a transaction whose last write created or dropped an index never
    returns normally, however long it runs: the rollback of a creation is a removal
    that adds a write of its own to the write set, and its rollback a creation, which
    does too. *)
Theorem abort_index_never_ends fuel s s' u :
  index_last (writes s) -> abort junk junk_rid fuel false s <> (s', Ok u).
Proof.
  intros Hl Hr. unfold abort, add_idx_log in Hr. minv.
  apply (on_ctx_writes _ _ _ _ cx_idx_writes) in Hm as E1. apply add_log_writes in Hm0 as E2.
  apply (on_ctx_writes _ _ _ _ cx_flush_writes) in Hm1 as E3.
  injection Hm2 as -> <-. eapply abort_loop_last; [|exact Hm3]. by rewrite E3, E2, E1.
Qed.
End laws.

(** ** Committing *)
Section commit.
Context {D R E : Type} `{Disk D} `{Files D} `{Shell D} `{Replacer R} `{LogDisk E} (buffer_size : Z).
#[local] Instance commit_TxnContext : TxnContext (Context.t E) := Context.context_TxnContext buffer_size.
#[local] Instance commit_StmtContext : StmtContext (Context.t E) := Context.context_StmtContext buffer_size.
#[local] Abbreviation t := (t D R (Context.t E)).
Implicit Types s : t.

Definition ctx s : Context.t E := SmManager.ctx (sm_ s).

Lemma on_ctx_inv {A} (m : M (Context.t E) A) s s' a : on_ctx m s = (s', Ok a) -> m (ctx s) = (ctx s', Ok a).
Proof.
  intros Hr. unfold on_ctx, on_sm, SmManager.on_ctx, zoom in Hr. unfold ctx.
  destruct (m (SmManager.ctx (sm_ s))) as [c r]. by injection Hr as <- ->.
Qed.

Lemma upd_txn_inv (f : Txn.t -> Txn.t) s s' u : upd_txn f s = (s', Ok u) ->
  ctx s' = Context.set_txn (f (Context.txn_ (ctx s))) (ctx s).
Proof. intros Hr. unfold upd_txn, txn, set_txn in Hr. msimpl. by injection Hr as <- _. Qed.

Lemma alike_set_prev n (c : Context.t E) : Context.alike c (Context.set_txn (Txn.set_prev_lsn n (Context.txn_ c)) c).
Proof. by split_and!. Qed.

Lemma add_log_inv chain make s s' u : add_log chain make s = (s', Ok u) ->
  Context.alike (ctx s) (ctx s') /\
  forall ops g ns, LogManager.run buffer_size ops (Context.log_mgr_ (ctx s')) = (g, Ok ns) ->
    exists ns', LogManager.run buffer_size
      (LogManager.Add (make (Txn.txn_id_ (Context.txn_ (ctx s))) (Txn.prev_lsn_ (Context.txn_ (ctx s)))) :: ops)
      (Context.log_mgr_ (ctx s)) = (g, Ok ns').
Proof.
  unfold add_log. intros Hr. apply bind_inv in Hr as (s1 & x & Hx & Hr). injection Hx as <- <-.
  apply bind_inv in Hr as (s2 & n & Ha & Hr). apply on_ctx_inv in Ha. fold (ctx s) in Ha.
  assert (Hk : Context.alike (ctx s) (cx_add_log (make (Txn.txn_id_ (Context.txn_ (ctx s)))
    (Txn.prev_lsn_ (Context.txn_ (ctx s)))) (ctx s)).1) by apply Context.on_log_alike.
  rewrite Ha in Hk. cbn [fst] in Hk.
  assert (Hs : Context.alike (ctx s2) (ctx s') /\ Context.log_mgr_ (ctx s') = Context.log_mgr_ (ctx s2)).
  { destruct chain; cbn [whenM] in Hr; [apply upd_txn_inv in Hr as ->|injection Hr as <- _]; by split_and!. }
  destruct Hs as [Hs El]. split; [by eapply Context.alike_trans|].
  intros ops g ns Hn. rewrite El in Hn. eexists. exact (Context.add_log_run buffer_size _ _ _ _ _ _ _ Ha Hn).
Qed.

(** *** The locks *)

(** What [unlock] does to the lock table, which does not depend on the transaction. *)
Definition unlocked (i : LockDataId) (lk : LockManager.t) : LockManager.t :=
  match LockManager.lock_table_ lk !! i with
  | None => lk
  | Some x =>
      LockManager.mk
        (if decide (LockManager.mode x = LockManager.LS) then
           let m := <[i := LockManager.mkStatus (LockManager.shared_num x - 1) (LockManager.mode x)]>
                      (LockManager.lock_table_ lk) in
           if LockManager.shared_num x - 1 <=? 0 then delete i m else m
         else delete i (LockManager.lock_table_ lk))
  end.

Lemma unlock_table i lk x : exists b,
  LockManager.unlock i (lk, x) = ((unlocked i lk, Txn.set_state SHRINKING x), Ok b).
Proof.
  unfold LockManager.unlock, unlocked, LockManager.upd_txn, LockManager.set_status, LockManager.erase. msimpl.
  destruct (LockManager.lock_table_ lk !! i) as [st|]; [|by eexists].
  destruct (decide (LockManager.mode st = LockManager.LS)); [|by eexists].
  cbv [mbind M_bind]. destruct (LockManager.shared_num st - 1 <=? 0); by eexists.
Qed.

Lemma release_steps l : forall s s' u,
  forM l (fun i => _ ← on_ctx (cx_unlock i); mret tt) s = (s', Ok u) ->
  (Context.log_mgr_ (ctx s') = Context.log_mgr_ (ctx s) /\
   Txn.write_set_ (Context.txn_ (ctx s')) = Txn.write_set_ (Context.txn_ (ctx s)) /\
   Txn.page_pins_ (Context.txn_ (ctx s')) = Txn.page_pins_ (Context.txn_ (ctx s))) /\
  forall S id x, LockManager.lm S = Context.lock_mgr_ (ctx s) -> LockManager.txns S !! id = Some x ->
    LockManager.releasing S !! id = Some l ->
    exists x', rtc LockManager.step S
      (LockManager.mkSys (Context.lock_mgr_ (ctx s')) (<[id := x']> (LockManager.txns S))
                         (<[id := []]> (LockManager.releasing S))).
Proof.
  induction l as [|i l IH]; intros s s' u Hr; cbn [forM] in Hr.
  - injection Hr as <- _. split; [done|]. intros S id x <- Hx Hl. exists x.
    rewrite !insert_id by done. by destruct S.
  - apply bind_inv in Hr as (s1 & v & Ha & Hr). apply bind_inv in Ha as (s2 & b & Ha & Hv). injection Hv as <- _.
    apply on_ctx_inv in Ha. cbn [cx_unlock commit_StmtContext Context.context_StmtContext] in Ha.
    unfold Context.on_locks, zoom in Ha.
    destruct (unlock_table i (Context.lock_mgr_ (ctx s)) (Context.txn_ (ctx s))) as [b' Eu].
    rewrite Eu in Ha. injection Ha as Ec _. apply IH in Hr as [El Hstep]. rewrite <- Ec in *.
    split; [exact El|]. clear El. intros S id x ES Hx Hl. cbn [Context.lock_mgr_ Context.set_locks fst] in Hstep.
    destruct (unlock_table i (LockManager.lm S) x) as [b2 Eu2]. rewrite ES in Eu2.
    destruct (Hstep (LockManager.mkSys (unlocked i (Context.lock_mgr_ (ctx s)))
      (<[id := Txn.set_state SHRINKING x]> (LockManager.txns S)) (<[id := l]> (LockManager.releasing S)))
      id (Txn.set_state SHRINKING x)) as [x' Hx'].
    + done.
    + apply lookup_insert_eq.
    + apply lookup_insert_eq.
    + exists x'. cbn [LockManager.txns LockManager.releasing] in Hx'. rewrite !insert_insert_eq in Hx'.
      eapply rtc_l; [|exact Hx']. eapply LockManager.step_unlock; [exact Hx|exact Hl|]. rewrite ES. exact Eu2.
Qed.

(** *** The pages *)

Lemma on_pool_ctx {A} (m : M (BufferPool.t D R) A) s s' a : on_pool m s = (s', Ok a) -> ctx s' = ctx s.
Proof.
  intros Hr. unfold on_pool, on_sm, SmManager.on_pool, zoom in Hr. unfold ctx.
  destruct (m _) as [p r]. by injection Hr as <- _.
Qed.

Lemma forM_keeps {A} (f : A -> M t unit) l :
  (forall x s s' u, f x s = (s', Ok u) -> ctx s' = ctx s) -> forall s s' u, forM l f s = (s', Ok u) -> ctx s' = ctx s.
Proof.
  intros Hf. induction l as [|x l IH]; intros s s' u Hr; cbn [forM] in Hr; [by injection Hr as <- _|].
  apply bind_inv in Hr as (s1 & v & Ha & Hr). by rewrite (IH _ _ _ Hr), (Hf _ _ _ _ Ha).
Qed.

Lemma unpin_times_ctx n : forall p s s' u, unpin_times n p s = (s', Ok u) -> ctx s' = ctx s.
Proof.
  induction n as [|n IH]; intros p s s' u Hr; cbn [unpin_times] in Hr; [by injection Hr as <- _|].
  apply bind_inv in Hr as (s1 & b & Ha & Hr). apply on_pool_ctx in Ha as <-.
  destruct b; [by eapply IH|by injection Hr as <- _].
Qed.

Lemma unpin_pages_ctx s s' u : unpin_pages s = (s', Ok u) ->
  ctx s' = Context.set_txn (Txn.clear_page_pins (Context.txn_ (ctx s))) (ctx s).
Proof.
  unfold unpin_pages. intros Hr. apply bind_inv in Hr as (s1 & x & Hx & Hr). injection Hx as <- <-.
  apply bind_inv in Hr as (s2 & v & Ha & Hr). apply upd_txn_inv in Hr as ->.
  apply forM_keeps in Ha as ->; [done|]. clear. intros p s s' u Hr.
  apply bind_inv in Hr as (s1 & v & Ha & Hr). apply bind_inv in Hr as (s2 & b & Hf & Hr). injection Hr as <- _.
  apply on_pool_ctx in Hf as ->. destruct (p.2 <? 0); [discriminate Ha|]. by eapply unpin_times_ctx.
Qed.

Lemma release_locks_steps s s' u : release_locks s = (s', Ok u) ->
  (Context.log_mgr_ (ctx s') = Context.log_mgr_ (ctx s) /\
   Txn.write_set_ (Context.txn_ (ctx s')) = Txn.write_set_ (Context.txn_ (ctx s)) /\
   Txn.page_pins_ (Context.txn_ (ctx s')) = Txn.page_pins_ (Context.txn_ (ctx s))) /\
  Txn.lock_set_ (Context.txn_ (ctx s')) = ∅ /\
  forall S id x final, LockManager.lm S = Context.lock_mgr_ (ctx s) -> LockManager.txns S !! id = Some x ->
    Txn.lock_set_ x = Txn.lock_set_ (Context.txn_ (ctx s)) -> LockManager.releasing S !! id = None ->
    final = COMMITTED \/ final = ABORTED ->
    exists x', Txn.state_ x' = final /\ Txn.lock_set_ x' = ∅ /\
      rtc LockManager.step S
        (LockManager.mkSys (Context.lock_mgr_ (ctx s')) (<[id := x']> (LockManager.txns S)) (LockManager.releasing S)).
Proof.
  unfold release_locks. intros Hr. apply bind_inv in Hr as (s1 & y & Hy & Hr). injection Hy as <- <-.
  apply bind_inv in Hr as (s2 & v & Ha & Hr). apply upd_txn_inv in Hr as ->.
  apply release_steps in Ha as [Hk Hsteps]. split; [exact Hk|]. split; [done|].
  intros S id x final ES Hx El Hn Hf. set (l := elements (Txn.lock_set_ (Context.txn_ (ctx s)))) in *.
  destruct (Hsteps (LockManager.mkSys (LockManager.lm S) (LockManager.txns S) (<[id := l]> (LockManager.releasing S))) id x
    ES Hx (lookup_insert_eq _ _ _)) as [x1 Hrel]. cbn [LockManager.txns LockManager.releasing] in Hrel.
  exists (Txn.set_state final (Txn.set_lock_set ∅ x1)). split; [done|]. split; [done|].
  eapply rtc_l.
  { apply (LockManager.step_release S id x l Hx Hn); [apply NoDup_elements|].
    intros i. unfold l. by rewrite elem_of_elements, El. }
  eapply rtc_r; [exact Hrel|]. rewrite insert_insert_eq.
  assert (Efin : LockManager.mkSys (Context.lock_mgr_ (ctx s2))
    (<[id := Txn.set_state final (Txn.set_lock_set ∅ x1)]> (<[id := x1]> (LockManager.txns S)))
    (delete id (<[id := []]> (LockManager.releasing S))) =
    LockManager.mkSys (Context.lock_mgr_ (ctx s2))
    (<[id := Txn.set_state final (Txn.set_lock_set ∅ x1)]> (LockManager.txns S)) (LockManager.releasing S)).
  { by rewrite insert_insert_eq, delete_insert_id. }
  cbn [Context.lock_mgr_ Context.set_txn]. rewrite <- Efin.
  exact (LockManager.step_finish (LockManager.mkSys (Context.lock_mgr_ (ctx s2)) (<[id := x1]> (LockManager.txns S))
    (<[id := []]> (LockManager.releasing S))) id x1 final (lookup_insert_eq _ _ _) (lookup_insert_eq _ _ _) Hf).
Qed.

(** C23: a commit that returns normally: adds to the log, through the log manager, the
    records of the index pages of the transaction and then its COMMIT and END records,
    and writes the log to disk before it lets go of pages and locks; leaves the
    transaction committed with no locks, writes or pinned pages; and what it does to the
    lock table is a run of the interleaving model of the locks, in which the transaction
    releases every lock it holds and ends. *)
Theorem commit_ok s s' u : commit false s = (s', Ok u) ->
  let x := Context.txn_ (ctx s) in let x' := Context.txn_ (ctx s') in
  Txn.state_ x' = COMMITTED /\ Txn.lock_set_ x' = ∅ /\ Txn.write_set_ x' = [] /\ Txn.page_pins_ x' = ∅ /\
  (exists l p q ns, length l = length (Txn.log_records x) /\
     LogManager.run buffer_size ((LogManager.Add <$> (LIndexPages <$> l)) ++
       [LogManager.Add (LBase (CommitLogRecord (Txn.txn_id_ x) p));
        LogManager.Add (LBase (EndLogRecord (Txn.txn_id_ x) q)); LogManager.FlushLog])
       (Context.log_mgr_ (ctx s)) = (Context.log_mgr_ (ctx s'), Ok ns)) /\
  (forall S id y, LockManager.lm S = Context.lock_mgr_ (ctx s) -> LockManager.txns S !! id = Some y ->
     Txn.lock_set_ y = Txn.lock_set_ x -> LockManager.releasing S !! id = None ->
     exists y', Txn.state_ y' = COMMITTED /\ Txn.lock_set_ y' = ∅ /\
       rtc LockManager.step S
         (LockManager.mkSys (Context.lock_mgr_ (ctx s')) (<[id := y']> (LockManager.txns S)) (LockManager.releasing S))).
Proof.
  intros Hr x x'. unfold commit, add_idx_log in Hr.
  apply bind_inv in Hr as (s1 & v1 & Hidx & Hr). apply bind_inv in Hr as (s2 & v2 & Hcom & Hr).
  apply bind_inv in Hr as (s3 & v3 & Hend & Hr). apply bind_inv in Hr as (s4 & v4 & Hflush & Hr).
  apply bind_inv in Hr as (s5 & v5 & Hpins & Hr). apply bind_inv in Hr as (s6 & v6 & Hws & Hr).
  apply bind_inv in Hr as (s7 & v7 & Hrel & Hr).
  apply on_ctx_inv in Hidx. change (Context.add_idx_log buffer_size (ctx s) = (ctx s1, Ok v1)) in Hidx.
  pose proof (Context.add_idx_log_alike buffer_size (ctx s)) as A1. rewrite Hidx in A1. cbn [fst] in A1.
  apply Context.add_idx_log_run in Hidx as (l & Hl & Hrun).
  apply add_log_inv in Hcom as [A2 Rcom]. apply add_log_inv in Hend as [A3 Rend].
  apply on_ctx_inv in Hflush.
  change (Context.on_log (LogManager.flush_log_to_disk buffer_size) (ctx s3) = (ctx s4, Ok v4)) in Hflush.
  pose proof (Context.on_log_alike (LogManager.flush_log_to_disk buffer_size) (ctx s3)) as [A4 _].
  rewrite Hflush in A4. cbn [fst] in A4. apply unpin_pages_ctx in Hpins. apply upd_txn_inv in Hws.
  apply release_locks_steps in Hrel as ((El & Ew & Ep) & Elock & Hsteps). apply upd_txn_inv in Hr.
  assert (A : Context.alike (ctx s) (ctx s4)) by (repeat (eapply Context.alike_trans; [eassumption|]); apply Context.alike_refl).
  rewrite Hpins in Hws. unfold x', x. rewrite Hr. rewrite Hws in *.
  destruct A as (B1 & B2 & B3 & B4 & B5). cbn -[LogManager.run] in *.
  split_and!; try done.
  - assert (Hids : Txn.txn_id_ (Context.txn_ (ctx s1)) = Txn.txn_id_ (Context.txn_ (ctx s)) /\
      Txn.txn_id_ (Context.txn_ (ctx s2)) = Txn.txn_id_ (Context.txn_ (ctx s))).
    { destruct A1 as (_ & _ & _ & _ & E1), A2 as (_ & _ & _ & _ & E2). split; congruence. }
    destruct Hids as [E1 E2].
    unfold Context.on_log, zoom in Hflush.
    destruct (LogManager.flush_log_to_disk buffer_size (Context.log_mgr_ (ctx s3))) as [g r] eqn:Ef.
    injection Hflush as Hc Hok. subst r.
    assert (Rfl : LogManager.run buffer_size [LogManager.FlushLog] (Context.log_mgr_ (ctx s3)) = (g, Ok [])).
    { cbn [LogManager.run]. by rewrite (bind_ok _ _ _ _ _ Ef). }
    destruct (Rend _ _ _ Rfl) as [ns1 R1]. destruct (Rcom _ _ _ R1) as [ns2 R2].
    destruct (Hrun _ _ _ R2) as [ns3 R3]. rewrite E1, E2 in R3.
    eexists l, _, _, ns3. split; [exact Hl|]. rewrite El, <- Hc. exact R3.
  - intros S id y ES Hy Elk Hn. apply (Hsteps S id y COMMITTED); [congruence|done|congruence|done|by left].
Qed.
End commit.

(** ** An example: the transaction that made an index *)
#[local] Existing Instance SmManager.demo_TxnContext.
#[local] Existing Instance SmManager.demo_StmtContext.
#[local] Existing Instance SmManager.demo_Shell.
#[local] Abbreviation demo_t :=
  (t (DiskManager.t MemFs.t) LRUReplacer.t (Context.t (DiskManager.t MemFs.t))).
Definition demo_make (s : SmManager.t (DiskManager.t MemFs.t) LRUReplacer.t (Context.t (DiskManager.t MemFs.t))) : demo_t :=
  make s TWO_PHASE_LOCKING.
Definition demo_work : M demo_t unit :=
  _ ← begin false 0 true;
  on_sm (SmManager.create_index SmManager.demo_junk (mkRid 0 0) "t" ["a"] true).
Definition demo : demo_t := (demo_work (demo_make SmManager.demo)).1.

Lemma abort_index_never_ends_witness :
  match abort SmManager.demo_junk (mkRid 0 0) 4 false demo with
  | (s, r) => r <> Ok tt /\ WriteRecord.wtype_ <$> writes demo = [WType.CREATE_INDEX] /\
              WriteRecord.wtype_ <$> writes s = [WType.CREATE_INDEX] /\
              LogManager.global_lsn_ (Context.log_mgr_ (ctx s)) = 14
  end.
Proof.
  destruct (abort SmManager.demo_junk (mkRid 0 0) 4 false demo) as [s r] eqn:E.
  split; [|split; [vm_compute; reflexivity|]].
  - intros ->. refine (abort_index_never_ends SmManager.demo_junk (mkRid 0 0) 4 demo s tt _ E).
    eexists. split; [vm_compute; reflexivity|]. left. reflexivity.
  - apply (f_equal (fun q => (WriteRecord.wtype_ <$> writes q.1, LogManager.global_lsn_ (Context.log_mgr_ (ctx q.1))))) in E.
    cbn [fst] in E. vm_compute in E. split; [exact (f_equal fst (eq_sym E))|exact (f_equal snd (eq_sym E))].
Defined.

(** The locks of the transaction, as a system of one. *)
Definition demo_sys : LockManager.sys :=
  LockManager.mkSys (Context.lock_mgr_ (ctx demo)) {[0 := Context.txn_ (ctx demo)]} ∅.

Lemma commit_ok_witness :
  match commit false demo with
  | (s, r) => r = Ok tt /\ Txn.state_ (Context.txn_ (ctx s)) = COMMITTED /\
      LockManager.lock_table_ (LockManager.lm demo_sys) <> ∅ /\
      LockManager.lock_table_ (Context.lock_mgr_ (ctx s)) = ∅ /\
      exists y, rtc LockManager.step demo_sys
        (LockManager.mkSys (Context.lock_mgr_ (ctx s)) (<[0 := y]> (LockManager.txns demo_sys)) ∅)
  end.
Proof.
  destruct (commit false demo) as [s [[]|e]] eqn:E.
  - destruct (commit_ok SmManager.demo_buffer demo s tt E) as (Q1 & _ & _ & _ & _ & Q).
    split; [reflexivity|]. split; [exact Q1|]. split; [vm_compute; discriminate|]. split.
    + apply (f_equal (fun q => LockManager.lock_table_ (Context.lock_mgr_ (ctx q.1)))) in E.
      cbn [fst] in E. vm_compute in E. symmetry. exact E.
    + destruct (Q demo_sys 0 (Context.txn_ (ctx demo)) eq_refl (lookup_insert_eq _ _ _) eq_refl eq_refl)
        as (y & _ & _ & Hy). exists y. exact Hy.
  - apply (f_equal (fun r => match r.2 with Ok _ => true | _ => false end)) in E.
    cbn [snd] in E. vm_compute in E. discriminate E.
Defined.
End TransactionManager.
