(* ===== verification/Recovery.v ===== *)
(** * Recovery

    The class [RecoveryManager] of [recovery/log_recovery.h] and [log_recovery.cpp]:
    the analysis of the log, the repetition of the pages it holds and the rollback of
    the transactions it leaves open. *)

From S2P Require Import Prelude Common Posix Replacer Disk Buffer RmDefs Log Transaction Record SmMeta IxDefs IxNode IxHandle IxManager SmManager.

(** [read_log] of the disk manager: the count and the bytes it stores. *)
Class LogFile (D : Type) := { lf_read_log : Z -> Z -> M D (Z * bytes) }.
#[global] Instance DiskManager_LogFile {O : Type} `{Posix O} : LogFile (DiskManager.t O) :=
  { lf_read_log := DiskManager.read_log }.

(** [recovery/log_manager.h]. *)
Inductive TxnStatus := UndoCandidate | Committed | Aborting.
#[global] Instance TxnStatus_eq_dec : EqDecision TxnStatus.
Proof. solve_decision. Defined.

Module RecoveryManager.

(** ** The tables

    [ATT] and [DPT] of the header, which the manager does not use: vectors of pairs. *)
Module ATT.
Definition t : Type := list (Z * Z).
Definition add_transaction (transactionId lastLSN : Z) (table : t) : t := table ++ [(transactionId, lastLSN)].
Fixpoint remove_transaction (transactionId : Z) (table : t) : t :=
  match table with
  | [] => []
  | e :: l => if e.1 =? transactionId then l else e :: remove_transaction transactionId l
  end.
Fixpoint update_lastLSN (transactionId lastLSN : Z) (table : t) : t :=
  match table with
  | [] => []
  | e :: l => if e.1 =? transactionId then (e.1, lastLSN) :: l else e :: update_lastLSN transactionId lastLSN l
  end.
Fixpoint get_lastLSN (transactionId : Z) (table : t) : Z :=
  match table with
  | [] => -1
  | e :: l => if e.1 =? transactionId then e.2 else get_lastLSN transactionId l
  end.
Definition get_maxLSN (table : t) : Z := foldl (fun m e => if m <? e.2 then e.2 else m) (-1) table.
End ATT.

Module DPT.
Definition t : Type := list (Z * Z).
Definition add_page (pageId recLSN : Z) (table : t) : t := table ++ [(pageId, recLSN)].
Fixpoint exist_page (pageId : Z) (table : t) : bool :=
  match table with
  | [] => false
  | e :: l => if e.1 =? pageId then true else exist_page pageId l
  end.
Fixpoint remove_page (pageId : Z) (table : t) : t :=
  match table with
  | [] => []
  | e :: l => if e.1 =? pageId then l else e :: remove_page pageId l
  end.
Fixpoint update_recLSN (pageId recLSN : Z) (table : t) : t :=
  match table with
  | [] => []
  | e :: l => if e.1 =? pageId then (e.1, recLSN) :: l else e :: update_recLSN pageId recLSN l
  end.
Fixpoint get_recLSN (pageId : Z) (table : t) : Z :=
  match table with
  | [] => -1
  | e :: l => if e.1 =? pageId then e.2 else get_recLSN pageId l
  end.
Definition get_minLSN (table : t) : Z := foldl (fun m e => if e.2 <? m then e.2 else m) (2 ^ 31 - 1) table.
End DPT.

(** [get_min_lsn] and [get_max_lsn]: the entry with the least, or the greatest, LSN;
    no entry when there is none below, or above, the start. *)
Definition min_step (acc : option Z * Z) (kv : Z * Z) : option Z * Z :=
  if kv.2 <? acc.2 then (Some kv.1, kv.2) else acc.
Definition get_min_lsn (m : gmap Z Z) : option Z * Z := foldl min_step (None, 2 ^ 31 - 1) (map_to_list m).
Definition max_step (acc : option Z * Z) (kv : Z * Z) : option Z * Z :=
  if acc.2 <? kv.2 then (Some kv.1, kv.2) else acc.
Definition get_max_lsn (m : gmap Z Z) : option Z * Z := foldl max_step (None, -1) (map_to_list m).

Section ops.
Context {D R C : Type} `{Disk D} `{Files D} `{Shell D} `{LogFile D} `{Replacer R}.
Context `{TxnContext C} `{HasTxn C} `{StmtContext C}.
(** What is in memory that is allocated and not initialised. *)
Context (junk : bytes) (junk_rid : Rid).
#[local] Abbreviation sm := (SmManager.t D R C).

Record t := mk {
  active_txn_ : gmap Z Z;
  txn_status : gmap Z TxnStatus;
  lsn_mapping_ : gmap Z Z;
  dirty_page_ : gmap Z Z;
  sm_ : sm;
}.
Definition make (s : sm) : t := mk ∅ ∅ ∅ ∅ s.

Definition set_active (m : gmap Z Z) (s : t) : t := mk m (txn_status s) (lsn_mapping_ s) (dirty_page_ s) (sm_ s).
Definition set_status (m : gmap Z TxnStatus) (s : t) : t := mk (active_txn_ s) m (lsn_mapping_ s) (dirty_page_ s) (sm_ s).
Definition set_mapping (m : gmap Z Z) (s : t) : t := mk (active_txn_ s) (txn_status s) m (dirty_page_ s) (sm_ s).
Definition set_dirty (m : gmap Z Z) (s : t) : t := mk (active_txn_ s) (txn_status s) (lsn_mapping_ s) m (sm_ s).
Definition set_sm (x : sm) (s : t) : t := mk (active_txn_ s) (txn_status s) (lsn_mapping_ s) (dirty_page_ s) x.
Definition on_sm {A} (m : M sm A) : M t A := zoom sm_ set_sm m.
Definition lift {A} (r : res A) : M t A := match r with Ok a => mret a | Throw e => throw e end.

(** A read into an array of [sz] bytes: the count, and what the array holds after. *)
Definition read_log (buf : bytes) (sz offset : Z) : M t (Z * bytes) :=
  r ← on_sm (SmManager.on_disk (lf_read_log sz offset));
  mret (r.1, mem_write buf 0 r.2).
Definition array (sz : Z) : bytes := take (Z.to_nat sz) (junk ++ replicate (Z.to_nat sz) 0).
(** The record at [offset], of the length its header states. *)
Definition read_rec (h : LogRecord) (offset : Z) : M t bytes :=
  r ← read_log (array (log_tot_len_ h + 1)) (i32 (log_tot_len_ h)) offset; mret r.2.

(** [lsn_mapping_[lsn]] and [txn_status[txn]]: a missing entry is added, with zero. *)
Definition mapping_at (lsn : Z) : M t Z :=
  s ← get;
  match lsn_mapping_ s !! lsn with
  | Some o => mret o
  | None => modify (set_mapping (<[lsn := 0]> (lsn_mapping_ s)));; mret 0
  end.
Definition status_at (txn : Z) : M t TxnStatus :=
  s ← get;
  match txn_status s !! txn with
  | Some x => mret x
  | None => modify (set_status (<[txn := UndoCandidate]> (txn_status s)));; mret UndoCandidate
  end.

(** ** Analysis *)

Definition set_active_lsn (h : LogRecord) : M t unit :=
  modify (fun s => set_active (<[log_tid_ h := lsn_ h]> (active_txn_ s)) s).
(** [dirty_page_] is changed only at a page it has. *)
Definition dirty (page_no lsn : Z) : M t unit :=
  modify (fun s => match dirty_page_ s !! page_no with
                   | Some _ => set_dirty (<[page_no := lsn]> (dirty_page_ s)) s
                   | None => s
                   end).

Definition analyze_record (h : LogRecord) (offset : Z) : M t unit :=
  let ty := log_type_ h in
  if (ty =? LogRecordType_val BEGIN) || (ty =? LogRecordType_val COMMIT) || (ty =? LogRecordType_val ABORT) then
    set_active_lsn h;;
    let x := if ty =? LogRecordType_val BEGIN then UndoCandidate
             else if ty =? LogRecordType_val ABORT then Aborting else Committed in
    modify (fun s => set_status (<[log_tid_ h := x]> (txn_status s)) s)
  else if ty =? LogRecordType_val END then
    modify (fun s => set_status (delete (log_tid_ h) (txn_status s)) s);;
    modify (fun s => set_active (delete (log_tid_ h) (active_txn_ s)) s)
  else if ty =? LogRecordType_val UPDATE then
    log ← read_rec h offset;
    rec ← lift (deserialize_update log);
    dirty (rid_page_no (upd_rid rec)) (lsn_ (upd_hdr rec));;
    set_active_lsn (upd_hdr rec)
  else if (ty =? LogRecordType_val INSERT) || (ty =? LogRecordType_val DELETE) then
    log ← read_rec h offset;
    rec ← lift (deserialize_tuple log);
    dirty (rid_page_no (tup_rid rec)) (lsn_ (tup_hdr rec));;
    set_active_lsn (tup_hdr rec)
  else if ty =? LogRecordType_val PAGE_SET then
    log ← read_rec h offset;
    let rec := deserialize_page log in
    dirty (i32 (pg_page_no rec)) (lsn_ (pg_hdr rec));;
    set_active_lsn (pg_hdr rec)
  else mret tt.

(** The loop over the log; a record of length 0 would keep it where it is. *)
Fixpoint analyze_loop (fuel : nat) (log_hdr : bytes) (offset : Z) : M t unit :=
  r ← read_log log_hdr (Z.of_nat LOG_HEADER_SIZE) offset;
  if 0 <? r.1 then
    match fuel with
    | O => throw OutOfFuel
    | S fuel' =>
        let h := deserialize_header r.2 in
        analyze_record h offset;;
        modify (fun s => set_mapping (<[lsn_ h := offset]> (lsn_mapping_ s)) s);;
        analyze_loop fuel' r.2 (i32 (offset + log_tot_len_ h))
    end
  else mret tt.
Definition analyze (fuel : nat) : M t unit := analyze_loop fuel (array (Z.of_nat LOG_HEADER_SIZE)) 0.

(** ** Redo *)

(** [memmove(page_handle.page, rec.new_page, PAGE_SIZE)]: over the [Page] object,
    which starts with its identifier. *)
Definition restore_page (new : bytes) (p : BufferPool.Page) : BufferPool.Page :=
  BufferPool.mkPage (mkPageId (load_i32 new 0) (load_i32 new 4)) (mem_write (BufferPool.data_ p) 0 (drop 8 new))
    (BufferPool.is_dirty_ p) (BufferPool.pin_count_ p).

Definition redo_page (rec : PageLogRecord) : M sm unit :=
  let new := default [] (new_page rec) in
  SmManager.on_table (pg_tab_name rec) (
    if pg_page_no rec =? 0 then
      h ← gets RmFileHandle.file_hdr_;
      whenM (hdr_lsn h <? lsn_ (pg_hdr rec)) (RmFileHandle.upd_hdr (fun _ => RmFileHdr_of new))
    else
      page ← RmFileHandle.fetch_page_handle (i32 (pg_page_no rec));
      p ← RmFileHandle.on_pool (BufferPool.page_at page);
      let newer := BufferPool.get_page_lsn p <? lsn_ (pg_hdr rec) in
      whenM newer (RmFileHandle.on_pool (BufferPool.upd_page page (restore_page new)));;
      p ← RmFileHandle.on_pool (BufferPool.page_at page);
      _ ← RmFileHandle.on_pool (BufferPool.unpin_page (BufferPool.id_ p) newer);
      mret tt).

Definition redo_index_pages (rec : IndexPagesLogRecord) : M sm unit :=
  SmManager.on_index (idx_name rec) (
    forM (zip (page_ids rec) (ip_pages rec)) (fun e =>
      node ← IxIndexHandle.fetch_node (page_no e.1);
      p ← IxIndexHandle.on_pool (BufferPool.page_at node);
      let newer := BufferPool.get_page_lsn p <? lsn_ (ip_hdr rec) in
      whenM newer (IxIndexHandle.on_pool (BufferPool.put_data node (mem_write (BufferPool.data_ p) 0 e.2)));;
      _ ← IxIndexHandle.on_pool (BufferPool.unpin_page (BufferPool.id_ p) newer);
      mret tt);;
    h ← gets IxIndexHandle.file_hdr_;
    if ix_lsn h <? lsn_ (ip_hdr rec) then
      h' ← IxIndexHandle.lift (hdr_deserialize (default [] (file_hdr rec)));
      IxIndexHandle.upd_hdr (fun _ => h')
    else mret tt).

Fixpoint redo_loop (fuel : nat) (log_hdr : bytes) (offset : Z) : M t unit :=
  r ← read_log log_hdr (Z.of_nat LOG_HEADER_SIZE) offset;
  if 0 <? r.1 then
    match fuel with
    | O => throw OutOfFuel
    | S fuel' =>
        let h := deserialize_header r.2 in
        (if log_type_ h =? LogRecordType_val PAGE_SET then
           log ← read_rec h offset;
           on_sm (redo_page (deserialize_page log))
         else if log_type_ h =? LogRecordType_val INDEX_PAGE then
           log ← read_rec h offset;
           rec ← lift (deserialize_index_pages log);
           on_sm (redo_index_pages rec)
         else mret tt);;
        redo_loop fuel' r.2 (i32 (offset + i32 (log_tot_len_ h)))
    end
  else mret tt.
Definition redo (fuel : nat) : M t unit :=
  s ← get;
  offset ← mapping_at (get_min_lsn (dirty_page_ s)).2;
  redo_loop fuel (array (Z.of_nat LOG_HEADER_SIZE)) offset.

(** ** Undo *)

(** The change of a record is taken back; the context is null. *)
Definition undo_record (h : LogRecord) (offset : Z) : M t unit :=
  let ty := log_type_ h in
  if ty =? LogRecordType_val UPDATE then
    log ← read_rec h offset;
    rec ← lift (deserialize_update log);
    on_sm (SmManager.rollback_update (bytes_str (c_str (upd_table_name rec))) (upd_rid rec) (old_value_ rec) false)
  else if ty =? LogRecordType_val DELETE then
    log ← read_rec h offset;
    rec ← lift (deserialize_tuple log);
    on_sm (SmManager.rollback_delete (bytes_str (c_str (tup_table_name rec))) (tup_value rec) false)
  else if ty =? LogRecordType_val INSERT then
    log ← read_rec h offset;
    rec ← lift (deserialize_tuple log);
    on_sm (SmManager.rollback_insert (bytes_str (c_str (tup_table_name rec))) (tup_rid rec) false)
  else if ty =? LogRecordType_val CREATE_INDEX then
    log ← read_rec h offset;
    let rec := deserialize_index log in
    on_sm (SmManager.rollback_create_index junk junk_rid (ix_tab_name rec) (ix_col_names rec) false)
  else if ty =? LogRecordType_val DROP_INDEX then
    log ← read_rec h offset;
    let rec := deserialize_index log in
    on_sm (SmManager.rollback_drop_index junk junk_rid (ix_tab_name rec) (ix_col_names rec) false)
  else mret tt.

(** The records of a transaction, from its last one back. *)
Fixpoint undo_txn (fuel : nat) (status : TxnStatus) (offset : Z) : M t unit :=
  match fuel with
  | O => throw OutOfFuel
  | S fuel' =>
      r ← read_log (array (Z.of_nat LOG_HEADER_SIZE + 1)) (Z.of_nat LOG_HEADER_SIZE) offset;
      let h := deserialize_header r.2 in
      let go : M t unit :=
        undo_record h offset;;
        if prev_lsn_ h =? -1 then mret tt else
        offset ← mapping_at (prev_lsn_ h);
        undo_txn fuel' (if decide (status = Aborting) then UndoCandidate else status) offset in
      if decide (status = Aborting /\ log_type_ h = LogRecordType_val UNDO_NEXT) then
        log ← read_rec h offset;
        let rec := deserialize_undo_next log in
        if un_undo_next rec <? 0 then mret tt else
        offset ← mapping_at (un_undo_next rec);
        undo_txn fuel' UndoCandidate offset
      else go
  end.

(** The identifier [get_max_lsn] returns is not initialised when no LSN is more than
    -1. *)
Fixpoint undo (fuel : nat) : M t unit :=
  s ← get;
  if decide (active_txn_ s = ∅) then mret tt else
  match fuel with
  | O => throw OutOfFuel
  | S fuel' =>
      match get_max_lsn (active_txn_ s) with
      | (None, _) => throw Stuck
      | (Some txn, lsn) =>
          status ← status_at txn;
          if decide (status = Committed) then undo fuel' else
          offset ← mapping_at lsn;
          undo_txn fuel status offset;;
          modify (fun s => set_active (delete txn (active_txn_ s)) s);;
          modify (fun s => set_status (delete txn (txn_status s)) s);;
          undo fuel'
      end
  end.
End ops.
Arguments t D R C : clear implicits.

(** ** The tables after the analysis *)

Class LogFileLaws (D : Type) `{LogFile D} := {
  lf_log : D -> option bytes;
  lf_read d l sz offset : lf_log d = Some l -> 0 <= sz -> 0 <= offset ->
    exists d', lf_read_log sz offset d = (d', Ok (DiskManager.log_slice l sz offset)) /\ lf_log d' = Some l;
}.

(** The records of a log, with their offsets: each states a length that is not less than
    that of its header, and the last ends where the log does.  [readable] tells that
    the sizes of the values in it are inside it and not negative. *)
Definition is_type (ty : LogRecordType) (h : LogRecord) : bool := log_type_ h =? LogRecordType_val ty.
Definition sized (rec : bytes) (o : nat) : bool := (o + 4 <=? length rec)%nat && (0 <=? load_i32 rec o).
Definition readable (h : LogRecord) (rec : bytes) : bool :=
  if is_type UPDATE h then
    sized rec OFFSET_LOG_DATA && sized rec (OFFSET_LOG_DATA + Z.to_nat (load_i32 rec OFFSET_LOG_DATA) + 4)
  else if is_type INSERT h || is_type DELETE h then sized rec OFFSET_LOG_DATA
  else true.
Fixpoint parse (fuel : nat) (l : bytes) (offset : nat) : option (list (Z * LogRecord)) :=
  if (offset =? length l)%nat then Some [] else
  match fuel with
  | O => None
  | S fuel' =>
      let h := deserialize_header (mem_read l offset LOG_HEADER_SIZE) in
      let n := Z.to_nat (log_tot_len_ h) in
      if (LOG_HEADER_SIZE <=? n)%nat && (offset + n <=? length l)%nat &&
         readable h (mem_read l offset n)
      then cons (Z.of_nat offset, h) <$> parse fuel' l (offset + n)
      else None
  end.

(** The last record of a transaction, of the kinds [p] selects. *)
Definition last_of (p : LogRecord -> bool) (tid : Z) (es : list (Z * LogRecord)) : option (Z * LogRecord) :=
  last (filter (fun e => p e.2 = true /\ log_tid_ e.2 = tid) es).
Definition bounds (h : LogRecord) : bool := is_type BEGIN h || is_type COMMIT h || is_type ABORT h || is_type END h.
Definition tracked (h : LogRecord) : bool :=
  bounds h || is_type UPDATE h || is_type INSERT h || is_type DELETE h || is_type PAGE_SET h.
Definition status_of (h : LogRecord) : TxnStatus :=
  if is_type BEGIN h then UndoCandidate else if is_type ABORT h then Aborting else Committed.

(** What the tables should be. *)
Definition active_spec (es : list (Z * LogRecord)) (tid : Z) : option Z :=
  e ← last_of tracked tid es; if is_type END e.2 then None else Some (lsn_ e.2).
Definition status_spec (es : list (Z * LogRecord)) (tid : Z) : option TxnStatus :=
  e ← last_of bounds tid es; if is_type END e.2 then None else Some (status_of e.2).
Definition mapping_spec (es : list (Z * LogRecord)) (lsn : Z) : option Z :=
  fst <$> last (filter (fun e : Z * LogRecord => lsn_ e.2 = lsn) es).

Lemma last_of_snoc p tid es e : last_of p tid (es ++ [e]) =
  if decide (p e.2 = true /\ log_tid_ e.2 = tid) then Some e else last_of p tid es.
Proof.
  unfold last_of. rewrite filter_app, filter_cons, filter_nil.
  case_decide; [apply last_snoc|by rewrite app_nil_r].
Qed.

Section laws.
Context {D R C : Type} `{Disk D} `{Files D} `{Shell D} `{LogFileLaws D} `{Replacer R}.
Context `{TxnContext C} `{HasTxn C} `{StmtContext C}.
Context (junk : bytes).
#[local] Abbreviation t := (t D R C).
Implicit Types s : t.

Definition log_of s : option bytes := lf_log (BufferPool.disk_manager_ (SmManager.bpm (sm_ s))).

Record analyzed (es : list (Z * LogRecord)) s : Prop := {
  an_active tid : active_txn_ s !! tid = active_spec es tid;
  an_status tid : txn_status s !! tid = status_spec es tid;
  an_mapping lsn : lsn_mapping_ s !! lsn = mapping_spec es lsn;
  an_dirty : dirty_page_ s = ∅;
}.

(** The tables are what they were. *)
Definition same_tables s s' : Prop :=
  active_txn_ s' = active_txn_ s /\ txn_status s' = txn_status s /\ lsn_mapping_ s' = lsn_mapping_ s /\
  dirty_page_ s' = dirty_page_ s.

Lemma rec_read_log_ok s l buf sz offset : log_of s = Some l -> 0 <= sz -> 0 <= offset ->
  exists s', read_log buf sz offset s =
    (s', Ok ((DiskManager.log_slice l sz offset).1, mem_write buf 0 (DiskManager.log_slice l sz offset).2)) /\
    same_tables s s' /\ log_of s' = Some l.
Proof.
  intros Hl Hsz Ho. destruct (lf_read _ _ _ _ Hl Hsz Ho) as (d' & Hr & Hl').
  unfold read_log, mbind, M_bind, on_sm, SmManager.on_disk, SmManager.on_pool, BufferPool.disk_op, zoom.
  rewrite Hr. eexists. split; [reflexivity|]. split; [by split_and!|]. exact Hl'.
Qed.
End laws.

Lemma load_app rec x o : (o + 4 <= length rec)%nat -> load_i32 (rec ++ x) o = load_i32 rec o.
Proof.
  intros Ho. unfold load_i32. f_equal. f_equal. apply mem_read_ext. intros i Hi. by rewrite lookup_app_l by lia.
Qed.

Lemma header_app rec x : (LOG_HEADER_SIZE <= length rec)%nat -> deserialize_header (rec ++ x) = deserialize_header rec.
Proof.
  intros Hl. unfold LOG_HEADER_SIZE, OFFSET_LOG_DATA in Hl. unfold deserialize_header, load_u32.
  rewrite !load_app by (unfold OFFSET_LSN, OFFSET_LOG_TOT_LEN, OFFSET_LOG_TID, OFFSET_PREV_LSN; lia).
  f_equal. f_equal. apply mem_read_ext. intros i Hi. unfold OFFSET_LOG_TOT_LEN in *. by rewrite lookup_app_l by lia.
Qed.

Lemma Deserialize_sized rec x o : sized rec o = true ->
  exists v, RmRecord_Deserialize RmRecord_empty (rec ++ x) o = Ok v /\ size_bytes v = Z.to_nat (load_i32 rec o).
Proof.
  unfold sized. rewrite andb_true_iff, Nat.leb_le, Z.leb_le. intros [Hl Hz].
  unfold RmRecord_Deserialize. rewrite load_app by done. rewrite (proj2 (Z.ltb_ge _ _)) by done. by eexists.
Qed.

(** The length of an array that is read into. *)
Lemma length_array junk sz : length (array junk sz) = Z.to_nat sz.
Proof. unfold array. rewrite length_take, length_app, length_replicate. lia. Qed.

Lemma mem_write_prefix buf bs : (length bs <= length buf)%nat -> mem_write buf 0 bs = bs ++ drop (length bs) buf.
Proof.
  intros Hl. unfold mem_write. change (take 0 buf) with (@nil Z). cbn [app]. rewrite Nat.sub_0_r, take_ge by lia. done.
Qed.

Lemma active_snoc es o h tid : active_spec (es ++ [(o, h)]) tid =
  if decide (tracked h = true /\ log_tid_ h = tid) then (if is_type END h then None else Some (lsn_ h))
  else active_spec es tid.
Proof. unfold active_spec. rewrite last_of_snoc. cbn [snd]. by case_decide. Qed.

Lemma status_snoc es o h tid : status_spec (es ++ [(o, h)]) tid =
  if decide (bounds h = true /\ log_tid_ h = tid) then (if is_type END h then None else Some (status_of h))
  else status_spec es tid.
Proof. unfold status_spec. rewrite last_of_snoc. cbn [snd]. by case_decide. Qed.

Lemma mapping_snoc es o h lsn : mapping_spec (es ++ [(o, h)]) lsn =
  if decide (lsn_ h = lsn) then Some o else mapping_spec es lsn.
Proof.
  unfold mapping_spec. rewrite filter_app, filter_cons, filter_nil. cbn [snd].
  case_decide; [by rewrite last_snoc|by rewrite app_nil_r].
Qed.

Section analysis.
Context {D R C : Type} `{Disk D} `{Files D} `{Shell D} `{LogFileLaws D} `{Replacer R}.
Context `{TxnContext C} `{HasTxn C} `{StmtContext C}.
Context (junk : bytes) (l : bytes) (Hl : Z.of_nat (length l) < 2 ^ 31).
#[local] Abbreviation t := (t D R C).
Implicit Types s : t.

Lemma read_part_ok s buf n o : log_of s = Some l -> (n <= length buf)%nat -> (o + n <= length l)%nat ->
  exists s', read_log buf (Z.of_nat n) (Z.of_nat o) s =
    (s', Ok (Z.of_nat n, mem_read l o n ++ drop n buf)) /\ same_tables s s' /\ log_of s' = Some l.
Proof.
  intros Hs Hb Ho. destruct (rec_read_log_ok s l buf (Z.of_nat n) (Z.of_nat o) Hs ltac:(lia) ltac:(lia)) as (s' & Hr & Hk).
  exists s'. split; [|exact Hk]. rewrite Hr. unfold DiskManager.log_slice.
  rewrite (proj2 (Z.ltb_ge _ _)) by lia. rewrite Z.min_l by lia. cbn [fst snd]. rewrite !Nat2Z.id.
  assert (E : length (mem_read l o n) = n) by (rewrite length_mem_read; lia).
  rewrite mem_write_prefix by lia. by rewrite E.
Qed.

Lemma read_rec_ok s h o : log_of s = Some l -> 0 <= log_tot_len_ h ->
  (o + Z.to_nat (log_tot_len_ h) <= length l)%nat ->
  exists s' x, read_rec junk h (Z.of_nat o) s = (s', Ok (mem_read l o (Z.to_nat (log_tot_len_ h)) ++ x)) /\
    same_tables s s' /\ log_of s' = Some l.
Proof.
  intros Hs Hn Ho. unfold read_rec. rewrite i32_small by (unfold in_i32; lia).
  destruct (read_part_ok s (array junk (log_tot_len_ h + 1)) (Z.to_nat (log_tot_len_ h)) o Hs
    ltac:(rewrite length_array; lia) Ho) as (s' & Hr & Hk).
  rewrite Z2Nat.id in Hr by done. exists s'. eexists. split; [|exact Hk].
  by rewrite (bind_ok _ _ _ _ _ Hr).
Qed.

(** What one record does to the tables, where they are as they should be. *)
Record stepped (es : list (Z * LogRecord)) (o : Z) (h : LogRecord) s s' : Prop := {
  sp_active tid : active_txn_ s' !! tid = active_spec (es ++ [(o, h)]) tid;
  sp_status tid : txn_status s' !! tid = status_spec (es ++ [(o, h)]) tid;
  sp_mapping : lsn_mapping_ s' = lsn_mapping_ s;
  sp_dirty : dirty_page_ s' = ∅;
  sp_log : log_of s' = Some l;
}.

Lemma same_analyzed es s s' : same_tables s s' -> analyzed es s -> analyzed es s'.
Proof.
  intros (E1 & E2 & E3 & E4) [Q1 Q2 Q3 Q4]. split; intros; [rewrite E1|rewrite E2|rewrite E3|rewrite E4]; auto.
Qed.

(** A record that is tracked and bounds no transaction. *)
Lemma touch_stepped es o h s page : analyzed es s -> log_of s = Some l ->
  tracked h = true -> bounds h = false ->
  exists s', (dirty page (lsn_ h);; set_active_lsn h) s = (s', Ok tt) /\ stepped es o h s s'.
Proof.
  intros [Q1 Q2 Q3 Q4] Hs Ht Hb. unfold dirty, set_active_lsn. msimpl. rewrite Q4, lookup_empty.
  eexists. split; [reflexivity|].
  assert (He : is_type END h = false).
  { unfold bounds in Hb. by apply orb_false_iff in Hb as [_ Hb]. }
  split; cbn; try done; intros tid.
  - rewrite active_snoc, Ht, He. destruct (decide (log_tid_ h = tid)) as [->|Hne].
    + rewrite decide_True by done. apply lookup_insert_eq.
    + rewrite decide_False by (by intros [_ ?]). by rewrite lookup_insert_ne.
  - rewrite status_snoc, Hb. rewrite decide_False by (by intros [? _]). done.
Qed.

Lemma analyze_record_ok es h o s : analyzed es s -> log_of s = Some l ->
  h = deserialize_header (mem_read l o LOG_HEADER_SIZE) -> (LOG_HEADER_SIZE <= Z.to_nat (log_tot_len_ h))%nat ->
  (o + Z.to_nat (log_tot_len_ h) <= length l)%nat ->
  readable h (mem_read l o (Z.to_nat (log_tot_len_ h))) = true ->
  exists s', analyze_record junk h (Z.of_nat o) s = (s', Ok tt) /\ stepped es (Z.of_nat o) h s s'.
Proof.
  intros Ha Hs Hh Hn Ho Hread.
  assert (Hn0 : 0 <= log_tot_len_ h) by (unfold LOG_HEADER_SIZE, OFFSET_LOG_DATA in Hn; lia).
  destruct (read_rec_ok s h o Hs Hn0 Ho) as (s1 & x & Hr & Hsame & Hs1).
  set (rec := mem_read l o (Z.to_nat (log_tot_len_ h))) in *.
  assert (Hlr : length rec = Z.to_nat (log_tot_len_ h)) by (unfold rec; rewrite length_mem_read; lia).
  assert (Hhd : deserialize_header (rec ++ x) = h).
  { rewrite header_app by lia. rewrite Hh. unfold deserialize_header, load_i32, load_u32.
    assert (Hm : forall k n, (k + n <= LOG_HEADER_SIZE)%nat ->
      mem_read rec k n = mem_read (mem_read l o LOG_HEADER_SIZE) k n).
    { intros k n Hk. unfold rec. rewrite !mem_read_read by lia. done. }
    unfold LOG_HEADER_SIZE, OFFSET_LOG_DATA, OFFSET_LSN, OFFSET_LOG_TOT_LEN, OFFSET_LOG_TID, OFFSET_PREV_LSN in *.
    rewrite !Hm by lia. done. }
  pose proof (same_analyzed _ _ _ Hsame Ha) as Ha1. destruct Hsame as (_ & _ & Em & _).
  assert (Htouch : forall page, tracked h = true -> bounds h = false ->
    exists s', (dirty page (lsn_ h);; set_active_lsn h) s1 = (s', Ok tt) /\ stepped es (Z.of_nat o) h s s').
  { intros page Ht Hb. destruct (touch_stepped es (Z.of_nat o) h s1 page Ha1 Hs1 Ht Hb) as (s' & E & [P1 P2 P3 P4 P5]).
    exists s'. split; [done|]. split; try done. congruence. }
  unfold analyze_record. fold (is_type BEGIN h) (is_type COMMIT h) (is_type ABORT h) (is_type END h) (is_type UPDATE h)
    (is_type INSERT h) (is_type DELETE h) (is_type PAGE_SET h).
  unfold readable in Hread. unfold tracked in Htouch.
  destruct (is_type BEGIN h || is_type COMMIT h || is_type ABORT h) eqn:Eb.
  { destruct Ha as [Q1 Q2 Q3 Q4]. unfold set_active_lsn. msimpl. eexists. split; [reflexivity|].
    assert (Hb : bounds h = true) by (unfold bounds; by rewrite Eb).
    assert (Ht : tracked h = true) by (unfold tracked; by rewrite Hb).
    assert (He : is_type END h = false) by (unfold is_type in *; cbn in *; lia).
    split; cbn; try done; intros tid; [rewrite active_snoc, Ht|rewrite status_snoc, Hb]; rewrite He;
      (destruct (decide (log_tid_ h = tid)) as [->|Hne];
       [rewrite decide_True by done; apply lookup_insert_eq|
        rewrite decide_False by (by intros [_ ?]); by rewrite lookup_insert_ne]). }
  destruct (is_type END h) eqn:Ee.
  { destruct Ha as [Q1 Q2 Q3 Q4]. msimpl. eexists. split; [reflexivity|].
    assert (Hb : bounds h = true) by (unfold bounds; by rewrite Ee, orb_true_r).
    assert (Ht : tracked h = true) by (unfold tracked; by rewrite Hb).
    split; cbn; try done; intros tid; [rewrite active_snoc, Ht|rewrite status_snoc, Hb]; rewrite Ee;
      (destruct (decide (log_tid_ h = tid)) as [->|Hne];
       [rewrite decide_True by done; apply lookup_delete_eq|
        rewrite decide_False by (by intros [_ ?]); by rewrite lookup_delete_ne]). }
  assert (Hb : bounds h = false) by (unfold bounds; by rewrite Eb, Ee).
  rewrite Hb in Htouch. cbn [orb] in Htouch.
  destruct (is_type UPDATE h) eqn:Eu.
  { apply andb_true_iff in Hread as [R1 R2]. rewrite (bind_ok _ _ _ _ _ Hr). unfold deserialize_update.
    destruct (Deserialize_sized rec x _ R1) as (v1 & -> & Ev1). rewrite Ev1.
    destruct (Deserialize_sized rec x _ R2) as (v2 & E2 & Ev2). cbv zeta. rewrite E2, Hhd.
    rewrite (bind_ok _ _ s1 s1 _ eq_refl). apply Htouch; done. }
  destruct (is_type INSERT h || is_type DELETE h) eqn:Ei.
  { rewrite (bind_ok _ _ _ _ _ Hr). unfold deserialize_tuple.
    destruct (Deserialize_sized rec x _ Hread) as (v1 & -> & Ev1). cbv zeta. rewrite Hhd.
    rewrite (bind_ok _ _ s1 s1 _ eq_refl). apply Htouch; [|done]. cbn [orb]. by rewrite Ei. }
  destruct (is_type PAGE_SET h) eqn:Ep.
  { rewrite (bind_ok _ _ _ _ _ Hr). unfold deserialize_page. cbv zeta. cbn [pg_page_no pg_hdr]. rewrite Hhd.
    apply Htouch; [|done]. by rewrite orb_true_r. }
  destruct Ha as [Q1 Q2 Q3 Q4]. eexists. split; [reflexivity|].
  assert (Ht : tracked h = false) by (unfold tracked; rewrite Hb, Eu; cbn [orb]; by rewrite Ei, Ep).
  split; try done; intros tid; [rewrite active_snoc, Ht|rewrite status_snoc, Hb];
    by rewrite decide_False by (by intros [? _]).
Qed.

Lemma analyze_loop_ok n : forall o es2, parse n l o = Some es2 ->
  forall es1 s buf fuel, analyzed es1 s -> log_of s = Some l -> length buf = LOG_HEADER_SIZE -> (o <= length l)%nat ->
  (length es2 <= fuel)%nat ->
  exists s', analyze_loop junk fuel buf (Z.of_nat o) s = (s', Ok tt) /\ analyzed (es1 ++ es2) s' /\ log_of s' = Some l.
Proof.
  induction n as [|n IH]; intros o es2 Hp es1 s buf fuel Ha Hs Hb Ho Hf; cbn [parse] in Hp;
    (destruct (Nat.eqb_spec o (length l)) as [->|Hne];
     [injection Hp as <-; rewrite app_nil_r|]); try discriminate Hp.
  1, 2: destruct (rec_read_log_ok s l buf (Z.of_nat LOG_HEADER_SIZE) (Z.of_nat (length l)) Hs ltac:(done) ltac:(lia))
      as (s1 & Hr & Hsame & Hs1); exists s1; unfold DiskManager.log_slice in Hr;
    rewrite Z.ltb_irrefl, Z.sub_diag in Hr;
    change (Z.min (Z.of_nat LOG_HEADER_SIZE) 0) with 0 in Hr;
    split; [destruct fuel; cbn [analyze_loop]; by rewrite (bind_ok _ _ _ _ _ Hr)|];
    split; [by eapply same_analyzed|done].
  set (h := deserialize_header (mem_read l o LOG_HEADER_SIZE)) in *.
  destruct (_ && _) eqn:Ec in Hp; [|discriminate Hp].
  apply andb_true_iff in Ec as [Ec Hread]. apply andb_true_iff in Ec as [Hn Hin].
  apply Nat.leb_le in Hn, Hin. destruct (parse n l (o + Z.to_nat (log_tot_len_ h))) as [es|] eqn:Ep; [|discriminate Hp].
  injection Hp as <-. cbn [length] in Hf. destruct fuel as [|fuel]; [lia|]. cbn [analyze_loop].
  destruct (read_part_ok s buf LOG_HEADER_SIZE o Hs ltac:(lia) ltac:(lia)) as (s1 & Hr & Hsame & Hs1).
  rewrite (bind_ok _ _ _ _ _ Hr). cbn [fst snd]. rewrite drop_ge, app_nil_r by lia. fold h.
  change (0 <? Z.of_nat LOG_HEADER_SIZE) with true. cbv iota.
  destruct (analyze_record_ok es1 h o s1 (same_analyzed _ _ _ Hsame Ha) Hs1 eq_refl Hn Hin Hread)
    as (s2 & Hr2 & [P1 P2 P3 P4 P5]).
  rewrite (bind_ok _ _ _ _ _ Hr2). cbv zeta.
  rewrite (bind_ok _ _ s2 (set_mapping (<[lsn_ h := Z.of_nat o]> (lsn_mapping_ s2)) s2) tt eq_refl).
  assert (Hn0 : 0 <= log_tot_len_ h) by (unfold LOG_HEADER_SIZE, OFFSET_LOG_DATA in Hn; lia).
  rewrite i32_small by (unfold in_i32; lia).
  replace (Z.of_nat o + log_tot_len_ h) with (Z.of_nat (o + Z.to_nat (log_tot_len_ h))) by lia.
  rewrite (cons_middle _ es1 es), app_assoc. apply (IH _ _ Ep); try done; [|by rewrite length_mem_read; lia|lia].
  clearbody h. split; cbn; try done. intros lsn. rewrite mapping_snoc, P3.
  destruct Hsame as (_ & _ & -> & _). destruct (decide (lsn_ h = lsn)) as [->|Hne'];
    [apply lookup_insert_eq|by rewrite lookup_insert_ne by done; apply (an_mapping _ _ Ha)].
Qed.
End analysis.

(** ** Properties *)
Section theorems.
Context {D R C : Type} `{Disk D} `{Files D} `{Shell D} `{LogFileLaws D} `{Replacer R}.
Context `{TxnContext C} `{HasTxn C} `{StmtContext C}.
Context (junk : bytes) (junk_rid : Rid).
#[local] Abbreviation t := (t D R C).
Implicit Types s : t.

(** C24: the analysis of a log that is a sequence of whole records terminates, in as many
    turns as there are records, with these tables: a transaction is
    active when its last BEGIN, COMMIT, ABORT, END, tuple or table page record is not an END, with the LSN of
    that record; its status is that of its last BEGIN, COMMIT or ABORT, with no END
    after it; every LSN is mapped to the offset of its record.  This is not what the comment of
    the function says: a COMMIT or ABORT record leaves its transaction in the table, only END
    removes it, and the table of dirty pages, to which the pages of redo records should be
    added, stays empty, whatever the log holds. *)
Theorem analyze_tables s l n es fuel :
  log_of s = Some l -> Z.of_nat (length l) < 2 ^ 31 -> parse n l 0 = Some es -> (length es <= fuel)%nat ->
  active_txn_ s = ∅ -> txn_status s = ∅ -> lsn_mapping_ s = ∅ -> dirty_page_ s = ∅ ->
  exists s', analyze junk fuel s = (s', Ok tt) /\ log_of s' = Some l /\ dirty_page_ s' = ∅ /\
    (forall tid, active_txn_ s' !! tid = active_spec es tid) /\
    (forall tid, txn_status s' !! tid = status_spec es tid) /\
    (forall lsn, lsn_mapping_ s' !! lsn = mapping_spec es lsn).
Proof.
  intros Hl Hlen Hp Hf E1 E2 E3 E4.
  destruct (analyze_loop_ok junk l Hlen n 0 es Hp [] s (array junk (Z.of_nat LOG_HEADER_SIZE)) fuel)
    as (s' & Hr & [Q1 Q2 Q3 Q4] & Hl'); [|done|by rewrite length_array|lia|done|].
  - split; intros; rewrite ?E1, ?E2, ?E3; done.
  - exists s'. split_and!; done.
Qed.

(** C25: the rollback of the open transactions does not end when the one with the greatest LSN
    has a COMMIT record and no END record: the loop goes on to its next turn in
    the state it was in, and any number of turns is used up. *)
Theorem undo_committed_hangs s tid lsn :
  get_max_lsn (active_txn_ s) = (Some tid, lsn) -> txn_status s !! tid = Some Committed ->
  (forall fuel, undo junk junk_rid (S fuel) s = undo junk junk_rid fuel s) /\
  forall fuel, undo junk junk_rid fuel s = (s, Throw OutOfFuel).
Proof.
  intros Hm Hc.
  assert (Hne : active_txn_ s <> ∅).
  { intros E. rewrite E in Hm. unfold get_max_lsn in Hm. rewrite map_to_list_empty in Hm. discriminate Hm. }
  assert (Hstep : forall fuel, undo junk junk_rid (S fuel) s = undo junk junk_rid fuel s).
  { intros fuel. cbn [undo]. rewrite (bind_ok _ _ s s s eq_refl). rewrite decide_False by done. rewrite Hm.
    assert (Hst : status_at tid s = (s, Ok Committed)) by (unfold status_at; msimpl; by rewrite Hc).
    rewrite (bind_ok _ _ _ _ _ Hst). by rewrite decide_True. }
  split; [exact Hstep|]. induction fuel as [|fuel IH]; [|by rewrite Hstep].
  cbn [undo]. rewrite (bind_ok _ _ s s s eq_refl). rewrite decide_False by done. done.
Qed.
End theorems.

(** ** An example, over the in-memory file system *)

(** The log of a disk whose descriptor of the log is open on the file of that name. *)
Definition mem_log (d : DiskManager.t MemFs.t) : option bytes :=
  e ← MemFs.fds (DiskManager.os d) !! DiskManager.log_fd_ d;
  if decide (DiskManager.log_fd_ d <> -1 /\ MemFs.names (DiskManager.os d) !! LOG_FILE_NAME = Some e.1 /\
             Z.of_nat (length (MemFs.data (DiskManager.os d) e.1)) < 2 ^ 31)
  then Some (MemFs.data (DiskManager.os d) e.1) else None.

Lemma mem_log_read d l sz offset : mem_log d = Some l -> 0 <= sz -> 0 <= offset ->
  exists d', DiskManager.read_log sz offset d = (d', Ok (DiskManager.log_slice l sz offset)) /\ mem_log d' = Some l.
Proof.
  unfold mem_log. intros Hd Hsz Ho.
  destruct (MemFs.fds (DiskManager.os d) !! DiskManager.log_fd_ d) as [[i ps]|] eqn:Ef; [|done].
  cbn [mbind option_bind fst] in Hd. case_decide as Hc; [|done]. destruct Hc as (Hf & Hn & Hlen). injection Hd as <-.
  set (l := MemFs.data (DiskManager.os d) i) in *.
  assert (Hsize : DiskManager.get_file_size LOG_FILE_NAME d = (d, Ok (Z.of_nat (length l)))).
  { unfold DiskManager.get_file_size. msimpl. unfold MemFs.stat. rewrite Hn. fold l.
    by rewrite i32_small by (unfold in_i32; lia). }
  unfold DiskManager.read_log. rewrite (bind_ok _ _ d d d eq_refl). rewrite decide_False by done.
  rewrite (bind_ok _ _ _ _ _ Hsize). unfold DiskManager.log_slice.
  destruct (Z.ltb_spec (Z.of_nat (length l)) offset) as [Hlo|Hlo].
  { eexists. split; [reflexivity|]. rewrite Ef. cbn [mbind option_bind fst]. by rewrite decide_True. }
  cbv zeta. set (n := Z.min sz (Z.of_nat (length l) - offset)).
  case_decide as En.
  { eexists. rewrite En. split; [reflexivity|]. rewrite Ef. cbn [mbind option_bind fst]. by rewrite decide_True. }
  assert (Hnpos : 0 < n) by lia.
  unfold DiskManager.sys. msimpl. unfold MemFs.lseek. rewrite Ef. unfold MemFs.read. cbn [MemFs.fds MemFs.set_fds].
  rewrite lookup_insert_eq. cbn [fst snd].
  repeat change (MemFs.data (MemFs.set_fds _ (DiskManager.os d)) i) with l. rewrite Z.add_0_l.
  assert (El : Z.of_nat (length (mem_read l (Z.to_nat offset) (Z.to_nat n))) = n) by (rewrite length_mem_read; lia).
  rewrite !El, bool_decide_true by done. eexists. split; [reflexivity|]. cbn.
  rewrite insert_insert_eq, lookup_insert_eq. cbn [mbind option_bind fst]. by rewrite decide_True.
Qed.
#[export] Instance mem_LogFileLaws : LogFileLaws (DiskManager.t MemFs.t) :=
  { lf_log := mem_log; lf_read := mem_log_read }.

#[local] Existing Instance SmManager.demo_TxnContext.
#[local] Existing Instance SmManager.demo_StmtContext.
#[local] Existing Instance SmManager.demo_Shell.
#[local] Abbreviation demo_t :=
  (t (DiskManager.t MemFs.t) LRUReplacer.t (Context.t (DiskManager.t MemFs.t))).

(** The log of a transaction that ended, and of one whose END record was not written. *)
Definition demo_insert : TupleLogRecord :=
  InsertLogRecord 2 2 (RmRecord_new 3 [10; 20; 30]) (mkRid 1 0) "t".
Definition demo_records : list LogManager.op :=
  [ LogManager.Add (LBase (BeginLogRecord 1 (-1))); LogManager.Add (LBase (BeginLogRecord 2 (-1)));
    LogManager.Add (LTuple demo_insert); LogManager.Add (LBase (CommitLogRecord 1 0));
    LogManager.Add (LBase (EndLogRecord 1 3)); LogManager.Add (LBase (CommitLogRecord 2 2)); LogManager.FlushLog ].
Definition demo_log_disk : DiskManager.t MemFs.t :=
  LogManager.disk_manager_ (LogManager.run 400 demo_records
    (LogManager.make 400 0 (DiskManager.create_file LOG_FILE_NAME (DiskManager.make MemFs.empty)).1)).1.
Definition demo : demo_t :=
  make (SmManager.mk (mkDbMeta "db" ∅) ∅ ∅ (BufferPool.make 2 (fun _ => 0) demo_log_disk (LRUReplacer.make 2)) SmManager.demo_ctx).

Lemma analyze_tables_witness :
  match analyze [] 6 demo with
  | (s', Ok _) => dirty_page_ s' = ∅ /\ active_txn_ s' !! 1 = None /\ active_txn_ s' !! 2 = Some 5 /\
                  txn_status s' !! 2 = Some Committed /\ lsn_mapping_ s' !! 2 = Some 40
  | _ => False
  end.
Proof.
  destruct (parse 10 (default [] (mem_log demo_log_disk)) 0) as [es|] eqn:Ep; [|vm_compute in Ep; discriminate Ep].
  destruct (analyze_tables [] demo (default [] (mem_log demo_log_disk)) 10 es 6)
    as (s' & -> & _ & Q0 & Q1 & Q2 & Q3).
  - vm_compute. reflexivity.
  - vm_compute. reflexivity.
  - exact Ep.
  - vm_compute in Ep. injection Ep as <-. apply Nat.leb_le. reflexivity.
  - reflexivity.
  - reflexivity.
  - reflexivity.
  - reflexivity.
  - rewrite Q0, !Q1, Q2, Q3. vm_compute in Ep. injection Ep as <-. vm_compute. auto.
Defined.

Definition demo_analyzed : demo_t := (analyze [] 6 demo).1.

Lemma undo_committed_hangs_witness :
  get_max_lsn (active_txn_ demo_analyzed) = (Some 2, 5) /\
  undo [] (mkRid 0 0) 4 demo_analyzed = undo [] (mkRid 0 0) 3 demo_analyzed /\
  undo [] (mkRid 0 0) 4 demo_analyzed = (demo_analyzed, Throw OutOfFuel).
Proof.
  assert (E : get_max_lsn (active_txn_ demo_analyzed) = (Some 2, 5)) by (vm_compute; reflexivity).
  destruct (undo_committed_hangs [] (mkRid 0 0) demo_analyzed 2 5 E) as [Q1 Q2].
  - vm_compute. reflexivity.
  - split; [exact E|]. split; [apply Q1|apply Q2].
Defined.
End RecoveryManager.
