(* ===== verification/Values.v ===== *)
(** * Values, columns and conditions

    [common/common.h]: the values of SQL literals and the conditions the executors get;
    and the floating point formats of the machine they are computed in. *)

From Stdlib Require Import SpecFloat Ascii.
From S2P Require Import Prelude Common RmDefs IxDefs.

(** ** [float]: IEEE binary32

    A [float] in memory is 32 bits.  The type of the Standard Library for floating
    point data gives its meaning, and that of the x87 [long double]. *)

(** The fields of the format. *)
Definition f32_exp (b : Z) : Z := Z.shiftr b 23 mod 256.
Definition f32_man (b : Z) : Z := b mod 2 ^ 23.

Definition f32_of (b : Z) : spec_float :=
  let s := Z.testbit b 31 in
  if f32_exp b =? 255 then (if f32_man b =? 0 then S754_infinity s else S754_nan)
  else if f32_exp b =? 0 then
    match f32_man b with Zpos m => S754_finite s m (-149) | _ => S754_zero s end
  else S754_finite s (Z.to_pos (f32_man b + 2 ^ 23)) (f32_exp b - 150).

Definition sign_bit (s : bool) : Z := if s then 1 else 0.

(** The bits of a value of the format; a NaN is the quiet one. *)
Definition f32_bits (x : spec_float) : Z :=
  match x with
  | S754_zero s => sign_bit s * 2 ^ 31
  | S754_infinity s => sign_bit s * 2 ^ 31 + 255 * 2 ^ 23
  | S754_nan => 255 * 2 ^ 23 + 2 ^ 22
  | S754_finite s m e =>
      sign_bit s * 2 ^ 31 +
      (if Zpos m <? 2 ^ 23 then Zpos m else (e + 150) * 2 ^ 23 + (Zpos m - 2 ^ 23))
  end.

(** Addition rounds to nearest, ties to even. *)
Definition f32_add (a b : Z) : Z := f32_bits (SFadd 24 128 (f32_of a) (f32_of b)).

(** ** [long double]: the 80-bit format of the x87

    Sixteen bytes, of which eight hold the mantissa, two the sign and the exponent, and
    six are padding, which is not read. *)
Definition sizeof_long_double : nat := 16.

Definition ld_bytes (x : spec_float) : bytes :=
  let '(m, se) :=
    match x with
    | S754_zero s => (0, sign_bit s * 2 ^ 15)
    | S754_infinity s => (2 ^ 63, sign_bit s * 2 ^ 15 + 32767)
    | S754_nan => (2 ^ 63 + 2 ^ 62, 32767)
    | S754_finite s m e =>
        (Zpos m, sign_bit s * 2 ^ 15 + (if Zpos m <? 2 ^ 63 then 0 else e + 16446))
    end in
  le_encode 8 m ++ le_encode 2 se ++ replicate 6 0.

(** An encoding whose integer bit contradicts its exponent is not a number. *)
Definition ld_of (p : bytes) : spec_float :=
  let m := load_u64 p 0 in
  let se := le_decode (mem_read p 8 2) in
  let s := Z.testbit se 15 in
  let e := se mod 2 ^ 15 in
  if e =? 32767 then (if m =? 2 ^ 63 then S754_infinity s else S754_nan)
  else match m with
       | Zpos q =>
           if e =? 0 then S754_finite s q (-16445)
           else if m <? 2 ^ 63 then S754_nan else S754_finite s q (e - 16446)
       | _ => if e =? 0 then S754_zero s else S754_nan
       end.

(** The conversions to [long double], which round to nearest. *)
Definition ld_of_int (z : Z) : spec_float := binary_normalize 64 16384 z 0 false.
Definition ld_of_f32 (x : spec_float) : spec_float :=
  match x with
  | S754_finite s m e => binary_normalize 64 16384 (cond_Zopp s (Zpos m)) e s
  | _ => x
  end.

(** ** The numbers these formats stand for

    In units of [2^-149], which all integers and all finite [float]s are multiples of. *)
Inductive number := NotANumber | MinusInfinity | Units (z : Z) | PlusInfinity.

Definition number_lt (a b : number) : bool :=
  match a, b with
  | NotANumber, _ | _, NotANumber => false
  | Units x, Units y => x <? y
  | MinusInfinity, MinusInfinity | PlusInfinity, _ => false
  | MinusInfinity, _ | Units _, PlusInfinity => true
  | Units _, MinusInfinity => false
  end.

(** [(a < b) ? -1 : ((a > b) ? 1 : 0)]. *)
Definition three_way {A} (lt : A -> A -> bool) (a b : A) : Z :=
  if lt a b then -1 else if lt b a then 1 else 0.

Definition int_number (z : Z) : number := Units (z * 2 ^ 149).
Definition f32_mag (b : Z) : Z :=
  if f32_exp b =? 0 then f32_man b else (f32_man b + 2 ^ 23) * 2 ^ (f32_exp b - 1).
Definition f32_number (b : Z) : number :=
  if f32_exp b =? 255 then
    (if f32_man b =? 0 then if Z.testbit b 31 then MinusInfinity else PlusInfinity else NotANumber)
  else Units (cond_Zopp (Z.testbit b 31) (f32_mag b)).

(** *** The order of [float]s is that of their numbers *)

Lemma f32_fields b : b mod 2 ^ 31 = f32_exp b * 2 ^ 23 + f32_man b /\
  0 <= f32_exp b < 256 /\ 0 <= f32_man b < 2 ^ 23.
Proof.
  unfold f32_exp, f32_man. rewrite Z.shiftr_div_pow2 by lia.
  split; [|split; apply Z.mod_pos_bound; lia].
  change (2 ^ 31) with (2 ^ 23 * 256). rewrite Z.rem_mul_r by lia. lia.
Qed.

Lemma f32_mag_mono a b : a mod 2 ^ 31 < b mod 2 ^ 31 -> f32_mag a < f32_mag b.
Proof.
  destruct (f32_fields a) as (-> & Ea & Ma), (f32_fields b) as (-> & Eb & Mb). intros Hlt. unfold f32_mag.
  destruct (decide (f32_exp a = f32_exp b)) as [He|He].
  - rewrite He in *. destruct (Z.eqb_spec (f32_exp b) 0); [lia|].
    apply Z.mul_lt_mono_pos_r; [apply Z.pow_pos_nonneg; lia|lia].
  - assert (f32_exp a < f32_exp b) by lia. destruct (Z.eqb_spec (f32_exp b) 0); [lia|].
    assert (Hb : 2 ^ 23 * 2 ^ (f32_exp b - 1) <= (f32_man b + 2 ^ 23) * 2 ^ (f32_exp b - 1)).
    { apply Z.mul_le_mono_nonneg_r; [apply Z.pow_nonneg|]; lia. }
    destruct (Z.eqb_spec (f32_exp a) 0) as [E0|E0].
    + pose proof (Z.pow_pos_nonneg 2 (f32_exp b - 1)). nia.
    + assert (Ha : (f32_man a + 2 ^ 23) * 2 ^ (f32_exp a - 1) < 2 ^ 24 * 2 ^ (f32_exp a - 1)).
      { apply Z.mul_lt_mono_pos_r; [apply Z.pow_pos_nonneg|]; lia. }
      assert (2 ^ 24 * 2 ^ (f32_exp a - 1) <= 2 ^ 23 * 2 ^ (f32_exp b - 1)); [|lia].
      rewrite <- !Z.pow_add_r by lia. apply Z.pow_le_mono_r; lia.
Qed.

Lemma f32_mag_eq a b : a mod 2 ^ 31 = b mod 2 ^ 31 -> f32_mag a = f32_mag b.
Proof.
  destruct (f32_fields a) as (-> & Ea & Ma), (f32_fields b) as (-> & Eb & Mb). intros Heq.
  assert (f32_exp a = f32_exp b) as He by lia. assert (f32_man a = f32_man b) as Hm by lia.
  unfold f32_mag. by rewrite He, Hm.
Qed.

Lemma f32_mag_nonneg a : 0 <= f32_mag a.
Proof.
  destruct (f32_fields a) as (_ & Ea & Ma). unfold f32_mag. destruct (_ =? _); [lia|].
  apply Z.mul_nonneg_nonneg; [lia|]. apply Z.pow_nonneg. lia.
Qed.

Lemma f32_mag_zero a : f32_mag a = 0 <-> a mod 2 ^ 31 = 0.
Proof.
  assert (H0 : f32_mag 0 = 0) by done. split; intros H.
  - destruct (Z.lt_trichotomy (a mod 2 ^ 31) 0) as [H'|[H'|H']]; [|done|].
    + pose proof (Z.mod_pos_bound a (2 ^ 31)). lia.
    + pose proof (f32_mag_mono 0 a). rewrite Z.mod_0_l in *; lia.
  - rewrite <- H0. apply f32_mag_eq. by rewrite H.
Qed.

Lemma f32_lt_mag a b : (a mod 2 ^ 31 <? b mod 2 ^ 31) = (f32_mag a <? f32_mag b).
Proof.
  destruct (Z.lt_trichotomy (a mod 2 ^ 31) (b mod 2 ^ 31)) as [H|[H|H]].
  - pose proof (f32_mag_mono _ _ H). rewrite !(proj2 (Z.ltb_lt _ _)); [done|lia..].
  - pose proof (f32_mag_eq _ _ H). rewrite !(proj2 (Z.ltb_ge _ _)); [done|lia..].
  - pose proof (f32_mag_mono _ _ H). rewrite !(proj2 (Z.ltb_ge _ _)); [done|lia..].
Qed.

Lemma f32_nan_fields b : f32_nan b = (f32_exp b =? 255) && negb (f32_man b =? 0).
Proof. done. Qed.

(** The bits of an infinity are above those of finite values. *)
Lemma f32_lt_number a b : f32_lt a b = number_lt (f32_number a) (f32_number b).
Proof.
  unfold f32_lt, f32_number. rewrite !f32_nan_fields. unfold f32_ord.
  pose proof (f32_mag_nonneg a) as Na. pose proof (f32_mag_nonneg b) as Nb.
  pose proof (f32_lt_mag a b) as Lab. pose proof (f32_lt_mag b a) as Lba.
  pose proof (f32_mag_zero a) as Za. pose proof (f32_mag_zero b) as Zb.
  destruct (f32_fields a) as (Fa & Ea & Ma), (f32_fields b) as (Fb & Eb & Mb).
  destruct (Z.eqb_spec (f32_exp a) 255) as [Ia|Ia], (Z.eqb_spec (f32_exp b) 255) as [Ib|Ib];
    destruct (Z.eqb_spec (f32_man a) 0) as [Ja|Ja], (Z.eqb_spec (f32_man b) 0) as [Jb|Jb];
    destruct (Z.testbit a 31), (Z.testbit b 31); cbn [andb negb number_lt cond_Zopp];
    rewrite ?Z.ltb_lt, ?Z.ltb_ge; try done;
    rewrite ?Fa, ?Fb in *; try (apply Z.ltb_lt; lia); try (apply Z.ltb_ge; lia).
  all: match goal with |- (?x <? ?y) = (?z <? ?w) =>
         destruct (Z.ltb_spec x y), (Z.ltb_spec z w); try done end.
  all: destruct (Z.ltb_spec (f32_mag a) (f32_mag b)), (Z.ltb_spec (f32_mag b) (f32_mag a)); lia.
Qed.

(** *** [long double]s made from integers and [float]s are exact *)

(** A finite value in its format: a mantissa of [prec] bits, full unless the exponent
    is the least; the greatest exponent is as far from the least as in IEEE formats. *)
Record in_format (prec emin m e : Z) : Prop := {
  if_exp : emin <= e <= 3 - emin - 2 * prec;
  if_pos : 0 < m;
  if_man : m < 2 ^ prec;
  if_full : emin < e -> 2 ^ (prec - 1) <= m;
}.

(** The value is the number. *)
Definition denotes (prec emin : Z) (x : spec_float) (v : number) : Prop :=
  match x, v with
  | S754_nan, NotANumber | S754_infinity true, MinusInfinity | S754_infinity false, PlusInfinity => True
  | S754_zero _, Units z => z = 0
  | S754_finite s m e, Units z =>
      in_format prec emin (Zpos m) e /\ cond_Zopp s (Zpos m) * 2 ^ (e - emin) = z * 2 ^ (- 149 - emin)
  | _, _ => False
  end.

Lemma in_format_lt prec emin m1 e1 m2 e2 : 0 < prec -> in_format prec emin m1 e1 -> in_format prec emin m2 e2 ->
  e1 < e2 -> m1 * 2 ^ (e1 - emin) < m2 * 2 ^ (e2 - emin).
Proof.
  intros Hp [[A1 _] A2 A3 A4] [[B1 _] B2 B3 B4] He.
  apply Z.lt_le_trans with (2 ^ prec * 2 ^ (e1 - emin)).
  - apply Z.mul_lt_mono_pos_r; [apply Z.pow_pos_nonneg; lia|done].
  - apply Z.le_trans with (2 ^ (prec - 1) * 2 ^ (e2 - emin)).
    + rewrite <- !Z.pow_add_r by lia. apply Z.pow_le_mono_r; lia.
    + apply Z.mul_le_mono_nonneg_r; [apply Z.pow_nonneg; lia|]. apply B4. lia.
Qed.

(** The order of the magnitudes is that of the exponents, then that of the mantissas. *)
Lemma mag_compare prec emin m1 e1 m2 e2 : 0 < prec ->
  in_format prec emin (Zpos m1) e1 -> in_format prec emin (Zpos m2) e2 ->
  match Z.compare e1 e2 with Lt => Lt | Gt => Gt | Eq => Pos.compare_cont Eq m1 m2 end =
  Z.compare (Zpos m1 * 2 ^ (e1 - emin)) (Zpos m2 * 2 ^ (e2 - emin)).
Proof.
  intros Hp H1 H2. destruct (Z.compare_spec e1 e2) as [<-|He|He].
  - rewrite <- Zmult_compare_compat_r; [done|]. apply Z.lt_gt, Z.pow_pos_nonneg; [lia|].
    pose proof (if_exp _ _ _ _ H1). lia.
  - symmetry. apply Z.compare_lt_iff. by apply (in_format_lt prec).
  - symmetry. apply Z.compare_gt_iff. by apply (in_format_lt prec).
Qed.

Lemma SFltb_number prec emin x y v w : 0 < prec -> emin <= -149 ->
  denotes prec emin x v -> denotes prec emin y w -> SFltb x y = number_lt v w.
Proof.
  intros Hp He Hx Hy. unfold SFltb, SFcompare.
  assert (Hs : forall a b, (a <? b) = (a * 2 ^ (-149 - emin) <? b * 2 ^ (-149 - emin))).
  { intros a b. assert (0 < 2 ^ (-149 - emin)) by (apply Z.pow_pos_nonneg; lia).
    destruct (Z.ltb_spec a b), (Z.ltb_spec (a * 2 ^ (-149 - emin)) (b * 2 ^ (-149 - emin))); try done; nia. }
  destruct x as [sx|[]| |sx mx ex], v as [| |zx|], y as [sy|[]| |sy my ey], w as [| |zy|]; try done; simpl in Hx, Hy;
    try by destruct sx. all: try by destruct sy.
  - by subst.
  - destruct Hy as [Hy E]. subst zx. cbn [number_lt]. rewrite Hs, Z.mul_0_l, <- E.
    assert (0 < Z.pos my * 2 ^ (ey - emin)).
    { apply Z.mul_pos_pos; [lia|]. apply Z.pow_pos_nonneg; [lia|]. pose proof (if_exp _ _ _ _ Hy). lia. }
    symmetry. destruct sy; [apply Z.ltb_ge|apply Z.ltb_lt]; unfold cond_Zopp; lia.
  - destruct Hx as [Hx E]. subst zy. cbn [number_lt]. rewrite Hs, Z.mul_0_l, <- E.
    assert (0 < Z.pos mx * 2 ^ (ex - emin)).
    { apply Z.mul_pos_pos; [lia|]. apply Z.pow_pos_nonneg; [lia|]. pose proof (if_exp _ _ _ _ Hx). lia. }
    symmetry. destruct sx; [apply Z.ltb_lt|apply Z.ltb_ge]; unfold cond_Zopp; lia.
  - destruct Hx as [Hx Ex], Hy as [Hy Ey]. cbn [number_lt]. rewrite Hs, <- Ex, <- Ey.
    pose proof (mag_compare _ _ _ _ _ _ Hp Hx Hy) as Hc.
    assert (0 < Z.pos my * 2 ^ (ey - emin)).
    { apply Z.mul_pos_pos; [lia|]. apply Z.pow_pos_nonneg; [lia|]. pose proof (if_exp _ _ _ _ Hy). lia. }
    assert (0 < Z.pos mx * 2 ^ (ex - emin)).
    { apply Z.mul_pos_pos; [lia|]. apply Z.pow_pos_nonneg; [lia|]. pose proof (if_exp _ _ _ _ Hx). lia. }
    unfold cond_Zopp. destruct sx, sy.
    + replace (match ex ?= ey with Eq => CompOpp (Pos.compare_cont Eq mx my) | Lt => Gt | Gt => Lt end)
        with (CompOpp (match ex ?= ey with Eq => Pos.compare_cont Eq mx my | Lt => Lt | Gt => Gt end))
        by (by destruct (ex ?= ey)).
      rewrite Hc, !Z.mul_opp_l.
      clear. generalize (Z.pos mx * 2 ^ (ex - emin)), (Z.pos my * 2 ^ (ey - emin)). intros P Q.
      destruct (Z.compare_spec P Q), (Z.ltb_spec (- P) (- Q)); simpl; try done; lia.
    + symmetry. apply Z.ltb_lt. lia.
    + symmetry. apply Z.ltb_ge. lia.
    + rewrite Hc. done.
Qed.

Lemma digits2_pos_bounds p :
  2 ^ (Zpos (digits2_pos p) - 1) <= Zpos p < 2 ^ Zpos (digits2_pos p).
Proof.
  induction p as [p IH|p IH|]; cbn [digits2_pos]; [| |done].
  all: rewrite Pos2Z.inj_succ; replace (Z.succ (Zpos (digits2_pos p)) - 1) with (Z.succ (Zpos (digits2_pos p) - 1)) by lia.
  all: rewrite !Z.pow_succ_r by lia; lia.
Qed.

Lemma digits2_pos_shift m d : Zpos (digits2_pos (Pos.iter xO m d)) = Zpos (digits2_pos m) + Zpos d.
Proof.
  induction d as [|d IH] using Pos.peano_ind; [cbn; lia|]. rewrite Pos.iter_succ. cbn [digits2_pos]. lia.
Qed.

Lemma pos_shift_val m d : Zpos (Pos.iter xO m d) = Zpos m * 2 ^ Zpos d.
Proof.
  induction d as [|d IH] using Pos.peano_ind; [cbn; lia|].
  rewrite Pos.iter_succ, Pos2Z.inj_xO, IH, Pos2Z.inj_succ, Z.pow_succ_r by lia. lia.
Qed.

(** Aligning to a smaller exponent keeps the value. *)
Lemma shl_align_val m e e' : e' <= e -> exists m', shl_align m e e' = (m', e') /\
  Zpos m' = Zpos m * 2 ^ (e - e') /\ Zpos (digits2_pos m') = Zpos (digits2_pos m) + (e - e').
Proof.
  intros He. unfold shl_align. destruct (e' - e) as [|d|d] eqn:E.
  - assert (e' = e) as -> by lia. exists m. rewrite Z.sub_diag. split_and!; [done|lia|lia].
  - lia.
  - exists (Pos.iter xO m d). replace (e - e') with (Zpos d) by lia.
    split_and!; [done|apply pos_shift_val|apply digits2_pos_shift].
Qed.

(** A mantissa that fits needs no rounding. *)
Lemma binary_round_exact sx m e : Zpos m < 2 ^ 64 -> -16445 <= e <= 16320 ->
  exists m' e', binary_round 64 16384 sx m e = S754_finite sx m' e' /\
    in_format 64 (-16445) (Zpos m') e' /\ Zpos m' * 2 ^ (e' + 16445) = Zpos m * 2 ^ (e + 16445).
Proof.
  intros Hm He. pose proof (digits2_pos_bounds m) as Hd.
  assert (Hd64 : Zpos (digits2_pos m) <= 64).
  { apply Z.nlt_ge. intros H. assert (2 ^ 64 <= 2 ^ (Zpos (digits2_pos m) - 1)) by (apply Z.pow_le_mono_r; lia). lia. }
  set (e' := fexp 64 16384 (Zpos (digits2_pos m) + e)).
  assert (Ee : e' = Z.max (Zpos (digits2_pos m) + e - 64) (-16445)) by done.
  destruct (shl_align_val m e e') as (m' & Hs & Hv & Hg); [lia|].
  assert (Hf : fexp 64 16384 (Zpos (digits2_pos m') + e') - e' = 0).
  { rewrite Hg. replace (Zpos (digits2_pos m) + (e - e') + e') with (Zpos (digits2_pos m) + e) by lia. fold e'. lia. }
  exists m', e'. split_and!.
  - unfold binary_round. fold e'. rewrite Hs. unfold binary_round_aux, shr_fexp. cbn [Zdigits2]. rewrite Hf.
    cbn [shr shr_record_of_loc shr_m loc_of_shr_record round_nearest_even Zdigits2]. rewrite Hf.
    cbn [shr shr_record_of_loc shr_m]. rewrite (proj2 (Z.leb_le _ _)); [done|]. lia.
  - pose proof (digits2_pos_bounds m') as Hd'. rewrite Hg in Hd'. split; [lia|lia| |].
    + apply Z.lt_le_trans with (1 := proj2 Hd'). apply Z.pow_le_mono_r; lia.
    + intros H. replace (64 - 1) with (Zpos (digits2_pos m) + (e - e') - 1) by lia. lia.
  - rewrite Hv, <- Z.mul_assoc, <- Z.pow_add_r by lia. f_equal. f_equal. lia.
Qed.

Lemma cond_Zopp_mul s a b : cond_Zopp s a * b = cond_Zopp s (a * b).
Proof. destruct s; simpl; lia. Qed.

Lemma normalize_exact s m e z : Zpos m < 2 ^ 64 -> -16445 <= e <= 16320 ->
  cond_Zopp s (Zpos m) * 2 ^ (e + 16445) = z * 2 ^ 16296 ->
  denotes 64 (-16445) (binary_round 64 16384 s m e) (Units z).
Proof.
  intros Hm He Hz. destruct (binary_round_exact s m e Hm He) as (m' & e' & -> & Hf & Hv).
  split; [done|]. rewrite cond_Zopp_mul in *. change (- (-16445)) with 16445.
  assert (He' : forall x, x - -16445 = x + 16445) by (clear; lia). by rewrite He', Hv.
Qed.

Lemma ld_of_int_denotes z : - 2 ^ 63 <= z < 2 ^ 63 -> denotes 64 (-16445) (ld_of_int z) (int_number z).
Proof.
  intros Hz. unfold ld_of_int, int_number, binary_normalize.
  assert (Hp : 2 ^ (0 + 16445) = 2 ^ 149 * 2 ^ 16296) by (rewrite <- Z.pow_add_r by lia; done).
  destruct z as [|p|p]; [done| |]; (apply normalize_exact; [clear Hp; lia|clear Hp; lia|]); unfold cond_Zopp; rewrite Hp; apply Z.mul_assoc.
Qed.

Lemma f32_of_denotes b : 0 <= b < 2 ^ 32 -> denotes 24 (-149) (f32_of b) (f32_number b).
Proof.
  intros Hb. unfold f32_of, f32_number, f32_mag. destruct (f32_fields b) as (_ & He & Hm).
  destruct (Z.eqb_spec (f32_exp b) 255).
  { destruct (f32_man b =? 0); [|done]. by destruct (Z.testbit b 31). }
  destruct (Z.eqb_spec (f32_exp b) 0).
  - destruct (f32_man b) as [|m|m] eqn:E; [by destruct (Z.testbit b 31)| |lia].
    split; [split; lia|]. change (-149 - -149) with 0. by rewrite !Z.mul_1_r.
  - rewrite <- (Z2Pos.id (f32_man b + 2 ^ 23)) at 2 by lia.
    split; [split; rewrite ?Z2Pos.id; lia|]. change (-149 - -149) with 0. rewrite Z.mul_1_r, cond_Zopp_mul.
    f_equal. f_equal. f_equal. lia.
Qed.

(** The conversion of a finite value. *)
Lemma ld_of_finite s m e z : Zpos m < 2 ^ 24 -> -149 <= e <= 104 -> cond_Zopp s (Zpos m) * 2 ^ (e + 149) = z ->
  denotes 64 (-16445) (ld_of_f32 (S754_finite s m e)) (Units z).
Proof.
  intros Hm He <-. cbn [ld_of_f32].
  assert (Hv : cond_Zopp s (Zpos m) * 2 ^ (e + 16445) = cond_Zopp s (Zpos m) * 2 ^ (e + 149) * 2 ^ 16296).
  { rewrite <- Z.mul_assoc, <- Z.pow_add_r by lia. f_equal. f_equal. lia. }
  unfold binary_normalize. destruct s; cbn [cond_Zopp Z.opp] in *; (apply normalize_exact; [clear Hv; lia|clear Hv; lia|exact Hv]).
Qed.

Lemma ld_of_f32_denotes b : 0 <= b < 2 ^ 32 -> denotes 64 (-16445) (ld_of_f32 (f32_of b)) (f32_number b).
Proof.
  intros Hb. unfold f32_of, f32_number, f32_mag. destruct (f32_fields b) as (_ & He & Hm).
  destruct (Z.eqb_spec (f32_exp b) 255).
  { destruct (f32_man b =? 0); [|exact I]. destruct (Z.testbit b 31); exact I. }
  destruct (Z.eqb_spec (f32_exp b) 0).
  - destruct (f32_man b) as [|m|m] eqn:E; [by destruct (Z.testbit b 31)| |lia].
    apply ld_of_finite; [lia|lia|]. apply Z.mul_1_r.
  - apply ld_of_finite; [rewrite Z2Pos.id; lia|lia|]. rewrite Z2Pos.id, cond_Zopp_mul by lia.
    f_equal. f_equal. f_equal. lia.
Qed.

(** A [long double] is read back from memory. *)
Lemma ld_of_bytes x v : denotes 64 (-16445) x v -> ld_of (ld_bytes x) = x.
Proof.
  destruct x as [s|s| |s m e]; [by destruct s|by destruct s|done|].
  destruct v as [| |z|]; try by destruct s. intros [[He _ Hm Hf] _].
  assert (Hse : forall f, 0 <= f < 2 ^ 15 ->
    (sign_bit s * 2 ^ 15 + f) mod 2 ^ 16 = sign_bit s * 2 ^ 15 + f /\
    Z.testbit (sign_bit s * 2 ^ 15 + f) 15 = s /\ (sign_bit s * 2 ^ 15 + f) mod 2 ^ 15 = f).
  { intros f Hlt. split_and!.
    - apply Z.mod_small. destruct s; simpl sign_bit; lia.
    - rewrite Z.testbit_odd, Z.shiftr_div_pow2, Z.div_add_l, (Z.div_small f), Z.add_0_r by lia. by destruct s.
    - by rewrite Z.add_comm, Z.mod_add, Z.mod_small by lia. }
  set (f := if Zpos m <? 2 ^ 63 then 0 else e + 16446).
  assert (Hlt : 0 <= f < 32767) by (subst f; destruct (Z.ltb_spec (Zpos m) (2 ^ 63)); lia).
  destruct (Hse f ltac:(lia)) as (Q1 & Q2 & Q3).
  assert (Em : load_u64 (ld_bytes (S754_finite s m e)) 0 = Zpos m).
  { unfold load_u64, ld_bytes. rewrite mem_read_app_l by (by rewrite length_le_encode).
    apply u64_decode_encode. unfold in_u64. lia. }
  assert (Es : le_decode (mem_read (ld_bytes (S754_finite s m e)) 8 2) = sign_bit s * 2 ^ 15 + f).
  { unfold ld_bytes. change 8%nat with (length (le_encode 8 (Zpos m)) + 0)%nat at 2. rewrite mem_read_app_r.
    rewrite mem_read_app_l by (by rewrite length_le_encode). rewrite le_decode_encode. exact Q1. }
  unfold ld_of. rewrite Em, Es, Q2, Q3. rewrite (proj2 (Z.eqb_neq f 32767)) by lia.
  subst f. destruct (Z.ltb_spec (Zpos m) (2 ^ 63)) as [H|H].
  - rewrite Z.eqb_refl. f_equal. destruct (Z.eq_dec e (-16445)); [lia|]. specialize (Hf ltac:(lia)). lia.
  - rewrite (proj2 (Z.eqb_neq (e + 16446) 0)) by lia. f_equal. lia.
Qed.

(** ** [TabCol], [Value], [Condition], [SetClause] *)

Record TabCol := mkTabCol {
  tc_tab_name : string;
  tc_col_name : string;
  tc_func : Func;
  tc_alias : string;
  tc_is_desc : bool;
}.

(** The union of the three numbers is its eight bytes; [raw] is [None] for the null
    pointer, and otherwise the bytes of the record. *)
Record Value := mkValue {
  v_type : ColType;
  v_num : bytes;
  v_str : string;
  v_raw : option bytes;
}.

Definition int_val (v : Value) : Z := load_i32 (v_num v) 0.
Definition float_val (v : Value) : Z := load_u32 (v_num v) 0.
Definition bigint_val (v : Value) : Z := load_i64 (v_num v) 0.

Definition set_num (ty : ColType) (u : bytes) (v : Value) : Value := mkValue ty u (v_str v) (v_raw v).
Definition set_int (z : Z) (v : Value) : Value := set_num TYPE_INT (store_32 (v_num v) 0 z) v.
(** The bits of the [float]. *)
Definition set_float (b : Z) (v : Value) : Value := set_num TYPE_FLOAT (store_32 (v_num v) 0 b) v.
Definition set_bigint (z : Z) (v : Value) : Value := set_num TYPE_BIGINT (store_64 (v_num v) 0 z) v.
Definition set_str (s : string) (v : Value) : Value := mkValue TYPE_STRING (v_num v) s (v_raw v).
Definition set_datetime (s : string) (v : Value) : Value := mkValue TYPE_DATETIME (v_num v) s (v_raw v).
Definition set_raw (b : bytes) (v : Value) : Value := mkValue (v_type v) (v_num v) (v_str v) (Some b).
Definition set_type (ty : ColType) (v : Value) : Value := mkValue ty (v_num v) (v_str v) (v_raw v).

(** The bytes [init_raw] fills a record of [len] bytes with.  Nothing is written for
    [TYPE_DOUBLE], which is the type of no literal. *)
Definition raw_bytes (len : Z) (v : Value) : res bytes :=
  if len <? 0 then Throw Stuck else
  match v_type v with
  | TYPE_INT => if len =? 4 then Ok (take 4 (v_num v)) else Throw AssertFailure
  | TYPE_FLOAT => if len =? 4 then Ok (take 4 (v_num v)) else Throw AssertFailure
  | TYPE_STRING | TYPE_DATETIME =>
      let s := str_bytes (v_str v) in
      if len <? Z.of_nat (length s) then Throw StringOverflowError
      else Ok (mem_write (replicate (Z.to_nat len) 0) 0 s)
  | TYPE_BIGINT => if len =? 8 then Ok (take 8 (v_num v)) else Throw AssertFailure
  | TYPE_DOUBLE => Throw Stuck
  end.
Definition init_raw (len : Z) (v : Value) : res Value :=
  match v_raw v with
  | Some _ => Throw AssertFailure
  | None => b ← raw_bytes len v; Ok (set_raw b v)
  end.

(** The array [to_bytes] returns: it has the size of the value, not of the column. *)
Definition to_bytes (v : Value) : res bytes :=
  match v_type v with
  | TYPE_INT | TYPE_FLOAT => Ok (take 4 (v_num v))
  | TYPE_STRING | TYPE_DATETIME => Ok (str_bytes (v_str v))
  | TYPE_BIGINT => Ok (take 8 (v_num v))
  | TYPE_DOUBLE => Throw (InternalError "Value::to_bytes: unknown type error")
  end.

(** [std::stoi] on a few characters: white space, a sign, digits up to the first
    character that is none; [std::invalid_argument] without a digit. *)
Definition is_space (c : Z) : bool := (c =? 32) || ((9 <=? c) && (c <=? 13)).
Definition digit (c : Z) : option Z := if (48 <=? c) && (c <=? 57) then Some (c - 48) else None.
Fixpoint digits_from (acc : Z) (l : bytes) : Z :=
  match l with
  | [] => acc
  | c :: l' => match digit c with Some d => digits_from (10 * acc + d) l' | None => acc end
  end.
Definition digits_val (l : bytes) : res Z :=
  match l with
  | [] => Throw InvalidArgument
  | c :: _ => match digit c with Some _ => Ok (digits_from 0 l) | None => Throw InvalidArgument end
  end.
Fixpoint stoi (l : bytes) : res Z :=
  match l with
  | [] => Throw InvalidArgument
  | c :: l' =>
      if is_space c then stoi l'
      else if c =? 45 then z ← digits_val l'; Ok (- z)
      else if c =? 43 then digits_val l'
      else digits_val l
  end.

(** [Value::is_valid_datetime]. *)
Definition max_day (year month : Z) : Z :=
  if month =? 2 then
    if (Z.rem year 4 =? 0) && negb (Z.rem year 100 =? 0) || (Z.rem year 400 =? 0) then 29 else 28
  else if (month =? 4) || (month =? 6) || (month =? 9) || (month =? 11) then 30
  else 31.
Definition is_valid_datetime (v : Value) : res bool :=
  let s := str_bytes (v_str v) in
  if negb (Z.of_nat (length s) =? 19) then Ok false else
  year ← stoi (mem_read s 0 4);
  if (year <? 1000) || (9999 <? year) then Ok false else
  month ← stoi (mem_read s 5 2);
  if (month <? 1) || (12 <? month) then Ok false else
  day ← stoi (mem_read s 8 2);
  if day <? 1 then Ok false else
  if max_day year month <? day then Ok false else
  hour ← stoi (mem_read s 11 2);
  if (hour <? 0) || (23 <? hour) then Ok false else
  minute ← stoi (mem_read s 14 2);
  if (minute <? 0) || (59 <? minute) then Ok false else
  second ← stoi (mem_read s 17 2);
  Ok (negb ((second <? 0) || (59 <? second))).

Inductive CompOp := OP_EQ | OP_NE | OP_LT | OP_GT | OP_LE | OP_GE.
#[global] Instance CompOp_eq_dec : EqDecision CompOp.
Proof. solve_decision. Defined.

Record Condition := mkCondition {
  lhs_col : TabCol;
  cond_op : CompOp;
  is_rhs_val : bool;
  rhs_col : TabCol;
  rhs_val : Value;
}.

Record SetClause := mkSetClause { set_lhs : TabCol; set_rhs : Value }.

(** *** Raw bytes *)

(** The union of a value has eight bytes. *)
Definition whole (v : Value) : Prop := length (v_num v) = 8%nat.

Lemma raw_bytes_length len v b : whole v -> raw_bytes len v = Ok b -> Z.of_nat (length b) = len.
Proof.
  unfold raw_bytes, whole. intros Hv Hb. destruct (Z.ltb_spec len 0); [done|].
  destruct (v_type v);
    try (destruct (Z.eqb_spec len 4); [|done]; injection Hb as <-; rewrite length_take, Hv; lia);
    try (destruct (Z.eqb_spec len 8); [|done]; injection Hb as <-; rewrite length_take, Hv; lia); [| |done];
    (destruct (_ <? _); [done|]; injection Hb as <-; rewrite length_mem_write, length_replicate; lia).
Qed.

(** *** Dates *)

(** The days of the years before [y], in the Gregorian calendar. *)
Definition days_before (y : Z) : Z := 365 * (y - 1) + (y - 1) / 4 - (y - 1) / 100 + (y - 1) / 400.
(** The length of a month; February has the days of the year that the others leave. *)
Definition days_in_month (y mo : Z) : Z :=
  default 0 ([31; days_before (y + 1) - days_before y - 337; 31; 30; 31; 30; 31; 31; 30; 31; 30; 31] !! Z.to_nat (mo - 1)).
Definition real_datetime (y mo d h mi s : Z) : Prop :=
  1000 <= y /\ 1 <= mo <= 12 /\ 1 <= d <= days_in_month y mo /\ h <= 23 /\ mi <= 59 /\ s <= 59.
#[global] Instance real_datetime_dec y mo d h mi s : Decision (real_datetime y mo d h mi s).
Proof. unfold real_datetime. apply _. Defined.

(** Numbers in decimal, of two and of four digits. *)
Definition dec2 (n : Z) : bytes := [48 + n / 10; 48 + n mod 10].
Definition dec4 (n : Z) : bytes := dec2 (n / 100) ++ dec2 (n mod 100).
Definition datetime_text (y mo d h mi s : Z) (sep : nat -> Z) : bytes :=
  dec4 y ++ [sep 0%nat] ++ dec2 mo ++ [sep 1%nat] ++ dec2 d ++ [sep 2%nat] ++
  dec2 h ++ [sep 3%nat] ++ dec2 mi ++ [sep 4%nat] ++ dec2 s.

(** Arithmetic with divisions by constants. *)
Ltac dm_lia := Z.div_mod_to_equations; lia.

Lemma digit_of a : 0 <= a <= 9 -> digit (48 + a) = Some a.
Proof.
  intros H. unfold digit. rewrite (proj2 (Z.leb_le 48 (48 + a))), (proj2 (Z.leb_le (48 + a) 57)) by lia.
  cbn [andb]. f_equal. lia.
Qed.

Lemma stoi_digits a l : Forall (fun x => 0 <= x <= 9) (a :: l) ->
  stoi ((fun x => 48 + x) <$> (a :: l)) = Ok (fold_left (fun acc d => 10 * acc + d) (a :: l) 0).
Proof.
  intros Hl. pose proof (proj1 (proj1 (Forall_cons _ _ _) Hl)) as Ha. rewrite fmap_cons. cbn [stoi].
  unfold is_space. rewrite !(proj2 (Z.eqb_neq _ _)), (proj2 (Z.leb_gt (48 + a) 13)), andb_false_r by lia.
  cbn [orb digits_val]. rewrite digit_of by done. rewrite <- fmap_cons. f_equal.
  generalize 0 as acc. clear Ha. induction Hl as [|x l' Hx Hl IH]; intros acc; [done|].
  rewrite fmap_cons. cbn [digits_from fold_left]. rewrite digit_of by done. apply IH.
Qed.

Lemma stoi_dec2 n : 0 <= n <= 99 -> stoi (dec2 n) = Ok n.
Proof.
  intros H. etrans; [apply (stoi_digits (n / 10) [n mod 10]); rewrite !Forall_cons, Forall_nil; dm_lia|].
  cbn [fold_left]. f_equal. dm_lia.
Qed.

Lemma stoi_dec4 n : 0 <= n <= 9999 -> stoi (dec4 n) = Ok n.
Proof.
  intros H. etrans; [apply (stoi_digits (n / 100 / 10) [(n / 100) mod 10; n mod 100 / 10; (n mod 100) mod 10]);
    rewrite !Forall_cons, Forall_nil; dm_lia|].
  cbn [fold_left]. f_equal. dm_lia.
Qed.

Lemma div_step y k : 0 < k -> (y + 1 - 1) / k = (y - 1) / k + (if y mod k =? 0 then 1 else 0).
Proof.
  intros Hk. replace (y + 1 - 1) with y by lia. pose proof (Z.div_mod y k ltac:(lia)) as E.
  pose proof (Z.mod_pos_bound y k Hk). destruct (Z.eqb_spec (y mod k) 0) as [H0|H0].
  - rewrite <- (Z.div_unique (y - 1) k (y / k - 1) (k - 1)); lia.
  - rewrite <- (Z.div_unique (y - 1) k (y / k) (y mod k - 1)); lia.
Qed.

Lemma max_day_calendar y mo : 1000 <= y -> 1 <= mo <= 12 -> max_day y mo = days_in_month y mo.
Proof.
  intros Hy Hm. assert (mo = 1 \/ mo = 2 \/ mo = 3 \/ mo = 4 \/ mo = 5 \/ mo = 6 \/ mo = 7 \/ mo = 8 \/ mo = 9 \/
    mo = 10 \/ mo = 11 \/ mo = 12) as Hc by lia.
  repeat destruct Hc as [->|Hc]; [..|subst mo]; try reflexivity.
  unfold max_day, days_in_month, days_before. cbn [Z.eqb Pos.eqb].
  rewrite !Z.rem_mod_nonneg, !div_step by lia.
  assert (y mod 400 = 0 -> y mod 100 = 0) by dm_lia. assert (y mod 100 = 0 -> y mod 4 = 0) by dm_lia.
  destruct (Z.eqb_spec (y mod 4) 0), (Z.eqb_spec (y mod 100) 0), (Z.eqb_spec (y mod 400) 0); cbn [andb orb negb];
    match goal with |- _ = default _ ((_ :: ?x :: _) !! _) => change (default _ _) with x end; lia.
Qed.


Definition text_value (s : string) : Value := mkValue TYPE_STRING (replicate 8 0) s None.


(** On other texts of 19 characters [std::stoi] may throw an exception that is no
    [RMDBError], which nothing catches; or it stops early and the text is accepted. *)
Lemma datetime_other_texts :
  is_valid_datetime (text_value "some other text.   ") = Throw InvalidArgument /\ what InvalidArgument = None /\
  is_valid_datetime (text_value "2023-1x-+7 0:-+1- 5") = Ok true.
Proof. vm_compute. auto. Qed.
