(* ===== verification/Filter.v ===== *)
(** * The filter of the executors

    The class [Filter] of [execution/filter.h]: the comparison of values in memory and the
    evaluation of conditions on records. *)

From Stdlib Require Import SpecFloat.
From S2P Require Import Prelude Common RmDefs IxDefs SmMeta Values.

Module Filter.

(** ** Columns and pointers *)

(** The position of the first column of a table and a name: [std::find_if]. *)
Fixpoint find_tab_col (cols : list ColMeta) (target : TabCol) : option nat :=
  match cols with
  | [] => None
  | c :: cs =>
      if bool_decide (cm_tab_name c = tc_tab_name target /\ cm_name c = tc_col_name target) then Some O
      else S <$> find_tab_col cs target
  end.

(** [get_col], of the filter and of the executors: the position in the vector and the column. *)
Definition get_col (rec_cols : list ColMeta) (target : TabCol) : res (nat * ColMeta) :=
  match find_tab_col rec_cols target with
  | Some i => match rec_cols !! i with Some c => Ok (i, c) | None => Throw Stuck end
  | None => Throw (ColumnNotFoundError (tc_tab_name target +:+ "." +:+ tc_col_name target))
  end.

(** A pointer is the bytes from it on; a read past the end of its array is not
    followed. *)
Definition ptr_at (data : option bytes) (off : Z) : res bytes :=
  match data with
  | Some d => if off <? 0 then Throw Stuck else Ok (drop (Z.to_nat off) d)
  | None => Throw Stuck
  end.
Definition readable (n : nat) (p : bytes) : bool := (n <=? length p)%nat.
Definition read2 {A} (n : nat) (lhs rhs : bytes) (r : A) : res A :=
  if readable n lhs && readable n rhs then Ok r else Throw Stuck.

(** ** Comparison *)

(** [Filter::compare]; of the result of [memcmp] the sign is kept. *)
Definition compare (lhs rhs : bytes) (len : Z) (type : ColType) : res Z :=
  match type with
  | TYPE_INT => read2 4 lhs rhs (three_way Z.ltb (load_i32 lhs 0) (load_i32 rhs 0))
  | TYPE_BIGINT => read2 8 lhs rhs (three_way Z.ltb (load_i64 lhs 0) (load_i64 rhs 0))
  | TYPE_FLOAT => read2 4 lhs rhs (three_way f32_lt (load_u32 lhs 0) (load_u32 rhs 0))
  | TYPE_DOUBLE => read2 sizeof_long_double lhs rhs (three_way SFltb (ld_of lhs) (ld_of rhs))
  | TYPE_STRING | TYPE_DATETIME =>
      if len <? 0 then Throw Stuck else read2 (Z.to_nat len) lhs rhs (memcmp lhs rhs (Z.to_nat len))
  end.

Definition cmp_op (op : CompOp) (cmp : Z) : bool :=
  match op with
  | OP_EQ => cmp =? 0
  | OP_NE => negb (cmp =? 0)
  | OP_LT => cmp <? 0
  | OP_GT => 0 <? cmp
  | OP_LE => cmp <=? 0
  | OP_GE => 0 <=? cmp
  end.
Definition judge (lhs rhs : bytes) (len : Z) (type : ColType) (op : CompOp) : res bool :=
  cmp ← compare lhs rhs len type; Ok (cmp_op op cmp).

(** ** Conditions *)

(** The column on the left: its type, its length and the pointer to its value. *)
Definition lhs_operand (rec_cols : list ColMeta) (cond : Condition) (rec : RmRecord) : res (ColType * Z * bytes) :=
  lhs ← get_col rec_cols (lhs_col cond);
  p ← ptr_at (rec_data rec) (cm_offset lhs.2);
  Ok (cm_type lhs.2, cm_len lhs.2, p).
(** The value or the column on the right. *)
Definition rhs_operand (rec_cols : list ColMeta) (cond : Condition) (rec : RmRecord) : res (ColType * bytes) :=
  if is_rhs_val cond then p ← ptr_at (v_raw (rhs_val cond)) 0; Ok (v_type (rhs_val cond), p)
  else
    rhs ← get_col rec_cols (rhs_col cond);
    p ← ptr_at (rec_data rec) (cm_offset rhs.2);
    Ok (cm_type rhs.2, p).

(** The loop over the two operands: a copy of the value as a [long double]; of what is
    no number, zero. *)
Definition to_double (type : ColType) (src : bytes) : res bytes :=
  match type with
  | TYPE_DOUBLE => Ok src
  | TYPE_INT => if readable 4 src then Ok (ld_bytes (ld_of_int (load_i32 src 0))) else Throw Stuck
  | TYPE_BIGINT => if readable 8 src then Ok (ld_bytes (ld_of_int (load_i64 src 0))) else Throw Stuck
  | TYPE_FLOAT => if readable 4 src then Ok (ld_bytes (ld_of_f32 (f32_of (load_u32 src 0)))) else Throw Stuck
  | TYPE_STRING | TYPE_DATETIME => Ok (ld_bytes (S754_zero false))
  end.

Definition incompatible {A} (lhs rhs : ColType) : res A :=
  l ← coltype2str lhs; r ← coltype2str rhs; Throw (IncompatibleTypeError l r).

Definition filter_single (rec_cols : list ColMeta) (cond : Condition) (rec : RmRecord) : res bool :=
  l ← lhs_operand rec_cols cond rec;
  let '(lhs_type, len, lhs) := l in
  r ← rhs_operand rec_cols cond rec;
  let '(rhs_type, rhs) := r in
  if bool_decide (rhs_type = lhs_type) then judge lhs rhs len lhs_type (cond_op cond)
  else if bool_decide (rhs_type = TYPE_STRING \/ lhs_type = TYPE_STRING) then incompatible lhs_type rhs_type
  else
    lhs' ← to_double lhs_type lhs;
    rhs' ← to_double rhs_type rhs;
    judge lhs' rhs' len TYPE_DOUBLE (cond_op cond).

(** [std::all_of]. *)
Fixpoint all_of {A} (f : A -> res bool) (l : list A) : res bool :=
  match l with
  | [] => Ok true
  | x :: l' => b ← f x; if b : bool then all_of f l' else Ok false
  end.

Definition filter (conds : list Condition) (rec_cols : list ColMeta) (rec : RmRecord) : res bool :=
  all_of (fun cond => filter_single rec_cols cond rec) conds.

(** A [float] made of the [int] at [src], rounded to nearest. *)
Definition int_as_float (src : bytes) : res bytes :=
  if readable 4 src
  then Ok (le_encode 4 (f32_bits (binary_normalize 24 128 (load_i32 src 0) 0 false)))
  else Throw Stuck.

(** [filter_join], which no executor calls: the conversions are to [float], and from the
    first four bytes of a [BIGINT]. *)
Definition join_single (left_cols : list ColMeta) (lrec : RmRecord) (right_cols : list ColMeta) (rrec : RmRecord)
    (cond : Condition) : res bool :=
  if is_rhs_val cond then filter_single left_cols cond lrec else
  l ← get_col left_cols (lhs_col cond);
  r ← get_col right_cols (rhs_col cond);
  lhs ← ptr_at (rec_data lrec) (cm_offset l.2);
  rhs ← ptr_at (rec_data rrec) (cm_offset r.2);
  let lhs_type := cm_type l.2 in
  let rhs_type := cm_type r.2 in
  if bool_decide (rhs_type = lhs_type) then judge lhs rhs (cm_len l.2) lhs_type (cond_op cond)
  else if bool_decide (rhs_type = TYPE_STRING \/ lhs_type = TYPE_STRING) then incompatible lhs_type rhs_type
  else
    rhs' ← (if bool_decide (rhs_type = TYPE_INT) then int_as_float rhs else Ok rhs);
    if bool_decide (lhs_type = TYPE_INT \/ lhs_type = TYPE_BIGINT)
    then lhs' ← int_as_float lhs; judge lhs' rhs' 4 TYPE_FLOAT (cond_op cond)
    else judge lhs rhs' 4 lhs_type (cond_op cond).
Definition filter_join (conds : list Condition) (left_cols : list ColMeta) (lrec : RmRecord)
    (right_cols : list ColMeta) (rrec : RmRecord) : res bool :=
  all_of (join_single left_cols lrec right_cols rrec) conds.

(** ** Numbers *)

(** The number a value of a numeric type is. *)
Definition number_at (type : ColType) (p : bytes) : option number :=
  match type with
  | TYPE_INT => if readable 4 p then Some (int_number (load_i32 p 0)) else None
  | TYPE_BIGINT => if readable 8 p then Some (int_number (load_i64 p 0)) else None
  | TYPE_FLOAT => if readable 4 p then Some (f32_number (load_u32 p 0)) else None
  | _ => None
  end.

(** What the operators mean. *)
Definition holds (op : CompOp) (x y : Z) : Prop :=
  match op with
  | OP_EQ => x = y | OP_NE => x <> y | OP_LT => x < y | OP_GT => y < x | OP_LE => x <= y | OP_GE => y <= x
  end.
#[global] Instance holds_dec op x y : Decision (holds op x y).
Proof. destruct op; simpl; apply _. Defined.

Lemma load_u32_range p : Forall in_byte p -> 0 <= load_u32 p 0 < 2 ^ 32.
Proof.
  intros Hp. unfold load_u32, mem_read. pose proof (le_decode_bound (take 4 (drop 0 p))) as Hb.
  rewrite drop_0 in *. specialize (Hb (Forall_take _ 4%nat _ Hp)). rewrite length_take in Hb.
  assert (256 ^ Z.of_nat (Nat.min 4 (length p)) <= 2 ^ 32); [|lia].
  change (2 ^ 32) with (256 ^ 4). apply Z.pow_le_mono_r; lia.
Qed.

Lemma i64_range z : - 2 ^ 63 <= i64 z < 2 ^ 63.
Proof. unfold wrap_s. pose proof (Z.mod_pos_bound (z + 2 ^ (64 - 1)) (2 ^ 64)). lia. Qed.

Lemma three_way_ext {A B} (lt : A -> A -> bool) (lt' : B -> B -> bool) a b x y :
  lt a b = lt' x y -> lt b a = lt' y x -> three_way lt a b = three_way lt' x y.
Proof. unfold three_way. by intros -> ->. Qed.

Lemma int_number_lt x y : (x <? y) = number_lt (int_number x) (int_number y).
Proof.
  unfold int_number, number_lt. destruct (Z.ltb_spec x y), (Z.ltb_spec (x * 2 ^ 149) (y * 2 ^ 149)); try done; nia.
Qed.

(** Values of one type compare as their numbers. *)
Lemma compare_number ty p q len v w : number_at ty p = Some v -> number_at ty q = Some w ->
  compare p q len ty = Ok (three_way number_lt v w).
Proof.
  intros Hv Hw. destruct ty; try done; simpl in Hv, Hw |- *; unfold read2;
    repeat case_match; simplify_eq; try done; f_equal; apply three_way_ext;
    first [apply int_number_lt | apply f32_lt_number].
Qed.

(** The copies of the operands denote the same numbers. *)
Lemma to_double_number ty p v : Forall in_byte p -> number_at ty p = Some v ->
  exists x, to_double ty p = Ok (ld_bytes x) /\ denotes 64 (-16445) x v.
Proof.
  intros Hp Hv. destruct ty; cbn [number_at to_double] in *; try discriminate Hv;
    (destruct (readable _ p); [injection Hv as <-|discriminate Hv]); eexists; (split; [reflexivity|]).
  - apply ld_of_int_denotes. pose proof (i32_range (le_decode (mem_read p 0 4))) as Hr.
    unfold in_i32 in Hr. unfold load_i32. lia.
  - apply ld_of_f32_denotes. by apply load_u32_range.
  - apply ld_of_int_denotes. apply i64_range.
Qed.

Lemma length_ld_bytes x : length (ld_bytes x) = sizeof_long_double.
Proof. destruct x as [[]|[]| |[] m e]; reflexivity. Qed.

Lemma compare_double x y v w len : denotes 64 (-16445) x v -> denotes 64 (-16445) y w ->
  compare (ld_bytes x) (ld_bytes y) len TYPE_DOUBLE = Ok (three_way number_lt v w).
Proof.
  intros Hx Hy. cbn [compare]. unfold read2, readable. rewrite !length_ld_bytes. cbn [Nat.leb andb sizeof_long_double].
  f_equal. rewrite (ld_of_bytes _ _ Hx), (ld_of_bytes _ _ Hy).
  apply three_way_ext; (apply (SFltb_number 64 (-16445)); [lia|lia|done|done]).
Qed.

Lemma cmp_op_holds op x y : cmp_op op (three_way number_lt (Units x) (Units y)) = bool_decide (holds op x y).
Proof.
  unfold three_way. cbn [number_lt].
  destruct op, (Z.ltb_spec x y), (Z.ltb_spec y x); try lia; cbn; first [rewrite bool_decide_true by (simpl; lia)
    | rewrite bool_decide_false by (simpl; lia)]; done.
Qed.

(** C35: a condition between two numbers, columns or values of the types [INT], [BIGINT] and
    [FLOAT] in any combination, holds exactly if the numbers themselves are in the relation:
    no conversion on the way loses anything, as a [long double] has every 64-bit integer and
    every [float]. *)
Theorem numeric_condition_exact rec_cols cond rec tl len p tr q x y :
  lhs_operand rec_cols cond rec = Ok (tl, len, p) -> rhs_operand rec_cols cond rec = Ok (tr, q) ->
  Forall in_byte p -> Forall in_byte q ->
  number_at tl p = Some (Units x) -> number_at tr q = Some (Units y) ->
  filter_single rec_cols cond rec = Ok (bool_decide (holds (cond_op cond) x y)).
Proof.
  intros Hl Hr Hp Hq Hx Hy. unfold filter_single, judge. rewrite Hl, Hr. unfold mbind, res_bind.
  destruct (bool_decide_reflect (tr = tl)) as [->|Hne].
  - rewrite (compare_number _ _ _ _ _ _ Hx Hy). by rewrite cmp_op_holds.
  - rewrite bool_decide_false by (intros [->| ->]; done).
    destruct (to_double_number _ _ _ Hp Hx) as (u & -> & Hu), (to_double_number _ _ _ Hq Hy) as (w & -> & Hw).
    rewrite (compare_double _ _ _ _ _ Hu Hw). by rewrite cmp_op_holds.
Qed.

(** *** Conditions that fit the rows

    What must hold of the columns and of the values for the filter to give an answer: the
    operands lie within the row and the value, and a string is compared with a string.  The
    length of the left column decides how much of two strings is read. *)
Definition operand_bytes (type : ColType) (len : Z) : Z :=
  match type with
  | TYPE_INT | TYPE_FLOAT => 4
  | TYPE_BIGINT => 8
  | TYPE_DOUBLE => Z.of_nat sizeof_long_double
  | TYPE_STRING | TYPE_DATETIME => len
  end.
(** The type of an operand and the bytes there are from its pointer on. *)
Definition lhs_shape (n : nat) (rec_cols : list ColMeta) (cond : Condition) : option (ColType * Z * Z) :=
  match get_col rec_cols (lhs_col cond) with
  | Ok (_, c) => if 0 <=? cm_offset c then Some (cm_type c, cm_len c, Z.of_nat n - cm_offset c) else None
  | Throw _ => None
  end.
Definition rhs_shape (n : nat) (rec_cols : list ColMeta) (cond : Condition) : option (ColType * Z) :=
  if is_rhs_val cond then p ← v_raw (rhs_val cond); Some (v_type (rhs_val cond), Z.of_nat (length p))
  else match get_col rec_cols (rhs_col cond) with
       | Ok (_, c) => if 0 <=? cm_offset c then Some (cm_type c, Z.of_nat n - cm_offset c) else None
       | Throw _ => None
       end.
Definition well_typed (n : nat) (rec_cols : list ColMeta) (cond : Condition) : bool :=
  match lhs_shape n rec_cols cond, rhs_shape n rec_cols cond with
  | Some (tl, len, nl), Some (tr, nr) =>
      if bool_decide (tr = tl)
      then (0 <=? operand_bytes tl len) && (operand_bytes tl len <=? nl) && (operand_bytes tl len <=? nr)
      else bool_decide (tr <> TYPE_STRING /\ tl <> TYPE_STRING) &&
           (operand_bytes tl 0 <=? nl) && (operand_bytes tr 0 <=? nr)
  | _, _ => false
  end.

Lemma readable_le k (p : bytes) n : Z.of_nat k <= n -> n <= Z.of_nat (length p) -> readable k p = true.
Proof. intros. apply Nat.leb_le. lia. Qed.

Lemma lhs_shape_ok n rec_cols cond rec z tl len nl : rec_data rec = Some z -> length z = n ->
  lhs_shape n rec_cols cond = Some (tl, len, nl) ->
  exists p, lhs_operand rec_cols cond rec = Ok (tl, len, p) /\ nl <= Z.of_nat (length p).
Proof.
  intros Hd <-. unfold lhs_shape, lhs_operand, ptr_at. rewrite Hd. destruct (get_col _ _) as [[i c]|]; [|done].
  destruct (Z.leb_spec 0 (cm_offset c)); [|done]. intros [= <- <- <-]. cbn [mbind res_bind snd].
  rewrite (proj2 (Z.ltb_ge _ _)) by done. eexists. split; [done|]. rewrite length_drop. lia.
Qed.

Lemma rhs_shape_ok n rec_cols cond rec z tr nr : rec_data rec = Some z -> length z = n ->
  rhs_shape n rec_cols cond = Some (tr, nr) ->
  exists q, rhs_operand rec_cols cond rec = Ok (tr, q) /\ nr <= Z.of_nat (length q).
Proof.
  intros Hd <-. unfold rhs_shape, rhs_operand, ptr_at. rewrite Hd. destruct (is_rhs_val cond).
  - destruct (v_raw _) as [p|]; [|done]. intros [= <- <-]. by exists p.
  - destruct (get_col _ _) as [[i c]|]; [|done]. destruct (Z.leb_spec 0 (cm_offset c)); [|done]. intros [= <- <-].
    cbn [mbind res_bind snd]. rewrite (proj2 (Z.ltb_ge _ _)) by done. eexists. split; [done|]. rewrite length_drop. lia.
Qed.

Lemma judge_returns p q len ty op : 0 <= operand_bytes ty len -> operand_bytes ty len <= Z.of_nat (length p) ->
  operand_bytes ty len <= Z.of_nat (length q) -> exists b, judge p q len ty op = Ok b.
Proof.
  intros H0 Hp Hq. unfold judge, compare, read2. destruct ty; cbn [operand_bytes] in *;
    try rewrite (proj2 (Z.ltb_ge _ _)) by done;
    (rewrite !(readable_le _ _ _ (Z.le_refl _)) by lia); by eexists.
Qed.

Lemma to_double_returns ty p : ty <> TYPE_STRING -> operand_bytes ty 0 <= Z.of_nat (length p) ->
  exists x, to_double ty p = Ok x /\ (sizeof_long_double <= length x)%nat.
Proof.
  intros Ht Hp. destruct ty; cbn [operand_bytes to_double] in *; try done;
    try (rewrite (readable_le _ _ _ (Z.le_refl _)) by lia); eexists; (split; [done|]); try (by rewrite length_ld_bytes); lia.
Qed.

Lemma well_typed_rows (n : nat) (rec_cols : list ColMeta) (conds : list Condition) (rec : RmRecord) (z : bytes) :
  forallb (well_typed n rec_cols) conds = true -> rec_data rec = Some z -> length z = n ->
  exists b, filter conds rec_cols rec = Ok b.
Proof.
  intros Hw Hd Hz. unfold filter. induction conds as [|c conds IH]; [by eexists|].
  cbn [forallb] in Hw. apply andb_true_iff in Hw as [Hc Hw]. cbn [all_of].
  cut (exists b, filter_single rec_cols c rec = Ok b).
  { intros ([] & ->); cbn [mbind res_bind]; [by apply IH|by eexists]. }
  unfold well_typed in Hc. destruct (lhs_shape n rec_cols c) as [[[tl len] nl]|] eqn:El; [|done].
  destruct (rhs_shape n rec_cols c) as [[tr nr]|] eqn:Er; [|done]. unfold filter_single.
  destruct (lhs_shape_ok _ _ _ _ _ _ _ _ Hd Hz El) as (p & -> & Lp). destruct (rhs_shape_ok _ _ _ _ _ _ _ Hd Hz Er) as (q & -> & Lq).
  cbn [mbind res_bind]. destruct (bool_decide_reflect (tr = tl)) as [->|Hne].
  - apply judge_returns; lia.
  - rewrite !andb_true_iff, bool_decide_eq_true in Hc. destruct Hc as [[[Nr Nl] Hc1] Hc2]. rewrite bool_decide_false by tauto.
    destruct (to_double_returns tl p Nl) as (x & -> & Lx); [lia|].
    destruct (to_double_returns tr q Nr) as (y & -> & Ly); [lia|]. cbn [mbind res_bind].
    apply judge_returns; cbn [operand_bytes]; lia.
Qed.

(** C36: conditions that fit the columns never fail on a row of the right length: no type
    error, no read outside the row. *)
Theorem well_typed_returns (n : nat) (rec_cols : list ColMeta) (conds : list Condition) (rec : RmRecord) (z : bytes) :
  forallb (well_typed n rec_cols) conds = true -> rec_data rec = Some z -> length z = n ->
  exists b, filter conds rec_cols rec = Ok b.
Proof. apply well_typed_rows. Qed.

(** The filter and the index order single columns alike. *)
Lemma compare_index p q len ty r : compare p q len ty = Ok r -> ty <> TYPE_DOUBLE -> ix_compare1 p q ty len = Ok r.
Proof.
  intros Hc Ht. destruct ty; try done; cbn [compare ix_compare1] in *; unfold read2 in Hc;
    try (destruct (len <? 0); [done|]); (destruct (_ && _); [exact Hc|done]).
Qed.

(** *** Examples *)

Lemma bytes_checked l : forallb (fun z => (0 <=? z) && (z <? 256)) l = true -> Forall in_byte l.
Proof.
  intros H. apply Forall_forall. intros z Hz. apply list_elem_of_In in Hz.
  apply (proj1 (forallb_forall _ _) H) in Hz. unfold in_byte. lia.
Qed.

Definition demo_cols : list ColMeta :=
  [ mkColMeta "t" "big" TYPE_BIGINT 8 0 false; mkColMeta "t" "x" TYPE_FLOAT 4 8 false;
    mkColMeta "t" "a" TYPE_STRING 4 12 false; mkColMeta "t" "b" TYPE_STRING 2 16 false;
    mkColMeta "t" "n" TYPE_INT 4 18 false; mkColMeta "t" "c" TYPE_STRING 2 22 false ].
Definition tab_col (t c : string) : TabCol := mkTabCol t c FUNC_NULL "" false.
Definition col_cond (l : string) (op : CompOp) (r : string) : Condition :=
  mkCondition (tab_col "t" l) op false (tab_col "t" r) (text_value "").

(** A row of the columns above: [big] is 2^24 + 1, [x] is 2^24, [a], [b] and [c] are
    the string ab, padded with zeros. *)
Definition demo_row (n : Z) : RmRecord :=
  RmRecord_new 24 (le_encode 8 16777217 ++ le_encode 4 1266679808 ++ [97; 98; 0; 0; 97; 98] ++ le_encode 4 n ++ [97; 98]).

(** As [float]s the two would be equal. *)
Lemma numeric_condition_exact_witness :
  filter_single demo_cols (col_cond "big" OP_GT "x") (demo_row 0) = Ok true.
Proof.
  rewrite (numeric_condition_exact demo_cols (col_cond "big" OP_GT "x") (demo_row 0)
    TYPE_BIGINT 8 (drop 0 (default [] (rec_data (demo_row 0)))) TYPE_FLOAT (drop 8 (default [] (rec_data (demo_row 0))))
    (16777217 * 2 ^ 149) (16777216 * 2 ^ 149)); [reflexivity|reflexivity|reflexivity| | |reflexivity|reflexivity];
  (apply bytes_checked; reflexivity).
Defined.

Lemma well_typed_returns_witness :
  exists b, filter [col_cond "big" OP_GT "x"; col_cond "n" OP_EQ "big"] demo_cols (demo_row 7) = Ok b.
Proof. eapply (well_typed_returns 24); reflexivity. Defined.

(** Strings of columns of different lengths are compared over the length of the left one:
    the bytes after the right one take part, and may be outside the record. *)
Lemma string_columns_overlap :
  filter_single demo_cols (col_cond "a" OP_EQ "b") (demo_row 0) = Ok true /\
  filter_single demo_cols (col_cond "a" OP_EQ "b") (demo_row 5) = Ok false /\
  filter_single demo_cols (col_cond "a" OP_EQ "c") (demo_row 5) = Throw Stuck.
Proof. vm_compute. auto. Qed.

(** A [DATETIME] that is compared with a number is zero. *)
Lemma datetime_is_zero p q len op :
  Forall in_byte q -> readable 4 q = true ->
  exists p' q', to_double TYPE_DATETIME p = Ok p' /\ to_double TYPE_INT q = Ok q' /\
     judge p' q' len TYPE_DOUBLE op = Ok (bool_decide (holds op 0 (load_i32 q 0))).
Proof.
  intros Hq Hr.
  destruct (to_double_number TYPE_INT q (int_number (load_i32 q 0)) Hq ltac:(unfold number_at; by rewrite Hr)) as (y & Hy & Hd).
  exists (ld_bytes (S754_zero false)), (ld_bytes y). split_and!; [reflexivity|exact Hy|].
  unfold judge. rewrite (compare_double (S754_zero false) y (Units 0) _ _ eq_refl Hd). cbn [mbind res_bind].
  f_equal. unfold int_number. rewrite cmp_op_holds. apply bool_decide_ext. destruct op; simpl; lia.
Qed.

End Filter.
