(* ===== verification/Executor.v ===== *)
(** * Executors

    [execution/executor_abstract.h] and two of the executors that make rows out of the
    rows of another: [ProjectionExecutor] and [SortExecutor].  The virtual methods are a class, and what a consumer may rely on
    are its laws; an executor over others is an instance if they are. *)

From Stdlib Require Import SpecFloat.
From stdpp Require Import sorting.
From S2P Require Import Prelude Common RmDefs IxDefs SmMeta Values Filter.

(** ** The interface

    [S] is the state the executors share (the database), [E] what an executor keeps for
    itself.  [Next] returns [None] for a null pointer. *)
Class AbstractExecutor (S E : Type) := {
  ex_tupleLen : E -> res Z;
  ex_cols : E -> list ColMeta;
  ex_beginTuple : E -> M S E;
  ex_nextTuple : E -> M S E;
  ex_is_end : E -> res bool;
  ex_Next : E -> M S (E * option RmRecord);
}.

(** [size_t] arithmetic. *)
Definition u64 (z : Z) : Z := z mod 2 ^ 64.

(** The default of [tupleLen]. *)
Definition no_tupleLen : res Z := Throw (InternalError "no implement for AbstractExecutor::tupleLen").

Definition lift {S A} (r : res A) : M S A := fun s => (s, r).

Lemma lift_ok {S A B} (r : res A) (k : A -> M S B) s a : r = Ok a -> (lift r ≫= k) s = k a s.
Proof. by intros ->. Qed.

(** [new char[n]]: bytes that are not initialised; a negative size is refused. *)
Definition fresh (junk : bytes) (n : Z) : res bytes :=
  if n <? 0 then Throw Stuck else Ok (take (Z.to_nat n) (junk ++ replicate (Z.to_nat n) 0)).

(** [memcpy] of [n] bytes; memory outside the two arrays is not followed. *)
Definition copy (dst : bytes) (doff : Z) (src : option bytes) (soff n : Z) : res bytes :=
  match src with
  | Some src =>
      if (0 <=? doff) && (0 <=? soff) && (0 <=? n) && (doff + n <=? Z.of_nat (length dst)) &&
         (soff + n <=? Z.of_nat (length src))
      then Ok (mem_write dst (Z.to_nat doff) (mem_read src (Z.to_nat soff) (Z.to_nat n)))
      else Throw Stuck
  | None => Throw Stuck
  end.

Lemma copy_ok dst doff src soff n :
  0 <= doff -> 0 <= soff -> 0 <= n -> doff + n <= Z.of_nat (length dst) -> soff + n <= Z.of_nat (length src) ->
  copy dst doff (Some src) soff n = Ok (mem_write dst (Z.to_nat doff) (mem_read src (Z.to_nat soff) (Z.to_nat n))).
Proof. intros. unfold copy. by rewrite !(proj2 (Z.leb_le _ _)) by done. Qed.

Lemma length_fresh junk n b : fresh junk n = Ok b -> 0 <= n /\ length b = Z.to_nat n.
Proof. unfold fresh. destruct (Z.ltb_spec n 0); [done|]. intros [= <-]. split; [done|len]. Qed.

Lemma bind_eq {S A B} (m m' : M S A) (k k' : A -> M S B) s :
  m s = m' s -> (forall s' a, m' s = (s', Ok a) -> k a s' = k' a s') -> (m ≫= k) s = (m' ≫= k') s.
Proof.
  intros Hm Hk. unfold mbind, M_bind. rewrite Hm. destruct (m' s) as [s' [a|e]]; [by apply Hk|done].
Qed.

(** A row as a record. *)
Definition row (x : bytes) : RmRecord := mkRmRecord (Some x) (Z.of_nat (length x)) true.

(** The rows that pass the filter. *)
Definition keeps_row (conds : list Condition) (cs : list ColMeta) (z : bytes) : Prop :=
  Filter.filter conds cs (row z) = Ok true.
#[global] Instance keeps_row_dec conds cs z : Decision (keeps_row conds cs z).
Proof.
  unfold keeps_row. destruct (Filter.filter conds cs (row z)) as [[]|];
    [left; done|right; done|right; done].
Defined.

(** The loop of every consumer,
    [for (e->beginTuple(); !e->is_end(); e->nextTuple())] with a call of [Next] in its body. *)
Section drain.
Context {S E : Type} `{AbstractExecutor S E}.

Fixpoint rows_from (fuel : nat) (e : E) : M S (E * list RmRecord) :=
  b ← lift (ex_is_end e);
  if b : bool then mret (e, []) else
  match fuel with
  | O => throw OutOfFuel
  | Datatypes.S fuel' =>
      '(e, o) ← ex_Next e;
      match o with
      | None => throw Stuck
      | Some rec => e ← ex_nextTuple e; '(e, l) ← rows_from fuel' e; mret (e, rec :: l)
      end
  end.
Definition all_rows (fuel : nat) (e : E) : M S (E * list RmRecord) :=
  e ← ex_beginTuple e; rows_from fuel e.
End drain.

(** ** The laws

    [en_ready s e l]: [beginTuple] will make [e] enumerate [l].  [en_at s e l r]: [e] is in a pass
    over [l], has [r] left and is on its first element.  [en_taken s e l r]: [Next] was called
    for the element before [r], but not yet [nextTuple].  They hold on while other executors
    of the plan work, which is a [calm] change of the shared state. *)
Class Calm (S : Type) := {
  calm : S -> S -> Prop;
  calm_refl s : calm s s;
  calm_trans s1 s2 s3 : calm s1 s2 -> calm s2 s3 -> calm s1 s3;
}.

Class Enumerates (S E : Type) `{Calm S} `{AbstractExecutor S E} := {
  en_ready : S -> E -> list bytes -> Prop;
  en_at : S -> E -> list bytes -> list bytes -> Prop;
  en_taken : S -> E -> list bytes -> list bytes -> Prop;
  en_ready_calm s s' e l : calm s s' -> en_ready s e l -> en_ready s' e l;
  en_at_calm s s' e l r : calm s s' -> en_at s e l r -> en_at s' e l r;
  en_taken_calm s s' e l r : calm s s' -> en_taken s e l r -> en_taken s' e l r;
  en_begin s s' e e' l : en_ready s e l -> ex_beginTuple e s = (s', Ok e') -> calm s s' /\ en_at s' e' l l;
  en_end s e l r : en_at s e l r -> ex_is_end e = Ok (bool_decide (r = []));
  en_next_row s s' e e' l x r o : en_at s e l (x :: r) -> ex_Next e s = (s', Ok (e', o)) ->
    calm s s' /\ o = Some (row x) /\ en_taken s' e' l r;
  en_taken_end s e l r : en_taken s e l r -> ex_is_end e = Ok false;
  en_advance s s' e e' l r : en_taken s e l r -> ex_nextTuple e s = (s', Ok e') -> calm s s' /\ en_at s' e' l r;
  en_begin_cols s s' e e' : ex_beginTuple e s = (s', Ok e') -> ex_cols e' = ex_cols e;
  en_row_cols s s' e e' o : ex_Next e s = (s', Ok (e', o)) -> ex_cols e' = ex_cols e;
  en_advance_cols s s' e e' : ex_nextTuple e s = (s', Ok e') -> ex_cols e' = ex_cols e;
}.

(** At the end of a pass over [l] another can be started, over [en_again l]. *)
Class Repeats (S E : Type) `{Enumerates S E} := {
  en_again : list bytes -> list bytes;
  en_again_sub l : en_again l `sublist_of` l;
  en_restart s e l : en_at s e l [] -> en_ready s e (en_again l);
}.

(** A pass can be broken off and started again. *)
Class Restarts (S E : Type) `{Enumerates S E} := {
  en_reset s e l r : en_at s e l r -> en_ready s e l;
}.
#[export] Instance restarts_repeats {S E} `{Restarts S E} : Repeats S E | 10 := {
  en_again l := l;
  en_again_sub l := reflexivity l;
  en_restart s e l := en_reset s e l [];
}.

Section drain_laws.
Context {S E : Type} `{Enumerates S E}.

Lemma rows_from_ok fuel : forall s s' e e' l r rs,
  en_at s e l r -> rows_from fuel e s = (s', Ok (e', rs)) ->
  calm s s' /\ rs = row <$> r /\ en_at s' e' l [].
Proof.
  induction fuel as [|fuel IH]; intros s s' e e' l r rs Ha Hr; simpl in Hr;
    rewrite (lift_ok _ _ _ _ (en_end _ _ _ _ Ha)) in Hr; (destruct r as [|x r];
    [cbn in Hr; injection Hr as <- <- <-; split_and!; [apply calm_refl|done|done]|cbn [bool_decide] in Hr]);
    rewrite bool_decide_false in Hr by done; [done|].
  apply bind_inv in Hr as (s1 & [e1 o] & Hn & Hr).
  destruct (en_next_row _ _ _ _ _ _ _ _ Ha Hn) as (C1 & -> & Ht).
  apply bind_inv in Hr as (s2 & e2 & Hx & Hr). destruct (en_advance _ _ _ _ _ _ Ht Hx) as (C2 & Ha2).
  apply bind_inv in Hr as (s3 & [e3 rs'] & Hf & Hr). cbn in Hr. injection Hr as <- <- <-.
  destruct (IH _ _ _ _ _ _ _ Ha2 Hf) as (C3 & -> & Ha3).
  split_and!; [eapply calm_trans; [exact C1|eapply calm_trans; [exact C2|exact C3]]|done|done].
Qed.

Lemma all_rows_ok fuel s s' e e' l rs :
  en_ready s e l -> all_rows fuel e s = (s', Ok (e', rs)) ->
  calm s s' /\ rs = row <$> l /\ en_at s' e' l [].
Proof.
  intros Hr Ha. unfold all_rows in Ha. apply bind_inv in Ha as (s1 & e1 & Hb & Ha).
  destruct (en_begin _ _ _ _ _ Hr Hb) as (C1 & Ha1). destruct (rows_from_ok _ _ _ _ _ _ _ _ Ha1 Ha) as (C2 & -> & ?).
  split_and!; [by eapply calm_trans|done|done].
Qed.

Lemma rows_from_cols fuel : forall s s' e e' rs, rows_from fuel e s = (s', Ok (e', rs)) -> ex_cols e' = ex_cols e.
Proof.
  induction fuel as [|fuel IH]; intros s s' e e' rs Hr; simpl in Hr;
    apply bind_inv in Hr as (s1 & [] & _ & Hr); try done; try by injection Hr as <- <- <-.
  apply bind_inv in Hr as (s2 & [e1 [rec|]] & Hn & Hr); [|done]. apply bind_inv in Hr as (s3 & e2 & Hx & Hr).
  apply bind_inv in Hr as (s4 & [e3 l] & Hr' & Hr). injection Hr as <- <- <-.
  rewrite (IH _ _ _ _ _ Hr'), (en_advance_cols _ _ _ _ Hx). by eapply en_row_cols.
Qed.

Lemma all_rows_cols fuel s s' e e' rs : all_rows fuel e s = (s', Ok (e', rs)) -> ex_cols e' = ex_cols e.
Proof.
  intros Ha. apply bind_inv in Ha as (s1 & e1 & Hb & Ha). rewrite (rows_from_cols _ _ _ _ _ _ Ha).
  by eapply en_begin_cols.
Qed.

(** As much fuel as there are rows is enough. *)
Lemma rows_from_fuel fuel : forall s e l r fuel',
  en_at s e l r -> (length r <= fuel)%nat -> (fuel <= fuel')%nat -> rows_from fuel' e s = rows_from fuel e s.
Proof.
  induction fuel as [|fuel IH]; intros s e l r fuel' Ha Hl Hle.
  - destruct r; [|simpl in Hl; lia].
    destruct fuel'; simpl; rewrite !(lift_ok _ _ _ _ (en_end _ _ _ _ Ha)); by rewrite bool_decide_true.
  - destruct fuel' as [|fuel']; [lia|]. simpl. rewrite !(lift_ok _ _ _ _ (en_end _ _ _ _ Ha)).
    destruct r as [|x r]; [by rewrite bool_decide_true|]. rewrite bool_decide_false by done.
    apply bind_same. intros s1 [e1 o] Hn. destruct (en_next_row _ _ _ _ _ _ _ _ Ha Hn) as (_ & -> & Ht).
    apply bind_same. intros s2 e2 Hx. destruct (en_advance _ _ _ _ _ _ Ht Hx) as (_ & Ha2).
    unfold mbind, M_bind. erewrite (IH s2 e2 l r fuel'); [done|done|simpl in Hl; lia|lia].
Qed.

Lemma all_rows_fuel fuel s e l :
  en_ready s e l -> (length l <= fuel)%nat -> all_rows fuel e s = all_rows (length l) e s.
Proof.
  intros Hr Hl. unfold all_rows. apply bind_same. intros s1 e1 Hb.
  destruct (en_begin _ _ _ _ _ Hr Hb) as (_ & Ha). by eapply rows_from_fuel.
Qed.
End drain_laws.

(** An executor whose operations return: while [tt_good], in a pass. *)
Class Total (S E : Type) `{Enumerates S E} := {
  tt_good : E -> Prop;
  tt_begin s e l : tt_good e -> en_ready s e l -> exists s' e', ex_beginTuple e s = (s', Ok e') /\ tt_good e';
  tt_next s e l x r : tt_good e -> en_at s e l (x :: r) -> exists s' e' o, ex_Next e s = (s', Ok (e', o)) /\ tt_good e';
  tt_advance s e l r : tt_good e -> en_taken s e l r -> exists s' e', ex_nextTuple e s = (s', Ok e') /\ tt_good e';
}.

Section total.
Context {S E : Type} `{Total S E}.

Lemma rows_from_total k : forall s e l r, tt_good e -> en_at s e l r -> (length r <= k)%nat ->
  exists s' e', rows_from k e s = (s', Ok (e', row <$> r)) /\ tt_good e'.
Proof.
  induction k as [|k IH]; intros s e l r Hg Ha Hk; cbn [rows_from]; rewrite (lift_ok _ _ _ _ (en_end _ _ _ _ Ha));
    (destruct r as [|x r]; [by eexists s, e|]); [simpl in Hk; lia|].
  rewrite bool_decide_false by done. destruct (tt_next _ _ _ _ _ Hg Ha) as (s1 & e1 & o & En & Hg1).
  destruct (en_next_row _ _ _ _ _ _ _ _ Ha En) as (_ & -> & Ht). rewrite (bind_ok _ _ _ _ _ En).
  destruct (tt_advance _ _ _ _ Hg1 Ht) as (s2 & e2 & Ex & Hg2).
  destruct (en_advance _ _ _ _ _ _ Ht Ex) as (_ & Ha2). rewrite (bind_ok _ _ _ _ _ Ex).
  destruct (IH _ _ _ _ Hg2 Ha2) as (s3 & e3 & Er & Hg3); [simpl in Hk; lia|]. rewrite (bind_ok _ _ _ _ _ Er).
  by eexists s3, e3.
Qed.

(** A ready executor gives its rows. *)
Lemma all_rows_total k s e l : tt_good e -> en_ready s e l -> (length l <= k)%nat ->
  exists s' e', all_rows k e s = (s', Ok (e', row <$> l)) /\ tt_good e'.
Proof.
  intros Hg Hr Hk. destruct (tt_begin _ _ _ Hg Hr) as (s1 & e1 & Eb & Hg1). unfold all_rows.
  rewrite (bind_ok _ _ _ _ _ Eb). destruct (en_begin _ _ _ _ _ Hr Eb) as (_ & Ha). by eapply rows_from_total.
Qed.
End total.

(** ** Rows in memory

    An executor over a list of rows, for the examples. *)
Module Rows.

Record t := mk { len : Z; cols : list ColMeta; rows : list bytes; pos : nat }.
Definition seek (e : t) (k : nat) : t := mk (len e) (cols e) (rows e) k.

#[global] Instance unit_calm : Calm unit := {
  calm _ _ := True; calm_refl _ := I; calm_trans _ _ _ _ _ := I;
}.
#[global] Instance memory : AbstractExecutor unit t := {
  ex_tupleLen e := Ok (len e);
  ex_cols := cols;
  ex_beginTuple e := mret (seek e 0);
  ex_nextTuple e := mret (seek e (S (pos e)));
  ex_is_end e := Ok (bool_decide (drop (pos e) (rows e) = []));
  ex_Next e := mret (e, row <$> rows e !! pos e);
}.

#[global] Program Instance memory_enumerates : Enumerates unit t := {
  en_ready _ e l := rows e = l;
  en_at _ e l r := rows e = l /\ r = drop (pos e) l;
  en_taken _ e l r := rows e = l /\ exists x, x :: r = drop (pos e) l;
}.
Next Obligation. done. Qed.
Next Obligation. done. Qed.
Next Obligation. done. Qed.
Next Obligation. intros s s' e e' l <- Hb. cbn in Hb. injection Hb as <- <-. done. Qed.
Next Obligation. intros s e l r [<- ->]. done. Qed.
Next Obligation.
  intros s s' e e' l x r o [<- Hd] Hn. cbn in Hn. injection Hn as <- <- <-. split; [done|split; [|by split; [|exists x]]].
  rewrite <- (Nat.add_0_r (pos e)), <- lookup_drop, <- Hd. done.
Qed.
Next Obligation. intros s e l r [<- (x & Hd)]. cbn. by rewrite <- Hd. Qed.
Next Obligation.
  intros s s' e e' l r [<- (x & Hd)] Hn. cbn in Hn. injection Hn as <- <-. split; [done|]. split; [done|]. cbn.
  replace (S (pos e)) with (pos e + 1)%nat by lia. by rewrite <- drop_drop, <- Hd.
Qed.
Next Obligation. intros s s' e e' Hb. cbn in Hb. by injection Hb as <- <-. Qed.
Next Obligation. intros s s' e e' o Hb. cbn in Hb. by injection Hb as <- <- <-. Qed.
Next Obligation. intros s s' e e' Hb. cbn in Hb. by injection Hb as <- <-. Qed.

#[global] Program Instance memory_restarts : Restarts unit t.
Next Obligation. intros s e l r [<- _]. done. Qed.
#[global] Program Instance memory_total : Total unit t := { tt_good _ := True }.
Next Obligation. intros. by eexists _, _. Qed.
Next Obligation. intros. by eexists _, _, _. Qed.
Next Obligation. intros. by eexists _, _. Qed.
End Rows.

(** ** [ProjectionExecutor] *)
Module Projection.

Record t (E : Type) := mk {
  prev : E;
  cols : list ColMeta;
  plen : Z;
  sel_idxs : list nat;
}.
Arguments mk {E}.
Arguments prev {E}.
Arguments cols {E}.
Arguments plen {E}.
Arguments sel_idxs {E}.

Definition set_offset (o : Z) (c : ColMeta) : ColMeta :=
  mkColMeta (cm_tab_name c) (cm_name c) (cm_type c) (cm_len c) o (cm_index c).

(** The loop of the constructor: positions, columns and the next offset. *)
Fixpoint select (prev_cols : list ColMeta) (sel_cols : list TabCol) (curr_offset : Z) : res (list nat * list ColMeta * Z) :=
  match sel_cols with
  | [] => Ok ([], [], curr_offset)
  | sel_col :: l =>
      '(i, col) ← Filter.get_col prev_cols sel_col;
      '(ids, cs, len) ← select prev_cols l (u64 (curr_offset + cm_len col));
      Ok (i :: ids, set_offset (i32 curr_offset) col :: cs, len)
  end.

(** The loop of [Next]. *)
Fixpoint copy_cols (prev_cols : list ColMeta) (idxs : list nat) (cols : list ColMeta) (src : option bytes) (dst : bytes) : res bytes :=
  match cols, idxs with
  | [], _ => Ok dst
  | proj_col :: cols', i :: idxs' =>
      match prev_cols !! i with
      | Some prev_col =>
          dst ← copy dst (cm_offset proj_col) src (cm_offset prev_col) (cm_len prev_col);
          copy_cols prev_cols idxs' cols' src dst
      | None => Throw Stuck
      end
  | _ :: _, [] => Throw Stuck
  end.

Section ops.
Context {S E : Type} `{AbstractExecutor S E} (junk : bytes).

Definition make (prev : E) (sel_cols : list TabCol) : res (t E) :=
  '(ids, cs, len) ← select (ex_cols prev) sel_cols 0;
  Ok (mk prev cs len ids).

Definition set_prev (p : E) (e : t E) : t E := mk p (cols e) (plen e) (sel_idxs e).
Definition is_end (e : t E) : res bool := ex_is_end (prev e).
Definition Next (e : t E) : M S (t E * option RmRecord) :=
  b ← lift (is_end e);
  if b : bool then mret (e, None) else
  dst ← lift (fresh junk (i32 (plen e)));
  '(p, o) ← ex_Next (prev e);
  match o with
  | None => throw Stuck
  | Some rec =>
      dst ← lift (copy_cols (ex_cols p) (sel_idxs e) (cols e) (rec_data rec) dst);
      mret (set_prev p e, Some (mkRmRecord (Some dst) (i32 (plen e)) true))
  end.

#[export] Instance projection : AbstractExecutor S (t E) := {
  ex_tupleLen _ := no_tupleLen;
  ex_cols := cols;
  ex_beginTuple e := p ← ex_beginTuple (prev e); mret (set_prev p e);
  ex_nextTuple e := p ← ex_nextTuple (prev e); mret (set_prev p e);
  ex_is_end := is_end;
  ex_Next := Next;
}.
End ops.

(** *** What a projection enumerates *)

(** The bytes of a column of a row. *)
Definition field (c : ColMeta) (x : bytes) : bytes := mem_read x (Z.to_nat (cm_offset c)) (Z.to_nat (cm_len c)).
Definition col_in (n : nat) (c : ColMeta) : Prop :=
  0 <= cm_offset c /\ 0 <= cm_len c /\ cm_offset c + cm_len c <= Z.of_nat n.
(** The selected columns of a row, one after the other. *)
Definition project (cs : list ColMeta) (x : bytes) : bytes := concat ((fun c => field c x) <$> cs).

Definition width (cs : list ColMeta) : Z := foldr (fun c n => cm_len c + n) 0 cs.

Lemma width_nonneg cs n : Forall (col_in n) cs -> 0 <= width cs.
Proof. induction 1 as [|c cs (_ & ? & _) _ IH]; simpl; lia. Qed.

Lemma length_project n cs x : length x = n -> Forall (col_in n) cs -> Z.of_nat (length (project cs x)) = width cs.
Proof.
  intros Hx. induction 1 as [|c cs (? & ? & ?) _ IH]; [done|]. unfold project in *.
  cbn [fmap list_fmap concat width foldr]. fold (width cs). rewrite length_app, Nat2Z.inj_add, IH.
  unfold field. rewrite length_mem_read. lia.
Qed.

(** The columns of the projected rows. *)
Fixpoint offsets (off : Z) (srcs : list ColMeta) : list ColMeta :=
  match srcs with [] => [] | c :: cs => set_offset off c :: offsets (off + cm_len c) cs end.
(** The columns that are selected. *)
Definition chosen (prev_cols : list ColMeta) (sel_cols : list TabCol) (srcs : list ColMeta) : Prop :=
  Forall2 (fun sel c => exists i, Filter.get_col prev_cols sel = Ok (i, c)) sel_cols srcs.

(** The constructor's columns name the columns they are copied from. *)
Lemma select_ok prev_cols n : Forall (col_in n) prev_cols -> forall sel_cols off ids cs len,
  0 <= off -> select prev_cols sel_cols off = Ok (ids, cs, len) ->
  exists srcs, length ids = length srcs /\ chosen prev_cols sel_cols srcs /\ Forall (col_in n) srcs /\
    (off + width srcs < 2 ^ 31 -> len = off + width srcs /\ cs = offsets off srcs /\
     forall x dst, length x = n -> off + width srcs <= Z.of_nat (length dst) ->
       copy_cols prev_cols ids cs (Some x) dst = Ok (mem_write dst (Z.to_nat off) (project srcs x))).
Proof.
  intros Hin. induction sel_cols as [|sel sels IH]; intros off ids cs len Ho Hr; simpl in Hr.
  - injection Hr as <- <- <-. exists []. split_and!; try done; [constructor|]. intros _. simpl. split_and!; [lia|done|].
    intros x dst _ _. unfold project. simpl. by rewrite mem_write_nil.
  - destruct (Filter.get_col prev_cols sel) as [[i col]|] eqn:Eg; [|done]. cbn in Hr.
    assert (Hi : prev_cols !! i = Some col).
    { unfold Filter.get_col in Eg. destruct (Filter.find_tab_col _ _); [|done].
      destruct (prev_cols !! n0) eqn:El; [|done]. by injection Eg as <- <-. }
    pose proof (Forall_lookup_1 _ _ _ _ Hin Hi) as (C1 & C2 & C3).
    destruct (select prev_cols sels (u64 (off + cm_len col))) as [[[ids' cs'] len']|] eqn:Es; [|done].
    cbn in Hr. injection Hr as <- <- <-.
    destruct (IH _ _ _ _ (proj1 (Z.mod_pos_bound _ (2 ^ 64) ltac:(lia))) Es) as (srcs & L1 & L2 & F & Hk).
    exists (col :: srcs). split_and!; [simpl; lia|constructor; [by exists i|done]|by constructor|]. cbn [width foldr copy_cols]. fold (width srcs). intros Hlt.
    pose proof (width_nonneg _ _ F). unfold u64 in Hk. rewrite Z.mod_small in Hk by lia.
    destruct (Hk ltac:(lia)) as (-> & -> & Hcp). split_and!; [lia|cbn [offsets]; by rewrite i32_small by (unfold in_i32; lia)|].
    intros x dst Hx Hd. rewrite Hi.
    unfold set_offset. cbn [cm_offset]. rewrite i32_small by (unfold in_i32; lia).
    rewrite copy_ok by lia. cbn [mbind res_bind]. rewrite Hcp by (try done; len).
    f_equal. unfold project. cbn [fmap list_fmap concat]. fold (field col x).
    rewrite <- mem_write_app by (fold (project srcs x); pose proof (length_project _ _ _ Hx F); unfold field; len).
    f_equal. unfold field. len.
Qed.

Section laws.
Context {S E : Type} `{Enumerates S E} (junk : bytes).
#[local] Existing Instance projection.

(** On rows of [n] bytes the executor copies the columns [srcs] of its child. *)
Record sound (n : nat) (srcs : list ColMeta) (e : t E) : Prop := {
  so_len : plen e = width srcs;
  so_small : 0 <= width srcs < 2 ^ 31;
  so_copy x dst : length x = n -> Z.of_nat (length dst) = width srcs ->
    copy_cols (ex_cols (prev e)) (sel_idxs e) (cols e) (Some x) dst = Ok (project srcs x);
  so_row x : length x = n -> Z.of_nat (length (project srcs x)) = width srcs;
}.

Lemma sound_set n srcs e p : ex_cols p = ex_cols (prev e) -> sound n srcs e -> sound n srcs (set_prev p e).
Proof. intros Hp [A B C D]. split; try done. cbn. by rewrite Hp. Qed.

Lemma make_sound n (p : E) sel_cols e : Forall (col_in n) (ex_cols p) -> make p sel_cols = Ok e ->
  exists srcs, chosen (ex_cols p) sel_cols srcs /\ Forall (col_in n) srcs /\ prev e = p /\
    (width srcs < 2 ^ 31 -> sound n srcs e /\ cols e = offsets 0 srcs).
Proof.
  intros Hin Hm. unfold make in Hm.
  destruct (select (ex_cols p) sel_cols 0) as [[[ids cs] len]|] eqn:Es; [|done]. cbn in Hm. injection Hm as <-.
  destruct (select_ok _ _ Hin _ _ _ _ _ (Z.le_refl 0) Es) as (srcs & _ & L2 & F & Hk).
  exists srcs. split_and!; try done. intros Hw. destruct (Hk Hw) as (-> & -> & Hc). pose proof (width_nonneg _ _ F).
  split; [|done]. split; cbn [plen prev cols sel_idxs]; [done|lia| |].
  - intros x dst Hx Hd. rewrite Hc by (done || lia). change (Z.to_nat 0) with 0%nat. f_equal.
    pose proof (length_project _ _ _ Hx F). unfold mem_write. rewrite (take_ge (project srcs x)) by lia. cbn [take app Nat.add].
    rewrite drop_ge by lia. by rewrite app_nil_r.
  - intros x Hx. by apply (length_project n).
Qed.

Definition at_with (P : E -> list bytes -> list bytes -> Prop) (e : t E) (l r : list bytes) : Prop :=
  exists n srcs lp rp, sound n srcs e /\ P (prev e) lp rp /\ Forall (fun x => length x = n) lp /\
    Forall (fun x => length x = n) rp /\ l = project srcs <$> lp /\ r = project srcs <$> rp.

Lemma at_with_mono (P Q : E -> list bytes -> list bytes -> Prop) e l r :
  (forall lp rp, P (prev e) lp rp -> Q (prev e) lp rp) -> at_with P e l r -> at_with Q e l r.
Proof. intros HPQ (n & srcs & lp & rp & ? & ? & ?). exists n, srcs, lp, rp. auto. Qed.

Lemma next_run s e srcs n lp x rp p o s' : sound n srcs e -> length x = n -> en_at s (prev e) lp (x :: rp) ->
  Next junk e s = (s', Ok (p, o)) ->
  exists p1 s1, ex_Next (prev e) s = (s1, Ok (p1, Some (row x))) /\ s' = s1 /\ p = set_prev p1 e /\
    o = Some (row (project srcs x)).
Proof.
  intros Hs Hx Ha Hr. unfold Next, is_end in Hr. rewrite (lift_ok _ _ _ _ (en_end _ _ _ _ Ha)) in Hr.
  rewrite bool_decide_false in Hr by done. apply bind_inv in Hr as (s1 & dst & Hf & Hr).
  unfold lift in Hf. injection Hf as <- Hf. apply length_fresh in Hf as [_ Hd].
  rewrite (so_len _ _ _ Hs), i32_small in Hd by (pose proof (so_small _ _ _ Hs); unfold in_i32; lia).
  apply bind_inv in Hr as (s1 & [p1 o1] & Hn & Hr). destruct (en_next_row _ _ _ _ _ _ _ _ Ha Hn) as (_ & -> & _).
  cbn [rec_data row] in Hr. pose proof (so_small _ _ _ Hs).
  rewrite (en_row_cols _ _ _ _ _ Hn) in Hr.
  rewrite (lift_ok _ _ _ _ (so_copy _ _ _ Hs x dst Hx ltac:(lia))) in Hr.
  unfold mret, M_ret in Hr. injection Hr as <- <- <-. exists p1, s1. split_and!; try done.
  unfold row. rewrite (so_row _ _ _ Hs _ Hx), (so_len _ _ _ Hs), i32_small; [done|unfold in_i32; lia].
Qed.

#[export] Program Instance projection_enumerates : Enumerates S (t E) (H0 := projection junk) := {
  en_ready s e l := at_with (fun p lp rp => en_ready s p lp /\ rp = lp) e l l;
  en_at s e := at_with (en_at s) e;
  en_taken s e := at_with (en_taken s) e;
}.
Next Obligation.
  intros s s' e l Hc. apply at_with_mono. intros lp rp [? ->]. split; [by eapply en_ready_calm|done].
Qed.
Next Obligation. intros s s' e l r Hc. apply at_with_mono. intros lp rp. by apply en_at_calm. Qed.
Next Obligation. intros s s' e l r Hc. apply at_with_mono. intros lp rp. by apply en_taken_calm. Qed.
Next Obligation.
  intros s s' e e' l (n & srcs & lp & rp & Hs & [Hr ->] & Hf & _ & -> & _) Hb.
  apply bind_inv in Hb as (s1 & p1 & Hp & Hb). unfold mret, M_ret in Hb. injection Hb as <- <-.
  destruct (en_begin _ _ _ _ _ Hr Hp) as (Hc & Ha). split; [done|].
  exists n, srcs, lp, lp. split_and!; try done. apply sound_set; [|done]. by eapply en_begin_cols.
Qed.
Next Obligation.
  intros s e l r (n & srcs & lp & rp & Hs & Ha & _ & _ & -> & ->). cbn. unfold is_end.
  rewrite (en_end _ _ _ _ Ha). f_equal. apply bool_decide_ext. by destruct rp.
Qed.
Next Obligation.
  intros s s' e e' l x r o (n & srcs & lp & rp & Hs & Ha & Hl & Hf & -> & Hx) Hr.
  destruct rp as [|y rp]; [done|]. rewrite fmap_cons in Hx. injection Hx as -> ->. apply Forall_cons in Hf as [Hy Hf].
  destruct (next_run _ _ _ _ _ _ _ _ _ _ Hs Hy Ha Hr) as (p1 & s1 & Hn & -> & -> & ->).
  destruct (en_next_row _ _ _ _ _ _ _ _ Ha Hn) as (Hc & _ & Ht). split_and!; [done|done|].
  exists n, srcs, lp, rp. split_and!; try done. apply sound_set; [|done]. by eapply en_row_cols.
Qed.
Next Obligation. intros s e l r (n & srcs & lp & rp & Hs & Ha & _). exact (en_taken_end _ _ _ _ Ha). Qed.
Next Obligation.
  intros s s' e e' l r (n & srcs & lp & rp & Hs & Ha & Hl & Hf & -> & ->) Hb.
  apply bind_inv in Hb as (s1 & p1 & Hp & Hb). unfold mret, M_ret in Hb. injection Hb as <- <-.
  destruct (en_advance _ _ _ _ _ _ Ha Hp) as (Hc & Ha'). split; [done|].
  exists n, srcs, lp, rp. split_and!; try done. apply sound_set; [|done]. by eapply en_advance_cols.
Qed.
Next Obligation. intros s s' e e' Hb. apply bind_inv in Hb as (s1 & p1 & Hp & Hb). by injection Hb as <- <-. Qed.
Next Obligation.
  intros s s' e e' o Hr. unfold ex_Next, projection, Next in Hr. minv. case_match; [by injection Hr as <- <- <-|].
  minv. destruct a1 as [p1 o1]. destruct o1; [|done]. minv. by injection Hr as <- <- <-.
Qed.
Next Obligation. intros s s' e e' Hb. apply bind_inv in Hb as (s1 & p1 & Hp & Hb). by injection Hb as <- <-. Qed.
End laws.
End Projection.

(** ** [SortExecutor] *)

(** [std::sort] with a comparison that may throw.  When the comparison is a strict weak
    order on the elements it returns a permutation in that order; otherwise the behaviour
    is undefined, and equal elements come in an order the standard leaves open. *)
Record strict_weak {A} (P : A -> Prop) (lt : A -> A -> bool) : Prop := {
  sw_irrefl a : P a -> lt a a = false;
  sw_trans a b c : P a -> P b -> P c -> lt a b = true -> lt b c = true -> lt a c = true;
  sw_neg a b c : P a -> P b -> P c -> lt a b = false -> lt b c = false -> lt a c = false;
}.

Class StdSort := {
  std_sort {A} : (A -> A -> res bool) -> list A -> res (list A);
  std_sort_ok {A} (P : A -> Prop) (comp : A -> A -> res bool) (lt : A -> A -> bool) l :
    Forall P l -> (forall a b, P a -> P b -> comp a b = Ok (lt a b)) -> strict_weak P lt ->
    exists l', std_sort comp l = Ok l' /\ l' ≡ₚ l /\ StronglySorted (fun a b => lt b a = false) l';
}.

Module Sort.

Definition INT_MAX : Z := 2 ^ 31 - 1.

Record t (E : Type) := mk {
  prev : E;
  cols_map : gmap string ColMeta;
  key_cols : list TabCol;
  used_tuple : Z;
  records : list RmRecord;
  limit : Z;
}.
Arguments mk {E}.
Arguments prev {E}.
Arguments cols_map {E}.
Arguments key_cols {E}.
Arguments used_tuple {E}.
Arguments records {E}.
Arguments limit {E}.

Section ops.
Context {S E : Type} `{AbstractExecutor S E} `{StdSort} (fuel : nat).

(** The loop of the constructor: the map is by the name of the column alone.  The
    iterator of a column that is not found must not be used. *)
Fixpoint key_map (cols : list ColMeta) (keys : list TabCol) (m : gmap string ColMeta) : res (gmap string ColMeta) :=
  match keys with
  | [] => Ok m
  | k :: keys' =>
      match Filter.find_tab_col cols k ≫= (cols !!.) with
      | Some c => key_map cols keys' (<[cm_name c := c]> m)
      | None => Throw Stuck
      end
  end.
Definition make (prev : E) (keys : list TabCol) (limit : Z) : res (t E) :=
  m ← key_map (ex_cols prev) keys ∅; Ok (mk prev m keys 0 [] limit).

(** The comparison of two records: the first key on which they differ decides. *)
Fixpoint compare_keys (m : gmap string ColMeta) (keys : list TabCol) (l r : RmRecord) : res bool :=
  match keys with
  | [] => Ok false
  | k :: keys' =>
      let c := default (mkColMeta "" "" TYPE_INT 0 0 false) (m !! tc_col_name k) in
      a ← Filter.ptr_at (rec_data l) (cm_offset c);
      b ← Filter.ptr_at (rec_data r) (cm_offset c);
      cmp ← Filter.compare a b (cm_len c) (cm_type c);
      if negb (cmp =? 0) then Ok (if tc_is_desc k then 0 <? cmp else cmp <? 0)
      else compare_keys m keys' l r
  end.

Definition beginTuple (e : t E) : M S (t E) :=
  let limit := if limit e <? 0 then INT_MAX else limit e in
  '(p, rows) ← all_rows fuel (prev e);
  let records := records e ++ rows in
  sorted ← lift (match key_cols e with
                 | [] => Ok records
                 | _ => std_sort (compare_keys (cols_map e) (key_cols e)) records
                 end);
  mret (mk p (cols_map e) (key_cols e) (used_tuple e) sorted limit).
Definition nextTuple (e : t E) : t E :=
  mk (prev e) (cols_map e) (key_cols e) (i32 (used_tuple e + 1)) (records e) (limit e).
(** The second comparison is of the [int] as a [size_t]. *)
Definition is_end (e : t E) : bool :=
  (limit e <=? used_tuple e) || (Z.of_nat (length (records e)) <=? u64 (used_tuple e)).
Definition Next (e : t E) : res (option RmRecord) :=
  if is_end e then Ok None else
  match records e !! Z.to_nat (used_tuple e) with
  | Some r => Ok (Some (RmRecord_copy r))
  | None => Throw Stuck
  end.

#[export] Instance sort : AbstractExecutor S (t E) := {
  ex_tupleLen e := ex_tupleLen (prev e);
  ex_cols e := ex_cols (prev e);
  ex_beginTuple := beginTuple;
  ex_nextTuple e := mret (nextTuple e);
  ex_is_end e := Ok (is_end e);
  ex_Next e := o ← lift (Next e); mret (e, o);
}.
End ops.

(** *** The order of rows *)

(** The keys of the executor, each with its column and whether it is descending. *)
Definition keys (m : gmap string ColMeta) (ks : list TabCol) : list (ColMeta * bool) :=
  (fun k => (default (mkColMeta "" "" TYPE_INT 0 0 false) (m !! tc_col_name k), tc_is_desc k)) <$> ks.

(** What a row has for a column, as a list of numbers in lexicographic order. *)
Definition key_rank (c : ColMeta) (x : bytes) : list Z :=
  col_rank (cm_type c) (cm_len c) (drop (Z.to_nat (cm_offset c)) x).
(** The comparison of two rows by their keys. *)
Fixpoint order (ks : list (ColMeta * bool)) (x y : bytes) : Z :=
  match ks with
  | [] => 0
  | (c, desc) :: ks' =>
      let d := lex (key_rank c x) (key_rank c y) in
      if d =? 0 then order ks' x y else if desc then - d else d
  end.

(** A row that has a value in every key column, none of them a NaN. *)
Definition key_in (x : bytes) (c : ColMeta) : Prop :=
  0 <= cm_offset c /\ 0 <= cm_len c /\ cm_offset c + cm_len c <= Z.of_nat (length x) /\ cm_type c <> TYPE_DOUBLE /\
  Z.of_nat (col_width (cm_type c)) <= cm_len c /\
  (cm_type c = TYPE_FLOAT -> f32_nan (load_u32 (drop (Z.to_nat (cm_offset c)) x) 0) = false).
Definition comparable (ks : list (ColMeta * bool)) (x : bytes) : Prop := Forall (fun k => key_in x k.1) ks.

Lemma order_opp ks x y : order ks y x = - order ks x y.
Proof.
  induction ks as [|[c desc] ks IH]; [done|]. simpl. rewrite (lex_opp (key_rank c x)).
  destruct (Z.eqb_spec (lex (key_rank c x) (key_rank c y)) 0) as [->|E]; [done|].
  rewrite (proj2 (Z.eqb_neq (- _) 0)) by lia. destruct desc; lia.
Qed.

Lemma order_refl ks x : order ks x x = 0.
Proof. pose proof (order_opp ks x x). lia. Qed.

Lemma order_trans ks x y z : order ks x y <= 0 -> order ks y z <= 0 ->
  order ks x z <= 0 /\ (order ks x y < 0 \/ order ks y z < 0 -> order ks x z < 0).
Proof.
  induction ks as [|[c desc] ks IH]; simpl; [lia|].
  set (a := key_rank c x). set (b := key_rank c y). set (d := key_rank c z).
  pose proof (lex_trans a b d) as T1. pose proof (lex_trans d b a) as T2.
  rewrite (lex_opp b d), (lex_opp a b), (lex_opp a d) in T2.
  assert (Ez : lex a b = 0 -> lex a d = lex b d) by (intros E; by rewrite (lex_eq _ _ E)).
  assert (Ez' : lex b d = 0 -> lex a d = lex a b) by (intros E; by rewrite (lex_eq _ _ E)).
  destruct (Z.eqb_spec (lex a b) 0) as [E1|E1], (Z.eqb_spec (lex b d) 0) as [E2|E2],
    (Z.eqb_spec (lex a d) 0) as [E3|E3]; destruct desc; try lia; intros; apply IH; done.
Qed.

Lemma order_weak ks : strict_weak (comparable ks) (fun x y => order ks x y <? 0).
Proof.
  split.
  - intros x _. by rewrite order_refl.
  - intros x y z _ _ _ Q1 Q2. apply Z.ltb_lt in Q1, Q2. apply Z.ltb_lt.
    apply (order_trans ks x y z); [lia|lia|auto].
  - intros x y z _ _ _ Q1 Q2. apply Z.ltb_ge in Q1, Q2. apply Z.ltb_ge.
    pose proof (order_opp ks y x). pose proof (order_opp ks z y). pose proof (order_opp ks z x).
    destruct (order_trans ks z y x); lia.
Qed.

Lemma ptr_row x o : 0 <= o -> Filter.ptr_at (rec_data (row x)) o = Ok (drop (Z.to_nat o) x).
Proof. intros Ho. unfold Filter.ptr_at, row. cbn [rec_data]. by rewrite (proj2 (Z.ltb_ge o 0)). Qed.

(** The executor's comparison is this order. *)
Lemma compare_keys_order m ks x y : comparable (keys m ks) x -> comparable (keys m ks) y ->
  compare_keys m ks (row x) (row y) = Ok (order (keys m ks) x y <? 0).
Proof.
  induction ks as [|k ks IH]; intros Hx Hy; [done|].
  unfold keys in *. rewrite fmap_cons in *. apply Forall_cons in Hx as [X Hx], Hy as [Y Hy]. cbn [fst] in *.
  cbn [compare_keys order]. set (c := default _ _) in *. destruct X as (X1 & X2 & X3 & X4 & X5 & X6), Y as (_ & _ & Y3 & _ & _ & Y6).
  rewrite !ptr_row by done. cbn [mbind res_bind].
  set (a := drop _ x) in *. set (b := drop _ y) in *.
  assert (La : (Z.to_nat (cm_len c) <= length a)%nat) by (subst a; rewrite length_drop; lia).
  assert (Lb : (Z.to_nat (cm_len c) <= length b)%nat) by (subst b; rewrite length_drop; lia).
  destruct (compare1_rank a b (cm_type c) (cm_len c) X4 La Lb) as [Hc _]; [auto|].
  assert (Hcmp : Filter.compare a b (cm_len c) (cm_type c) = Ok (lex (key_rank c x) (key_rank c y))).
  { destruct (Filter.compare a b (cm_len c) (cm_type c)) as [r|e] eqn:E.
    - apply Filter.compare_index in E; [|done]. unfold key_rank. fold a b. rewrite Hc in E. by injection E as ->.
    - exfalso. assert (Hr : forall k : nat, Z.of_nat k <= cm_len c -> Filter.readable k a && Filter.readable k b = true).
      { intros k' Hk'. unfold Filter.readable. rewrite !(proj2 (Nat.leb_le _ _)) by lia. done. }
      destruct (cm_type c) eqn:Et; try done; cbn [Filter.compare col_width] in E, X5; unfold Filter.read2 in E;
        try rewrite (proj2 (Z.ltb_ge (cm_len c) 0)) in E by lia; rewrite Hr in E by lia; done. }
  rewrite Hcmp. cbn [mbind res_bind]. destruct (Z.eqb_spec (lex (key_rank c x) (key_rank c y)) 0); cbn [negb].
  - by apply IH.
  - destruct (tc_is_desc k); [|done]. f_equal.
    destruct (Z.ltb_spec 0 (lex (key_rank c x) (key_rank c y))), (Z.ltb_spec (- lex (key_rank c x) (key_rank c y)) 0); lia.
Qed.

(** *** The columns the keys name *)

(** The first of the columns with the table and the name of a key. *)
Definition first_named (cols : list ColMeta) (k : TabCol) (c : ColMeta) : Prop :=
  exists before after, cols = before ++ c :: after /\ cm_tab_name c = tc_tab_name k /\ cm_name c = tc_col_name k /\
    Forall (fun b => cm_tab_name b <> tc_tab_name k \/ cm_name b <> tc_col_name k) before.
(** The keys of a statement, each with its column and whether it is descending. *)
Definition asked (cols : list ColMeta) : list TabCol -> list (ColMeta * bool) -> Prop :=
  Forall2 (fun k p => first_named cols k p.1 /\ p.2 = tc_is_desc k).
(** Keys of one name are of one table. *)
Definition names_apart (ks : list TabCol) : Prop :=
  forall k k', k ∈ ks -> k' ∈ ks -> tc_col_name k = tc_col_name k' -> tc_tab_name k = tc_tab_name k'.

Lemma first_named_found cols k c : first_named cols k c -> Filter.find_tab_col cols k ≫= (cols !!.) = Some c.
Proof.
  intros (l & r & -> & Ht & Hn & Hl). induction Hl as [|b l Hb Hl IH]; cbn [app Filter.find_tab_col].
  - by rewrite bool_decide_true.
  - rewrite bool_decide_false by tauto. destruct (Filter.find_tab_col (l ++ c :: r) k); [exact IH|discriminate IH].
Qed.

Lemma found_named cols k : forall c, Filter.find_tab_col cols k ≫= (cols !!.) = Some c -> cm_name c = tc_col_name k.
Proof.
  induction cols as [|b cols IH]; intros c; [done|]. cbn [Filter.find_tab_col]. case_bool_decide as Hb.
  - intros [= <-]. apply Hb.
  - intros Hc. apply IH. destruct (Filter.find_tab_col cols k); [exact Hc|discriminate Hc].
Qed.

Lemma find_ext cols k k' : tc_tab_name k = tc_tab_name k' -> tc_col_name k = tc_col_name k' ->
  Filter.find_tab_col cols k = Filter.find_tab_col cols k'.
Proof. intros Et En. induction cols as [|b cols IH]; [done|]. cbn [Filter.find_tab_col]. by rewrite Et, En, IH. Qed.

(** The map has, for the name of a key, the column of a key of that name. *)
Lemma key_map_found cols ks : forall m m', key_map cols ks m = Ok m' ->
  (forall n, (forall k, k ∈ ks -> tc_col_name k <> n) -> m' !! n = m !! n) /\
  forall k, k ∈ ks -> exists k', k' ∈ ks /\ tc_col_name k' = tc_col_name k /\
    m' !! tc_col_name k = Filter.find_tab_col cols k' ≫= (cols !!.).
Proof.
  induction ks as [|k0 ks IH]; intros m m' Hm; cbn [key_map] in Hm.
  { injection Hm as <-. split; [done|]. intros k Hk; by apply elem_of_nil in Hk. }
  destruct (Filter.find_tab_col cols k0 ≫= (cols !!.)) as [c|] eqn:E; [|done]. pose proof (found_named _ _ _ E) as Hc.
  rewrite Hc in Hm. destruct (IH _ _ Hm) as [I1 I2]. split.
  - intros n Hn. rewrite I1; [|intros k Hk; apply Hn; by right]. rewrite lookup_insert_ne; [done|]. apply Hn. by left.
  - intros k Hk. destruct (decide (Exists (fun k' => tc_col_name k' = tc_col_name k) ks)) as [He|He].
    + apply Exists_exists in He as (k1 & Hk1 & En). destruct (I2 k1 Hk1) as (k' & Hk' & En' & Hl).
      exists k'. split_and!; [by right|congruence|]. by rewrite <- En, Hl.
    + assert (Hno : forall k', k' ∈ ks -> tc_col_name k' <> tc_col_name k).
      { intros k' Hk' En. apply He, Exists_exists. by exists k'. }
      apply elem_of_cons in Hk as [->|Hk]; [|by destruct (Hno k Hk)].
      exists k0. split_and!; [by left|done|]. rewrite I1 by done. by rewrite lookup_insert_eq, E.
Qed.

Lemma keys_asked cols sel ks m : names_apart sel -> asked cols sel ks -> key_map cols sel ∅ = Ok m -> keys m sel = ks.
Proof.
  intros Ha Hk Hm. destruct (key_map_found _ _ _ _ Hm) as [_ Hf]. clear Hm.
  assert (Hg : forall l kl, asked cols l kl -> (forall k, k ∈ l -> k ∈ sel) -> keys m l = kl); [|by apply Hg].
  clear Hk ks. intros l kl Hk. unfold keys. induction Hk as [|k [c d] l kl [Hn Hd] Hk IH]; intros Hi; [done|].
  cbn [fst snd] in *. rewrite fmap_cons, IH by (intros k' Hk'; apply Hi; by right). f_equal.
  destruct (Hf k) as (k' & Hk' & En & ->); [apply Hi; by left|].
  rewrite (find_ext cols k' k); [|apply Ha; [done|apply Hi; by left|done]|done]. rewrite (first_named_found _ _ _ Hn). by rewrite Hd.
Qed.

(** *** What a sort enumerates *)
Definition eff_limit (l : Z) : Z := if l <? 0 then INT_MAX else l.

Lemma eff_limit_range l : in_i32 l -> 0 <= eff_limit l < 2 ^ 31.
Proof. unfold in_i32, eff_limit, INT_MAX. destruct (Z.ltb_spec l 0); lia. Qed.

Lemma row_copy x : RmRecord_copy (row x) = row x.
Proof.
  unfold RmRecord_copy, row. cbn [rec_data rec_size allocated_ fmap option_fmap option_map].
  by rewrite Nat2Z.id, take_ge.
Qed.

Lemma perm_rows l l' : l' ≡ₚ row <$> l -> exists k, l' = row <$> k /\ k ≡ₚ l.
Proof. intros Hp. apply Permutation_map_inv in Hp as (k & -> & Hk). exists k. by rewrite Hk. Qed.

Section laws.
Context {S E : Type} `{Enumerates S E} `{StdSort} (fuel : nat).

(** The sorted rows and the position in them. *)
Record position (e : t E) (l : list bytes) (k : Z) : Prop := {
  po_rows : exists sorted, records e = row <$> sorted /\ l = take (Z.to_nat (limit e)) sorted;
  po_used : used_tuple e = k;
  po_range : 0 <= k /\ 0 <= limit e < 2 ^ 31;
}.

Lemma position_end e l k : position e l k -> is_end e = bool_decide (drop (Z.to_nat k) l = []).
Proof.
  intros [(sorted & Hr & ->) <- [Hk Hlim]]. unfold is_end, u64.
  rewrite Hr, length_fmap.
  assert (Hd : drop (Z.to_nat (used_tuple e)) (take (Z.to_nat (limit e)) sorted) = [] <->
    limit e <= used_tuple e \/ Z.of_nat (length sorted) <= used_tuple e).
  { rewrite <- length_zero_iff_nil, length_drop, length_take. lia. }
  destruct (Z.leb_spec (limit e) (used_tuple e)); cbn [orb]; [by rewrite bool_decide_true by (apply Hd; lia)|].
  rewrite Z.mod_small by lia. destruct (Z.leb_spec (Z.of_nat (length sorted)) (used_tuple e));
    [rewrite bool_decide_true|rewrite bool_decide_false]; try done; rewrite Hd; lia.
Qed.

Lemma position_row e l k x r : position e l k -> drop (Z.to_nat k) l = x :: r -> Next e = Ok (Some (row x)).
Proof.
  intros Hp Hd. unfold Next. rewrite (position_end _ _ _ Hp), Hd, bool_decide_false by done.
  destruct Hp as [(sorted & Hr & ->) Hu _]. rewrite Hu, Hr, list_lookup_fmap.
  assert (Hx : take (Z.to_nat (limit e)) sorted !! Z.to_nat k = Some x)
    by (rewrite <- (Nat.add_0_r (Z.to_nat k)), <- lookup_drop, Hd; done).
  apply lookup_take_Some in Hx as [Hx _]. rewrite Hx. cbn. by rewrite row_copy.
Qed.

Lemma position_step e l k x r : position e l k -> drop (Z.to_nat k) l = x :: r ->
  position (nextTuple e) l (k + 1) /\ drop (Z.to_nat (k + 1)) l = r.
Proof.
  intros Hp Hd. assert (Hl : k < limit e).
  { pose proof (position_end _ _ _ Hp) as He. rewrite Hd, bool_decide_false in He by done.
    unfold is_end in He. apply orb_false_iff in He as [He _]. rewrite (po_used _ _ _ Hp) in He. lia. }
  destruct Hp as [(sorted & Hr & Hl') Hu [Hk Hlim]]. split; [split|].
  - by exists sorted.
  - cbn. rewrite Hu, i32_small; [done|]. unfold in_i32. lia.
  - cbn. lia.
  - replace (Z.to_nat (k + 1)) with (Z.to_nat k + 1)%nat by lia. by rewrite <- drop_drop, Hd.
Qed.

(** A new executor over one that enumerates [lp]. *)
Definition pending (s : S) (e : t E) (l : list bytes) : Prop :=
  records e = [] /\ used_tuple e = 0 /\ in_i32 (limit e) /\
  exists lp sorted, en_ready s (prev e) lp /\ l = take (Z.to_nat (eff_limit (limit e))) sorted /\
    match key_cols e with
    | [] => sorted = lp
    | _ => std_sort (compare_keys (cols_map e) (key_cols e)) (row <$> lp) = Ok (row <$> sorted)
    end.

#[export] Program Instance sort_enumerates : Enumerates S (t E) (H0 := sort fuel) := {
  en_ready := pending;
  en_at s e l r := exists k, position e l k /\ r = drop (Z.to_nat k) l;
  en_taken s e l r := exists k x, position e l k /\ x :: r = drop (Z.to_nat k) l;
}.
Next Obligation.
  intros s s' e l Hc (R & U & L & lp & sorted & Hr & ? & ?). split_and!; try done. exists lp, sorted.
  split_and!; try done. by eapply en_ready_calm.
Qed.
Next Obligation. done. Qed.
Next Obligation. done. Qed.
Next Obligation.
  intros s s' e e' l (R & U & L & lp & sorted & Hr & -> & Hs) Hb. cbn in Hb. unfold beginTuple in Hb.
  apply bind_inv in Hb as (s1 & [p rows] & Hd & Hb).
  destruct (all_rows_ok _ _ _ _ _ _ _ Hr Hd) as (Hc & -> & _). rewrite R in Hb. cbn [app] in Hb.
  apply bind_inv in Hb as (s2 & q & Hq & Hb). unfold lift in Hq. injection Hq as <- Hq.
  unfold mret, M_ret in Hb. injection Hb as <- <-. split; [done|]. exists 0. split; [|by rewrite drop_0].
  pose proof (eff_limit_range _ L). split; cbn; [|done|done]. exists sorted. split; [|done].
  destruct (key_cols e); [subst sorted|]; congruence.
Qed.
Next Obligation. intros s e l r (k & Hp & ->). cbn. f_equal. by apply position_end. Qed.
Next Obligation.
  intros s s' e e' l x r o (k & Hp & Hd) Hr. cbn in Hr.
  rewrite (lift_ok _ _ _ _ (position_row _ _ _ _ _ Hp (eq_sym Hd))) in Hr.
  unfold mret, M_ret in Hr. injection Hr as <- <- <-. split_and!; [apply calm_refl|done|]. by exists k, x.
Qed.
Next Obligation.
  intros s e l r (k & x & Hp & Hd). cbn. f_equal. rewrite (position_end _ _ _ Hp), <- Hd. by apply bool_decide_false.
Qed.
Next Obligation.
  intros s s' e e' l r (k & x & Hp & Hd) Hb. cbn in Hb. unfold mret, M_ret in Hb. injection Hb as <- <-.
  split; [apply calm_refl|]. destruct (position_step _ _ _ _ _ Hp (eq_sym Hd)) as [Hp' Hd']. by exists (k + 1).
Qed.
Next Obligation.
  intros s s' e e' Hb. cbn in Hb. unfold beginTuple in Hb. apply bind_inv in Hb as (s1 & [p rows] & Hd & Hb).
  apply bind_inv in Hb as (s2 & q & Hq & Hb). unfold mret, M_ret in Hb. injection Hb as <- <-. cbn.
  by eapply all_rows_cols.
Qed.
Next Obligation.
  intros s s' e e' o Hr. cbn in Hr. apply bind_inv in Hr as (s1 & a & _ & Hr). by injection Hr as <- <- <-.
Qed.
Next Obligation. intros s s' e e' Hr. cbn in Hr. by injection Hr as <- <-. Qed.

(** Made over a child that is ready with [lp], the executor is ready with the rows of [lp] in order. *)
Lemma sort_ready (s : S) (p : E) sel lim e lp :
  make (S:=S) p sel lim = Ok e -> in_i32 lim -> en_ready s p lp -> Forall (comparable (keys (cols_map e) sel)) lp ->
  exists sorted, sorted ≡ₚ lp /\ StronglySorted (fun x y => order (keys (cols_map e) sel) x y <= 0) sorted /\
    (sel = [] -> sorted = lp) /\ pending s e (take (Z.to_nat (eff_limit lim)) sorted).
Proof.
  intros Hm Hl Hr Hc. unfold make in Hm. destruct (key_map _ _ _) as [m|]; [|done]. cbn in Hm. injection Hm as <-.
  cbn [cols_map] in *. set (e := mk p m sel 0 [] lim) in *.
  destruct (std_sort_ok (fun r => exists x, r = row x /\ comparable (keys m sel) x) (compare_keys m sel)
    (fun a b => match rec_data a, rec_data b with Some x, Some y => order (keys m sel) x y <? 0 | _, _ => false end)
    (row <$> lp)) as (l' & Hs & Hp & Hsort).
  - apply Forall_fmap. eapply Forall_impl; [exact Hc|]. cbn. intros x Hx. by exists x.
  - intros a b (x & -> & Hx) (y & -> & Hy). by apply compare_keys_order.
  - destruct (order_weak (keys m sel)) as [W1 W2 W3]. split.
    + intros a (x & -> & Hx). by apply W1.
    + intros a b c (x & -> & Hx) (y & -> & Hy) (z & -> & Hz). by apply W2.
    + intros a b c (x & -> & Hx) (y & -> & Hy) (z & -> & Hz). by apply W3.
  - destruct (perm_rows _ _ Hp) as (srt & -> & Hp').
    assert (Hs' : StronglySorted (fun x y => order (keys m sel) x y <= 0) srt).
    { clear - Hsort. induction srt as [|x srt IH]; [constructor|]. rewrite fmap_cons in Hsort. apply StronglySorted_inv in Hsort as [Hs Hf].
      constructor; [by apply IH|]. apply Forall_fmap in Hf. eapply Forall_impl; [exact Hf|]. cbn. intros y Hy.
      apply Z.ltb_ge in Hy. pose proof (order_opp (keys m sel) x y). lia. }
    destruct sel as [|k0 sel'] eqn:Esel.
    + exists lp. split_and!; try done.
      { clear. induction lp; constructor; [done|]. apply Forall_true. intros y. cbn. lia. }
      split_and!; try done. exists lp, lp. by split_and!.
    + exists srt. split_and!; try done. split_and!; try done. exists lp, srt. by split_and!.
Qed.

(** C33: over a child that enumerates [lp], the sort executor enumerates the rows of [lp] in the
    order of the keys, ascending or descending, as many as the limit allows (all of them when it
    is negative); without keys it leaves them as they come.  The keys are columns of the child,
    found by table and name; those of one name have to be of one table ([same_name_keys]). *)
Theorem sorted_rows (s s' : S) (p : E) sel ks lim e e' lp fuel' rs :
  make (S:=S) p sel lim = Ok e -> asked (ex_cols p) sel ks -> names_apart sel ->
  in_i32 lim -> en_ready s p lp -> Forall (comparable ks) lp ->
  all_rows (H:=sort fuel) fuel' e s = (s', Ok (e', rs)) ->
  exists sorted, sorted ≡ₚ lp /\ StronglySorted (fun x y => order ks x y <= 0) sorted /\
    (sel = [] -> sorted = lp) /\ rs = row <$> take (Z.to_nat (eff_limit lim)) sorted.
Proof.
  intros Hm Hk Ha Hl Hr Hc Hrun. assert (Ek : keys (cols_map e) sel = ks).
  { pose proof Hm as Hm'. unfold make in Hm'. destruct (key_map _ _ _) as [m|] eqn:Em; [|done]. injection Hm' as <-.
    by eapply keys_asked. }
  rewrite <- Ek in Hc |- *. destruct (sort_ready s p sel lim e lp Hm Hl Hr Hc) as (sorted & Q1 & Q2 & Q3 & Hp).
  exists sorted. split_and!; [done..|]. refine (proj1 (proj2 (all_rows_ok fuel' s s' e e' _ _ _ Hrun))). exact Hp.
Qed.
End laws.
End Sort.

(** A sort with the promises of [std::sort], for the examples. *)
Module Insertion.

Fixpoint insert {A} (comp : A -> A -> res bool) (x : A) (l : list A) : res (list A) :=
  match l with
  | [] => Ok [x]
  | y :: l' =>
      b ← comp y x;
      if b : bool then l'' ← insert comp x l'; Ok (y :: l'') else Ok (x :: y :: l')
  end.
Fixpoint isort {A} (comp : A -> A -> res bool) (l : list A) : res (list A) :=
  match l with
  | [] => Ok []
  | x :: l' => l'' ← isort comp l'; insert comp x l''
  end.

Section laws.
Context {A : Type} (P : A -> Prop) (comp : A -> A -> res bool) (lt : A -> A -> bool).
Hypothesis comp_lt : forall a b, P a -> P b -> comp a b = Ok (lt a b).
Hypothesis weak : strict_weak P lt.
#[local] Abbreviation sorted := (StronglySorted (fun a b => lt b a = false)).

Lemma insert_sorted x l : P x -> Forall P l -> sorted l ->
  exists l', insert comp x l = Ok l' /\ l' ≡ₚ x :: l /\ sorted l'.
Proof.
  intros Hx. induction l as [|y l IH]; intros Hl Hs.
  { exists [x]. split_and!; [done|done|]. constructor; constructor. }
  apply Forall_cons in Hl as [Hy Hl]. apply StronglySorted_inv in Hs as [Hs Hf]. cbn [insert].
  rewrite comp_lt by done. cbn [mbind res_bind]. destruct (lt y x) eqn:E.
  - destruct (IH Hl Hs) as (l' & -> & Hp & Hs'). exists (y :: l'). split_and!; [done|rewrite Hp; constructor|].
    constructor; [done|]. rewrite Hp. constructor; [|done].
    destruct (lt x y) eqn:E'; [|done]. pose proof (sw_trans _ _ weak x y x Hx Hy Hx E' E). by rewrite (sw_irrefl _ _ weak) in H.
  - exists (x :: y :: l). split_and!; [done|done|]. constructor; [by constructor|]. constructor; [done|].
    apply Forall_forall. intros z Hz. rewrite Forall_forall in Hl, Hf. apply (sw_neg _ _ weak z y x); auto.
Qed.

Lemma isort_sorted l : Forall P l -> exists l', isort comp l = Ok l' /\ l' ≡ₚ l /\ sorted l'.
Proof.
  induction l as [|x l IH]; intros Hl.
  { exists []. split_and!; [done|done|constructor]. }
  apply Forall_cons in Hl as [Hx Hl]. destruct (IH Hl) as (l' & E & Hp & Hs). cbn [isort]. rewrite E. cbn [mbind res_bind].
  destruct (insert_sorted x l' Hx) as (l'' & -> & Hp' & Hs'); [by rewrite Hp|done|].
  exists l''. split_and!; [done|by rewrite Hp', Hp|done].
Qed.
End laws.

#[export] Instance insertion_sort : StdSort := {
  std_sort := @isort;
  std_sort_ok A P comp lt l Hl Hc Hw := isort_sorted P comp lt Hc Hw l Hl;
}.
End Insertion.

#[local] Existing Instance Insertion.insertion_sort.

(** Two rows with an [int] column, the greater first. *)
(** [order by t.a desc, t.b]. *)
Definition key_demo_cols : list ColMeta := [mkColMeta "t" "a" TYPE_INT 4 0 false; mkColMeta "t" "b" TYPE_INT 4 4 false].
Definition key_demo_sel : list TabCol := [mkTabCol "t" "a" FUNC_NULL "" true; mkTabCol "t" "b" FUNC_NULL "" false].
Definition key_demo_rows : list bytes := (fun p => le_encode 4 p.1 ++ le_encode 4 p.2) <$> [(1, 5); (2, 3); (2, 1); (3, 0)].
Lemma sorted_rows_witness :
  exists e e', Sort.make (S:=unit) (Rows.mk 8 key_demo_cols key_demo_rows 0) key_demo_sel 3 = Ok e /\
    all_rows (H:=Sort.sort 9) 9 e tt =
      (tt, Ok (e', row <$> ((fun p => le_encode 4 p.1 ++ le_encode 4 p.2) <$> [(3, 0); (2, 1); (2, 3)]))) /\
    exists sorted, sorted ≡ₚ key_demo_rows /\
      StronglySorted (fun x y => Sort.order (zip key_demo_cols [true; false]) x y <= 0) sorted.
Proof.
  eexists _, _. split; [reflexivity|]. split; [vm_compute; reflexivity|].
  assert (H : exists sorted, sorted ≡ₚ key_demo_rows /\
      StronglySorted (fun x y => Sort.order (zip key_demo_cols [true; false]) x y <= 0) sorted /\
      (key_demo_sel = [] -> sorted = key_demo_rows) /\
      row <$> ((fun p => le_encode 4 p.1 ++ le_encode 4 p.2) <$> [(3, 0); (2, 1); (2, 3)]) =
        row <$> take (Z.to_nat (Sort.eff_limit 3)) sorted);
    [|destruct H as (sorted & Hp & Hs & _); exists sorted; split; [exact Hp|exact Hs]].
  eapply (Sort.sorted_rows 9%nat tt tt (Rows.mk 8 key_demo_cols key_demo_rows 0) key_demo_sel
    (zip key_demo_cols [true; false]) 3 _ _ key_demo_rows 9%nat).
  - reflexivity.
  - constructor; [split; [|reflexivity]|constructor; [split; [|reflexivity]|constructor]].
    + exists [], [mkColMeta "t" "b" TYPE_INT 4 4 false]. split_and!; try reflexivity. constructor.
    + exists [mkColMeta "t" "a" TYPE_INT 4 0 false], []. split_and!; try reflexivity. apply Forall_cons; split; [right; discriminate|constructor].
  - intros k k' Hk Hk' _. unfold key_demo_sel in Hk, Hk'. set_unfold in Hk. set_unfold in Hk'. destruct_or?; subst; done.
  - done.
  - reflexivity.
  - repeat constructor; try done; cbn; lia.
  - vm_compute. reflexivity.
Defined.

(** Keys of the same name of two tables are one: the rows are ordered by the column of the
    last of them, so that [order by t.a, u.a] leaves the rows (2,0), (1,0) as they are. *)
Lemma same_name_keys :
  let int tab off := mkColMeta tab "a" TYPE_INT 4 off false in
  let key tab := mkTabCol tab "a" FUNC_NULL "" false in
  let two a b := le_encode 4 a ++ le_encode 4 b in
  exists e e', Sort.make (S:=unit) (Rows.mk 8 [int "t" 0; int "u" 4] [two 2 0; two 1 0] 0) [key "t"; key "u"] (-1) = Ok e /\
    all_rows (H:=Sort.sort 9) 9 e tt = (tt, Ok (e', row <$> [two 2 0; two 1 0])).
Proof. eexists _, _. split; [reflexivity|vm_compute; reflexivity]. Qed.
