(* ===== verification/Join.v ===== *)
(** * The join executor

    [execution/executor_nestedloop_join.h]: a block nested loop join.  Rows of the left child
    are read in blocks, and for each block the right child is run once. *)

From S2P Require Import Prelude Common RmDefs IxDefs SmMeta Values Filter Executor.

Module NestedLoopJoin.

Record t (L R : Type) := mk {
  left : L;
  right : R;
  len : Z;
  cols : list ColMeta;
  fed_conds : list Condition;
  isend : bool;
  buffer_size : Z;
  l_records : list RmRecord;
  buff : list RmRecord;
}.
Arguments mk {L R}.
Arguments left {L R}.
Arguments right {L R}.
Arguments len {L R}.
Arguments cols {L R}.
Arguments fed_conds {L R}.
Arguments isend {L R}.
Arguments buffer_size {L R}.
Arguments l_records {L R}.
Arguments buff {L R}.

Section ops.
Context {S L R : Type} `{AbstractExecutor S L} `{AbstractExecutor S R} (fuel : nat).

(** [max(64, int(4 * PAGE_SIZE / left->tupleLen()))]; a division by zero is not followed. *)
Definition block_size (left_len : Z) : res Z :=
  if left_len =? 0 then Throw Stuck else Ok (Z.max 64 (i32 (4 * PAGE_SIZE / left_len))).

(** [col.offset += left->tupleLen()]. *)
Definition shift_col (n : Z) (c : ColMeta) : ColMeta :=
  mkColMeta (cm_tab_name c) (cm_name c) (cm_type c) (cm_len c) (i32 (cm_offset c + n)) (cm_index c).

Definition make (l : L) (r : R) (conds : list Condition) : res (t L R) :=
  ln ← ex_tupleLen l;
  rn ← ex_tupleLen r;
  n ← block_size ln;
  Ok (mk l r (u64 (ln + rn)) (ex_cols l ++ (shift_col ln <$> ex_cols r)) conds false n [] []).

Definition set_left (l : L) (e : t L R) : t L R :=
  mk l (right e) (len e) (cols e) (fed_conds e) (isend e) (buffer_size e) (l_records e) (buff e).
Definition set_right (r : R) (e : t L R) : t L R :=
  mk (left e) r (len e) (cols e) (fed_conds e) (isend e) (buffer_size e) (l_records e) (buff e).
Definition set_block (b : list RmRecord) (e : t L R) : t L R :=
  mk (left e) (right e) (len e) (cols e) (fed_conds e) (isend e) (buffer_size e) b (buff e).
Definition set_buff (b : list RmRecord) (e : t L R) : t L R :=
  mk (left e) (right e) (len e) (cols e) (fed_conds e) (isend e) (buffer_size e) (l_records e) b.
Definition set_end (e : t L R) : t L R :=
  mk (left e) (right e) (len e) (cols e) (fed_conds e) true (buffer_size e) (l_records e) (buff e).

(** The loop that fills the block. *)
Fixpoint fill (n : nat) (l : L) (block : list RmRecord) : M S (L * list RmRecord) :=
  match n with
  | O => mret (l, block)
  | Datatypes.S n' =>
      b ← lift (ex_is_end l);
      if b : bool then mret (l, block) else
      '(l, o) ← ex_Next l;
      match o with
      | Some rec => l ← ex_nextTuple l; fill n' l (block ++ [rec])
      | None => throw Stuck
      end
  end.

Definition fill_block (e : t L R) : M S (t L R) :=
  match l_records e with
  | [] => '(l, block) ← fill (Z.to_nat (buffer_size e)) (left e) []; mret (set_block block (set_left l e))
  | _ :: _ => mret e
  end.

(** The bytes of two records in a row of [len] bytes: [memset] and two [memmove]s. *)
Definition combine (n : Z) (lrec rrec : RmRecord) : res bytes :=
  data ← copy (replicate (Z.to_nat n) 0) 0 (rec_data lrec) 0 (rec_size lrec);
  copy data (rec_size lrec) (rec_data rrec) 0 (rec_size rrec).
(** The loop over the block, for one row of the right child. *)
Fixpoint matches (e : t L R) (block : list RmRecord) (rrec : RmRecord) (buff : list RmRecord) : res (list RmRecord) :=
  match block with
  | [] => Ok buff
  | lrec :: block' =>
      data ← combine (len e) lrec rrec;
      let cur_rec := RmRecord_new (i32 (len e)) data in
      b ← Filter.filter (fed_conds e) (cols e) cur_rec;
      matches e block' rrec (if b : bool then buff ++ [cur_rec] else buff)
  end.

(** The loop over the right child; [true] when it returned because of a match. *)
Fixpoint scan_right (fuel : nat) (e : t L R) : M S (t L R * bool) :=
  b ← lift (ex_is_end (right e));
  if b : bool then mret (e, false) else
  match fuel with
  | O => throw OutOfFuel
  | Datatypes.S fuel' =>
      '(r, o) ← ex_Next (right e);
      let e := set_right r e in
      match o with
      | None => throw Stuck
      | Some rrec =>
          buff' ← lift (matches e (l_records e) rrec (buff e));
          let e := set_buff buff' e in
          match buff' with
          | [] => r ← ex_nextTuple (right e); scan_right fuel' (set_right r e)
          | _ :: _ => mret (e, true)
          end
      end
  end.

(** The loop over the blocks. *)
Fixpoint scan_blocks (n : nat) (e : t L R) : M S (t L R) :=
  b ← lift (ex_is_end (left e));
  if b && bool_decide (l_records e = []) then mret (set_end e) else
  match n with
  | O => throw OutOfFuel
  | Datatypes.S n' =>
      e ← fill_block e;
      '(e, found) ← scan_right fuel e;
      if found : bool then mret e else
      r ← ex_beginTuple (right e);
      scan_blocks n' (set_right r (set_block [] e))
  end.

Definition make_buff (e : t L R) : M S (t L R) :=
  if isend e then mret e else scan_blocks fuel e.

Definition beginTuple (e : t L R) : M S (t L R) :=
  l ← ex_beginTuple (left e);
  r ← ex_beginTuple (right e);
  make_buff (set_buff [] (set_block [] (set_right r (set_left l e)))).

Definition nextTuple (e : t L R) : M S (t L R) :=
  if isend e || negb (bool_decide (buff e = [])) then mret e else
  b ← lift (ex_is_end (right e));
  if negb b then r ← ex_nextTuple (right e); make_buff (set_right r e) else make_buff e.

Definition Next (e : t L R) : res (t L R * option RmRecord) :=
  match buff e with
  | [] => Throw (InternalError "NestedLoopJoinExecutor::Next buff is empty")
  | rec :: rest => Ok (set_buff rest e, Some rec)
  end.

#[export] Instance join : AbstractExecutor S (t L R) := {
  ex_tupleLen e := Ok (len e);
  ex_cols := cols;
  ex_beginTuple := beginTuple;
  ex_nextTuple := nextTuple;
  ex_is_end e := Ok (isend e);
  ex_Next e := lift (Next e);
}.
End ops.

(** ** What a join enumerates *)

Section spec.
Context (conds : list Condition) (cs : list ColMeta).

#[local] Abbreviation keeps_row := (keeps_row conds cs).

(** The pairs of the rows of a block with one row of the right child. *)
Definition pairs (block : list bytes) (y : bytes) : list bytes := filter keeps_row ((fun x => x ++ y) <$> block).

(** A join by blocks of [n] rows, when the right child gives [again rs] after it gave [rs];
    [fuel] is as the rows on the left. *)
Fixpoint join_from (fuel n : nat) (again : list bytes -> list bytes) (ls rs : list bytes) : list bytes :=
  match fuel, ls with
  | Datatypes.S fuel', _ :: _ => (rs ≫= pairs (take n ls)) ++ join_from fuel' n again (drop n ls) (again rs)
  | _, _ => []
  end.
Definition join_rows (n : nat) (again : list bytes -> list bytes) (ls rs : list bytes) : list bytes :=
  join_from (length ls) n again ls rs.

(** The join as the relational algebra has it. *)
Definition product (ls rs : list bytes) : list bytes := x ← ls; (fun y => x ++ y) <$> rs.
Definition theta_join (ls rs : list bytes) : list bytes := filter keeps_row (product ls rs).

Lemma join_from_fuel n again : (0 < n)%nat -> forall fuel fuel' ls rs, (length ls <= fuel)%nat -> (length ls <= fuel')%nat ->
  join_from fuel n again ls rs = join_from fuel' n again ls rs.
Proof.
  intros Hn. induction fuel as [|fuel IH]; intros fuel' [|x ls] rs H1 H2; try (simpl in H1; lia); try by destruct fuel'.
  destruct fuel' as [|fuel']; [simpl in H2; lia|]. cbn [join_from]. f_equal.
  apply IH; rewrite length_drop; simpl in *; lia.
Qed.

Lemma join_rows_cons n again ls rs : (0 < n)%nat -> ls <> [] ->
  join_rows n again ls rs = (rs ≫= pairs (take n ls)) ++ join_rows n again (drop n ls) (again rs).
Proof.
  intros Hn Hl. destruct ls as [|x ls]; [done|]. unfold join_rows at 1. cbn [length join_from]. f_equal.
  apply join_from_fuel; [done| |done]. rewrite length_drop. simpl. lia.
Qed.

(** All pairs are made when the right child gives its rows each time. *)
Lemma pairs_cons x b y : pairs (x :: b) y = filter keeps_row [x ++ y] ++ pairs b y.
Proof. unfold pairs. rewrite fmap_cons, !filter_cons, filter_nil. by case_decide. Qed.

Lemma block_product b rs : (rs ≫= pairs b) ≡ₚ theta_join b rs.
Proof.
  unfold theta_join, product. induction b as [|x b IH].
  - simpl. induction rs as [|y rs IHr]; [done|]. rewrite bind_cons, IHr. done.
  - rewrite bind_cons, filter_app, <- IH. clear IH. induction rs as [|y rs IH]; [done|].
    rewrite !bind_cons, fmap_cons, IH, pairs_cons, !filter_cons, filter_nil. case_decide; simpl; [apply perm_skip|]; solve_Permutation.
Qed.

Lemma join_rows_product n ls rs : (0 < n)%nat -> join_rows n (fun l => l) ls rs ≡ₚ theta_join ls rs.
Proof.
  intros Hn. remember (length ls) as k eqn:Hk. revert ls Hk. induction (lt_wf k) as [k _ IH]. intros ls ->.
  destruct (decide (ls = [])) as [->|Hne]; [done|]. rewrite join_rows_cons by done.
  rewrite (IH (length (drop n ls))); [|rewrite length_drop; destruct ls; [done|simpl; lia]|done].
  rewrite block_product. unfold theta_join. rewrite <- filter_app. unfold product. rewrite <- bind_app, take_drop. done.
Qed.

Lemma join_from_none n k : forall l, join_from k n (fun _ => []) l [] = [].
Proof. induction k as [|k IH]; intros l; [done|]. destruct l; [done|]. cbn [join_from]. by rewrite IH. Qed.

(** Only the first block is joined when the right child gives nothing the second time. *)
Lemma join_rows_once n ls rs : (0 < n)%nat -> join_rows n (fun _ => []) ls rs = rs ≫= pairs (take n ls).
Proof.
  intros Hn. destruct (decide (ls = [])) as [->|Hne].
  { unfold join_rows. rewrite take_nil. simpl. induction rs as [|y rs IH]; [done|]. by rewrite bind_cons. }
  rewrite join_rows_cons by done. rewrite <- (app_nil_r (_ ≫= _)) at 2. f_equal.
  apply join_from_none.
Qed.
Lemma theta_join_length ls rs : (length (theta_join ls rs) <= length ls * length rs)%nat.
Proof.
  unfold theta_join, product. etrans; [apply length_filter|]. induction ls as [|x ls IH]; [done|].
  rewrite bind_cons, length_app, length_fmap. simpl. lia.
Qed.

Lemma theta_join_perm ls rs rs' : rs ≡ₚ rs' -> theta_join ls rs ≡ₚ theta_join ls rs'.
Proof.
  intros Hp. unfold theta_join, product. induction ls as [|x ls IH]; [done|]. rewrite !bind_cons, !filter_app, IH.
  apply Permutation_app_tail. by rewrite Hp.
Qed.

Lemma theta_join_width wl wr ls rs : Forall (fun x => length x = wl) ls -> Forall (fun x => length x = wr) rs ->
  Forall (fun x => length x = (wl + wr)%nat) (theta_join ls rs).
Proof.
  intros Hl Hr. apply Forall_forall. intros z Hz. apply list_elem_of_filter in Hz as [_ Hz].
  apply list_elem_of_bind in Hz as (x & Hz & Hx). apply list_elem_of_fmap in Hz as (y & -> & Hy).
  rewrite Forall_forall in Hl, Hr. rewrite length_app. by rewrite (Hl x Hx), (Hr y Hy).
Qed.
End spec.

Section laws.
Context {S L R : Type} `{EL : Enumerates S L} `{ER : !AbstractExecutor S R} `{NR : !Enumerates S R} `{RR : !Repeats S R}.
Implicit Types (s : S) (e : t L R).

(** Rows of [wl] and of [wr] bytes fill a row of the join. *)
Record shape e (wl wr : nat) : Prop := {
  sh_len : len e = Z.of_nat (wl + wr);
  sh_small : len e < 2 ^ 31;
  sh_block : 0 < buffer_size e;
}.
Definition block_rows e : nat := Z.to_nat (buffer_size e).
(** Rows of [w] bytes, at most [bound] of them. *)
Context (bound : nat).
Definition Wide (w : nat) (l : list bytes) : Prop := Forall (fun x => length x = w) l /\ (length l <= bound)%nat.

Lemma Wide_nil w : Wide w [].
Proof. split; [constructor|simpl; lia]. Qed.
Lemma Wide_cons w x l : Wide w (x :: l) -> length x = w /\ Wide w l.
Proof. intros [Hf Hl]. apply Forall_cons in Hf as [Hx Hf]. split; [done|]. split; [done|simpl in Hl; lia]. Qed.
Lemma Wide_sublist w l l' : l' `sublist_of` l -> Wide w l -> Wide w l'.
Proof.
  intros Hs [Hf Hl]. split; [|pose proof (sublist_length _ _ Hs); lia].
  rewrite Forall_forall in *. intros x Hx. apply Hf. by eapply elem_of_sublist.
Qed.
Lemma Wide_take w n l : Wide w l -> Wide w (take n l).
Proof. apply Wide_sublist, sublist_take. Qed.
Lemma Wide_drop w n l : Wide w l -> Wide w (drop n l).
Proof. apply Wide_sublist, sublist_drop. Qed.
#[local] Abbreviation pairs_of e := (pairs (fed_conds e) (cols e)).
#[local] Abbreviation joined e := (join_rows (fed_conds e) (cols e) (block_rows e) (en_again (E:=R))).

(** The parts that do not change. *)
Record alike e e' : Prop := {
  al_len : len e' = len e; al_cols : cols e' = cols e; al_conds : fed_conds e' = fed_conds e;
  al_size : buffer_size e' = buffer_size e;
}.

Lemma same_join e : alike e e.
Proof. done. Qed.
Lemma same_join_trans e1 e2 e3 : alike e1 e2 -> alike e2 e3 -> alike e1 e3.
Proof. intros [] []. split; congruence. Qed.

Lemma alike_shape e e' wl wr : alike e e' -> shape e wl wr -> shape e' wl wr.
Proof. intros [A B C D] [X Y Z]. split; congruence. Qed.

Lemma combine_rows n x y : n = Z.of_nat (length x + length y) -> combine n (row x) (row y) = Ok (x ++ y).
Proof.
  intros ->. unfold combine, row. cbn [rec_data rec_size].
  rewrite copy_ok by (try lia; len). cbn [mbind res_bind].
  rewrite copy_ok by (try lia; len). f_equal. change (Z.to_nat 0) with 0%nat. rewrite !Nat2Z.id, !mem_read_full.
  change (length x) with (0 + length x)%nat at 2. rewrite mem_write_app by len.
  unfold mem_write. rewrite (take_ge (x ++ y)) by len. rewrite drop_ge by len. by rewrite app_nil_r.
Qed.

Lemma matches_ok e wl wr y : shape e wl wr -> length y = wr -> forall block buf buf', Wide wl block ->
  matches e (row <$> block) (row y) buf = Ok buf' -> buf' = buf ++ (row <$> pairs_of e block y).
Proof.
  intros [Hl Hs _] Hy. induction block as [|x block IH]; intros buf buf' Hb Hm; simpl in Hm.
  - injection Hm as <-. by rewrite app_nil_r.
  - apply Wide_cons in Hb as [Hx Hb]. rewrite combine_rows in Hm by (rewrite Hl; lia). cbn [mbind res_bind] in Hm.
    assert (Hrow : RmRecord_new (i32 (len e)) (x ++ y) = row (x ++ y)).
    { unfold RmRecord_new, row. rewrite i32_small by (unfold in_i32; lia).
      assert (E : Z.of_nat (length (x ++ y)) = len e) by (rewrite length_app; lia).
      rewrite E, take_ge by lia. done. }
    rewrite Hrow, pairs_cons, fmap_app, filter_cons, filter_nil in *.
    destruct (Filter.filter (fed_conds e) (cols e) (row (x ++ y))) as [b|] eqn:Ef; [|done]. cbn [mbind res_bind] in Hm.
    apply IH in Hm; [|done]. subst buf'. destruct b; case_decide as Hk; unfold keeps_row in Hk; try congruence.
    { by rewrite <- app_assoc. } { done. }
Qed.

Lemma fill_ok n : forall s s' (l l' : L) ls lr block block',
  en_at s l ls lr -> fill n l block s = (s', Ok (l', block')) ->
  calm s s' /\ en_at s' l' ls (drop n lr) /\ block' = block ++ (row <$> take n lr).
Proof.
  induction n as [|n IH]; intros s s' l l' ls lr block block' Ha Hf; cbn [fill] in Hf.
  { unfold mret, M_ret in Hf. injection Hf as <- <- <-. rewrite drop_0, take_0, app_nil_r. by split_and!; [apply calm_refl| |]. }
  rewrite (lift_ok _ _ _ _ (en_end _ _ _ _ Ha)) in Hf. destruct lr as [|x lr].
  { rewrite bool_decide_true in Hf by done. unfold mret, M_ret in Hf. injection Hf as <- <- <-.
    rewrite drop_nil, take_nil, app_nil_r. by split_and!; [apply calm_refl| |]. }
  rewrite bool_decide_false in Hf by done. apply bind_inv in Hf as (s1 & [l1 o] & Hn & Hf).
  destruct (en_next_row _ _ _ _ _ _ _ _ Ha Hn) as (C1 & -> & Ht).
  apply bind_inv in Hf as (s2 & l2 & Hx & Hf). destruct (en_advance _ _ _ _ _ _ Ht Hx) as (C2 & Ha2).
  destruct (IH _ _ _ _ _ _ _ _ Ha2 Hf) as (C3 & Ha3 & ->).
  split_and!; [eapply calm_trans; [exact C1|by eapply calm_trans]|done|]. by rewrite <- app_assoc.
Qed.

(** The right child in its pass, with a block that is not empty. *)
Lemma scan_right_ok fuel wl wr block : Wide wl block -> forall s s' e e' b rs rr,
  shape e wl wr -> l_records e = row <$> block -> buff e = [] -> Wide wr rr ->
  en_at s (right e) rs rr -> scan_right fuel e s = (s', Ok (e', b)) ->
  calm s s' /\ alike e e' /\ left e' = left e /\ isend e' = isend e /\ l_records e' = l_records e /\
  if b then exists bx rr', bx <> [] /\ buff e' = row <$> bx /\ Wide wr rr' /\ en_taken s' (right e') rs rr' /\
              rr ≫= pairs_of e block = bx ++ (rr' ≫= pairs_of e block)
  else buff e' = [] /\ en_at s' (right e') rs [] /\ rr ≫= pairs_of e block = [].
Proof.
  intros Hblock. induction fuel as [|fuel IH]; intros s s' e e' b rs rr Hsh Hrec Hbuf Hw Ha Hr; cbn [scan_right] in Hr;
    rewrite (lift_ok _ _ _ _ (en_end _ _ _ _ Ha)) in Hr; (destruct rr as [|y rr];
    [rewrite bool_decide_true in Hr by done; unfold mret, M_ret in Hr; injection Hr as <- <- <-;
     split_and!; try done; apply calm_refl|rewrite bool_decide_false in Hr by done]); [done|].
  apply Wide_cons in Hw as [Hy Hw]. apply bind_inv in Hr as (s1 & [r1 o] & Hn & Hr).
  destruct (en_next_row _ _ _ _ _ _ _ _ Ha Hn) as (C1 & -> & Ht).
  apply bind_inv in Hr as (s2 & buf & Hm & Hr). unfold lift in Hm. injection Hm as <- Hm.
  cbn [l_records buff set_right] in Hm. rewrite Hrec, Hbuf in Hm.
  assert (Hsh1 : shape (set_right r1 e) wl wr) by (by eapply (alike_shape e)).
  pose proof (matches_ok _ _ _ _ Hsh1 Hy _ _ _ Hblock Hm) as Eb. cbn [app set_right fed_conds cols] in Eb.
  rewrite bind_cons. destruct (pairs_of e block y) as [|z bx] eqn:Ep.
  - subst buf. cbn [fmap list_fmap] in Hr. apply bind_inv in Hr as (s3 & r3 & Hx & Hr). cbn [right set_buff set_right] in Hx.
    destruct (en_advance _ _ _ _ _ _ Ht Hx) as (C2 & Ha2).
    destruct (IH _ _ (set_right r3 (set_buff [] (set_right r1 e))) _ _ _ _ ltac:(by eapply (alike_shape e)) Hrec eq_refl Hw Ha2 Hr) as (C3 & Al & Q).
    split; [eapply calm_trans; [exact C1|by eapply calm_trans]|]. split; [eapply same_join_trans; [|exact Al]; done|exact Q].
  - subst buf. cbn [fmap list_fmap] in Hr. unfold mret, M_ret in Hr. injection Hr as <- <- <-.
    split_and!; try done. exists (z :: bx), rr. split_and!; done.
Qed.

(** In a pass: a row of the right child was taken, [buff] has matches of it. *)
Definition mid s e (r : list bytes) : Prop :=
  exists wl wr ls lr rs rr block bx,
    shape e wl wr /\ isend e = false /\ l_records e = row <$> block /\ block <> [] /\ buff e = row <$> bx /\
    Wide wl block /\ Wide wl lr /\ Wide wr rs /\ Wide wr rr /\
    en_at s (left e) ls lr /\ en_taken s (right e) rs rr /\
    r = bx ++ (rr ≫= pairs_of e block) ++ joined e lr (en_again rs).
(** After the end. *)
Definition over s e (r : list bytes) : Prop :=
  isend e = true /\ r = [] /\ exists ls lr rs rr, en_at s (left e) ls lr /\ en_at s (right e) rs rr.
Definition join_at s e (r : list bytes) : Prop := over s e r \/ (mid s e r /\ buff e <> []).

(** What is still to come between two rows of the right child; the block is empty before
    a pass over it. *)
Definition rest e (block lr rs rr : list bytes) : list bytes :=
  match block with
  | [] => joined e lr rs
  | _ => (rr ≫= pairs_of e block) ++ joined e lr (en_again rs)
  end.

Lemma Wide_again wr rs : Wide wr rs -> Wide wr (en_again (E:=R) rs).
Proof.
  apply Wide_sublist, en_again_sub.
Qed.

Lemma rest_alike e e' block lr rs rr : alike e e' -> rest e' block lr rs rr = rest e block lr rs rr.
Proof. intros [A B C D]. unfold rest, block_rows. by rewrite B, C, D. Qed.

Lemma fill_block_ok wl wr s s' e e1 ls lr block :
  shape e wl wr -> l_records e = row <$> block -> Wide wl block -> Wide wl lr -> en_at s (left e) ls lr ->
  ~ (lr = [] /\ block = []) -> fill_block e s = (s', Ok e1) ->
  exists block1 lr1, calm s s' /\ alike e e1 /\ isend e1 = isend e /\ buff e1 = buff e /\ right e1 = right e /\
    l_records e1 = row <$> block1 /\ block1 <> [] /\ Wide wl block1 /\ Wide wl lr1 /\ en_at s' (left e1) ls lr1 /\
    (length lr1 + length block1 = length lr + length block)%nat /\
    forall rs rr, (block = [] -> rr = rs) -> rest e block lr rs rr = (rr ≫= pairs_of e block1) ++ joined e lr1 (en_again rs).
Proof.
  intros Hsh Hrec Wb Wl Hl Hne Hf. unfold fill_block in Hf. rewrite Hrec in Hf. destruct block as [|x block]; cbn [fmap list_fmap] in Hf.
  - apply bind_inv in Hf as (s2 & [l b] & Hf & Hx). unfold mret, M_ret in Hx. injection Hx as <- <-.
    destruct (fill_ok _ _ _ _ _ _ _ _ _ Hl Hf) as (Hc & Ha & ->). assert (lr <> []) as Hlr by naive_solver.
    pose proof (sh_block _ _ _ Hsh) as Hpos. exists (take (block_rows e) lr), (drop (block_rows e) lr).
    split_and!; try done; [destruct lr; [done|]; unfold block_rows; by destruct (Z.to_nat (buffer_size e)) eqn:E; [lia|]|by apply Wide_take|by apply Wide_drop|
      rewrite length_drop, length_take; simpl; lia|].
    intros rs rr ->; [|done]. apply join_rows_cons; [unfold block_rows; lia|done].
  - unfold mret, M_ret in Hf. injection Hf as <- <-. exists (x :: block), lr. split_and!; try done. apply calm_refl.
Qed.

Lemma scan_blocks_ok fuel wl wr n : forall s s' e e' ls lr rs rr block,
  shape e wl wr -> isend e = false -> buff e = [] -> l_records e = row <$> block ->
  Wide wl block -> Wide wl lr -> Wide wr rs -> Wide wr rr ->
  en_at s (left e) ls lr -> en_at s (right e) rs rr -> (block = [] -> rr = rs) ->
  scan_blocks fuel n e s = (s', Ok e') ->
  calm s s' /\ alike e e' /\ join_at s' e' (rest e block lr rs rr).
Proof.
  induction n as [|n IH]; intros s s' e e' ls lr rs rr block Hsh Hend Hbuf Hrec Wb Wl Wr Wrr Hl Hr Hemp Hrun;
    cbn [scan_blocks] in Hrun; rewrite (lift_ok _ _ _ _ (en_end _ _ _ _ Hl)) in Hrun;
    (destruct (decide (lr = [] /\ block = [])) as [[-> ->]|Hne];
    [rewrite Hrec in Hrun; cbn in Hrun; injection Hrun as <- <-;
     split_and!; [apply calm_refl|done|left; split_and!; [done|done|by exists ls, [], rs, rr]]|]);
    (replace (bool_decide (lr = []) && bool_decide (l_records e = [])) with false in Hrun
      by (symmetry; apply andb_false_iff; rewrite Hrec; destruct lr, block; naive_solver)); [done|].
  apply bind_inv in Hrun as (s1 & e1 & Hf & Hrun).
  destruct (fill_block_ok wl wr _ _ _ _ _ _ _ Hsh Hrec Wb Wl Hl Hne Hf)
    as (block1 & lr1 & C1 & Al1 & He1 & Hb1 & Hri & Hr1 & Hn1 & Wb1 & Wl1 & Hl1 & _ & Hrest).
  rewrite (Hrest _ _ Hemp). rewrite Hend in He1. rewrite Hbuf in Hb1.
  assert (Ha1 : en_at s1 (right e1) rs rr) by (rewrite Hri; by eapply en_at_calm).
  apply bind_inv in Hrun as (s2 & [e2 found] & Hsc & Hrun).
  destruct (scan_right_ok fuel wl wr block1 Wb1 _ _ _ _ _ _ _ (alike_shape _ _ _ _ Al1 Hsh) Hr1 Hb1 Wrr Ha1 Hsc)
    as (C2 & Al2 & El & Ee & Er & Hres).
  pose proof (same_join_trans _ _ _ Al1 Al2) as Al. pose proof Al1 as [_ Ac1 Af1 As1]. pose proof Al as [_ Ac Af As].
  destruct found.
  - destruct Hres as (bx & rr' & Hbx & Hb2 & Wrr' & Ht & Epairs). unfold mret, M_ret in Hrun. injection Hrun as <- <-.
    split; [by eapply calm_trans|]. split; [done|]. right. split; [|rewrite Hb2; by destruct bx].
    exists wl, wr, ls, lr1, rs, rr', block1, bx. rewrite El, Ee, Er. split_and!; try done.
    + by eapply alike_shape.
    + by eapply en_at_calm.
    + rewrite Ac1, Af1 in Epairs. unfold block_rows. rewrite Ac, Af, As, Epairs. by rewrite <- app_assoc.
  - destruct Hres as (Hb2 & Ha2 & Epairs). apply bind_inv in Hrun as (s3 & r3 & Hbeg & Hrun).
    destruct (en_begin _ _ _ _ _ (en_restart _ _ _ Ha2) Hbeg) as (C3 & Ha3).
    assert (Hsh3 : shape (set_right r3 (set_block [] e2)) wl wr)
      by (apply (alike_shape e); [eapply same_join_trans; [exact Al|by split]|done]).
    assert (Hend3 : isend (set_right r3 (set_block [] e2)) = false) by (cbn; congruence).
    assert (Hl3 : en_at s3 (left (set_right r3 (set_block [] e2))) ls lr1)
      by (cbn; rewrite El; eapply en_at_calm; [exact C3|by eapply en_at_calm]).
    destruct (IH _ _ _ _ ls lr1 (en_again rs) (en_again rs) [] Hsh3 Hend3 Hb2 eq_refl (Wide_nil _) Wl1
      (Wide_again _ _ Wr) (Wide_again _ _ Wr) Hl3 Ha3 (fun _ => eq_refl) Hrun) as (C4 & Al3 & Hj).
    split; [eapply calm_trans; [exact C1|]; eapply calm_trans; [exact C2|by eapply calm_trans]|].
    split; [destruct Al3 as [D1 D2 D3 D4], Al as [G1 G2 G3 G4]; cbn in D1, D2, D3, D4; split; congruence|].
    rewrite Ac1, Af1 in Epairs. rewrite Epairs. cbn [app]. cbn [rest] in Hj. unfold block_rows in *.
    cbn [set_right set_block fed_conds cols buffer_size] in Hj. by rewrite Ac, Af, As in Hj.
Qed.

(** *** The columns never change *)
Lemma scan_right_cols fuel : forall s s' e e' b, scan_right fuel e s = (s', Ok (e', b)) -> cols e' = cols e.
Proof.
  induction fuel as [|fuel IH]; intros s s' e e' b Hr; cbn [scan_right] in Hr;
    apply bind_inv in Hr as (s1 & [] & _ & Hr); try done; try by injection Hr as <- <- <-.
  apply bind_inv in Hr as (s2 & [r1 [rec|]] & _ & Hr); [|done]. apply bind_inv in Hr as (s3 & buf & _ & Hr).
  destruct buf; [|by injection Hr as <- <- <-]. apply bind_inv in Hr as (s4 & r2 & _ & Hr). by apply IH in Hr.
Qed.

Lemma scan_blocks_cols fuel n : forall s s' e e', scan_blocks fuel n e s = (s', Ok e') -> cols e' = cols e.
Proof.
  induction n as [|n IH]; intros s s' e e' Hr; cbn [scan_blocks] in Hr; apply bind_inv in Hr as (s1 & b & _ & Hr);
    (destruct (b && _); [by injection Hr as <- <-|]); [done|].
  apply bind_inv in Hr as (s2 & e2 & Hf & Hr). assert (E2 : cols e2 = cols e).
  { unfold fill_block in Hf. destruct (l_records e); [|by injection Hf as <- <-]. apply bind_inv in Hf as (s3 & [l bl] & _ & Hf).
    by injection Hf as <- <-. }
  apply bind_inv in Hr as (s3 & [e3 []] & Hs & Hr); apply scan_right_cols in Hs; [injection Hr as <- <-; congruence|].
  apply bind_inv in Hr as (s4 & r4 & _ & Hr). apply IH in Hr. cbn in Hr. congruence.
Qed.

Lemma make_buff_cols fuel s s' e e' : make_buff fuel e s = (s', Ok e') -> cols e' = cols e.
Proof. unfold make_buff. destruct (isend e); [by intros [= <- <-]|]. apply scan_blocks_cols. Qed.

(** *** The instance *)
Definition join_ready s e (l : list bytes) : Prop :=
  exists ls rs, en_ready s (left e) ls /\ en_ready s (right e) rs /\
    if isend e then l = []
    else exists wl wr, shape e wl wr /\ Wide wl ls /\ Wide wr rs /\ l = joined e ls rs.

Lemma begin_ok fuel s s' e e' l : join_ready s e l -> beginTuple fuel e s = (s', Ok e') ->
  calm s s' /\ join_at s' e' l.
Proof.
  intros (ls & rs & Hl & Hr & Hrdy) Hb. unfold beginTuple in Hb.
  apply bind_inv in Hb as (s1 & l1 & B1 & Hb). destruct (en_begin _ _ _ _ _ Hl B1) as (C1 & A1).
  apply bind_inv in Hb as (s2 & r1 & B2 & Hb).
  destruct (en_begin _ _ _ _ _ (en_ready_calm _ _ _ _ C1 Hr) B2) as (C2 & A2).
  apply (en_at_calm _ _ _ _ _ C2) in A1. unfold make_buff in Hb.
  set (e0 := set_buff [] _) in Hb. change (isend e0) with (isend e) in Hb.
  destruct (isend e) eqn:E.
  - injection Hb as <- <-. split; [by eapply calm_trans|]. left. split_and!; [done|done|]. by exists ls, ls, rs, rs.
  - destruct Hrdy as (wl & wr & Hsh & Wl & Wr & ->).
    assert (Hsh0 : shape e0 wl wr) by (by apply (alike_shape e)).
    destruct (scan_blocks_ok fuel wl wr fuel _ _ e0 e' ls ls rs rs [] Hsh0 E eq_refl eq_refl (Wide_nil _) Wl Wr Wr A1 A2
      (fun _ => eq_refl) Hb) as (C3 & _ & Hj).
    split; [eapply calm_trans; [exact C1|by eapply calm_trans]|exact Hj].
Qed.

Lemma advance_ok fuel s s' e e' r : mid s e r -> nextTuple fuel e s = (s', Ok e') -> calm s s' /\ join_at s' e' r.
Proof.
  intros Hm Hn. pose proof Hm as (wl & wr & ls & lr & rs & rr & block & bx & Hsh & He & Hrec & Hne & Hbuf & Wb & Wl & Wr & Wrr & Al & Tr & ->).
  unfold nextTuple in Hn. rewrite He, Hbuf in Hn. cbn [orb] in Hn. destruct bx as [|x bx].
  - cbn [fmap list_fmap] in Hn. rewrite bool_decide_true in Hn by done. cbn [negb] in Hn.
    rewrite (lift_ok _ _ _ _ (en_taken_end _ _ _ _ Tr)) in Hn. cbn [negb] in Hn.
    apply bind_inv in Hn as (s1 & r1 & Hx & Hn). destruct (en_advance _ _ _ _ _ _ Tr Hx) as (C1 & Ar).
    unfold make_buff in Hn. change (isend (set_right r1 e)) with (isend e) in Hn. rewrite He in Hn.
    assert (Hsh1 : shape (set_right r1 e) wl wr) by (by apply (alike_shape e)).
    destruct (scan_blocks_ok fuel wl wr fuel _ _ (set_right r1 e) e' ls lr rs rr block Hsh1 He Hbuf Hrec Wb Wl Wr Wrr
      (en_at_calm _ _ _ _ _ C1 Al) Ar ltac:(done) Hn) as (C2 & _ & Hj).
    split; [by eapply calm_trans|]. cbn [app]. destruct block; [done|exact Hj].
  - rewrite bool_decide_false in Hn by done. cbn [negb] in Hn. injection Hn as <- <-.
    split; [apply calm_refl|]. right. split; [done|by rewrite Hbuf].
Qed.

Lemma mid_calm s s' e r : calm s s' -> mid s e r -> mid s' e r.
Proof.
  intros Hc (wl & wr & ls & lr & rs & rr & block & bx & Hsh & He & Hrec & Hne & Hbuf & Wb & Wl & Wr & Wrr & Al & Tr & Er).
  exists wl, wr, ls, lr, rs, rr, block, bx. split_and!; try done; [by eapply en_at_calm|by eapply en_taken_calm].
Qed.

Lemma over_calm s s' e r : calm s s' -> over s e r -> over s' e r.
Proof.
  intros Hc (He & Hr & ls & lr & rs & rr & Al & Ar). split_and!; [done|done|].
  exists ls, lr, rs, rr. split; by eapply en_at_calm.
Qed.

Lemma mid_row s e x r : mid s e (x :: r) -> buff e <> [] ->
  exists e', Next e = Ok (e', Some (row x)) /\ mid s e' r.
Proof.
  intros (wl & wr & ls & lr & rs & rr & block & bx & Hsh & He & Hrec & Hne & Hbuf & Wb & Wl & Wr & Wrr & Al & Tr & Er) Hb.
  rewrite Hbuf in Hb. destruct bx as [|y bx]; [done|]. cbn [app] in Er. injection Er as <- ->.
  unfold Next. rewrite Hbuf. cbn [fmap list_fmap]. eexists. split; [done|].
  exists wl, wr, ls, lr, rs, rr, block, bx. split_and!; try done. by apply (alike_shape e).
Qed.

#[export] Program Instance join_enumerates (fuel : nat) : Enumerates S (t L R) (H0 := join fuel) := {
  en_ready := join_ready;
  en_at s e _ r := join_at s e r;
  en_taken s e _ r := mid s e r;
}.
Next Obligation.
  intros fuel s s' e l Hc (ls & rs & Hl & Hr & El). exists ls, rs.
  split_and!; try done; by eapply en_ready_calm.
Qed.
Next Obligation.
  intros fuel s s' e l r Hc [Ho|[Hm Hb]]; [left; by eapply over_calm|right; split; [by eapply mid_calm|done]].
Qed.
Next Obligation. intros fuel s s' e l r. apply mid_calm. Qed.
Next Obligation. intros fuel s s' e e' l. apply begin_ok. Qed.
Next Obligation.
  intros fuel s e l r [(He & -> & _)|[Hm Hb]]; cbn [ex_is_end join]; f_equal.
  - by rewrite He.
  - destruct Hm as (wl & wr & ls & lr & rs & rr & block & bx & Hsh & He & Hrec & Hne & Hbuf & Wb & Wl & Wr & Wrr & Al & Tr & ->).
    rewrite He, bool_decide_false; [done|]. rewrite Hbuf in Hb. by destruct bx.
Qed.
Next Obligation.
  intros fuel s s' e e' l x r o Ha Hn. destruct Ha as [(_ & ? & _)|[Hm Hb]]; [done|].
  destruct (mid_row _ _ _ _ Hm Hb) as (e1 & En & Hm1). cbn in Hn. unfold lift in Hn. rewrite En in Hn.
  injection Hn as <- <- <-. split_and!; [apply calm_refl|done|done].
Qed.
Next Obligation. intros fuel s e l r (wl & wr & ls & lr & rs & rr & block & bx & Hsh & He & _). cbn. by rewrite He. Qed.
Next Obligation. intros fuel s s' e e' l r. apply advance_ok. Qed.
Next Obligation.
  intros fuel s s' e e' Hb. cbn in Hb |- *. unfold beginTuple in Hb. minv. by apply make_buff_cols in Hb.
Qed.
Next Obligation.
  intros fuel s s' e e' o Hn. cbn in Hn |- *. unfold lift, Next in Hn. destruct (buff e); [done|]. by injection Hn as <- <- <-.
Qed.
Next Obligation.
  intros fuel s s' e e' Hb. cbn in Hb |- *. unfold nextTuple in Hb. destruct (_ || _); [by injection Hb as <- <-|].
  apply bind_inv in Hb as (s1 & [] & _ & Hb); cbn [negb] in Hb; [by apply make_buff_cols in Hb|].
  apply bind_inv in Hb as (s2 & r1 & _ & Hb). by apply make_buff_cols in Hb.
Qed.

(** *** The loops end *)
Lemma scan_right_fuel fuel : forall s e rs rr fuel', en_at s (right e) rs rr -> (length rr <= fuel)%nat -> (fuel <= fuel')%nat ->
  scan_right fuel' e s = scan_right fuel e s.
Proof.
  induction fuel as [|fuel IH]; intros s e rs rr fuel' Ha Hl Hle.
  - destruct rr; [|simpl in Hl; lia]. destruct fuel'; cbn [scan_right]; rewrite !(lift_ok _ _ _ _ (en_end _ _ _ _ Ha));
      by rewrite bool_decide_true.
  - destruct fuel' as [|fuel']; [lia|]. cbn [scan_right]. rewrite !(lift_ok _ _ _ _ (en_end _ _ _ _ Ha)).
    destruct rr as [|y rr]; [by rewrite bool_decide_true|]. rewrite bool_decide_false by done.
    apply bind_same. intros s1 [r1 o] Hn. destruct (en_next_row _ _ _ _ _ _ _ _ Ha Hn) as (_ & -> & Ht).
    apply bind_same. intros s2 buf Hm. unfold lift in Hm. injection Hm as <- _. destruct buf; [|done].
    apply bind_same. intros s3 r3 Hx. destruct (en_advance _ _ _ _ _ _ Ht Hx) as (_ & Ha3).
    apply (IH _ (set_right r3 (set_buff [] (set_right r1 e))) rs rr); [done|simpl in Hl; lia|lia].
Qed.

Lemma scan_blocks_fuel wl wr n : forall fuel fuel' n' s e ls lr rs rr block,
  shape e wl wr -> buff e = [] -> l_records e = row <$> block ->
  Wide wl block -> Wide wl lr -> Wide wr rs -> Wide wr rr ->
  en_at s (left e) ls lr -> en_at s (right e) rs rr ->
  (bound <= fuel)%nat -> (fuel <= fuel')%nat -> (length lr + length block <= n)%nat -> (n <= n')%nat ->
  scan_blocks fuel' n' e s = scan_blocks fuel n e s.
Proof.
  induction n as [|n IH]; intros fuel fuel' n' s e ls lr rs rr block Hsh Hbuf Hrec Wb Wl Wr Wrr Hl Hr F1 F2 N1 N2.
  { destruct lr; [|simpl in N1; lia]. destruct block; [|simpl in N1; lia]. cbn [fmap list_fmap] in Hrec.
    destruct n'; cbn [scan_blocks]; rewrite !(lift_ok _ _ _ _ (en_end _ _ _ _ Hl)), Hrec; done. }
  destruct n' as [|n']; [lia|]. cbn [scan_blocks]. rewrite !(lift_ok _ _ _ _ (en_end _ _ _ _ Hl)).
  destruct (bool_decide (lr = []) && bool_decide (l_records e = [])) eqn:Eend; [done|].
  apply bind_same. intros s1 e1 Hf.
  assert (Hne : ~ (lr = [] /\ block = [])) by (intros [-> ->]; by rewrite Hrec in Eend).
  destruct (fill_block_ok wl wr _ _ _ _ _ _ _ Hsh Hrec Wb Wl Hl Hne Hf)
    as (block1 & lr1 & C1 & Al1 & He1 & Hb1 & Hri & Hr1 & Hn1 & Wb1 & Wl1 & Hl1 & Hsum & _). rewrite Hbuf in Hb1.
  assert (Ha1 : en_at s1 (right e1) rs rr) by (rewrite Hri; by eapply en_at_calm).
  assert (Hlen : (length lr1 <= n)%nat) by (destruct block1; [done|simpl in Hsum; lia]).
  apply bind_eq; [apply (scan_right_fuel fuel _ e1 rs rr fuel' Ha1); destruct Wrr; lia|].
  intros s2 [e2 []] Hsc; [done|].
  destruct (scan_right_ok fuel wl wr block1 Wb1 _ _ _ _ _ _ _ (alike_shape _ _ _ _ Al1 Hsh) Hr1 Hb1 Wrr Ha1 Hsc)
    as (C2 & Al2 & El & _ & _ & Hb2 & Ha2 & _).
  apply bind_same. intros s3 r3 Hbeg. destruct (en_begin _ _ _ _ _ (en_restart _ _ _ Ha2) Hbeg) as (C3 & Ha3).
  apply (IH _ _ _ _ (set_right r3 (set_block [] e2)) ls lr1 (en_again rs) (en_again rs) []); try done.
  - apply (alike_shape e); [|done]. destruct Al1, Al2. split; cbn; congruence.
  - apply Wide_nil.
  - by apply Wide_again.
  - by apply Wide_again.
  - cbn. rewrite El. eapply en_at_calm; [exact C3|by eapply en_at_calm].
  - simpl. lia.
  - lia.
Qed.

Lemma begin_fuel fuel fuel' s e l : join_ready s e l -> (2 * bound <= fuel)%nat -> (fuel <= fuel')%nat ->
  beginTuple fuel' e s = beginTuple fuel e s.
Proof.
  intros (ls & rs & Hl & Hr & Hrdy) F1 F2. unfold beginTuple.
  apply bind_same. intros s1 l1 B1. destruct (en_begin _ _ _ _ _ Hl B1) as (C1 & A1).
  apply bind_same. intros s2 r1 B2. destruct (en_begin _ _ _ _ _ (en_ready_calm _ _ _ _ C1 Hr) B2) as (C2 & A2).
  apply (en_at_calm _ _ _ _ _ C2) in A1. unfold make_buff. cbn [isend set_buff set_block set_right set_left].
  destruct (isend e) eqn:E; [done|]. destruct Hrdy as (wl & wr & Hsh & Wl & Wr & _).
  apply (scan_blocks_fuel wl wr fuel fuel fuel' fuel' _ _ ls ls rs rs []); try done; try lia.
  - by apply (alike_shape e).
  - apply Wide_nil.
  - destruct Wl. simpl. lia.
Qed.

Lemma advance_fuel fuel fuel' s e r : mid s e r -> (2 * bound <= fuel)%nat -> (fuel <= fuel')%nat ->
  nextTuple fuel' e s = nextTuple fuel e s.
Proof.
  intros (wl & wr & ls & lr & rs & rr & block & bx & Hsh & He & Hrec & Hne & Hbuf & Wb & Wl & Wr & Wrr & Al & Tr & ->) F1 F2.
  unfold nextTuple. rewrite He. cbn [orb]. destruct (negb (bool_decide (buff e = []))) eqn:Eb; [done|].
  apply negb_false_iff, bool_decide_eq_true in Eb. rewrite !(lift_ok _ _ _ _ (en_taken_end _ _ _ _ Tr)). cbn [negb].
  apply bind_same. intros s1 r1 Hx. destruct (en_advance _ _ _ _ _ _ Tr Hx) as (C1 & Ar).
  unfold make_buff. cbn [isend set_right]. rewrite He.
  apply (scan_blocks_fuel wl wr fuel fuel fuel' fuel' _ _ ls lr rs rr block); try done; try lia.
  - by apply (alike_shape e).
  - by eapply en_at_calm.
  - destruct Wl, Wb. lia.
Qed.

Lemma rows_from_join fuel fuel' k : (2 * bound <= fuel)%nat -> (fuel <= fuel')%nat -> forall s e r, join_at s e r ->
  rows_from (H:=join fuel') k e s = rows_from (H:=join fuel) k e s.
Proof.
  intros F1 F2. induction k as [|k IH]; intros s e r Ha; [done|]. cbn [rows_from].
  change (@ex_is_end S _ (join fuel') e) with (@ex_is_end S _ (join fuel) e).
  apply bind_same. intros s1 b Hb. unfold lift in Hb. injection Hb as <- Hb. destruct b; [done|].
  destruct Ha as [(He & _)|[Hm Hbuf]]; [congruence|].
  change (@ex_Next S _ (join fuel') e) with (@ex_Next S _ (join fuel) e).
  destruct r as [|x r].
  { exfalso. destruct Hm as (wl & wr & ls & lr & rs & rr & block & bx & _ & _ & _ & _ & Eb & _ & _ & _ & _ & _ & _ & Er).
    destruct bx; [by rewrite Eb in Hbuf|done]. }
  destruct (mid_row _ _ _ _ Hm Hbuf) as (e1 & En & Hm1). apply bind_same. intros s2 [e2 o] Hn.
  cbn in Hn. unfold lift in Hn. rewrite En in Hn. injection Hn as <- <- <-.
  apply bind_eq; [by eapply advance_fuel|]. intros s3 e3 Hx.
  destruct (advance_ok _ _ _ _ _ _ Hm1 Hx) as (_ & Ha3). apply bind_eq; [by eapply IH|]. done.
Qed.

(** More fuel than twice the rows of a child changes nothing. *)
Lemma all_rows_join fuel fuel' k s e l : join_ready s e l -> (2 * bound <= fuel)%nat -> (fuel <= fuel')%nat ->
  all_rows (H:=join fuel') k e s = all_rows (H:=join fuel) k e s.
Proof.
  intros Hr F1 F2. unfold all_rows. apply bind_eq; [by eapply begin_fuel|]. intros s1 e1 Hb.
  destruct (begin_ok _ _ _ _ _ _ Hr Hb) as (_ & Ha). by eapply rows_from_join.
Qed.
(** *** The loops return *)
Section total.
Context `{TL : !Total S L} `{TR : !Total S R}.

(** The filter gives an answer on the rows of the join. *)
Definition filter_total e : Prop :=
  forall z, Z.of_nat (length z) = len e -> exists b, Filter.filter (fed_conds e) (cols e) (row z) = Ok b.
Definition good e : Prop := tt_good (left e) /\ tt_good (right e) /\ filter_total e.

Lemma alike_filter e e' : alike e e' -> filter_total e -> filter_total e'.
Proof. intros [A B C D] Hq z Hz. rewrite B, C. apply Hq. congruence. Qed.

Lemma matches_total e wl wr y : shape e wl wr -> filter_total e -> length y = wr -> forall block buf, Wide wl block ->
  exists buf', matches e (row <$> block) (row y) buf = Ok buf'.
Proof.
  intros [Hl Hs _] Hf Hy. induction block as [|x block IH]; intros buf Hb; [by eexists|].
  apply Wide_cons in Hb as [Hx Hb]. rewrite fmap_cons. cbn [matches]. rewrite combine_rows by (rewrite Hl; lia). cbn [mbind res_bind].
  assert (Hlen : Z.of_nat (length (x ++ y)) = len e) by (rewrite length_app; lia).
  replace (RmRecord_new (i32 (len e)) (x ++ y)) with (row (x ++ y)).
  { destruct (Hf (x ++ y) Hlen) as (b & ->). cbn [mbind res_bind]. by apply IH. }
  unfold RmRecord_new, row. rewrite i32_small by (unfold in_i32; lia). rewrite Hlen, take_ge by lia. done.
Qed.

Lemma fill_total n : forall s (l : L) ls lr block, tt_good l -> en_at s l ls lr ->
  exists s' l' block', fill n l block s = (s', Ok (l', block')) /\ tt_good l'.
Proof.
  induction n as [|n IH]; intros s l ls lr block Hg Ha; cbn [fill]; [by eexists s, l, block|].
  rewrite (lift_ok _ _ _ _ (en_end _ _ _ _ Ha)). destruct lr as [|x lr]; [by eexists s, l, block|].
  rewrite bool_decide_false by done. destruct (tt_next _ _ _ _ _ Hg Ha) as (s1 & l1 & o & En & Hg1).
  destruct (en_next_row _ _ _ _ _ _ _ _ Ha En) as (_ & -> & Ht). rewrite (bind_ok _ _ _ _ _ En).
  destruct (tt_advance _ _ _ _ Hg1 Ht) as (s2 & l2 & Ex & Hg2). rewrite (bind_ok _ _ _ _ _ Ex).
  destruct (en_advance _ _ _ _ _ _ Ht Ex) as (_ & Ha2). by eapply IH.
Qed.

Lemma fill_block_total s e ls lr : good e -> en_at s (left e) ls lr ->
  exists s' e', fill_block e s = (s', Ok e') /\ good e'.
Proof.
  intros (G1 & G2 & G3) Ha. unfold fill_block. destruct (l_records e) eqn:E; [|by eexists s, e].
  destruct (fill_total (Z.to_nat (buffer_size e)) _ _ _ _ [] G1 Ha) as (s1 & l1 & b & Ef & Hg). rewrite (bind_ok _ _ _ _ _ Ef).
  eexists s1, _. split; [done|]. by split_and!.
Qed.

Lemma scan_right_total fuel wl wr block : Wide wl block -> forall s e rs rr,
  good e -> shape e wl wr -> l_records e = row <$> block -> buff e = [] -> Wide wr rr ->
  en_at s (right e) rs rr -> (length rr <= fuel)%nat ->
  exists s' e' b, scan_right fuel e s = (s', Ok (e', b)) /\ good e'.
Proof.
  intros Hblock. induction fuel as [|fuel IH]; intros s e rs rr Hg Hsh Hrec Hbuf Hw Ha Hl; cbn [scan_right];
    rewrite (lift_ok _ _ _ _ (en_end _ _ _ _ Ha)); (destruct rr as [|y rr]; [by eexists s, e, false|]);
    [simpl in Hl; lia|].
  rewrite bool_decide_false by done. apply Wide_cons in Hw as [Hy Hw]. destruct Hg as (G1 & G2 & G3).
  destruct (tt_next _ _ _ _ _ G2 Ha) as (s1 & r1 & o & En & G2').
  destruct (en_next_row _ _ _ _ _ _ _ _ Ha En) as (_ & -> & Ht). rewrite (bind_ok _ _ _ _ _ En).
  assert (Hsh1 : shape (set_right r1 e) wl wr) by (by eapply (alike_shape e)).
  destruct (matches_total _ _ _ _ Hsh1 G3 Hy block [] Hblock) as (buf & Em).
  cbn [l_records buff set_right]. rewrite Hrec, Hbuf. rewrite (lift_ok _ _ _ _ Em). destruct buf as [|z buf].
  - destruct (tt_advance _ _ _ _ G2' Ht) as (s2 & r2 & Ex & G2''). cbn [right set_buff set_right]. rewrite (bind_ok _ _ _ _ _ Ex).
    destruct (en_advance _ _ _ _ _ _ Ht Ex) as (_ & Ha2).
    apply (IH _ (set_right r2 (set_buff [] (set_right r1 e))) rs rr); [by split_and!|by apply (alike_shape e)|done|done|done|done|simpl in Hl; lia].
  - eexists s1, _, true. split; [done|]. by split_and!.
Qed.

Lemma scan_blocks_total fuel wl wr n : forall s e ls lr rs rr block,
  good e -> shape e wl wr -> buff e = [] -> l_records e = row <$> block ->
  Wide wl block -> Wide wl lr -> Wide wr rs -> Wide wr rr ->
  en_at s (left e) ls lr -> en_at s (right e) rs rr ->
  (bound <= fuel)%nat -> (length lr + length block <= n)%nat ->
  exists s' e', scan_blocks fuel n e s = (s', Ok e') /\ good e'.
Proof.
  induction n as [|n IH]; intros s e ls lr rs rr block Hg Hsh Hbuf Hrec Wb Wl Wr Wrr Hl Hr F1 N1;
    cbn [scan_blocks]; rewrite (lift_ok _ _ _ _ (en_end _ _ _ _ Hl));
    (destruct (bool_decide (lr = []) && bool_decide (l_records e = [])) eqn:Eend; [by eexists s, _|]);
    (assert (Hne : ~ (lr = [] /\ block = [])) by (intros [-> ->]; by rewrite Hrec in Eend)).
  { exfalso. apply Hne. destruct lr, block; simpl in N1; try lia. done. }
  destruct (fill_block_total _ _ _ _ Hg Hl) as (s1 & e1 & Ef & G1). rewrite (bind_ok _ _ _ _ _ Ef).
  destruct (fill_block_ok wl wr _ _ _ _ _ _ _ Hsh Hrec Wb Wl Hl Hne Ef)
    as (block1 & lr1 & C1 & Al1 & He1 & Hb1 & Hri & Hr1 & Hn1 & Wb1 & Wl1 & Hl1 & Hsum & _). rewrite Hbuf in Hb1.
  assert (Ha1 : en_at s1 (right e1) rs rr) by (rewrite Hri; by eapply en_at_calm).
  assert (Hlen : (length lr1 <= n)%nat) by (destruct block1; [done|simpl in Hsum; lia]).
  destruct (scan_right_total fuel wl wr block1 Wb1 _ _ rs rr G1 (alike_shape _ _ _ _ Al1 Hsh) Hr1 Hb1 Wrr Ha1) as (s2 & e2 & b & Es & G2);
    [destruct Wrr; lia|]. rewrite (bind_ok _ _ _ _ _ Es).
  destruct (scan_right_ok fuel wl wr block1 Wb1 _ _ _ _ _ _ _ (alike_shape _ _ _ _ Al1 Hsh) Hr1 Hb1 Wrr Ha1 Es)
    as (C2 & Al2 & El & _ & _ & Hres).
  destruct b; [by eexists s2, e2|]. destruct Hres as (Hb2 & Ha2 & _). pose proof G2 as (G2l & G2r & G2f).
  destruct (tt_begin _ _ _ G2r (en_restart _ _ _ Ha2)) as (s3 & r3 & Eb & G3). rewrite (bind_ok _ _ _ _ _ Eb).
  destruct (en_begin _ _ _ _ _ (en_restart _ _ _ Ha2) Eb) as (C3 & Ha3).
  assert (Hsh3 : shape (set_right r3 (set_block [] e2)) wl wr)
    by (apply (alike_shape e2); [by split|]; by apply (alike_shape e1), (alike_shape e)).
  apply (IH _ (set_right r3 (set_block [] e2)) ls lr1 (en_again rs) (en_again rs) []); try done.
  - apply Wide_nil.
  - by apply Wide_again.
  - by apply Wide_again.
  - cbn. rewrite El. eapply en_at_calm; [exact C3|by eapply en_at_calm].
  - simpl. lia.
Qed.

Lemma begin_total fuel s e l : (2 * bound <= fuel)%nat -> good e -> join_ready s e l ->
  exists s' e', beginTuple fuel e s = (s', Ok e') /\ good e'.
Proof.
  intros F1 (G1 & G2 & G3) (ls & rs & Hl & Hr & Hrdy). unfold beginTuple.
  destruct (tt_begin _ _ _ G1 Hl) as (s1 & l1 & B1 & G1'). rewrite (bind_ok _ _ _ _ _ B1).
  destruct (en_begin _ _ _ _ _ Hl B1) as (C1 & A1). apply (en_ready_calm _ _ _ _ C1) in Hr.
  destruct (tt_begin _ _ _ G2 Hr) as (s2 & r2 & B2 & G2'). rewrite (bind_ok _ _ _ _ _ B2).
  destruct (en_begin _ _ _ _ _ Hr B2) as (C2 & A2). apply (en_at_calm _ _ _ _ _ C2) in A1.
  unfold make_buff. cbn [isend set_buff set_block set_right set_left].
  destruct (isend e) eqn:E; [by eexists s2, _|]. destruct Hrdy as (wl & wr & Hsh & Wl & Wr & _).
  apply (scan_blocks_total fuel wl wr fuel _ _ ls ls rs rs []); try done; try lia.
  - by apply (alike_shape e).
  - apply Wide_nil.
  - destruct Wl. simpl. lia.
Qed.

Lemma advance_total fuel s e r : (2 * bound <= fuel)%nat -> good e -> mid s e r ->
  exists s' e', nextTuple fuel e s = (s', Ok e') /\ good e'.
Proof.
  intros F1 (G1 & G2 & G3) (wl & wr & ls & lr & rs & rr & block & bx & Hsh & He & Hrec & Hne & Hbuf & Wb & Wl & Wr & Wrr & Al & Tr & ->).
  unfold nextTuple. rewrite He. cbn [orb]. destruct (negb (bool_decide (buff e = []))) eqn:Eb; [by eexists s, e|].
  apply negb_false_iff, bool_decide_eq_true in Eb. rewrite (lift_ok _ _ _ _ (en_taken_end _ _ _ _ Tr)). cbn [negb].
  destruct (tt_advance _ _ _ _ G2 Tr) as (s1 & r1 & Ex & G2'). rewrite (bind_ok _ _ _ _ _ Ex).
  destruct (en_advance _ _ _ _ _ _ Tr Ex) as (C1 & Ar). unfold make_buff. cbn [isend set_right]. rewrite He.
  apply (scan_blocks_total fuel wl wr fuel _ _ ls lr rs rr block); try done; try lia.
  - by apply (alike_shape e).
  - by eapply en_at_calm.
  - destruct Wl, Wb. lia.
Qed.
End total.
End laws.

(** With fuel for twice the rows of a child the join returns. *)
#[export] Program Instance join_total {S A B : Type} `{EA : Enumerates S A} `{EB : !AbstractExecutor S B}
    `{NB : !Enumerates S B} `{RB : !Repeats S B} `{TA : !Total S A} `{TB : !Total S B} (bound fuel : nat)
    (Hf : (2 * bound <= fuel)%nat) : Total S (t A B) (H0 := join fuel) (H1 := join_enumerates bound fuel) := {
  tt_good := good;
}.
Next Obligation. intros. by apply (begin_total bound fuel s e l). Qed.
Next Obligation.
  intros S A B C0 EA0 EA EB NB RB TA TB bound fuel Hf s e l x r Hg Ha. destruct Ha as [(_ & ? & _)|[Hm Hb]]; [done|].
  cbn. unfold lift. destruct (mid_row bound _ _ _ _ Hm Hb) as (e1 & En & _). rewrite En. eexists s, e1, _. split; [done|].
  unfold Next in En. destruct (buff e); [done|]. injection En as <- _. done.
Qed.
Next Obligation. intros. by apply (advance_total bound fuel s e r). Qed.

(** ** The second pass over a join

    [isend] stays set when a pass has ended, so that another pass is empty at once. *)
#[export] Program Instance join_repeats {S A B : Type} `{EA : Enumerates S A} `{EB : !AbstractExecutor S B}
    `{NB : !Enumerates S B} `{!Restarts S A} `{RB : !Restarts S B} (bound fuel : nat) :
  Repeats S (t A B) (H0 := join fuel) (H1 := join_enumerates bound fuel) | 5 := {
  en_again _ := [];
}.
Next Obligation. intros. apply sublist_nil_l. Qed.
Next Obligation.
  intros S A B H H0 EA EB NB RA RB bound fuel s e l [(He & _ & ls & lr & rs & rr & Al & Ar)|[Hm Hb]].
  - exists ls, rs. split_and!; [by eapply en_reset|by eapply en_reset|by rewrite He].
  - exfalso. destruct Hm as (wl & wr & ls & lr & rs & rr & block & bx & _ & _ & _ & _ & Eb & _ & _ & _ & _ & _ & _ & Er).
    destruct bx; [by rewrite Eb in Hb|done].
Qed.
(** ** The rows of a join *)
Section theorems.
Context {S L R : Type} `{EL : Enumerates S L} `{ER : !AbstractExecutor S R} `{NR : !Enumerates S R}.

(** A new join of children with rows of [wl] and [wr] bytes. *)
Record new_join (l : L) (r : R) (conds : list Condition) (e : t L R) (wl wr : nat) : Prop := {
  nj_make : make l r conds = Ok e;
  nj_left : ex_tupleLen l = Ok (Z.of_nat wl);
  nj_right : ex_tupleLen r = Ok (Z.of_nat wr);
  nj_small : Z.of_nat (wl + wr) < 2 ^ 31;
  nj_typed : forallb (Filter.well_typed (wl + wr) (cols e)) conds = true;
}.
(** The columns of a row of [wl] bytes of the left child followed by one of the right child. *)
Definition joined_cols (wl : nat) (lcs rcs : list ColMeta) : list ColMeta :=
  lcs ++ ((fun c => mkColMeta (cm_tab_name c) (cm_name c) (cm_type c) (cm_len c) (Z.of_nat wl + cm_offset c) (cm_index c)) <$> rcs).
Definition offsets_in (wr : nat) (rcs : list ColMeta) : Prop := Forall (fun c => 0 <= cm_offset c <= Z.of_nat wr) rcs.

Lemma shifted_cols wl wr (lcs rcs : list ColMeta) : Z.of_nat (wl + wr) < 2 ^ 31 -> offsets_in wr rcs ->
  lcs ++ (shift_col (Z.of_nat wl) <$> rcs) = joined_cols wl lcs rcs.
Proof.
  intros Hs Hr. unfold joined_cols. f_equal. apply list_fmap_ext. intros i c Hc.
  apply (Forall_lookup_1 _ _ _ _ Hr) in Hc. unfold shift_col. rewrite i32_small by (unfold in_i32; lia). f_equal. lia.
Qed.

Definition block_of (wl : nat) : nat := Z.to_nat (Z.max 64 (4 * PAGE_SIZE / Z.of_nat wl)).

Lemma make_shape (l : L) (r : R) conds e wl wr : make l r conds = Ok e ->
  ex_tupleLen l = Ok (Z.of_nat wl) -> ex_tupleLen r = Ok (Z.of_nat wr) -> Z.of_nat (wl + wr) < 2 ^ 31 ->
  shape e wl wr /\ left e = l /\ right e = r /\ fed_conds e = conds /\ isend e = false /\
  block_rows e = block_of wl /\ cols e = ex_cols l ++ (shift_col (Z.of_nat wl) <$> ex_cols r).
Proof.
  intros Hm Hl Hr Hs. unfold make in Hm. rewrite Hl, Hr in Hm. cbn [mbind res_bind] in Hm. unfold block_size in Hm.
  destruct (Z.eqb_spec (Z.of_nat wl) 0) as [|Hw]; [done|]. cbn [mbind res_bind] in Hm. injection Hm as <-.
  assert (Hn : u64 (Z.of_nat wl + Z.of_nat wr) = Z.of_nat (wl + wr)) by (unfold u64; rewrite Z.mod_small; lia).
  assert (Hb : in_i32 (4 * PAGE_SIZE / Z.of_nat wl)).
  { unfold in_i32, PAGE_SIZE. assert (0 < Z.of_nat wl) by lia. pose proof (Z.div_pos (4 * 4096) (Z.of_nat wl)).
    pose proof (Z.div_le_upper_bound (4 * 4096) (Z.of_nat wl) (4 * 4096)). nia. }
  split_and!; try done.
  - split; cbn; [done|lia|]. lia.
  - unfold block_rows, block_of. cbn. by rewrite i32_small.
Qed.

Lemma make_cols (l : L) (r : R) conds e wl : make l r conds = Ok e -> ex_tupleLen l = Ok (Z.of_nat wl) ->
  cols e = ex_cols l ++ (shift_col (Z.of_nat wl) <$> ex_cols r).
Proof.
  intros Hm Hl. unfold make in Hm. rewrite Hl in Hm. cbn [mbind res_bind] in Hm. destruct (ex_tupleLen r) as [rn|]; [|done].
  cbn [mbind res_bind] in Hm. destruct (block_size (Z.of_nat wl)); [|done]. by injection Hm as <-.
Qed.

Lemma new_join_shape l r conds e wl wr : new_join l r conds e wl wr ->
  shape e wl wr /\ filter_total e /\ left e = l /\ right e = r /\ fed_conds e = conds /\ isend e = false /\
  block_rows e = block_of wl.
Proof.
  intros [Hm Hl Hr Hs Ht]. destruct (make_shape l r conds e wl wr Hm Hl Hr Hs) as (Hsh & El & Er & Ec & Ee & Eb & _).
  split_and!; try done. intros z Hz. rewrite Ec. rewrite (sh_len _ _ _ Hsh) in Hz.
  apply (Filter.well_typed_rows (wl + wr)) with z; [done|done|lia].
Qed.

Lemma new_join_ready `{RR : !Repeats S R} `{TL : !Total S L} `{TR : !Total S R} bound s l r conds e wl wr ls rs :
  new_join l r conds e wl wr -> tt_good l -> tt_good r -> en_ready s l ls -> en_ready s r rs ->
  Forall (fun x => length x = wl) ls -> Forall (fun x => length x = wr) rs ->
  (length ls <= bound)%nat -> (length rs <= bound)%nat ->
  good e /\ join_ready bound s e (join_rows conds (cols e) (block_of wl) (en_again (E:=R)) ls rs).
Proof.
  intros Hj Gl Gr Hl Hr Wl Wr B1 B2.
  destruct (new_join_shape _ _ _ _ _ _ Hj) as (Hsh & Hf & El & Er & Ec & Ee & Eb).
  split; [unfold good; by rewrite El, Er|]. exists ls, rs. rewrite El, Er, Ee. split_and!; [done|done|].
  exists wl, wr. by rewrite Ec, Eb.
Qed.

Lemma join_gives `{RR : !Repeats S R} `{TL : !Total S L} `{TR : !Total S R} s l r conds e wl wr ls rs fuel k :
  new_join l r conds e wl wr -> tt_good l -> tt_good r -> en_ready s l ls -> en_ready s r rs ->
  Forall (fun x => length x = wl) ls -> Forall (fun x => length x = wr) rs ->
  let rows := join_rows conds (cols e) (block_of wl) (en_again (E:=R)) ls rs in
  (2 * length ls <= fuel)%nat -> (2 * length rs <= fuel)%nat -> (length rows <= k)%nat ->
  exists s' e', all_rows (H:=join fuel) k e s = (s', Ok (e', row <$> rows)).
Proof.
  intros Hj Gl Gr Hl Hr Wl Wr rows F1 F2 Hk. set (bound := Nat.max (length ls) (length rs)).
  destruct (new_join_ready bound s l r conds e wl wr ls rs Hj Gl Gr Hl Hr Wl Wr) as [Hg Hready]; [lia|lia|].
  assert (Hb : (2 * bound <= fuel)%nat) by lia.
  destruct (all_rows_total (H0:=join fuel) (H1:=join_enumerates bound fuel) (H2:=join_total bound fuel Hb) k s e rows Hg Hready Hk)
    as (s' & e' & Ea & _).
  by exists s', e'.
Qed.

Lemma block_of_pos wl : (0 < block_of wl)%nat.
Proof. unfold block_of. lia. Qed.

(** When it returns, whatever its children do. *)
Lemma join_sound `{RR : !Restarts S R} s s' (l : L) (r : R) conds e wl wr ls rs fuel k e' out :
  make l r conds = Ok e -> ex_tupleLen l = Ok (Z.of_nat wl) -> ex_tupleLen r = Ok (Z.of_nat wr) ->
  Z.of_nat (wl + wr) < 2 ^ 31 -> en_ready s l ls -> en_ready s r rs ->
  Forall (fun x => length x = wl) ls -> Forall (fun x => length x = wr) rs ->
  all_rows (H:=join fuel) k e s = (s', Ok (e', out)) ->
  calm s s' /\ exists rows, out = row <$> rows /\ rows ≡ₚ theta_join conds (cols e) ls rs.
Proof.
  intros Hm Hwl Hwr Hsm Hl Hr Wl Wr Hrun.
  destruct (make_shape l r conds e wl wr Hm Hwl Hwr Hsm) as (Hsh & El & Er & Ec & Ee & Eb & _).
  set (bound := Nat.max (length ls) (length rs)).
  assert (Hready : join_ready bound s e (join_rows conds (cols e) (block_of wl) (en_again (E:=R)) ls rs)).
  { exists ls, rs. rewrite El, Er, Ee. split_and!; [done|done|]. exists wl, wr. rewrite Ec, Eb.
    split_and!; [done|split; [done|lia]|split; [done|lia]|done]. }
  destruct (all_rows_ok (H0:=join fuel) (H1:=join_enumerates bound fuel) k s s' e e' _ out Hready Hrun) as (Hc & -> & _).
  split; [done|]. eexists. split; [done|]. apply join_rows_product, block_of_pos.
Qed.

(** C30: a join whose right child can be run again and again, as a scan can, returns, with
    fuel for twice the rows of a child, and its rows are those of the relational join: every
    pair of a left row and a right row that the conditions hold of, once; whatever the
    number of blocks the left rows are read in.  The conditions are those on the columns of
    the left child at their place in the left row and the columns of the right child at their
    place after it. *)
Theorem joins_every_pair `{RR : !Restarts S R} `{TL : !Total S L} `{TR : !Total S R} s (l : L) (r : R) conds e wl wr ls rs fuel k :
  new_join l r conds e wl wr -> offsets_in wr (ex_cols r) -> tt_good l -> tt_good r -> en_ready s l ls -> en_ready s r rs ->
  Forall (fun x => length x = wl) ls -> Forall (fun x => length x = wr) rs ->
  (2 * length ls <= fuel)%nat -> (2 * length rs <= fuel)%nat -> (length ls * length rs <= k)%nat ->
  exists s' e' rows, all_rows (H:=join fuel) k e s = (s', Ok (e', row <$> rows)) /\
    rows ≡ₚ theta_join conds (joined_cols wl (ex_cols l) (ex_cols r)) ls rs.
Proof.
  intros Hj Hoff Gl Gr Hl Hr Wl Wr F1 F2 Hk.
  rewrite <- (shifted_cols wl wr (ex_cols l) (ex_cols r) (nj_small _ _ _ _ _ _ Hj) Hoff).
  rewrite <- (make_cols l r conds e wl (nj_make _ _ _ _ _ _ Hj) (nj_left _ _ _ _ _ _ Hj)).
  pose proof (join_rows_product conds (cols e) (block_of wl) ls rs (block_of_pos wl)) as Hp.
  edestruct (join_gives s l r conds e wl wr ls rs fuel k Hj Gl Gr Hl Hr Wl Wr F1 F2) as (s' & e' & Ha).
  { cbn [en_again restarts_repeats]. rewrite Hp. etrans; [apply theta_join_length|done]. }
  by eexists s', e', _.
Qed.
End theorems.

(** C32: a join whose right child is a join as well loses rows: the right child is empty when it
    is run again, so that only the first block of the left child's rows is joined. *)
Theorem join_right_of_join {S L A B : Type} `{EL : Enumerates S L} `{EA0 : !AbstractExecutor S A} `{EA : !Enumerates S A}
    `{EB0 : !AbstractExecutor S B} `{EB : !Enumerates S B} `{RA : !Restarts S A} `{RB : !Restarts S B}
    `{TL : !Total S L} `{TA : !Total S A} `{TB : !Total S B}
    s (l : L) (a : A) (b : B) conds conds' e e' wl wa wb ls rsa rsb fuel k :
  new_join (ER:=EB0) a b conds' e' wa wb -> new_join (ER:=join fuel) l e' conds e wl (wa + wb) ->
  tt_good l -> tt_good a -> tt_good b -> en_ready s l ls -> en_ready s a rsa -> en_ready s b rsb ->
  Forall (fun x => length x = wl) ls -> Forall (fun x => length x = wa) rsa -> Forall (fun x => length x = wb) rsb ->
  (2 * length ls <= fuel)%nat -> (2 * (length rsa * length rsb) <= fuel)%nat ->
  (2 * length rsa <= fuel)%nat -> (2 * length rsb <= fuel)%nat ->
  (length ls * (length rsa * length rsb) <= k)%nat ->
  exists s' e1 rows, all_rows (H:=join (H0:=join fuel) fuel) k e s = (s', Ok (e1, row <$> rows)) /\
    rows ≡ₚ theta_join conds (cols e) (take (block_of wl) ls) (theta_join conds' (cols e') rsa rsb).
Proof.
  intros Hj' Hj Gl Ga Gb Hl Ha Hb Wl Wa Wb F1 F2 F3 F4 Hk.
  set (bound := Nat.max (length rsa) (length rsb)). assert (Hf : (2 * bound <= fuel)%nat) by lia.
  set (inner := join_rows conds' (cols e') (block_of wa) (fun l => l) rsa rsb).
  assert (Hp : inner ≡ₚ theta_join conds' (cols e') rsa rsb) by (apply join_rows_product, block_of_pos).
  assert (Hlen : (length inner <= length rsa * length rsb)%nat) by (rewrite Hp; apply theta_join_length).
  assert (Wi : Forall (fun x => length x = (wa + wb)%nat) inner) by (rewrite Hp; by apply theta_join_width).
  destruct (new_join_ready bound s a b conds' e' wa wb rsa rsb Hj' Ga Gb Ha Hb Wa Wb) as [Hg Hready]; [lia|lia|].
  pose proof (join_rows_once conds (cols e) (block_of wl) ls inner (block_of_pos wl)) as Hone.
  pose proof (block_product conds (cols e) (take (block_of wl) ls) inner) as Hprod. rewrite <- Hone in Hprod.
  edestruct (join_gives (ER:=join fuel) (NR:=join_enumerates bound fuel) (RR:=join_repeats bound fuel)
    (TR:=join_total bound fuel Hf) s l e' conds e wl (wa + wb) ls inner fuel k Hj Gl Hg Hl Hready Wl Wi) as (s' & e1 & Hrun).
  { done. } { lia. }
  { cbn [en_again join_repeats]. rewrite Hprod. etrans; [apply theta_join_length|]. rewrite length_take. nia. }
  eexists s', e1, _. split; [exact Hrun|]. cbn [en_again join_repeats]. rewrite Hprod. by apply theta_join_perm.
Qed.
(** *** Examples *)
Definition int_col (tab name : string) (off : Z) : ColMeta := mkColMeta tab name TYPE_INT 4 off false.
Definition ints (l : list Z) : bytes := l ≫= le_encode 4.
Definition demo_t : Rows.t := Rows.mk 8 [int_col "t" "a" 0; int_col "t" "b" 4] [ints [1; 10]; ints [2; 20]; ints [2; 21]] 0.
Definition demo_u : Rows.t := Rows.mk 4 [int_col "u" "a" 0] [ints [2]; ints [3]] 0.
Definition demo_w : Rows.t := Rows.mk 256 [int_col "w" "a" 0] (replicate 65 (ints [2] ++ replicate 252 0)) 0.
Definition on_a (l r : string) : Condition :=
  mkCondition (mkTabCol l "a" FUNC_NULL "" false) OP_EQ false (mkTabCol r "a" FUNC_NULL "" false) (text_value "").
Definition make_ok {A B} `{AbstractExecutor unit A} `{AbstractExecutor unit B} (l : A) (r : B) conds : t A B :=
  match make (S:=unit) l r conds with Ok e => e | Throw _ => mk l r 0 [] [] false 0 [] [] end.

Lemma joins_every_pair_witness :
  exists s' e' rows, all_rows (H:=join 6) 6 (make_ok demo_t demo_u [on_a "t" "u"]) tt = (s', Ok (e', row <$> rows)) /\
    rows ≡ₚ [ints [2; 20; 2]; ints [2; 21; 2]].
Proof.
  destruct (joins_every_pair tt demo_t demo_u [on_a "t" "u"] (make_ok demo_t demo_u [on_a "t" "u"]) 8 4
    (Rows.rows demo_t) (Rows.rows demo_u) 6 6) as (s' & e' & rows & Hr & Hp); [|..|by exists s', e', rows].
  - split; reflexivity.
  - repeat constructor; discriminate.
  - done.
  - done.
  - done.
  - done.
  - by repeat constructor.
  - by repeat constructor.
  - cbn. lia.
  - cbn. lia.
  - cbn. lia.
Defined.

(** The 65th row of the left child is in no row of the result. *)
Lemma join_right_of_join_witness :
  let inner := make_ok demo_t demo_u [on_a "t" "u"] in
  let outer := make_ok (H0:=join 130) demo_w inner [] in
  exists s' e1 rows, all_rows (H:=join (H0:=join 130) 130) 390 outer tt = (s', Ok (e1, row <$> rows)) /\
    rows ≡ₚ theta_join [] (cols outer) (take 64 (Rows.rows demo_w))
      (theta_join [on_a "t" "u"] (cols inner) (Rows.rows demo_t) (Rows.rows demo_u)).
Proof.
  apply (join_right_of_join tt demo_w demo_t demo_u [] [on_a "t" "u"] _ _ 256 8 4);
    [split; reflexivity|split; reflexivity|done|done|done|done|done|done|..].
  - by apply Forall_replicate.
  - by repeat constructor.
  - by repeat constructor.
  - cbn. lia.
  - cbn. lia.
  - cbn. lia.
  - cbn. lia.
  - cbn. lia.
Defined.
End NestedLoopJoin.
