(* ===== verification/Aggregate.v ===== *)
(** * The aggregate executor

    [execution/executor_aggregate.h]: the accumulators ([struct function]) and
    [AggregateExecutor], which makes one row out of all the rows of its child. *)

From S2P Require Import Prelude Common RmDefs IxDefs SmMeta Values Filter Executor.

Module Aggregate.

(** ** [struct function]

    What [result] points at; [None] is a pointer that was not initialised. *)
Record function := mkFunction {
  fn_result : option bytes;
  fn_type : ColType;
  fn_len : Z;
  fn_f : Func;
  fn_is_null : bool;
}.
Definition set_result (r : bytes) (f : function) : function :=
  mkFunction (Some r) (fn_type f) (fn_len f) (fn_f f) false.

(** Reads and writes through the pointers; outside of what they point at is not followed. *)
Definition as_int (p : option bytes) : res Z :=
  match p with Some p => if Filter.readable 4 p then Ok (load_i32 p 0) else Throw Stuck | None => Throw Stuck end.
Definition as_float (p : option bytes) : res Z :=
  match p with Some p => if Filter.readable 4 p then Ok (load_u32 p 0) else Throw Stuck | None => Throw Stuck end.
Definition put_word (z : Z) (f : function) : res function :=
  match fn_result f with
  | Some r => if Filter.readable 4 r then Ok (set_result (store_32 r 0 z) f) else Throw Stuck
  | None => Throw Stuck
  end.
(** [memmove(result, param, len)]. *)
Definition put_bytes (param : bytes) (f : function) : res function :=
  match fn_result f with
  | Some r => r ← copy r 0 (Some param) 0 (fn_len f); Ok (set_result r f)
  | None => Throw Stuck
  end.
(** [strcmp], up to the sign. *)
Fixpoint strcmp (a b : bytes) : res Z :=
  match a, b with
  | x :: a', y :: b' =>
      if x <? y then Ok (-1) else if y <? x then Ok 1 else if x =? 0 then Ok 0 else strcmp a' b'
  | _, _ => Throw Stuck
  end.

(** [std::max] and [std::min]. *)
Definition max_of {A} (lt : A -> A -> bool) (a b : A) : A := if lt a b then b else a.
Definition min_of {A} (lt : A -> A -> bool) (a b : A) : A := if lt b a then b else a.
(** Addition of [int]s; an overflow is undefined. *)
Definition add_int (a b : Z) : res Z := if bool_decide (in_i32 (a + b)) then Ok (a + b) else Throw Stuck.

Definition on_ints (op : Z -> Z -> res Z) (param : bytes) (f : function) : res function :=
  a ← as_int (fn_result f); b ← as_int (Some param); r ← op a b; put_word r f.
Definition on_floats (op : Z -> Z -> Z) (param : bytes) (f : function) : res function :=
  a ← as_float (fn_result f); b ← as_float (Some param); put_word (op a b) f.
(** The greater or the smaller of two strings. *)
Definition on_strings (less : Z -> bool) (param : bytes) (f : function) : res function :=
  match fn_result f with
  | Some r => cmp ← strcmp r param; if less cmp then put_bytes param f else Ok f
  | None => Throw Stuck
  end.

Definition calc (param : bytes) (f : function) : res function :=
  if bool_decide (fn_f f = FUNC_NULL) then Ok f else
  if fn_is_null f then put_bytes param f else
  match fn_f f, fn_type f with
  | FUNC_NULL, _ => Ok f
  | FUNC_COUNT, _ => a ← as_int (fn_result f); r ← add_int a 1; put_word r f
  | FUNC_MAX, TYPE_INT => on_ints (fun a b => Ok (max_of Z.ltb a b)) param f
  | FUNC_MAX, TYPE_FLOAT => on_floats (max_of f32_lt) param f
  | FUNC_MAX, TYPE_STRING => on_strings (fun c => c <? 0) param f
  | FUNC_MIN, TYPE_INT => on_ints (fun a b => Ok (min_of Z.ltb a b)) param f
  | FUNC_MIN, TYPE_FLOAT => on_floats (min_of f32_lt) param f
  | FUNC_MIN, TYPE_STRING => on_strings (fun c => 0 <? c) param f
  | FUNC_SUM, TYPE_INT => on_ints add_int param f
  | FUNC_SUM, TYPE_FLOAT => on_floats f32_add param f
  | _, _ => Ok f
  end.

Section ops.
Context {S E : Type} `{AbstractExecutor S E} (junk : bytes).

(** The constructor; [new int] is not initialised. *)
Definition new_function (f_ : Func) (type_ : ColType) (len_ : Z) : res function :=
  result ← (match type_ with
            | TYPE_INT | TYPE_FLOAT => r ← fresh junk 4; Ok (Some r)
            | TYPE_STRING => r ← fresh junk len_; Ok (Some r)
            | _ => Ok None
            end);
  let f := mkFunction result type_ len_ f_ true in
  match f_ with
  | FUNC_COUNT => put_word 0 (mkFunction result TYPE_INT 4 f_ true)
  | FUNC_SUM =>
      match type_ with
      | TYPE_INT | TYPE_FLOAT => put_word 0 f
      | _ => Throw (InternalError "failed to construct function")
      end
  | _ => Ok f
  end.

(** ** [AggregateExecutor] *)
Record t := mk {
  prev : E;
  cols : list ColMeta;
  len : Z;
  sel_idxs : list nat;
  functions : list function;
  is_end_ : bool;
}.

(** The loop of the constructor: positions, functions, columns, the last offset, and
    whether one of the functions is a count. *)
Fixpoint select (prev_cols : list ColMeta) (sel_cols : list TabCol) (curr_offset : Z) :
    res (list nat * list function * list ColMeta * Z * bool) :=
  match sel_cols with
  | [] => Ok ([], [], [], curr_offset, false)
  | sel_col :: l =>
      '(i, pos) ← Filter.get_col prev_cols sel_col;
      f ← new_function (tc_func sel_col) (cm_type pos) (cm_len pos);
      let col := mkColMeta (cm_tab_name pos) (cm_name pos) (fn_type f) (fn_len f) (i32 curr_offset) (cm_index pos) in
      '(ids, fs, cs, n, count) ← select prev_cols l (u64 (curr_offset + fn_len f));
      Ok (i :: ids, f :: fs, col :: cs, n, bool_decide (fn_f f = FUNC_COUNT) || count)
  end.
Definition make (p : E) (sel_cols : list TabCol) : res t :=
  '(ids, fs, cs, n, count) ← select (ex_cols p) sel_cols 0;
  Ok (mk p cs n ids fs (negb count)).

Definition set_prev (p : E) (e : t) : t := mk p (cols e) (len e) (sel_idxs e) (functions e) (is_end_ e).
Definition set_functions (fs : list function) (e : t) : t := mk (prev e) (cols e) (len e) (sel_idxs e) fs (is_end_ e).
Definition set_end (e : t) : t := mk (prev e) (cols e) (len e) (sel_idxs e) (functions e) true.

(** The loop over the functions, for one row of the child. *)
Fixpoint calc_all (prev_cols : list ColMeta) (idxs : list nat) (data : option bytes) (fs : list function) : res (list function) :=
  match fs, idxs with
  | [], _ => Ok []
  | f :: fs', i :: idxs' =>
      match prev_cols !! i with
      | Some c =>
          p ← Filter.ptr_at data (cm_offset c);
          f ← calc p f;
          fs' ← calc_all prev_cols idxs' data fs';
          Ok (f :: fs')
      | None => Throw Stuck
      end
  | _ :: _, [] => Throw Stuck
  end.
(** The loop over the rows. *)
Fixpoint accumulate (fuel : nat) (e : t) : M S t :=
  b ← lift (ex_is_end (prev e));
  if b : bool then mret e else
  match fuel with
  | O => throw OutOfFuel
  | Datatypes.S fuel' =>
      '(p, o) ← ex_Next (prev e);
      match o with
      | None => throw Stuck
      | Some rec =>
          fs ← lift (calc_all (ex_cols p) (sel_idxs e) (rec_data rec) (functions e));
          p ← ex_nextTuple p;
          accumulate fuel' (set_functions fs (set_prev p e))
      end
  end.
(** The loop that makes the row: every result is moved to its start. *)
Fixpoint put_results (fs : list function) (data : bytes) : res bytes :=
  match fs with
  | [] => Ok data
  | f :: fs' => data ← copy data 0 (fn_result f) 0 (fn_len f); put_results fs' data
  end.

Definition is_end (e : t) : res bool := if is_end_ e then ex_is_end (prev e) else Ok false.
Definition Next (fuel : nat) (e : t) : M S (t * option RmRecord) :=
  b ← lift (is_end e);
  if b : bool then mret (e, None) else
  data ← lift (fresh junk (i32 (len e)));
  e ← accumulate fuel e;
  data ← lift (put_results (functions e) data);
  mret (set_end e, Some (mkRmRecord (Some data) (i32 (len e)) true)).

#[export] Instance aggregate (fuel : nat) : AbstractExecutor S t := {
  ex_tupleLen _ := no_tupleLen;
  ex_cols := cols;
  ex_beginTuple e := p ← ex_beginTuple (prev e); mret (set_prev p e);
  ex_nextTuple e := mret e;
  ex_is_end := is_end;
  ex_Next := Next fuel;
}.
End ops.
Arguments t E : clear implicits.

(** ** What an aggregate of an [INT] column is *)

Definition agg (f : Func) (xs : list Z) : Z :=
  match f, xs with
  | FUNC_COUNT, _ => Z.of_nat (length xs)
  | FUNC_SUM, _ => foldl Z.add 0 xs
  | FUNC_MAX, x :: xs' => foldl Z.max x xs'
  | FUNC_MIN, x :: xs' => foldl Z.min x xs'
  | _, _ => 0
  end.
(** Whether there is a value when there are no rows. *)
Definition starts_null (f : Func) : bool := match f with FUNC_MAX | FUNC_MIN => true | _ => false end.

Lemma agg_snoc f xs x : f <> FUNC_NULL ->
  agg f (xs ++ [x]) =
    match f with
    | FUNC_COUNT => agg f xs + 1
    | FUNC_SUM => agg f xs + x
    | _ => match xs with [] => x | _ => if bool_decide (f = FUNC_MAX) then Z.max (agg f xs) x else Z.min (agg f xs) x end
    end.
Proof.
  intros Hf. destruct f; [done| | | |]; cbn [agg].
  - rewrite length_app. simpl. lia.
  - destruct xs; [done|]. cbn [app]. by rewrite foldl_snoc.
  - destruct xs; [done|]. cbn [app]. by rewrite foldl_snoc.
  - by rewrite foldl_snoc.
Qed.

(** The accumulator after the values [xs]. *)
Record holds (f : Func) (xs : list Z) (fn : function) : Prop := {
  ho_f : fn_f fn = f; ho_type : fn_type fn = TYPE_INT; ho_len : fn_len fn = 4;
  ho_null : fn_is_null fn = starts_null f && bool_decide (xs = []);
  ho_result : exists r, fn_result fn = Some r /\ length r = 4%nat /\ (fn_is_null fn = false -> load_i32 r 0 = agg f xs);
}.

Lemma put_word_ok z fn r : fn_result fn = Some r -> length r = 4%nat -> in_i32 z ->
  put_word z fn = Ok (set_result (store_32 r 0 z) fn) /\ length (store_32 r 0 z) = 4%nat /\ load_i32 (store_32 r 0 z) 0 = z.
Proof.
  intros Hr Hl Hz. unfold put_word, Filter.readable. rewrite Hr, Hl. split; [done|].
  split; [unfold store_32; by rewrite length_mem_write|]. apply load_store_i32; [lia|done].
Qed.

Lemma readable_row x off : 0 <= off -> off + 4 <= Z.of_nat (length x) -> Filter.readable 4 (drop (Z.to_nat off) x) = true.
Proof. intros. apply Nat.leb_le. rewrite length_drop. lia. Qed.

Lemma calc_int f xs fn p : holds f xs fn -> f <> FUNC_NULL -> Filter.readable 4 p = true ->
  let xs' := xs ++ [load_i32 p 0] in in_i32 (agg f xs') -> exists fn', calc p fn = Ok fn' /\ holds f xs' fn'.
Proof.
  intros [Hf Ht Hl Hn (r & Hr & Lr & Hv)] Hne Hp xs' Hin.
  assert (Hlast : bool_decide (xs' = []) = false) by (apply bool_decide_false; by destruct xs).
  assert (Hput : forall z, z = agg f xs' -> exists fn', put_word z fn = Ok fn' /\ holds f xs' fn').
  { intros z ->. destruct (put_word_ok _ _ _ Hr Lr Hin) as (-> & L & V). eexists. split; [done|].
    split; cbn; try done; [by rewrite Hlast, andb_false_r|]. by exists (store_32 r 0 (agg f xs')). }
  unfold calc. rewrite Hf, Hn, Ht. rewrite bool_decide_false by done. unfold xs' in *. rewrite (agg_snoc _ _ _ Hne) in *.
  assert (Hint : as_int (fn_result fn) = Ok (load_i32 r 0)) by (unfold as_int, Filter.readable; by rewrite Hr, Lr).
  assert (Hpar : as_int (Some p) = Ok (load_i32 p 0)) by (unfold as_int; by rewrite Hp).
  destruct (starts_null f && bool_decide (xs = [])) eqn:En.
  { apply andb_true_iff in En as [Ef Ex]. apply bool_decide_eq_true in Ex as ->. cbn [app] in *.
    unfold Filter.readable in Hp. apply Nat.leb_le in Hp.
    unfold put_bytes. rewrite Hr, Hl, copy_ok by (try lia; rewrite ?Lr; lia). cbn [mbind res_bind]. eexists. split; [done|].
    split; cbn; try done; [by rewrite andb_false_r|]. eexists. split; [done|]. split; [by rewrite length_mem_write|]. intros _.
    assert (Hm : mem_read (mem_write r 0 (mem_read p 0 4)) 0 4 = mem_read p 0 4).
    { rewrite <- (mem_read_write_same r 0 (mem_read p 0 4) 4) at 2; [done|rewrite length_mem_read; lia|lia]. }
    unfold load_i32. change (Z.to_nat 0) with 0%nat. change (Z.to_nat 4) with 4%nat. rewrite Hm. by destruct f. }
  specialize (Hv Hn). cbn [negb].
  destruct f; [done|..]; cbn [starts_null andb] in En;
    try (apply bool_decide_eq_false in En; destruct xs as [|y ys]; [done|]).
  - rewrite Hint. cbn [mbind res_bind]. unfold add_int. rewrite Hv, bool_decide_true by done. cbn [mbind res_bind]. by apply Hput.
  - unfold on_ints. rewrite Hint, Hpar. cbn [mbind res_bind]. rewrite Hv. apply Hput.
    unfold max_of. rewrite bool_decide_true by done. destruct (Z.ltb_spec (agg FUNC_MAX (y :: ys)) (load_i32 p 0)); lia.
  - unfold on_ints. rewrite Hint, Hpar. cbn [mbind res_bind]. rewrite Hv. apply Hput.
    unfold min_of. rewrite bool_decide_false by done. destruct (Z.ltb_spec (load_i32 p 0) (agg FUNC_MIN (y :: ys))); lia.
  - unfold on_ints. rewrite Hint, Hpar. cbn [mbind res_bind]. unfold add_int. rewrite Hv, bool_decide_true by done. cbn [mbind res_bind]. by apply Hput.
Qed.

Section laws.
Context {S E : Type} `{Total S E} (junk : bytes).
#[local] Existing Instance aggregate.

(** An executor with one function, over the [INT] column at [off] of its child's rows. *)
Record single (f : Func) (off : Z) (xs : list Z) (e : t E) : Prop := {
  si_fn : exists fn, functions e = [fn] /\ holds f xs fn;
  si_len : len e = 4;
  si_col : exists i c, sel_idxs e = [i] /\ ex_cols (prev e) !! i = Some c /\ cm_offset c = off;
}.
Definition ints_at (off : Z) (l : list bytes) : list Z := (fun x => load_i32 (drop (Z.to_nat off) x) 0) <$> l.
(** The row is long enough, and no prefix of the rows overflows. *)
Definition has_int (off : Z) (x : bytes) : Prop := 0 <= off /\ off + 4 <= Z.of_nat (length x).
Definition no_overflow (f : Func) (xs : list Z) : Prop := forall k, in_i32 (agg f (take k xs)).

Lemma accumulate_int f off k : f <> FUNC_NULL -> forall s e l r xs,
  single f off xs e -> tt_good (prev e) -> en_at s (prev e) l r -> Forall (has_int off) r ->
  no_overflow f (xs ++ ints_at off r) -> (length r <= k)%nat ->
  exists s' e', accumulate k e s = (s', Ok e') /\ single f off (xs ++ ints_at off r) e' /\ en_at s' (prev e') l [].
Proof.
  intros Hf. induction k as [|k IH]; intros s e l r xs Hs Hg Ha Hr Hno Hk; cbn [accumulate];
    rewrite (lift_ok _ _ _ _ (en_end _ _ _ _ Ha)); (destruct r as [|x r];
    [exists s, e; split; [done|]; split; [by rewrite app_nil_r|done]|]); [simpl in Hk; lia|].
  rewrite bool_decide_false by done. destruct (tt_next _ _ _ _ _ Hg Ha) as (s1 & p1 & o & En & G1).
  rewrite (bind_ok _ _ _ _ _ En). destruct (en_next_row _ _ _ _ _ _ _ _ Ha En) as (_ & -> & Ht).
  destruct Hs as [(fn & Ef & Hh) Hl (i & c & Ei & Ec & Eo)]. apply Forall_cons in Hr as [[Ho Hx] Hr].
  change (ints_at off (x :: r)) with (load_i32 (drop (Z.to_nat off) x) 0 :: ints_at off r) in *.
  set (v := load_i32 _ 0) in *. rewrite cons_middle, app_assoc in Hno |- *.
  destruct (calc_int _ _ _ (drop (Z.to_nat off) x) Hh Hf (readable_row _ _ Ho Hx)) as (fn' & Ecalc & Hh').
  { fold v. specialize (Hno (length (xs ++ [v]))). by rewrite take_app_length in Hno. }
  assert (Eall : calc_all (ex_cols p1) (sel_idxs e) (rec_data (row x)) (functions e) = Ok [fn']).
  { rewrite Ef, Ei. cbn [calc_all]. rewrite (en_row_cols _ _ _ _ _ En), Ec. unfold Filter.ptr_at, row. cbn [rec_data].
    rewrite Eo, (proj2 (Z.ltb_ge _ _)) by done. cbn [mbind res_bind]. by rewrite Ecalc. }
  rewrite (lift_ok _ _ _ _ Eall). destruct (tt_advance _ _ _ _ G1 Ht) as (s2 & p2 & Ex & G2). rewrite (bind_ok _ _ _ _ _ Ex).
  destruct (en_advance _ _ _ _ _ _ Ht Ex) as (_ & Ha2).
  apply (IH s2 (set_functions [fn'] (set_prev p2 e)) l r); try done; [|simpl in Hk; lia].
  split; cbn; [by exists fn'|done|]. exists i, c. split_and!; try done.
  by rewrite (en_advance_cols _ _ _ _ Ex), (en_row_cols _ _ _ _ _ En).
Qed.

(** A new executor with one function over an [INT] column. *)
Lemma make_single p sel e i c : make junk p [sel] = Ok e -> Filter.get_col (ex_cols p) sel = Ok (i, c) ->
  cm_type c = TYPE_INT -> cm_len c = 4 -> tc_func sel <> FUNC_NULL ->
  single (tc_func sel) (cm_offset c) [] e /\ prev e = p /\ is_end_ e = negb (bool_decide (tc_func sel = FUNC_COUNT)).
Proof.
  intros Hm Hg Ht Hl Hf. unfold make in Hm. cbn [select] in Hm. rewrite Hg in Hm. cbn [mbind res_bind] in Hm. rewrite Ht, Hl in Hm.
  assert (Hi : ex_cols p !! i = Some c).
  { unfold Filter.get_col in Hg. destruct (Filter.find_tab_col _ _); [|done]. destruct (_ !! n) eqn:El; [|done]. by injection Hg as <- <-. }
  unfold new_function, fresh in Hm. set (b := take _ _) in Hm.
  assert (Lb : length b = 4%nat) by (subst b; rewrite length_take, length_app, length_replicate; lia).
  change (4 <? 0) with false in Hm. cbn [mbind res_bind] in Hm.
  destruct (put_word_ok 0 (mkFunction (Some b) TYPE_INT 4 (tc_func sel) true) b eq_refl Lb ltac:(done)) as (Ep & L0 & V0).
  destruct (tc_func sel) eqn:Ef; [done|..]; rewrite ?Ep in Hm; cbn [mbind res_bind fn_len fn_type fn_f set_result] in Hm;
    injection Hm as <-; (split_and!; [split; [|done|by exists i, c]|done|done]);
    (eexists; split; [done|]; split; try done; cbn); eexists; split_and!; done.
Qed.

Lemma copy_word r : length r = 4%nat -> copy (take 4 (junk ++ replicate 4 0)) 0 (Some r) 0 4 = Ok r.
Proof.
  intros Lr. assert (Lj : length (take 4 (junk ++ replicate 4 0)) = 4%nat) by (rewrite length_take, length_app, length_replicate; lia).
  rewrite copy_ok by lia. f_equal. unfold mem_write, mem_read. change (Z.to_nat 0) with 0%nat. change (Z.to_nat 4) with 4%nat.
  rewrite drop_0, !(take_ge r), take_0 by lia. cbn [app]. rewrite drop_ge by lia. apply app_nil_r.
Qed.

Lemma count_end p (e : t E) s l (f : Func) : en_at s p l l -> is_end_ e = negb (bool_decide (f = FUNC_COUNT)) ->
  is_end (set_prev p e) = Ok (bool_decide (l = []) && bool_decide (f <> FUNC_COUNT)).
Proof.
  intros Ha Ee. unfold is_end. cbn [is_end_ set_prev prev]. rewrite Ee. destruct (decide (f = FUNC_COUNT)) as [Q|Q].
  - by rewrite (bool_decide_true _ Q), (bool_decide_false (f <> FUNC_COUNT)), andb_false_r by tauto.
  - rewrite (bool_decide_false _ Q), (bool_decide_true (f <> FUNC_COUNT)), andb_true_r by done. exact (en_end _ _ _ _ Ha).
Qed.

(** C34: one function over an [INT] column: [count], [max], [min] and [sum] give one row with the
    number of rows, the greatest and the least value and the sum; over no rows [count] gives
    zero and the others no row at all. *)
Theorem aggregate_of_ints s p sel e i c l fuel k : make junk p [sel] = Ok e ->
  Filter.get_col (ex_cols p) sel = Ok (i, c) -> cm_type c = TYPE_INT -> cm_len c = 4 -> tc_func sel <> FUNC_NULL ->
  tt_good p -> en_ready s p l -> Forall (has_int (cm_offset c)) l ->
  no_overflow (tc_func sel) (ints_at (cm_offset c) l) -> (length l <= fuel)%nat -> (1 <= k)%nat ->
  exists s' e' out, all_rows (H:=aggregate junk fuel) k e s = (s', Ok (e', row <$> out)) /\
    (if bool_decide (l = []) && bool_decide (tc_func sel <> FUNC_COUNT) then out = []
     else exists x, out = [x] /\ length x = 4%nat /\ load_i32 x 0 = agg (tc_func sel) (ints_at (cm_offset c) l)).
Proof.
  intros Hm Hg Ht Hl Hf Gp Hr Hlen Hno Hfu Hk.
  destruct (make_single _ _ _ _ _ Hm Hg Ht Hl Hf) as (Hs & Ep & Ee). set (f := tc_func sel) in *. set (off := cm_offset c) in *.
  destruct (tt_begin _ _ _ Gp Hr) as (s1 & p1 & Eb & G1). destruct (en_begin _ _ _ _ _ Hr Eb) as (_ & Ha).
  assert (Hs1 : single f off [] (set_prev p1 e)).
  { destruct Hs as [A B (j & d & X & Y & Z)]. split; [done|done|]. exists j, d. cbn.
    by rewrite (en_begin_cols _ _ _ _ Eb), <- Ep. }
  destruct (accumulate_int f off fuel Hf s1 _ l l [] Hs1 G1 Ha Hlen Hno Hfu) as (s2 & e2 & Eacc & Hs2 & Ha2).
  cbn [app] in Hs2. pose proof Hs2 as [(fn & Efn & [_ _ Hfl Hfn (r & Er & Lr & Hv)]) Hl2 _].
  pose proof (count_end p1 e s1 l f Ha Ee) as Hend1.
  destruct (bool_decide (l = []) && bool_decide (f <> FUNC_COUNT)) eqn:Enone.
  { exists s1, (set_prev p1 e), []. split; [|done]. unfold all_rows. cbn [ex_beginTuple aggregate]. rewrite Ep.
    rewrite (bind_ok _ _ _ _ _ (bind_ok _ _ _ _ _ Eb)). destruct k; cbn [rows_from ex_is_end aggregate];
      by rewrite (lift_ok _ _ _ _ Hend1). }
  assert (Enext : Next junk fuel (set_prev p1 e) s1 = (s2, Ok (set_end e2, Some (row r)))).
  { unfold Next. rewrite (lift_ok _ _ _ _ Hend1). cbn [len set_prev]. rewrite (si_len _ _ _ _ Hs).
    rewrite (lift_ok (fresh junk (i32 4)) _ _ _ eq_refl). rewrite (bind_ok _ _ _ _ _ Eacc). rewrite Efn. cbn [put_results].
    rewrite Er, Hfl. change (Z.to_nat (i32 4)) with 4%nat. rewrite (copy_word r Lr), Hl2. unfold row. by rewrite Lr. }
  assert (Hend2 : is_end (set_end e2) = Ok true) by (unfold is_end; cbn; by rewrite (en_end _ _ _ _ Ha2)).
  exists s2, (set_end e2), [r]. split.
  - unfold all_rows. cbn [ex_beginTuple aggregate]. rewrite Ep. rewrite (bind_ok _ _ _ _ _ (bind_ok _ _ _ _ _ Eb)).
    destruct k as [|k]; [lia|]. cbn [rows_from ex_is_end ex_Next ex_nextTuple aggregate]. rewrite (lift_ok _ _ _ _ Hend1).
    rewrite (bind_ok _ _ _ _ _ Enext). destruct k; cbn [rows_from ex_is_end aggregate]; cbn; unfold mbind, M_bind, mret, M_ret, lift; by rewrite Hend2.
  - exists r. split_and!; [done|done|]. apply Hv. rewrite Hfn. unfold starts_null.
    destruct l; [|by rewrite andb_false_r]. destruct f; done.
Qed.
End laws.

(** *** Examples *)
Definition demo_child : Rows.t :=
  Rows.mk 4 [mkColMeta "t" "a" TYPE_INT 4 0 false; mkColMeta "t" "s" TYPE_STRING 2 4 false]
    [le_encode 4 7 ++ [97; 0]; le_encode 4 3 ++ [98; 0]; le_encode 4 5 ++ [99; 0]] 0.
Definition of_col (f : Func) (c : string) : TabCol := mkTabCol "t" c f "" false.

(** [select max(a)]. *)
Lemma aggregate_of_ints_witness :
  exists e, make (S:=unit) [] demo_child [of_col FUNC_MAX "a"] = Ok e /\
    exists s' e' out, all_rows (H:=aggregate [] 3) 1 e tt = (s', Ok (e', row <$> out)) /\
      exists x, out = [x] /\ length x = 4%nat /\ load_i32 x 0 = agg FUNC_MAX (ints_at 0 (Rows.rows demo_child)).
Proof.
  eexists. split; [reflexivity|].
  apply (aggregate_of_ints [] tt demo_child (of_col FUNC_MAX "a") _ 0%nat (mkColMeta "t" "a" TYPE_INT 4 0 false)
    (Rows.rows demo_child) 3 1); try done.
  - repeat constructor; cbn; lia.
  - intros k. do 4 (destruct k as [|k]; [vm_compute; by split|]). vm_compute. by split.
Defined.

(** Every result is moved to the start of the row: [select max(a), min(a)] gives the least
    value as the greatest and what is not initialised as the least. *)
Lemma results_overlap :
  exists e e', make (S:=unit) [1; 2; 3; 4; 5; 6; 7; 8] demo_child [of_col FUNC_MAX "a"; of_col FUNC_MIN "a"] = Ok e /\
    all_rows (H:=aggregate [1; 2; 3; 4; 5; 6; 7; 8] 3) 1 e tt = (tt, Ok (e', [row (le_encode 4 3 ++ [5; 6; 7; 8])])).
Proof. eexists _, _. split; [reflexivity|vm_compute; reflexivity]. Qed.

(** A count of a column of less than four characters writes past its result, and a count of
    a [BIGINT] through a pointer that is not initialised. *)
Lemma count_overruns junk :
  new_function junk FUNC_COUNT TYPE_STRING 2 = Throw Stuck /\ new_function junk FUNC_COUNT TYPE_BIGINT 8 = Throw Stuck.
Proof.
  split; [|reflexivity]. unfold new_function, fresh, put_word. cbn [Z.ltb Z.compare mbind res_bind fn_result].
  replace (Filter.readable 4 _) with false; [done|]. symmetry. apply Nat.leb_gt. rewrite length_take. lia.
Qed.
End Aggregate.
