(* ===== verification/Scan.v ===== *)
(** * Scans of tables

    [execution/executor_seq_scan.h]: the executor that enumerates the records of a table
    which satisfy its conditions, over the system manager, and what its reads leave of the
    database as it was. *)

From stdpp Require Import sorting.
From S2P Require Import Prelude Common Posix Replacer Disk Buffer RmDefs Log Transaction Record SmMeta IxDefs IxNode IxHandle IxManager SmManager Values Filter Executor Join.

(** ** Reads of a table *)
Module Reads.
Import RmFileHandle RmPage RmScan.
Section reads.
Context {D R C : Type} `{DiskLaws D} `{!Files D} `{ReplacerLaws R} `{TxnContext C}.
Abbreviation handle := (RmFileHandle.t D R C).
#[local] Abbreviation pool := (BufferPool.t D R).
Implicit Types (s : handle) (pl : pool).

(** What reading pages does to the pool: pages move, their contents stay. *)
Record reads pl pl' : Prop := {
  re_wf : BufferPool.wf pl';
  re_view q x : dk_valid (BufferPool.disk_manager_ pl) q -> BufferPool.view pl q = Some x -> BufferPool.view pl' q = Some x;
  re_pins q : BufferPool.pins pl' q = BufferPool.pins pl q;
  re_valid q : dk_valid (BufferPool.disk_manager_ pl') q <-> dk_valid (BufferPool.disk_manager_ pl) q;
  re_next g : dk_next (BufferPool.disk_manager_ pl') g = dk_next (BufferPool.disk_manager_ pl) g;
}.

Lemma reads_refl pl : BufferPool.wf pl -> reads pl pl.
Proof. intros Hw. by split. Qed.
Lemma reads_trans pl1 pl2 pl3 : reads pl1 pl2 -> reads pl2 pl3 -> reads pl1 pl3.
Proof.
  intros [A1 A2 A3 A4 A5] [B1 B2 B3 B4 B5]. split; [done| | | |].
  - intros q x Hv Hx. apply B2; [by apply A4|auto].
  - intros q. by rewrite B3.
  - intros q. by rewrite B4.
  - intros g. by rewrite B5.
Qed.

(** The tables of all files are as they were. *)
Lemma reads_ok s s' : fd_ s' = fd_ s -> file_hdr_ s' = file_hdr_ s -> reads (bpm s) (bpm s') -> ok s ->
  ok s' /\ forall rid, table s' rid = table s rid.
Proof.
  intros Hf Hh [R1 R2 R3 R4 R5] (pg & [S1 S2 S3 S4] & Ht).
  assert (Hs' : shows s' pg).
  { split; [done|by rewrite R5, Hf, Hh| |].
    - intros p Hp. apply R4. unfold page_of. rewrite Hf. by apply S3.
    - intros p Hp. rewrite Hh in Hp. unfold page_of. rewrite Hf. apply R2; [|by apply S4].
      apply S3. destruct Hp. unfold RM_FIRST_RECORD_PAGE in *. lia. }
  split; [exists pg; split; [done|by rewrite Hh]|].
  intros rid. rewrite (table_shows s' pg), (table_shows s pg), Hh by done. done.
Qed.

(** A page is fetched and unpinned. *)
Lemma read_page s pg p s1 f : shows s pg -> in_file (file_hdr_ s) p -> fetch_page_handle p s = (s1, Ok f) ->
  exists pl, s1 = set_pool pl s /\ on_pool (BufferPool.get_data f) s1 = (s1, Ok (pg p)) /\
    exists pl', unpin p false s1 = (set_pool pl' s, Ok tt) /\ reads (bpm s) pl'.
Proof.
  intros [Hw Hn Hv Hs] Hp Hr. unfold fetch_page_handle in Hr.
  rewrite (bind_ok _ _ s s (fd_ s)) in Hr by done. apply bind_inv in Hr as (s2 & o & Hf & Hr).
  apply on_pool_inv in Hf as (pl & Hf & ->). destruct o as [f'|]; [|done].
  unfold mret, M_ret in Hr. injection Hr as <- ->. fold (page_of s p) in Hf.
  assert (Hvp : dk_valid (BufferPool.disk_manager_ (bpm s)) (page_of s p))
    by (apply Hv; unfold in_file, RM_FIRST_RECORD_PAGE in Hp; lia).
  apply BufferPool.fetch_held in Hf as (x & Hh & Hx & Hpin & Hk & Hu & Hnx); [|done|done|cbn; rewrite Hn; by destruct Hp].
  specialize (Hx _ (Hs _ Hp)). subst x. exists pl. split; [done|]. split.
  { rewrite (on_pool_ok _ (set_pool pl s) pl (pg p)) by (by eapply BufferPool.held_get). done. }
  destruct (BufferPool.held_unpin _ _ _ _ false Hh (fun _ => Hu)) as (pl' & Hun & Hw' & Hv' & Hp' & Hk' & Hd).
  exists pl'. split.
  { unfold unpin. rewrite (bind_ok _ _ (set_pool pl s) (set_pool pl s) (fd_ s)) by done.
    by rewrite (bind_ok _ _ _ _ _ (on_pool_ok _ (set_pool pl s) pl' true Hun)). }
  pose proof (BufferPool.keeps_trans _ _ _ _ Hk Hk') as [K1 K2 K3 K4]. split; [done| | |done|].
  - intros q x Hq Hx. destruct (decide (q = page_of s p)) as [->|Hne]; [|by apply K2].
    rewrite (Hs _ Hp) in Hx. by injection Hx as <-.
  - intros q. destruct (decide (q = page_of s p)) as [->|Hne]; [lia|by apply K1].
  - intros g. by rewrite Hd.
Qed.

Lemma record_length s rid d : ok s -> table s rid = Some d -> Z.of_nat (length d) = record_size (file_hdr_ s).
Proof.
  intros (pg & Hs & Ht) Hd. destruct (table_in _ _ _ _ Hs Hd) as (Hin & Hsl & _ & ->).
  pose proof (to_hdr _ _ Ht) as [Q1 Q2 Q3 _]. pose proof (slot_bounds (file_hdr_ s) (to_hdr _ _ Ht) _ Hsl).
  destruct (to_page _ _ Ht _ Hin) as [Hlen _]. pose proof page_size_4096. unfold PAGE_SIZE in *.
  unfold read_slot. rewrite length_mem_read, Hlen. lia.
Qed.

Lemma get_record_reads s s' rid r d : ok s -> table s rid = Some d -> get_record rid false s = (s', Ok r) ->
  exists pl, s' = set_pool pl s /\ reads (bpm s) pl /\ r = row d.
Proof.
  intros Hok Hd Hr. pose proof (record_length _ _ _ Hok Hd) as Hlen. destruct Hok as (pg & Hs & Ht). destruct (table_in _ _ _ _ Hs Hd) as (Hin & Hsl & Hset & ->).
  unfold get_record in Hr. rewrite (bind_ok _ _ s s tt) in Hr by done.
  apply bind_inv in Hr as (s1 & f & Hf & Hr).
  destruct (read_page _ _ _ _ _ Hs Hin Hf) as (pl & -> & Hget & pl' & Hun & Hre).
  rewrite (bind_ok _ _ _ _ _ (check_slot_ok (set_pool pl s) _ (to_hdr _ _ Ht) Hsl)) in Hr.
  rewrite (bind_ok _ _ _ _ _ Hget) in Hr. rewrite (bind_ok _ _ _ (set_pool pl s) (file_hdr_ s)) in Hr by done.
  rewrite (bind_ok _ _ _ _ _ Hun) in Hr. unfold mret, M_ret in Hr. injection Hr as <- <-.
  exists pl'. split_and!; [done|done|]. cbn [file_hdr_ set_pool] in *. unfold RmRecord_new, row.
  rewrite Hlen, take_ge by lia. done.
Qed.

Lemma next_page_reads s s' rid r : ok s -> in_file (file_hdr_ s) (rid_page_no rid) -> next_page rid s = (s', Ok r) ->
  exists pl, s' = set_pool pl s /\ reads (bpm s) pl.
Proof.
  intros (pg & Hs & Ht) Hin Hr. unfold next_page in Hr. apply bind_inv in Hr as (s1 & f & Hf & Hr).
  destruct (read_page _ _ _ _ _ Hs Hin Hf) as (pl & -> & Hget & pl' & Hun & Hre).
  rewrite (bind_ok _ _ _ _ _ Hget) in Hr. rewrite (bind_ok _ _ _ (set_pool pl s) (file_hdr_ s)) in Hr by done.
  rewrite (bind_ok _ _ _ _ _ Hun) in Hr. exists pl'.
  destruct (_ <? _); unfold mret, M_ret in Hr; injection Hr as <- _; done.
Qed.

Lemma next_loop_reads fuel : forall s s' rid rid', ok s -> RM_FIRST_RECORD_PAGE <= rid_page_no rid ->
  next_loop fuel rid s = (s', Ok rid') -> exists pl, s' = set_pool pl s /\ reads (bpm s) pl.
Proof.
  induction fuel as [|fuel IH]; intros s s' rid rid' Hok Hp Hr; simpl in Hr;
    rewrite (bind_ok _ _ s s (file_hdr_ s)) in Hr by done;
    destruct (Z.ltb_spec (rid_page_no rid) (num_pages (file_hdr_ s))) as [E|E]; try done;
    try (unfold mret, M_ret in Hr; injection Hr as <- _; exists (bpm s); split; [by destruct s|];
         apply reads_refl; by destruct Hok as (pg & [? _ _ _] & _)).
  apply bind_inv in Hr as (s1 & r & Hn & Hr).
  destruct (next_page_reads _ _ _ _ Hok (conj Hp E) Hn) as (pl & -> & Hre).
  destruct r as [r|r]; [unfold mret, M_ret in Hr; injection Hr as <- _; by exists pl|].
  destruct (next_page_hdr _ _ _ _ Hn) as [_ Hpg]. specialize (Hpg _ eq_refl).
  destruct (reads_ok s (set_pool pl s) eq_refl eq_refl Hre Hok) as [Hok1 _].
  assert (Hp' : RM_FIRST_RECORD_PAGE <= rid_page_no r) by lia.
  destruct (IH _ _ _ _ Hok1 Hp' Hr) as (pl' & -> & Hre'). exists pl'. split; [done|]. by eapply reads_trans.
Qed.

Lemma next_reads s s' rid rid' : ok s -> RM_FIRST_RECORD_PAGE <= rid_page_no rid -> next rid s = (s', Ok rid') ->
  exists pl, s' = set_pool pl s /\ reads (bpm s) pl.
Proof.
  intros Hok Hp Hr. unfold next in Hr. rewrite (bind_ok _ _ s s (file_hdr_ s)) in Hr by done. by eapply next_loop_reads.
Qed.
End reads.

(** *** The records after another, in their order *)
Definition after (m : Rid -> option bytes) (a : Rid) (l : list (Rid * bytes)) : Prop :=
  StronglySorted (fun x y => rid_lt x.1 y.1) l /\ forall r d, (r, d) ∈ l <-> m r = Some d /\ rid_lt a r.

Lemma after_ext m m' a l : (forall r, m' r = m r) -> after m a l -> after m' a l.
Proof. intros Hm [Hs Hl]. split; [done|]. intros r d. by rewrite Hm. Qed.

Lemma rid_lt_trans a b c : rid_lt a b -> rid_lt b c -> rid_lt a c.
Proof. unfold rid_lt. lia. Qed.

Lemma after_follows m a b l : (forall r, is_Some (m r) -> rid_page_no r <> RM_NO_PAGE) ->
  after m a l -> follows m a b ->
  if is_end b then l = [] else exists d l', l = (b, d) :: l' /\ m b = Some d /\ after m b l'.
Proof.
  intros Hpos [Hs Hl] Hf. assert (Hnil : (forall r, rid_lt a r -> m r = None) -> l = []).
  { intros Hn. destruct l as [|[r d] l]; [done|]. destruct (proj1 (Hl r d)) as [Hm Hlt]; [set_solver|]. by rewrite Hn in Hm. }
  unfold is_end. destruct Hf as [[E Hn]|(Hlt & [d Hd] & Hgap)].
  { rewrite bool_decide_true by done. auto. }
  rewrite bool_decide_false by (apply Hpos; eauto). exists d.
  destruct l as [|[r d'] l]; [assert (Hb : (b, d) ∈ []) by (by apply Hl); set_solver|].
  apply StronglySorted_inv in Hs as [Hs Hr]. rewrite Forall_forall in Hr.
  assert (Eb : r = b).
  { destruct (proj1 (Hl r d')) as [Hm Har]; [set_solver|].
    assert (Hb : (b, d) ∈ (r, d') :: l) by (by apply Hl). apply elem_of_cons in Hb as [Hb|Hb]; [congruence|].
    specialize (Hr _ Hb). cbn in Hr. by rewrite Hgap in Hm. }
  subst r. exists l. destruct (proj1 (Hl b d')) as [Hm _]; [set_solver|]. assert (d' = d) as -> by congruence.
  split_and!; [done|done|]. split; [done|]. intros r e. split.
  - intros Hin. split; [apply (Hl r e); set_solver|apply (Hr _ Hin)].
  - intros [Hm' Hbr]. assert (Hin : (r, e) ∈ (b, d) :: l) by (apply Hl; split; [done|by eapply rid_lt_trans]).
    apply elem_of_cons in Hin as [Hin|Hin]; [|done]. injection Hin as -> ->. unfold rid_lt in Hbr. lia.
Qed.
End Reads.

(** ** The tables of the database *)
Section tables.
Context {D R C : Type} `{DiskLaws D} `{!Files D} `{!Shell D} `{ReplacerLaws R} `{TxnContext C} `{!HasTxn C} `{!StmtContext C}.
#[local] Abbreviation sm := (SmManager.t D R C).
Implicit Types s : sm.

(** The handle of a file, in this state. *)
Definition handle_in s (x : Z * RmFileHdr) : RmFileHandle.t D R C :=
  RmFileHandle.mk x.1 x.2 (SmManager.bpm s) (SmManager.ctx s).
Definition open_ok s (x : Z * RmFileHdr) : Prop := RmFileHandle.ok (handle_in s x).
Definition records s (x : Z * RmFileHdr) : Rid -> option bytes := RmFileHandle.table (handle_in s x).

(** Reading: the metadata, the handles and the tables are as they were. *)
#[export] Program Instance sm_calm : Calm sm := {
  calm s s' := SmManager.db_ s' = SmManager.db_ s /\ SmManager.fhs_ s' = SmManager.fhs_ s /\ SmManager.ihs_ s' = SmManager.ihs_ s /\
    forall x, open_ok s x -> open_ok s' x /\ forall rid, records s' x rid = records s x rid;
}.
Next Obligation. intros s. by split_and!. Qed.
Next Obligation.
  intros s1 s2 s3 (A1 & A2 & A3 & A4) (B1 & B2 & B3 & B4). split_and!; [congruence..|].
  intros x Hx. destruct (A4 x Hx) as [Hx2 T2]. destruct (B4 x Hx2) as [Hx3 T3]. split; [done|]. intros rid. by rewrite T3.
Qed.

(** An operation on a table that only reads. *)
Lemma on_table_reads {A} name (m : M (RmFileHandle.t D R C) A) s s' x a :
  SmManager.fhs_ s !! name = Some x -> SmManager.on_table name m s = (s', Ok a) ->
  (forall h', m (handle_in s x) = (h', Ok a) -> RmFileHandle.fd_ h' = x.1 /\ RmFileHandle.file_hdr_ h' = x.2 /\
     Reads.reads (SmManager.bpm s) (RmFileHandle.bpm h')) ->
  calm s s' /\ exists h', m (handle_in s x) = (h', Ok a).
Proof.
  intros Hx Hr Hm. unfold SmManager.on_table in Hr. destruct x as [f h]. rewrite Hx in Hr. unfold handle_in in *. cbn [fst snd] in *.
  destruct (m _) as [h' r] eqn:E. injection Hr as <- ->. destruct (Hm _ eq_refl) as (Hf & Hh & Hre).
  split; [|by exists h']. cbn. rewrite Hf, Hh. split_and!; [done|by rewrite insert_id|done|].
  intros y Hy. apply (Reads.reads_ok (handle_in s y)); done.
Qed.

(** [get_record] with the context of the statement: the record is locked first. *)
Lemma get_record_locked rid h h' r : RmFileHandle.get_record rid true h = (h', Ok r) ->
  exists c, RmFileHandle.get_record rid false (RmFileHandle.set_ctx c h) = (h', Ok r).
Proof.
  intros Hr. unfold RmFileHandle.get_record in Hr |- *. apply bind_inv in Hr as (h1 & [] & Hl & Hr).
  unfold RmFileHandle.lock_record in Hl. rewrite (bind_ok _ _ h h (RmFileHandle.fd_ h)) in Hl by done.
  apply bind_inv in Hl as (h2 & b & Hc & Hl). unfold RmFileHandle.on_ctx, zoom in Hc.
  destruct (cx_lock_shared_on_record _ _ _) as [c r0] eqn:E. injection Hc as <- ->.
  destruct b; [|apply bind_inv in Hl as (? & ? & _ & Hl); done]. unfold mret, M_ret in Hl. injection Hl as <-. by exists c.
Qed.

Lemma get_reads s s' name x rid r d : SmManager.fhs_ s !! name = Some x -> open_ok s x -> records s x rid = Some d ->
  SmManager.on_table name (RmFileHandle.get_record rid true) s = (s', Ok r) -> calm s s' /\ r = row d.
Proof.
  intros Hx Hok Hd Hr.
  assert (Hm : forall h', RmFileHandle.get_record rid true (handle_in s x) = (h', Ok r) ->
    (RmFileHandle.fd_ h' = x.1 /\ RmFileHandle.file_hdr_ h' = x.2 /\ Reads.reads (SmManager.bpm s) (RmFileHandle.bpm h')) /\ r = row d).
  { intros h' Hg. destruct (get_record_locked _ _ _ _ Hg) as (c & Hg').
    destruct (Reads.reads_ok (handle_in s x) (RmFileHandle.set_ctx c (handle_in s x)) eq_refl eq_refl) as [Hok' Ht]; [|done|].
    { apply Reads.reads_refl. by destruct Hok as (pg & [? _ _ _] & _). }
    destruct (Reads.get_record_reads _ _ _ _ d Hok' ltac:(rewrite Ht; exact Hd) Hg') as (pl & -> & Hre & ->). done. }
  destruct (on_table_reads _ _ _ _ _ _ Hx Hr (fun h' E => proj1 (Hm h' E))) as [Hc (h' & Hh')].
  split; [done|by eapply Hm].
Qed.

Lemma next_reads_sm s s' name x rid rid' : SmManager.fhs_ s !! name = Some x -> open_ok s x ->
  RM_FIRST_RECORD_PAGE <= rid_page_no rid -> -1 <= rid_slot_no rid ->
  SmManager.on_table name (RmScan.next rid) s = (s', Ok rid') -> calm s s' /\ RmScan.follows (records s x) rid rid'.
Proof.
  intros Hx Hok Hp Hs Hr.
  destruct (on_table_reads _ _ _ _ _ _ Hx Hr) as [Hc (h' & Hh')].
  - intros h' Hn. destruct (Reads.next_reads _ _ _ _ Hok Hp Hn) as (pl & -> & Hre). done.
  - split; [done|]. by destruct (RmScan.next_ok _ _ _ _ Hok Hp Hs Hh') as [_ Hf].
Qed.

(** The records of a table are not at its end, and are found by a scan. *)
Lemma records_bounds s x rid : open_ok s x -> is_Some (records s x rid) ->
  RM_FIRST_RECORD_PAGE <= rid_page_no rid /\ 0 <= rid_slot_no rid.
Proof. intros Hok Hr. destruct (RmScan.table_bounds _ _ Hok Hr). lia. Qed.
End tables.

(** ** [SeqScanExecutor] *)
Module SeqScan.

Record t := mk {
  tab_name_ : string;
  cols_ : list ColMeta;
  len_ : Z;
  fed_conds_ : list Condition;
  rid_ : Rid;
  scan_ : option Rid;
}.
Definition at_rid (rid : Rid) (e : t) : t := mk (tab_name_ e) (cols_ e) (len_ e) (fed_conds_ e) rid (scan_ e).
Definition at_scan (scan : Rid) (e : t) : t := mk (tab_name_ e) (cols_ e) (len_ e) (fed_conds_ e) (rid_ e) (Some scan).

Section ops.
Context {D R C : Type} `{Disk D} `{!Files D} `{!Shell D} `{Replacer R} `{TxnContext C} `{!HasTxn C} `{!StmtContext C}.
#[local] Abbreviation sm := (SmManager.t D R C).

(** [context->lock_mgr_->lock_shared_on_table]. *)
Definition lock_shared (fd : Z) : M sm unit :=
  b ← SmManager.on_ctx (cx_lock_shared_on_table fd);
  if b : bool then mret tt
  else c ← gets SmManager.ctx; throw (TransactionAbortException (cx_txn_id c) DEADLOCK_PREVENTION).

(** The columns of the table and the length of its records; [back()] of no columns is not
    followed. *)
Definition tab_len (cols : list ColMeta) : res Z :=
  match last cols with Some c => Ok (u64 (i32 (cm_offset c + cm_len c))) | None => Throw Stuck end.

Definition make (junk : Rid) (tab_name : string) (conds : list Condition) : M sm t :=
  d ← gets SmManager.db_;
  tab ← lift (get_table d tab_name);
  x ← SmManager.find_table tab_name;
  len ← lift (tab_len (tm_cols tab));
  lock_shared x.1;;
  mret (mk tab_name (tm_cols tab) len conds junk None).

(** The loop of [beginTuple] and of [nextTuple]: up to the first record that satisfies the
    conditions. *)
Fixpoint search (fuel : nat) (e : t) (scan : Rid) : M sm t :=
  if RmScan.is_end scan then mret (at_scan scan e) else
  match fuel with
  | O => throw OutOfFuel
  | S fuel' =>
      let e := at_rid scan e in
      rec ← SmManager.on_table (tab_name_ e) (RmFileHandle.get_record (rid_ e) true);
      b ← lift (Filter.filter (fed_conds_ e) (cols_ e) rec);
      if b : bool then mret (at_scan scan e) else
      scan ← SmManager.on_table (tab_name_ e) (RmScan.next scan);
      search fuel' e scan
  end.
(** As many turns as there are slots in the file are enough. *)
Definition bound (e : t) : M sm nat := x ← SmManager.find_table (tab_name_ e); mret (RmScan.scan_bound x.2).

Definition beginTuple (e : t) : M sm t :=
  scan ← SmManager.on_table (tab_name_ e) RmScan.start;
  n ← bound e;
  search n e scan.
Definition nextTuple (e : t) : M sm t :=
  match scan_ e with
  | None => throw Stuck
  | Some scan =>
      if RmScan.is_end scan then mret e else
      scan ← SmManager.on_table (tab_name_ e) (RmScan.next scan);
      n ← bound e;
      search n e scan
  end.
Definition Next (e : t) : M sm (t * option RmRecord) :=
  rec ← SmManager.on_table (tab_name_ e) (RmFileHandle.get_record (rid_ e) true); mret (e, Some rec).
Definition is_end (e : t) : res bool := match scan_ e with Some scan => Ok (RmScan.is_end scan) | None => Throw Stuck end.

#[export] Instance seq_scan : AbstractExecutor sm t := {
  ex_tupleLen e := Ok (len_ e);
  ex_cols := cols_;
  ex_beginTuple := beginTuple;
  ex_nextTuple := nextTuple;
  ex_is_end := is_end;
  ex_Next := Next;
}.
End ops.

(** *** What a scan enumerates *)
Section laws.
Context {D R C : Type} `{DiskLaws D} `{!Files D} `{!Shell D} `{ReplacerLaws R} `{TxnContext C} `{!HasTxn C} `{!StmtContext C}.
#[local] Abbreviation sm := (SmManager.t D R C).
Implicit Types (s : sm) (e : t).

(** The rows among some records that satisfy the conditions. *)
Definition selected e (l : list (Rid * bytes)) : list bytes := filter (keeps_row (fed_conds_ e) (cols_ e)) l.*2.

(** The table of the executor is open. *)
Definition scans s e (x : Z * RmFileHdr) : Prop := SmManager.fhs_ s !! tab_name_ e = Some x /\ open_ok s x.
(** The scan is at a record, [l] are the records that follow it; or it is at the end. *)
Definition scan_at s e (x : Z * RmFileHdr) (r : list bytes) : Prop :=
  scans s e x /\ exists scan, scan_ e = Some scan /\
    if RmScan.is_end scan then r = []
    else rid_ e = scan /\ exists d l, records s x scan = Some d /\ Reads.after (records s x) scan l /\ r = d :: selected e l.

Lemma scans_calm s s' e x : calm s s' -> scans s e x -> scans s' e x.
Proof. intros (_ & Hf & _ & Ht) [Hx Hok]. split; [by rewrite Hf|by apply Ht]. Qed.

Lemma scan_at_calm s s' e x r : calm s s' -> scan_at s e x r -> scan_at s' e x r.
Proof.
  intros Hc [Hs (scan & Hsc & Hr)]. split; [by eapply scans_calm|]. exists scan. split; [done|].
  destruct Hc as (_ & _ & _ & Ht). destruct (Ht x (proj2 Hs)) as [_ Htab].
  destruct (RmScan.is_end scan); [done|]. destruct Hr as (Hrid & d & l & Hd & Ha & ->). split; [done|]. exists d, l.
  split_and!; [by rewrite Htab|by eapply Reads.after_ext|done].
Qed.

Lemma bound_run e s x : scans s e x -> bound e s = (s, Ok (RmScan.scan_bound x.2)).
Proof. intros [Hx _]. unfold bound, SmManager.find_table, mbind, M_bind, get. by rewrite Hx. Qed.

Lemma records_page s x : open_ok s x -> forall r, is_Some (records s x r) -> rid_page_no r <> RM_NO_PAGE.
Proof. intros Hok r Hr. destruct (records_bounds s x r Hok Hr). unfold RM_FIRST_RECORD_PAGE, RM_NO_PAGE in *. lia. Qed.

(** From a record, or the end, on. *)
Definition from (m : Rid -> option bytes) (scan : Rid) (l : list (Rid * bytes)) : Prop :=
  if RmScan.is_end scan then l = [] else exists d l', l = (scan, d) :: l' /\ m scan = Some d /\ Reads.after m scan l'.

Lemma from_ext m m' scan l : (forall r, m' r = m r) -> from m scan l -> from m' scan l.
Proof.
  intros Hm. unfold from. destruct (RmScan.is_end scan); [done|]. intros (d & l' & -> & Hd & Ha). exists d, l'.
  split_and!; [done|by rewrite Hm|by eapply Reads.after_ext].
Qed.

Lemma next_from s s' e x rid l scan : scans s e x -> RM_FIRST_RECORD_PAGE <= rid_page_no rid -> -1 <= rid_slot_no rid ->
  Reads.after (records s x) rid l -> SmManager.on_table (tab_name_ e) (RmScan.next rid) s = (s', Ok scan) ->
  calm s s' /\ from (records s' x) scan l.
Proof.
  intros [Hx Hok] Hp Hsl Ha Hn. destruct (next_reads_sm _ _ _ _ _ _ Hx Hok Hp Hsl Hn) as [Hc Hf]. split; [done|].
  apply (from_ext (records s x)). { by destruct Hc as (_ & _ & _ & Ht); apply Ht. }
  pose proof (Reads.after_follows _ _ _ _ (records_page s x Hok) Ha Hf). done.
Qed.

Lemma search_ok fuel : forall s s' e e' x l scan, scans s e x -> from (records s x) scan l ->
  search fuel e scan s = (s', Ok e') ->
  calm s s' /\ scan_at s' e' x (selected e l) /\ tab_name_ e' = tab_name_ e /\ cols_ e' = cols_ e /\ fed_conds_ e' = fed_conds_ e.
Proof.
  induction fuel as [|fuel IH]; intros s s' e e' x l scan Hs Hfr Hr; cbn [search] in Hr; unfold from in Hfr;
    destruct (RmScan.is_end scan) eqn:E; try done;
    try (unfold mret, M_ret in Hr; injection Hr as <- <-; subst l; split; [apply calm_refl|]; split; [|done];
         split; [done|]; exists scan; split; [done|]; by rewrite E).
  destruct Hfr as (d & l' & -> & Hd & Ha). cbn [tab_name_ at_rid rid_ fed_conds_ cols_] in Hr.
  apply bind_inv in Hr as (s1 & rec & Hg & Hr). destruct Hs as [Hx Hok].
  destruct (get_reads _ _ _ _ _ _ _ Hx Hok Hd Hg) as [Hc ->].
  apply bind_inv in Hr as (s2 & b & Hf & Hr). unfold lift in Hf. injection Hf as <- Hf.
  unfold selected. cbn [fmap list_fmap snd]. rewrite filter_cons. destruct b.
  - rewrite decide_True by (exact Hf). unfold mret, M_ret in Hr. injection Hr as <- <-. split; [done|]. split; [|done].
    split; [by apply (scans_calm s)|]. exists scan. split; [done|]. rewrite E. split; [done|]. exists d, l'.
    destruct Hc as (_ & _ & _ & Ht). destruct (Ht x Hok) as [_ Htab].
    split_and!; [by rewrite Htab|by eapply Reads.after_ext|done].
  - rewrite decide_False by (unfold keeps_row; congruence). apply bind_inv in Hr as (s3 & scan' & Hn & Hr).
    destruct (records_bounds s x scan Hok ltac:(by exists d)) as [Hp Hsl].
    pose proof (scans_calm _ _ e x Hc (conj Hx Hok)) as Hs1.
    destruct (next_from s1 s3 e x scan l' scan' Hs1 Hp ltac:(lia)) as [Hc3 Hfr'].
    { destruct Hc as (_ & _ & _ & Ht). eapply Reads.after_ext; [|exact Ha]. by apply Ht. }
    { exact Hn. }
    destruct (IH _ _ (at_rid scan e) e' x l' scan' (scans_calm _ _ e x Hc3 Hs1) Hfr' Hr) as (Hc4 & Hat & Hrest).
    split; [eapply calm_trans; [exact Hc|by eapply calm_trans]|]. split; [exact Hat|exact Hrest].
Qed.

Lemma search_cols fuel : forall s s' e e' scan, search fuel e scan s = (s', Ok e') -> cols_ e' = cols_ e.
Proof.
  induction fuel as [|fuel IH]; intros s s' e e' scan Hr; cbn [search] in Hr;
    (destruct (RmScan.is_end scan); [by injection Hr as <- <-|]); [done|].
  apply bind_inv in Hr as (s1 & rec & _ & Hr). apply bind_inv in Hr as (s2 & [] & _ & Hr); [by injection Hr as <- <-|].
  apply bind_inv in Hr as (s3 & scan' & _ & Hr). by apply IH in Hr.
Qed.

Definition start_rid : Rid := mkRid RM_FIRST_RECORD_PAGE (-1).

(** All records of a table, in their order. *)
Definition all_of (m : Rid -> option bytes) (l : list (Rid * bytes)) : Prop := Reads.after m start_rid l.

#[export] Program Instance seq_scan_enumerates : Enumerates sm t := {
  en_ready s e l := exists x L, scans s e x /\ all_of (records s x) L /\ l = selected e L;
  en_at s e l r := exists x L, scan_at s e x r /\ all_of (records s x) L /\ l = selected e L;
  en_taken s e l r := exists x L d, scan_at s e x (d :: r) /\ all_of (records s x) L /\ l = selected e L;
}.
Next Obligation.
  intros s s' e l Hc (x & L & Hs & Ha & ->). exists x, L. split_and!; [by eapply scans_calm| |done].
  destruct Hc as (_ & _ & _ & Ht). eapply Reads.after_ext; [|exact Ha]. by apply Ht, Hs.
Qed.
Next Obligation.
  intros s s' e l r Hc (x & L & Hs & Ha & ->). exists x, L. split_and!; [by eapply scan_at_calm| |done].
  destruct Hc as (_ & _ & _ & Ht). eapply Reads.after_ext; [|exact Ha]. by apply Ht, Hs.
Qed.
Next Obligation.
  intros s s' e l r Hc (x & L & d & Hs & Ha & ->). exists x, L, d. split_and!; [by eapply scan_at_calm| |done].
  destruct Hc as (_ & _ & _ & Ht). eapply Reads.after_ext; [|exact Ha]. by apply Ht, Hs.
Qed.
Next Obligation.
  intros s s' e e' l (x & L & Hs & Ha & ->) Hb. cbn in Hb. unfold beginTuple in Hb. apply bind_inv in Hb as (s1 & scan & Hn & Hb).
  destruct (next_from s s1 e x start_rid L scan Hs) as [C1 Hf]; [done|done|exact Ha|exact Hn|].
  pose proof (scans_calm _ _ _ _ C1 Hs) as Hs1. rewrite (bind_ok _ _ _ _ _ (bound_run _ _ _ Hs1)) in Hb.
  destruct (search_ok _ _ _ _ _ _ _ _ Hs1 Hf Hb) as (C2 & Hat & _ & Ec & Ef).
  split; [by eapply calm_trans|]. exists x, L. split; [done|]. unfold selected. rewrite Ec, Ef. split; [|done].
  destruct (calm_trans _ _ _ C1 C2) as (_ & _ & _ & Ht). eapply Reads.after_ext; [|exact Ha]. by apply Ht, Hs.
Qed.
Next Obligation.
  intros s e l r (x & L & (Hs & scan & Hsc & Hr) & _). cbn. unfold is_end. rewrite Hsc. f_equal.
  destruct (RmScan.is_end scan); [by subst r|]. destruct Hr as (_ & d & l' & _ & _ & ->). done.
Qed.
Next Obligation.
  intros s s' e e' l y r o (x & L & Hat & Ha & ->) Hn. cbn in Hn. unfold Next in Hn. apply bind_inv in Hn as (s1 & rec & Hg & Hn).
  unfold mret, M_ret in Hn. injection Hn as <- <- <-. pose proof Hat as ([Hx Hok] & scan & Hsc & Hr).
  destruct (RmScan.is_end scan) eqn:E; [done|]. destruct Hr as (Hrid & d & l' & Hd & Haf & Er). injection Er as -> ->.
  rewrite Hrid in Hg. destruct (get_reads _ _ _ _ _ _ _ Hx Hok Hd Hg) as [Hc ->]. split_and!; [done|done|].
  exists x, L, d. split_and!; [by eapply scan_at_calm| |done].
  destruct Hc as (_ & _ & _ & Ht). eapply Reads.after_ext; [|exact Ha]. by apply Ht.
Qed.
Next Obligation.
  intros s e l r (x & L & d & (Hs & scan & Hsc & Hr) & _). cbn. unfold is_end. rewrite Hsc. f_equal.
  by destruct (RmScan.is_end scan).
Qed.
Next Obligation.
  intros s s' e e' l r (x & L & d & (Hs & scan & Hsc & Hr) & Ha & ->) Hn. cbn in Hn. unfold nextTuple in Hn. rewrite Hsc in Hn.
  destruct (RmScan.is_end scan) eqn:E; [done|]. destruct Hr as (Hrid & d' & l' & Hd & Haf & Er). injection Er as _ ->.
  apply bind_inv in Hn as (s1 & scan' & Hnx & Hn). destruct (records_bounds s x scan (proj2 Hs) ltac:(by exists d')) as [Hp Hsl].
  destruct (next_from _ _ _ _ _ _ _ Hs Hp ltac:(lia) Haf Hnx) as [C1 Hf].
  pose proof (scans_calm _ _ _ _ C1 Hs) as Hs1. rewrite (bind_ok _ _ _ _ _ (bound_run _ _ _ Hs1)) in Hn.
  destruct (search_ok _ _ _ _ _ _ _ _ Hs1 Hf Hn) as (C2 & Hat & _ & Ec & Ef).
  split; [by eapply calm_trans|]. exists x, L. split; [done|]. unfold selected. rewrite Ec, Ef. split; [|done].
  destruct (calm_trans _ _ _ C1 C2) as (_ & _ & _ & Ht). eapply Reads.after_ext; [|exact Ha]. by apply Ht, Hs.
Qed.
Next Obligation.
  intros s s' e e' Hb. cbn in Hb |- *. unfold beginTuple in Hb. minv. by eapply search_cols.
Qed.
Next Obligation. intros s s' e e' o Hn. cbn in Hn |- *. unfold Next in Hn. minv. by injection Hn as <- <- <-. Qed.
Next Obligation.
  intros s s' e e' Hn. cbn in Hn |- *. unfold nextTuple in Hn. destruct (scan_ e); [|done].
  destruct (RmScan.is_end r); [by injection Hn as <- <-|]. minv. by eapply search_cols.
Qed.

(** A scan can be started again at any time. *)
#[export] Program Instance seq_scan_restarts : Restarts sm t.
Next Obligation. intros s e l r (x & L & (Hs & _) & Ha & ->). by exists x, L. Qed.
(** *** The records of an open table, listed *)
Fixpoint page_rids (n : Z) (pages : nat) (p : Z) : list Rid :=
  match pages with O => [] | S k => (mkRid p <$> seqZ 0 n) ++ page_rids n k (p + 1) end.

Lemma elem_of_page_rids n k : forall p r, r ∈ page_rids n k p <->
  p <= rid_page_no r < p + Z.of_nat k /\ 0 <= rid_slot_no r < n.
Proof.
  induction k as [|k IH]; intros p r; cbn [page_rids]; [set_unfold; lia|].
  rewrite elem_of_app, list_elem_of_fmap, IH. split.
  - intros [(i & -> & Hi%elem_of_seqZ)|?]; cbn; lia.
  - intros [? ?]. destruct (decide (rid_page_no r = p)); [left|right; lia].
    exists (rid_slot_no r). rewrite elem_of_seqZ. split; [destruct r; cbn in *; by subst|lia].
Qed.

Lemma page_rids_sorted n k : forall p, StronglySorted RmScan.rid_lt (page_rids n k p).
Proof.
  induction k as [|k IH]; intros p; cbn [page_rids]; [constructor|]. apply StronglySorted_app_2; [|clear IH|done].
  - intros r1 r2 H1' H2'. apply list_elem_of_fmap in H1' as (i & -> & _). apply elem_of_page_rids in H2' as [Hp _].
    left. cbn. lia.
  - generalize 0 as a. destruct (decide (0 <= n)) as [Hn|Hn]; [|intros a; unfold seqZ; replace (Z.to_nat n) with 0%nat by lia; constructor].
    pattern n. apply natlike_ind; [|clear n Hn; intros n Hn IH a|done].
    + intros a. constructor.
    + rewrite seqZ_cons by lia. cbn [fmap list_fmap]. rewrite Z.pred_succ. constructor; [apply IH|].
      apply Forall_forall. intros r Hr. apply list_elem_of_fmap in Hr as (i & -> & Hi%elem_of_seqZ). right. cbn. lia.
Qed.

Definition listed (m : Rid -> option bytes) (l : list Rid) : list (Rid * bytes) := omap (fun r => d ← m r; Some (r, d)) l.

Lemma elem_of_listed m l r d : (r, d) ∈ listed m l <-> r ∈ l /\ m r = Some d.
Proof.
  unfold listed. rewrite list_elem_of_omap. split.
  - intros (r' & Hr' & Hd). destruct (m r') eqn:E; [|done]. cbn in Hd. injection Hd as -> ->. done.
  - intros [Hr Hd]. exists r. by rewrite Hd.
Qed.

Lemma listed_sorted m l : StronglySorted RmScan.rid_lt l -> StronglySorted (fun x y => RmScan.rid_lt x.1 y.1) (listed m l).
Proof.
  induction 1 as [|r l Hs IH Hr]; [constructor|]. change (listed m (r :: l)) with (match d ← m r; Some (r, d) with Some y => y :: listed m l | None => listed m l end).
  destruct (m r) as [d|]; [|done]. cbn. constructor; [done|]. apply Forall_forall. intros [r' d'] Hin.
  apply elem_of_listed in Hin as [Hin _]. rewrite Forall_forall in Hr. by apply Hr.
Qed.

Lemma all_listed s x : open_ok s x -> exists L, all_of (records s x) L.
Proof.
  intros Hok. set (l := page_rids (num_records_per_page x.2) (Z.to_nat (num_pages x.2)) 1).
  exists (listed (records s x) l). split; [apply listed_sorted, page_rids_sorted|]. intros r d. rewrite elem_of_listed.
  assert (Hin : records s x r = Some d -> r ∈ l /\ RmScan.rid_lt start_rid r).
  { intros Hd. destruct (RmScan.table_bounds _ _ Hok (mk_is_Some _ _ Hd)) as [Hp Hs]. unfold RM_FIRST_RECORD_PAGE in Hp.
    split; [apply elem_of_page_rids; cbn in Hp, Hs; lia|]. unfold RmScan.rid_lt, start_rid, RM_FIRST_RECORD_PAGE. cbn. lia. }
  naive_solver.
Qed.

(** *** The fuel of the loop is enough *)
Lemma listed_length m l : (length (listed m l) <= length l)%nat.
Proof.
  induction l as [|r l IH]; [done|].
  change (listed m (r :: l)) with (match d ← m r; Some (r, d) with Some y => y :: listed m l | None => listed m l end).
  destruct (m r); cbn; lia.
Qed.

Lemma sorted_length s x L : open_ok s x -> StronglySorted (fun a b => RmScan.rid_lt a.1 b.1) L ->
  (forall r d, (r, d) ∈ L -> records s x r = Some d) -> (length L <= RmScan.scan_bound x.2)%nat.
Proof.
  intros Hok Hs Hl.
  assert (Hnd : NoDup L).
  { clear Hl. induction Hs as [|y L Hs IH Hf]; constructor; [|done]. intros Hin. rewrite Forall_forall in Hf.
    specialize (Hf _ Hin). unfold RmScan.rid_lt in Hf. lia. }
  assert (Hsub : L ⊆+ listed (records s x) (page_rids (num_records_per_page x.2) (Z.to_nat (num_pages x.2 - 1)) 1)).
  { apply NoDup_submseteq; [done|]. intros [r d] Hr. apply Hl in Hr as Hd. apply elem_of_listed. split; [|done].
    destruct (RmScan.table_bounds _ _ Hok (mk_is_Some _ _ Hd)) as [Hp Hs']. apply elem_of_page_rids.
    unfold RM_FIRST_RECORD_PAGE in Hp. cbn in Hp, Hs'. lia. }
  apply submseteq_length in Hsub. etrans; [exact Hsub|]. etrans; [apply listed_length|].
  assert (Hlen : forall k p, length (page_rids (num_records_per_page x.2) k p) = (k * Z.to_nat (num_records_per_page x.2))%nat).
  { induction k as [|k IH]; intros p; [done|]. cbn [page_rids]. rewrite length_app, length_fmap, length_seqZ, IH. lia. }
  rewrite Hlen. unfold RmScan.scan_bound. nia.
Qed.

Lemma from_length s x scan L : open_ok s x -> from (records s x) scan L -> (length L <= RmScan.scan_bound x.2)%nat.
Proof.
  intros Hok Hf. unfold from in Hf. destruct (RmScan.is_end scan); [subst; cbn; lia|]. destruct Hf as (d & l & -> & Hd & [Hs Hin]).
  apply (sorted_length s); [done| |].
  - constructor; [done|]. apply Forall_forall. intros [r e] Hr. by apply Hin in Hr as [_ ?].
  - intros r e [[= -> ->]|Hr]%elem_of_cons; [done|]. by apply Hin in Hr as [? _].
Qed.

Lemma search_fuel fuel : forall s e x l scan fuel', scans s e x -> from (records s x) scan l ->
  (length l <= fuel)%nat -> (fuel <= fuel')%nat -> search fuel' e scan s = search fuel e scan s.
Proof.
  induction fuel as [|fuel IH]; intros s e x l scan fuel' Hs Hfr Hl Hle.
  - destruct l; [|simpl in Hl; lia]. unfold from in Hfr. destruct fuel'; cbn [search]; destruct (RmScan.is_end scan); try done.
    by destruct Hfr as (? & ? & ? & _).
  - destruct fuel' as [|fuel']; [lia|]. cbn [search]. unfold from in Hfr. destruct (RmScan.is_end scan) eqn:E; [done|].
    destruct Hfr as (d & l' & -> & Hd & Ha). apply bind_same. intros s1 rec Hg. cbn [tab_name_ at_rid rid_] in Hg.
    destruct Hs as [Hx Hok]. destruct (get_reads _ _ _ _ _ _ _ Hx Hok Hd Hg) as [Hc ->].
    apply bind_same. intros s2 b Hf. unfold lift in Hf. injection Hf as <- _. destruct b; [done|].
    apply bind_same. intros s3 scan' Hn. destruct (records_bounds s x scan Hok ltac:(by exists d)) as [Hp Hsl].
    pose proof (scans_calm _ _ e x Hc (conj Hx Hok)) as Hs1.
    destruct (next_from s1 s3 e x scan l' scan' Hs1 Hp ltac:(lia)) as [Hc3 Hfr'].
    { destruct Hc as (_ & _ & _ & Ht). eapply Reads.after_ext; [|exact Ha]. by apply Ht. }
    { exact Hn. }
    apply (IH s3 (at_rid scan e) x l'); [by apply (scans_calm s1)|done|simpl in Hl; lia|lia].
Qed.

(** A lock changes the context only. *)
Lemma lock_shared_calm s s' fd x : open_ok s x -> lock_shared fd s = (s', Ok tt) -> calm s s'.
Proof.
  intros Hx Hr. unfold lock_shared in Hr. apply bind_inv in Hr as (s1 & b & Hb & Hr).
  assert (Hs : s1 = s') by (destruct b; [by injection Hr|apply bind_inv in Hr as (? & ? & _ & Hr); done]). subst s1.
  unfold SmManager.on_ctx, zoom in Hb. destruct (cx_lock_shared_on_table fd (SmManager.ctx s)) as [c r]. injection Hb as <- _.
  split_and!; [done..|]. intros y Hy. apply (Reads.reads_ok (handle_in s y)); [done|done| |done].
  apply Reads.reads_refl. by destruct Hy as (pg & [? _ _ _] & _).
Qed.

(** A scan of an open table that could be locked. *)
Lemma make_scans s s' junk name conds e tab x : db_tabs (SmManager.db_ s) !! name = Some tab ->
  SmManager.fhs_ s !! name = Some x -> open_ok s x -> make junk name conds s = (s', Ok e) ->
  calm s s' /\ scans s' e x /\ cols_ e = tm_cols tab /\ fed_conds_ e = conds.
Proof.
  intros Ht Hx Hok Hm. unfold make in Hm. rewrite (bind_ok _ _ s s (SmManager.db_ s)) in Hm by done.
  apply bind_inv in Hm as (s1 & tab' & Hg & Hm). unfold lift, get_table in Hg. rewrite Ht in Hg. injection Hg as <- <-.
  apply bind_inv in Hm as (s1 & x' & Hf & Hm). unfold SmManager.find_table in Hf. rewrite (bind_ok _ _ s s s) in Hf by done.
  rewrite Hx in Hf. injection Hf as <- <-. apply bind_inv in Hm as (s1 & len & Hl & Hm). unfold lift in Hl. injection Hl as <- _.
  apply bind_inv in Hm as (s1 & [] & Hlk & Hm). unfold mret, M_ret in Hm. injection Hm as <- <-.
  pose proof (lock_shared_calm _ _ _ _ Hok Hlk) as Hc. split_and!; try done. apply (scans_calm s); [done|]. by split.
Qed.

(** C29: a scan of an open table that returns gives exactly the records that satisfy the
    conditions, each once and in the order of their identifiers, and leaves every table, the
    metadata and the handles as they were; the bound on the turns of its loops is not what
    ends them. *)
Theorem seq_scan_selects s s' e e' x fuel rows : scans s e x ->
  all_rows fuel e s = (s', Ok (e', rows)) ->
  (exists L, StronglySorted (fun a b => RmScan.rid_lt a.1 b.1) L /\
     (forall r d, (r, d) ∈ L <-> records s x r = Some d) /\ rows = row <$> selected e L) /\
  calm s s' /\
  forall L scan fuel', from (records s x) scan L -> (RmScan.scan_bound x.2 <= fuel')%nat ->
    search fuel' e scan s = search (RmScan.scan_bound x.2) e scan s.
Proof.
  intros Hs Hr. destruct (all_listed s x (proj2 Hs)) as [L HL].
  assert (Hready : en_ready s e (selected e L)) by (by exists x, L).
  destruct (all_rows_ok _ _ _ _ _ _ _ Hready Hr) as (Hc & -> & _). split; [|split; [done|]].
  - exists L. destruct HL as [Hsort Hin]. split_and!; [done| |done]. intros r d. rewrite Hin. split; [by intros [? _]|].
    intros Hd. split; [done|]. destruct (records_bounds s x r (proj2 Hs) (mk_is_Some _ _ Hd)).
    unfold RmScan.rid_lt, start_rid, RM_FIRST_RECORD_PAGE in *. cbn. lia.
  - intros L' scan fuel' Hf Hle. apply (search_fuel _ s e x L'); [done|done|apply (from_length s x scan); [apply Hs|done]|done].
Qed.

Lemma size_nonneg s x : open_ok s x -> 0 <= record_size x.2.
Proof. intros (pg & _ & Ht). pose proof (RmPage.ho_size _ (RmFileHandle.to_hdr _ _ Ht)). cbn in *. lia. Qed.

Lemma selected_width s e x L : open_ok s x -> (forall r d, (r, d) ∈ L -> records s x r = Some d) ->
  Forall (fun y => length y = Z.to_nat (record_size x.2)) (selected e L).
Proof.
  intros Hok Hl. apply Forall_forall. intros y Hy. apply list_elem_of_filter in Hy as [_ Hy].
  apply list_elem_of_fmap in Hy as ([r d] & -> & Hr). apply Hl in Hr. pose proof (Reads.record_length _ _ _ Hok Hr). cbn in *. lia.
Qed.

(** C31: the plan of [select * from t, u where ...]: a join of scans of two open tables gives,
    when it returns, exactly the pairs of a record of the one and a record of the other that
    satisfy all conditions, and leaves the database as it was.  The conditions of the join are
    those on the columns of the first table at their place in its record and the columns of
    the second at their place after it. *)
Theorem join_of_scans s s' (e1 e2 : t) x1 x2 conds (e e' : NestedLoopJoin.t t t) fuel k rows :
  scans s e1 x1 -> scans s e2 x2 ->
  len_ e1 = record_size x1.2 -> len_ e2 = record_size x2.2 -> len_ e1 + len_ e2 < 2 ^ 31 ->
  NestedLoopJoin.offsets_in (Z.to_nat (len_ e2)) (cols_ e2) -> NestedLoopJoin.make e1 e2 conds = Ok e ->
  all_rows (H:=NestedLoopJoin.join fuel) k e s = (s', Ok (e', rows)) ->
  calm s s' /\ exists L1 L2 joined, all_of (records s x1) L1 /\ all_of (records s x2) L2 /\ rows = row <$> joined /\
    joined ≡ₚ NestedLoopJoin.theta_join conds (NestedLoopJoin.joined_cols (Z.to_nat (record_size x1.2)) (cols_ e1) (cols_ e2))
      (selected e1 L1) (selected e2 L2).
Proof.
  intros H1' H2' Hl1 Hl2 Hsm Hoff Hm Hr. destruct (all_listed s x1 (proj2 H1')) as [L1 A1], (all_listed s x2 (proj2 H2')) as [L2 A2].
  assert (P1 : 0 <= len_ e1) by (rewrite Hl1; eapply size_nonneg, H1').
  assert (P2 : 0 <= len_ e2) by (rewrite Hl2; eapply size_nonneg, H2').
  destruct (NestedLoopJoin.join_sound s s' e1 e2 conds e (Z.to_nat (len_ e1)) (Z.to_nat (len_ e2))
    (selected e1 L1) (selected e2 L2) fuel k e' rows) as (Hc & joined & -> & Hp); try done.
  - cbn. f_equal. lia.
  - cbn. f_equal. lia.
  - lia.
  - by exists x1, L1.
  - by exists x2, L2.
  - rewrite Hl1. apply (selected_width s); [apply H1'|]. intros r d Hr'. by apply A1 in Hr' as [? _].
  - rewrite Hl2. apply (selected_width s); [apply H2'|]. intros r d Hr'. by apply A2 in Hr' as [? _].
  - split; [done|]. exists L1, L2, joined. split_and!; [done|done|done|]. rewrite <- Hl1.
    rewrite <- (NestedLoopJoin.shifted_cols _ (Z.to_nat (len_ e2))) by (done || lia).
    assert (Ec : NestedLoopJoin.cols e = cols_ e1 ++ (NestedLoopJoin.shift_col (Z.of_nat (Z.to_nat (len_ e1))) <$> cols_ e2))
      by (apply (NestedLoopJoin.make_cols e1 e2 conds e _ Hm); cbn; f_equal; lia).
    by rewrite <- Ec.
Qed.
End laws.
End SeqScan.

Lemma eta_ok {D R C} `{DiskLaws D} `{!Files D} `{ReplacerLaws R} `{TxnContext C} (h : RmFileHandle.t D R C) :
  RmFileHandle.ok h -> RmFileHandle.ok (RmFileHandle.mk (RmFileHandle.fd_ h) (RmFileHandle.file_hdr_ h) (RmFileHandle.bpm h) (RmFileHandle.ctx h)).
Proof. by destruct h. Qed.

(** *** Examples: the table of the record manager's history, alone and joined with itself *)
Section examples.
Import SmManager.
#[local] Existing Instance demo_TxnContext.
#[local] Existing Instance demo_StmtContext.
#[local] Existing Instance demo_Shell.
#[local] Existing Instance SeqScan.seq_scan.
#[local] Abbreviation demo_sm := (SmManager.t (DiskManager.t MemFs.t) LRUReplacer.t (Context.t (DiskManager.t MemFs.t))).

Definition scan_cols (name : string) : list ColMeta := [mkColMeta name "a" TYPE_INT 4 0 false; mkColMeta name "b" TYPE_STRING 508 4 false].
Definition scan_file : Z * RmFileHdr := (RmFileHandle.fd_ RmTable.demo_full, RmFileHandle.file_hdr_ RmTable.demo_full).
Definition scan_db : demo_sm :=
  SmManager.mk (mkDbMeta "db" {[ "t" := mkTabMeta "t" (scan_cols "t") [] ]}) {[ "t" := scan_file ]} ∅
    (RmFileHandle.bpm RmTable.demo_full) (RmFileHandle.ctx RmTable.demo_full).
(** The records of the history are [512] times the same byte; the ones greater than those of 3. *)
Definition scan_demo (conds : list Condition) : SeqScan.t := SeqScan.mk "t" (scan_cols "t") 512 conds (mkRid 0 0) None.
Definition above_3 : Condition :=
  mkCondition (mkTabCol "t" "a" FUNC_NULL "" false) OP_GT true (mkTabCol "t" "a" FUNC_NULL "" false)
    (mkValue TYPE_INT (replicate 8 0) "" (Some (replicate 4 3))).

Lemma scan_demo_ok conds : SeqScan.scans scan_db (scan_demo conds) scan_file.
Proof. split; [reflexivity|]. exact (eta_ok _ RmTable.demo_full_ok). Qed.

Definition firsts {A} (r : res (A * list RmRecord)) : list (option Z) :=
  match r with Ok (_, l) => (fun x => rec_data x ≫= head) <$> l | Throw _ => [] end.

(** The records of 5 to 8 are found. *)
Lemma seq_scan_selects_witness :
  match all_rows 20 (scan_demo [above_3]) scan_db with
  | (s', Ok (e', rows)) =>
      (fun x => rec_data x ≫= head) <$> rows = Some <$> [5; 6; 7; 8] /\
      exists L, StronglySorted (fun a b => RmScan.rid_lt a.1 b.1) L /\
        (forall r d, (r, d) ∈ L <-> records scan_db scan_file r = Some d) /\
        rows = row <$> SeqScan.selected (scan_demo [above_3]) L
  | _ => False
  end.
Proof.
  destruct (all_rows 20 (scan_demo [above_3]) scan_db) as [s' [[e' rows]|e]] eqn:E.
  - split; [|exact (proj1 (SeqScan.seq_scan_selects scan_db s' (scan_demo [above_3]) e' scan_file 20 rows (scan_demo_ok _) E))].
    apply (f_equal (fun r => firsts r.2)) in E. cbn [snd firsts] in E. rewrite <- E. vm_compute. reflexivity.
  - apply (f_equal (fun r => match r.2 with Ok _ => true | _ => false end)) in E.
    cbn [snd] in E. vm_compute in E. discriminate E.
Defined.

(** The same table under another name, and the pairs in which the first number is greater. *)
Definition scan_other : SeqScan.t := SeqScan.mk "t" (scan_cols "u") 512 [] (mkRid 0 0) None.
Definition greater : Condition :=
  mkCondition (mkTabCol "t" "a" FUNC_NULL "" false) OP_GT false (mkTabCol "u" "a" FUNC_NULL "" false) (text_value "").
Definition self_join : NestedLoopJoin.t SeqScan.t SeqScan.t :=
  NestedLoopJoin.mk (scan_demo [above_3]) scan_other 1024
    [mkColMeta "t" "a" TYPE_INT 4 0 false; mkColMeta "t" "b" TYPE_STRING 508 4 false;
     mkColMeta "u" "a" TYPE_INT 4 512 false; mkColMeta "u" "b" TYPE_STRING 508 516 false] [greater] false 64 [] [].

Lemma scan_other_ok : SeqScan.scans scan_db scan_other scan_file.
Proof. split; [reflexivity|]. exact (eta_ok _ RmTable.demo_full_ok). Qed.
(** The bytes of the two records of a row. *)
Definition numbers (x : RmRecord) : Z * Z :=
  let d := default [] (rec_data x) in (default 0 (d !! 0%nat), default 0 (d !! 512%nat)).
(** Of four records and seven. *)
Lemma join_of_scans_witness :
  match all_rows (H:=NestedLoopJoin.join 40) 40 self_join scan_db with
  | (s', Ok (e', rows)) =>
      numbers <$> rows = [(5, 1); (6, 1); (7, 1); (8, 1); (5, 2); (6, 2); (7, 2); (8, 2); (5, 3); (6, 3); (7, 3); (8, 3);
                           (6, 5); (7, 5); (8, 5); (7, 6); (8, 6); (8, 7)] /\
      calm scan_db s' /\ exists L1 L2 joined,
        SeqScan.all_of (records scan_db scan_file) L1 /\ SeqScan.all_of (records scan_db scan_file) L2 /\ rows = row <$> joined /\
        joined ≡ₚ NestedLoopJoin.theta_join [greater] (NestedLoopJoin.joined_cols 512 (scan_cols "t") (scan_cols "u"))
          (SeqScan.selected (scan_demo [above_3]) L1) (SeqScan.selected scan_other L2)
  | _ => False
  end.
Proof.
  destruct (all_rows (H:=NestedLoopJoin.join 40) 40 self_join scan_db) as [s' [[e' rows]|e]] eqn:E.
  - split.
    + apply (f_equal (fun r => match r.2 with Ok (_, l) => numbers <$> l | _ => [] end)) in E.
      cbn [snd] in E. rewrite <- E. vm_compute. reflexivity.
    + apply (SeqScan.join_of_scans scan_db s' (scan_demo [above_3]) scan_other scan_file scan_file [greater] self_join e' 40 40 rows
        (scan_demo_ok _) scan_other_ok); [vm_compute; reflexivity|vm_compute; reflexivity|reflexivity| |vm_compute; reflexivity|exact E].
      repeat constructor; cbn; discriminate.
  - apply (f_equal (fun r => match r.2 with Ok _ => true | _ => false end)) in E.
    cbn [snd] in E. vm_compute in E. discriminate E.
Defined.
End examples.
