(* ===== verification/IndexScan.v ===== *)
(** * Scans of indexes

    [execution/executor_index_scan.h]: the two keys made of the conditions, and the executor
    that reads the records the index has between them. *)

From Stdlib Require Import SpecFloat.
From S2P Require Import Prelude Common Posix Replacer Disk Buffer RmDefs Log Transaction Record SmMeta IxDefs IxNode IxHandle IxManager SmManager Values Filter Executor Join Scan.

Module IndexScan.

(** ** The bounds of a range *)

Definition FLT_MAX : Z := 2139095039.
Definition DBL_MAX (s : bool) : spec_float := S754_finite s (Z.to_pos ((2 ^ 53 - 1) * 2 ^ 11)) 960.

(** [fill]: the least or the greatest value of a type, in an array of [len] bytes. *)
Definition extreme (type : ColType) (len : Z) (min_or_max : bool) : bytes :=
  match type with
  | TYPE_INT => le_encode 4 (if min_or_max then - 2 ^ 31 else 2 ^ 31 - 1)
  | TYPE_FLOAT => le_encode 4 (if min_or_max then FLT_MAX + 2 ^ 31 else FLT_MAX)
  | TYPE_BIGINT => le_encode 8 (if min_or_max then - 2 ^ 63 else 2 ^ 63 - 1)
  | TYPE_STRING | TYPE_DATETIME => replicate (Z.to_nat len) (if min_or_max then 0 else 127)
  | TYPE_DOUBLE => ld_bytes (DBL_MAX min_or_max)
  end.
Definition fill (junk : bytes) (col : ColMeta) (min_or_max : bool) : res bytes :=
  val ← fresh junk (cm_len col);
  let v := extreme (cm_type col) (cm_len col) min_or_max in
  copy val 0 (Some v) 0 (Z.of_nat (length v)).

(** A key that is being made, its offset, and how many conditions went into it. *)
Record range_key := mkRangeKey { rk_key : bytes; rk_offset : Z; rk_matched : Z }.

(** [memmove(key + offset, src, col->len)], and the offset after it. *)
Definition append (src : option bytes) (col : ColMeta) (k : range_key) : res range_key :=
  key ← copy (rk_key k) (rk_offset k) src 0 (cm_len col);
  Ok (mkRangeKey key (i32 (rk_offset k + cm_len col)) (rk_matched k)).

(** The loop over the conditions, for a column and the operators of one end of the range:
    every condition on the column goes into the key. *)
Fixpoint match_conds (ops : list CompOp) (col_name : string) (col : ColMeta) (conds : list Condition) (k : range_key) : res range_key :=
  match conds with
  | [] => Ok k
  | cond :: conds' =>
      if negb (is_rhs_val cond) || negb (bool_decide (tc_col_name (lhs_col cond) = col_name)) ||
         bool_decide (cond_op cond = OP_NE)
      then match_conds ops col_name col conds' k
      else if bool_decide (cond_op cond ∈ ops)
      then k ← append (v_raw (rhs_val cond)) col k;
           match_conds ops col_name col conds' (mkRangeKey (rk_key k) (rk_offset k) (rk_matched k + 1))
      else match_conds ops col_name col conds' k
  end.
Definition lower_ops : list CompOp := [OP_EQ; OP_GT; OP_GE].
Definition upper_ops : list CompOp := [OP_EQ; OP_LT; OP_LE].

(** The loop over the columns of the index, from number [idx] on. *)
Fixpoint match_cols (tab : TabMeta) (conds : list Condition) (names : list string) (idx : Z) (lower upper : range_key) :
    res (range_key * range_key) :=
  match names with
  | [] => Ok (lower, upper)
  | n :: names' =>
      col ← get_col tab n;
      lower ← (if rk_matched lower =? idx then match_conds lower_ops n col conds lower else Ok lower);
      upper ← (if rk_matched upper =? idx then match_conds upper_ops n col conds upper else Ok upper);
      match_cols tab conds names' (idx + 1) lower upper
  end.

(** The rest of a key. *)
Fixpoint fill_rest (junk : bytes) (tab : TabMeta) (names : list string) (min_or_max : bool) (k : range_key) : res range_key :=
  match names with
  | [] => Ok k
  | n :: names' =>
      col ← get_col tab n;
      temp ← fill junk col min_or_max;
      k ← append (Some temp) col k;
      fill_rest junk tab names' min_or_max k
  end.
Definition fill_bound (junk : bytes) (tab : TabMeta) (names : list string) (min_or_max : bool) (k : range_key) : res range_key :=
  fill_rest junk tab (drop (Z.to_nat (rk_matched k)) names) min_or_max k.

(** ** The executor *)

Record t := mk {
  tab_name_ : string;
  tab_ : TabMeta;
  len_ : Z;
  fed_conds_ : list Condition;
  index_col_names_ : list string;
  index_meta_ : IndexMeta;
  rid_ : Rid;
  scan_ : option IxScan.t;
}.
Definition cols_ (e : t) : list ColMeta := tm_cols (tab_ e).
Definition at_rid (rid : Rid) (e : t) : t :=
  mk (tab_name_ e) (tab_ e) (len_ e) (fed_conds_ e) (index_col_names_ e) (index_meta_ e) rid (scan_ e).
Definition at_scan (scan : IxScan.t) (e : t) : t :=
  mk (tab_name_ e) (tab_ e) (len_ e) (fed_conds_ e) (index_col_names_ e) (index_meta_ e) (rid_ e) (Some scan).

Definition swap_op (op : CompOp) : CompOp :=
  match op with OP_EQ => OP_EQ | OP_NE => OP_NE | OP_LT => OP_GT | OP_GT => OP_LT | OP_LE => OP_GE | OP_GE => OP_LE end.
(** The loop of the constructor: the column of this table goes to the left. *)
Definition turn (tab_name : string) (cond : Condition) : res Condition :=
  if bool_decide (tc_tab_name (lhs_col cond) = tab_name) then Ok cond
  else if negb (is_rhs_val cond) && bool_decide (tc_tab_name (rhs_col cond) = tab_name)
  then Ok (mkCondition (rhs_col cond) (swap_op (cond_op cond)) false (lhs_col cond) (rhs_val cond))
  else Throw AssertFailure.
Fixpoint turn_all (tab_name : string) (conds : list Condition) : res (list Condition) :=
  match conds with
  | [] => Ok []
  | c :: cs => c ← turn tab_name c; cs ← turn_all tab_name cs; Ok (c :: cs)
  end.

Section ops.
Context {D R C : Type} `{Disk D} `{!Files D} `{!Shell D} `{Replacer R} `{TxnContext C} `{!HasTxn C} `{!StmtContext C}.
#[local] Abbreviation sm := (SmManager.t D R C).
(** Memory that is not initialised, and a bound on the entries a scan passes. *)
Context (junk : bytes) (junk_rid : Rid) (fuel : nat).

Definition make (tab_name : string) (conds : list Condition) (index_col_names : list string) : M sm t :=
  d ← gets SmManager.db_;
  tab ← lift (get_table d tab_name);
  meta ← lift (get_index_meta tab index_col_names);
  x ← SmManager.find_table tab_name;
  len ← lift (SeqScan.tab_len (tm_cols tab));
  conds ← lift (turn_all tab_name conds);
  SeqScan.lock_shared x.1;;
  mret (mk tab_name tab len conds index_col_names meta.2 junk_rid None).

Definition on_index {A} (e : t) (m : M (IxIndexHandle.t D R C) A) : M sm A :=
  SmManager.on_index (IxManager.get_index_name (tab_name_ e) (index_col_names_ e)) m.

(** The loop up to the first entry whose record satisfies the conditions. *)
Fixpoint search (fuel : nat) (e : t) (scan : IxScan.t) : M sm t :=
  if IxScan.is_end scan then mret (at_scan scan e) else
  match fuel with
  | O => throw OutOfFuel
  | S fuel' =>
      rid ← on_index e (IxScan.rid scan);
      let e := at_rid rid e in
      rec ← SmManager.on_table (tab_name_ e) (RmFileHandle.get_record rid true);
      b ← lift (Filter.filter (fed_conds_ e) (cols_ e) rec);
      if b : bool then mret (at_scan scan e) else
      scan ← on_index e (IxScan.next scan);
      search fuel' e scan
  end.

(** Where the range begins and ends, in the index. *)
Definition range (e : t) : M sm IxScan.t :=
  lower ← on_index e IxIndexHandle.leaf_begin;
  upper ← on_index e IxIndexHandle.leaf_end;
  key ← lift (fresh junk (im_col_tot_len (index_meta_ e)));
  let new := mkRangeKey key 0 0 in
  '(lo, up) ← lift (match_cols (tab_ e) (fed_conds_ e) (index_col_names_ e) 0 new new);
  lower ← (if 0 <? rk_matched lo
           then k ← lift (fill_bound junk (tab_ e) (index_col_names_ e) true lo);
                on_index e (IxIndexHandle.lower_bound (rk_key k))
           else mret lower);
  upper ← (if 0 <? rk_matched up
           then k ← lift (fill_bound junk (tab_ e) (index_col_names_ e) false up);
                on_index e (IxIndexHandle.upper_bound (rk_key k))
           else mret upper);
  mret (IxScan.mk lower upper).
Definition beginTuple (e : t) : M sm t := scan ← range e; search fuel e scan.

Definition is_end (e : t) : res bool := match scan_ e with Some scan => Ok (IxScan.is_end scan) | None => Throw Stuck end.
Definition nextTuple (e : t) : M sm t :=
  match scan_ e with
  | None => throw Stuck
  | Some scan =>
      if IxScan.is_end scan then mret e else
      scan ← on_index e (IxScan.next scan);
      search fuel e scan
  end.
Definition Next (e : t) : M sm (t * option RmRecord) :=
  b ← lift (is_end e);
  if b : bool then throw (InternalError "IndexScanExecutor::Next is_end() is true") else
  rec ← SmManager.on_table (tab_name_ e) (RmFileHandle.get_record (rid_ e) true); mret (e, Some rec).

#[export] Instance index_scan : AbstractExecutor sm t := {
  ex_tupleLen e := Ok (len_ e);
  ex_cols := cols_;
  ex_beginTuple := beginTuple;
  ex_nextTuple := nextTuple;
  ex_is_end := is_end;
  ex_Next := Next;
}.
End ops.

(** ** Two conditions on one column

    Both values go into the key: for an index on the one column the second is written past
    its end, and for an index on [a] and [b] it takes the place of [b], so that the range of
    [a = 2 and a >= 1] begins at (2, 1) and the record (2, 0), which satisfies both, is not in it. *)
Definition demo_tab : TabMeta :=
  mkTabMeta "t" [mkColMeta "t" "a" TYPE_INT 4 0 true; mkColMeta "t" "b" TYPE_INT 4 4 false] [].
Definition demo_cond (op : CompOp) (z : Z) : Condition :=
  mkCondition (mkTabCol "t" "a" FUNC_NULL "" false) op true (mkTabCol "t" "a" FUNC_NULL "" false)
    (mkValue TYPE_INT (replicate 8 0) "" (Some (le_encode 4 z))).
Definition demo_conds : list Condition := [demo_cond OP_EQ 2; demo_cond OP_GE 1].

Lemma two_conditions :
  let new n := mkRangeKey (replicate n 0) 0 0 in
  match_cols demo_tab demo_conds ["a"] 0 (new 4%nat) (new 4%nat) = Throw Stuck /\
  (exists up, match_cols demo_tab demo_conds ["a"; "b"] 0 (new 8%nat) (new 8%nat) =
     Ok (mkRangeKey (le_encode 4 2 ++ le_encode 4 1) 8 2, up)) /\
  Filter.filter demo_conds (tm_cols demo_tab) (row (le_encode 4 2 ++ le_encode 4 0)) = Ok true.
Proof. split_and!; [reflexivity|eexists; reflexivity|vm_compute; reflexivity]. Qed.

(** One condition on a column of an index on [a] and [b] makes the whole range of [b]. *)
Lemma one_condition :
  let new := mkRangeKey (replicate 8 0) 0 0 in
  exists lo up, match_cols demo_tab [demo_cond OP_EQ 2] ["a"; "b"] 0 new new = Ok (lo, up) /\
    fill_bound [] demo_tab ["a"; "b"] true lo = Ok (mkRangeKey (le_encode 4 2 ++ le_encode 4 (- 2 ^ 31)) 8 1) /\
    fill_bound [] demo_tab ["a"; "b"] false up = Ok (mkRangeKey (le_encode 4 2 ++ le_encode 4 (2 ^ 31 - 1)) 8 1).
Proof. eexists _, _. split_and!; reflexivity. Qed.
End IndexScan.
