(* ===== verification/Modify.v ===== *)
(** * The executors that change tables

    [execution/executor_insert.h], [executor_delete.h] and [executor_update.h], over the
    system manager.  Their [Next] does all the work and returns a null pointer. *)

From S2P Require Import Prelude Common Posix Replacer Disk Buffer RmDefs Log Transaction Record SmMeta IxDefs IxNode IxHandle IxManager SmManager Values Filter Executor Join Scan.

Module Modify.

(** ** Values in columns *)

(** The conversions of a value for a column, before it is put into the record. *)
Definition convert (col : ColMeta) (val : Value) : res Value :=
  if bool_decide (cm_type col = v_type val) then Ok val
  else if bool_decide (cm_type col = TYPE_BIGINT /\ v_type val = TYPE_INT) then Ok (set_bigint (int_val val) val)
  else if bool_decide (cm_type col = TYPE_DATETIME /\ v_type val = TYPE_STRING)
  then b ← is_valid_datetime val; if b : bool then Ok val else Throw (InternalError "invalid datetime")
  else Filter.incompatible (cm_type col) (v_type val).

(** The loop that fills the record of an insertion. *)
Fixpoint fill_record (cols : list ColMeta) (values : list Value) (data : bytes) : res bytes :=
  match values, cols with
  | [], _ => Ok data
  | v :: vs, col :: cs =>
      val ← convert col v;
      val ← init_raw (cm_len col) val;
      data ← copy data (cm_offset col) (v_raw val) 0 (cm_len col);
      fill_record cs vs data
  | _ :: _, [] => Throw Stuck
  end.

(** One assignment of an update: the clause after it, whose value may have been converted,
    and the record.  The array of [to_bytes] has the length of the value. *)
Definition assign (tab : TabMeta) (clause : SetClause) (data : bytes) : res (SetClause * bytes) :=
  lhs_col ← get_col tab (tc_col_name (set_lhs clause));
  let v := set_rhs clause in
  v ← (if bool_decide (cm_type lhs_col = v_type v) then Ok v
       else if bool_decide (cm_type lhs_col = TYPE_BIGINT /\ v_type v = TYPE_INT)
       then init_raw (cm_len lhs_col) (set_bigint (int_val v) v)
       else if bool_decide (cm_type lhs_col = TYPE_DATETIME /\ v_type v = TYPE_STRING)
       then b ← is_valid_datetime v; if b : bool then Ok v else Throw (InternalError "invalid datetime")
       else Filter.incompatible (cm_type lhs_col) (v_type v));
  src ← to_bytes v;
  data ← copy data (cm_offset lhs_col) (Some src) 0 (cm_len lhs_col);
  Ok (mkSetClause (set_lhs clause) v, data).
Fixpoint assign_all (tab : TabMeta) (clauses : list SetClause) (data : bytes) : res (list SetClause * bytes) :=
  match clauses with
  | [] => Ok ([], data)
  | c :: cs =>
      '(c, data) ← assign tab c data;
      '(cs, data) ← assign_all tab cs data;
      Ok (c :: cs, data)
  end.

Section ops.
Context {D R C : Type} `{Disk D} `{!Files D} `{!Shell D} `{Replacer R} `{TxnContext C} `{!HasTxn C} `{!StmtContext C}.
#[local] Abbreviation sm := (SmManager.t D R C).
Context (junk : bytes).

(** [context->lock_mgr_->lock_exclusive_on_table] for the file of a handle. *)
Definition lock_exclusive (fd : Z) : M sm unit :=
  b ← SmManager.on_ctx (cx_lock_exclusive_on_table fd);
  if b : bool then mret tt
  else c ← gets SmManager.ctx; throw (TransactionAbortException (cx_txn_id c) DEADLOCK_PREVENTION).

(** The record of the log, its LSN in the transaction, and the write record. *)
Definition log_change (make_log : Z -> Z -> log_record) (make_write : Z -> WriteRecord.t) : M sm unit :=
  c ← gets SmManager.ctx;
  lsn ← SmManager.on_ctx (cx_add_log (make_log (cx_txn_id c) (cx_prev_lsn c)));
  modify (fun s => SmManager.set_ctx (cx_set_prev_lsn lsn (SmManager.ctx s)) s);;
  SmManager.upd_txn (Txn.append_write_record (make_write lsn)).

(** ** [InsertExecutor] *)
Record insert_t := mkInsert {
  in_tab : TabMeta;
  in_values : list Value;
  in_tab_name : string;
  in_rid : Rid;
}.

(** The exception of a missing handle is caught, and the handle is not initialised then. *)
Definition make_insert (junk_rid : Rid) (tab_name : string) (values : list Value) : M sm insert_t :=
  d ← gets SmManager.db_;
  tab ← lift (get_table d tab_name);
  if negb (bool_decide (length values = length (tm_cols tab))) then throw InvalidValueCountError else
  s ← get;
  match SmManager.fhs_ s !! tab_name with
  | None => throw Stuck
  | Some x => lock_exclusive x.1;; mret (mkInsert tab values tab_name junk_rid)
  end.

(** The loop over the indexes; when a key is there already the record is deleted, and what
    went into the indexes before stays there. *)
Fixpoint insert_keys (tab_name : string) (indexes : list IndexMeta) (data : bytes) (rid : Rid) : M sm unit :=
  match indexes with
  | [] => mret tt
  | index :: indexes' =>
      key ← lift (SmManager.make_key (im_col_tot_len index) data (im_cols index));
      page_no ← SmManager.on_index (SmManager.index_name tab_name (im_cols index)) (IxIndexHandle.insert_entry key rid true);
      if page_no =? INVALID_PAGE_ID then
        SmManager.on_table tab_name (RmFileHandle.delete_record rid true);;
        throw (InternalError "unique index key exit")
      else insert_keys tab_name indexes' data rid
  end.

(** The code keeps the pointer [fh_]; here the handle is found again by the name of the table. *)
Definition insert_next (e : insert_t) : M sm (insert_t * option RmRecord) :=
  x ← SmManager.find_table (in_tab_name e);
  data ← lift (fresh junk (record_size x.2));
  data ← lift (fill_record (tm_cols (in_tab e)) (in_values e) data);
  rid ← SmManager.on_table (in_tab_name e) (RmFileHandle.insert_record data true);
  insert_keys (in_tab_name e) (tm_indexes (in_tab e)) data rid;;
  let rec := RmRecord_new (record_size x.2) data in
  log_change (fun txn prev => LTuple (InsertLogRecord txn prev rec rid (in_tab_name e)))
    (WriteRecord.insert WType.INSERT_TUPLE (in_tab_name e) rid);;
  mret (mkInsert (in_tab e) (in_values e) (in_tab_name e) rid, None).

(** ** [DeleteExecutor] *)
Record delete_t := mkDelete {
  de_tab : TabMeta;
  de_rids : list Rid;
  de_tab_name : string;
}.
Definition make_delete (tab_name : string) (rids : list Rid) : M sm delete_t :=
  d ← gets SmManager.db_;
  tab ← lift (get_table d tab_name);
  x ← SmManager.find_table tab_name;
  lock_exclusive x.1;;
  mret (mkDelete tab rids tab_name).

Fixpoint delete_keys (tab_name : string) (indexes : list IndexMeta) (data : bytes) : M sm unit :=
  match indexes with
  | [] => mret tt
  | index :: indexes' =>
      old_key ← lift (SmManager.make_key (im_col_tot_len index) data (im_cols index));
      ok ← SmManager.on_index (SmManager.index_name tab_name (im_cols index)) (IxIndexHandle.delete_entry old_key true);
      if ok : bool then delete_keys tab_name indexes' data
      else throw (InternalError ("UpdateExecutor: delete old_key failed" +:+ endl))
  end.
Definition delete_one (e : delete_t) (rid : Rid) : M sm unit :=
  old_rec ← SmManager.on_table (de_tab_name e) (RmFileHandle.get_record rid true);
  delete_keys (de_tab_name e) (tm_indexes (de_tab e)) (default [] (rec_data old_rec));;
  SmManager.on_table (de_tab_name e) (RmFileHandle.delete_record rid true);;
  log_change (fun txn prev => LTuple (DeleteLogRecord txn prev old_rec rid (de_tab_name e)))
    (WriteRecord.change WType.DELETE_TUPLE (de_tab_name e) rid old_rec).
Definition delete_next (e : delete_t) : M sm (delete_t * option RmRecord) :=
  _ ← SmManager.find_table (de_tab_name e);
  forM (de_rids e) (delete_one e);;
  mret (e, None).

(** ** [UpdateExecutor] *)
Record update_t := mkUpdateExec {
  up_tab : TabMeta;
  up_rids : list Rid;
  up_tab_name : string;
  up_clauses : list SetClause;
}.
Definition make_update (tab_name : string) (clauses : list SetClause) (rids : list Rid) : M sm update_t :=
  d ← gets SmManager.db_;
  tab ← lift (get_table d tab_name);
  x ← SmManager.find_table tab_name;
  lock_exclusive x.1;;
  mret (mkUpdateExec tab rids tab_name clauses).

(** The keys of one index: nothing is done when [strcmp] finds no difference.  After the
    change the new key has to be there, and no key may follow the old one. *)
Definition update_key (tab_name : string) (rid : Rid) (old_data new_data : bytes) (index : IndexMeta) : M sm unit :=
  let name := SmManager.index_name tab_name (im_cols index) in
  old_key ← lift (SmManager.make_key (im_col_tot_len index) old_data (im_cols index));
  new_key ← lift (SmManager.make_key (im_col_tot_len index) new_data (im_cols index));
  same ← lift (SmManager.strcmp_eq old_key new_key);
  if same : bool then mret tt else
  page_no ← SmManager.on_index name (IxIndexHandle.insert_entry new_key rid true);
  if page_no =? INVALID_PAGE_ID then throw (InternalError "UpdateExecutor: unique index new_key exit") else
  _ ← SmManager.on_index name (IxIndexHandle.delete_entry old_key true);
  iid ← SmManager.on_index name (IxIndexHandle.lower_bound new_key);
  found ← SmManager.on_index name (IxIndexHandle.get_rid iid);
  assertM (bool_decide (found = rid));;
  iid ← SmManager.on_index name (IxIndexHandle.upper_bound old_key);
  last ← SmManager.on_index name IxIndexHandle.leaf_end;
  assertM (bool_decide (iid = last)).

Definition update_one (e : update_t) (rid : Rid) : M sm update_t :=
  old_rec ← SmManager.on_table (up_tab_name e) (RmFileHandle.get_record rid false);
  let old_data := default [] (rec_data old_rec) in
  '(clauses, data) ← lift (assign_all (up_tab e) (up_clauses e) old_data);
  let new_rec := RmRecord_new (rec_size old_rec) data in
  forM (tm_indexes (up_tab e)) (update_key (up_tab_name e) rid old_data data);;
  SmManager.on_table (up_tab_name e) (RmFileHandle.update_record rid data true);;
  log_change (fun txn prev => LUpdate (new_UpdateLogRecord txn prev new_rec old_rec rid (up_tab_name e)))
    (WriteRecord.change WType.UPDATE_TUPLE (up_tab_name e) rid old_rec);;
  mret (mkUpdateExec (up_tab e) (up_rids e) (up_tab_name e) clauses).
Fixpoint update_all (e : update_t) (rids : list Rid) : M sm update_t :=
  match rids with
  | [] => mret e
  | rid :: rids' => e ← update_one e rid; update_all e rids'
  end.
Definition update_next (e : update_t) : M sm (update_t * option RmRecord) :=
  _ ← SmManager.find_table (up_tab_name e);
  e ← update_all e (up_rids e);
  mret (e, None).

(** The virtual methods these executors do not override. *)
Definition no_cols {A} : res A := Throw (InternalError "no implement for AbstractExecutor::cols").
End ops.

(** ** The record of an insertion *)

(** Columns that follow each other from [o] on, as those of a new table do. *)
Fixpoint tiled (o : nat) (cols : list ColMeta) : Prop :=
  match cols with
  | [] => True
  | c :: cs => cm_offset c = Z.of_nat o /\ 0 <= cm_len c /\ tiled (o + Z.to_nat (cm_len c)) cs
  end.

Lemma make_cols_tiled tab_name defs : Forall (fun d => 0 <= cd_len d) defs -> forall o cols size,
  SmManager.make_cols tab_name defs (Z.of_nat o) = (cols, size) -> Z.of_nat (o + SmManager.defs_len defs) < 2 ^ 31 -> tiled o cols.
Proof.
  induction 1 as [|d ds Hd _ IH]; intros o cols size Hm Hs; [by simplify_eq/=|].
  rewrite SmManager.defs_len_cons in *. cbn [SmManager.make_cols] in Hm. rewrite i32_small in Hm by (unfold in_i32; lia).
  replace (Z.of_nat o + cd_len d) with (Z.of_nat (o + Z.to_nat (cd_len d))) in Hm by lia.
  destruct (SmManager.make_cols tab_name ds _) as [cs sz] eqn:E. injection Hm as <- <-.
  cbn [tiled cm_offset cm_len]. split_and!; [done|done|]. eapply IH; [exact E|lia].
Qed.

(** *** What a value is in a column *)

(** The bytes of a value in a column, or none when it does not fit. *)
Definition padded (len : Z) (v : Value) : option bytes :=
  if bool_decide (Z.of_nat (length (str_bytes (v_str v))) <= len)
  then Some (str_bytes (v_str v) ++ replicate (Z.to_nat len - length (str_bytes (v_str v))) 0) else None.
Definition value_bytes (col : ColMeta) (v : Value) : option bytes :=
  match cm_type col, v_type v with
  | TYPE_INT, TYPE_INT | TYPE_FLOAT, TYPE_FLOAT => if cm_len col =? 4 then Some (take 4 (v_num v)) else None
  | TYPE_BIGINT, TYPE_BIGINT => if cm_len col =? 8 then Some (take 8 (v_num v)) else None
  | TYPE_BIGINT, TYPE_INT => if cm_len col =? 8 then Some (le_encode 8 (load_i32 (v_num v) 0)) else None
  | TYPE_STRING, TYPE_STRING | TYPE_DATETIME, TYPE_DATETIME => padded (cm_len col) v
  | TYPE_DATETIME, TYPE_STRING => match is_valid_datetime v with Ok true => padded (cm_len col) v | _ => None end
  | _, _ => None
  end.
Fixpoint record_bytes (cols : list ColMeta) (values : list Value) : option (list bytes) :=
  match cols, values with
  | c :: cs, v :: vs => b ← value_bytes c v; bs ← record_bytes cs vs; Some (b :: bs)
  | _, _ => Some []
  end.

Lemma raw_padded len v : 0 <= len -> v_type v = TYPE_STRING \/ v_type v = TYPE_DATETIME ->
  match raw_bytes len v with Ok b => padded len v = Some b | Throw _ => padded len v = None end.
Proof.
  intros Hl Ht. unfold raw_bytes, padded. rewrite (proj2 (Z.ltb_ge _ _)) by done.
  assert (E : mem_write (replicate (Z.to_nat len) 0) 0 (str_bytes (v_str v)) = take (Z.to_nat len) (str_bytes (v_str v)) ++
    replicate (Z.to_nat len - length (str_bytes (v_str v))) 0).
  { unfold mem_write. rewrite take_0, length_replicate, Nat.sub_0_r. cbn [app]. f_equal. apply drop_replicate. }
  destruct (Z.ltb_spec len (Z.of_nat (length (str_bytes (v_str v))))) as [Hs|Hs].
  - rewrite bool_decide_false by lia. by destruct Ht as [-> | ->].
  - rewrite bool_decide_true by lia. rewrite take_ge in E by lia. destruct Ht as [-> | ->]; by rewrite E.
Qed.

Lemma value_converted col v : 0 <= cm_len col -> whole v ->
  match (v' ← convert col v; raw_bytes (cm_len col) v') with
  | Ok b => value_bytes col v = Some b
  | Throw _ => value_bytes col v = None
  end.
Proof.
  intros Hl Hw. unfold convert, value_bytes. destruct (cm_type col) eqn:Ec, (v_type v) eqn:Ev;
    repeat first [rewrite bool_decide_true by done|rewrite bool_decide_false by naive_solver];
    try (unfold Filter.incompatible; done); cbn [mbind res_bind];
    try (unfold raw_bytes; rewrite Ev, (proj2 (Z.ltb_ge _ _) Hl); by destruct (_ =? _));
    try (unfold raw_bytes; rewrite Ev, (proj2 (Z.ltb_ge _ _) Hl); done);
    try (apply raw_padded; [done|by auto]).
  - unfold raw_bytes. rewrite (proj2 (Z.ltb_ge _ _)) by done. cbn [v_type set_bigint set_num v_num]. destruct (_ =? _); [|done].
    f_equal. unfold store_64, mem_write, int_val, whole in *. rewrite take_0, Hw. cbn [app Nat.add Nat.sub].
    rewrite (take_ge (le_encode _ _)), take_app_le by (rewrite length_le_encode; lia). symmetry. apply take_ge. rewrite length_le_encode. lia.
  - destruct (is_valid_datetime v) as [[]|]; [|done..]. cbn [mbind res_bind]. apply raw_padded; auto.
Qed.

Lemma convert_whole col v v' : whole v -> convert col v = Ok v' -> whole v' /\ v_raw v' = v_raw v.
Proof.
  unfold convert, whole. intros Hv Hc. repeat case_bool_decide; try (by injection Hc as <-).
  - injection Hc as <-. cbn [v_num v_raw set_bigint set_num]. unfold store_64. by rewrite length_mem_write.
  - destruct (is_valid_datetime v) as [[]|]; try done. by injection Hc as <-.
  - unfold Filter.incompatible in Hc. destruct (coltype2str (cm_type col)); [|discriminate Hc]. cbn [mbind res_bind] in Hc.
    destruct (coltype2str (v_type v)); discriminate Hc.
Qed.

(** The loop that fills the record, on the columns of a table. *)
Definition fills (o : nat) (data : bytes) (cols : list ColMeta) (values : list Value) (bs : list bytes) : Prop :=
  fill_record cols values data = Ok (mem_write data o (concat bs)) /\
  length (concat bs) = SmManager.lens cols /\ Forall2 (fun c b => Z.of_nat (length b) = cm_len c) cols bs.
Lemma fill_record_ok cols : forall o values data, tiled o cols -> Forall (fun v => whole v /\ v_raw v = None) values ->
  length values = length cols -> (o + SmManager.lens cols <= length data)%nat ->
  match record_bytes cols values with
  | Some bs => fills o data cols values bs
  | None => exists ex, fill_record cols values data = Throw ex
  end.
Proof.
  induction cols as [|c cols IH]; intros o values data Ht Hw Hl Hd; (destruct values as [|v values]; [|try done]); [..|done|].
  { cbn [record_bytes]. unfold fills. cbn [concat]. rewrite mem_write_nil. by split_and!; [| |constructor]. }
  destruct Ht as (Ho & Hc & Ht). apply Forall_cons in Hw as [[Hv Hn] Hw]. unfold fills. cbn [fill_record record_bytes]. rewrite SmManager.lens_cons in *.
  pose proof (value_converted c v Hc Hv) as Hb.
  destruct (convert c v) as [v1|] eqn:E1; cbn [mbind res_bind] in *; [|rewrite Hb; by eexists].
  destruct (convert_whole _ _ _ Hv E1) as [Hv1 Hn1]. unfold init_raw. rewrite Hn1, Hn.
  destruct (raw_bytes (cm_len c) v1) as [b|] eqn:E3; rewrite Hb; cbn [mbind option_bind res_bind]; [|by eexists].
  pose proof (raw_bytes_length _ _ _ Hv1 E3) as Hlb. cbn [v_raw set_raw]. rewrite Ho, copy_ok by lia. cbn [mbind res_bind].
  change (Z.to_nat 0) with 0%nat. rewrite Nat2Z.id, <- Hlb, Nat2Z.id, mem_read_full.
  replace (Z.to_nat (cm_len c)) with (length b) in * by lia.
  specialize (IH (o + length b)%nat values (mem_write data o b) Ht Hw ltac:(by injection Hl)).
  destruct (record_bytes cols values) as [bs|]; cbn [mbind option_bind]; [|by apply IH; len].
  destruct IH as (-> & Hlen & Hf); [len|]. cbn [concat]. split_and!.
  - f_equal. apply mem_write_app. rewrite Hlen. lia.
  - rewrite length_app, Hlen. lia.
  - by constructor.
Qed.

Lemma tiled_slices cols : forall o bs pre, tiled o cols -> length pre = o ->
  Forall2 (fun c b => Z.of_nat (length b) = cm_len c) cols bs -> SmManager.slice (pre ++ concat bs) <$> cols = bs.
Proof.
  induction cols as [|c cols IH]; intros o bs pre Ht Hp Hf; [by inversion Hf|].
  apply Forall2_cons_inv_l in Hf as (b & bs' & Hb & Hr & ->). subst o.
  destruct Ht as (Ho & Hc & Ht). cbn [fmap list_fmap concat]. f_equal.
  - unfold SmManager.slice. rewrite Ho, Nat2Z.id, <- Hb, Nat2Z.id. unfold mem_read.
    rewrite drop_app_length. apply take_app_length.
  - rewrite app_assoc. apply (IH (length pre + Z.to_nat (cm_len c))%nat); [done|rewrite length_app; lia|done].
Qed.

(** The memory of a record is written wholly. *)
Lemma record_filled cols size values junk data : tiled 0 cols -> size = Z.of_nat (SmManager.lens cols) -> fresh junk size = Ok data ->
  Forall (fun v => whole v /\ v_raw v = None) values -> length values = length cols ->
  match record_bytes cols values with
  | Some bs => fill_record cols values data = Ok (concat bs) /\ Z.of_nat (length (concat bs)) = size /\ SmManager.slice (concat bs) <$> cols = bs
  | None => exists ex, fill_record cols values data = Throw ex
  end.
Proof.
  intros Ht -> Hf Hw Hl. apply length_fresh in Hf as [_ Hlen]. rewrite Nat2Z.id in Hlen.
  pose proof (fill_record_ok cols 0 values data Ht Hw Hl ltac:(lia)) as H. destruct (record_bytes cols values) as [bs|]; [|done].
  destruct H as (-> & Hc & Hb). split_and!; [|lia|by apply (tiled_slices cols 0 bs [])].
  f_equal. unfold mem_write. rewrite take_0, (take_ge (concat bs)) by lia. cbn [app]. rewrite drop_ge by lia. apply app_nil_r.
Qed.

(** *** Insertions in an open table *)
Section insertions.
Context {D R C : Type} `{DiskLaws D} `{!Files D} `{!FileNames D} `{!Shell D} `{ReplacerLaws R}
  `{TxnContext C} `{!HasTxn C} `{!StmtContext C}.
#[local] Abbreviation sm := (SmManager.t D R C).
Implicit Types s : sm.

(** The table has one record more, at a place that was free. *)
Definition inserted s s' name (x : Z * RmFileHdr) rid (buf : bytes) : Prop :=
  records s x rid = None /\ exists x', SmManager.fhs_ s' !! name = Some x' /\ open_ok s' x' /\
    forall q, records s' x' q = if decide (q = rid) then Some buf else records s x q.

Lemma table_insert name buf s s' x rid : SmManager.fhs_ s !! name = Some x -> open_ok s x ->
  record_size x.2 = Z.of_nat (length buf) -> num_pages x.2 < 2 ^ 31 - 1 ->
  SmManager.on_table name (RmFileHandle.insert_record buf true) s = (s', Ok rid) -> inserted s s' name x rid buf.
Proof.
  intros Hx Hok Hs Hn Hr. unfold SmManager.on_table in Hr. rewrite Hx in Hr. destruct x as [f h]. cbn [fst snd] in *.
  destruct (RmFileHandle.insert_record buf true _) as [h' r] eqn:E. injection Hr as <- ->.
  destruct (RmFileHandle.insert_record_gives true (handle_in s (f, h)) h' rid buf) as (Hok' & (Hfd & _ & _) & _ & Hnone & Htab & _);
    [by intros _; apply fl_name_keeps|done|cbn; lia|done|exact E|]. split; [done|].
  exists (RmFileHandle.fd_ h', RmFileHandle.file_hdr_ h'). cbn [SmManager.fhs_]. rewrite lookup_insert_eq.
  assert (Eh : handle_in (SmManager.mk (SmManager.db_ s) (<[name := (RmFileHandle.fd_ h', RmFileHandle.file_hdr_ h')]> (SmManager.fhs_ s))
    (SmManager.ihs_ s) (RmFileHandle.bpm h') (RmFileHandle.ctx h')) (RmFileHandle.fd_ h', RmFileHandle.file_hdr_ h') = h') by by destruct h'.
  unfold open_ok, records. rewrite Eh. split_and!; [done|done|]. intros q. rewrite Htab.
  destruct (decide (q = rid)); [|done]. f_equal. apply take_ge. cbn. lia.
Qed.

(** Logging the change leaves the tables. *)
Lemma log_change_tables make_log make_write s s' : log_change make_log make_write s = (s', Ok tt) ->
  SmManager.fhs_ s' = SmManager.fhs_ s /\ SmManager.bpm s' = SmManager.bpm s.
Proof.
  unfold log_change. intros Hr. apply bind_inv in Hr as (s1 & c & Hc & Hr). injection Hc as <- <-.
  apply bind_inv in Hr as (s1 & lsn & Hc & Hr). unfold SmManager.on_ctx, zoom in Hc.
  destruct (cx_add_log _ _) as [c r]. injection Hc as <- ->. by injection Hr as <-.
Qed.
Lemma table_same s s' x : SmManager.bpm s' = SmManager.bpm s -> open_ok s x ->
  open_ok s' x /\ forall rid, records s' x rid = records s x rid.
Proof.
  intros E Hok. unfold open_ok, records, handle_in in *. rewrite E.
  apply (Reads.reads_ok (handle_in s x)); [done|done| |done]. apply Reads.reads_refl. by destruct Hok as (pg & [? _ _ _] & _).
Qed.

Lemma open_other_ctx c s x : open_ok s x -> open_ok (SmManager.set_ctx c s) x.
Proof. intros Hok. by apply (table_same s). Qed.

(** C37: what an insertion puts into a table whose columns are those of its creation.  When every
    value fits its column, the record is the concatenation of the values' bytes, whatever was in
    the memory before, and each column has the bytes of its value; the table then has this record
    at a place that was free and no other change, and the loop over the indexes runs in this
    state (without indexes it is the state the insertion leaves, but for the log).  When a
    value does not fit, the insertion throws before anything has changed. *)
Theorem insert_record_of_values tab_name defs cols size values junk s e x :
  Forall (fun d => 0 <= cd_len d) defs -> Z.of_nat (SmManager.defs_len defs) < 2 ^ 31 ->
  SmManager.make_cols tab_name defs 0 = (cols, size) ->
  Forall (fun v => whole v /\ v_raw v = None) values -> length values = length cols ->
  SmManager.fhs_ s !! in_tab_name e = Some x -> open_ok s x -> num_pages x.2 < 2 ^ 31 - 1 ->
  record_size x.2 = size -> tm_cols (in_tab e) = cols -> in_values e = values ->
  match record_bytes cols values with
  | Some bs => SmManager.slice (concat bs) <$> cols = bs /\
      forall s' e' o, insert_next junk e s = (s', Ok (e', o)) -> o = None /\
      exists s1 s2, inserted s s1 (in_tab_name e) x (in_rid e') (concat bs) /\
        insert_keys (in_tab_name e) (tm_indexes (in_tab e)) (concat bs) (in_rid e') s1 = (s2, Ok tt) /\
        SmManager.fhs_ s' = SmManager.fhs_ s2 /\ SmManager.bpm s' = SmManager.bpm s2 /\
        (tm_indexes (in_tab e) = [] -> inserted s s' (in_tab_name e) x (in_rid e') (concat bs))
  | None => exists ex, insert_next junk e s = (s, Throw ex)
  end.
Proof.
  intros Hd Hsm Hm Hw Hl Hx Hok Hn Hsz Hcols Hvals.
  destruct (SmManager.make_cols_ok tab_name defs Hd 0 cols size Hm Hsm) as (-> & Hlens & Hin & _ & _).
  pose proof (make_cols_tiled tab_name defs Hd 0 cols _ Hm Hsm) as Ht.
  assert (Hfind : SmManager.find_table (in_tab_name e) s = (s, Ok x))
    by (unfold SmManager.find_table, mbind, M_bind, get; by rewrite Hx).
  destruct (fresh junk (Z.of_nat (0 + SmManager.defs_len defs))) as [data|] eqn:Ef;
    [|unfold fresh in Ef; destruct (Z.ltb_spec (Z.of_nat (0 + SmManager.defs_len defs)) 0); [lia|done]].
  pose proof (record_filled cols (Z.of_nat (0 + SmManager.defs_len defs)) values junk data Ht ltac:(by rewrite Hlens) Ef Hw Hl) as Hrec.
  assert (Hnext : insert_next junk e s = (data ← lift (fill_record cols values data);
    rid ← SmManager.on_table (in_tab_name e) (RmFileHandle.insert_record data true);
    insert_keys (in_tab_name e) (tm_indexes (in_tab e)) data rid;;
    let rec := RmRecord_new (record_size x.2) data in
    log_change (fun txn prev => LTuple (InsertLogRecord txn prev rec rid (in_tab_name e)))
      (WriteRecord.insert WType.INSERT_TUPLE (in_tab_name e) rid);;
    mret (mkInsert (in_tab e) (in_values e) (in_tab_name e) rid, None)) s).
  { unfold insert_next. rewrite <- Hsz in Ef. by rewrite (bind_ok _ _ _ _ _ Hfind), (lift_ok _ _ _ _ Ef), Hcols, Hvals. }
  destruct (record_bytes cols values) as [bs|]; [|destruct Hrec as [ex Hrec]; exists ex; by rewrite Hnext, Hrec].
  destruct Hrec as (Hfill & Hlen & Hsl). split; [done|]. intros s' e' o Hr. rewrite Hnext, (lift_ok _ _ _ _ Hfill) in Hr.
  apply bind_inv in Hr as (s1 & rid & Hi & Hr). apply bind_inv in Hr as (s2 & [] & Hk & Hr).
  apply bind_inv in Hr as (s3 & [] & Hlog & Hr). injection Hr as <- <- <-. split; [done|]. apply log_change_tables in Hlog as [Hf Hb].
  assert (Hins : inserted s s1 (in_tab_name e) x rid (concat bs)) by (eapply table_insert; [done|done|lia|done|done]).
  exists s1, s2. split_and!; [done|done|done|done|]. intros Hi0. rewrite Hi0 in Hk. injection Hk as <-.
  destruct Hins as (? & x' & Hx' & Hok' & Htab). split; [done|]. exists x'. destruct (table_same s1 s3 x' Hb Hok') as [? Hsame].
  split_and!; [by rewrite Hf|done|]. intros q. by rewrite Hsame.
Qed.
End insertions.

(** *** Examples: a table with an index on its first column *)
Section examples.
Import SmManager.
#[local] Existing Instance demo_TxnContext.
#[local] Existing Instance demo_StmtContext.
#[local] Existing Instance demo_Shell.
#[local] Abbreviation demo_sm := (SmManager.t (DiskManager.t MemFs.t) LRUReplacer.t (Context.t (DiskManager.t MemFs.t))).

Definition int_value (n : Z) : Value := mkValue TYPE_INT (le_encode 8 n) "" None.
Definition demo_insert (n : Z) (name : string) : M demo_sm unit :=
  e ← make_insert (mkRid 0 0) "t" [int_value n; text_value name];
  _ ← insert_next demo_junk e;
  mret tt.
Definition demo_table : M demo_sm unit :=
  create_table "t" [mkColDef "a" TYPE_INT 4; mkColDef "b" TYPE_STRING 4];;
  create_index demo_junk (mkRid 0 0) "t" ["a"] false;;
  demo_insert 1 "one";;
  demo_insert 5 "five".
Definition demo_full : demo_sm * res unit := demo_table demo_start.
Definition set_a (n : Z) : SetClause := mkSetClause (mkTabCol "t" "a" FUNC_NULL "" false) (int_value n).
Definition demo_update (n : Z) (rid : Rid) : M demo_sm unit :=
  e ← make_update "t" [set_a n] [rid];
  _ ← update_next e;
  mret tt.
Definition outcome {A} (x : demo_sm * res A) : option exn := match x.2 with Ok _ => None | Throw e => Some e end.

(** An insertion into the table of the scans, with bytes in the memory before. *)
Definition insert_db : demo_sm := SmManager.set_ctx demo_ctx scan_db.
Lemma insert_db_open : open_ok insert_db scan_file.
Proof. apply open_other_ctx. exact (proj2 (scan_demo_ok [])). Qed.
Definition demo_executor (values : list Value) : insert_t := mkInsert (mkTabMeta "t" (scan_cols "t") []) values "t" (mkRid 0 0).
Definition demo_used : bytes := replicate 4096 170.
Definition demo_next (values : list Value) := insert_next demo_used (demo_executor values) insert_db.
Definition demo_bytes : bytes := le_encode 4 7 ++ [97; 98] ++ replicate 506 0.

Lemma insert_record_of_values_witness :
  (match demo_next [int_value 7; text_value "ab"] with
   | (s', Ok (e', _)) => inserted insert_db s' "t" scan_file (in_rid e') demo_bytes /\ in_rid e' = mkRid 1 3
   | _ => False
   end) /\
  exists ex, demo_next [text_value "ab"; int_value 7] = (insert_db, Throw ex).
Proof.
  split.
  - destruct (demo_next [int_value 7; text_value "ab"]) as [s' [[e' o]|ex]] eqn:E.
    + pose proof (f_equal (fun r => match r.2 with Ok (e, _) => in_rid e | _ => mkRid 0 0 end) E) as Er. cbn [snd] in Er.
      destruct (insert_record_of_values "t" [mkColDef "a" TYPE_INT 4; mkColDef "b" TYPE_STRING 508] (scan_cols "t") 512
        [int_value 7; text_value "ab"] demo_used insert_db (demo_executor [int_value 7; text_value "ab"]) scan_file) as [_ H];
        [repeat constructor; discriminate|vm_compute; reflexivity|reflexivity|repeat constructor|reflexivity|reflexivity
        |exact insert_db_open|vm_compute; reflexivity|vm_compute; reflexivity|reflexivity|reflexivity|].
      destruct (H s' e' o E) as (_ & s1 & s2 & _ & _ & _ & _ & Hi). split; [exact (Hi eq_refl)|].
      rewrite <- Er. vm_compute. reflexivity.
    + apply (f_equal (fun r => match r.2 with Ok _ => true | _ => false end)) in E.
      cbn [snd] in E. vm_compute in E. discriminate E.
  - apply (insert_record_of_values "t" [mkColDef "a" TYPE_INT 4; mkColDef "b" TYPE_STRING 508] (scan_cols "t") 512
        [text_value "ab"; int_value 7] demo_used insert_db (demo_executor [text_value "ab"; int_value 7]) scan_file);
        [repeat constructor; discriminate|vm_compute; reflexivity|reflexivity|repeat constructor|reflexivity|reflexivity
        |exact insert_db_open|vm_compute; reflexivity|vm_compute; reflexivity|reflexivity|reflexivity].
Defined.

(** After an update that changes a key no key may follow the old one, or an assertion fails:
    of the records 1 and 5, 1 cannot become 9, and 5 neither, but 5 can become 0. *)
Lemma update_asserts_last :
  outcome demo_full = None /\
  outcome (demo_update 9 (mkRid 1 0) demo_full.1) = Some AssertFailure /\
  outcome (demo_update 9 (mkRid 1 1) demo_full.1) = Some AssertFailure /\
  outcome (demo_update 0 (mkRid 1 1) demo_full.1) = None.
Proof. split_and!; vm_compute; reflexivity. Qed.

(** A string that is shorter than its column is read past its end. *)
Lemma update_overreads :
  assign (mkTabMeta "t" [mkColMeta "t" "b" TYPE_STRING 4 0 false] [])
    (mkSetClause (mkTabCol "t" "b" FUNC_NULL "" false) (text_value "ab")) [120; 120; 120; 0] = Throw Stuck.
Proof. reflexivity. Qed.
End examples.
End Modify.
