(* ===== verification/Printer.v ===== *)
(** * The reply of a statement

    [record_printer.h], and the functions that print: [QlManager::select_from] of
    [execution/execution_manager.cpp], and [show_tables], [desc_table] and [show_index] of
    [system/sm_manager.cpp]. *)

From Stdlib Require Import SpecFloat.
From S2P Require Import Prelude Common RmDefs IxDefs SmMeta Values Filter Executor.

(** ** [RecordPrinter] *)
Module Printer.

Definition RECORD_COUNT_LENGTH : Z := 40.
Definition BUFFER_LENGTH : Z := 8192.
Definition COL_WIDTH : nat := 16.

(** What the context has for the reply, [data_send_], [*offset_] and [ellipsis_], and the
    text that was appended to the file output.txt. *)
Record reply := mkReply { data : bytes; offset : Z; ellipsis : bool; outfile : bytes }.
Definition set_ellipsis (r : reply) : reply := mkReply (data r) (offset r) true (outfile r).
Definition to_file (l : bytes) (r : reply) : reply := mkReply (data r) (offset r) (ellipsis r) (outfile r ++ l).

(** [memcpy(data_send_ + *offset_, str, length)], and the new offset. *)
Definition put (str : bytes) (r : reply) : res reply :=
  data ← copy (data r) (offset r) (Some str) 0 (Z.of_nat (length str));
  Ok (mkReply data (i32 (offset r + Z.of_nat (length str))) (ellipsis r) (outfile r)).
(** [*offset_ + RECORD_COUNT_LENGTH + length < BUFFER_LENGTH], in [size_t]. *)
Definition room (str : bytes) (r : reply) : bool :=
  negb (ellipsis r) && (u64 (u64 (i32 (offset r + RECORD_COUNT_LENGTH)) + Z.of_nat (length str)) <? BUFFER_LENGTH).
(** A piece of the table; [mark] tells whether the reply is cut when there is no room. *)
Definition emit (mark : bool) (str : bytes) (r : reply) : res reply :=
  if room str r then put str r else Ok (if mark then set_ellipsis r else r).

Fixpoint emits (l : list (bool * bytes)) (r : reply) : res reply :=
  match l with [] => Ok r | (mark, str) :: l' => r ← emit mark str r; emits l' r end.

(** The pieces of a separator and of a record. *)
Definition dash : bytes := str_bytes "+" ++ replicate (COL_WIDTH + 2) 45.
Definition separator (num_cols : nat) : list (bool * bytes) :=
  replicate num_cols (true, dash) ++ [(true, str_bytes ("+" +:+ endl))].
Definition shorten (col : bytes) : bytes :=
  if (COL_WIDTH <? length col)%nat then take (COL_WIDTH - 3) col ++ str_bytes "..." else col.
Definition pad (col : bytes) : bytes := replicate (COL_WIDTH - length col) 32 ++ col.
Definition cell (col : bytes) : bytes := str_bytes "| " ++ pad (shorten col) ++ str_bytes " ".
Definition record_line (cols : list bytes) : list (bool * bytes) :=
  ((fun c => (true, cell c)) <$> cols) ++ [(false, str_bytes ("|" +:+ endl))].

Definition print_separator (num_cols : nat) (r : reply) : res reply := emits (separator num_cols) r.
Definition print_record (num_cols : nat) (rec_str : list bytes) (r : reply) : res reply :=
  if bool_decide (length rec_str = num_cols) then emits (record_line rec_str) r else Throw AssertFailure.
Definition print_record_count (num_rec : Z) (r : reply) : res reply :=
  put ((if ellipsis r then str_bytes ("... ..." +:+ endl) else []) ++
       str_bytes ("Total record(s): " +:+ pretty num_rec +:+ endl)) r.
(** The constructor. *)
Definition check_cols (num_cols : nat) : res unit := if (0 <? num_cols)%nat then Ok tt else Throw AssertFailure.

(** *** The reply never overflows *)

(** Room for the line with the number of records is kept. *)
Record fits (r : reply) : Prop := {
  fi_data : Z.of_nat (length (data r)) = BUFFER_LENGTH;
  fi_offset : 0 <= offset r;
  fi_room : offset r + RECORD_COUNT_LENGTH < BUFFER_LENGTH;
}.
(** What has been written. *)
Definition written (r : reply) : bytes := take (Z.to_nat (offset r)) (data r).

Lemma put_reply str r : Z.of_nat (length (data r)) = BUFFER_LENGTH -> 0 <= offset r ->
  offset r + Z.of_nat (length str) <= BUFFER_LENGTH ->
  exists r', put str r = Ok r' /\ written r' = written r ++ str /\ offset r' = offset r + Z.of_nat (length str) /\
    length (data r') = length (data r) /\ ellipsis r' = ellipsis r /\ outfile r' = outfile r.
Proof.
  intros Hd Ho Hl. unfold put. unfold BUFFER_LENGTH in *. rewrite copy_ok by lia. cbn [mbind res_bind].
  eexists. split; [done|]. cbn [data offset ellipsis outfile]. rewrite i32_small by (unfold in_i32; lia).
  change (Z.to_nat 0) with 0%nat. rewrite Nat2Z.id, mem_read_full. split_and!; try done; [|by rewrite length_mem_write].
  unfold written. cbn [data offset]. unfold mem_write. rewrite (take_ge str) by lia.
  rewrite app_assoc, take_app_le by (rewrite length_app, length_take; lia).
  apply take_ge. rewrite length_app, length_take. lia.
Qed.

Lemma room_spec str r : fits r -> room str r = negb (ellipsis r) &&
  (offset r + RECORD_COUNT_LENGTH + Z.of_nat (length str) <? BUFFER_LENGTH) \/ 2 ^ 32 <= Z.of_nat (length str).
Proof.
  intros [Hd Ho Hr]. destruct (Z.ltb_spec (Z.of_nat (length str)) (2 ^ 32)); [left|by right].
  unfold room, RECORD_COUNT_LENGTH, BUFFER_LENGTH, u64 in *. rewrite i32_small by (unfold in_i32; lia).
  rewrite !Z.mod_small by (rewrite ?Z.mod_small; lia). done.
Qed.

Lemma emit_ok mark str r : fits r -> (length str <= 40)%nat ->
  exists r', emit mark str r = Ok r' /\ fits r' /\ outfile r' = outfile r /\
    (room str r = true /\ written r' = written r ++ str /\ offset r' = offset r + Z.of_nat (length str) /\ ellipsis r' = ellipsis r \/
     room str r = false /\ written r' = written r /\ offset r' = offset r /\ ellipsis r' = mark || ellipsis r).
Proof.
  intros Hf Hl. unfold emit. destruct (room str r) eqn:E.
  - destruct (room_spec str r Hf) as [Hr|?]; [|lia]. rewrite E in Hr. symmetry in Hr. apply andb_true_iff in Hr as [_ Hr].
    apply Z.ltb_lt in Hr. destruct Hf as [Hd Ho Hr0]. unfold RECORD_COUNT_LENGTH in *.
    destruct (put_reply str r Hd Ho ltac:(lia)) as (r' & -> & Hw & Hoff & Hlen & He & Hout). exists r'.
    split; [done|]. split; [split; unfold RECORD_COUNT_LENGTH; lia|]. split; [done|]. by left.
  - exists (if mark then set_ellipsis r else r). split; [done|]. destruct Hf as [Hd Ho Hr0].
    destruct mark; (split; [by split|split; [done|right; done]]).
Qed.

(** Pieces as the printer makes them: not longer than a column, and at least two characters;
    only the shortest are not marked. *)
Definition piece (x : bool * bytes) : Prop := (2 <= length x.2 <= 40)%nat /\ (x.1 = false -> length x.2 = 2%nat).

Lemma emits_none l : forall r, fits r -> Forall piece l ->
  (ellipsis r = true \/ offset r + RECORD_COUNT_LENGTH + 2 >= BUFFER_LENGTH) ->
  exists r', emits l r = Ok r' /\ fits r' /\ written r' = written r /\ outfile r' = outfile r /\
    (ellipsis r = true -> ellipsis r' = true) /\ (Exists (fun x => x.1 = true) l -> ellipsis r' = true).
Proof.
  induction l as [|[mark str] l IH]; intros r Hf Hp Hn.
  { exists r. split_and!; try done. by intros Hx%Exists_nil. }
  apply Forall_cons in Hp as [[[P1 P2] P3] Hp]. cbn [fst snd] in *. cbn [emits].
  destruct (emit_ok mark str r Hf P2) as (r1 & -> & Hf1 & Ho1 & [(E & _)|(_ & Hw & Hoff & He)]).
  { exfalso. destruct (room_spec str r Hf) as [Hr|?]; [|lia]. rewrite E in Hr. symmetry in Hr. apply andb_true_iff in Hr as [R1 R2].
    apply Z.ltb_lt in R2. destruct Hn as [Hn|Hn]; [by rewrite Hn in R1|lia]. }
  cbn [mbind res_bind]. destruct (IH r1 Hf1 Hp) as (r' & Hr & Hf' & Hw' & Ho' & He' & Hx').
  { rewrite He, Hoff. destruct Hn as [->|Hn]; [left; by destruct mark|by right]. }
  exists r'. split_and!; try done; [by rewrite Hw', Hw|by rewrite Ho', Ho1| |].
  - intros Ht. apply He'. rewrite He, Ht. by destruct mark.
  - intros [Hm|Hx]%Exists_cons; [cbn in Hm; subst mark; apply He'; by rewrite He|by apply Hx'].
Qed.

(** The first piece that is left out would leave less than the place of the line with the
    number of records, 40 of the 8192 characters. *)
Definition stops_at (off : Z) (done rest : list (bool * bytes)) : Prop :=
  match rest with [] => True | x :: _ => 8192 <= off + Z.of_nat (length (concat done.*2)) + 40 + Z.of_nat (length x.2) end.

(** What is printed is the beginning of the text, up to the first piece that does not fit. *)
Lemma emits_prefix l : forall r, fits r -> ellipsis r = false -> Forall piece l ->
  exists r' done rest, emits l r = Ok r' /\ fits r' /\ l = done ++ rest /\ written r' = written r ++ concat done.*2 /\
    outfile r' = outfile r /\ stops_at (offset r) done rest /\ (rest = [] -> ellipsis r' = false) /\ (Exists (fun x => x.1 = true) rest -> ellipsis r' = true).
Proof.
  induction l as [|[mark str] l IH]; intros r Hf He Hp.
  { exists r, [], []. split_and!; try done; [by rewrite app_nil_r|by intros Hx%Exists_nil]. }
  pose proof Hp as Hp0. apply Forall_cons in Hp as [[[P1 P2] P3] Hp]. cbn [fst snd] in *. cbn [emits].
  destruct (emit_ok mark str r Hf P2) as (r1 & Em & Hf1 & Ho1 & [(_ & Hw & Hoff & He1)|(E & _)]).
  - rewrite Em. cbn [mbind res_bind]. rewrite He in He1. destruct (IH r1 Hf1 He1 Hp) as (r' & d & rest & Hr & Hf' & -> & Hw' & Ho' & Hst & Q1 & Q2).
    exists r', ((mark, str) :: d), rest. split_and!; try done; [|by rewrite Ho', Ho1|].
    + rewrite Hw', Hw. cbn [fmap list_fmap concat snd]. by rewrite app_assoc.
    + unfold stops_at in *. destruct rest as [|x rest]; [done|]. cbn [fmap list_fmap concat snd]. rewrite length_app. lia.
  - destruct (emit_ok mark str r Hf P2) as (r2 & Em2 & Hf2 & Ho2 & [(E2 & _)|(_ & Hw & Hoff & He2)]); [congruence|].
    rewrite Em in Em2. injection Em2 as <-. rewrite Em. cbn [mbind res_bind].
    assert (Hroom : offset r + RECORD_COUNT_LENGTH + Z.of_nat (length str) >= BUFFER_LENGTH).
    { destruct (room_spec str r Hf) as [Hr|?]; [|lia].
      rewrite E, He in Hr. symmetry in Hr. cbn [negb andb] in Hr. apply Z.ltb_ge in Hr. lia. }
    assert (Hfull : ellipsis r1 = true \/ offset r1 + RECORD_COUNT_LENGTH + 2 >= BUFFER_LENGTH).
    { rewrite He2, Hoff. destruct mark; [by left|right]. specialize (P3 eq_refl). lia. }
    destruct (emits_none l r1 Hf1 Hp Hfull) as (r' & Hr & Hf' & Hw' & Ho' & Q1 & Q2).
    exists r', [], ((mark, str) :: l). split_and!; try done; [by rewrite app_nil_r, Hw', Hw|by rewrite Ho', Ho1| |].
    { unfold stops_at, RECORD_COUNT_LENGTH, BUFFER_LENGTH in *. cbn. lia. }
    intros [Hm|Hx]%Exists_cons; [cbn in Hm; subst mark; apply Q1; by rewrite He2|by apply Q2].
Qed.

Lemma length_cell col : length (cell col) = 19%nat.
Proof.
  unfold cell, pad, shorten, COL_WIDTH. rewrite !length_app, length_replicate. cbn [str_bytes].
  change (length (str_bytes "| ")) with 2%nat. change (length (str_bytes " ")) with 1%nat.
  destruct (Nat.ltb_spec 16 (length col)); [|lia]. rewrite length_app, length_take. change (length (str_bytes "...")) with 3%nat. lia.
Qed.

Lemma record_line_pieces cols : Forall piece (record_line cols).
Proof.
  unfold record_line. apply Forall_app. split.
  - apply Forall_fmap, Forall_true. intros c. pose proof (length_cell c). split; [cbn [fst snd compose]; lia|done].
  - constructor; [|constructor]. split; [split; apply Nat.leb_le; reflexivity|done].
Qed.

Lemma separator_pieces n : Forall piece (separator n).
Proof.
  unfold separator. apply Forall_app. split.
  - apply Forall_replicate. split; [split; apply Nat.leb_le; reflexivity|done].
  - constructor; [|constructor]. split; [split; apply Nat.leb_le; reflexivity|done].
Qed.

Lemma pretty_go_length k : forall x s, (x < 10 ^ N.of_nat k)%N -> (String.length (pretty_N_go x s) <= k + String.length s)%nat.
Proof.
  induction k as [|k IH]; intros x s Hx.
  - assert (x = 0%N) as -> by (change (10 ^ N.of_nat 0)%N with 1%N in Hx; lia). by rewrite pretty_N_go_0.
  - destruct (decide (x = 0%N)) as [->|Hne]; [rewrite pretty_N_go_0; lia|]. rewrite pretty_N_go_step by lia.
    etrans; [apply IH|cbn; lia]. apply N.Div0.div_lt_upper_bound. rewrite Nat2N.inj_succ, N.pow_succ_r' in Hx. lia.
Qed.

Lemma pretty_length k z : (0 < k)%nat -> 0 <= z < 10 ^ Z.of_nat k -> (length (str_bytes (pretty z)) <= k)%nat.
Proof.
  intros Hk Hz. rewrite length_str_bytes. destruct z as [|p|p]; [cbn; lia| |lia].
  change (pretty (Z.pos p)) with (pretty_N_go (N.pos p) ""). etrans; [apply (pretty_go_length k)|cbn; lia].
  apply N2Z.inj_lt. rewrite N2Z.inj_pow, nat_N_Z. cbn in Hz |- *. lia.
Qed.

Lemma length_str_app a b : length (str_bytes (a +:+ b)) = (length (str_bytes a) + length (str_bytes b))%nat.
Proof. rewrite !length_str_bytes. induction a as [|c a IH]; [done|]. change (S (String.length (a +:+ b)) = S (String.length a + String.length b)). by rewrite IH. Qed.

Lemma count_fits num_rec r : fits r -> 0 <= num_rec < 10 ^ 14 ->
  exists r' text, print_record_count num_rec r = Ok r' /\ written r' = written r ++ text /\ 0 <= offset r' <= BUFFER_LENGTH /\
    text = (if ellipsis r then str_bytes ("... ..." +:+ endl) else []) ++ str_bytes ("Total record(s): " +:+ pretty num_rec +:+ endl).
Proof.
  intros [Hd Ho Hr] Hn. unfold print_record_count. set (text := _ ++ _).
  assert (Hl : (length text <= 40)%nat).
  { subst text. rewrite length_app, (length_str_app "Total record(s): "), (length_str_app (pretty num_rec)).
    pose proof (pretty_length 14 num_rec ltac:(lia) Hn). change (length (str_bytes endl)) with 1%nat.
    change (length (str_bytes "Total record(s): ")) with 17%nat.
    destruct (ellipsis r); [change (length (str_bytes ("... ..." +:+ endl))) with 8%nat|cbn [length]]; lia. }
  unfold RECORD_COUNT_LENGTH in Hr. destruct (put_reply text r Hd Ho ltac:(lia)) as (r' & -> & Hw & Hoff & _).
  exists r', text. split_and!; [done|done|lia|lia|done].
Qed.

(** C39: a table of any size: the separators and records are printed up to the first piece
    that does not fit with the 40 characters kept for the last line, and no further; the reply is marked as cut if a cell is missing, the line with the
    number of records, up to fourteen digits, always has its place, and nothing is written
    outside the buffer. *)
Theorem table_is_cut (tbl : list (bool * bytes)) (r : reply) (num_rec : Z) :
  fits r -> ellipsis r = false -> Forall piece tbl -> 0 <= num_rec < 10 ^ 14 ->
  exists r' done rest, (r1 ← emits tbl r; print_record_count num_rec r1) = Ok r' /\ tbl = done ++ rest /\
    stops_at (offset r) done rest /\ 0 <= offset r' <= BUFFER_LENGTH /\
    exists cut : bool, (rest = [] -> cut = false) /\ (Exists (fun x => x.1 = true) rest -> cut = true) /\
      written r' = written r ++ concat done.*2 ++
        (if cut then str_bytes ("... ..." +:+ endl) else []) ++ str_bytes ("Total record(s): " +:+ pretty num_rec +:+ endl).
Proof.
  intros Hf He Hp Hn. destruct (emits_prefix tbl r Hf He Hp) as (r1 & d & rest & -> & Hf1 & -> & Hw & _ & Hst & Q1 & Q2).
  destruct (count_fits num_rec r1 Hf1 Hn) as (r2 & text & Hc & Hw2 & Ho & ->). exists r2, d, rest. split_and!; try done; try lia.
  exists (ellipsis r1). split_and!; [done|done|]. by rewrite Hw2, Hw, <- !app_assoc.
Qed.

(** A reply with place for one more cell, and an empty one. *)
Definition empty_reply : reply := mkReply (replicate 8192 0) 0 false [].
Definition full_reply : reply := mkReply (replicate 8192 0) 8120 false [].
Definition two_cells : list (bool * bytes) := record_line [str_bytes "a"; str_bytes "b"].
Lemma table_is_cut_witness :
  (exists r' done rest, (r1 ← emits (separator 1) empty_reply; print_record_count 1 r1) = Ok r' /\
    separator 1 = done ++ rest /\ stops_at 0 done rest /\ 0 <= offset r' <= BUFFER_LENGTH /\
    exists cut : bool, (rest = [] -> cut = false) /\ (Exists (fun x => x.1 = true) rest -> cut = true) /\
      written r' = written empty_reply ++ concat done.*2 ++
        (if cut then str_bytes ("... ..." +:+ endl) else []) ++ str_bytes ("Total record(s): " +:+ pretty 1 +:+ endl)) /\
  (exists r' done rest, (r1 ← emits two_cells full_reply; print_record_count 1 r1) = Ok r' /\
    two_cells = done ++ rest /\ stops_at 8120 done rest /\ 0 <= offset r' <= BUFFER_LENGTH /\
    exists cut : bool, (rest = [] -> cut = false) /\ (Exists (fun x => x.1 = true) rest -> cut = true) /\
      written r' = written full_reply ++ concat done.*2 ++
        (if cut then str_bytes ("... ..." +:+ endl) else []) ++ str_bytes ("Total record(s): " +:+ pretty 1 +:+ endl)) /\
  match emits two_cells full_reply with Ok r => (ellipsis r, offset r) = (true, 8120 + 19) | _ => False end.
Proof.
  split; [|split; [|vm_compute; reflexivity]].
  - apply (table_is_cut (separator 1) empty_reply 1); [split; [reflexivity|discriminate|reflexivity]|reflexivity|apply separator_pieces|lia].
  - apply (table_is_cut two_cells full_reply 1); [split; [reflexivity|discriminate|reflexivity]|reflexivity|apply record_line_pieces|lia].
Defined.
End Printer.

(** ** Values as text *)
Module Text.

(** [std::to_string] of a [float]: six decimals, rounded to nearest, ties to even. *)
Definition round_even (n d : Z) : Z :=
  let q := n / d in
  let r := n mod d in
  if (2 * r <? d) || ((2 * r =? d) && Z.even q) then q else q + 1.
Definition six_digits (n : Z) : bytes := (fun k => 48 + (n / 10 ^ k) mod 10) <$> [5; 4; 3; 2; 1; 0].
Definition float_text (b : Z) : bytes :=
  let sign := if 2 ^ 31 <=? b then str_bytes "-" else [] in
  sign ++ match f32_of b with
          | S754_nan => str_bytes "nan"
          | S754_infinity _ => str_bytes "inf"
          | S754_zero _ => str_bytes "0.000000"
          | S754_finite _ m e =>
              let n := if 0 <=? e then Zpos m * 2 ^ e * 10 ^ 6 else round_even (Zpos m * 10 ^ 6) (2 ^ (- e)) in
              str_bytes (pretty (n / 10 ^ 6)) ++ str_bytes "." ++ six_digits (n mod 10 ^ 6)
          end.

(** The text of a column of a record. *)
Definition column (col : ColMeta) (data : option bytes) : res bytes :=
  p ← Filter.ptr_at data (cm_offset col);
  match cm_type col with
  | TYPE_INT => if Filter.readable 4 p then Ok (str_bytes (pretty (load_i32 p 0))) else Throw Stuck
  | TYPE_FLOAT => if Filter.readable 4 p then Ok (float_text (load_u32 p 0)) else Throw Stuck
  | TYPE_STRING | TYPE_DATETIME =>
      if (0 <=? cm_len col) && Filter.readable (Z.to_nat (cm_len col)) p
      then Ok (c_str (take (Z.to_nat (cm_len col)) p)) else Throw Stuck
  | TYPE_BIGINT => if Filter.readable 8 p then Ok (str_bytes (pretty (load_i64 p 0))) else Throw Stuck
  | TYPE_DOUBLE => Throw (InternalError "ExecutionManager::select_from: unknown type error")
  end.
Fixpoint columns (cols : list ColMeta) (data : option bytes) : res (list bytes) :=
  match cols with [] => Ok [] | c :: cs => x ← column c data; l ← columns cs data; Ok (x :: l) end.

(** The text of a projected row is that of the columns it was made of. *)
Definition text_len (c : ColMeta) : Prop :=
  match cm_type c with TYPE_INT | TYPE_FLOAT => cm_len c = 4 | TYPE_BIGINT => cm_len c = 8 | _ => True end.

Lemma mem_read_take p q k n : (n <= k)%nat -> (k <= length p)%nat -> mem_read (take k p ++ q) 0 n = mem_read p 0 n.
Proof. intros Hn Hk. unfold mem_read. rewrite !drop_0. rewrite take_app_le by (rewrite length_take; lia). by rewrite take_take, Nat.min_l by lia. Qed.

Lemma column_projected n c off x pre post : Projection.col_in n c -> text_len c -> length x = n -> off = Z.of_nat (length pre) ->
  column (Projection.set_offset off c) (Some (pre ++ Projection.field c x ++ post)) = column c (Some x).
Proof.
  intros (Ho & Hl & Hn) Ht Hx ->. unfold column, Filter.ptr_at. cbn [cm_offset Projection.set_offset cm_type cm_len].
  rewrite !(proj2 (Z.ltb_ge _ _)), Nat2Z.id by lia. cbn [mbind res_bind]. rewrite drop_app_length.
  unfold Projection.field. set (p := drop (Z.to_nat (cm_offset c)) x).
  assert (Hp : (Z.to_nat (cm_len c) <= length p)%nat) by (subst p; rewrite length_drop; lia).
  change (mem_read x (Z.to_nat (cm_offset c)) (Z.to_nat (cm_len c))) with (take (Z.to_nat (cm_len c)) p).
  assert (Hr : forall k, (k <= Z.to_nat (cm_len c))%nat -> Filter.readable k (take (Z.to_nat (cm_len c)) p ++ post) = Filter.readable k p).
  { intros k Hk. unfold Filter.readable. rewrite !(proj2 (Nat.leb_le _ _)); [done|lia|]. rewrite length_app, length_take. lia. }
  unfold text_len in Ht. destruct (cm_type c); try done.
  - rewrite Hr by lia. unfold load_i32, load_u32. by rewrite mem_read_take by lia.
  - rewrite Hr by lia. unfold load_u32. by rewrite mem_read_take by lia.
  - rewrite Hr by lia. by rewrite take_app_le, take_take, Nat.min_id by (rewrite length_take; lia).
  - rewrite Hr by lia. unfold load_i64, load_u64. by rewrite mem_read_take by lia.
  - rewrite Hr by lia. by rewrite take_app_le, take_take, Nat.min_id by (rewrite length_take; lia).
Qed.

Lemma columns_projected n srcs x : Forall (Projection.col_in n) srcs -> Forall text_len srcs -> length x = n ->
  columns (Projection.offsets 0 srcs) (Some (Projection.project srcs x)) = columns srcs (Some x).
Proof.
  intros Hi Ht Hx.
  cut (forall off pre, off = Z.of_nat (length pre) ->
    columns (Projection.offsets off srcs) (Some (pre ++ Projection.project srcs x)) = columns srcs (Some x)).
  { intros H. exact (H 0 [] eq_refl). }
  revert Ht. induction Hi as [|c cs Hc Hi IH]; intros Ht off pre Hoff; [done|]. apply Forall_cons in Ht as [Hct Ht].
  cbn [Projection.offsets columns]. unfold Projection.project. cbn [fmap list_fmap concat]. fold (Projection.project cs x).
  rewrite (column_projected n) by done. destruct (column c (Some x)); [|done]. cbn [mbind res_bind].
  rewrite (app_assoc pre). rewrite IH; [done|done|].
  rewrite length_app. unfold Projection.field. destruct Hc as (? & ? & ?). rewrite length_mem_read. lia.
Qed.

(** A line of output.txt. *)
Definition line (l : list bytes) : bytes :=
  str_bytes "|" ++ concat ((fun x => str_bytes " " ++ x ++ str_bytes " |") <$> l) ++ str_bytes endl.
End Text.

(** ** [select_from], [show_tables], [desc_table] and [show_index] *)
Module Select.
Import Printer.

Section ops.
Context {S E : Type} `{AbstractExecutor S E} (fuel : nat).

(** The state of the executors, and the reply. *)
Definition on_db {A} (m : M S A) : M (S * reply) A := zoom fst (fun s x => (s, x.2)) m.
Definition on_reply (f : reply -> res reply) : M (S * reply) unit := fun x =>
  match f x.2 with Ok r => ((x.1, r), Ok tt) | Throw e => (x, Throw e) end.
Definition file (l : bytes) : M (S * reply) unit := on_reply (fun r => Ok (to_file l r)).

Definition caption (sel_col : TabCol) : bytes :=
  str_bytes (if String.eqb (tc_alias sel_col) "" then tc_col_name sel_col else tc_alias sel_col).

(** The loop over the rows, with the number of them. *)
Fixpoint records (fuel : nat) (num_cols : nat) (e : E) (num_rec : Z) : M (S * reply) (E * Z) :=
  b ← on_db (lift (ex_is_end e));
  if b : bool then mret (e, num_rec) else
  match fuel with
  | O => throw OutOfFuel
  | Datatypes.S fuel' =>
      '(e, o) ← on_db (ex_Next e);
      match o with
      | None => throw Stuck
      | Some rec =>
          cols ← lift (Text.columns (ex_cols e) (rec_data rec));
          on_reply (print_record num_cols cols);;
          file (Text.line cols);;
          e ← on_db (ex_nextTuple e);
          records fuel' num_cols e (u64 (num_rec + 1))
      end
  end.

Definition select_from (e : E) (sel_cols : list TabCol) : M (S * reply) E :=
  let captions := caption <$> sel_cols in
  let n := length sel_cols in
  lift (check_cols n);;
  on_reply (print_separator n);;
  on_reply (print_record n captions);;
  on_reply (print_separator n);;
  file (Text.line captions);;
  e ← on_db (ex_beginTuple e);
  '(e, num_rec) ← records fuel n e 0;
  on_reply (print_separator n);;
  on_reply (print_record_count num_rec);;
  mret e.
End ops.

(** The header of a table with these columns, its records and a last line. *)
Fixpoint print_records (num_cols : nat) (l : list (list bytes)) (r : reply) : res reply :=
  match l with [] => Ok r | x :: l' => r ← print_record num_cols x r; print_records num_cols l' r end.
Definition header (captions : list bytes) (r : reply) : res reply :=
  r ← print_separator (length captions) r;
  r ← print_record (length captions) captions r;
  print_separator (length captions) r.

Definition show_tables (d : DbMeta) (r : reply) : res reply :=
  let names := (fun e => str_bytes (tm_name e.2)) <$> entries d in
  r ← header [str_bytes "Tables"] (to_file (str_bytes ("| Tables |" +:+ endl)) r);
  r ← print_records 1 ((fun n => [n]) <$> names) r;
  print_separator 1 (to_file (concat ((fun n => Text.line [n]) <$> names)) r).

(** What desc prints of a column. *)
Definition field_info (c : ColMeta) : res (list bytes) :=
  t ← coltype2str (cm_type c);
  Ok [str_bytes (cm_name c); str_bytes t; str_bytes (if cm_index c then "YES" else "NO")].
Fixpoint fields (l : list ColMeta) (r : reply) : res reply :=
  match l with [] => Ok r | c :: l' => i ← field_info c; r ← print_record 3 i r; fields l' r end.
Definition desc_table (d : DbMeta) (tab_name : string) (r : reply) : res reply :=
  tab ← get_table d tab_name;
  r ← header [str_bytes "Field"; str_bytes "Type"; str_bytes "Index"] r;
  r ← fields (tm_cols tab) r;
  print_separator 3 r.

(** The columns of an index, separated by commas and in parentheses. *)
Definition idx_str (i : IndexMeta) : string := "(" +:+ String.concat "," (cm_name <$> im_cols i) +:+ ")".
Definition show_index (d : DbMeta) (tab_name : string) (r : reply) : res reply :=
  r ← header [str_bytes "Table"; str_bytes "Type"; str_bytes "Index"] r;
  tab ← get_table d tab_name;
  r ← print_records 3 ((fun i => [str_bytes tab_name; str_bytes "unique"; str_bytes (idx_str i)]) <$> tm_indexes tab) r;
  print_separator 3 (to_file (concat ((fun i => Text.line [str_bytes tab_name; str_bytes "unique"; str_bytes (idx_str i)]) <$> tm_indexes tab)) r).

(** *** What a selection writes *)
Section laws.
Context {S E : Type} `{Enumerates S E}.

Lemma on_reply_ok f (x x' : S * reply) : on_reply f x = (x', Ok tt) -> exists r, f x.2 = Ok r /\ x' = (x.1, r).
Proof. unfold on_reply. destruct (f x.2) as [r|]; [|done]. intros [= <-]. eauto. Qed.
Lemma on_db_ok {A} (m : M S A) (x x' : S * reply) a : on_db m x = (x', Ok a) -> exists s, m x.1 = (s, Ok a) /\ x' = (s, x.2).
Proof. unfold on_db, zoom. destruct (m x.1) as [s r]. intros [= <- ->]. eauto. Qed.

(** The lines of the rows. *)
Definition lines (cols : list ColMeta) (l : list bytes) : res (list bytes) :=
  foldr (fun x k => t ← Text.columns cols (Some x); r ← k; Ok (Text.line t :: r)) (Ok []) l.

Lemma put_file str r r' : put str r = Ok r' -> outfile r' = outfile r.
Proof. unfold put. destruct (copy _ _ _ _ _); [|done]. by intros [= <-]. Qed.
Lemma emits_file l : forall r r', emits l r = Ok r' -> outfile r' = outfile r.
Proof.
  induction l as [|[m str] l IH]; intros r r' He; [by injection He as <-|]. cbn [emits] in He.
  destruct (emit m str r) as [r1|] eqn:E1; [|done]. apply IH in He as ->. unfold emit in E1.
  destruct (room str r); [by eapply put_file|]. injection E1 as <-. by destruct m.
Qed.
Lemma record_file n l r r' : print_record n l r = Ok r' -> outfile r' = outfile r /\ length l = n.
Proof. unfold print_record. case_bool_decide; [|done]. intros Hr. split; [by eapply emits_file|done]. Qed.

Lemma records_ok fuel n : forall (x x' : S * reply) e e' l r k k', en_at x.1 e l r ->
  records fuel n e k x = (x', Ok (e', k')) -> 0 <= k -> k + Z.of_nat (length r) < 2 ^ 64 ->
  calm x.1 x'.1 /\ k' = k + Z.of_nat (length r) /\ ex_cols e' = ex_cols e /\
  exists t, lines (ex_cols e) r = Ok t /\ outfile x'.2 = outfile x.2 ++ concat t.
Proof.
  induction fuel as [|fuel IH]; intros x x' e e' l r k k' Ha Hr Hk Hb; cbn [records] in Hr;
    apply bind_inv in Hr as (x1 & b & Hb1 & Hr); apply on_db_ok in Hb1 as (s1 & Hb1 & ->); unfold lift in Hb1;
    injection Hb1 as <- Hb1; rewrite (en_end _ _ _ _ Ha) in Hb1; injection Hb1 as <-;
    (destruct r as [|y r]; [rewrite bool_decide_true in Hr by done; unfold mret, M_ret in Hr; injection Hr as <- <- <-;
       split_and!; [apply calm_refl|cbn; lia|done|exists []; by rewrite app_nil_r]|rewrite bool_decide_false in Hr by done; try done]).
  apply bind_inv in Hr as (x2 & [e1 o] & Hn & Hr). apply on_db_ok in Hn as (s2 & Hn & ->). cbn [fst snd] in *.
  destruct (en_next_row _ _ _ _ _ _ _ _ Ha Hn) as (C1 & -> & Ht).
  apply bind_inv in Hr as (x3 & cols & Hc & Hr). unfold lift in Hc. injection Hc as <- Hc.
  apply bind_inv in Hr as (x4 & [] & Hp & Hr). apply on_reply_ok in Hp as (r1 & Hp & ->). cbn [fst snd] in *.
  apply bind_inv in Hr as (x5 & [] & Hf & Hr). unfold file in Hf. apply on_reply_ok in Hf as (r2 & Hf & ->). cbn [fst snd] in *. injection Hf as <-.
  apply bind_inv in Hr as (x6 & e2 & Hx & Hr). apply on_db_ok in Hx as (s3 & Hx & ->). cbn [fst snd] in *.
  destruct (en_advance _ _ _ _ _ _ Ht Hx) as (C2 & Ha2). cbn [length] in Hb.
  assert (Hk1 : u64 (k + 1) = k + 1) by (unfold u64; rewrite Z.mod_small; lia). rewrite Hk1 in Hr.
  destruct (IH (s3, _) x' e2 e' l r (k + 1) k' Ha2 Hr ltac:(lia) ltac:(lia)) as (C3 & -> & Ec & t & Hl & Ho). cbn [fst snd] in *.
  assert (E2 : ex_cols e2 = ex_cols e) by (rewrite (en_advance_cols _ _ _ _ Hx); by eapply en_row_cols).
  assert (E1 : ex_cols e1 = ex_cols e) by (by eapply en_row_cols).
  split_and!; [eapply calm_trans; [exact C1|by eapply calm_trans]|cbn [length]; lia|congruence|].
  exists (Text.line cols :: t). rewrite E1 in Hc. cbn [rec_data row] in Hc. rewrite E2 in Hl.
  cbn [lines foldr]. rewrite Hc. cbn [mbind res_bind]. unfold lines in Hl. rewrite Hl. split; [done|].
  rewrite Ho. cbn [outfile to_file concat]. rewrite (proj1 (record_file _ _ _ _ Hp)). by rewrite <- app_assoc.
Qed.

Lemma select_from_ok fuel (x x' : S * reply) e e' sel_cols l : en_ready x.1 e l -> Z.of_nat (length l) < 2 ^ 64 ->
  select_from fuel e sel_cols x = (x', Ok e') ->
  calm x.1 x'.1 /\ exists t, lines (ex_cols e) l = Ok t /\ length t = length l /\
    outfile x'.2 = outfile x.2 ++ Text.line (caption <$> sel_cols) ++ concat t /\
    exists r, print_record_count (Z.of_nat (length l)) r = Ok x'.2.
Proof.
  intros Hready Hl Hr. unfold select_from in Hr.
  apply bind_inv in Hr as (x0 & [] & Hc & Hr). unfold lift in Hc. injection Hc as <- _.
  apply bind_inv in Hr as (x1 & [] & K1 & Hr). apply on_reply_ok in K1 as (r1 & K1 & ->). apply emits_file in K1.
  apply bind_inv in Hr as (x2 & [] & K2 & Hr). apply on_reply_ok in K2 as (r2 & K2 & ->). apply record_file in K2 as [K2 _].
  apply bind_inv in Hr as (x3 & [] & K3 & Hr). apply on_reply_ok in K3 as (r3 & K3 & ->). apply emits_file in K3.
  apply bind_inv in Hr as (x4 & [] & K4 & Hr). unfold file in K4. apply on_reply_ok in K4 as (r4 & K4 & ->). injection K4 as <-.
  apply bind_inv in Hr as (x5 & e1 & K5 & Hr). apply on_db_ok in K5 as (s5 & K5 & ->). cbn [fst snd] in *.
  destruct (en_begin _ _ _ _ _ Hready K5) as (C1 & Ha).
  apply bind_inv in Hr as (x6 & [e2 k] & K6 & Hr).
  destruct (records_ok fuel _ (s5, _) x6 e1 e2 l l 0 k Ha K6 ltac:(lia) ltac:(lia)) as (C2 & -> & _ & t & Ht & Ho). cbn [fst snd] in *.
  apply bind_inv in Hr as (x7 & [] & K7 & Hr). apply on_reply_ok in K7 as (r7 & K7 & ->). apply emits_file in K7.
  apply bind_inv in Hr as (x8 & [] & K8 & Hr). apply on_reply_ok in K8 as (r8 & K8 & ->). cbn [fst snd] in *.
  unfold mret, M_ret in Hr. injection Hr as <- <-. cbn [fst snd]. split; [by eapply calm_trans|].
  rewrite (en_begin_cols _ _ _ _ K5) in Ht. exists t. split_and!; [done| | |by exists r7].
  - clear - Ht. revert t Ht. induction l as [|y l IH]; intros t Ht; [by injection Ht as <-|]. cbn [lines foldr] in Ht.
    destruct (Text.columns _ _); [|done]. cbn [mbind res_bind] in Ht. fold (lines (ex_cols e) l) in Ht.
    destruct (lines (ex_cols e) l) as [t'|]; [|done]. injection Ht as <-. cbn. f_equal. by apply IH.
  - unfold print_record_count in K8. apply put_file in K8. rewrite K8, K7, Ho. cbn [outfile to_file]. rewrite K3, K2, K1.
    by rewrite <- app_assoc.
Qed.

(** C40: what a selection appends to output.txt, when it returns, is a line with the captions
    and one line for each row of the plan, in the order of the plan, with the text of its
    columns; and the count it replies is the number of these rows. *)
Theorem select_writes_rows fuel (x x' : S * reply) e e' sel_cols l : en_ready x.1 e l -> Z.of_nat (length l) < 2 ^ 64 ->
  select_from fuel e sel_cols x = (x', Ok e') ->
  calm x.1 x'.1 /\ exists t, lines (ex_cols e) l = Ok t /\ length t = length l /\
    outfile x'.2 = outfile x.2 ++ Text.line (caption <$> sel_cols) ++ concat t /\
    exists r, print_record_count (Z.of_nat (length l)) r = Ok x'.2.
Proof. apply select_from_ok. Qed.
End laws.

Definition demo_rows : Rows.t :=
  Rows.mk 8 [mkColMeta "t" "a" TYPE_INT 4 0 false; mkColMeta "t" "x" TYPE_FLOAT 4 4 false]
    [le_encode 4 7 ++ le_encode 4 1069547520; le_encode 4 (-3) ++ le_encode 4 1036831949] 0.
Definition demo_sel : list TabCol := [mkTabCol "t" "a" FUNC_NULL "" false; mkTabCol "t" "x" FUNC_NULL "price" false].

(** 7 and 1.5, -3 and 0.1. *)
Lemma select_writes_rows_witness :
  match select_from 3 demo_rows demo_sel (tt, empty_reply) with
  | (x', Ok e') =>
      outfile x'.2 = str_bytes ("| a | price |" +:+ endl +:+ "| 7 | 1.500000 |" +:+ endl +:+ "| -3 | 0.100000 |" +:+ endl) /\
      exists r, print_record_count 2 r = Ok x'.2
  | _ => False
  end.
Proof.
  destruct (select_from 3 demo_rows demo_sel (tt, empty_reply)) as [x' [e'|e]] eqn:E.
  - assert (Hr : en_ready tt demo_rows (Rows.rows demo_rows)) by reflexivity.
    destruct (select_writes_rows 3 (tt, empty_reply) x' demo_rows e' demo_sel (Rows.rows demo_rows) Hr eq_refl E)
      as (_ & t & Ht & _ & Ho & Hc). split; [|exact Hc].
    rewrite Ho. vm_compute in Ht. injection Ht as <-. vm_compute. reflexivity.
  - apply (f_equal (fun r => match r.2 with Ok _ => true | _ => false end)) in E.
    cbn [snd] in E. vm_compute in E. discriminate E.
Defined.
End Select.
