(* ===== verification/Ast.v ===== *)
(** * Syntax trees

    The nodes of [parser/ast.h].  A shared pointer to a node is the node; the base classes
    [Field], [Expr] and [Value], of which the parser makes no objects, are the sums of their
    subclasses. *)

From S2P Require Import Prelude.

Module ast.

Inductive JoinType := INNER_JOIN | LEFT_JOIN | RIGHT_JOIN | FULL_JOIN.
Inductive SvType := SV_TYPE_INT | SV_TYPE_FLOAT | SV_TYPE_STRING | SV_TYPE_BIGINT | SV_TYPE_DATETIME.
Inductive SvFunc := SV_FUNC_NULL | SV_FUNC_COUNT | SV_FUNC_MAX | SV_FUNC_MIN | SV_FUNC_SUM.
Inductive SvCompOp := SV_OP_EQ | SV_OP_NE | SV_OP_LT | SV_OP_GT | SV_OP_LE | SV_OP_GE.
Inductive OrderByDir := OrderBy_DEFAULT | OrderBy_ASC | OrderBy_DESC.

#[global] Instance SvFunc_eq_dec : EqDecision SvFunc.
Proof. solve_decision. Defined.
#[global] Instance OrderByDir_eq_dec : EqDecision OrderByDir.
Proof. solve_decision. Defined.

(** ** Parts of statements *)

Record TypeLen := mkTypeLen { tl_type : SvType; tl_len : Z }.
Inductive Field := ColDef (col_name : string) (type_len : TypeLen).

(** A [FloatLit] is the bits of its [float]. *)
Inductive Value :=
  | IntLit (val : Z)
  | FloatLit (val : Z)
  | BigintLit (val : Z)
  | StringLit (val : string).
Record Col := mkCol { col_tab_name : string; col_name : string }.
Inductive Expr := EValue (val : Value) | ECol (col : Col).

Record SetClause := mkSetClause { set_col_name : string; set_val : Value }.
Record BinaryExpr := mkBinaryExpr { be_lhs : Col; be_op : SvCompOp; be_rhs : Expr }.
Record OrderBy := mkOrderBy { ob_col : Col; orderby_dir : OrderByDir }.
Record JoinExpr := mkJoinExpr { je_left : string; je_right : string; je_conds : list BinaryExpr; je_type : JoinType }.
(** [col] is a null pointer for [COUNT( * )]. *)
Record SelectCol := mkSelectCol { sc_sv_func : SvFunc; sc_col : option Col; sc_alias : string }.

Record SelectStmt := mkSelectStmt {
  ss_cols : list SelectCol;
  ss_tabs : list string;
  ss_conds : list BinaryExpr;
  ss_jointree : list JoinExpr;
  ss_has_sort : bool;
  ss_has_aggregate : bool;
  ss_orders : list OrderBy;
  ss_limit : Z;
}.
(** The constructor with the limit, which the parser calls; without a [LIMIT] the limit is -1. *)
Definition new_select (cols : list SelectCol) (tabs : list string) (conds : list BinaryExpr) (orders : list OrderBy)
    (limit : Z) : SelectStmt :=
  mkSelectStmt cols tabs conds [] (negb (bool_decide (orders = [])) || (0 <=? limit))
    (existsb (fun c => negb (bool_decide (sc_sv_func c = SV_FUNC_NULL))) cols) orders limit.
(** What is left when the names of the tables are moved out. *)
Definition move_tabs (x : SelectStmt) : SelectStmt :=
  mkSelectStmt (ss_cols x) [] (ss_conds x) (ss_jointree x) (ss_has_sort x) (ss_has_aggregate x) (ss_orders x) (ss_limit x).

(** ** Statements *)

Inductive TreeNode :=
  | Help
  | ShowTables
  | TxnBegin
  | TxnCommit
  | TxnAbort
  | TxnRollback
  | CreateTable (tab_name : string) (fields : list Field)
  | DropTable (tab_name : string)
  | DescTable (tab_name : string)
  | ShowIndex (tab_name : string)
  | CreateIndex (tab_name : string) (col_names : list string)
  | DropIndex (tab_name : string) (col_names : list string)
  | InsertStmt (tab_name : string) (vals : list Value)
  | DeleteStmt (tab_name : string) (conds : list BinaryExpr)
  | UpdateStmt (tab_name : string) (set_clauses : list SetClause) (conds : list BinaryExpr)
  | Select (stmt : SelectStmt).

End ast.
