(* ===== verification/Analyze.v ===== *)
(** * Analysis of statements

    [analyze/analyze.h] and [analyze.cpp]: the columns of a statement get the names of their
    tables, and the conditions values of the types of their columns.  Of the system manager only
    the metadata is read. *)

From S2P Require Import Prelude Common RmDefs SmMeta Values Filter Ast.

Module Analyze.

(** ** Conversions *)

(** [{.tab_name = tab_name, .col_name = col_name}]; the other members are zero. *)
Definition tab_col (tab_name col_name : string) : TabCol := mkTabCol tab_name col_name FUNC_NULL "" false.

(** [Value val;]: what the union holds is what was in the memory. *)
Definition new_value (junk : bytes) : Value := mkValue TYPE_INT junk "" None.

Definition convert_sv_value (junk : bytes) (sv_val : ast.Value) : Value :=
  let val := new_value junk in
  match sv_val with
  | ast.IntLit z => set_int z val
  | ast.FloatLit b => set_float b val
  | ast.StringLit s => set_str s val
  | ast.BigintLit z => set_bigint z val
  end.

Definition convert_sv_comp_op (op : ast.SvCompOp) : CompOp :=
  match op with
  | ast.SV_OP_EQ => OP_EQ
  | ast.SV_OP_NE => OP_NE
  | ast.SV_OP_LT => OP_LT
  | ast.SV_OP_GT => OP_GT
  | ast.SV_OP_LE => OP_LE
  | ast.SV_OP_GE => OP_GE
  end.

Definition convert_sv_func (fun_ : ast.SvFunc) : Func :=
  match fun_ with
  | ast.SV_FUNC_NULL => FUNC_NULL
  | ast.SV_FUNC_COUNT => FUNC_COUNT
  | ast.SV_FUNC_MAX => FUNC_MAX
  | ast.SV_FUNC_MIN => FUNC_MIN
  | ast.SV_FUNC_SUM => FUNC_SUM
  end.

(** ** Columns *)

(** The table of the only column with a name; the empty name stands for none so far. *)
Fixpoint infer_table (all_cols : list ColMeta) (name tab_name : string) : res string :=
  match all_cols with
  | [] => Ok tab_name
  | c :: cs =>
      if bool_decide (cm_name c = name) then
        if bool_decide (tab_name = "") then infer_table cs name (cm_tab_name c) else Throw (AmbiguousColumnError name)
      else infer_table cs name tab_name
  end.

Definition set_tab_name (tab_name : string) (c : TabCol) : TabCol :=
  mkTabCol tab_name (tc_col_name c) (tc_func c) (tc_alias c) (tc_is_desc c).
Definition set_is_desc (b : bool) (c : TabCol) : TabCol :=
  mkTabCol (tc_tab_name c) (tc_col_name c) (tc_func c) (tc_alias c) b.

(** A column with a table is taken as it is. *)
Definition check_column (all_cols : list ColMeta) (target : TabCol) : res TabCol :=
  if bool_decide (tc_tab_name target = "") then
    tab_name ← infer_table all_cols (tc_col_name target) "";
    if bool_decide (tab_name = "") then Throw (ColumnNotFoundError (tc_col_name target))
    else Ok (set_tab_name tab_name target)
  else Ok target.

Fixpoint check_columns (all_cols : list ColMeta) (l : list TabCol) : res (list TabCol) :=
  match l with
  | [] => Ok []
  | c :: l' => c ← check_column all_cols c; l' ← check_columns all_cols l'; Ok (c :: l')
  end.

Fixpoint get_all_cols (db : DbMeta) (tab_names : list string) (all_cols : list ColMeta) : res (list ColMeta) :=
  match tab_names with
  | [] => Ok all_cols
  | name :: names => tab ← get_table db name; get_all_cols db names (all_cols ++ tm_cols tab)
  end.

(** ** Conditions *)

(** The members of a condition that are not set are read by nobody: the value of one between
    columns, and [func] and the following ones of the right column of one with a value. *)
Definition get_cond (junk : bytes) (expr : ast.BinaryExpr) : Condition :=
  let lhs := tab_col (ast.col_tab_name (ast.be_lhs expr)) (ast.col_name (ast.be_lhs expr)) in
  let op := convert_sv_comp_op (ast.be_op expr) in
  match ast.be_rhs expr with
  | ast.EValue v => mkCondition lhs op true (tab_col "" "") (convert_sv_value junk v)
  | ast.ECol c => mkCondition lhs op false (tab_col (ast.col_tab_name c) (ast.col_name c)) (new_value junk)
  end.
Definition get_clause (junk : bytes) (sv_conds : list ast.BinaryExpr) : list Condition := get_cond junk <$> sv_conds.

(** The value of a condition, converted for the column on its left. *)
Definition check_value (lhs_col : ColMeta) (v : Value) : res Value :=
  if negb (bool_decide (cm_type lhs_col = v_type v)) then
    if bool_decide (cm_type lhs_col = TYPE_BIGINT) then
      if bool_decide (v_type v = TYPE_INT) then init_raw 8 (set_bigint (int_val v) v)
      else if bool_decide (v_type v = TYPE_FLOAT) then init_raw 4 v
      else Filter.incompatible (cm_type lhs_col) (v_type v)
    else if bool_decide (cm_type lhs_col = TYPE_DATETIME /\ v_type v = TYPE_STRING) then
      b ← is_valid_datetime v;
      if b : bool then init_raw (cm_len lhs_col) (set_type TYPE_DATETIME v) else Throw (InternalError "invalid datetime")
    else Filter.incompatible (cm_type lhs_col) (v_type v)
  else init_raw (cm_len lhs_col) v.

(** The columns of two tables are looked up, and their types are compared, for a warning only. *)
Definition check_cond (db : DbMeta) (all_cols : list ColMeta) (cond : Condition) : res Condition :=
  lhs ← check_column all_cols (lhs_col cond);
  rhs ← (if is_rhs_val cond then Ok (rhs_col cond) else check_column all_cols (rhs_col cond));
  lhs_tab ← get_table db (tc_tab_name lhs);
  lhs_meta ← get_col lhs_tab (tc_col_name lhs);
  if is_rhs_val cond then
    v ← check_value lhs_meta (rhs_val cond);
    Ok (mkCondition lhs (cond_op cond) true rhs v)
  else
    rhs_tab ← get_table db (tc_tab_name rhs);
    rhs_meta ← get_col rhs_tab (tc_col_name rhs);
    Ok (mkCondition lhs (cond_op cond) false rhs (rhs_val cond)).

Fixpoint check_conds (db : DbMeta) (all_cols : list ColMeta) (conds : list Condition) : res (list Condition) :=
  match conds with
  | [] => Ok []
  | c :: cs => c ← check_cond db all_cols c; cs ← check_conds db all_cols cs; Ok (c :: cs)
  end.
Definition check_clause (db : DbMeta) (tab_names : list string) (conds : list Condition) : res (list Condition) :=
  all_cols ← get_all_cols db tab_names []; check_conds db all_cols conds.

(** ** Queries *)

Record Query := mkQuery {
  q_parse : ast.TreeNode;
  q_conds : list Condition;
  q_cols : list TabCol;
  q_order_by_cols : list TabCol;
  q_limit : Z;
  q_tables : list string;
  q_set_clauses : list SetClause;
  q_values : list Value;
}.

(** The column [COUNT( * )] counts is the first one, under an empty table name. *)
Definition sel_col (first : string) (c : ast.SelectCol) : TabCol :=
  let (tab_name, col_name) :=
    match ast.sc_col c with Some c => (ast.col_tab_name c, ast.col_name c) | None => ("", first) end in
  mkTabCol tab_name col_name (convert_sv_func (ast.sc_sv_func c)) (ast.sc_alias c) false.

Definition select_cols (all_cols : list ColMeta) (cols : list ast.SelectCol) : res (list TabCol) :=
  match all_cols with
  | [] => Throw AssertFailure
  | first :: _ =>
      match cols with
      | [] => Ok ((fun c => tab_col (cm_tab_name c) (cm_name c)) <$> all_cols)
      | _ => check_columns all_cols (sel_col (cm_name first) <$> cols)
      end
  end.

Fixpoint order_cols (all_cols : list ColMeta) (orders : list ast.OrderBy) : res (list TabCol) :=
  match orders with
  | [] => Ok []
  | o :: os =>
      c ← check_column all_cols (tab_col (ast.col_tab_name (ast.ob_col o)) (ast.col_name (ast.ob_col o)));
      cs ← order_cols all_cols os;
      Ok (set_is_desc (bool_decide (ast.orderby_dir o = ast.OrderBy_DESC)) c :: cs)
  end.

Definition set_clause (junk : bytes) (c : ast.SetClause) : SetClause :=
  mkSetClause (tab_col "" (ast.set_col_name c)) (convert_sv_value junk (ast.set_val c)).

Definition do_analyze (junk : bytes) (db : DbMeta) (parse : ast.TreeNode) : res Query :=
  match parse with
  | ast.Select x =>
      all_cols ← get_all_cols db (ast.ss_tabs x) [];
      cols ← select_cols all_cols (ast.ss_cols x);
      orders ← (if ast.ss_has_sort x then order_cols all_cols (ast.ss_orders x) else Ok []);
      conds ← check_clause db (ast.ss_tabs x) (get_clause junk (ast.ss_conds x));
      Ok (mkQuery (ast.Select (ast.move_tabs x)) conds cols orders (ast.ss_limit x) (ast.ss_tabs x) [] [])
  | ast.UpdateStmt tab_name clauses sv_conds =>
      conds ← check_clause db [tab_name] (get_clause junk sv_conds);
      Ok (mkQuery parse conds [] [] 0 [] (set_clause junk <$> clauses) [])
  | ast.DeleteStmt tab_name sv_conds =>
      conds ← check_clause db [tab_name] (get_clause junk sv_conds);
      Ok (mkQuery parse conds [] [] 0 [] [] [])
  | ast.InsertStmt tab_name vals => Ok (mkQuery parse [] [] [] 0 [] [] (convert_sv_value junk <$> vals))
  | _ => Ok (mkQuery parse [] [] [] 0 [] [] [])
  end.

(** ** What analysis makes of a column *)

(** The tables of columns and the lengths that go with their types, within rows of [n] bytes. *)
Definition sound_len (c : ColMeta) : Prop :=
  match cm_type c with
  | TYPE_INT | TYPE_FLOAT => cm_len c = 4
  | TYPE_BIGINT => cm_len c = 8
  | TYPE_DATETIME => cm_len c = 19
  | TYPE_STRING => 0 <= cm_len c
  | TYPE_DOUBLE => False
  end.
Record sound_col (n : nat) (tab_name : string) (c : ColMeta) : Prop := {
  so_tab : cm_tab_name c = tab_name;
  so_len : sound_len c;
  so_offset : 0 <= cm_offset c;
  so_end : cm_offset c + cm_len c <= Z.of_nat n;
}.

(** The columns of a name; the one a column in a condition on one table stands for. *)
Definition named (cols : list ColMeta) (name : string) : list ColMeta :=
  base.filter (fun m => cm_name m = name) cols.
Definition in_scope (tab_name : string) (c : ast.Col) : Prop := ast.col_tab_name c = "" \/ ast.col_tab_name c = tab_name.
Definition denoted (cols : list ColMeta) (c : ast.Col) : option ColMeta :=
  match named cols (ast.col_name c) with
  | [] => None
  | [m] => Some m
  | m :: _ => if bool_decide (ast.col_tab_name c = "") then None else Some m
  end.

Lemma named_cons c cols name : named (c :: cols) name = if bool_decide (cm_name c = name) then c :: named cols name else named cols name.
Proof. unfold named. rewrite filter_cons. by case_bool_decide; case_decide. Qed.

Lemma infer_more cols name tab_name : tab_name <> "" ->
  infer_table cols name tab_name = match named cols name with [] => Ok tab_name | _ => Throw (AmbiguousColumnError name) end.
Proof.
  intros Ht. induction cols as [|c cols IH]; [done|]. cbn [infer_table]. rewrite named_cons.
  case_bool_decide; [by rewrite bool_decide_false|done].
Qed.

Lemma infer_first cols name : Forall (fun c => cm_tab_name c <> "") cols ->
  infer_table cols name "" =
    match named cols name with [] => Ok "" | [m] => Ok (cm_tab_name m) | _ => Throw (AmbiguousColumnError name) end.
Proof.
  induction 1 as [|c cols Hc Hcs IH]; [done|]. cbn [infer_table]. rewrite named_cons.
  case_bool_decide; [|done]. rewrite bool_decide_true by done. rewrite infer_more by done. by destruct (named cols name).
Qed.

Lemma find_named cols name :
  match named cols name with
  | [] => find_col cols name = None
  | m :: _ => exists i, find_col cols name = Some i /\ cols !! i = Some m
  end.
Proof.
  induction cols as [|c cols IH]; [done|]. rewrite named_cons. cbn [find_col]. case_bool_decide; [by exists O|].
  destruct (named cols name) as [|m l]; [by rewrite IH|]. destruct IH as (i & -> & Hi). by exists (Datatypes.S i).
Qed.

Lemma find_tab_col_same cols t : Forall (fun c => cm_tab_name c = tc_tab_name t) cols ->
  Filter.find_tab_col cols t = find_col cols (tc_col_name t).
Proof.
  induction 1 as [|c cols Hc Hcs IH]; [done|]. cbn [Filter.find_tab_col find_col]. rewrite IH.
  destruct (decide (cm_name c = tc_col_name t)); [by rewrite !bool_decide_true|by rewrite !bool_decide_false by tauto].
Qed.

(** ** Conditions on one table *)

(** Which literals a column can be compared with. *)
Definition literal_fits (m : ColMeta) (v : ast.Value) : Prop :=
  match v, cm_type m with
  | ast.IntLit _, (TYPE_INT | TYPE_BIGINT) | ast.FloatLit _, (TYPE_FLOAT | TYPE_BIGINT) | ast.BigintLit _, TYPE_BIGINT => True
  | ast.StringLit s, TYPE_STRING => Z.of_nat (length (str_bytes s)) <= cm_len m
  | ast.StringLit s, TYPE_DATETIME => is_valid_datetime (set_str s (new_value [])) = Ok true
  | _, _ => False
  end.
Definition acceptable (cols : list ColMeta) (e : ast.BinaryExpr) : Prop :=
  exists l, denoted cols (ast.be_lhs e) = Some l /\
    match ast.be_rhs e with
    | ast.EValue v => literal_fits l v
    | ast.ECol c => is_Some (denoted cols c)
    end.
(** Columns the filter can compare. *)
Definition comparable (cols : list ColMeta) (e : ast.BinaryExpr) : Prop :=
  match ast.be_rhs e with
  | ast.EValue _ => True
  | ast.ECol c => forall l r, denoted cols (ast.be_lhs e) = Some l -> denoted cols c = Some r ->
      if bool_decide (cm_type r = cm_type l) then cm_len l <= cm_len r else cm_type r <> TYPE_STRING /\ cm_type l <> TYPE_STRING
  end.
Definition scoped (tab_name : string) (e : ast.BinaryExpr) : Prop :=
  in_scope tab_name (ast.be_lhs e) /\ match ast.be_rhs e with ast.EValue _ => True | ast.ECol c => in_scope tab_name c end.

Section one_table.
Context (db : DbMeta) (tab_name : string) (tab : TabMeta) (n : nat) (junk : bytes).
Hypothesis Htab : db_tabs db !! tab_name = Some tab.
Hypothesis Hname : tab_name <> "".
Hypothesis Hcols : Forall (sound_col n tab_name) (tm_cols tab).
Hypothesis Hjunk : length junk = 8%nat.
#[local] Abbreviation cols := (tm_cols tab).
#[local] Abbreviation column c := (tab_col (ast.col_tab_name c) (ast.col_name c)).

Lemma tables_named : Forall (fun c => cm_tab_name c = tab_name) cols.
Proof. eapply Forall_impl; [exact Hcols|]. by intros c []. Qed.

Lemma named_table name m l : named cols name = m :: l -> cm_tab_name m = tab_name.
Proof.
  intros Hm. assert (Hi : m ∈ named cols name) by (rewrite Hm; left). unfold named in Hi. apply list_elem_of_filter in Hi as [_ Hi].
  by eapply (proj1 (Forall_forall _ _) tables_named).
Qed.

(** A column is resolved to the one it denotes, which the filter finds again. *)
Lemma column_resolved c : in_scope tab_name c ->
  match denoted cols c with
  | Some m => check_column cols (column c) = Ok (tab_col tab_name (ast.col_name c)) /\
      (exists i, Filter.get_col cols (tab_col tab_name (ast.col_name c)) = Ok (i, m)) /\
      get_table db tab_name = Ok (TabMeta_copy tab) /\ get_col (TabMeta_copy tab) (ast.col_name c) = Ok m /\ sound_col n tab_name m
  | None => forall t, check_column cols (column c) = Ok t -> t = tab_col tab_name (ast.col_name c) /\
      get_table db tab_name = Ok (TabMeta_copy tab) /\ exists ex, get_col (TabMeta_copy tab) (ast.col_name c) = Throw ex
  end.
Proof.
  intros Hc. pose proof (find_named cols (ast.col_name c)) as Hf.
  pose proof (infer_first cols (ast.col_name c)) as Hi. unfold denoted, check_column.
  assert (Ht : get_table db tab_name = Ok (TabMeta_copy tab)) by (unfold get_table; by rewrite Htab).
  specialize (Hi ltac:(eapply Forall_impl; [exact tables_named|]; intros ? ->; done)). cbn [tc_tab_name tc_col_name tab_col].
  unfold get_col. cbn [tm_cols TabMeta_copy]. destruct (named cols (ast.col_name c)) as [|m l] eqn:En.
  - rewrite Hf. intros t Hr. destruct Hc as [E|E].
    + rewrite E, bool_decide_true, Hi in Hr by done. done.
    + rewrite E, bool_decide_false in Hr by done. injection Hr as <-. split_and!; [done..|by eexists].
  - destruct Hf as (i & Hfi & Hm). pose proof (named_table _ _ _ En) as Hmt.
    assert (G1 : exists i, Filter.get_col cols (tab_col tab_name (ast.col_name c)) = Ok (i, m)).
    { exists i. unfold Filter.get_col. rewrite find_tab_col_same by exact tables_named. cbn [tc_col_name tab_col]. by rewrite Hfi, Hm. }
    assert (G2 : sound_col n tab_name m) by (eapply Forall_lookup_1; [exact Hcols|exact Hm]).
    rewrite Hfi, Hm. destruct Hc as [E| E]; rewrite E.
    + rewrite !(bool_decide_true (_ = "")), Hi by done. destruct l; [|by intros t].
      cbn [mbind res_bind]. rewrite Hmt, bool_decide_false by done. done.
    + rewrite !(bool_decide_false (_ = "")) by done. by destruct l.
Qed.

(** Checked conditions are about the table. *)
Lemma check_column_scoped c t : in_scope tab_name c -> check_column cols (column c) = Ok t -> t = tab_col tab_name (ast.col_name c).
Proof.
  intros Hs Ht. pose proof (column_resolved c Hs) as Hc. destruct (denoted cols c); [|by apply Hc].
  destruct Hc as [Hc _]. congruence.
Qed.

Lemma checked_scoped svs conds : Forall (scoped tab_name) svs -> check_conds db cols (get_clause junk svs) = Ok conds ->
  Forall (fun c => tc_tab_name (lhs_col c) = tab_name /\ (is_rhs_val c = true \/ tc_tab_name (rhs_col c) = tab_name)) conds.
Proof.
  intros Hs. revert conds. induction Hs as [|e svs [Hl Hr] Hs IH]; intros conds Hc; [injection Hc as <-; constructor|].
  unfold get_clause in *. rewrite fmap_cons in Hc. cbn [check_conds] in Hc.
  destruct (check_cond _ _ _) as [c|] eqn:Ec; [|done]. cbn [mbind res_bind] in Hc.
  destruct (check_conds _ _ _) as [cs|]; [|done]. injection Hc as <-. constructor; [|by apply IH].
  unfold check_cond in Ec. destruct (check_column cols (lhs_col _)) as [l|] eqn:El; [|done]. cbn [mbind res_bind] in Ec.
  assert (Hl' : tc_tab_name l = tab_name).
  { assert (E : check_column cols (column (ast.be_lhs e)) = Ok l) by (unfold get_cond in El; by destruct (ast.be_rhs e)).
    by rewrite (check_column_scoped _ _ Hl E). }
  unfold get_cond in Ec. destruct (ast.be_rhs e) as [v|c0]; cbn [is_rhs_val rhs_col] in Ec.
  - cbn [mbind res_bind] in Ec. destruct (get_table _ _); [|done]. cbn [mbind res_bind] in Ec. destruct (get_col _ _); [|done].
    cbn [mbind res_bind] in Ec. destruct (check_value _ _); [|done]. injection Ec as <-. by split; [|left].
  - destruct (check_column cols (column c0)) as [r|] eqn:Er; [|done]. cbn [mbind res_bind] in Ec.
    pose proof (check_column_scoped _ _ Hr Er) as ->.
    destruct (get_table db (tc_tab_name l)); [|done]. cbn [mbind res_bind] in Ec. destruct (get_col _ _); [|done]. cbn [mbind res_bind] in Ec.
    destruct (get_table _ _); [|done]. cbn [mbind res_bind] in Ec. destruct (get_col _ _); [|done]. injection Ec as <-. by split; [|right].
Qed.

(** The query of a selection from the table. *)
Lemma analyzed_select x q : ast.ss_tabs x = [tab_name] -> do_analyze junk db (ast.Select x) = Ok q ->
  q_tables q = [tab_name] /\ q_parse q = ast.Select (ast.move_tabs x) /\ q_limit q = ast.ss_limit x /\
  check_conds db cols (get_clause junk (ast.ss_conds x)) = Ok (q_conds q) /\
  (length (q_cols q) <= Nat.max (length (ast.ss_cols x)) (length cols))%nat.
Proof.
  intros Ht Hq. unfold do_analyze in Hq. rewrite Ht in Hq. cbn [get_all_cols] in Hq. unfold get_table in Hq. rewrite Htab in Hq.
  cbn [mbind res_bind tm_cols TabMeta_copy app] in Hq. destruct (select_cols cols (ast.ss_cols x)) as [cs|] eqn:Es; [|done].
  cbn [mbind res_bind] in Hq. destruct (if ast.ss_has_sort x then _ else _) as [os|]; [|done]. cbn [mbind res_bind] in Hq.
  unfold check_clause in Hq. cbn [get_all_cols] in Hq. unfold get_table in Hq. rewrite Htab in Hq. cbn [mbind res_bind tm_cols TabMeta_copy app] in Hq.
  destruct (check_conds db cols _) as [conds|]; [|done]. injection Hq as <-. cbn. split_and!; try done.
  clear -Es. unfold select_cols in Es. destruct cols as [|first cs0] eqn:Ecols; [done|]. rewrite <- Ecols in *.
  destruct (ast.ss_cols x) as [|c l] eqn:Ec.
  - injection Es as <-. rewrite length_fmap. lia.
  - assert (Hl : forall l cs, check_columns cols l = Ok cs -> length cs = length l).
    { clear. induction l as [|c l IH]; intros cs Hc; [by injection Hc as <-|]. cbn [check_columns] in Hc.
      destruct (check_column _ _); [|done]. cbn [mbind res_bind] in Hc. destruct (check_columns cols l); [|done].
      injection Hc as <-. cbn. f_equal. by apply IH. }
    apply Hl in Es. rewrite Es, length_fmap. lia.
Qed.

(** The raw bytes of a checked value, and when there is one. *)
Definition value_fits (m : ColMeta) (v : Value) : Prop :=
  exists p, v_raw v = Some p /\
    if bool_decide (v_type v = cm_type m) then Filter.operand_bytes (cm_type m) (cm_len m) <= Z.of_nat (length p)
    else v_type v <> TYPE_STRING /\ cm_type m <> TYPE_STRING /\ Filter.operand_bytes (v_type v) 0 <= Z.of_nat (length p).

Lemma incompatible_throws {A} l r (x : A) : Filter.incompatible l r <> Ok x.
Proof. unfold Filter.incompatible. by destruct (coltype2str l), (coltype2str r). Qed.

Lemma text_raw m v : whole v -> v_raw v = None -> v_type v = cm_type m -> sound_len m ->
  cm_type m = TYPE_STRING \/ cm_type m = TYPE_DATETIME /\ Z.of_nat (length (str_bytes (v_str v))) = 19 ->
  match init_raw (cm_len m) v with
  | Ok v' => value_fits m v' /\ Z.of_nat (length (str_bytes (v_str v))) <= cm_len m
  | Throw _ => cm_type m = TYPE_STRING /\ cm_len m < Z.of_nat (length (str_bytes (v_str v)))
  end.
Proof.
  intros Hw Hr Ht Hs Hd. unfold init_raw. rewrite Hr.
  assert (Hl : 0 <= cm_len m) by (unfold sound_len in Hs; destruct Hd as [E|[E _]]; rewrite E in Hs; lia).
  destruct (raw_bytes (cm_len m) v) as [b|] eqn:Eb; pose proof Eb as Eb'; unfold raw_bytes in Eb'; rewrite Ht in Eb';
    rewrite (proj2 (Z.ltb_ge _ _)) in Eb' by done; cbn [mbind res_bind].
  - split.
    + exists b. cbn. split; [done|]. rewrite Ht, bool_decide_true by done. rewrite (raw_bytes_length _ _ _ Hw Eb).
      destruct Hd as [E|[E _]]; rewrite E; cbn; lia.
    + destruct (Z.ltb_spec (cm_len m) (Z.of_nat (length (str_bytes (v_str v))))); [|lia].
      by destruct Hd as [E|[E _]]; rewrite E in Eb'.
  - destruct (Z.ltb_spec (cm_len m) (Z.of_nat (length (str_bytes (v_str v))))) as [Hlt|];
      destruct Hd as [E|[E E']]; rewrite E in Eb'; [done| |done|done].
    unfold sound_len in Hs. rewrite E in Hs. lia.
Qed.

(** A literal that has to be rejected, and one put into as many bytes as its number has. *)
Lemma rejected m v l r : ~ literal_fits m v ->
  match Filter.incompatible l r with Ok v' => literal_fits m v /\ value_fits m v' | Throw _ => ~ literal_fits m v end.
Proof. intros H. destruct (Filter.incompatible l r) eqn:E; [by apply incompatible_throws in E|done]. Qed.

Lemma number_raw m lit v w : literal_fits m lit -> whole v -> v_raw v = None -> sound_len m -> v_type v <> TYPE_STRING -> v_type v <> TYPE_DATETIME ->
  v_type v <> TYPE_DOUBLE -> cm_type m <> TYPE_STRING -> v_type v = cm_type m \/ Filter.operand_bytes (v_type v) 0 = w ->
  (v_type v = cm_type m -> w = cm_len m) ->
  match init_raw w v with Ok v' => literal_fits m lit /\ value_fits m v' | Throw _ => ~ literal_fits m lit end.
Proof.
  intros Hlit Hw Hr Hs H1 H2 H3 H4 Hl Hm. unfold init_raw. rewrite Hr.
  assert (E : w = match v_type v with TYPE_BIGINT => 8 | _ => 4 end).
  { destruct (decide (v_type v = cm_type m)) as [E|E].
    - rewrite (Hm E). unfold sound_len in Hs. rewrite <- E in Hs. by destruct (v_type v).
    - destruct Hl as [?| <-]; [done|]. by destruct (v_type v). }
  destruct (raw_bytes w v) as [b|] eqn:Eb.
  - cbn [mbind res_bind]. split; [done|]. exists b. cbn. split; [done|]. rewrite (raw_bytes_length _ _ _ Hw Eb).
    case_bool_decide as Ht; [|by subst w; destruct (v_type v)].
    rewrite <- Ht. subst w. by destruct (v_type v).
  - unfold raw_bytes in Eb. subst w. by destruct (v_type v).
Qed.

Lemma literal_whole v : whole (convert_sv_value junk v).
Proof. unfold whole. by destruct v; cbn [convert_sv_value set_int set_float set_bigint set_str set_num v_num new_value]; unfold store_32, store_64; rewrite ?length_mem_write. Qed.
Lemma bigint_whole z v : whole v -> whole (set_bigint z v).
Proof. unfold whole. cbn [set_bigint set_num v_num]. unfold store_64. by rewrite length_mem_write. Qed.

Lemma value_checked m v : sound_len m ->
  match check_value m (convert_sv_value junk v) with
  | Ok v' => literal_fits m v /\ value_fits m v'
  | Throw _ => ~ literal_fits m v
  end.
Proof.
  intros Hs. unfold check_value. destruct v as [z|b|z|s]; cbn [convert_sv_value v_type set_int set_float set_bigint set_str set_num];
    destruct (cm_type m) eqn:Em; try (unfold sound_len in Hs; rewrite Em in Hs; done);
    repeat first [rewrite bool_decide_true by done|rewrite bool_decide_false by (done || naive_solver)]; cbn [negb];
    try (apply rejected; unfold literal_fits; rewrite Em; tauto).
  1-5: apply number_raw; try apply bigint_whole; try apply (literal_whole (ast.IntLit _));
    try apply (literal_whole (ast.FloatLit _)); try apply (literal_whole (ast.BigintLit _)); cbn; rewrite ?Em; try done; try (by left); try (by right);
    try (unfold literal_fits; by rewrite Em);
    try (intros _; unfold sound_len in Hs; rewrite Em in Hs; done).
  - pose proof (text_raw m (set_str s (new_value junk)) Hjunk eq_refl (eq_sym Em) Hs (or_introl Em)) as Ht. unfold literal_fits. rewrite Em.
    destruct (init_raw _ _); [tauto|]. destruct Ht as [_ Ht]. cbn [v_str set_str] in Ht. lia.
  - unfold literal_fits. rewrite Em. change (is_valid_datetime (set_str s (new_value []))) with (is_valid_datetime (set_str s (new_value junk))).
    destruct (is_valid_datetime _) as [[]|] eqn:Ed; [|cbn; naive_solver..]. cbn [mbind res_bind].
    assert (H19 : Z.of_nat (length (str_bytes s)) = 19).
    { unfold is_valid_datetime in Ed. cbn [v_str set_str] in Ed. by destruct (Z.eqb_spec (Z.of_nat (length (str_bytes s))) 19). }
    pose proof (text_raw m (set_type TYPE_DATETIME (set_str s (new_value junk))) Hjunk eq_refl (eq_sym Em) Hs (or_intror (conj Em H19))) as Ht.
    destruct (init_raw _ _); [tauto|]. cbn in Ht. destruct Ht. congruence.
Qed.

Lemma value_well_typed l c op r v : denoted cols c = Some l -> in_scope tab_name c -> value_fits l v ->
  Filter.well_typed n cols (mkCondition (tab_col tab_name (ast.col_name c)) op true r v) = true.
Proof.
  intros Hl Hs (p & Hp & Hf). pose proof (column_resolved c Hs) as Hc. rewrite Hl in Hc.
  destruct Hc as (_ & (i & Hi) & _ & _ & [_ Hlen Ho He]).
  unfold Filter.well_typed, Filter.lhs_shape, Filter.rhs_shape. cbn [lhs_col rhs_val is_rhs_val]. rewrite Hi, Hp.
  rewrite (proj2 (Z.leb_le 0 _)) by done. cbn [mbind option_bind].
  unfold sound_len in Hlen. destruct (bool_decide (v_type v = cm_type l)).
  - rewrite !andb_true_iff, !Z.leb_le. destruct (cm_type l); cbn [Filter.operand_bytes] in *; lia || done.
  - destruct Hf as (H1 & H2 & Hf). rewrite bool_decide_true by done. cbn [andb].
    rewrite !andb_true_iff, !Z.leb_le. destruct (cm_type l); cbn [Filter.operand_bytes] in *; lia || done.
Qed.

Lemma columns_well_typed l r c c' op v : denoted cols c = Some l -> denoted cols c' = Some r -> in_scope tab_name c ->
  in_scope tab_name c' ->
  (if bool_decide (cm_type r = cm_type l) then cm_len l <= cm_len r else cm_type r <> TYPE_STRING /\ cm_type l <> TYPE_STRING) ->
  Filter.well_typed n cols (mkCondition (tab_col tab_name (ast.col_name c)) op false (tab_col tab_name (ast.col_name c')) v) = true.
Proof.
  intros Hl Hr Hs Hs' Hf. pose proof (column_resolved c Hs) as Hc. rewrite Hl in Hc.
  destruct Hc as (_ & (i & Hi) & _ & _ & [_ Hlen Ho He]).
  pose proof (column_resolved c' Hs') as Hc'. rewrite Hr in Hc'. destruct Hc' as (_ & (i' & Hi') & _ & _ & [_ Hlen' Ho' He']).
  unfold Filter.well_typed, Filter.lhs_shape, Filter.rhs_shape. cbn [lhs_col rhs_col is_rhs_val]. rewrite Hi, Hi'.
  rewrite !(proj2 (Z.leb_le 0 _)) by done. unfold sound_len in *. destruct (bool_decide_reflect (cm_type r = cm_type l)) as [E|E].
  - rewrite E in *. rewrite !andb_true_iff, !Z.leb_le. destruct (cm_type l); cbn [Filter.operand_bytes] in *; lia || done.
  - rewrite bool_decide_true by done. cbn [andb].
    rewrite !andb_true_iff, !Z.leb_le. destruct (cm_type l), (cm_type r); cbn [Filter.operand_bytes] in *; lia || tauto.
Qed.

Lemma cond_checked e : scoped tab_name e ->
  match check_cond db cols (get_cond junk e) with
  | Ok c => acceptable cols e /\ (comparable cols e -> Filter.well_typed n cols c = true)
  | Throw _ => ~ acceptable cols e
  end.
Proof.
  destruct e as [lhs op rhs]. intros [Hl Hr]. cbn [ast.be_lhs ast.be_rhs] in *. unfold acceptable, comparable, check_cond.
  cbn [ast.be_lhs ast.be_rhs]. pose proof (column_resolved lhs Hl) as Hc. destruct (denoted cols lhs) as [l|] eqn:El.
  - destruct Hc as (Hcl & _ & Ht & Hg & [_ Hlen _ _]). destruct rhs as [v|c]; cbn [get_cond ast.be_lhs ast.be_op ast.be_rhs lhs_col rhs_col is_rhs_val rhs_val].
    + rewrite Hcl. cbn [mbind res_bind tc_tab_name tc_col_name tab_col]. rewrite Ht. cbn [mbind res_bind]. rewrite Hg. cbn [mbind res_bind].
      pose proof (value_checked l v Hlen) as Hv. destruct (check_value _ _) as [v'|]; cbn [mbind res_bind].
      * destruct Hv as [Hv Hf]. split; [by exists l|]. intros _. by eapply value_well_typed.
      * by intros (? & [= <-] & ?).
    + pose proof (column_resolved c Hr) as Hcr. rewrite Hcl. destruct (denoted cols c) as [r|] eqn:Er.
      * destruct Hcr as (Hcr & _ & _ & Hg' & _). rewrite Hcr. cbn [mbind res_bind tc_tab_name tc_col_name tab_col].
        rewrite Ht. cbn [mbind res_bind]. rewrite Hg, Hg'. cbn [mbind res_bind]. split; [by exists l|].
        intros Hcmp. eapply columns_well_typed; [done..|]. by apply Hcmp.
      * destruct (check_column cols (column c)) as [t|] eqn:Et.
        -- destruct (Hcr t eq_refl) as (-> & _ & ex & Hg'). cbn [mbind res_bind tc_tab_name tc_col_name tab_col].
           rewrite Ht. cbn [mbind res_bind]. rewrite Hg, Hg'. cbn [mbind res_bind]. by intros (? & _ & []).
        -- cbn [mbind res_bind]. by intros (? & _ & []).
  - assert (Hn : ~ exists l, (None : option ColMeta) = Some l /\ match rhs with ast.EValue v => literal_fits l v | ast.ECol c => is_Some (denoted cols c) end)
      by (intros (? & ? & _); done).
    destruct (check_column cols (lhs_col (get_cond junk (ast.mkBinaryExpr lhs op rhs)))) as [t|] eqn:Et; [|done].
    assert (Et' : check_column cols (column lhs) = Ok t) by (by destruct rhs). destruct (Hc t Et') as (-> & Ht & ex & Hg).
    cbn [mbind res_bind]. destruct (if is_rhs_val _ then _ else _); [|done]. cbn [mbind res_bind tc_tab_name tc_col_name tab_col].
    rewrite Ht. cbn [mbind res_bind]. by rewrite Hg.
Qed.

Lemma conds_checked svs : Forall (scoped tab_name) svs ->
  match check_conds db cols (get_clause junk svs) with
  | Ok conds => Forall (acceptable cols) svs /\ (Forall (comparable cols) svs -> forallb (Filter.well_typed n cols) conds = true)
  | Throw _ => ~ Forall (acceptable cols) svs
  end.
Proof.
  induction 1 as [|e svs He Hs IH]; [done|]. unfold get_clause in *. rewrite fmap_cons. cbn [check_conds].
  pose proof (cond_checked e He) as Hc. destruct (check_cond _ _ _) as [c|]; cbn [mbind res_bind].
  - destruct (check_conds _ _ _) as [cs|]; cbn [mbind res_bind].
    + destruct Hc as [Hc1 Hc2], IH as [IH1 IH2]. split; [by constructor|]. intros [K1 K2]%Forall_cons. cbn [forallb]. by rewrite Hc2, IH2.
    + by intros [_ K]%Forall_cons.
  - by intros [K _]%Forall_cons.
Qed.

End one_table.

(** ** Examples *)

Definition demo_cols : list ColMeta :=
  [mkColMeta "t" "a" TYPE_BIGINT 8 0 false; mkColMeta "t" "b" TYPE_STRING 4 8 false; mkColMeta "t" "c" TYPE_INT 4 12 false].
Definition demo_tab : TabMeta := mkTabMeta "t" demo_cols [].
Definition other_tab : TabMeta := mkTabMeta "u" [mkColMeta "u" "d" TYPE_INT 4 0 false] [].
Definition demo_db : DbMeta := mkDbMeta "school" {[ "t" := demo_tab; "u" := other_tab ]}.
Definition demo_junk : bytes := replicate 8 170.
Definition cond_val (tab col : string) (op : ast.SvCompOp) (v : ast.Value) : ast.BinaryExpr :=
  ast.mkBinaryExpr (ast.mkCol tab col) op (ast.EValue v).
Definition cond_col (tab col : string) (op : ast.SvCompOp) (tab' col' : string) : ast.BinaryExpr :=
  ast.mkBinaryExpr (ast.mkCol tab col) op (ast.ECol (ast.mkCol tab' col')).
Definition demo_row : RmRecord := RmRecord_new 16 (le_encode 8 7 ++ [97; 98; 0; 0] ++ le_encode 4 7).

(** [where a >= 7 and t.b = 'ab' and c <= t.a]. *)
Definition demo_where : list ast.BinaryExpr :=
  [cond_val "" "a" ast.SV_OP_GE (ast.IntLit 7); cond_val "t" "b" ast.SV_OP_EQ (ast.StringLit "ab"); cond_col "" "c" ast.SV_OP_LE "t" "a"].

Lemma demo_sound : Forall (sound_col 16 "t") (tm_cols demo_tab).
Proof. repeat constructor; cbn; lia. Qed.


(** A column of a table the statement is not about is accepted when the table exists; the filter
    does not find it. *)
Lemma foreign_column :
  exists conds, check_clause demo_db ["t"] (get_clause demo_junk [cond_val "u" "d" ast.SV_OP_EQ (ast.IntLit 1)]) = Ok conds /\
    Filter.filter conds demo_cols demo_row = Throw (ColumnNotFoundError "u.d").
Proof. eexists. split; [vm_compute; reflexivity|vm_compute; reflexivity]. Qed.

(** So are columns of types that cannot be compared, with a warning. *)
Lemma incompatible_columns :
  exists conds, check_clause demo_db ["t"] (get_clause demo_junk [cond_col "" "b" ast.SV_OP_EQ "" "c"]) = Ok conds /\
    exists l r, Filter.filter conds demo_cols demo_row = Throw (IncompatibleTypeError l r).
Proof. eexists. split; [vm_compute; reflexivity|]. eexists _, _. vm_compute. reflexivity. Qed.

End Analyze.
