(* ===== verification/Planner.v ===== *)
(** * Plans

    [optimizer/plan.h], [planner.h], [planner.cpp] and [optimizer.h]: the plan of a statement.
    A plan is a tree of which nothing is shared; the null pointer is a constructor. *)

From S2P Require Import Prelude Common RmDefs SmMeta SmManager Values Filter Ast Analyze.

Module Planner.

Inductive PlanTag :=
  | T_Invalid | T_Help | T_ShowTable | T_DescTable | T_CreateTable | T_DropTable | T_CreateIndex | T_DropIndex
  | T_ShowIndex | T_Insert | T_Update | T_Delete | T_select
  | T_Transaction_begin | T_Transaction_commit | T_Transaction_abort | T_Transaction_rollback
  | T_SeqScan | T_IndexScan | T_NestLoop | T_Sort | T_Projection | T_Aggregate | T_Limit.
#[export] Instance PlanTag_eq_dec : EqDecision PlanTag.
Proof. solve_decision. Defined.

(** The classes derived from [Plan], with their members in the order of the classes. *)
Inductive Plan :=
  | NullPlan
  | ScanPlan (tag : PlanTag) (tab_name : string) (cols : list ColMeta) (conds : list Condition) (len : Z)
      (fed_conds : list Condition) (index_col_names : list string)
  | JoinPlan (tag : PlanTag) (left right : Plan) (conds : list Condition) (type : ast.JoinType)
  | ProjectionPlan (tag : PlanTag) (subplan : Plan) (sel_cols : list TabCol)
  | AggregatePlan (tag : PlanTag) (subplan : Plan) (sel_cols : list TabCol)
  | SortPlan (tag : PlanTag) (subplan : Plan) (key_cols : list TabCol) (limit : Z)
  | DMLPlan (tag : PlanTag) (subplan : Plan) (tab_name : string) (values : list Value) (conds : list Condition)
      (set_clauses : list SetClause)
  | DDLPlan (tag : PlanTag) (tab_name : string) (tab_col_names : list string) (cols : list ColDef)
  | OtherPlan (tag : PlanTag) (tab_name : string).

(** The constructors that compute. *)
Definition new_scan (db : DbMeta) (tag : PlanTag) (tab_name : string) (conds : list Condition) (index_col_names : list string) :
    res Plan :=
  tab ← get_table db tab_name;
  match last (tm_cols tab) with
  | None => Throw Stuck
  | Some c => Ok (ScanPlan tag tab_name (tm_cols tab) conds (cm_offset c + cm_len c) conds index_col_names)
  end.
Definition new_join (tag : PlanTag) (left right : Plan) (conds : list Condition) : Plan :=
  JoinPlan tag left right conds ast.INNER_JOIN.

(** ** Scans *)

(** The columns of the conditions an index may serve, and the columns of the index they select. *)
Definition indexable (tab_name : string) (c : Condition) : bool :=
  is_rhs_val c && negb (bool_decide (cond_op c = OP_NE)) && bool_decide (tc_tab_name (lhs_col c) = tab_name).
Definition get_index_cols (db : DbMeta) (tab_name : string) (curr_conds : list Condition) : res (bool * list string) :=
  let col_names := (fun c => tc_col_name (lhs_col c)) <$> List.filter (indexable tab_name) curr_conds in
  tab ← get_table db tab_name;
  Ok (is_index_prefix tab col_names []).

(** The conditions a table solves, and the others; a condition between columns of one table is
    taken whatever table that is. *)
Definition solves (tab_name : string) (c : Condition) : bool :=
  bool_decide (tab_name = tc_tab_name (lhs_col c)) && is_rhs_val c ||
  bool_decide (tc_tab_name (lhs_col c) = tc_tab_name (rhs_col c)).
Fixpoint pop_conds (conds : list Condition) (tab_name : string) : list Condition * list Condition :=
  match conds with
  | [] => ([], [])
  | c :: cs =>
      let '(solved, rest) := pop_conds cs tab_name in
      if solves tab_name c then (c :: solved, rest) else (solved, c :: rest)
  end.

Definition make_scan (db : DbMeta) (tab_name : string) (conds : list Condition) : res Plan :=
  '(index_exist, index_col_names) ← get_index_cols db tab_name conds;
  if index_exist : bool then new_scan db T_IndexScan tab_name conds index_col_names
  else new_scan db T_SeqScan tab_name conds [].

(** The scans of the tables, and the conditions that are left. *)
Fixpoint make_scans (db : DbMeta) (tables : list string) (conds : list Condition) : res (list Plan * list Condition) :=
  match tables with
  | [] => Ok ([], conds)
  | t :: ts =>
      let '(curr_conds, conds) := pop_conds conds t in
      scan ← make_scan db t curr_conds;
      '(scans, conds) ← make_scans db ts conds;
      Ok (scan :: scans, conds)
  end.

(** ** Joins *)

Definition swap_op (op : CompOp) : CompOp :=
  match op with
  | OP_EQ => OP_EQ
  | OP_NE => OP_NE
  | OP_LT => OP_GT
  | OP_GT => OP_LT
  | OP_LE => OP_GE
  | OP_GE => OP_LE
  end.
Definition swap_cond (c : Condition) : Condition :=
  mkCondition (rhs_col c) (swap_op (cond_op c)) (is_rhs_val c) (lhs_col c) (rhs_val c).

(** What is returned, and the plan afterwards: 1 or 2 when the left or the right side of the
    condition is of a table of the plan, 3 when the condition was added to a join of the plan. *)
Fixpoint push_conds (cond : Condition) (plan : Plan) : Z * Plan :=
  match plan with
  | ScanPlan _ tab_name _ _ _ _ _ =>
      (if bool_decide (tab_name = tc_tab_name (lhs_col cond)) then 1
       else if bool_decide (tab_name = tc_tab_name (rhs_col cond)) then 2 else 0, plan)
  | JoinPlan tag left_ right_ conds type =>
      let '(left_res, left_) := push_conds cond left_ in
      if left_res =? 3 then (3, JoinPlan tag left_ right_ conds type) else
      let '(right_res, right_) := push_conds cond right_ in
      if right_res =? 3 then (3, JoinPlan tag left_ right_ conds type) else
      if (left_res =? 0) || (right_res =? 0) then (left_res + right_res, JoinPlan tag left_ right_ conds type) else
      let cond := if left_res =? 2 then swap_cond cond else cond in
      (3, JoinPlan tag left_ right_ (conds ++ [cond]) type)
  | _ => (0, plan)
  end.

(** The scan of a table, or null; its place in [scantbl] is marked and its name goes to
    the joined tables.  All [plans] are scans. *)
Fixpoint pop_scan (scantbl : list Z) (table : string) (joined_tables : list string) (plans : list Plan) :
    list Z * list string * Plan :=
  match plans, scantbl with
  | p :: ps, s :: ss =>
      match p with
      | ScanPlan _ tab_name _ _ _ _ _ =>
          if bool_decide (tab_name = table) then (1 :: ss, joined_tables ++ [tab_name], p)
          else let '(ss, joined_tables, q) := pop_scan ss table joined_tables ps in (s :: ss, joined_tables, q)
      | _ => (scantbl, joined_tables, NullPlan)
      end
  | _, _ => (scantbl, joined_tables, NullPlan)
  end.

Definition is_null (p : Plan) : bool := match p with NullPlan => true | _ => false end.

(** What the loop over the conditions changes: [scantbl], [joined_tables] and
    [table_join_executors]. *)
Record joining := mkJoining { scantbl : list Z; joined_tables : list string; table_join : Plan }.

(** The first condition. *)
Definition first_join (plans : list Plan) (scantbl : list Z) (joined_tables : list string) (it : Condition) : joining :=
  let '(scantbl, joined_tables, left_) := pop_scan scantbl (tc_tab_name (lhs_col it)) joined_tables plans in
  let '(scantbl, joined_tables, right_) := pop_scan scantbl (tc_tab_name (rhs_col it)) joined_tables plans in
  mkJoining scantbl joined_tables (new_join T_NestLoop left_ right_ [it]).

(** Each of the other conditions. *)
Definition need_scan (plans : list Plan) (scantbl : list Z) (joined_tables : list string) (table : string) :
    list Z * list string * Plan :=
  if bool_decide (table ∈ joined_tables) then (scantbl, joined_tables, NullPlan)
  else pop_scan scantbl table joined_tables plans.
Definition next_join (plans : list Plan) (j : joining) (it : Condition) : joining :=
  let '(scans, joined, left_) := need_scan plans (scantbl j) (joined_tables j) (tc_tab_name (lhs_col it)) in
  let isneedreverse := negb (bool_decide (tc_tab_name (rhs_col it) ∈ joined)) in
  let '(scans, joined, right_) := need_scan plans scans joined (tc_tab_name (rhs_col it)) in
  mkJoining scans joined
    (if negb (is_null left_) && negb (is_null right_) then
       new_join T_NestLoop (new_join T_NestLoop left_ right_ [it]) (table_join j) []
     else if negb (is_null left_) || negb (is_null right_) then
       if isneedreverse then new_join T_NestLoop right_ (table_join j) [swap_cond it]
       else new_join T_NestLoop left_ (table_join j) [it]
     else (push_conds it (table_join j)).2).

(** The tables no condition joined. *)
Fixpoint join_rest (scantbl : list Z) (plans : list Plan) (root : Plan) : Plan :=
  match scantbl, plans with
  | s :: ss, p :: ps => join_rest ss ps (if s =? -1 then new_join T_NestLoop p root [] else root)
  | _, _ => root
  end.

Definition join_scans (plans : list Plan) (conds : list Condition) : res Plan :=
  let unmarked := replicate (length plans) (-1) in
  match conds with
  | it :: conds =>
      let j := fold_left (next_join plans) conds (first_join plans unmarked (replicate (length plans) "") it) in
      Ok (join_rest (scantbl j) plans (table_join j))
  | [] =>
      match plans with
      | p :: _ => Ok (join_rest (<[0%nat := 1]> unmarked) plans p)
      | [] => Throw Stuck
      end
  end.

Definition make_one_rel (db : DbMeta) (query : Analyze.Query) : res Plan :=
  '(scans, conds) ← make_scans db (Analyze.q_tables query) (Analyze.q_conds query);
  match scans with
  | [scan] => Ok scan
  | _ => join_scans scans conds
  end.

(** ** Statements *)

Definition select_of (query : Analyze.Query) : res ast.SelectStmt :=
  match Analyze.q_parse query with ast.Select x => Ok x | _ => Throw Stuck end.

Definition generate_sort_plan (db : DbMeta) (query : Analyze.Query) (plan : Plan) : res Plan :=
  x ← select_of query;
  if negb (ast.ss_has_sort x) then Ok plan else
  _ ← Analyze.get_all_cols db (Analyze.q_tables query) [];
  Ok (SortPlan T_Sort plan (Analyze.q_order_by_cols query) (Analyze.q_limit query)).

Definition physical_optimization (db : DbMeta) (query : Analyze.Query) : res Plan :=
  plan ← make_one_rel db query; generate_sort_plan db query plan.

(** There is no logical optimization. *)
Definition logical_optimization (query : Analyze.Query) : Analyze.Query := query.

Definition generate_select_plan (db : DbMeta) (query : Analyze.Query) : res Plan :=
  let query := logical_optimization query in
  root ← physical_optimization db query;
  x ← select_of query;
  Ok (if ast.ss_has_aggregate x then AggregatePlan T_Aggregate root (Analyze.q_cols query)
      else ProjectionPlan T_Projection root (Analyze.q_cols query)).

Definition interp_sv_type (t : ast.SvType) : ColType :=
  match t with
  | ast.SV_TYPE_INT => TYPE_INT
  | ast.SV_TYPE_FLOAT => TYPE_FLOAT
  | ast.SV_TYPE_STRING => TYPE_STRING
  | ast.SV_TYPE_BIGINT => TYPE_BIGINT
  | ast.SV_TYPE_DATETIME => TYPE_DATETIME
  end.
Definition col_def (f : ast.Field) : ColDef :=
  match f with ast.ColDef name tl => mkColDef name (interp_sv_type (ast.tl_type tl)) (ast.tl_len tl) end.

Definition do_planner (db : DbMeta) (query : Analyze.Query) : res Plan :=
  match Analyze.q_parse query with
  | ast.CreateTable tab_name fields => Ok (DDLPlan T_CreateTable tab_name [] (col_def <$> fields))
  | ast.DropTable tab_name => Ok (DDLPlan T_DropTable tab_name [] [])
  | ast.CreateIndex tab_name col_names => Ok (DDLPlan T_CreateIndex tab_name col_names [])
  | ast.DropIndex tab_name col_names => Ok (DDLPlan T_DropIndex tab_name col_names [])
  | ast.InsertStmt tab_name _ => Ok (DMLPlan T_Insert NullPlan tab_name (Analyze.q_values query) [] [])
  | ast.DeleteStmt tab_name _ =>
      scan ← make_scan db tab_name (Analyze.q_conds query);
      Ok (DMLPlan T_Delete scan tab_name [] (Analyze.q_conds query) [])
  | ast.UpdateStmt tab_name _ _ =>
      scan ← make_scan db tab_name (Analyze.q_conds query);
      Ok (DMLPlan T_Update scan tab_name [] (Analyze.q_conds query) (Analyze.q_set_clauses query))
  | ast.Select _ =>
      projection ← generate_select_plan db query;
      Ok (DMLPlan T_select projection "" [] [] [])
  | _ => Throw (InternalError "Unexpected AST root")
  end.

(** [Optimizer::plan_query]. *)
Definition plan_query (db : DbMeta) (query : Analyze.Query) : res Plan :=
  match Analyze.q_parse query with
  | ast.Help => Ok (OtherPlan T_Help "")
  | ast.ShowTables => Ok (OtherPlan T_ShowTable "")
  | ast.DescTable tab_name => Ok (OtherPlan T_DescTable tab_name)
  | ast.ShowIndex tab_name => Ok (OtherPlan T_ShowIndex tab_name)
  | ast.TxnBegin => Ok (OtherPlan T_Transaction_begin "")
  | ast.TxnAbort => Ok (OtherPlan T_Transaction_abort "")
  | ast.TxnCommit => Ok (OtherPlan T_Transaction_commit "")
  | ast.TxnRollback => Ok (OtherPlan T_Transaction_rollback "")
  | _ => do_planner db query
  end.

(** ** What a plan of scans and joins consists of *)

Definition scan_name (p : Plan) : string := match p with ScanPlan _ tab_name _ _ _ _ _ => tab_name | _ => "" end.
Definition scan_conds (p : Plan) : list Condition := match p with ScanPlan _ _ _ conds _ _ _ => conds | _ => [] end.
Definition is_scan (p : Plan) : Prop := match p with ScanPlan _ _ _ _ _ _ _ => True | _ => False end.

Fixpoint plan_scans (p : Plan) : list Plan :=
  match p with
  | ScanPlan _ _ _ _ _ _ _ => [p]
  | JoinPlan _ l r _ _ => plan_scans l ++ plan_scans r
  | _ => []
  end.
Fixpoint join_conds (p : Plan) : list Condition :=
  match p with JoinPlan _ l r conds _ => conds ++ join_conds l ++ join_conds r | _ => [] end.
Definition plan_tables (p : Plan) : list string := scan_name <$> plan_scans p.
Definition plan_conds (p : Plan) : list Condition := concat (scan_conds <$> plan_scans p) ++ join_conds p.

(** The conditions of a scan are about its table; the left side of a condition of a join is of
    its left subplan, and the right side of its right one. *)
Definition scan_placed (p : Plan) : Prop :=
  Forall (fun c => tc_tab_name (lhs_col c) = scan_name p /\
    (is_rhs_val c = true \/ tc_tab_name (rhs_col c) = scan_name p)) (scan_conds p).
Fixpoint well_joined (p : Plan) : Prop :=
  match p with
  | ScanPlan _ _ _ _ _ _ _ => True
  | JoinPlan _ l r conds _ => well_joined l /\ well_joined r /\
      Forall (fun c => tc_tab_name (lhs_col c) ∈ plan_tables l /\ tc_tab_name (rhs_col c) ∈ plan_tables r) conds
  | _ => False
  end.
Definition well_placed (p : Plan) : Prop := Forall scan_placed (plan_scans p) /\ well_joined p.

(** The operators, by the order of their two sides. *)
Definition holds_for (op : CompOp) (o : comparison) : bool :=
  match op, o with
  | OP_EQ, Eq | OP_NE, (Lt | Gt) | OP_LT, Lt | OP_GT, Gt | OP_LE, (Lt | Eq) | OP_GE, (Gt | Eq) => true
  | _, _ => false
  end.
(** A condition, or the same one the other way round: its sides are exchanged, and it holds of
    the opposite order exactly if the first one holds. *)
Definition same_cond (c c' : Condition) : Prop :=
  c' = c \/
  (lhs_col c' = rhs_col c /\ rhs_col c' = lhs_col c /\ is_rhs_val c' = is_rhs_val c /\ rhs_val c' = rhs_val c /\
   forall o, holds_for (cond_op c') (CompOpp o) = holds_for (cond_op c) o).
Lemma same_swap c : same_cond c (swap_cond c).
Proof. right. split_and!; try done. intros o. by destruct c as [? [] ? ? ?], o. Qed.

Lemma plan_tables_join tag l r conds type : plan_tables (JoinPlan tag l r conds type) = plan_tables l ++ plan_tables r.
Proof. unfold plan_tables. cbn [plan_scans]. apply fmap_app. Qed.

(** *** A condition goes to the join that has both its tables *)

Definition side (c : Condition) (p : Plan) : Z :=
  if bool_decide (tc_tab_name (lhs_col c) ∈ plan_tables p) then 1
  else if bool_decide (tc_tab_name (rhs_col c) ∈ plan_tables p) then 2 else 0.
Definition both_sides (c : Condition) (p : Plan) : bool :=
  bool_decide (tc_tab_name (lhs_col c) ∈ plan_tables p) && bool_decide (tc_tab_name (rhs_col c) ∈ plan_tables p).

Record pushed (c : Condition) (p p' : Plan) : Prop := {
  pu_scans : plan_scans p' = plan_scans p;
  pu_joined : well_joined p -> well_joined p';
  pu_conds : exists c', same_cond c c' /\ join_conds p' ≡ₚ c' :: join_conds p;
}.

Lemma both_sides_join c tag l r conds type : both_sides c (JoinPlan tag l r conds type) = true <->
  (tc_tab_name (lhs_col c) ∈ plan_tables l \/ tc_tab_name (lhs_col c) ∈ plan_tables r) /\
  (tc_tab_name (rhs_col c) ∈ plan_tables l \/ tc_tab_name (rhs_col c) ∈ plan_tables r).
Proof. unfold both_sides. by rewrite andb_true_iff, !bool_decide_eq_true, plan_tables_join, !elem_of_app. Qed.

Lemma both_sides_true c p : both_sides c p = true <-> tc_tab_name (lhs_col c) ∈ plan_tables p /\ tc_tab_name (rhs_col c) ∈ plan_tables p.
Proof. unfold both_sides. by rewrite andb_true_iff, !bool_decide_eq_true. Qed.

Lemma pushed_left c tag l l' r conds type : pushed c l l' -> pushed c (JoinPlan tag l r conds type) (JoinPlan tag l' r conds type).
Proof.
  intros [Hs Hw (c' & Hc & Hp)]. split.
  - cbn [plan_scans]. by rewrite Hs.
  - cbn [well_joined]. unfold plan_tables. rewrite Hs. intros (H1 & H2 & H3). by split_and!; [apply Hw| |].
  - exists c'. split; [done|]. cbn [join_conds]. rewrite Hp. cbn [app]. by rewrite <- Permutation_middle.
Qed.
Lemma pushed_right c tag l r r' conds type : pushed c r r' -> pushed c (JoinPlan tag l r conds type) (JoinPlan tag l r' conds type).
Proof.
  intros [Hs Hw (c' & Hc & Hp)]. split.
  - cbn [plan_scans]. by rewrite Hs.
  - cbn [well_joined]. unfold plan_tables. rewrite Hs. intros (H1 & H2 & H3). by split_and!; [|apply Hw|].
  - exists c'. split; [done|]. cbn [join_conds]. rewrite Hp. by rewrite <- !Permutation_middle.
Qed.
Lemma pushed_here c c' tag l r conds type : same_cond c c' -> tc_tab_name (lhs_col c') ∈ plan_tables l ->
  tc_tab_name (rhs_col c') ∈ plan_tables r -> pushed c (JoinPlan tag l r conds type) (JoinPlan tag l r (conds ++ [c']) type).
Proof.
  intros Hc Hl Hr. split; [done| |].
  - cbn [well_joined]. intros (H1 & H2 & H3). split_and!; [done|done|]. by apply Forall_app; split; [|constructor].
  - exists c'. split; [done|]. cbn [join_conds]. rewrite <- (app_assoc conds). cbn [app]. by rewrite <- Permutation_middle.
Qed.

Lemma push_conds_ok c p : tc_tab_name (lhs_col c) <> tc_tab_name (rhs_col c) -> NoDup (plan_tables p) ->
  let '(r, p') := push_conds c p in
  if both_sides c p then r = 3 /\ pushed c p p' else r = side c p /\ p' = p.
Proof.
  intros Hne. induction p as [|tag t cs conds len fed idx|tag l IHl r IHr conds type|p|p|p|p|p|]; intros Hd;
    try (unfold both_sides, side; cbn; done).
  - unfold both_sides, side, plan_tables. cbn [push_conds plan_scans fmap list_fmap scan_name].
    repeat case_bool_decide; cbn [andb]; set_solver.
  - pose proof Hd as Hd'. rewrite plan_tables_join in Hd'. apply NoDup_app in Hd' as (Dl & Hdis & Dr).
    specialize (IHl Dl). specialize (IHr Dr). cbn [push_conds].
    destruct (push_conds c l) as [rl l'] eqn:El. destruct (push_conds c r) as [rr r'] eqn:Er.
    pose proof (both_sides_join c tag l r conds type) as Hj. pose proof (Hdis (tc_tab_name (lhs_col c))). pose proof (Hdis (tc_tab_name (rhs_col c))).
    destruct (both_sides c l) eqn:Bl.
    { apply both_sides_true in Bl. destruct IHl as [-> Hp]. rewrite (proj2 Hj) by tauto. split; [done|]. by apply pushed_left. }
    destruct IHl as [-> ->]. destruct (both_sides c r) eqn:Br.
    { apply both_sides_true in Br. destruct IHr as [-> Hp]. rewrite (proj2 Hj) by tauto.
      unfold side. repeat case_bool_decide; cbn; (split; [done|]; by apply pushed_right). }
    destruct IHr as [-> ->]. apply not_true_iff_false in Bl, Br. rewrite both_sides_true in Bl, Br.
    destruct (both_sides c (JoinPlan _ _ _ _ _)) eqn:Bj.
    + apply proj1 in Hj. specialize (Hj eq_refl). unfold side. repeat (case_bool_decide; try tauto); cbn; (split; [done|]).
      * apply pushed_here; [by left|done|done].
      * apply pushed_here; [apply same_swap|done|done].
    + assert (Bj' : ~ (false = true)) by done. rewrite Hj in Bj'. unfold side.
      rewrite plan_tables_join, (bool_decide_ext _ _ (elem_of_app _ _ (tc_tab_name (lhs_col c)))).
      rewrite (bool_decide_ext _ _ (elem_of_app _ _ (tc_tab_name (rhs_col c)))).
      repeat case_bool_decide; cbn; done || tauto.
Qed.

(** *** The loop over the conditions *)

Section joins.
Context (plans : list Plan).
Hypothesis Hscans : Forall is_scan plans.
Hypothesis Hnodup : NoDup (scan_name <$> plans).
Hypothesis Hnames : Forall (fun p => scan_name p <> "") plans.
#[local] Abbreviation names := (scan_name <$> plans).

(** [scantbl] when the tables of [J] are joined. *)
Definition marks (J : list string) (l : list Plan) : list Z :=
  (fun p => if bool_decide (scan_name p ∈ J) then 1 else -1) <$> l.

Lemma marks_ext J J' l : (forall t, t ∈ J <-> t ∈ J') -> marks J l = marks J' l.
Proof. intros H. apply list_fmap_ext. intros _ p _. by rewrite (bool_decide_ext _ _ (H (scan_name p))). Qed.
Lemma marks_nil l : marks [] l = replicate (length l) (-1).
Proof. induction l as [|p l IH]; [done|]. cbn [marks fmap list_fmap length replicate]. unfold marks in IH. rewrite IH. by rewrite bool_decide_false by apply not_elem_of_nil. Qed.

Lemma pop_scan_ok J t joined l : Forall is_scan l -> NoDup (scan_name <$> l) -> t ∈ scan_name <$> l ->
  exists p, p ∈ l /\ is_scan p /\ scan_name p = t /\ pop_scan (marks J l) t joined l = (marks (t :: J) l, joined ++ [t], p).
Proof.
  intros Hs. revert joined. induction Hs as [|p l Hp Hs IH]; intros joined Hd Ht; [by apply not_elem_of_nil in Ht|].
  rewrite fmap_cons in Hd, Ht. apply NoDup_cons in Hd as [Hn Hd]. cbn [marks fmap list_fmap pop_scan].
  destruct p as [|tag name cs conds len fed idx| | | | | | |]; try done. cbn [scan_name] in *.
  destruct (decide (name = t)) as [->|Hne].
  - exists (ScanPlan tag t cs conds len fed idx). split_and!; [left|done|done|]. rewrite bool_decide_true by done.
    rewrite (bool_decide_true (t ∈ t :: J)) by left.
    assert (E : marks J l = marks (t :: J) l); [|unfold marks in E; by rewrite E].
    apply list_fmap_ext. intros i q Hq.
    assert (scan_name q <> t) by (intros <-; apply Hn, list_elem_of_fmap; exists q; split; [done|by eapply list_elem_of_lookup_2]).
    rewrite (bool_decide_ext (scan_name q ∈ t :: J) (scan_name q ∈ J)); [done|]. rewrite elem_of_cons. tauto.
  - apply elem_of_cons in Ht as [?|Ht]; [done|]. destruct (IH joined Hd Ht) as (q & Hq & Hqs & Hqn & E).
    exists q. split_and!; [by right|done|done|]. rewrite bool_decide_false by done. unfold marks in E. rewrite E.
    rewrite (bool_decide_ext (name ∈ t :: J) (name ∈ J)); [done|]. rewrite elem_of_cons. tauto.
Qed.

(** The joined tables are those of [J], with the empty names of the vector's constructor. *)
Definition tracks (joined J : list string) : Prop := forall t, t ∈ joined <-> t = "" \/ t ∈ J.

Lemma tracks_more joined J t : tracks joined J -> tracks (joined ++ [t]) (t :: J).
Proof. intros H u. rewrite elem_of_app, list_elem_of_singleton, elem_of_cons, (H u). tauto. Qed.

Lemma name_nonempty t : t ∈ names -> t <> "".
Proof. intros (p & -> & Hp)%list_elem_of_fmap. by eapply (proj1 (Forall_forall _ _) Hnames). Qed.

Lemma need_scan_ok J joined t : t ∈ names -> tracks joined J ->
  if bool_decide (t ∈ J) then need_scan plans (marks J plans) joined t = (marks J plans, joined, NullPlan)
  else exists p, p ∈ plans /\ is_scan p /\ scan_name p = t /\ need_scan plans (marks J plans) joined t = (marks (t :: J) plans, joined ++ [t], p).
Proof.
  intros Ht Hj. unfold need_scan. rewrite (bool_decide_ext _ _ (Hj t)). pose proof (name_nonempty t Ht).
  case_bool_decide as HJ; [by rewrite bool_decide_true by (by right)|]. rewrite bool_decide_false by tauto. by apply pop_scan_ok.
Qed.

(** After the conditions [done] the tree joins scans of different tables with these conditions. *)
Record joining_ok (done : list Condition) (j : joining) : Prop := {
  jo_marks : scantbl j = marks (plan_tables (table_join j)) plans;
  jo_tables : tracks (joined_tables j) (plan_tables (table_join j));
  jo_scans : forall p, p ∈ plan_scans (table_join j) -> p ∈ plans;
  jo_nodup : NoDup (plan_tables (table_join j));
  jo_well : well_joined (table_join j);
  jo_conds : exists l, Forall2 same_cond done l /\ join_conds (table_join j) ≡ₚ l;
}.

(** A condition between two different tables. *)
Definition joins_tables (c : Condition) : Prop :=
  tc_tab_name (lhs_col c) ∈ names /\ tc_tab_name (rhs_col c) ∈ names /\ tc_tab_name (lhs_col c) <> tc_tab_name (rhs_col c).

Lemma scan_leaf p : is_scan p -> plan_scans p = [p] /\ plan_tables p = [scan_name p] /\ join_conds p = [] /\ well_joined p /\ is_null p = false.
Proof. by destruct p. Qed.

Lemma first_join_ok c : joins_tables c ->
  joining_ok [c] (first_join plans (replicate (length plans) (-1)) (replicate (length plans) "") c).
Proof.
  intros (Hl & Hr & Hne). unfold first_join. rewrite <- marks_nil.
  destruct (pop_scan_ok [] _ (replicate (length plans) "") plans Hscans Hnodup Hl) as (p & Hp & Sp & Np & ->).
  destruct (pop_scan_ok [tc_tab_name (lhs_col c)] _ (replicate (length plans) "" ++ [tc_tab_name (lhs_col c)]) plans Hscans Hnodup Hr)
    as (q & Hq & Sq & Nq & ->).
  destruct (scan_leaf p Sp) as (E1 & E2 & E3 & E4 & _), (scan_leaf q Sq) as (F1 & F2 & F3 & F4 & _).
  assert (Et : plan_tables (new_join T_NestLoop p q [c]) = [tc_tab_name (lhs_col c); tc_tab_name (rhs_col c)])
    by (unfold new_join; rewrite plan_tables_join, E2, F2, Np, Nq; done).
  split; cbn [scantbl joined_tables table_join]; rewrite ?Et.
  - apply marks_ext. intros t. rewrite !elem_of_cons. tauto.
  - assert (Hz : tracks (replicate (length plans) "") []).
    { intros t. rewrite elem_of_replicate. split; [by intros [-> _]; left|]. intros [->|Ht]; [|by apply not_elem_of_nil in Ht].
      split; [done|]. intros E. apply length_zero_iff_nil in E. rewrite E in Hp. by apply not_elem_of_nil in Hp. }
    intros t. rewrite (tracks_more _ _ _ (tracks_more _ _ _ Hz) t), !elem_of_cons. tauto.
  - unfold new_join. cbn [plan_scans]. rewrite E1, F1. intros r. cbn [app]. rewrite !elem_of_cons.
    intros [->|[->|Hn]]; [done|done|by apply not_elem_of_nil in Hn].
  - apply NoDup_cons. split; [by rewrite list_elem_of_singleton|apply NoDup_singleton].
  - unfold new_join. cbn [well_joined]. split_and!; [done|done|]. constructor; [|done]. rewrite E2, F2, Np, Nq. split; left.
  - exists [c]. split; [constructor; [by left|constructor]|]. unfold new_join. cbn [join_conds]. by rewrite E3, F3.
Qed.

(** A subplan over new tables is joined to the tree. *)
Lemma grown done j X conds c c' J joined : joining_ok done j ->
  (forall p, p ∈ plan_scans X -> p ∈ plans) -> NoDup (plan_tables X) ->
  (forall t, t ∈ plan_tables X -> t ∉ plan_tables (table_join j)) -> well_joined X ->
  Forall (fun c => tc_tab_name (lhs_col c) ∈ plan_tables X /\ tc_tab_name (rhs_col c) ∈ plan_tables (table_join j)) conds ->
  same_cond c c' -> conds ++ join_conds X = [c'] ->
  tracks joined J -> (forall t, t ∈ J <-> t ∈ plan_tables X \/ t ∈ plan_tables (table_join j)) ->
  joining_ok (done ++ [c]) (mkJoining (marks J plans) joined (new_join T_NestLoop X (table_join j) conds)).
Proof.
  intros [_ _ Hs Hd Hw (l & Hl & Hp)] Xs Xd Xdis Xw Xc Hc Ec Ht HJ.
  assert (Et : forall t, t ∈ plan_tables (new_join T_NestLoop X (table_join j) conds) <-> t ∈ J)
    by (intros t; unfold new_join; rewrite plan_tables_join, elem_of_app; symmetry; apply HJ).
  split; cbn [scantbl joined_tables table_join].
  - apply marks_ext. intros t. symmetry. apply Et.
  - intros t. by rewrite Et.
  - unfold new_join. cbn [plan_scans]. intros p. rewrite elem_of_app. intros [?|?]; auto.
  - unfold new_join. rewrite plan_tables_join. by apply NoDup_app.
  - unfold new_join. cbn [well_joined]. done.
  - exists (l ++ [c']). split; [apply Forall2_app; [done|by constructor]|]. unfold new_join. cbn [join_conds].
    by rewrite app_assoc, Ec, Hp, (Permutation_app_comm [c']).
Qed.

Lemma next_join_ok done j c : joining_ok done j -> joins_tables c -> joining_ok (done ++ [c]) (next_join plans j c).
Proof.
  intros Hj (Hl & Hr & Hne). pose proof Hj as [Hm Ht Hs Hd Hw Hc]. unfold next_join. rewrite Hm.
  set (J := plan_tables (table_join j)) in *. set (a := tc_tab_name (lhs_col c)) in *. set (b := tc_tab_name (rhs_col c)) in *.
  pose proof (need_scan_ok J _ a Hl Ht) as Na. case_bool_decide as Ha.
  - rewrite Na. pose proof (need_scan_ok J _ b Hr Ht) as Nb. case_bool_decide as Hb.
    + rewrite Nb. cbn [is_null negb andb orb]. pose proof (push_conds_ok c (table_join j) Hne Hd) as Hp.
      destruct (push_conds c (table_join j)) as [r p']. cbn [snd]. rewrite (proj2 (both_sides_true _ _)) in Hp by done.
      destruct Hp as [_ [Ps Pw (c' & Hcc & Pc)]]. destruct Hc as (l & Hfl & Hpl).
      assert (Et : plan_tables p' = J) by (unfold plan_tables; by rewrite Ps).
      split; cbn [scantbl joined_tables table_join]; rewrite ?Et, ?Ps; try done; [by apply Pw|].
      exists (l ++ [c']). split; [apply Forall2_app; [done|by constructor]|]. rewrite Pc, Hpl. apply Permutation_cons_append.
    + destruct Nb as (p & Hp & Sp & Np & ->). destruct (scan_leaf p Sp) as (E1 & E2 & E3 & E4 & ->). cbn [is_null negb andb orb].
      rewrite (bool_decide_false (b ∈ joined_tables j)) by (rewrite (Ht b); pose proof (name_nonempty b Hr); tauto). cbn [negb].
      eapply (grown done j p [swap_cond c] c (swap_cond c)); rewrite ?E1, ?E2, ?E3, ?Np; try done.
      * intros q. by rewrite list_elem_of_singleton; intros ->.
      * apply NoDup_singleton.
      * intros t. by rewrite list_elem_of_singleton; intros ->.
      * constructor; [|done]. split; [left|done].
      * apply same_swap.
      * by apply tracks_more.
      * intros t. by rewrite elem_of_cons, list_elem_of_singleton.
  - destruct Na as (p & Hp & Sp & Np & ->). destruct (scan_leaf p Sp) as (E1 & E2 & E3 & E4 & Enp).
    pose proof (tracks_more _ _ a Ht) as Ht'. pose proof (need_scan_ok (a :: J) _ b Hr Ht') as Nb. case_bool_decide as Hb.
    + rewrite Nb, Enp. cbn [is_null negb andb orb].
      apply elem_of_cons in Hb as [Hb|Hb]; [by destruct Hne|].
      rewrite bool_decide_true by (rewrite (Ht' b); right; by right). cbn [negb].
      eapply (grown done j p [c] c c); rewrite ?E1, ?E2, ?E3, ?Np; try done.
      * intros q. by rewrite list_elem_of_singleton; intros ->.
      * apply NoDup_singleton.
      * intros t. by rewrite list_elem_of_singleton; intros ->.
      * constructor; [|done]. split; [left|done].
      * by left.
      * intros t. by rewrite elem_of_cons, list_elem_of_singleton.
    + destruct Nb as (q & Hq & Sq & Nq & ->). destruct (scan_leaf q Sq) as (F1 & F2 & F3 & F4 & Enq). rewrite Enp, Enq. cbn [negb andb orb].
      eapply (grown done j (new_join T_NestLoop p q [c]) [] c c).
      * done.
      * unfold new_join. cbn [plan_scans]. rewrite E1, F1. intros r. cbn [app]. rewrite !elem_of_cons.
        intros [->|[->|Hn]]; [done|done|by apply not_elem_of_nil in Hn].
      * unfold new_join. rewrite plan_tables_join, E2, F2, Np, Nq. apply NoDup_cons. split; [by rewrite list_elem_of_singleton|apply NoDup_singleton].
      * unfold new_join. rewrite plan_tables_join, E2, F2, Np, Nq. intros t. cbn [app]. rewrite elem_of_cons, list_elem_of_singleton.
        intros [->| ->]; [done|]. intros Hb'. apply Hb. by right.
      * unfold new_join. cbn [well_joined]. split_and!; [done|done|]. constructor; [|done]. rewrite E2, F2, Np, Nq. split; left.
      * constructor.
      * by left.
      * unfold new_join. cbn [join_conds]. by rewrite E3, F3.
      * by apply tracks_more.
      * unfold new_join. intros t. rewrite plan_tables_join, E2, F2, Np, Nq. cbn [app]. rewrite !elem_of_cons, elem_of_nil. fold J. tauto.
Qed.

Lemma join_rest_ok J l root : Forall is_scan l ->
  plan_scans (join_rest (marks J l) l root) ≡ₚ base.filter (fun p => scan_name p ∉ J) l ++ plan_scans root /\
  join_conds (join_rest (marks J l) l root) = join_conds root /\
  (well_joined root -> well_joined (join_rest (marks J l) l root)).
Proof.
  intros Hl. revert root. induction Hl as [|p l Hp Hl IH]; intros root; [done|].
  destruct (scan_leaf p Hp) as (E1 & _ & E3 & E4 & _). cbn [marks fmap list_fmap join_rest]. rewrite filter_cons.
  unfold marks in IH. case_bool_decide; change (1 =? -1) with false; change (-1 =? -1) with true; cbv iota.
  - destruct (decide (scan_name p ∉ J)); [done|]. apply IH.
  - destruct (decide (scan_name p ∉ J)); [|done]. destruct (IH (new_join T_NestLoop p root [])) as (I1 & I2 & I3).
    split_and!.
    + rewrite I1. unfold new_join. cbn [plan_scans]. rewrite E1. cbn [app]. by rewrite <- Permutation_middle.
    + rewrite I2. unfold new_join. cbn [join_conds app]. by rewrite E3.
    + intros Hw. apply I3. unfold new_join. cbn [well_joined]. split_and!; [done|done|constructor].
Qed.

Lemma scans_among root : (forall p, p ∈ plan_scans root -> p ∈ plans) -> NoDup (plan_tables root) ->
  plan_scans root ≡ₚ base.filter (fun p => scan_name p ∈ plan_tables root) plans.
Proof.
  intros Hs Hd. apply NoDup_Permutation.
  - unfold plan_tables in Hd. by eapply NoDup_fmap_1.
  - apply NoDup_filter. by eapply NoDup_fmap_1.
  - intros p. rewrite list_elem_of_filter. split.
    + intros Hp. split; [|by apply Hs]. unfold plan_tables. apply list_elem_of_fmap. by exists p.
    + intros [(q & Eq & Hq)%list_elem_of_fmap Hp]. assert (q = p) as ->; [|done].
      apply Hs in Hq. apply list_elem_of_lookup in Hq as [i Hi], Hp as [k Hk].
      assert (i = k) as ->; [|congruence]. eapply (NoDup_lookup _ i k (scan_name p) Hnodup); rewrite list_lookup_fmap.
      * rewrite Hi. cbn. by rewrite Eq.
      * by rewrite Hk.
Qed.

Lemma join_scans_ok conds : plans <> [] -> Forall joins_tables conds ->
  exists p, join_scans plans conds = Ok p /\ plan_scans p ≡ₚ plans /\ well_joined p /\
    exists l, Forall2 same_cond conds l /\ join_conds p ≡ₚ l.
Proof.
  intros Hne Hc. assert (exists j, joining_ok conds j /\ join_scans plans conds = Ok (join_rest (scantbl j) plans (table_join j)))
    as (j & [Hm _ Hs Hd Hw (l & Hl & Hp)] & ->).
  - unfold join_scans. destruct Hc as [|c conds Hc Hcs].
    + destruct plans as [|p ps] eqn:Ep; [done|]. rewrite <- Ep in *. assert (Hin : p ∈ plans) by (rewrite Ep; left).
      pose proof (proj1 (Forall_forall _ _) Hscans p Hin) as Sp. destruct (scan_leaf p Sp) as (E1 & E2 & E3 & E4 & _).
      exists (mkJoining (<[0%nat := 1]> (replicate (length plans) (-1))) ("" :: [scan_name p]) p). split; [|done].
      split; cbn [scantbl joined_tables table_join]; rewrite ?E1, ?E2; try done.
      * rewrite <- marks_nil. rewrite Ep in *. cbn [marks fmap list_fmap]. rewrite (bool_decide_true (scan_name p ∈ [scan_name p])) by left.
        rewrite fmap_cons in Hnodup. apply NoDup_cons in Hnodup as [Hn _].
        change (<[0%nat := 1]> (?x :: ?l)) with (1 :: l). f_equal. apply list_fmap_ext. intros i q Hq.
        rewrite !bool_decide_false; [done| |apply not_elem_of_nil]. rewrite list_elem_of_singleton. intros E. apply Hn. rewrite <- E.
        apply list_elem_of_fmap. exists q. split; [done|by eapply list_elem_of_lookup_2].
      * intros t. rewrite elem_of_cons, !list_elem_of_singleton. tauto.
      * intros q. by rewrite list_elem_of_singleton; intros ->.
      * apply NoDup_singleton.
      * exists []. by rewrite E3.
    + eexists. split; [|done]. clear Hne. assert (Hj := first_join_ok c Hc). change (c :: conds) with ([c] ++ conds). revert Hj.
      generalize [c] as done_, (first_join plans (replicate (length plans) (-1)) (replicate (length plans) "") c) as j.
      induction Hcs as [|c' conds Hc' Hcs IH]; intros done_ j Hj; [by rewrite app_nil_r|].
      cbn [fold_left]. change (c' :: conds) with ([c'] ++ conds). rewrite app_assoc. apply IH. by apply next_join_ok.
  - rewrite Hm. destruct (join_rest_ok (plan_tables (table_join j)) plans (table_join j) Hscans) as (J1 & J2 & J3).
    eexists. split_and!; [done| |by apply J3|exists l; by rewrite J2].
    rewrite J1, (scans_among _ Hs Hd) at 1. rewrite Permutation_app_comm. apply filter_app_complement.
Qed.
End joins.

(** *** The scans *)

Lemma pop_conds_filter conds t :
  pop_conds conds t = (List.filter (solves t) conds, List.filter (fun c => negb (solves t c)) conds).
Proof.
  induction conds as [|c conds IH]; [done|]. cbn [pop_conds List.filter]. rewrite IH. by destruct (solves t c).
Qed.

Lemma filter_split {A} (f : A -> bool) l : l ≡ₚ List.filter f l ++ List.filter (fun x => negb (f x)) l.
Proof.
  induction l as [|x l IH]; [done|]. cbn [List.filter]. destruct (f x); cbn [negb app]; [by rewrite <- IH|].
  rewrite <- Permutation_middle. by rewrite <- IH.
Qed.

(** A table of the database, which has columns. *)
Definition has_table (db : DbMeta) (t : string) : Prop :=
  t <> "" /\ exists tab, db_tabs db !! t = Some tab /\ tm_cols tab <> [].

Lemma make_scan_ok db t conds : has_table db t ->
  exists p, make_scan db t conds = Ok p /\ is_scan p /\ scan_name p = t /\ scan_conds p = conds.
Proof.
  intros (_ & tab & Ht & Hc). assert (Hg : get_table db t = Ok (TabMeta_copy tab)) by (unfold get_table; by rewrite Ht).
  unfold make_scan, get_index_cols. rewrite Hg. cbn [mbind res_bind].
  assert (Hn : forall tag idx, exists p, new_scan db tag t conds idx = Ok p /\ is_scan p /\ scan_name p = t /\ scan_conds p = conds).
  { intros tag idx. unfold new_scan. rewrite Hg. cbn [mbind res_bind tm_cols TabMeta_copy].
    destruct (last (tm_cols tab)) as [c|] eqn:El; [by eexists|]. by apply last_None in El. }
  destruct (is_index_prefix _ _ _) as [[] idx]; apply Hn.
Qed.

(** A condition of a query on [tables]: between a column and a value, or between columns of two
    tables, or between columns of the first table. *)
Definition planned_cond (tables : list string) (c : Condition) : Prop :=
  tc_tab_name (lhs_col c) <> "" /\
  if is_rhs_val c then tc_tab_name (rhs_col c) = ""
  else tc_tab_name (lhs_col c) = tc_tab_name (rhs_col c) -> head tables = Some (tc_tab_name (lhs_col c)).

Lemma make_scans_ok db tables : forall conds, Forall (has_table db) tables -> Forall (planned_cond tables) conds ->
  exists scans rest, make_scans db tables conds = Ok (scans, rest) /\ scan_name <$> scans = tables /\
    Forall is_scan scans /\ Forall scan_placed scans /\ conds ≡ₚ concat (scan_conds <$> scans) ++ rest /\
    Forall (fun c => c ∈ conds /\ (is_rhs_val c = true -> tc_tab_name (lhs_col c) ∉ tables) /\
      (tables <> [] -> tc_tab_name (lhs_col c) <> tc_tab_name (rhs_col c))) rest.
Proof.
  induction tables as [|t ts IH]; intros conds Ht Hc.
  - exists [], conds. cbn. split_and!; try done; try constructor. apply Forall_forall. intros c Hi. by split_and!; [|intros _; apply not_elem_of_nil|].
  - apply Forall_cons in Ht as [Ht Hts]. cbn [make_scans]. rewrite pop_conds_filter.
    destruct (make_scan_ok db t (List.filter (solves t) conds) Ht) as (p & -> & Sp & Np & Cp). cbn [mbind res_bind].
    set (others := List.filter (fun c => negb (solves t c)) conds).
    assert (Hin : forall f c, c ∈ List.filter f conds <-> c ∈ conds /\ f c = true) by (intros f c; rewrite !list_elem_of_In; apply filter_In).
    assert (Hun : forall c, c ∈ others -> (is_rhs_val c = true -> tc_tab_name (lhs_col c) <> t) /\ tc_tab_name (lhs_col c) <> tc_tab_name (rhs_col c)).
    { intros c [_ Hs]%Hin. apply negb_true_iff, orb_false_iff in Hs as [H1 H2]. apply bool_decide_eq_false in H2. split; [|done].
      intros Hv. rewrite Hv, andb_true_r in H1. apply bool_decide_eq_false in H1. congruence. }
    destruct (IH others Hts) as (scans & rest & -> & Hn & Hs & Hp & Hperm & Hr).
    { apply Forall_forall. intros c Hi. destruct (Hun c Hi) as [_ Hne]. apply Hin in Hi as [Hi _].
      destruct (proj1 (Forall_forall _ _) Hc c Hi) as [H1 H2]. split; [done|]. destruct (is_rhs_val c); [done|]. by intros ?. }
    cbn [mbind res_bind]. exists (p :: scans), rest. split_and!.
    + done.
    + rewrite fmap_cons. by rewrite Np, Hn.
    + by constructor.
    + constructor; [|done]. unfold scan_placed. rewrite Cp, Np. apply Forall_forall. intros c [Hi Hsv]%Hin.
      destruct (proj1 (Forall_forall _ _) Hc c Hi) as [H1 H2]. apply orb_true_iff in Hsv as [Hsv|Hsv].
      * apply andb_true_iff in Hsv as [Hsv Hv]. apply bool_decide_eq_true in Hsv. by split; [|left].
      * apply bool_decide_eq_true in Hsv. destruct (is_rhs_val c); [by rewrite Hsv, H2 in H1|]. specialize (H2 Hsv). injection H2 as ->.
        by split; [|right].
    + rewrite fmap_cons. cbn [concat]. rewrite Cp, <- app_assoc, <- Hperm. apply filter_split.
    + eapply Forall_impl; [exact Hr|]. intros c (H1 & H2 & _). destruct (Hun c H1) as [U1 U2]. split_and!; [by apply Hin in H1 as [? _]| |done].
      intros Hv. rewrite not_elem_of_cons. split; [by apply U1|by apply H2].
Qed.

(** C28: the plan of a query scans each of its tables once, and has each condition once: either at
    the scan of the table it is about, or at a join, where its left side is of a table of the
    left subplan and its right side of one of the right, if need be with its sides exchanged
    and an operator that holds of the opposite order.  The conditions of the query between two
    columns of one table are all on the first table; others are misplaced
    ([condition_misplaced]). *)
Theorem conditions_placed db query :
  Analyze.q_tables query <> [] -> NoDup (Analyze.q_tables query) -> Forall (has_table db) (Analyze.q_tables query) ->
  Forall (fun c => planned_cond (Analyze.q_tables query) c /\ tc_tab_name (lhs_col c) ∈ Analyze.q_tables query /\
    (is_rhs_val c = false -> tc_tab_name (rhs_col c) ∈ Analyze.q_tables query)) (Analyze.q_conds query) ->
  exists plan, make_one_rel db query = Ok plan /\ plan_tables plan ≡ₚ Analyze.q_tables query /\ well_placed plan /\
    exists l, Forall2 same_cond (Analyze.q_conds query) l /\ plan_conds plan ≡ₚ l.
Proof.
  set (tables := Analyze.q_tables query). set (conds := Analyze.q_conds query). intros Hne Hd Ht Hc.
  destruct (make_scans_ok db tables conds Ht) as (scans & rest & Hm & Hn & Hs & Hp & Hperm & Hr).
  { eapply Forall_impl; [exact Hc|]. by intros c []. }
  assert (Hj : Forall (joins_tables scans) rest).
  { eapply Forall_impl; [exact Hr|]. intros c (H1 & H2 & H3). destruct (proj1 (Forall_forall _ _) Hc c H1) as (_ & K1 & K2).
    unfold joins_tables. rewrite Hn. split_and!; [done| |by apply H3]. destruct (is_rhs_val c); [by destruct H2|by apply K2]. }
  assert (Hnames : Forall (fun p => scan_name p <> "") scans).
  { apply Forall_forall. intros p Hi. destruct (proj1 (Forall_forall _ _) Ht (scan_name p)) as [? _]; [|done].
    rewrite <- Hn. apply list_elem_of_fmap. by exists p. }
  assert (Hsc : scans <> []) by (intros ->; by rewrite <- Hn in Hne).
  rewrite <- Hn in Hd. destruct (join_scans_ok scans Hs Hd Hnames rest Hsc Hj) as (p & Ej & Ep & Wp & l & Hl & Hpl).
  assert (Hex : exists plan, make_one_rel db query = Ok plan /\ plan_scans plan ≡ₚ scans /\ well_joined plan /\
    exists l, Forall2 same_cond rest l /\ join_conds plan ≡ₚ l).
  { unfold make_one_rel. fold tables conds. rewrite Hm. cbn [mbind res_bind]. destruct scans as [|q [|q' scans']]; [done| |by exists p; split_and!; eauto].
    apply Forall_cons in Hs as [Sq _]. destruct (scan_leaf q Sq) as (E1 & E2 & E3 & E4 & _). exists q. rewrite E1, E3. split_and!; try done.
    destruct rest as [|c rest]; [by exists []|]. apply Forall_cons in Hj as [(J1 & J2 & J3) _]. cbn [fmap list_fmap] in J1, J2.
    apply list_elem_of_singleton in J1, J2. congruence. }
  clear p Ej Ep Wp l Hl Hpl. destruct Hex as (plan & -> & Eps & Wp & l & Hl & Hpl). exists plan. split_and!; [done| | |].
  - unfold plan_tables. by rewrite Eps, Hn.
  - split; [|done]. by rewrite Eps.
  - assert (Hall : Forall2 same_cond (concat (scan_conds <$> scans) ++ rest) (concat (scan_conds <$> scans) ++ l)).
    { apply Forall2_app; [|done]. apply Forall2_same_length_lookup. split; [done|]. intros i x y -> [= ->]. by left. }
    destruct (Permutation_Forall2 (symmetry Hperm) Hall) as (l' & Hl' & Hf). exists l'. split; [done|].
    unfold plan_conds. by rewrite Eps, Hpl.
Qed.

(** *** One table without an index *)
Lemma plan_one_table db t tab query : db_tabs db !! t = Some tab -> tm_indexes tab = [] ->
  Analyze.q_tables query = [t] ->
  Forall (fun c => tc_tab_name (lhs_col c) = t /\ (is_rhs_val c = true \/ tc_tab_name (rhs_col c) = t)) (Analyze.q_conds query) ->
  make_one_rel db query = new_scan db T_SeqScan t (Analyze.q_conds query) [].
Proof.
  intros Ht Hi Hq Hc. unfold make_one_rel. rewrite Hq. cbn [make_scans]. rewrite pop_conds_filter.
  assert (Hs : forall c, c ∈ Analyze.q_conds query -> solves t c = true).
  { intros c Hin. destruct (proj1 (Forall_forall _ _) Hc c Hin) as [Hl Hr]. unfold solves. rewrite Hl, bool_decide_true by done.
    cbn [andb]. destruct Hr as [-> | ->]; [done|]. by rewrite orb_true_r || (rewrite (bool_decide_true (t = t)) by done; by rewrite orb_true_r). }
  assert (E : List.filter (solves t) (Analyze.q_conds query) = Analyze.q_conds query).
  { revert Hs. generalize (Analyze.q_conds query). induction l as [|c l IH]; intros Hs; [done|]. cbn [List.filter].
    rewrite (Hs c) by left. f_equal. apply IH. intros c' Hc'. apply Hs. by right. }
  rewrite E. unfold make_scan, get_index_cols, get_table. rewrite Ht. cbn [mbind res_bind]. unfold is_index_prefix. cbn [tm_indexes TabMeta_copy].
  rewrite Hi. cbn [best_prefix]. by destruct (new_scan db T_SeqScan t (Analyze.q_conds query) []).
Qed.

(** ** Examples *)

Definition int_tab (t : string) (cols : list string) : TabMeta :=
  mkTabMeta t (imap (fun i c => mkColMeta t c TYPE_INT 4 (4 * Z.of_nat i) false) cols) [].
Definition demo_db : DbMeta :=
  mkDbMeta "school" {[ "t" := int_tab "t" ["a"; "b"]; "u" := int_tab "u" ["c"; "d"]; "v" := int_tab "v" ["e"; "f"] ]}.
Definition demo_junk : bytes := replicate 8 170.
Definition select_all (tabs : list string) (conds : list ast.BinaryExpr) : ast.TreeNode :=
  ast.Select (ast.new_select [] tabs conds [] (-1)).
Definition analyzed (tabs : list string) (conds : list ast.BinaryExpr) : Analyze.Query :=
  match Analyze.do_analyze demo_junk demo_db (select_all tabs conds) with
  | Ok q => q
  | Throw _ => Analyze.mkQuery ast.Help [] [] [] 0 [] [] []
  end.
(** [select * from t, u, v where a = c and f = b and u.d = 1 and c < e]: the second condition adds
    the scan of [v] to the join of the first, turned round, and the fourth goes to that join. *)
Definition demo_query : Analyze.Query := analyzed ["t"; "u"; "v"]
  [Analyze.cond_col "" "a" ast.SV_OP_EQ "" "c"; Analyze.cond_col "" "b" ast.SV_OP_LE "" "f";
   Analyze.cond_val "u" "d" ast.SV_OP_EQ (ast.IntLit 1); Analyze.cond_col "" "c" ast.SV_OP_LT "" "e"].

Lemma conditions_placed_witness :
  exists plan, make_one_rel demo_db demo_query = Ok plan /\ plan_tables plan = ["v"; "t"; "u"] /\
    well_placed plan /\ (exists l, Forall2 same_cond (Analyze.q_conds demo_query) l /\ plan_conds plan ≡ₚ l) /\
    cond_op <$> Analyze.q_conds demo_query = [OP_EQ; OP_LE; OP_EQ; OP_LT] /\
    cond_op <$> plan_conds plan = [OP_EQ; OP_GE; OP_GT; OP_EQ].
Proof.
  destruct (conditions_placed demo_db demo_query) as (plan & Hm & _ & Hw & Hl).
  - done.
  - apply (bool_decide_eq_true_1 (NoDup ["t"; "u"; "v"])). by vm_compute.
  - repeat constructor; try done; eexists; (split; [vm_compute; reflexivity|done]).
  - assert (Hb : forall c, tc_tab_name (lhs_col c) ∈ ["t"; "u"; "v"] -> True) by done.
    repeat constructor; try done; cbn; intros; (discriminate || set_solver).
  - exists plan. split_and!; [done| |exact Hw|exact Hl|vm_compute; reflexivity|].
    + revert Hm. vm_compute. by intros [= <-].
    + revert Hm. vm_compute. by intros [= <-].
Defined.

(** A condition between two columns of the second table goes to the scan of the first, which
    does not have them. *)
Lemma condition_misplaced :
  exists plan, make_one_rel demo_db (analyzed ["t"; "u"] [Analyze.cond_col "" "c" ast.SV_OP_EQ "" "d"]) = Ok plan /\
    exists p c, p ∈ plan_scans plan /\ scan_name p = "t" /\ scan_conds p = [c] /\
      Filter.filter [c] (tm_cols (int_tab "t" ["a"; "b"])) (RmRecord_new 8 (replicate 8 0)) = Throw (ColumnNotFoundError "u.c").
Proof.
  eexists. split; [vm_compute; reflexivity|]. eexists _, _. split; [cbn; right; left|].
  split; [reflexivity|]. split; [reflexivity|]. vm_compute. reflexivity.
Qed.

(** A condition on a table that is not selected from is forgotten when there is one table, and
    gives a join without a right subplan when there are two. *)
Lemma condition_forgotten :
  exists plan, make_one_rel demo_db (analyzed ["t"] [Analyze.cond_val "u" "d" ast.SV_OP_EQ (ast.IntLit 1)]) = Ok plan /\
    plan_tables plan = ["t"] /\ plan_conds plan = [].
Proof. eexists. split; [vm_compute; reflexivity|]. split; vm_compute; reflexivity. Qed.
Lemma join_without_plan :
  exists p1 p2 conds, make_one_rel demo_db (analyzed ["t"; "u"] [Analyze.cond_val "v" "e" ast.SV_OP_EQ (ast.IntLit 1)]) =
    Ok (new_join T_NestLoop p1 (new_join T_NestLoop p2 (new_join T_NestLoop NullPlan NullPlan conds) []) []).
Proof. do 3 eexists. vm_compute. reflexivity. Qed.

End Planner.
