(* ===== verification/Portal.v ===== *)
(** * The portal

    [portal.h] and the rest of [execution/execution_manager.cpp]: the executors of a plan, and
    what runs them.  An executor is a type with the virtual methods of its class and a state of
    that type. *)

From stdpp Require Import sorting.
From S2P Require Import Prelude Common Posix Replacer Disk Buffer RmDefs Log Transaction Record SmMeta IxDefs IxNode IxHandle IxManager SmManager TransactionManager Values Filter Executor Join Aggregate Scan IndexScan Modify Printer Ast Analyze Planner.

Module Portal.
Import Printer Planner.

(** ** Executors of any class

    [ex_rid] is [None] where [rid] is that of the base class, which nobody sets. *)
Record executor (S : Type) := mkExecutor {
  ex_type : Type;
  ex_ops : AbstractExecutor S ex_type;
  ex_rid : ex_type -> option Rid;
  ex_state : ex_type;
}.
Arguments mkExecutor {S ex_type} ex_ops ex_rid ex_state.
Arguments ex_type {S}.
Arguments ex_ops {S}.
Arguments ex_rid {S}.
Arguments ex_state {S}.

Section ops.
Context {D R C : Type} `{Disk D} `{!Files D} `{!Shell D} `{Replacer R} `{TxnContext C} `{!HasTxn C} `{!StmtContext C}.
Context `{!StdSort}.
#[local] Abbreviation sm := (SmManager.t D R C).
(** Memory that is not initialised, and the bound on the turns of each loop. *)
Context (junk : bytes) (junk_rid : Rid) (fuel : nat).

Definition no_rid {E} (e : E) : option Rid := None.

(** The object a unique pointer points to. *)
Definition deref {A} (p : option A) : M sm A := match p with Some x => mret x | None => throw Stuck end.

(** [convert_plan_executor]; [None] is the null pointer. *)
Fixpoint convert_plan_executor (plan : Plan) : M sm (option (executor sm)) :=
  match plan with
  | ProjectionPlan _ subplan sel_cols =>
      o ← convert_plan_executor subplan; p ← deref o;
      e ← lift (Projection.make (H:=ex_ops p) (ex_state p) sel_cols);
      mret (Some (mkExecutor (Projection.projection (H:=ex_ops p) junk) no_rid e))
  | AggregatePlan _ subplan sel_cols =>
      o ← convert_plan_executor subplan; p ← deref o;
      e ← lift (Aggregate.make (H:=ex_ops p) junk (ex_state p) sel_cols);
      mret (Some (mkExecutor (Aggregate.aggregate (H:=ex_ops p) junk fuel) no_rid e))
  | ScanPlan tag tab_name _ conds _ _ index_col_names =>
      if decide (tag = T_SeqScan) then
        e ← SeqScan.make junk_rid tab_name conds;
        mret (Some (mkExecutor SeqScan.seq_scan (fun e => Some (SeqScan.rid_ e)) e))
      else
        e ← IndexScan.make junk_rid tab_name conds index_col_names;
        mret (Some (mkExecutor (IndexScan.index_scan junk fuel) (fun e => Some (IndexScan.rid_ e)) e))
  | JoinPlan _ left_ right_ conds _ =>
      l ← convert_plan_executor left_;
      r ← convert_plan_executor right_;
      l ← deref l; r ← deref r;
      e ← lift (NestedLoopJoin.make (H:=ex_ops l) (H0:=ex_ops r) (ex_state l) (ex_state r) conds);
      mret (Some (mkExecutor (NestedLoopJoin.join (H:=ex_ops l) (H0:=ex_ops r) fuel) no_rid e))
  | SortPlan _ subplan key_cols limit =>
      o ← convert_plan_executor subplan; p ← deref o;
      e ← lift (Sort.make (H:=ex_ops p) (ex_state p) key_cols limit);
      mret (Some (mkExecutor (Sort.sort (H:=ex_ops p) fuel) no_rid e))
  | _ => mret None
  end.

(** ** [Portal::start] *)

(** The loop over a scan that collects the positions of its rows. *)
Fixpoint rids_from {E} {H : AbstractExecutor sm E} (rid : E -> option Rid) (n : nat) (e : E) : M sm (list Rid) :=
  b ← lift (ex_is_end e);
  if b : bool then mret [] else
  match n with
  | O => throw OutOfFuel
  | Datatypes.S n' => r ← deref (rid e); e ← ex_nextTuple e; l ← rids_from rid n' e; mret (r :: l)
  end.
Definition scan_rids (subplan : Plan) : M sm (list Rid) :=
  o ← convert_plan_executor subplan; p ← deref o;
  e ← ex_beginTuple (AbstractExecutor:=ex_ops p) (ex_state p);
  rids_from (H:=ex_ops p) (ex_rid p) fuel e.

(** The executors of statements that change tables. *)
Inductive dml :=
  | Insert (e : Modify.insert_t)
  | Delete (e : Modify.delete_t)
  | Update (e : Modify.update_t).

(** The tag is the constructor; each has the members that are used for it. *)
Inductive PortalStmt :=
  | PORTAL_ONE_SELECT (sel_cols : list TabCol) (root : option (executor sm)) (plan : Plan)
  | PORTAL_DML_WITHOUT_SELECT (root : dml) (plan : Plan)
  | PORTAL_MULTI_QUERY (plan : Plan)
  | PORTAL_CMD_UTILITY (plan : Plan).

Definition start (plan : Plan) : M sm PortalStmt :=
  match plan with
  | OtherPlan _ _ => mret (PORTAL_CMD_UTILITY plan)
  | DDLPlan _ _ _ _ => mret (PORTAL_MULTI_QUERY plan)
  | DMLPlan T_select subplan _ _ _ _ =>
      root ← convert_plan_executor subplan;
      match subplan with
      | ProjectionPlan _ _ sel_cols | AggregatePlan _ _ sel_cols => mret (PORTAL_ONE_SELECT sel_cols root plan)
      | _ => throw (InternalError "invalid select plan, expect aggregate or projection plan")
      end
  | DMLPlan T_Update subplan tab_name _ _ set_clauses =>
      rids ← scan_rids subplan;
      e ← Modify.make_update tab_name set_clauses rids;
      mret (PORTAL_DML_WITHOUT_SELECT (Update e) plan)
  | DMLPlan T_Delete subplan tab_name _ _ _ =>
      rids ← scan_rids subplan;
      e ← Modify.make_delete tab_name rids;
      mret (PORTAL_DML_WITHOUT_SELECT (Delete e) plan)
  | DMLPlan T_Insert _ tab_name values _ _ =>
      e ← Modify.make_insert junk_rid tab_name values;
      mret (PORTAL_DML_WITHOUT_SELECT (Insert e) plan)
  | _ => throw (InternalError "Unexpected field type")
  end.

(** ** [Portal::run] and the manager of execution *)

(** The transaction manager, with the system manager in it, and the reply. *)
#[local] Abbreviation st := (TransactionManager.t D R C * reply)%type.
Definition on_txns {A} (m : M (TransactionManager.t D R C) A) : M st A := zoom fst (fun s x => (s, x.2)) m.
Definition on_sm {A} (m : M sm A) : M st A := on_txns (TransactionManager.on_sm m).
(** The system manager and the reply. *)
Definition on_select {A} (m : M (sm * reply) A) : M st A :=
  zoom (fun x => (TransactionManager.sm_ x.1, x.2)) (fun y x => (TransactionManager.set_sm y.1 x.1, y.2)) m.
Definition replies (f : DbMeta -> reply -> res reply) : M st unit :=
  on_select (fun x => Select.on_reply (f (SmManager.db_ x.1)) x).

Definition run_dml (e : dml) : M st unit :=
  on_sm (match e with
         | Insert e => _ ← Modify.insert_next junk e; mret tt
         | Delete e => _ ← Modify.delete_next e; mret tt
         | Update e => _ ← Modify.update_next e; mret tt
         end).

Definition run_mutli_query (plan : Plan) : M st unit :=
  match plan with
  | DDLPlan T_CreateTable tab_name _ cols => on_sm (SmManager.create_table tab_name cols)
  | DDLPlan T_DropTable tab_name _ _ => on_sm (SmManager.drop_table junk tab_name)
  | DDLPlan T_CreateIndex tab_name col_names _ => on_sm (SmManager.create_index junk junk_rid tab_name col_names true)
  | DDLPlan T_DropIndex tab_name col_names _ => on_sm (SmManager.drop_index junk junk_rid tab_name col_names true)
  | DDLPlan _ _ _ _ => throw (InternalError "Unexpected field type")
  | _ => mret tt
  end.

Definition help_lines : list string :=
  ["Supported SQL syntax:"; "  command ;"; "command:";
   "  CREATE TABLE table_name (column_name type [, column_name type ...])"; "  DROP TABLE table_name";
   "  CREATE INDEX table_name (column_name)"; "  DROP INDEX table_name (column_name)";
   "  INSERT INTO table_name VALUES (value [, value ...])"; "  DELETE FROM table_name [WHERE where_clause]";
   "  UPDATE table_name SET column_name = value [, column_name = value ...] [WHERE where_clause]";
   "  SELECT selector FROM table_name [WHERE where_clause]"; "type:"; "  {INT | FLOAT | CHAR(n)}"; "where_clause:";
   "  condition [AND condition ...]"; "condition:"; "  column op {column | value}"; "column:"; "  [table_name.]column_name";
   "op:"; "  {= | <> | < | > | <= | >=}"; "selector:"; "  {* | column [, column ...]}"].
Definition help_info : bytes := concat ((fun l => str_bytes (l +:+ endl)) <$> help_lines).
(** The offset becomes the length of the text, wherever the text was put. *)
Definition help (r : reply) : res reply :=
  data ← copy (data r) (offset r) (Some help_info) 0 (Z.of_nat (length help_info));
  Ok (mkReply data (Z.of_nat (length help_info)) (ellipsis r) (outfile r)).

(** The transaction of the identifier is that of the context, if there is one. *)
Definition run_cmd_utility (plan : Plan) (txn_id : Z) : M st unit :=
  match plan with
  | OtherPlan T_Help _ => replies (fun _ => help)
  | OtherPlan T_ShowTable _ => replies Select.show_tables
  | OtherPlan T_ShowIndex tab_name => replies (fun d => Select.show_index d tab_name)
  | OtherPlan T_DescTable tab_name => replies (fun d => Select.desc_table d tab_name)
  | OtherPlan T_Transaction_begin _ => on_txns (TransactionManager.upd_txn (Txn.set_txn_mode true))
  | OtherPlan T_Transaction_commit _ =>
      on_txns (b ← TransactionManager.get_transaction txn_id; TransactionManager.commit (negb b))
  | OtherPlan (T_Transaction_rollback | T_Transaction_abort) _ =>
      on_txns (b ← TransactionManager.get_transaction txn_id; TransactionManager.abort junk junk_rid fuel (negb b))
  | OtherPlan _ _ => throw (InternalError "Unexpected field type")
  | _ => mret tt
  end.

Definition run (portal : PortalStmt) (txn_id : Z) : M st unit :=
  match portal with
  | PORTAL_ONE_SELECT sel_cols root _ =>
      match root with
      | None => throw Stuck
      | Some p => _ ← on_select (Select.select_from (H:=ex_ops p) fuel (ex_state p) sel_cols); mret tt
      end
  | PORTAL_DML_WITHOUT_SELECT root _ => run_dml root
  | PORTAL_MULTI_QUERY plan => run_mutli_query plan
  | PORTAL_CMD_UTILITY plan => run_cmd_utility plan txn_id
  end.
End ops.

(** ** The executors of a selection from one table *)
Section laws.
Context {D R C : Type} `{DiskLaws D} `{!Files D} `{!Shell D} `{ReplacerLaws R} `{TxnContext C} `{!HasTxn C} `{!StmtContext C}.
Context `{!StdSort}.
Context (junk : bytes) (junk_rid : Rid) (fuel : nat).
#[local] Abbreviation sm := (SmManager.t D R C).
#[local] Abbreviation convert := (convert_plan_executor junk junk_rid fuel).
Implicit Types s : sm.

(** An executor that will enumerate [l] and has the columns [cs]. *)
Definition gives s (p : executor sm) (cs : list ColMeta) (l : list bytes) : Prop :=
  ex_cols (AbstractExecutor:=ex_ops p) (ex_state p) = cs /\
  exists EN : Enumerates (H:=sm_calm) sm (ex_type p) (H0:=ex_ops p), en_ready (Enumerates:=EN) s (ex_state p) l.

Lemma deref_ok s s' {A} (o : option A) x : deref o s = (s', Ok x) -> s' = s /\ o = Some x.
Proof. destruct o; [by intros [= -> ->]|done]. Qed.

Lemma scan_gives s s' t cs conds len fed idx o tab f : db_tabs (SmManager.db_ s) !! t = Some tab ->
  SmManager.fhs_ s !! t = Some f -> open_ok s f -> convert (ScanPlan T_SeqScan t cs conds len fed idx) s = (s', Ok o) ->
  calm s s' /\ exists p L, o = Some p /\ SeqScan.all_of (records s f) L /\
    gives s' p (tm_cols tab) (base.filter (keeps_row conds (tm_cols tab)) L.*2).
Proof.
  intros Ht Hf Hok Hc. cbn [convert_plan_executor] in Hc. rewrite decide_True in Hc by done.
  apply bind_inv in Hc as (s1 & e & Hm & Hc). unfold mret, M_ret in Hc. injection Hc as <- <-.
  destruct (SeqScan.make_scans _ _ _ _ _ _ _ _ Ht Hf Hok Hm) as (Hcalm & Hs & Ecols & Econds). split; [done|].
  destruct (SeqScan.all_listed s f Hok) as [L HL]. eexists _, L. split_and!; [done|done|].
  split; [done|]. exists SeqScan.seq_scan_enumerates. cbn. exists f, L. split_and!; [done| |].
  - eapply Reads.after_ext; [|exact HL]. by apply Hcalm.
  - unfold SeqScan.selected. by rewrite Ecols, Econds.
Qed.

(** *** Keys of one table

    The map of the sort executor is by name; in one table the name says which column it is. *)
Definition key_columns (cs : list ColMeta) (sel : list TabCol) (ks : list (ColMeta * bool)) : Prop :=
  Forall2 (fun k p => (exists i, Filter.get_col cs k = Ok (i, p.1)) /\ p.2 = tc_is_desc k) sel ks.

Definition by_name (cs : list ColMeta) (m : gmap string ColMeta) : Prop :=
  forall name c, m !! name = Some c -> exists i, find_col cs name = Some i /\ cs !! i = Some c.

Lemma found_tab cs t k i : Forall (fun c => cm_tab_name c = t) cs -> Filter.find_tab_col cs k = Some i -> tc_tab_name k = t.
Proof.
  intros Ht. revert i. induction Ht as [|c cs Hc Ht IH]; intros i Ef; [done|]. cbn [Filter.find_tab_col] in Ef.
  case_bool_decide as Hb; [destruct Hb as [Hb _]; congruence|]. destruct (Filter.find_tab_col cs k) as [j|]; [by eapply IH|done].
Qed.
Lemma found_name cs name : forall i c, find_col cs name = Some i -> cs !! i = Some c -> cm_name c = name.
Proof.
  induction cs as [|c0 cs IH]; intros i c Ef Ei; [done|]. cbn [find_col] in Ef. case_bool_decide as Hb.
  - injection Ef as <-. injection Ei as ->. done.
  - destruct (find_col cs name) as [j|] eqn:Ej; [|done]. injection Ef as <-. by apply (IH j).
Qed.

Lemma key_map_by_name cs t sel : Forall (fun c => cm_tab_name c = t) cs -> forall m m',
  by_name cs m -> Sort.key_map cs sel m = Ok m' ->
  by_name cs m' /\ (forall name, is_Some (m !! name) -> is_Some (m' !! name)) /\ Forall (fun k => is_Some (m' !! tc_col_name k)) sel.
Proof.
  intros Ht. induction sel as [|k sel IH]; intros m m' Hm Hk; [injection Hk as <-; split_and!; [done|done|constructor]|].
  cbn [Sort.key_map] in Hk. destruct (Filter.find_tab_col cs k) as [i|] eqn:Ef; [|done]. cbn [mbind option_bind] in Hk.
  destruct (cs !! i) as [c|] eqn:Ei; [|done].
  pose proof (found_tab _ _ _ _ Ht Ef) as Hkt. rewrite <- Hkt in Ht. rewrite Analyze.find_tab_col_same in Ef by done. rewrite Hkt in Ht.
  pose proof (conj Ef (found_name _ _ _ _ Ef Ei)) as Hn.
  destruct Hn as [Hfc Hcn]. rewrite Hcn in Hk. apply IH in Hk as (H1' & H2' & H3').
  - split_and!; [done| |].
    + intros name Hs. apply H2'. destruct (decide (name = tc_col_name k)) as [->|Hne]; [by rewrite lookup_insert_eq|by rewrite lookup_insert_ne].
    + constructor; [|done]. apply H2'. by rewrite lookup_insert_eq.
  - intros name c' Hl. destruct (decide (name = tc_col_name k)) as [->|Hne].
    + rewrite lookup_insert_eq in Hl. injection Hl as <-. by exists i.
    + rewrite lookup_insert_ne in Hl by done. by apply Hm.
Qed.

Lemma keys_of_table cs t sel ks m : Forall (fun c => cm_tab_name c = t) cs -> key_columns cs sel ks ->
  Sort.key_map cs sel ∅ = Ok m -> Sort.keys m sel = ks.
Proof.
  intros Ht Hks Hm. destruct (key_map_by_name cs t sel Ht ∅ m) as (Hb & _ & Hall); [by intros ? ?|done|].
  clear Hm. unfold Sort.keys. induction Hks as [|k [c d] sel ks [(i & Hg) Hd] Hks IH]; [done|].
  apply Forall_cons in Hall as [[c' Hc'] Hall]. rewrite fmap_cons. cbn [fst snd] in *. rewrite Hc'. cbn [default].
  rewrite IH by done. f_equal. subst d. f_equal. destruct (Hb _ _ Hc') as (j & Hj & Hcj).
  unfold Filter.get_col in Hg. destruct (Filter.find_tab_col cs k) as [i'|] eqn:Ef; [|done].
  destruct (cs !! i') as [c''|] eqn:Ei; [|done]. injection Hg as <- <-.
  pose proof (found_tab _ _ _ _ Ht Ef) as <-. rewrite Analyze.find_tab_col_same in Ef by done. unfold id. congruence.
Qed.

Lemma key_map_columns cs sel : forall m m', Sort.key_map cs sel m = Ok m' -> exists ks, key_columns cs sel ks.
Proof.
  induction sel as [|k sel IH]; intros m m' Hk; [by exists []; constructor|]. cbn [Sort.key_map] in Hk.
  destruct (Filter.find_tab_col cs k) as [i|] eqn:Ef; [|done]. cbn [mbind option_bind] in Hk. destruct (cs !! i) as [c|] eqn:Ei; [|done].
  destruct (IH _ _ Hk) as [ks Hks]. exists ((c, tc_is_desc k) :: ks). constructor; [|done]. split; [|done].
  exists i. unfold Filter.get_col. by rewrite Ef, Ei.
Qed.

Lemma sort_gives s s' tag sub sel lim o : convert (SortPlan tag sub sel lim) s = (s', Ok o) ->
  exists p, convert sub s = (s', Ok (Some p)) /\
    forall t cs l, gives s' p cs l -> Forall (fun c => cm_tab_name c = t) cs -> in_i32 lim ->
      exists ks, key_columns cs sel ks /\ (Forall (Sort.comparable ks) l ->
        exists p' sorted, o = Some p' /\ sorted ≡ₚ l /\ StronglySorted (fun x y => Sort.order ks x y <= 0) sorted /\
          (ks = [] -> sorted = l) /\ gives s' p' cs (take (Z.to_nat (Sort.eff_limit lim)) sorted)).
Proof.
  intros Hc. cbn [convert_plan_executor] in Hc. apply bind_inv in Hc as (s1 & o1 & Hs & Hc).
  apply bind_inv in Hc as (s2 & p & Hp & Hc). apply deref_ok in Hp as [-> ->].
  apply bind_inv in Hc as (s2 & e & Hm & Hc). unfold lift in Hm. injection Hm as <- Hm. unfold mret, M_ret in Hc. injection Hc as <- <-.
  exists p. split; [done|]. intros t cs l [Hcs (EN & Hr)] Ht Hl. pose proof Hm as Hm'. unfold Sort.make in Hm'. rewrite Hcs in Hm'.
  destruct (Sort.key_map cs sel ∅) as [m|] eqn:Em; [|done]. injection Hm' as He.
  destruct (key_map_columns _ _ _ _ Em) as [ks Hks]. exists ks. split; [done|]. intros Hcmp.
  assert (Hkeys : Sort.keys (Sort.cols_map e) sel = ks) by (rewrite <- He; by eapply keys_of_table).
  destruct (Sort.sort_ready s1 (ex_state p) sel lim e l Hm Hl Hr) as (sorted & S1 & S2 & S3 & S4); [by rewrite Hkeys|].
  rewrite Hkeys in S2. eexists _, sorted. split_and!; [done..| |].
  - intros ->. apply S3. by inversion Hks.
  - split; cbn; [by rewrite <- He|]. by exists (Sort.sort_enumerates fuel).
Qed.

(** *** The selected columns *)
Lemma projection_gives s s' tag sub sel o : convert (ProjectionPlan tag sub sel) s = (s', Ok o) ->
  exists p, convert sub s = (s', Ok (Some p)) /\
    forall n cs l, gives s' p cs l -> Forall (Projection.col_in n) cs -> Forall (fun x => length x = n) l ->
      exists srcs, Projection.chosen cs sel srcs /\ Forall (Projection.col_in n) srcs /\
        (Projection.width srcs < 2 ^ 31 -> exists p', o = Some p' /\
          gives s' p' (Projection.offsets 0 srcs) (Projection.project srcs <$> l)).
Proof.
  intros Hc. cbn [convert_plan_executor] in Hc. apply bind_inv in Hc as (s1 & o1 & Hs & Hc).
  apply bind_inv in Hc as (s2 & p & Hp & Hc). apply deref_ok in Hp as [-> ->].
  apply bind_inv in Hc as (s2 & e & Hm & Hc). unfold lift in Hm. injection Hm as <- Hm. unfold mret, M_ret in Hc. injection Hc as <- <-.
  exists p. split; [done|]. intros n cs l [Hcs (EN & Hr)] Hi Hl. rewrite <- Hcs in Hi.
  destruct (Projection.make_sound n (ex_state p) sel e Hi Hm) as (srcs & S1 & S2 & S3 & S4). rewrite Hcs in S1.
  exists srcs. split_and!; [done..|]. intros Hw. destruct (S4 Hw) as [S5 S6]. eexists. split; [done|]. split; cbn; [done|].
  exists (Projection.projection_enumerates junk). cbn. exists n, srcs, l, l. rewrite S3. by split_and!.
Qed.

(** *** What a selection shows *)

(** The rows [shown] of a table are those that satisfy the conditions, in the order of the keys if
    there are any, as many as the limit allows. *)
Definition shows_rows (cs : list ColMeta) (q : Analyze.Query) (sort : bool) (rows shown : list bytes) : Prop :=
  let kept := base.filter (keeps_row (Analyze.q_conds q) cs) rows in
  if sort then
    exists ks sorted, key_columns cs (Analyze.q_order_by_cols q) ks /\ sorted ≡ₚ kept /\
      StronglySorted (fun x y => Sort.order ks x y <= 0) sorted /\ (ks = [] -> sorted = kept) /\
      shown = take (Z.to_nat (Sort.eff_limit (Analyze.q_limit q))) sorted
  else shown = kept.

#[local] Abbreviation st := (TransactionManager.t D R C * reply)%type.

Lemma run_select (p : executor sm) (s s' : st) cs l sel_cols plan txn_id : gives (TransactionManager.sm_ s.1) p cs l ->
  Z.of_nat (length l) < 2 ^ 64 -> run junk junk_rid fuel (PORTAL_ONE_SELECT sel_cols (Some p) plan) txn_id s = (s', Ok tt) ->
  calm (TransactionManager.sm_ s.1) (TransactionManager.sm_ s'.1) /\ exists t, Select.lines cs l = Ok t /\ length t = length l /\
    outfile s'.2 = outfile s.2 ++ Text.line (Select.caption <$> sel_cols) ++ concat t /\
    exists r, print_record_count (Z.of_nat (length l)) r = Ok s'.2.
Proof.
  intros [Hcs (EN & Hr)] Hl Hrun. cbn [run] in Hrun. apply bind_inv in Hrun as (s1 & e & Hs & Hrun).
  unfold mret, M_ret in Hrun. injection Hrun as <-. unfold on_select, zoom in Hs. cbn [fst snd] in Hs.
  destruct (Select.select_from _ _ _ _) as [x r] eqn:E. injection Hs as <- ->.
  destruct (Select.select_from_ok fuel (TransactionManager.sm_ s.1, s.2) x (ex_state p) e sel_cols l Hr Hl E) as (Hc & t & Ht & Hlen & Ho & Hcount). rewrite Hcs in Ht.
  split; [done|]. by exists t.
Qed.
End laws.
End Portal.
