(* ===== verification/Meaning.v ===== *)
(** * What a selection from one table asks for

    A reading of the syntax tree of a [SELECT] that uses neither the analysis nor the planner nor
    the filter: which columns the names in it denote, which rows satisfy its conditions, in
    which order they are to be shown and how many of them; and the proof that the query
    [Analyze::do_analyze] makes of the statement and the filter agree with it. *)

From Stdlib Require Import Sorting.Sorted.
From S2P Require Import Prelude Common RmDefs IxDefs SmMeta Values Filter Executor Printer Ast Analyze Portal.

Module Meaning.

(** ** Values *)
Inductive val := Num (v : number) | Text (b : bytes).

(** What is stored at [p] for a column of a type and a length. *)
Definition value_at (type : ColType) (len : Z) (p : bytes) : val :=
  match type with
  | TYPE_INT => Num (int_number (load_i32 p 0))
  | TYPE_BIGINT => Num (int_number (load_i64 p 0))
  | TYPE_FLOAT => Num (f32_number (load_u32 p 0))
  | TYPE_STRING | TYPE_DATETIME | TYPE_DOUBLE => Text (take (Z.to_nat len) p)
  end.
Definition field (m : ColMeta) (z : bytes) : val := value_at (cm_type m) (cm_len m) (drop (Z.to_nat (cm_offset m)) z).
(** A literal compared with a column; a text is padded with zeros. *)
Definition literal (m : ColMeta) (v : ast.Value) : val :=
  match v with
  | ast.IntLit z => Num (int_number (i32 z))
  | ast.FloatLit b => Num (f32_number (b mod 2 ^ 32))
  | ast.BigintLit z => Num (int_number (i64 z))
  | ast.StringLit s => Text (str_bytes s ++ replicate (Z.to_nat (cm_len m) - length (str_bytes s)) 0)
  end.

(** Numbers by size, texts of one length by their first different byte.  A NaN is not less than
    a number, nor greater. *)
Fixpoint text_order (a b : bytes) : comparison :=
  match a, b with
  | x :: a', y :: b' => match x ?= y with Eq => text_order a' b' | o => o end
  | _, _ => Eq
  end.
Definition order_of (x y : val) : option comparison :=
  match x, y with
  | Num a, Num b => Some (if number_lt a b then Lt else if number_lt b a then Gt else Eq)
  | Text a, Text b => Some (text_order a b)
  | _, _ => None
  end.
(** The operators of the syntax tree. *)
Definition means (op : ast.SvCompOp) (o : comparison) : bool :=
  match op, o with
  | ast.SV_OP_EQ, Eq | ast.SV_OP_NE, (Lt | Gt) | ast.SV_OP_LT, Lt | ast.SV_OP_GT, Gt
  | ast.SV_OP_LE, (Lt | Eq) | ast.SV_OP_GE, (Gt | Eq) => true
  | _, _ => false
  end.

(** ** Conditions *)
Definition numeric (type : ColType) : bool :=
  match type with TYPE_INT | TYPE_BIGINT | TYPE_FLOAT => true | _ => false end.
(** The right side of a condition, in the row [z]. *)
Definition right_of (cs : list ColMeta) (l : ColMeta) (e : ast.BinaryExpr) (z : bytes) : option val :=
  match ast.be_rhs e with
  | ast.EValue v => Some (literal l v)
  | ast.ECol c => (fun r => field r z) <$> Analyze.denoted cs c
  end.
Definition satisfies (cs : list ColMeta) (e : ast.BinaryExpr) (z : bytes) : bool :=
  match Analyze.denoted cs (ast.be_lhs e) with
  | Some l => match right_of cs l e z ≫= order_of (field l z) with Some o => means (ast.be_op e) o | None => false end
  | None => false
  end.
(** Columns are compared with columns of their kind: numbers, or texts of one type and length. *)
Definition of_one_kind (cs : list ColMeta) (e : ast.BinaryExpr) : Prop :=
  match ast.be_rhs e with
  | ast.EValue _ => True
  | ast.ECol c => forall l r, Analyze.denoted cs (ast.be_lhs e) = Some l -> Analyze.denoted cs c = Some r ->
      numeric (cm_type l) = true /\ numeric (cm_type r) = true \/ cm_type r = cm_type l /\ cm_len r = cm_len l
  end.

(** ** The filter agrees *)

Definition sign_of (o : comparison) : Z := match o with Eq => 0 | Lt => -1 | Gt => 1 end.

Lemma cmp_op_means op o : Filter.cmp_op (Analyze.convert_sv_comp_op op) (sign_of o) = means op o.
Proof. by destruct op, o. Qed.

Lemma memcmp_order n : forall a b, (n <= length a)%nat -> (n <= length b)%nat ->
  memcmp a b n = sign_of (text_order (take n a) (take n b)).
Proof.
  induction n as [|n IH]; intros [|x a] [|y b] Ha Hb; cbn [length] in *; try done; try lia.
  cbn [memcmp take text_order]. destruct (Z.compare_spec x y); destruct (Z.ltb_spec x y), (Z.ltb_spec y x); try lia; try done.
  apply IH; lia.
Qed.

Lemma number_value type len p : numeric type = true -> Filter.operand_bytes type 0 <= Z.of_nat (length p) ->
  exists v, Filter.number_at type p = Some v /\ value_at type len p = Num v.
Proof.
  intros Hn Hp. destruct type; try done; cbn [Filter.operand_bytes Filter.number_at value_at] in *;
    (unfold Filter.readable; rewrite (proj2 (Nat.leb_le _ _)) by lia); by eexists.
Qed.

(** Two values of one type. *)
Lemma judge_same type len p q op : type <> TYPE_DOUBLE -> 0 <= Filter.operand_bytes type len ->
  Filter.operand_bytes type len <= Z.of_nat (length p) -> Filter.operand_bytes type len <= Z.of_nat (length q) ->
  exists o, order_of (value_at type len p) (value_at type len q) = Some o /\
    Filter.judge p q len type (Analyze.convert_sv_comp_op op) = Ok (means op o).
Proof.
  intros Hd H0 Hp Hq. destruct (numeric type) eqn:Hn.
  - assert (E : Filter.operand_bytes type len = Filter.operand_bytes type 0) by (by destruct type).
    rewrite E in Hp, Hq. destruct (number_value type len p Hn Hp) as (v & Hv & ->), (number_value type len q Hn Hq) as (w & Hw & ->).
    eexists. split; [reflexivity|]. unfold Filter.judge. rewrite (Filter.compare_number _ _ _ _ _ _ Hv Hw). cbn [mbind res_bind].
    rewrite <- cmp_op_means. f_equal. f_equal. unfold three_way. by destruct (number_lt v w), (number_lt w v).
  - assert (Ht : type = TYPE_STRING \/ type = TYPE_DATETIME) by (destruct type; try done; auto).
    exists (text_order (take (Z.to_nat len) p) (take (Z.to_nat len) q)). split; [by destruct Ht as [-> | ->]|].
    rewrite <- cmp_op_means, <- memcmp_order by (destruct Ht as [-> | ->]; cbn in *; lia).
    unfold Filter.judge. destruct Ht as [-> | ->]; cbn [Filter.compare Filter.operand_bytes] in *;
      rewrite (proj2 (Z.ltb_ge _ _)) by done; unfold Filter.read2, Filter.readable;
      rewrite !(proj2 (Nat.leb_le _ _)) by lia; done.
Qed.

(** Two numbers of different types. *)
Lemma judge_numbers tl tr len len' p q op : numeric tl = true -> numeric tr = true ->
  Filter.operand_bytes tl 0 <= Z.of_nat (length p) -> Filter.operand_bytes tr 0 <= Z.of_nat (length q) ->
  Forall in_byte p -> Forall in_byte q ->
  exists o, order_of (value_at tl len p) (value_at tr len' q) = Some o /\
    (lhs ← Filter.to_double tl p; rhs ← Filter.to_double tr q;
     Filter.judge lhs rhs len TYPE_DOUBLE (Analyze.convert_sv_comp_op op)) = Ok (means op o).
Proof.
  intros Nl Nr Lp Lq Bp Bq. destruct (number_value tl len p Nl Lp) as (v & Hv & ->), (number_value tr len' q Nr Lq) as (w & Hw & ->).
  eexists. split; [reflexivity|].
  destruct (Filter.to_double_number _ _ _ Bp Hv) as (a & -> & Ha), (Filter.to_double_number _ _ _ Bq Hw) as (b & -> & Hb).
  cbn [mbind res_bind]. unfold Filter.judge. rewrite (Filter.compare_double _ _ _ _ _ Ha Hb). cbn [mbind res_bind].
  rewrite <- cmp_op_means. f_equal. f_equal. unfold three_way. by destruct (number_lt v w), (number_lt w v).
Qed.

(** *** Literals *)

Lemma take_written m bs : (length bs <= length m)%nat -> take (length bs) (mem_write m 0 bs) = bs.
Proof. intros Hl. unfold mem_write. rewrite take_0, (take_ge bs) by lia. cbn [app]. apply take_app_length. Qed.

Lemma load_encoded z : load_i32 (le_encode 4 z) 0 = i32 z /\ load_u32 (le_encode 4 z) 0 = z mod 2 ^ 32 /\ load_i64 (le_encode 8 z) 0 = i64 z.
Proof.
  unfold load_i32, load_u32, load_i64, mem_read. rewrite !drop_0, !take_ge by (rewrite length_le_encode; lia).
  rewrite !le_decode_encode. change (256 ^ Z.of_nat 4) with (2 ^ 32). change (256 ^ Z.of_nat 8) with (2 ^ 64).
  by rewrite !wrap_s_mod by lia.
Qed.

Lemma raw_text len s v : 0 <= len -> v_raw v = None -> v_str v = s -> v_type v = TYPE_STRING \/ v_type v = TYPE_DATETIME ->
  forall v', init_raw len v = Ok v' -> v_type v' = v_type v /\ exists q, v_raw v' = Some q /\ length q = Z.to_nat len /\
    take (Z.to_nat len) q = str_bytes s ++ replicate (Z.to_nat len - length (str_bytes s)) 0.
Proof.
  intros Hl Hr <- Ht v' Hi. unfold init_raw in Hi. rewrite Hr in Hi. unfold raw_bytes in Hi.
  rewrite (proj2 (Z.ltb_ge _ _)) in Hi by done.
  destruct (Z.ltb_spec len (Z.of_nat (length (str_bytes (v_str v))))) as [|Hs]; [by destruct Ht as [E|E]; rewrite E in Hi|].
  assert (Hv : v' = set_raw (mem_write (replicate (Z.to_nat len) 0) 0 (str_bytes (v_str v))) v)
    by (destruct Ht as [E|E]; rewrite E in Hi; by injection Hi). subst v'. split; [done|]. eexists. split; [done|].
  rewrite length_mem_write, length_replicate. split; [done|].
  rewrite take_ge by (rewrite length_mem_write, length_replicate; lia).
  unfold mem_write. rewrite take_0, length_replicate, take_ge by lia. cbn [app]. f_equal.
  by rewrite drop_replicate.
Qed.

Section literals.
Context (junk : bytes).
Hypothesis Hjunk : length junk = 8%nat.

(** The value a checked literal has for the filter. *)
Definition stands_for (m : ColMeta) (v : ast.Value) (v' : Value) : Prop :=
  exists q, v_raw v' = Some q /\ value_at (v_type v') (cm_len m) q = literal m v /\
    if bool_decide (v_type v' = cm_type m) then Filter.operand_bytes (cm_type m) (cm_len m) <= Z.of_nat (length q)
    else numeric (v_type v') = true /\ numeric (cm_type m) = true /\ Filter.operand_bytes (v_type v') 0 <= Z.of_nat (length q) /\
      Forall in_byte q.

Lemma raw_number w v v' : v_raw v = None -> numeric (v_type v) = true -> init_raw w v = Ok v' ->
  v_type v' = v_type v /\ v_raw v' = Some (take (Z.to_nat (Filter.operand_bytes (v_type v) 0)) (v_num v)).
Proof.
  intros Hr Hn Hi. unfold init_raw in Hi. rewrite Hr in Hi. unfold raw_bytes in Hi. destruct (w <? 0); [done|].
  destruct (v_type v) eqn:E; try done; (destruct (_ =? _); [|done]); injection Hi as <-; cbn; by rewrite E.
Qed.

Lemma take_stored k m z : (k <= length m)%nat -> take k (mem_write m 0 (le_encode k z)) = le_encode k z.
Proof. intros Hk. rewrite <- (length_le_encode k z) at 1. apply take_written. by rewrite length_le_encode. Qed.

Lemma literal_stands m v v' : Analyze.sound_len m ->
  Analyze.check_value m (Analyze.convert_sv_value junk v) = Ok v' -> stands_for m v v'.
Proof.
  intros Hs Hc. unfold Analyze.check_value in Hc.
  destruct v as [z|b|z|s]; cbn [Analyze.convert_sv_value v_type set_int set_float set_bigint set_str set_num Analyze.new_value] in Hc;
    destruct (cm_type m) eqn:Em; try (unfold Analyze.sound_len in Hs; rewrite Em in Hs; done);
    repeat first [rewrite bool_decide_true in Hc by done|rewrite bool_decide_false in Hc by (done || naive_solver)]; cbn [negb] in Hc;
    try (by apply Analyze.incompatible_throws in Hc).
  all: unfold Analyze.sound_len in Hs; rewrite Em in Hs.
  1-5: apply raw_number in Hc as [Et Er]; [|reflexivity|reflexivity];
    cbn [v_type v_num set_num set_int set_float set_bigint Filter.operand_bytes Analyze.new_value] in Et, Er;
    unfold store_32, store_64 in Er; try change (Z.to_nat 4) with 4%nat in Er; try change (Z.to_nat 8) with 8%nat in Er;
    rewrite take_stored in Er by (rewrite ?length_mem_write; lia); eexists; rewrite Et, Em; split_and!; [exact Er| |].
  2, 4, 6, 8, 10: try (rewrite bool_decide_true by done; rewrite length_le_encode; done);
    rewrite bool_decide_false by done; rewrite length_le_encode; split_and!; try done; apply le_encode_byte.
  1-5: cbn [value_at literal].
  - by rewrite (proj1 (load_encoded z)).
  - rewrite (proj2 (proj2 (load_encoded _))). unfold int_val, load_i32. cbn [v_num set_num set_int Analyze.new_value].
    unfold store_32. rewrite mem_read_write_same by (rewrite ?length_le_encode; lia).
    rewrite le_decode_encode. change (256 ^ Z.of_nat 4) with (2 ^ 32). rewrite wrap_s_mod by lia.
    pose proof (i32_range z). rewrite (i64_small (i32 z)); [done|]. unfold in_i32, in_i64 in *. lia.
  - by rewrite (proj1 (proj2 (load_encoded b))).
  - by rewrite (proj1 (proj2 (load_encoded b))).
  - by rewrite (proj2 (proj2 (load_encoded z))).
  - eapply (raw_text _ s) in Hc as (Et & q & Hq & Hl & Ht); [|lia|done|done|by left]. exists q. split; [done|]. rewrite Et. cbn [v_type set_str].
    rewrite Em, bool_decide_true by done. cbn [value_at literal Filter.operand_bytes]. rewrite Ht. split; [done|lia].
  - destruct (is_valid_datetime _) as [[]|]; [|done|done]. cbn [mbind res_bind] in Hc.
    eapply (raw_text _ s) in Hc as (Et & q & Hq & Hl & Ht); [|lia|done|done|by right]. exists q. split; [done|]. rewrite Et. cbn [v_type set_type].
    rewrite Em, bool_decide_true by done. cbn [value_at literal Filter.operand_bytes]. rewrite Ht. split; [done|lia].
Qed.
End literals.

(** *** Conditions on one table *)
Section one_table.
Context (db : DbMeta) (tab_name : string) (tab : TabMeta) (n : nat) (junk : bytes).
Hypothesis Htab : db_tabs db !! tab_name = Some tab.
Hypothesis Hname : tab_name <> "".
Hypothesis Hcols : Forall (Analyze.sound_col n tab_name) (tm_cols tab).
Hypothesis Hjunk : length junk = 8%nat.
#[local] Abbreviation cols := (tm_cols tab).
Implicit Types z : bytes.
#[local] Abbreviation resolved := (Analyze.column_resolved db tab_name tab n Htab Hname Hcols).

Lemma field_bytes m z : Analyze.sound_col n tab_name m -> length z = n ->
  Filter.operand_bytes (cm_type m) (cm_len m) <= Z.of_nat (length (drop (Z.to_nat (cm_offset m)) z)) /\
  0 <= Filter.operand_bytes (cm_type m) (cm_len m) /\ cm_type m <> TYPE_DOUBLE /\
  (numeric (cm_type m) = true -> Filter.operand_bytes (cm_type m) (cm_len m) = Filter.operand_bytes (cm_type m) 0).
Proof.
  intros [_ Hl Ho He] Hz. rewrite length_drop. unfold Analyze.sound_len in Hl.
  destruct (cm_type m); cbn [Filter.operand_bytes numeric]; split_and!; try done; lia.
Qed.

Lemma read_column i m t z op r b v : Analyze.sound_col n tab_name m -> Filter.get_col cols t = Ok (i, m) ->
  Filter.lhs_operand cols (mkCondition t op b r v) (row z) = Ok (cm_type m, cm_len m, drop (Z.to_nat (cm_offset m)) z).
Proof.
  intros Hm Hg. unfold Filter.lhs_operand. cbn [lhs_col]. rewrite Hg. cbn [mbind res_bind snd].
  rewrite Sort.ptr_row by apply Hm. done.
Qed.

(** The filter's answer for operands that were read. *)
Lemma filter_operands m c z tr q y : Analyze.sound_col n tab_name m -> length z = n -> Forall in_byte z ->
  Filter.lhs_operand cols c (row z) = Ok (cm_type m, cm_len m, drop (Z.to_nat (cm_offset m)) z) ->
  Filter.rhs_operand cols c (row z) = Ok (tr, q) -> forall op, cond_op c = Analyze.convert_sv_comp_op op ->
  value_at tr (cm_len m) q = y ->
  (if bool_decide (tr = cm_type m) then Filter.operand_bytes (cm_type m) (cm_len m) <= Z.of_nat (length q)
   else numeric tr = true /\ numeric (cm_type m) = true /\ Filter.operand_bytes tr 0 <= Z.of_nat (length q) /\ Forall in_byte q) ->
  exists o, order_of (field m z) y = Some o /\ Filter.filter_single cols c (row z) = Ok (means op o).
Proof.
  intros Hm Hz Hb Hl Hr op Hop <- Hf. destruct (field_bytes m z Hm Hz) as (B1 & B2 & B3 & B4).
  unfold Filter.filter_single. rewrite Hl, Hr, Hop. cbn [mbind res_bind]. unfold field.
  destruct (bool_decide_reflect (tr = cm_type m)) as [->|Hne].
  - by apply judge_same.
  - destruct Hf as (N1 & N2 & F & Bq). rewrite bool_decide_false by (intros [E|E]; rewrite E in *; done).
    apply judge_numbers; [done|done|by rewrite <- B4|done|by apply Forall_drop|done].
Qed.

Lemma cond_means e c z : Analyze.scoped tab_name e -> of_one_kind cols e -> length z = n -> Forall in_byte z ->
  Analyze.check_cond db cols (Analyze.get_cond junk e) = Ok c -> Filter.filter_single cols c (row z) = Ok (satisfies cols e z).
Proof.
  intros Hsc Hk Hz Hb Hc. pose proof (Analyze.cond_checked db tab_name tab n junk Htab Hname Hcols Hjunk e Hsc) as Hck.
  rewrite Hc in Hck. destruct Hck as [(l & Hl & Hr) _]. destruct Hsc as [Sl Sr].
  pose proof (resolved _ Sl) as Rl. rewrite Hl in Rl. destruct Rl as (Cl & (i & Gl) & Ht & Gt & Hsl).
  unfold satisfies, right_of. rewrite Hl. unfold of_one_kind in Hk. rewrite Hl in Hk.
  unfold Analyze.check_cond, Analyze.get_cond in Hc. destruct e as [lhs op [v|c0]]; cbn [ast.be_lhs ast.be_op ast.be_rhs] in *;
    cbn [lhs_col rhs_col is_rhs_val rhs_val cond_op] in Hc; rewrite Cl in Hc; cbn [mbind res_bind tc_tab_name tc_col_name Analyze.tab_col] in Hc.
  - rewrite Ht in Hc. cbn [mbind res_bind] in Hc. rewrite Gt in Hc. cbn [mbind res_bind] in Hc.
    destruct (Analyze.check_value l _) as [v'|] eqn:Ev; [|done]. injection Hc as <-.
    destruct (literal_stands junk Hjunk l v v' (Analyze.so_len _ _ _ Hsl) Ev) as (q & Hq & Hval & Hsz).
    match goal with |- Filter.filter_single _ ?c _ = _ => set (cond := c) end.
    assert (Hro : Filter.rhs_operand cols cond (row z) = Ok (v_type v', q))
      by (unfold Filter.rhs_operand, cond; cbn [is_rhs_val rhs_val]; by rewrite Hq).
    destruct (filter_operands l cond z (v_type v') q (literal l v) Hsl Hz Hb (read_column i l _ z _ _ _ _ Hsl Gl) Hro op eq_refl Hval Hsz)
      as (o & Ho & ->).
    cbn [mbind option_bind]. by rewrite Ho.
  - destruct Hr as [r Hr]. pose proof (resolved _ Sr) as Rr. rewrite Hr in Rr. destruct Rr as (Cr & (j & Gr) & _ & Gt' & Hsr).
    rewrite Cr in Hc. cbn [mbind res_bind tc_tab_name tc_col_name Analyze.tab_col] in Hc. rewrite Ht in Hc. cbn [mbind res_bind] in Hc.
    rewrite Gt, Gt' in Hc. cbn [mbind res_bind] in Hc. injection Hc as <-.
    specialize (Hk l r eq_refl Hr). destruct (field_bytes r z Hsr Hz) as (B1 & B2 & B3 & B4).
    match goal with |- Filter.filter_single _ ?c _ = _ => set (cond := c) end.
    assert (Hro : Filter.rhs_operand cols cond (row z) = Ok (cm_type r, drop (Z.to_nat (cm_offset r)) z)).
    { unfold Filter.rhs_operand, cond. cbn [is_rhs_val rhs_col]. rewrite Gr. cbn [mbind res_bind snd].
      by rewrite Sort.ptr_row by apply Hsr. }
    destruct (filter_operands l cond z (cm_type r) (drop (Z.to_nat (cm_offset r)) z) (field r z) Hsl Hz Hb
      (read_column i l _ z _ _ _ _ Hsl Gl) Hro op eq_refl) as (o & Ho & ->).
    + unfold field. destruct Hk as [[_ Hk]|[_ Hk]]; [by destruct (cm_type r)|by rewrite Hk].
    + destruct (bool_decide_reflect (cm_type r = cm_type l)) as [E|E].
      * destruct Hk as [[_ Hk]|[_ Hk]]; [|by rewrite E, Hk in B1]. rewrite E in *. by destruct (cm_type l).
      * destruct Hk as [[N1 N2]|[? _]]; [|done]. split_and!; [done|done|by rewrite <- B4|by apply Forall_drop].
    + rewrite Hr. cbn [fmap option_fmap option_map mbind option_bind]. by rewrite Ho.
Qed.

Lemma conds_mean svs conds z : Forall (Analyze.scoped tab_name) svs -> Forall (of_one_kind cols) svs -> length z = n -> Forall in_byte z ->
  Analyze.check_conds db cols (Analyze.get_clause junk svs) = Ok conds ->
  Filter.filter conds cols (row z) = Ok (forallb (fun e => satisfies cols e z) svs).
Proof.
  intros Hs. revert conds. induction Hs as [|e svs He Hs IH]; intros conds Hk Hz Hb Hc; [by injection Hc as <-|].
  apply Forall_cons in Hk as [He' Hk]. unfold Analyze.get_clause in *. rewrite fmap_cons in Hc. cbn [Analyze.check_conds] in Hc.
  destruct (Analyze.check_cond _ _ _) as [c|] eqn:Ec; [|done]. cbn [mbind res_bind] in Hc.
  destruct (Analyze.check_conds _ _ _) as [cs|]; [|done]. injection Hc as <-.
  unfold Filter.filter. cbn [Filter.all_of forallb]. rewrite (cond_means e c z He He' Hz Hb Ec). cbn [mbind res_bind].
  destruct (satisfies cols e z); [|done]. by apply IH.
Qed.
End one_table.

(** ** Selections *)
Section select.
Context (cs : list ColMeta) (x : ast.SelectStmt).

(** A star stands for all columns. *)
Definition items : list ast.SelectCol :=
  match ast.ss_cols x with
  | [] => (fun c => ast.mkSelectCol ast.SV_FUNC_NULL (Some (ast.mkCol (cm_tab_name c) (cm_name c))) "") <$> cs
  | l => l
  end.
Definition item (c : ast.SelectCol) (m : ColMeta) : Prop :=
  exists col, ast.sc_col c = Some col /\ Analyze.denoted cs col = Some m.
Definition caption (c : ast.SelectCol) : bytes :=
  str_bytes (if bool_decide (ast.sc_alias c = "") then from_option ast.col_name "" (ast.sc_col c) else ast.sc_alias c).

Definition matching (rows : list bytes) : list bytes :=
  base.filter (fun z => forallb (fun e => satisfies cs e z) (ast.ss_conds x) = true) rows.
Definition sort_keys (ks : list (ColMeta * bool)) : Prop :=
  Forall2 (fun o p => Analyze.denoted cs (ast.ob_col o) = Some p.1 /\ (p.2 = true <-> ast.orderby_dir o = ast.OrderBy_DESC))
    (ast.ss_orders x) ks.
(** What is to be shown of the rows of the table. *)
Definition answer (rows shown : list bytes) : Prop :=
  if ast.ss_has_sort x then
    exists ks sorted, sort_keys ks /\ sorted ≡ₚ matching rows /\ StronglySorted (fun a b => Sort.order ks a b <= 0) sorted /\
      (ast.ss_orders x = [] -> sorted = matching rows) /\
      shown = take (Z.to_nat (if ast.ss_limit x <? 0 then 2 ^ 31 - 1 else ast.ss_limit x)) sorted
  else shown = matching rows.
End select.

(** ** The query agrees *)
Section query.
Context (db : DbMeta) (tab_name : string) (tab : TabMeta) (n : nat) (junk : bytes).
Hypothesis Htab : db_tabs db !! tab_name = Some tab.
Hypothesis Hname : tab_name <> "".
Hypothesis Hcols : Forall (Analyze.sound_col n tab_name) (tm_cols tab).
Hypothesis Hjunk : length junk = 8%nat.
#[local] Abbreviation cols := (tm_cols tab).

Lemma tables_same : Forall (fun c => cm_tab_name c = tab_name) cols.
Proof. eapply Forall_impl; [exact Hcols|]. by intros c []. Qed.

(** A column the analysis accepts and an executor finds is the one its name denotes. *)
Lemma column_denoted c f a d tc i m :
  Analyze.check_column cols (mkTabCol (ast.col_tab_name c) (ast.col_name c) f a d) = Ok tc -> Filter.get_col cols tc = Ok (i, m) ->
  Analyze.denoted cols c = Some m /\ tc = mkTabCol tab_name (ast.col_name c) f a d.
Proof.
  intros Hc Hg. assert (Hfind : Filter.find_tab_col cols tc = Some i /\ cols !! i = Some m).
  { unfold Filter.get_col in Hg. destruct (Filter.find_tab_col cols tc) as [j|]; [|done].
    destruct (cols !! j) eqn:E; [|done]. injection Hg as -> <-. done. }
  destruct Hfind as [Hf Hm]. pose proof (Portal.found_tab _ _ _ _ tables_same Hf) as Htn.
  assert (Htc : tc = mkTabCol tab_name (ast.col_name c) f a d /\
    Analyze.check_column cols (Analyze.tab_col (ast.col_tab_name c) (ast.col_name c)) = Ok (Analyze.tab_col tab_name (ast.col_name c)) /\
    Analyze.in_scope tab_name c).
  { unfold Analyze.check_column, Analyze.in_scope in *. cbn [tc_tab_name tc_col_name Analyze.tab_col] in *.
    destruct (bool_decide_reflect (ast.col_tab_name c = "")) as [E|E].
    - destruct (Analyze.infer_table _ _ _) as [t|]; [|done]. cbn [mbind res_bind] in *.
      destruct (bool_decide (t = "")); [done|]. injection Hc as <-. cbn [Analyze.set_tab_name tc_tab_name] in Htn. subst t.
      split_and!; [done|done|by left].
    - injection Hc as <-. cbn [tc_tab_name] in Htn. split_and!; [by rewrite <- Htn|by rewrite <- Htn|by right]. }
  destruct Htc as (-> & Hck & Hs). split; [|done].
  pose proof (Analyze.column_resolved db tab_name tab n Htab Hname Hcols c Hs) as Hr.
  rewrite Analyze.find_tab_col_same in Hf by exact tables_same. cbn [tc_col_name] in Hf.
  destruct (Analyze.denoted cols c) as [m'|].
  - destruct Hr as (_ & _ & _ & Hg' & _). unfold get_col in Hg'. cbn [tm_cols TabMeta_copy] in Hg'. rewrite Hf, Hm in Hg'. by injection Hg' as ->.
  - destruct (Hr _ Hck) as (_ & _ & ex & Hg'). unfold get_col in Hg'. cbn [tm_cols TabMeta_copy] in Hg'. by rewrite Hf, Hm in Hg'.
Qed.

Lemma items_chosen l : Forall (fun c => is_Some (ast.sc_col c)) l -> forall first tcs srcs,
  Analyze.check_columns cols (Analyze.sel_col first <$> l) = Ok tcs -> Projection.chosen cols tcs srcs ->
  Forall2 (item cols) l srcs /\ Select.caption <$> tcs = caption <$> l.
Proof.
  induction 1 as [|c l [col Hc] Hl IH]; intros first tcs srcs Hck Hch.
  { injection Hck as <-. by inversion Hch. }
  rewrite fmap_cons in Hck. cbn [Analyze.check_columns] in Hck.
  destruct (Analyze.check_column _ _) as [tc|] eqn:Et; [|done]. cbn [mbind res_bind] in Hck.
  destruct (Analyze.check_columns _ _) as [tcs'|] eqn:Es; [|done]. injection Hck as <-.
  apply Forall2_cons_inv_l in Hch as (m & srcs' & [i Hi] & Hch & ->). destruct (IH _ _ _ Es Hch) as [I1 I2].
  unfold Analyze.sel_col in Et. rewrite Hc in Et. destruct (column_denoted _ _ _ _ _ _ _ Et Hi) as [Hd ->].
  split; [constructor; [by exists col|done]|]. rewrite !fmap_cons, I2. f_equal.
  unfold Select.caption, caption. cbn [tc_alias tc_col_name]. rewrite Hc. cbn [from_option].
  by destruct (String.eqb_spec (ast.sc_alias c) ""); [rewrite bool_decide_true by done|rewrite bool_decide_false by done].
Qed.

Lemma star_chosen l : (forall c, c ∈ l -> cm_tab_name c = tab_name) -> forall srcs,
  Projection.chosen cols ((fun c => Analyze.tab_col (cm_tab_name c) (cm_name c)) <$> l) srcs ->
  Forall2 (item cols) ((fun c => ast.mkSelectCol ast.SV_FUNC_NULL (Some (ast.mkCol (cm_tab_name c) (cm_name c))) "") <$> l) srcs.
Proof.
  induction l as [|c l IH]; intros Hl srcs Hch; [by inversion Hch; constructor|]. rewrite !fmap_cons in *.
  apply Forall2_cons_inv_l in Hch as (m & srcs' & [i Hi] & Hch & ->). constructor; [|apply IH; [intros c' Hc'; apply Hl; by right|done]].
  exists (ast.mkCol (cm_tab_name c) (cm_name c)). split; [done|].
  eapply (column_denoted (ast.mkCol (cm_tab_name c) (cm_name c)) FUNC_NULL "" false); [|exact Hi].
  unfold Analyze.check_column. cbn [ast.col_tab_name ast.col_name tc_tab_name]. rewrite bool_decide_false; [done|].
  rewrite Hl by left. done.
Qed.

Lemma orders_denoted os : forall tcs ks, Analyze.order_cols cols os = Ok tcs -> Portal.key_columns cols tcs ks ->
  Forall2 (fun o p => Analyze.denoted cols (ast.ob_col o) = Some p.1 /\ (p.2 = true <-> ast.orderby_dir o = ast.OrderBy_DESC)) os ks.
Proof.
  induction os as [|o os IH]; intros tcs ks Ho Hk.
  { injection Ho as <-. inversion Hk. constructor. }
  cbn [Analyze.order_cols] in Ho. destruct (Analyze.check_column _ _) as [tc|] eqn:Et; [|done]. cbn [mbind res_bind] in Ho.
  destruct (Analyze.order_cols cols os) as [tcs'|] eqn:Es; [|done]. injection Ho as <-.
  apply Forall2_cons_inv_l in Hk as ([m d] & ks' & [[i Hi] Hd] & Hk & ->). constructor; [|by eapply IH].
  cbn [fst snd] in *. subst d. assert (Hi' : Filter.get_col cols tc = Ok (i, m)).
  { unfold Filter.get_col in *. rewrite (Sort.find_ext cols _ tc) in Hi by done.
    destruct (Filter.find_tab_col cols tc) as [j|]; [|discriminate Hi]. by destruct (cols !! j). }
  destruct (column_denoted _ _ _ _ _ _ _ Et Hi') as [Hden _]. split; [done|]. cbn. apply bool_decide_eq_true.
Qed.

(** What the analysis makes of the statement's parts. *)
Lemma analyzed_parts x q : ast.ss_tabs x = [tab_name] -> Analyze.do_analyze junk db (ast.Select x) = Ok q ->
  Analyze.select_cols cols (ast.ss_cols x) = Ok (Analyze.q_cols q) /\
  (if ast.ss_has_sort x then Analyze.order_cols cols (ast.ss_orders x) else Ok []) = Ok (Analyze.q_order_by_cols q).
Proof.
  intros Ht Hq. unfold Analyze.do_analyze in Hq. rewrite Ht in Hq. cbn [Analyze.get_all_cols] in Hq. unfold get_table in Hq. rewrite Htab in Hq.
  cbn [mbind res_bind tm_cols TabMeta_copy app] in Hq. destruct (Analyze.select_cols cols (ast.ss_cols x)) as [cs|] eqn:Es; [|done].
  cbn [mbind res_bind] in Hq. destruct (if ast.ss_has_sort x then _ else _) as [os|] eqn:Eo; [|done]. cbn [mbind res_bind] in Hq.
  unfold Analyze.check_clause in Hq. cbn [Analyze.get_all_cols] in Hq. unfold get_table in Hq. rewrite Htab in Hq.
  cbn [mbind res_bind tm_cols TabMeta_copy app] in Hq. destruct (Analyze.check_conds db cols _) as [conds|]; [|done]. by injection Hq as <-.
Qed.

Lemma selected_items x q srcs : ast.ss_tabs x = [tab_name] -> Forall (fun c => is_Some (ast.sc_col c)) (ast.ss_cols x) ->
  Analyze.do_analyze junk db (ast.Select x) = Ok q -> Projection.chosen cols (Analyze.q_cols q) srcs ->
  Forall2 (item cols) (items cols x) srcs /\ Select.caption <$> Analyze.q_cols q = caption <$> items cols x.
Proof.
  intros Ht Hall Hq Hch. destruct (analyzed_parts x q Ht Hq) as [Hs _]. unfold Analyze.select_cols in Hs. unfold items.
  assert (Hs' : match ast.ss_cols x with
    | [] => Analyze.q_cols q = (fun c => Analyze.tab_col (cm_tab_name c) (cm_name c)) <$> cols
    | l => exists first, Analyze.check_columns cols (Analyze.sel_col first <$> l) = Ok (Analyze.q_cols q)
    end).
  { revert Hs. clear. destruct cols as [|first cs0]; [done|]. destruct (ast.ss_cols x); [by intros [= <-]|by exists (cm_name first)]. }
  clear Hs. destruct (ast.ss_cols x) as [|c l] eqn:El.
  - rewrite Hs' in Hch |- *. split.
    + apply star_chosen; [|done]. intros c Hc. by apply (proj1 (Forall_forall _ _) tables_same).
    + rewrite <- !list_fmap_compose. done.
  - destruct Hs' as [first Hs']. by eapply items_chosen.
Qed.

Lemma kept_matching x q rows : ast.ss_tabs x = [tab_name] -> Forall (Analyze.scoped tab_name) (ast.ss_conds x) ->
  Forall (of_one_kind cols) (ast.ss_conds x) -> Forall (fun z => length z = n /\ Forall in_byte z) rows ->
  Analyze.check_conds db cols (Analyze.get_clause junk (ast.ss_conds x)) = Ok (Analyze.q_conds q) ->
  base.filter (keeps_row (Analyze.q_conds q) cols) rows = matching cols x rows.
Proof.
  intros Ht Hs Hk Hr Hc. unfold matching. induction Hr as [|z rows [Hz Hb] Hr IH]; [done|]. rewrite !filter_cons, IH.
  pose proof (conds_mean db tab_name tab n junk Htab Hname Hcols Hjunk _ _ z Hs Hk Hz Hb Hc) as Hf.
  destruct (decide (forallb (fun e => satisfies cols e z) (ast.ss_conds x) = true)) as [E|E].
  - rewrite decide_True; [done|]. unfold keeps_row. by rewrite Hf, E.
  - rewrite decide_False; [done|]. unfold keeps_row. rewrite Hf. congruence.
Qed.

Lemma shows_answer x q rows shown : ast.ss_tabs x = [tab_name] -> Forall (Analyze.scoped tab_name) (ast.ss_conds x) ->
  Forall (of_one_kind cols) (ast.ss_conds x) -> Forall (fun z => length z = n /\ Forall in_byte z) rows ->
  Analyze.do_analyze junk db (ast.Select x) = Ok q -> Portal.shows_rows cols q (ast.ss_has_sort x) rows shown ->
  answer cols x rows shown.
Proof.
  intros Ht Hs Hk Hr Hq Hsh. destruct (Analyze.analyzed_select _ _ _ junk Htab x q Ht Hq) as (_ & _ & Ql & Qc & _).
  destruct (analyzed_parts x q Ht Hq) as [_ Ho]. unfold answer, Portal.shows_rows in *.
  rewrite (kept_matching x q rows Ht Hs Hk Hr Qc) in Hsh. destruct (ast.ss_has_sort x); [|done].
  destruct Hsh as (ks & sorted & H1 & H2 & H3 & H4 & ->). exists ks, sorted. split_and!; [by eapply orders_denoted|done|done| |].
  - intros E. apply H4. rewrite E in Ho. injection Ho as Ho. rewrite <- Ho in H1. by inversion H1.
  - by rewrite Ql.
Qed.
End query.
End Meaning.
