(* ===== verification/Server.v ===== *)
(** * The server

    The work of a client's thread in [rmdb.cpp]: a request is parsed, analysed, planned and run in
    a transaction, and answered.  The parser is a parameter, and so is what the operating system
    says of an error. *)

From stdpp Require Import sorting.
From S2P Require Import Prelude Common Posix Replacer Disk Buffer RmDefs Log Transaction Record SmMeta IxDefs IxNode IxHandle IxManager SmManager TransactionManager Recovery Values Filter Executor Join Scan Printer Ast Analyze Planner Portal Meaning.

Module Server.
Import Printer.

Section ops.
Context {D R C : Type} `{Disk D} `{!Files D} `{!Shell D} `{Replacer R} `{TxnContext C} `{!HasTxn C} `{!StmtContext C}.
Context `{!StdSort}.
(** Memory that is not initialised, the bound on loops, and [strerror(errno)]. *)
Context (junk : bytes) (junk_rid : Rid) (junk_mode : bool) (junk_ts : Z) (fuel : nat) (unix_msg : string).
(** [yyparse] on a request: no tree when it is not in the grammar, or is [exit]; the lexer throws
    when an integer is out of range. *)
Context (yyparse : bytes -> res (option ast.TreeNode)).
#[local] Abbreviation sm := (SmManager.t D R C).
#[local] Abbreviation st := (TransactionManager.t D R C * reply)%type.
#[local] Abbreviation on_txns := Portal.on_txns.

(** The transaction of the client, which is that of the context; a new one when it has ended. *)
Definition SetTransaction (txn_id : Z) : M (TransactionManager.t D R C) Z :=
  b ← TransactionManager.get_transaction txn_id;
  x ← TransactionManager.txn;
  if negb b || bool_decide (Txn.state_ x = COMMITTED) || bool_decide (Txn.state_ x = ABORTED) then
    id ← TransactionManager.begin junk_mode junk_ts true;
    TransactionManager.upd_txn (Txn.set_txn_mode false);;
    mret id
  else mret txn_id.

(** A statement. *)
Definition execute (parse : ast.TreeNode) (txn_id : Z) : M st unit :=
  db ← gets (fun s : st => SmManager.db_ (TransactionManager.sm_ s.1));
  query ← lift (Analyze.do_analyze junk db parse);
  plan ← lift (Planner.plan_query db query);
  stmt ← Portal.on_sm (Portal.start junk junk_rid fuel plan);
  Portal.run junk junk_rid fuel stmt txn_id.

(** The text at the start of the reply, with a zero after it; [len] bytes are sent. *)
Definition answer (text : bytes) (len : Z) (r : reply) : res reply :=
  data ← copy (data r) 0 (Some (text ++ [0])) 0 (Z.of_nat (length text) + 1);
  Ok (mkReply data len (ellipsis r) (outfile r)).

Definition error_text (e : exn) : option string :=
  match e with UnixError => Some (RMDB_msg unix_msg) | _ => what e end.

(** The two exceptions that are caught.  The transaction is rolled back for the first one only. *)
Definition on_exception (e : exn) : M st unit :=
  match e with
  | TransactionAbortException _ _ =>
      let str := str_bytes ("abort" +:+ endl) in
      Select.on_reply (answer str (Z.of_nat (length str)));;
      on_txns (TransactionManager.abort junk junk_rid fuel false);;
      Select.file str
  | _ =>
      match error_text e with
      | Some text =>
          let msg := str_bytes text ++ str_bytes endl in
          Select.on_reply (answer msg (Z.of_nat (length msg)));;
          Select.file (str_bytes ("failure" +:+ endl))
      | None => throw e
      end
  end.
Definition try_catch (m : M st unit) : M st unit := fun s =>
  match m s with (s', Throw e) => on_exception e s' | r => r end.

Definition clear_reply : M st unit :=
  Select.on_reply (fun r => Ok (mkReply (replicate (Z.to_nat BUFFER_LENGTH) 0) 0 false (outfile r))).

(** One turn of the loop, for a request that is neither [exit] nor [crash]: the identifier of the
    transaction and what is sent.  [written] tells whether the client could be written to. *)
Definition handle_request (text : bytes) (written : bool) (txn_id : Z) : M st (Z * bytes) :=
  clear_reply;;
  txn_id ← on_txns (SetTransaction txn_id);
  try_catch (
    o ← lift (yyparse text);
    match o with Some parse => execute parse txn_id | None => mret tt end);;
  r ← gets (fun s : st => s.2);
  (if written then
     x ← on_txns TransactionManager.txn;
     whenM (negb (Txn.txn_mode_ x)) (on_txns (TransactionManager.commit false))
   else mret tt);;
  mret (txn_id, take (Z.to_nat (offset r + 1)) (data r)).

(** The loop over what [read] returns, less than a whole buffer, and nothing at the end; it also ends with [exit], with [crash],
    which ends the server, and when an answer cannot be written.  The result is what was sent. *)
Fixpoint client_handler (requests : list (bytes * bool)) (txn_id : Z) : M st (list bytes) :=
  match requests with
  | [] => mret []
  | (text, written) :: requests' =>
      if bool_decide (text = []) || bool_decide (c_str text = str_bytes "exit") || bool_decide (c_str text = str_bytes "crash")
      then mret [] else
      '(txn_id, sent) ← handle_request (c_str text) written txn_id;
      if written then l ← client_handler requests' txn_id; mret (sent :: l) else mret []
  end.
End ops.

(** ** The start of the server *)
Section startup.
Context {D R C : Type} `{Disk D} `{Files D} `{Shell D} `{LogFile D} `{Replacer R} `{TxnContext C} `{HasTxn C} `{StmtContext C}.
Context (junk : bytes) (junk_rid : Rid) (fuel : nat).

(** The three phases of the recovery; its tables are empty at the start. *)
Definition recover : M (SmManager.t D R C) unit := fun s =>
  match (RecoveryManager.analyze junk fuel;; RecoveryManager.redo junk fuel;; RecoveryManager.undo junk junk_rid fuel)
    (RecoveryManager.make s) with
  | (x, r) => (RecoveryManager.sm_ x, r)
  end.

(** What [main] does before it listens: the database is made when there is none of that name, and opened, and recovered. *)
Definition start_up (db_name : string) : M (SmManager.t D R C) unit :=
  b ← SmManager.is_dir db_name;
  whenM (negb b) (SmManager.create_db db_name);;
  SmManager.open_db db_name;;
  recover.
End startup.

(** ** How a statement ends *)
Section ends.
Context {D R C : Type} `{Disk D} `{!Files D} `{!Shell D} `{Replacer R} `{TxnLaws C} `{!StdSort}.
Context (junk : bytes) (junk_rid : Rid) (junk_mode : bool) (junk_ts : Z) (fuel : nat) (unix_msg : string).
Context (yyparse : bytes -> res (option ast.TreeNode)).
#[local] Abbreviation st := (TransactionManager.t D R C * reply)%type.
Implicit Types s : st.

Definition txn_of s : Txn.t := cx_txn (SmManager.ctx (TransactionManager.sm_ s.1)).

Lemma upd_txn_sets (f : Txn.t -> Txn.t) (s s' : TransactionManager.t D R C) u : TransactionManager.upd_txn f s = (s', Ok u) ->
  cx_txn (SmManager.ctx (TransactionManager.sm_ s')) = f (cx_txn (SmManager.ctx (TransactionManager.sm_ s))).
Proof.
  intros Hr. unfold TransactionManager.upd_txn, TransactionManager.txn, TransactionManager.set_txn in Hr. msimpl.
  injection Hr as <- _. cbn. by rewrite cx_txn_set.
Qed.

(** A commit ends with no locks. *)
Lemma commit_ends (s s' : TransactionManager.t D R C) u : TransactionManager.commit false s = (s', Ok u) ->
  let x := cx_txn (SmManager.ctx (TransactionManager.sm_ s')) in Txn.state_ x = COMMITTED /\ Txn.lock_set_ x = ∅.
Proof.
  intros Hr. unfold TransactionManager.commit, TransactionManager.release_locks in Hr. minv.
  apply upd_txn_sets in Hr. apply upd_txn_sets in Hm5. cbn zeta. by rewrite Hr, Hm5.
Qed.

Lemma on_txns_ok {A} (m : M (TransactionManager.t D R C) A) s s' a : Portal.on_txns m s = (s', Ok a) ->
  m s.1 = (s'.1, Ok a) /\ s'.2 = s.2.
Proof. unfold Portal.on_txns, zoom. destruct (m s.1) as [x r]. by intros [= <- ->]. Qed.

(** The text of an answer is what is sent, with a zero. *)
Lemma answer_ok text r r' : answer text (Z.of_nat (length text)) r = Ok r' ->
  take (Z.to_nat (offset r' + 1)) (data r') = text ++ [0] /\ outfile r' = outfile r.
Proof.
  unfold answer, copy. intros Hr. destruct (_ && _) eqn:E; [|done]. injection Hr as <-. cbn [data offset outfile].
  split; [|done]. rewrite !andb_true_iff, !Z.leb_le in E.
  assert (El : Z.to_nat (Z.of_nat (length text) + 1) = length (text ++ [0])) by (rewrite length_app; cbn [length]; lia).
  rewrite El. change (Z.to_nat 0) with 0%nat. unfold mem_read at 1. rewrite drop_0, firstn_all.
  apply (mem_read_write_same (data r) 0 (text ++ [0])); rewrite length_app; cbn [length]; lia.
Qed.

Lemma file_ok l (x x' : st) : Select.file l x = (x', Ok tt) -> x' = (x.1, to_file l x.2).
Proof. unfold Select.file. intros Hr. by apply Select.on_reply_ok in Hr as (r & [= <-] & ->). Qed.

(** What is answered to, and written for, a statement that throws [e]. *)
Definition failure_texts (e : exn) : option (bytes * bytes) :=
  match e with
  | TransactionAbortException _ _ => Some (str_bytes ("abort" +:+ endl), str_bytes ("abort" +:+ endl))
  | _ => (fun t => (str_bytes t ++ str_bytes endl, str_bytes ("failure" +:+ endl))) <$> error_text unix_msg e
  end.

Lemma on_exception_ok e s s' : on_exception junk junk_rid fuel unix_msg e s = (s', Ok tt) ->
  exists text line, failure_texts e = Some (text, line) /\
    take (Z.to_nat (offset s'.2 + 1)) (data s'.2) = text ++ [0] /\ outfile s'.2 = outfile s.2 ++ line.
Proof.
  assert (Hanswer : forall text line x, answer text (Z.of_nat (length text)) s.2 = Ok x ->
    take (Z.to_nat (offset (to_file line x) + 1)) (data (to_file line x)) = text ++ [0] /\
    outfile (to_file line x) = outfile s.2 ++ line).
  { intros text line x Hx. apply answer_ok in Hx as [Hx Ho]. cbn [to_file offset data outfile]. by rewrite Ho. }
  destruct e; cbn [on_exception failure_texts];
    try (destruct (error_text unix_msg _) as [text|]; [|unfold throw; intros Hr; discriminate Hr]; cbn [fmap option_fmap option_map]; intros Hr; eexists _, _; split; [reflexivity|];
      minv; destruct a; apply Select.on_reply_ok in Hm as (x & Hx & ->); apply file_ok in Hr as ->; by eapply Hanswer).
  intros Hr. eexists _, _; split; [reflexivity|]. minv. destruct a, a0.
  apply Select.on_reply_ok in Hm as (x & Hx & ->); apply file_ok in Hr as ->.
  apply on_txns_ok in Hm0 as [_ Hm0]. cbn [snd] in Hm0 |- *. rewrite Hm0. by eapply Hanswer.
Qed.

(** What is run of a request. *)
Definition statement (text : bytes) (txn_id : Z) : M st unit :=
  o ← lift (yyparse text);
  match o with Some parse => execute junk junk_rid fuel parse txn_id | None => mret tt end.

(** C26: a request that is answered was run in the transaction of the client, or in a new one when that
    has ended.  If the statement threw an error, what is sent is its text - [abort] for an exception of
    the transaction, and otherwise the text of the error - and output.txt has gained the line [abort],
    or the line [failure]; if it did not, what is sent is what it left in the reply.  And unless the
    transaction is of several statements, it is committed afterwards - in each of these cases - and
    holds no lock. *)
Theorem statement_ends s s' text txn_id id sent :
  handle_request junk junk_rid junk_mode junk_ts fuel unix_msg yyparse text true txn_id s = (s', Ok (id, sent)) ->
  exists s1 s2 s3 r,
    clear_reply s = (s1, Ok tt) /\ Portal.on_txns (SetTransaction junk_mode junk_ts txn_id) s1 = (s2, Ok id) /\
    statement text id s2 = (s3, r) /\ outfile s.2 = outfile s2.2 /\
    match r with
    | Ok _ => sent = take (Z.to_nat (offset s3.2 + 1)) (data s3.2) /\ outfile s'.2 = outfile s3.2
    | Throw e => exists t line, failure_texts e = Some (t, line) /\ sent = t ++ [0] /\ outfile s'.2 = outfile s3.2 ++ line
    end /\
    (Txn.txn_mode_ (txn_of s') = true \/ Txn.state_ (txn_of s') = COMMITTED /\ Txn.lock_set_ (txn_of s') = ∅).
Proof.
  intros Hr. unfold handle_request in Hr. minv. destruct a, a1.
  exists s0, s1. fold (statement text a0) in Hm1. unfold try_catch in Hm1.
  destruct (statement text a0 s1) as [s6 r] eqn:Er. exists s6, r.
  apply on_txns_ok in Hm0 as Hs. destruct Hs as [_ Hs].
  assert (Ho : outfile s.2 = outfile s1.2).
  { rewrite Hs. unfold clear_reply in Hm. apply Select.on_reply_ok in Hm as (x & [= <-] & ->). done. }
  unfold gets in Hm2. injection Hm2 as <- <-. unfold mret, M_ret in Hr. injection Hr as -> <- <-.
  apply on_txns_ok in Hm4 as [Hx Hs5]. unfold TransactionManager.txn, gets in Hx. injection Hx as Hx1 Hx2.
  assert (Hend : s'.2 = s2.2 /\ (Txn.txn_mode_ (txn_of s') = true \/ Txn.state_ (txn_of s') = COMMITTED /\ Txn.lock_set_ (txn_of s') = ∅)).
  { destruct (Txn.txn_mode_ a4) eqn:Em; cbn [whenM negb] in Hm3.
    - unfold mret, M_ret in Hm3. injection Hm3 as <- _. split; [done|]. left. unfold txn_of. by rewrite <- Hx1, Hx2.
    - apply on_txns_ok in Hm3 as [Hc Hs']. split; [congruence|]. right. by apply commit_ends in Hc. }
  destruct Hend as [Hend Hmode]. split_and!; [done..| |done]. rewrite Hend.
  destruct r as [a|e]; [injection Hm1 as <-; done|].
  apply on_exception_ok in Hm1 as (t & line & ? & ? & ?). by exists t, line.
Qed.
End ends.

(** ** A selection from one table *)
Section selection.
Context {D R C : Type} `{DiskLaws D} `{!Files D} `{!Shell D} `{ReplacerLaws R} `{TxnContext C} `{!HasTxn C} `{!StmtContext C}.
Context `{!StdSort}.
Context (junk : bytes) (junk_rid : Rid) (fuel : nat).
#[local] Abbreviation st := (TransactionManager.t D R C * reply)%type.
#[local] Abbreviation sm_of s := (TransactionManager.sm_ s.1).

(** The rows of a table: [tab] is its metadata, [f] its open file, [n] the length of its records,
    which are bytes, and none of its numbers is a NaN. *)
Record stored_table (s : SmManager.t D R C) (t : string) (tab : TabMeta) (f : Z * RmFileHdr) (n : nat) : Prop := {
  ta_meta : db_tabs (SmManager.db_ s) !! t = Some tab;
  ta_name : t <> "";
  ta_cols : Forall (Analyze.sound_col n t) (tm_cols tab);
  ta_file : SmManager.fhs_ s !! t = Some f;
  ta_open : open_ok s f;
  ta_size : record_size f.2 = Z.of_nat n;
  ta_bytes r d : records s f r = Some d -> Forall in_byte d;
  ta_number r d : records s f r = Some d -> Forall (fun c => cm_type c = TYPE_FLOAT ->
    f32_nan (load_u32 (drop (Z.to_nat (cm_offset c)) d) 0) = false) (tm_cols tab);
}.

Lemma sound_in n t c : Analyze.sound_col n t c -> Projection.col_in n c /\ Text.text_len c /\
  cm_type c <> TYPE_DOUBLE /\ Z.of_nat (col_width (cm_type c)) <= cm_len c.
Proof.
  intros [_ Hl Ho He]. unfold Analyze.sound_len in Hl. unfold Projection.col_in, Text.text_len. destruct (cm_type c); cbn; split_and!; try done; lia.
Qed.

Lemma chosen_sound cs sel srcs (P : ColMeta -> Prop) : Projection.chosen cs sel srcs -> Forall P cs -> Forall P srcs.
Proof.
  intros Hc Hp. induction Hc as [|k c sel srcs (i & Hg) Hc IH]; constructor; [|done].
  unfold Filter.get_col in Hg. destruct (Filter.find_tab_col cs k) as [j|]; [|done]. destruct (cs !! j) eqn:Ej; [|done].
  injection Hg as <- <-. exact (Forall_lookup_1 _ _ _ _ Hp Ej).
Qed.

Lemma width_bound n srcs : Forall (Projection.col_in n) srcs -> Projection.width srcs <= Z.of_nat (length srcs * n).
Proof. induction 1 as [|c cs (? & ? & ?) _ IH]; cbn [Projection.width foldr length]; [lia|]. fold (Projection.width cs). lia. Qed.

(** What is stored of the table: rows of one length, with a value for every key. *)
Lemma stored_rows s t tab f n L : stored_table s t tab f n -> SeqScan.all_of (records s f) L ->
  Forall (fun x => length x = n) L.*2 /\ (length L <= RmScan.scan_bound f.2)%nat /\
  forall sel ks, Portal.key_columns (tm_cols tab) sel ks -> Forall (Sort.comparable ks) L.*2.
Proof.
  intros Ht [Hs HL]. pose proof (ta_open _ _ _ _ _ Ht) as Hok.
  assert (Hd : forall r d, (r, d) ∈ L -> records s f r = Some d) by (intros r d Hr; by apply HL in Hr as [? _]).
  assert (Hlen : forall d, d ∈ L.*2 -> length d = n /\ exists r, records s f r = Some d).
  { intros d Hin. apply list_elem_of_fmap in Hin as ([r d'] & -> & Hin). cbn [snd]. pose proof (Hd _ _ Hin) as Hr.
    pose proof (Reads.record_length _ _ _ Hok Hr) as Hl. cbn in Hl. rewrite (ta_size _ _ _ _ _ Ht) in Hl. split; [lia|by exists r]. }
  split_and!.
  - apply Forall_forall. intros d Hin. by apply Hlen.
  - by eapply SeqScan.sorted_length.
  - intros sel ks Hk. apply Forall_forall. intros d Hin. destruct (Hlen d Hin) as [Hn (r & Hr)].
    pose proof (ta_number _ _ _ _ _ Ht _ _ Hr) as Hnan. pose proof (ta_cols _ _ _ _ _ Ht) as Hcs.
    unfold Sort.comparable. induction Hk as [|k [c desc] sel ks [(i & Hg) _] Hk IH]; [constructor|]. constructor; [|done]. cbn [fst] in *.
    assert (Hc : c ∈ tm_cols tab).
    { unfold Filter.get_col in Hg. destruct (Filter.find_tab_col _ _) as [j|]; [|done]. destruct (tm_cols tab !! j) eqn:Ej; [|done].
      injection Hg as <- <-. by eapply list_elem_of_lookup_2. }
    destruct (sound_in n t c) as ((I1 & I2 & I3) & _ & I4 & I5); [by eapply (proj1 (Forall_forall _ _) Hcs)|].
    unfold Sort.key_in. split_and!; try done; [by rewrite Hn|]. by eapply (proj1 (Forall_forall _ _) Hnan).
Qed.

Lemma stored_in_bytes s t tab f n L : stored_table s t tab f n -> SeqScan.all_of (records s f) L ->
  Forall (fun z => length z = n /\ Forall in_byte z) L.*2.
Proof.
  intros Ht HL. destruct (stored_rows _ _ _ _ _ _ Ht HL) as (Hlen & _ & _). destruct HL as [_ HL].
  apply Forall_forall. intros d Hin. split; [by apply (proj1 (Forall_forall _ _) Hlen)|].
  apply list_elem_of_fmap in Hin as ([r d'] & -> & Hin). apply HL in Hin as [Hr _]. by eapply (ta_bytes _ _ _ _ _ Ht).
Qed.

Lemma lines_projected n srcs l : Forall (Projection.col_in n) srcs -> Forall Text.text_len srcs -> Forall (fun x => length x = n) l ->
  Select.lines (Projection.offsets 0 srcs) (Projection.project srcs <$> l) = Select.lines srcs l.
Proof.
  intros Hi Ht. induction 1 as [|x l Hx Hl IH]; [done|]. rewrite fmap_cons. unfold Select.lines in *. cbn [foldr].
  rewrite (Text.columns_projected n) by done. by rewrite IH.
Qed.

(** The plan of a selection: its executors give the rows that are to be shown. *)
Lemma root_gives (s s' : SmManager.t D R C) x q t tab f n root o :
  stored_table s t tab f n -> tm_indexes tab = [] -> Analyze.q_tables q = [t] -> Analyze.q_parse q = ast.Select (ast.move_tabs x) ->
  in_i32 (Analyze.q_limit q) ->
  Forall (fun c => tc_tab_name (lhs_col c) = t /\ (is_rhs_val c = true \/ tc_tab_name (rhs_col c) = t)) (Analyze.q_conds q) ->
  Planner.physical_optimization (SmManager.db_ s) q = Ok root ->
  Portal.convert_plan_executor junk junk_rid fuel root s = (s', Ok o) ->
  calm s s' /\ exists p L shown, o = Some p /\ SeqScan.all_of (records s f) L /\
    Portal.shows_rows (tm_cols tab) q (ast.ss_has_sort x) L.*2 shown /\ Portal.gives s' p (tm_cols tab) shown.
Proof.
  intros Ht Hi Hq Hp Hlim Hc Hr Hconv. unfold Planner.physical_optimization in Hr.
  rewrite (Planner.plan_one_table _ _ _ _ (ta_meta _ _ _ _ _ Ht) Hi Hq Hc) in Hr.
  destruct (Planner.new_scan _ _ _ _ _) as [scan|] eqn:Es; [|done]. cbn [mbind res_bind] in Hr.
  assert (Hscan : exists len, scan = Planner.ScanPlan Planner.T_SeqScan t (tm_cols tab) (Analyze.q_conds q) len (Analyze.q_conds q) []).
  { unfold Planner.new_scan, get_table in Es. rewrite (ta_meta _ _ _ _ _ Ht) in Es. cbn [mbind res_bind tm_cols TabMeta_copy] in Es.
    destruct (last (tm_cols tab)); [|done]. injection Es as <-. by eexists. }
  destruct Hscan as [len ->]. unfold Planner.generate_sort_plan, Planner.select_of in Hr. rewrite Hp in Hr. cbn [mbind res_bind] in Hr.
  cbn [ast.ss_has_sort ast.move_tabs] in Hr. destruct (ast.ss_has_sort x) eqn:Esort; cbn [negb] in Hr.
  - destruct (Analyze.get_all_cols _ _ _); [|done]. injection Hr as <-.
    destruct (Portal.sort_gives _ _ _ _ _ _ _ _ _ _ Hconv) as (p & Hs & Hg).
    destruct (Portal.scan_gives _ _ _ _ _ _ _ _ _ _ _ _ _ _ (ta_meta _ _ _ _ _ Ht) (ta_file _ _ _ _ _ Ht) (ta_open _ _ _ _ _ Ht) Hs)
      as (Hcalm & p0 & L & [= <-] & HL & Hgives).
    destruct (stored_rows _ _ _ _ _ _ Ht HL) as (_ & _ & Hcmp).
    destruct (Hg t _ _ Hgives) as (ks & Hks & Hsorted); [|done|].
    { eapply Forall_impl; [exact (ta_cols _ _ _ _ _ Ht)|]. by intros c []. }
    destruct Hsorted as (p' & sorted & -> & S1 & S2 & S3 & S4).
    { apply Forall_forall. intros y Hy. apply list_elem_of_filter in Hy as [_ Hy]. by apply (proj1 (Forall_forall _ _) (Hcmp _ _ Hks)). }
    split; [done|]. eexists p', L, _. split_and!; [done..| |exact S4]. exists ks, sorted. by split_and!.
  - injection Hr as <-.
    destruct (Portal.scan_gives _ _ _ _ _ _ _ _ _ _ _ _ _ _ (ta_meta _ _ _ _ _ Ht) (ta_file _ _ _ _ _ Ht) (ta_open _ _ _ _ _ Ht) Hconv)
      as (Hcalm & p0 & L & -> & HL & Hgives).
    split; [done|]. by eexists p0, L, _.
Qed.

Lemma shown_rows cs q sort rows shown n : Portal.shows_rows cs q sort rows shown -> Forall (fun x => length x = n) rows ->
  Forall (fun x => length x = n) shown /\ (length shown <= length rows)%nat.
Proof.
  intros Hs Hr. unfold Portal.shows_rows in Hs. set (kept := base.filter _ rows) in Hs.
  assert (Hk : Forall (fun x => length x = n) kept /\ (length kept <= length rows)%nat).
  { split; [|apply length_filter]. apply Forall_forall. intros y Hy. apply list_elem_of_filter in Hy as [_ Hy].
    by apply (proj1 (Forall_forall _ _) Hr).  }
  destruct sort; [|by subst shown]. destruct Hs as (ks & sorted & _ & Hp & _ & _ & ->). destruct Hk as [K1 K2].
  pose proof (Permutation_length Hp). split; [|rewrite length_take; lia]. apply Forall_take. by rewrite Hp.
Qed.

(** C1: [select ... from t where ... order by ... limit ...] on a table without indexes: when the
    statement returns, output.txt has a line with the captions of the items and then, with the
    text of the columns they name, one line for each record of the table that satisfies the
    conditions of the statement, in the order of its keys if there are any, as many as its limit
    allows; the reply has the number of these lines; and the tables, their metadata and the open
    files are as they were.  What the items, the conditions and the keys of the syntax tree mean
    is said in [Meaning], without the analysis and the filter. *)
Theorem select_one_table (s s' : st) x t tab f n txn_id :
  stored_table (sm_of s) t tab f n -> tm_indexes tab = [] -> length junk = 8%nat ->
  ast.ss_tabs x = [t] -> ast.ss_has_aggregate x = false -> Forall (fun c => is_Some (ast.sc_col c)) (ast.ss_cols x) ->
  Forall (Analyze.scoped t) (ast.ss_conds x) -> Forall (Meaning.of_one_kind (tm_cols tab)) (ast.ss_conds x) -> in_i32 (ast.ss_limit x) ->
  Z.of_nat (Nat.max (length (ast.ss_cols x)) (length (tm_cols tab)) * n) < 2 ^ 31 -> Z.of_nat (RmScan.scan_bound f.2) < 2 ^ 64 ->
  execute junk junk_rid fuel (ast.Select x) txn_id s = (s', Ok tt) ->
  calm (sm_of s) (sm_of s') /\ exists L srcs shown text,
    SeqScan.all_of (records (sm_of s) f) L /\
    Forall2 (Meaning.item (tm_cols tab)) (Meaning.items (tm_cols tab) x) srcs /\
    Meaning.answer (tm_cols tab) x L.*2 shown /\
    Select.lines srcs shown = Ok text /\ length text = length shown /\
    outfile s'.2 = outfile s.2 ++ Text.line (Meaning.caption <$> Meaning.items (tm_cols tab) x) ++ concat text /\
    exists r, print_record_count (Z.of_nat (length shown)) r = Ok s'.2.
Proof.
  intros Ht Hi Hj Hx Hagg Hstar Hsc Hkind Hlim Hw Hn Hr. unfold execute in Hr.
  rewrite (bind_ok _ _ s s (SmManager.db_ (sm_of s))) in Hr by done.
  apply bind_inv in Hr as (s1 & q & Hq & Hr). unfold lift in Hq. injection Hq as <- Hq.
  destruct (Analyze.analyzed_select _ _ _ junk (ta_meta _ _ _ _ _ Ht) x q Hx Hq) as (Q1 & Q2 & Q3 & Q4 & Q5).
  pose proof (Analyze.checked_scoped _ _ _ n junk (ta_meta _ _ _ _ _ Ht) (ta_name _ _ _ _ _ Ht) (ta_cols _ _ _ _ _ Ht) _ _ Hsc Q4) as Hc.
  apply bind_inv in Hr as (s1 & plan & Hp & Hr). unfold lift in Hp. injection Hp as <- Hp.
  unfold Planner.plan_query, Planner.do_planner in Hp. rewrite Q2 in Hp. unfold Planner.generate_select_plan, Planner.logical_optimization in Hp.
  destruct (Planner.physical_optimization _ q) as [root|] eqn:Eroot; [|done]. cbn [mbind res_bind] in Hp.
  unfold Planner.select_of in Hp. rewrite Q2 in Hp. cbn [mbind res_bind ast.ss_has_aggregate ast.move_tabs] in Hp. rewrite Hagg in Hp. injection Hp as <-.
  apply bind_inv in Hr as (s1 & stmt & Hst & Hr). unfold Portal.on_sm, Portal.on_txns, TransactionManager.on_sm, zoom in Hst.
  destruct (Portal.start _ _ _ _ (sm_of s)) as [sm1 r1] eqn:Est. injection Hst as <- ->.
  cbn [Portal.start] in Est. apply bind_inv in Est as (sm2 & o & Hconv & Est). unfold mret, M_ret in Est. injection Est as <- <-.
  destruct (Portal.projection_gives _ _ _ _ _ _ _ _ _ Hconv) as (p & Hroot & Hproj).
  destruct (root_gives _ _ x q t tab f n root _ Ht Hi Q1 Q2 ltac:(by rewrite Q3) Hc Eroot Hroot) as (Hcalm & p0 & L & shown & [= <-] & HL & Hshow & Hg).
  destruct (stored_rows _ _ _ _ _ _ Ht HL) as (Hlen & Hbound & _).
  destruct (shown_rows _ _ _ _ _ _ Hshow Hlen) as [Hslen Hsnum].
  assert (Hsound : Forall (fun c => Projection.col_in n c /\ Text.text_len c) (tm_cols tab)).
  { eapply Forall_impl; [exact (ta_cols _ _ _ _ _ Ht)|]. intros c Hcs. destruct (sound_in n t c Hcs) as (? & ? & _). done. }
  destruct (Hproj n (tm_cols tab) shown Hg) as (srcs & C1 & C2 & C3); [|done|].
  { eapply Forall_impl; [exact Hsound|]. by intros c []. }
  pose proof (chosen_sound _ _ _ _ C1 Hsound) as Hsrcs.
  destruct C3 as (p' & -> & Hg').
  { pose proof (width_bound n srcs C2). pose proof (Forall2_length _ _ _ C1). nia. }
  destruct (Portal.run_select junk junk_rid fuel p' (TransactionManager.set_sm sm2 s.1, s.2) s' (Projection.offsets 0 srcs)
    (Projection.project srcs <$> shown) (Analyze.q_cols q) (Planner.DMLPlan Planner.T_select
      (Planner.ProjectionPlan Planner.T_Projection root (Analyze.q_cols q)) "" [] [] []) txn_id Hg') as (Hcalm' & text & Ht' & Hl' & Ho & Hcount);
    [rewrite length_fmap; rewrite length_fmap in Hsnum; lia|exact Hr|].
  rewrite length_fmap in Hl', Hcount. rewrite (lines_projected n) in Ht'; [|done|by eapply Forall_impl; [exact Hsrcs|]; intros c []|done].
  split; [by eapply calm_trans|].
  destruct (Meaning.selected_items _ _ _ _ _ (ta_meta _ _ _ _ _ Ht) (ta_name _ _ _ _ _ Ht) (ta_cols _ _ _ _ _ Ht) x q srcs Hx Hstar Hq C1)
    as [Hitems <-].
  exists L, srcs, shown, text. do 2 (split; [done|]). split; [|by split_and!].
  apply (Meaning.shows_answer _ _ _ _ _ (ta_meta _ _ _ _ _ Ht) (ta_name _ _ _ _ _ Ht) (ta_cols _ _ _ _ _ Ht) Hj x q); try done.
  by eapply stored_in_bytes.
Qed.
End selection.
(** *** The table of the record manager's history, queried *)
Section examples.
Import SmManager.
#[local] Existing Instance demo_TxnContext.
#[local] Existing Instance demo_StmtContext.
#[local] Existing Instance demo_Shell.
#[local] Existing Instance Insertion.insertion_sort.
#[local] Abbreviation demo_txns := (TransactionManager.t (DiskManager.t MemFs.t) LRUReplacer.t (Context.t (DiskManager.t MemFs.t))).

Definition demo_st : demo_txns * reply := (TransactionManager.make scan_db TWO_PHASE_LOCKING, empty_reply).
Definition demo_junk : bytes := replicate 8 170.
(** [select a as first, t.a from t where a > 50529027 order by a desc limit 2]. *)
Definition demo_select : ast.SelectStmt :=
  ast.new_select
    [ast.mkSelectCol ast.SV_FUNC_NULL (Some (ast.mkCol "" "a")) "first"; ast.mkSelectCol ast.SV_FUNC_NULL (Some (ast.mkCol "t" "a")) ""]
    ["t"] [ast.mkBinaryExpr (ast.mkCol "" "a") ast.SV_OP_GT (ast.EValue (ast.IntLit 50529027))]
    [ast.mkOrderBy (ast.mkCol "" "a") ast.OrderBy_DESC] 2.
Definition demo_execute := execute demo_junk (mkRid 0 0) 20 (ast.Select demo_select) 0 demo_st.

(** The pages of the table hold bytes. *)
Lemma paged_bytes (h : RmFileHandle.t (DiskManager.t MemFs.t) LRUReplacer.t (Context.t (DiskManager.t MemFs.t))) r d :
  (forall p, RmFileHandle.in_file (RmFileHandle.file_hdr_ h) p ->
    Forall in_byte (default [] (BufferPool.view (RmFileHandle.bpm h) (RmFileHandle.page_of h p)))) ->
  RmFileHandle.table h r = Some d -> Forall in_byte d.
Proof.
  intros Hp. unfold RmFileHandle.table. case_decide as Hin; [|done]. specialize (Hp _ Hin). revert Hp.
  destruct (BufferPool.view _ _) as [pg|]; [|done]. cbn [mbind option_bind default]. unfold RmPage.slots. intros Hb.
  case_decide; [|done]. destruct (Bitmap.is_set _ _); [|done]. intros [= <-]. unfold RmPage.read_slot, mem_read.
  by apply Forall_take, Forall_drop.
Qed.

Lemma demo_bytes r d : records (TransactionManager.sm_ demo_st.1) scan_file r = Some d -> Forall in_byte d.
Proof.
  apply paged_bytes. intros p [H1 H2].
  assert (E : num_pages (RmFileHandle.file_hdr_ (handle_in (TransactionManager.sm_ demo_st.1) scan_file)) = 3) by (vm_compute; reflexivity).
  rewrite E in H2. unfold RM_FIRST_RECORD_PAGE in H1. assert (p = 1 \/ p = 2) as [-> | ->] by lia;
    apply Filter.bytes_checked; vm_compute; reflexivity.
Qed.

Lemma demo_stored : stored_table (TransactionManager.sm_ demo_st.1) "t" (mkTabMeta "t" (scan_cols "t") []) scan_file 512.
Proof.
  split; [reflexivity|done| |reflexivity| |reflexivity|exact demo_bytes|].
  - repeat constructor; done.
  - exact (proj2 (scan_demo_ok [])).
  - intros r d _. repeat constructor; done.
Qed.

(** Of the records of 2 to 8, those of 8 and 7. *)
Lemma select_one_table_witness :
  match demo_execute with
  | (s', Ok tt) =>
      outfile s'.2 = str_bytes ("| first | a |" +:+ endl +:+ "| 134744072 | 134744072 |" +:+ endl +:+ "| 117901063 | 117901063 |" +:+ endl) /\
      calm (TransactionManager.sm_ demo_st.1) (TransactionManager.sm_ s'.1) /\ exists L shown,
        SeqScan.all_of (records scan_db scan_file) L /\ Meaning.answer (scan_cols "t") demo_select L.*2 shown
  | _ => False
  end.
Proof.
  destruct demo_execute as [s' [[]|e]] eqn:E; unfold demo_execute in E.
  - split.
    + apply (f_equal (fun r => outfile r.1.2)) in E. cbn [fst] in E. rewrite <- E. vm_compute. reflexivity.
    + destruct (select_one_table demo_junk (mkRid 0 0) 20 demo_st s' demo_select "t" (mkTabMeta "t" (scan_cols "t") []) scan_file 512 0
        demo_stored eq_refl eq_refl eq_refl eq_refl) as (Hc & L & srcs & shown & text & HL & _ & Hs & _);
        [| | |split; by vm_compute|by vm_compute|by vm_compute|exact E|].
      * constructor; [eexists; reflexivity|constructor; [eexists; reflexivity|constructor]].
      * repeat constructor.
      * repeat constructor.
      * split; [exact Hc|]. exists L, shown. split; [exact HL|exact Hs].
  - apply (f_equal (fun r => match r.2 with Ok _ => true | _ => false end)) in E.
    cbn [snd] in E. vm_compute in E. discriminate E.
Defined.

(** A parser that knows one statement, [select * from u]. *)
Definition demo_parse (text : bytes) : res (option ast.TreeNode) :=
  if bool_decide (text = str_bytes "select * from u;") then Ok (Some (ast.Select (ast.new_select [] ["u"] [] [] (-1)))) else Ok None.
Definition demo_request := handle_request demo_junk (mkRid 0 0) true 0 20 "Error" demo_parse (str_bytes "select * from u;") true INVALID_TXN_ID demo_st.

Definition demo_sent : bytes := str_bytes ("Error: Table not found: u" +:+ endl) ++ [0].

Lemma returned {S A} (r : S * res A) a : r.2 = Ok a -> r = (r.1, Ok a).
Proof. destruct r as [x y]. by intros [= ->]. Qed.
Lemma demo_answer : demo_request.2 = Ok (0, demo_sent).
Proof. vm_compute. reflexivity. Qed.
Lemma demo_single : Txn.txn_mode_ (txn_of demo_request.1) = false.
Proof. vm_compute. reflexivity. Qed.
Lemma demo_line : outfile demo_request.1.2 = str_bytes ("failure" +:+ endl).
Proof. vm_compute. reflexivity. Qed.

(** There is no such table; the transaction of the statement, the first one, is committed. *)
Lemma statement_ends_witness :
  demo_request.2 = Ok (0, demo_sent) /\ outfile demo_request.1.2 = str_bytes ("failure" +:+ endl) /\
  Txn.state_ (txn_of demo_request.1) = COMMITTED /\ Txn.lock_set_ (txn_of demo_request.1) = ∅.
Proof.
  split; [exact demo_answer|]. split; [exact demo_line|].
  pose proof (returned _ _ demo_answer) as E. pose proof demo_single as Hm. revert E Hm.
  generalize demo_request.1 as s'. unfold demo_request. intros s' E Hm.
  destruct (statement_ends _ _ _ _ _ _ _ _ _ _ _ _ _ E) as (s1 & s2 & s3 & r & _ & _ & _ & _ & _ & [H|H]); [|exact H].
  exfalso. rewrite Hm in H. discriminate H.
Defined.
End examples.
End Server.
